(* ===== verification/_CoqProject ===== *)
-Q . S2P
Prelude.v
PmmBoot.v
Pmm.v
PmmInit.v
Slab.v
SlabInit.v
Subpage.v
CList.v
Vmm.v
Vma.v
Malloc.v
RbTree.v
Sched.v
SchedSafe.v
ElfLayout.v
Bytes.v
Ext2.v
Ext2Alloc.v
Ext2File.v
Ext2Mount.v
Ext2Dir.v
Ext2Name.v
Ext2Check.v
Ext2Demo.v
Conc.v
SpinLock.v
Rwlock.v
Seqlock.v
Mutex.v
Futex.v
Strtol.v
Printf.v
Qsort.v
Fnmatch.v
Timer.v
Pipe.v
Canon.v
