(* ===== verification/Prelude.v ===== *)
(** * OS01: a verification of its memory, scheduling, file-system, locking and library code

    OS01 is a hobby operating system in C for x86_64 and aarch64.  This library
    models parts of its kernel (src/kernel) and C library (src/libc) as
    executable definitions, translated function by function, and proves what
    makes them correct.  A definition keeps the name of the C function it
    translates; parts of a function that are definitions of their own say so.

    ** The parts of the program and the files that model them

    Physical memory.  src/kernel/memory/pmm_boot.c computes where the boot
    metadata go (PmmBoot.v); src/kernel/memory/pmm.c hands out 2 MiB frames from
    zones and a bitmap (Pmm.v), is started from the firmware's memory map
    (PmmInit.v), and cuts frames into 4 KiB pages with copy-on-write counts
    (Subpage.v).  src/kernel/memory/slab.c serves kernel objects from frames
    (Slab.v) and is started by [slab_init] (SlabInit.v).  The slabs and the
    pools use frames through the classes [PageSource] and [FrameSource], which
    the frame allocator of Pmm.v implements.

    Virtual memory.  src/kernel/memory/vmm.c walks, maps and unmaps 4 KiB pages
    in four levels of tables (Vmm.v), which implement the class [PageTable], a
    flat map from pages to entries.  On that interface stand the address spaces
    of src/kernel/memory/vma.c: mmap, munmap, mprotect, brk, fork (Vma.v).
    src/kernel/fs/elf_layout.c decides which program images may be loaded
    (ElfLayout.v).  src/libc/stdlib/malloc.c is the user heap over brk
    (Malloc.v), whose interface of the break the address spaces implement.

    Data structures.  The circular lists of src/libc/include/list.h (CList.v)
    and the red-black tree of src/libc/rbtree/rbtree.c (RbTree.v), both on a
    heap of nodes, refined to sequences and trees.

    Scheduling.  src/kernel/sched/fair.c, balance.c and core.c: run queues on
    the red-black tree, placement, balancing, wake-up, blocking and switching
    (Sched.v), and several CPUs that interleave the critical sections of these
    functions (SchedSafe.v).

    The ext2 driver, src/kernel/fs/ext2.c, on the block layer of
    src/kernel/block/blockdev.c and the node registry of src/kernel/fs/vfs.c.
    Bytes.v has packed little-endian structures; Ext2.v the monad, the transfers
    and the on-disk structures; Ext2Alloc.v the bitmaps and counters; Ext2File.v
    the block map, read, write, truncate and reclaiming; Ext2Mount.v mounting;
    Ext2Dir.v directory entries; Ext2Name.v the operations on names.
    Ext2Check.v is a verified checker of the invariants, and Ext2Demo.v a volume
    that passes it, on which the theorems are applied.

    Locks.  Conc.v has threads that interleave on a shared memory, counting,
    and fair runs.  On it: the spin locks of both architectures (SpinLock.v),
    src/kernel/sync/rwlock.c (Rwlock.v), seqlock.c on the spin lock
    (Seqlock.v), wait.c, mutex.c and completion.c (Mutex.v), futex.c with
    src/libc/pthread/mutex.c (Futex.v).

    Pipes, terminals and timers.  The pipes of src/kernel/fs/file.c, on Conc.v
    and the wait queues (Pipe.v); the canonical line discipline of
    src/kernel/tty/canon.c (Canon.v); src/kernel/time/timer.c (Timer.v).

    The C library.  src/libc/stdlib/strtol.c (Strtol.v), the formatter of
    src/libc/stdio/vsprintf.c and the functions on top of it (Printf.v),
    src/libc/stdlib/qsort.c on a byte memory (Qsort.v), and
    src/libc/string/fnmatch.c (Fnmatch.v).

    ** How code becomes definitions

    Machine integers are [Z] with the wrap-around of their C type written out
    ([wrap64], [wrap32], [sint32], the notations [+u], [-u], [*u]).  State is
    passed explicitly: records for the frame allocator, pools, slabs and address
    spaces, a heap of nodes or bytes where the code follows pointers, and state
    monads for the tree ([RbTree.M]) and for ext2 ([Ext2.M]).  [None] of a
    monad is undefined behaviour, such as following a bad pointer; the theorems
    show that it is not reached.  A C error code is the value the function
    returns.  In the ext2 model the result of every allocation and of every
    transfer is read from a stream the caller chooses, so all error branches
    are in the definitions.  The invariants of an ext2 volume, and with them
    the theorems on files and names, are for a stream without failures
    ([no_failure], part of [ready]); what holds whatever fails is said where it
    is proved ([ext2_alloc_block_correct], [ext2_dirent_refines]).

    Locks are the boundaries of steps.  The memory and ext2 operations run
    under one lock each and are single functions.  The scheduler's critical
    sections are the steps of SchedSafe.v.  In the lock files a step is one
    atomic access, under sequential consistency; a critical section of a
    spin lock that SpinLock.v proves exclusive is one step of the code above it.

    ** What the theorems show

    - Allocators (Pmm, Subpage, Slab, Malloc): what is returned was free and is
      now exactly what is allocated, and overlaps no record of the allocator;
      freeing undoes it; counters agree with bitmaps; failure has the causes
      stated and changes nothing; booting establishes the invariants.
    - Page tables and address spaces (Vmm, Vma): each operation changes exactly
      the translations and intervals it should, with roll-back on failure.
    - ElfLayout: the validator accepts exactly the images that satisfy a
      declarative specification.
    - RbTree, CList: the pointer operations implement operations on sequences,
      keep the balance of the tree and touch nothing else; a descent is at most
      twice the logarithm of the size, plus one.
    - Sched, SchedSafe: in every interleaving a task runs on at most one CPU, no
      runnable task is lost and the code never follows a bad pointer; the
      balancer and the choice of the next task take the tasks they should.
    - Ext2*: on a device and an allocator that do not fail, the allocators,
      reading, writing, truncating, directories as finite maps, creation,
      unlinking while a file is open, and remounting; whatever fails, the block
      allocator hands out free blocks only and a search finds no wrong entry.
    - Locks: exclusion in every interleaving; progress, as a liveness property
      of fair infinite runs; consistent copies under the sequence lock; no lost
      wake-ups in the mutexes (in the pthread mutex with a futex bucket to
      itself).
    - Pipe, Canon: bytes come out in the order they went in, none lost or
      repeated, in every interleaving of readers and writers, also when calls
      fail half-way.  Timer: a timer is linked exactly while it is active, and
      none fires early.
    - Strtol, Printf: the value or the error of every non-negative numeral;
      output that never leaves its buffer; printed numbers parse back.  Qsort:
      a sorted permutation.  Fnmatch: what is accepted matches the pattern, and
      patterns without stars are decided exactly.
    - Theorems named in the findings show where the code departs from its
      intention, each by a run of the definitions or a closed proof.

    ** Bounds and fuel

    Loops that are not structural carry fuel, computed from the state, and the
    theorems show that it suffices: the number of blocks the break can hold
    (Malloc), two more than the number of nodes (RbTree), the number of tasks
    (Sched), the block and directory sizes (Ext2), the number of elements
    (Qsort), the length of the format (Printf), the room in the line buffer
    (Canon).  [Fnmatch.fnmatch] does not always end, and its theorems say for
    which fuel they hold.  The lock theorems bound the
    number of threads so that the 64-bit words do not overflow: 2^63 threads for
    the spin lock, 2^31 threads and 2^32 read locks for the reader/writer lock,
    2^63 write sections for the sequence lock.  These are the limits of the
    fields themselves.

    ** Not modelled

    Code whose meaning is in the hardware (drivers, interrupt and exception
    entry, context switches, TLB, boot loader); weak memory ordering; the
    initialisation order; process creation, signals and program execution; path
    walking, the caches and the other file systems; descriptor tables, polling,
    terminal devices, networking; of the C library streams, floating point,
    formatted input, most string functions and the system-call wrappers;
    libraries for graphics, user programs and third-party code.  Of the modelled files: in vmm.c the 2 MiB boot
    mappings and copies of whole trees; in vma.c [user_write_range_begin]; in
    core.c the task list and statistics; in ext2.c getattr and unmounting; in
    futex.c the address checks; of the pipes the return values and the poll
    entries; in vsprintf.c [vf_float]; in slab.c [kzalloc]. *)

(** Shared vocabulary: C integer arithmetic at its width, error codes,
    index-addressed arrays, and the automation the component files use. *)

From stdpp Require Import base tactics numbers option list.
From Stdlib Require Import ZArith Lia Zbitwise.

#[global] Open Scope Z_scope.

(** ** Machine words *)

(** The number of values of [uint64_t], [uint32_t], [uint16_t] and [uint8_t].
    They are abbreviations of literals so that [lia] sees through them. *)
Abbreviation U64 := 18446744073709551616 (only parsing).
Abbreviation UINT64_MAX := 18446744073709551615 (only parsing).
Abbreviation U32 := 4294967296 (only parsing).
Abbreviation UINT32_MAX := 4294967295 (only parsing).

(** Reduction of a mathematical integer to the value an unsigned object of
    the given width holds. *)
Definition wrap64 (x : Z) : Z := x mod U64.
Definition wrap32 (x : Z) : Z := x mod U32.
Definition wrap16 (x : Z) : Z := x mod 65536.
Definition wrap8 (x : Z) : Z := x mod 256.

(** Two's complement reading of a 64-, 32-, 16- or 8-bit pattern, the result
    of a C conversion to [int64_t], [int32_t], [int16_t] or [int8_t]. *)
Definition sint64 (x : Z) : Z := (x + 9223372036854775808) mod U64 - 9223372036854775808.
Definition sint32 (x : Z) : Z := (x + 2147483648) mod U32 - 2147483648.
Definition sint16 (x : Z) : Z := (x + 32768) mod 65536 - 32768.
Definition sint8 (x : Z) : Z := (x + 128) mod 256 - 128.

(** [~m] on a 64-bit operand. *)
Definition not64 (m : Z) : Z := UINT64_MAX - m.

(** [x << n] and [x >> n] on [uint64_t].  C leaves a count of 64 or more
    undefined; the model takes the count modulo 64, which is what the x86_64
    [shl]/[shr] instructions do. *)
Definition shl64 (x n : Z) : Z := wrap64 (Z.shiftl x (n mod 64)).
Definition shr64 (x n : Z) : Z := Z.shiftr x (n mod 64).

Declare Scope c_scope.
Delimit Scope c_scope with C.
Notation "x +u y" := (wrap64 (x + y)) (at level 50, left associativity) : c_scope.
Notation "x -u y" := (wrap64 (x - y)) (at level 50, left associativity) : c_scope.
Notation "x *u y" := (wrap64 (x * y)) (at level 40, left associativity) : c_scope.
Notation "x &~ m" := (Z.land x (not64 m)) (at level 40, left associativity) : c_scope.
#[global] Open Scope c_scope.

(** A value a [uint64_t] can hold. *)
Definition is_u64 (x : Z) : Prop := 0 <= x < U64.

(** ** errno values (libc/include/errno.h) *)
Abbreviation EPERM := 1 (only parsing).
Abbreviation ENOENT := 2 (only parsing).
Abbreviation ESRCH := 3 (only parsing).
Abbreviation EINTR := 4 (only parsing).
Abbreviation ENOEXEC := 8 (only parsing).
Abbreviation EBADF := 9 (only parsing).
Abbreviation EAGAIN := 11 (only parsing).
Abbreviation ENOMEM := 12 (only parsing).
Abbreviation EFAULT := 14 (only parsing).
Abbreviation EEXIST := 17 (only parsing).
Abbreviation EINVAL := 22 (only parsing).
Abbreviation ERANGE := 34 (only parsing).
Abbreviation EOVERFLOW := 75 (only parsing).

(** ** Automation *)

(** Case analysis on the boolean tests of a translated function, turning each
    into the proposition it decides. *)
Ltac bool_step :=
  match goal with
  | H : context [Z.eqb ?a ?b] |- _ => destruct (Z.eqb_spec a b)
  | H : context [Z.ltb ?a ?b] |- _ => destruct (Z.ltb_spec a b)
  | H : context [Z.leb ?a ?b] |- _ => destruct (Z.leb_spec a b)
  | |- context [Z.eqb ?a ?b] => destruct (Z.eqb_spec a b)
  | |- context [Z.ltb ?a ?b] => destruct (Z.ltb_spec a b)
  | |- context [Z.leb ?a ?b] => destruct (Z.leb_spec a b)
  end.
Ltac bools := repeat (bool_step; simpl in *).

(** [lia] with the defining equations of [/] and [mod]. *)
Ltac dlia := Z.div_mod_to_equations; lia.

Create HintDb cint.

Lemma wrap64_range x : 0 <= wrap64 x < U64.
Proof. apply Z.mod_pos_bound. lia. Qed.

Lemma wrap64_small x : 0 <= x < U64 -> wrap64 x = x.
Proof. intros. unfold wrap64. by apply Z.mod_small. Qed.

Lemma wrap64_is_u64 x : is_u64 (wrap64 x).
Proof. apply wrap64_range. Qed.
#[export] Hint Resolve wrap64_range wrap64_is_u64 : cint.

(** Remove every wrap-around whose argument is in range. *)
Ltac unwrap :=
  repeat match goal with
  | |- context [wrap64 ?x] => rewrite (wrap64_small x) by lia
  | H : context [wrap64 ?x] |- _ => rewrite (wrap64_small x) in H by lia
  end.

(** ** Masks *)

Lemma land_not64 x m : 0 <= x < U64 -> 0 <= m < U64 -> x &~ m = Z.ldiff x m.
Proof.
  intros Hx Hm. unfold not64.
  apply Z.bits_inj'. intros i Hi.
  rewrite Z.land_spec, Z.ldiff_spec.
  destruct (decide (i < 64)) as [Hlt|Hge].
  - f_equal. replace (UINT64_MAX - m) with (Z.lnot m + 2 ^ 64) by (unfold Z.lnot; lia).
    rewrite <- (Z.mod_pow2_bits_low _ 64 i) by lia.
    replace (Z.lnot m + 2 ^ 64) with (Z.lnot m + 1 * 2 ^ 64) by lia.
    rewrite Z.mod_add by lia.
    rewrite Z.mod_pow2_bits_low by lia. by rewrite Z.lnot_spec.
  - rewrite (Z.bits_above_log2 x i); [done| lia |].
    destruct (decide (x = 0)) as [->|]; [cbn; lia|].
    apply Z.log2_lt_pow2; [lia|].
    apply Z.lt_le_trans with (2 ^ 64); [lia|]. apply Z.pow_le_mono_r; lia.
Qed.

(** [x & ~(2^k - 1)] rounds down to a multiple of [2^k]. *)
Lemma land_not_mask x k :
  0 <= x < U64 -> 0 <= k < 64 -> x &~ (2 ^ k - 1) = x - x mod 2 ^ k.
Proof.
  intros Hx Hk.
  assert (0 < 2 ^ k) by (apply Z.pow_pos_nonneg; lia).
  assert (2 ^ k < U64) by (change U64 with (2 ^ 64); apply Z.pow_lt_mono_r; lia).
  rewrite land_not64 by lia.
  replace (2 ^ k - 1) with (Z.ones k) by (rewrite Z.ones_equiv; lia).
  rewrite Z.ldiff_ones_r, Z.shiftl_mul_pow2, Z.shiftr_div_pow2 by lia.
  pose proof (Z.div_mod x (2 ^ k)). lia.
Qed.

(** [x & (2^k - 1)] is the remainder. *)
Lemma land_mask x k : 0 <= k -> Z.land x (2 ^ k - 1) = x mod 2 ^ k.
Proof.
  intros Hk. replace (2 ^ k - 1) with (Z.ones k) by (rewrite Z.ones_equiv; lia).
  by apply Z.land_ones.
Qed.

(** A word assembled from a 4 KiB-aligned address and low flag bits. *)
Lemma land_page_low pa x : pa mod 4096 = 0 -> 0 <= x < 4096 -> Z.land pa x = 0.
Proof.
  intros Hp Hx. assert (x = Z.land (2 ^ 12 - 1) x) as ->.
  { rewrite Z.land_comm, land_mask by lia. by rewrite Z.mod_small by lia. }
  rewrite Z.land_assoc, land_mask by lia. change (2 ^ 12) with 4096. by rewrite Hp, Z.land_0_l.
Qed.

Lemma lor_page pa f : pa mod 4096 = 0 -> 0 <= f < 4096 -> Z.lor pa f = pa + f.
Proof. intros Hp Hf. rewrite <- Z.add_lor_land, (land_page_low pa f) by done. lia. Qed.

Lemma lor_page_flags pa f x :
  pa mod 4096 = 0 -> 0 <= x < 4096 -> Z.land (Z.lor pa f) x = Z.land f x.
Proof. intros Hp Hx. by rewrite Z.land_lor_distr_l, land_page_low by done. Qed.

Lemma lor_page_addr pa f :
  0 <= pa -> pa mod 4096 = 0 -> 0 <= f < 4096 -> pa + f < U64 -> Z.lor pa f &~ 4095 = pa.
Proof.
  intros H0 Hp Hf Hu. rewrite lor_page by done. change 4095 with (2 ^ 12 - 1).
  rewrite land_not_mask by lia. change (2 ^ 12) with 4096. dlia.
Qed.

Lemma page_addr x : 0 <= x < U64 -> x &~ 4095 = x / 4096 * 4096.
Proof.
  intros Hx. change 4095 with (2 ^ 12 - 1). rewrite land_not_mask by lia. change (2 ^ 12) with 4096. dlia.
Qed.

(** ** Single bits *)

Lemma shl64_one n : 0 <= n < 64 -> shl64 1 n = 2 ^ n.
Proof.
  intros Hn. unfold shl64. rewrite Z.mod_small, Z.shiftl_1_l by lia.
  apply wrap64_small. split; [apply Z.pow_nonneg; lia|].
  change U64 with (2 ^ 64). apply Z.pow_lt_mono_r; lia.
Qed.

Lemma testbit_pow2 n m : 0 <= n -> Z.testbit (2 ^ n) m = (n =? m).
Proof. intros. rewrite Z.pow2_bits_eqb by lia. done. Qed.

(** The C idiom [w & (1UL << n)] tests bit [n]. *)
Lemma land_bit_test w n :
  0 <= n < 64 -> negb (Z.land w (shl64 1 n) =? 0) = Z.testbit w n.
Proof.
  intros Hn. rewrite shl64_one by done.
  destruct (Z.testbit w n) eqn:Hb.
  - destruct (Z.eqb_spec (Z.land w (2 ^ n)) 0) as [H0|]; [|done].
    assert (Z.testbit (Z.land w (2 ^ n)) n = false) as Hf by (rewrite H0; apply Z.bits_0).
    rewrite Z.land_spec, Hb, testbit_pow2, Z.eqb_refl in Hf by lia. done.
  - replace (Z.land w (2 ^ n)) with 0; [done|].
    symmetry. apply Z.bits_inj'. intros m Hm.
    rewrite Z.land_spec, testbit_pow2, Z.bits_0 by lia.
    destruct (Z.eqb_spec n m) as [<-|]; [by rewrite Hb | by rewrite andb_false_r].
Qed.

Lemma lor_bit_spec w n m :
  0 <= n < 64 -> Z.testbit (Z.lor w (shl64 1 n)) m = Z.testbit w m || (n =? m).
Proof. intros. by rewrite shl64_one, Z.lor_spec, testbit_pow2 by lia. Qed.

Lemma lxor_bit_spec w n m :
  0 <= n < 64 -> Z.testbit (Z.lxor w (shl64 1 n)) m = xorb (Z.testbit w m) (n =? m).
Proof. intros. by rewrite shl64_one, Z.lxor_spec, testbit_pow2 by lia. Qed.

Lemma pow2_u64 n : 0 <= n < 64 -> 0 < 2 ^ n < U64.
Proof.
  intros. split; [apply Z.pow_pos_nonneg; lia|].
  change U64 with (2 ^ 64). apply Z.pow_lt_mono_r; lia.
Qed.

Lemma clear_bit_spec w n m :
  0 <= w < U64 -> 0 <= n < 64 ->
  Z.testbit (w &~ shl64 1 n) m = Z.testbit w m && negb (n =? m).
Proof.
  intros Hw Hn. pose proof (pow2_u64 n Hn).
  by rewrite shl64_one, land_not64, Z.ldiff_spec, testbit_pow2 by lia.
Qed.

(** A number below [2^64] is determined by, and has no bits above, its low 64
    bits. *)
Lemma u64_bits_above w m : 0 <= w < U64 -> 64 <= m -> Z.testbit w m = false.
Proof.
  intros Hw Hm. destruct (decide (w = 0)) as [->|]; [apply Z.bits_0|].
  apply Z.bits_above_log2; [lia|]. apply Z.log2_lt_pow2; [lia|].
  apply Z.lt_le_trans with (2 ^ 64); [lia|]. apply Z.pow_le_mono_r; lia.
Qed.

Lemma u64_of_bits w : 0 <= w -> (forall m, 64 <= m -> Z.testbit w m = false) -> w < U64.
Proof.
  intros Hw Hb. destruct (Z.lt_ge_cases w U64) as [|Hge]; [done|].
  assert (64 <= Z.log2 w) by (apply Z.log2_le_pow2; lia).
  specialize (Hb (Z.log2 w) ltac:(lia)). rewrite Z.bit_log2 in Hb by lia. done.
Qed.

Lemma testbit_ones64 m : 0 <= m < 64 -> Z.testbit UINT64_MAX m = true.
Proof. intros. change UINT64_MAX with (Z.ones 64). apply Z.ones_spec_low. lia. Qed.

(** The smallest multiple of [a] that is at least [x]. *)
Definition align_up (x a : Z) : Z := (x + a - 1) / a * a.

Lemma align_up_bounds x a : 0 < a -> x <= align_up x a < x + a.
Proof.
  intros. unfold align_up.
  pose proof (Z.div_mod (x + a - 1) a). pose proof (Z.mod_pos_bound (x + a - 1) a). lia.
Qed.

Lemma align_up_mod x a : 0 < a -> align_up x a mod a = 0.
Proof. intros. unfold align_up. apply Z.mod_mul. lia. Qed.

Lemma align_up_id x a : 0 < a -> x mod a = 0 -> align_up x a = x.
Proof.
  intros Ha Hx. unfold align_up.
  pose proof (Z.div_mod x a).
  replace (x + a - 1) with (x / a * a + (a - 1)) by lia.
  rewrite Z.div_add_l, (Z.div_small (a - 1)) by lia. lia.
Qed.

(** Rounding up by [(x + 2^k - 1) & ~(2^k - 1)] when the addition does not
    wrap. *)
Lemma round_up_mask x k :
  0 <= x -> 0 <= k < 64 -> x + (2 ^ k - 1) < U64 ->
  (x +u (2 ^ k - 1)) &~ (2 ^ k - 1) = align_up x (2 ^ k).
Proof.
  intros Hx Hk Hs.
  assert (0 < 2 ^ k) by (apply Z.pow_pos_nonneg; lia).
  rewrite wrap64_small, land_not_mask by lia.
  unfold align_up. replace (x + 2 ^ k - 1) with (x + (2 ^ k - 1)) by lia.
  pose proof (Z.div_mod (x + (2 ^ k - 1)) (2 ^ k)). lia.
Qed.

(** ** Arrays addressed by an integer index

    A C array is a list; [l !!z i] reads it and [zalter f i l] updates the
    element in place.  An index outside the array reads [None] and updates
    nothing. *)
Definition zlookup {A} (i : Z) (l : list A) : option A :=
  if 0 <=? i then l !! Z.to_nat i else None.
Definition zalter {A} (f : A -> A) (i : Z) (l : list A) : list A :=
  if 0 <=? i then alter f (Z.to_nat i) l else l.
Definition zlen {A} (l : list A) : Z := Z.of_nat (length l).
Notation "l !!z i" := (zlookup i l) (at level 20) : c_scope.
(** [l[i] = x]. *)
Abbreviation zset i x l := (zalter (fun _ => x) i l) (only parsing).

Section arrays.
Context {A : Type}.
Implicit Types (l : list A) (i j : Z).

Lemma zlookup_some_range l i x : l !!z i = Some x -> 0 <= i < zlen l.
Proof.
  unfold zlookup, zlen. destruct (Z.leb_spec 0 i); [|done].
  intros Hl%lookup_lt_Some. lia.
Qed.

Lemma zlookup_in_range l i : 0 <= i < zlen l -> exists x, l !!z i = Some x.
Proof.
  unfold zlookup, zlen. intros. destruct (Z.leb_spec 0 i); [|lia].
  apply lookup_lt_is_Some. lia.
Qed.

Lemma zlookup_none l i : ~ (0 <= i < zlen l) -> l !!z i = None.
Proof.
  unfold zlookup, zlen. intros. destruct (Z.leb_spec 0 i); [|done].
  apply lookup_ge_None. lia.
Qed.

Lemma zlookup_zalter f l i : zalter f i l !!z i = f <$> l !!z i.
Proof.
  unfold zlookup, zalter. destruct (0 <=? i); [|done].
  by rewrite list_lookup_alter_eq.
Qed.

Lemma zlookup_zalter_ne f l i j : i <> j -> zalter f i l !!z j = l !!z j.
Proof.
  unfold zlookup, zalter. intros. bools; try done.
  apply list_lookup_alter_ne. lia.
Qed.

Lemma zlen_zalter f l i : zlen (zalter f i l) = zlen l.
Proof. unfold zlen, zalter. destruct (0 <=? i); [|done]. by rewrite length_alter. Qed.

Lemma zlookup_ext l1 l2 :
  (forall i, l1 !!z i = l2 !!z i) -> l1 = l2.
Proof.
  intros He. apply list_eq. intros n. specialize (He (Z.of_nat n)).
  unfold zlookup in He. destruct (Z.leb_spec 0 (Z.of_nat n)); [|lia].
  by rewrite Nat2Z.id in He.
Qed.
End arrays.

Lemma zlookup_snoc_l {A} (l : list A) x i y : l !!z i = Some y -> (l ++ [x]) !!z i = Some y.
Proof.
  unfold zlookup. destruct (0 <=? i); [|done]. intros E. rewrite lookup_app_l; [done|].
  by eapply lookup_lt_Some.
Qed.

Lemma zlookup_snoc_r {A} (l : list A) x : (l ++ [x]) !!z zlen l = Some x.
Proof.
  unfold zlookup, zlen. destruct (Z.leb_spec 0 (Z.of_nat (length l))); [|lia].
  rewrite Nat2Z.id, lookup_app_r, Nat.sub_diag by lia. done.
Qed.

Lemma zlookup_snoc_inv {A} (l : list A) x i y :
  (l ++ [x]) !!z i = Some y -> (l !!z i = Some y) \/ (i = zlen l /\ y = x).
Proof.
  intros E. pose proof (zlookup_some_range _ _ _ E) as Hl. unfold zlen in Hl.
  rewrite length_app in Hl. simpl in Hl.
  destruct (decide (i < zlen l)) as [Hlt|Hge].
  - left. destruct (zlookup_in_range l i) as [w Ew]; [lia|].
    rewrite (zlookup_snoc_l _ x _ _ Ew) in E. congruence.
  - right. unfold zlen in Hge. assert (i = zlen l) as -> by (unfold zlen; lia).
    rewrite zlookup_snoc_r in E. by injection E.
Qed.

Lemma zlookup_fmap {A B} (f : A -> B) (l : list A) i : (f <$> l) !!z i = f <$> (l !!z i).
Proof. unfold zlookup. destruct (0 <=? i); [|done]. apply list_lookup_fmap. Qed.

Lemma zlookup_replicate {A} (n : nat) (x y : A) i :
  replicate n x !!z i = Some y -> y = x.
Proof.
  unfold zlookup. destruct (0 <=? i); [|done]. intros E. by apply lookup_replicate in E as [-> _].
Qed.

Lemma zlookup_cons_inv {A} (x y : A) l j :
  (x :: l) !!z j = Some y -> (j = 0 /\ y = x) \/ (0 < j /\ l !!z (j - 1) = Some y).
Proof.
  unfold zlookup. destruct (Z.leb_spec 0 j); [|done]. intros Ej.
  destruct (decide (j = 0)) as [->|]; [left; simpl in Ej; by simplify_eq|right].
  split; [lia|]. destruct (Z.leb_spec 0 (j - 1)); [|lia].
  replace (Z.to_nat j) with (S (Z.to_nat (j - 1))) in Ej by lia. done.
Qed.

(** ** Bitmaps: bit [i % 64] of word [i / 64] *)

Definition lbit (l : list Z) (i : Z) : bool := Z.testbit (default 0 (l !!z (i / 64))) (i mod 64).

Lemma lbit_alter f g l i j :
  (forall w m, 0 <= w < U64 -> 0 <= m < 64 ->
    Z.testbit (f w) m = g (Z.testbit w m) (i mod 64 =? m)) ->
  (forall b, g b false = b) -> Forall is_u64 l -> 0 <= i < 64 * zlen l ->
  lbit (zalter f (i / 64) l) j = g (lbit l j) (i =? j).
Proof.
  intros Hf Hg Hl Hi. unfold lbit. pose proof (Z.mod_pos_bound j 64 ltac:(lia)).
  destruct (zlookup_in_range l (i / 64) ltac:(dlia)) as [w Ew].
  assert (is_u64 w) as Hw.
  { unfold zlookup in Ew. destruct (0 <=? i / 64); [|done]. by eapply Forall_lookup_1. }
  destruct (Z.eq_dec (i / 64) (j / 64)) as [He|Hne].
  - rewrite <- He, zlookup_zalter, Ew. simpl. rewrite Hf by (done || lia). f_equal.
    destruct (Z.eqb_spec (i mod 64) (j mod 64)), (Z.eqb_spec i j); try done; dlia.
  - rewrite zlookup_zalter_ne by done. destruct (Z.eqb_spec i j) as [->|]; done.
Qed.

Lemma lbit_set l i j :
  Forall is_u64 l -> 0 <= i < 64 * zlen l ->
  lbit (zalter (fun w => Z.lor w (shl64 1 (i mod 64))) (i / 64) l) j = lbit l j || (i =? j).
Proof.
  intros. apply (lbit_alter _ orb); try done.
  - intros. apply lor_bit_spec. apply Z.mod_pos_bound. lia.
  - by intros [].
Qed.

Lemma lbit_clear l i j :
  Forall is_u64 l -> 0 <= i < 64 * zlen l ->
  lbit (zalter (fun w => w &~ shl64 1 (i mod 64)) (i / 64) l) j = lbit l j && negb (i =? j).
Proof.
  intros. apply (lbit_alter _ (fun a b => a && negb b)); try done.
  - intros. apply clear_bit_spec; [done|]. apply Z.mod_pos_bound. lia.
  - by intros [].
Qed.

Lemma Forall_zalter {A} (P : A -> Prop) f i l :
  Forall P l -> (forall x, P x -> P (f x)) -> Forall P (zalter f i l).
Proof.
  intros Hl Hf. unfold zalter. destruct (0 <=? i); [|done]. apply Forall_alter; [done|]. intros; by apply Hf.
Qed.

Lemma lor_bit_u64 w n : is_u64 w -> 0 <= n < 64 -> is_u64 (Z.lor w (shl64 1 n)).
Proof.
  unfold is_u64. intros Hw Hn. pose proof (pow2_u64 n Hn). rewrite shl64_one by done. split.
  - apply Z.lor_nonneg. lia.
  - apply u64_of_bits; [apply Z.lor_nonneg; lia|]. intros m Hm.
    by rewrite Z.lor_spec, !u64_bits_above by lia.
Qed.

Lemma lxor_bit_u64 w n : is_u64 w -> 0 <= n < 64 -> is_u64 (Z.lxor w (shl64 1 n)).
Proof.
  unfold is_u64. intros Hw Hn. pose proof (pow2_u64 n Hn). rewrite shl64_one by done.
  assert (0 <= Z.lxor w (2 ^ n)) by (apply Z.lxor_nonneg; lia). split; [done|].
  apply u64_of_bits; [done|]. intros m Hm. by rewrite Z.lxor_spec, !u64_bits_above by lia.
Qed.

Lemma clear_bit_u64 w n : is_u64 w -> 0 <= n < 64 -> is_u64 (w &~ shl64 1 n).
Proof.
  unfold is_u64. intros Hw Hn. pose proof (pow2_u64 n Hn). rewrite shl64_one, land_not64 by lia. split.
  - apply Z.ldiff_nonneg. lia.
  - apply u64_of_bits; [apply Z.ldiff_nonneg; lia|]. intros m Hm.
    by rewrite Z.ldiff_spec, u64_bits_above by lia.
Qed.

(** ** Counting the indices of [[a, a+n)] that satisfy a test *)

Fixpoint zcount (f : Z -> bool) (a : Z) (n : nat) : Z :=
  match n with
  | O => 0
  | S n => (if f a then 1 else 0) + zcount f (a + 1) n
  end.

Lemma zcount_bounds f a n : 0 <= zcount f a n <= Z.of_nat n.
Proof.
  revert a. induction n as [|n IH]; intros a; simpl; [lia|].
  specialize (IH (a + 1)). destruct (f a); lia.
Qed.

Lemma zcount_ext f g a n :
  (forall i, a <= i < a + Z.of_nat n -> f i = g i) -> zcount f a n = zcount g a n.
Proof.
  revert a. induction n as [|n IH]; intros a He; [done|]. simpl.
  rewrite He, IH by lia || (intros; apply He; lia). done.
Qed.

Lemma zcount_change f g a n i :
  a <= i < a + Z.of_nat n -> (forall j, j <> i -> f j = g j) ->
  zcount g a n = zcount f a n + (if g i then 1 else 0) - (if f i then 1 else 0).
Proof.
  revert a. induction n as [|n IH]; intros a Hi He; [lia|]. simpl.
  destruct (Z.eq_dec a i) as [->|].
  - rewrite (zcount_ext g f (i + 1)); [lia|]. intros j Hj. symmetry. apply He. lia.
  - rewrite (He a), (IH (a + 1)) by (done || lia). lia.
Qed.

Lemma zcount_flip f g a n i :
  a <= i < a + Z.of_nat n -> (forall j, a <= j < a + Z.of_nat n -> j <> i -> g j = f j) ->
  zcount g a n = zcount f a n + (if g i then 1 else 0) - (if f i then 1 else 0).
Proof.
  intros Hi He. set (h j := if j =? i then g i else f j).
  rewrite (zcount_ext g h), (zcount_change f h a n i); unfold h.
  - by rewrite Z.eqb_refl.
  - done.
  - intros j Hj. by destruct (Z.eqb_spec j i).
  - intros j Hj. destruct (Z.eqb_spec j i) as [->|]; [done|by apply He].
Qed.

Lemma zcount_full f a n :
  zcount f a n = Z.of_nat n -> forall i, a <= i < a + Z.of_nat n -> f i = true.
Proof.
  revert a. induction n as [|n IH]; intros a Hc i Hi; simpl in *; [lia|].
  pose proof (zcount_bounds f (a + 1) n). destruct (f a) eqn:E; [|lia].
  destruct (Z.eq_dec i a) as [->|]; [done|]. apply (IH (a + 1)); lia.
Qed.

Lemma zcount_all f a n :
  (forall i, a <= i < a + Z.of_nat n -> f i = true) -> zcount f a n = Z.of_nat n.
Proof.
  revert a. induction n as [|n IH]; intros a Hf; [done|]. simpl.
  rewrite Hf, IH by lia || (intros; apply Hf; lia). lia.
Qed.

Lemma zcount_lt f a n :
  zcount f a n < Z.of_nat n -> exists i, a <= i < a + Z.of_nat n /\ f i = false.
Proof.
  revert a. induction n as [|n IH]; intros a Hc; simpl in *; [lia|].
  destruct (f a) eqn:E; [|exists a; split; [lia|done]].
  destruct (IH (a + 1)) as (i & ? & ?); [lia|]. exists i. split; [lia|done].
Qed.

Lemma zcount_pos f a n i : a <= i < a + Z.of_nat n -> f i = true -> 0 < zcount f a n.
Proof.
  revert a. induction n as [|n IH]; intros a Hi Hf; simpl; [lia|].
  pose proof (zcount_bounds f (a + 1) n). destruct (Z.eq_dec i a) as [->|]; [rewrite Hf; lia|].
  specialize (IH (a + 1) ltac:(lia) Hf). destruct (f a); lia.
Qed.
Lemma zcount_none f a n : (forall i, a <= i < a + Z.of_nat n -> f i = false) -> zcount f a n = 0.
Proof.
  revert a. induction n as [|n IH]; intros a Hf; [done|]. simpl.
  rewrite Hf, IH by lia || (intros; apply Hf; lia). done.
Qed.
#[global] Arguments zcount : simpl never.

(** ** Sums over lists *)

Fixpoint zsum {A} (f : A -> Z) (l : list A) : Z :=
  match l with [] => 0 | x :: l => f x + zsum f l end.

Lemma zsum_app {A} (f : A -> Z) l1 l2 : zsum f (l1 ++ l2) = zsum f l1 + zsum f l2.
Proof. induction l1 as [|x l1 IH]; simpl; [done|]. rewrite IH. lia. Qed.

Lemma zsum_nonneg {A} (f : A -> Z) l : Forall (fun x => 0 <= f x) l -> 0 <= zsum f l.
Proof. induction 1; simpl; lia. Qed.

Lemma zsum_elem {A} (f : A -> Z) l x : Forall (fun x => 0 <= f x) l -> x ∈ l -> f x <= zsum f l.
Proof.
  induction 1 as [|y l Hy Hl IH]; [by intros ?%elem_of_nil|]. simpl.
  intros [->|Hx]%elem_of_cons; [pose proof (zsum_nonneg f l Hl); lia|]. specialize (IH Hx). lia.
Qed.

Lemma zsum_bound {A} (f : A -> Z) l B : Forall (fun x => f x <= B) l -> zsum f l <= B * zlen l.
Proof. unfold zlen. induction 1; simpl; lia. Qed.

Lemma zsum_pos {A} (f : A -> Z) l : 0 < zsum f l -> exists x, x ∈ l /\ 0 < f x.
Proof.
  induction l as [|y l IH]; simpl; [lia|]. intros Hs. destruct (Z.lt_ge_cases 0 (f y)).
  - exists y. split; [apply elem_of_cons; by left|done].
  - destruct IH as (x & Hx & ?); [lia|]. exists x. split; [apply elem_of_cons; by right|done].
Qed.

Lemma zsum_zalter {A} (f : A -> Z) (g : A -> A) k l x :
  l !!z k = Some x -> zsum f (zalter g k l) = zsum f l - f x + f (g x).
Proof.
  unfold zlookup, zalter. destruct (0 <=? k); [|done]. generalize (Z.to_nat k). clear k.
  induction l as [|y l IH]; intros [|n] E; simpl in *; [done|done|simplify_eq; lia|].
  specialize (IH n E). unfold alter in IH. unfold alter. rewrite IH. lia.
Qed.
