(* ===== verification/PmmBoot.v ===== *)
(** The checked layout calculator of the physical memory manager's boot
    metadata (src/kernel/memory/pmm_boot.c) and the default boot reservation
    strategy (src/kernel/memory/pmm_arch.c). *)

From stdpp Require Import base tactics numbers option list.
From Stdlib Require Import ZArith Lia.
From S2P Require Import Prelude.

Module PmmBoot.

(** [struct pmm_layout]: offsets relative to the caller's [base_va]. *)
Record pmm_layout := mk_pmm_layout {
  bits_map_off : Z;
  bits_length : Z;
  pages_struct_off : Z;
  pages_length : Z;
  zones_struct_off : Z;
  zones_length : Z;
  end_of_struct_off : Z;
  total_bytes : Z;
  metadata_end_pa : Z;
}.

(** LP64 sizes of [struct Page] (5 words), [struct Zone] (10 words) and
    [long], and the array bound [MEMORY_RANGE_MAX]. *)
Abbreviation sizeof_Page := 40 (only parsing).
Abbreviation sizeof_Zone := 80 (only parsing).
Abbreviation sizeof_long := 8 (only parsing).
Abbreviation MEMORY_RANGE_MAX := 64 (only parsing).
Abbreviation PMM_BOOT_TAIL_BYTES := 256 (only parsing).

Definition add_overflows (a b : Z) : bool := UINT64_MAX - b <? a.
Definition mul_overflows (a b : Z) : bool :=
  negb (b =? 0) && (UINT64_MAX / b <? a).

(** [None] is the [*err = 1] exit. *)
Definition align_up_checked (x a : Z) : option Z :=
  let rem := x mod a in
  if rem =? 0 then Some x
  else
    let pad := a - rem in
    if add_overflows x pad then None else Some (x +u pad).

Definition zero_layout : pmm_layout := mk_pmm_layout 0 0 0 0 0 0 0 0 0.

(** The return code and the contents of [*out] afterwards; [None] is the
    [out == NULL] call. *)
Definition pmm_layout_calculate (base_va span_pages : Z) (out : option pmm_layout)
  : Z * option pmm_layout :=
  match out with
  | None => (- EINVAL, None)
  | Some _ =>
    let fail := (- EOVERFLOW, Some zero_layout) in
    if span_pages =? 0 then (- EINVAL, Some zero_layout) else
    if add_overflows span_pages 63 then fail else
    let bits_qwords := (span_pages +u 63) &~ 63 in
    let bits_len := bits_qwords / 8 in
    if mul_overflows span_pages sizeof_Page then fail else
    let pages_bytes := span_pages *u sizeof_Page in
    match align_up_checked pages_bytes sizeof_long with None => fail | Some pages_len =>
    if mul_overflows MEMORY_RANGE_MAX sizeof_Zone then fail else
    let zones_bytes := MEMORY_RANGE_MAX *u sizeof_Zone in
    match align_up_checked zones_bytes sizeof_long with None => fail | Some zones_len =>
    let bits_off := 0 in
    if add_overflows bits_off bits_len then fail else
    match align_up_checked (bits_off +u bits_len) 4096 with None => fail | Some pages_off =>
    if add_overflows pages_off pages_len then fail else
    match align_up_checked (pages_off +u pages_len) 4096 with None => fail | Some zones_off =>
    if add_overflows zones_off zones_len then fail else
    if add_overflows (zones_off +u zones_len) PMM_BOOT_TAIL_BYTES then fail else
    let end_off := (zones_off +u zones_len +u PMM_BOOT_TAIL_BYTES) &~ (sizeof_long - 1) in
    match align_up_checked end_off 4096 with None => fail | Some total =>
    if add_overflows base_va total then fail else
    (0, Some (mk_pmm_layout bits_off bits_len pages_off pages_len zones_off zones_len
                end_off total 0))
    end end end end end
  end.

(** [pmm_arch_boot_reservations], the weak default: one range
    [[0, ceil2M(metadata_end_pa))].  The result is the return code, the value
    of [*count] if it was written, and the ranges written to [out]. *)
Record pmm_phys_range := mk_range { r_start : Z; r_end : Z }.

Definition pmm_arch_boot_reservations (layout : option pmm_layout) (out_null : bool)
    (capacity : Z) (count_null : bool) : Z * option Z * list pmm_phys_range :=
  match layout with
  | None => (- EINVAL, None, [])
  | Some layout =>
    if count_null then (- EINVAL, None, []) else
    if capacity =? 0 then (0, Some 1, []) else
    if out_null then (- EINVAL, Some 1, []) else
    let e := (metadata_end_pa layout +u 2097152 -u 1) &~ (2097152 - 1) in
    (0, Some 1, [mk_range 0 e])
  end.

(** ** The layout over the integers, without a width *)

Definition layout_bits (span : Z) : Z := align_up span 64 / 8.
Definition layout_pages_off (span : Z) : Z := align_up (layout_bits span) 4096.
Definition layout_zones_off (span : Z) : Z :=
  align_up (layout_pages_off span + span * sizeof_Page) 4096.
Definition layout_end (span : Z) : Z :=
  layout_zones_off span + MEMORY_RANGE_MAX * sizeof_Zone + PMM_BOOT_TAIL_BYTES.
Definition layout_total (span : Z) : Z := align_up (layout_end span) 4096.

Definition layout_spec (span : Z) : pmm_layout :=
  mk_pmm_layout 0 (layout_bits span) (layout_pages_off span) (span * sizeof_Page)
    (layout_zones_off span) (MEMORY_RANGE_MAX * sizeof_Zone) (layout_end span)
    (layout_total span) 0.

Lemma align_up_checked_spec x a :
  0 < a -> 0 <= x <= UINT64_MAX ->
  align_up_checked x a =
    if align_up x a <=? UINT64_MAX then Some (align_up x a) else None.
Proof.
  intros Ha Hx. unfold align_up_checked, add_overflows.
  pose proof (Z.mod_pos_bound x a Ha). pose proof (Z.div_mod x a).
  destruct (Z.eqb_spec (x mod a) 0) as [Hz|Hz].
  { rewrite align_up_id by lia. bools; first [done|lia]. }
  assert (align_up x a = x + (a - x mod a)) as Heq.
  { unfold align_up.
    replace (x + a - 1) with ((x / a + 1) * a + (x mod a - 1)) by lia.
    rewrite Z.div_add_l, (Z.div_small (x mod a - 1)) by lia. lia. }
  rewrite Heq. bools; try lia; first [done | by rewrite wrap64_small by lia].
Qed.

Lemma layout_bits_bound span : 0 < span -> 0 < layout_bits span <= span + 7.
Proof.
  intros. unfold layout_bits. pose proof (align_up_bounds span 64).
  pose proof (align_up_mod span 64). dlia.
Qed.

(** The bounds every stage of the calculation obeys. *)
Lemma layout_bounds span :
  0 < span ->
  layout_bits span <= layout_pages_off span < layout_bits span + 4096 /\
  layout_pages_off span + span * 40 <= layout_zones_off span /\
  layout_end span = layout_zones_off span + 5376 /\
  layout_end span <= layout_total span /\
  layout_end span mod 8 = 0.
Proof.
  intros. pose proof (layout_bits_bound span ltac:(lia)).
  pose proof (align_up_bounds (layout_bits span) 4096 ltac:(lia)).
  pose proof (align_up_bounds (layout_pages_off span + span * 40) 4096 ltac:(lia)).
  pose proof (align_up_bounds (layout_end span) 4096 ltac:(lia)).
  pose proof (align_up_mod (layout_pages_off span + span * 40) 4096 ltac:(lia)).
  fold (layout_pages_off span) (layout_zones_off span) (layout_total span) in *.
  unfold layout_end in *. repeat split; try lia. dlia.
Qed.

(** One step of the calculation: a check of [x] against the width, or an
    alignment, either leaves through [-EOVERFLOW] or goes on with the exact
    value. *)
Ltac calc_fail := bools; first [lia | done | dlia].
Ltac calc_add a b :=
  destruct (Z.ltb_spec (UINT64_MAX - b) a); [calc_fail|]; rewrite ?(wrap64_small (a + b)) by lia.
Ltac calc_align v :=
  rewrite align_up_checked_spec by lia; fold v;
  destruct (Z.leb_spec v UINT64_MAX); [|calc_fail].

Lemma pmm_layout_calculate_spec base span out :
  is_u64 base -> 0 < span < U64 ->
  pmm_layout_calculate base span (Some out) =
    if base + layout_total span <=? UINT64_MAX
    then (0, Some (layout_spec span))
    else (- EOVERFLOW, Some zero_layout).
Proof.
  intros Hb Hs. unfold is_u64 in Hb.
  pose proof (layout_bits_bound span ltac:(lia)).
  destruct (layout_bounds span ltac:(lia)) as (Hp & Hz & He & Ht & He8).
  unfold pmm_layout_calculate, layout_spec, add_overflows, mul_overflows.
  destruct (Z.eqb_spec span 0); [lia|].
  calc_add span 63.
  assert ((span + 63) &~ 63 = align_up span 64) as ->.
  { change 63 with (2 ^ 6 - 1) at 2. rewrite land_not_mask by lia. unfold align_up. dlia. }
  fold (layout_bits span). simpl negb. simpl andb.
  destruct (Z.ltb_spec (UINT64_MAX / 40) span); [calc_fail|].
  assert (span * 40 <= UINT64_MAX) by dlia.
  rewrite (wrap64_small (span * 40)) by lia.
  rewrite align_up_checked_spec, align_up_id by (lia || dlia).
  destruct (Z.leb_spec (span * 40) UINT64_MAX); [|lia].
  replace (UINT64_MAX / 80 <? MEMORY_RANGE_MAX) with false by done.
  change (align_up_checked (MEMORY_RANGE_MAX *u sizeof_Zone) 8) with (Some 5120).
  calc_add 0 (layout_bits span). rewrite Z.add_0_l.
  calc_align (layout_pages_off span).
  calc_add (layout_pages_off span) (span * 40).
  calc_align (layout_zones_off span).
  calc_add (layout_zones_off span) 5120.
  calc_add (layout_zones_off span + 5120) 256.
  assert ((layout_zones_off span + 5120 + 256) &~ (8 - 1) = layout_end span) as ->.
  { change (8 - 1) with (2 ^ 3 - 1). rewrite land_not_mask by lia. change (2 ^ 3) with 8. dlia. }
  calc_align (layout_total span).
  bools; try lia; done.
Qed.

(** The calculator computes the unbounded layout exactly when the whole
    allocation [base_va .. base_va + total_bytes] is addressable, and reports
    [-EOVERFLOW] with a zeroed layout in every other case: no intermediate
    64-bit step wraps unnoticed, and none rejects a layout that fits.  An
    empty span is [-EINVAL] with a zeroed layout, and a null [out] is
    [-EINVAL] and writes nothing. *)
Theorem pmm_layout_calculate_correct base span out :
  is_u64 base -> is_u64 span ->
  pmm_layout_calculate base span out =
    match out with
    | None => (- EINVAL, None)
    | Some _ =>
      if span =? 0 then (- EINVAL, Some zero_layout)
      else if base + layout_total span <=? UINT64_MAX then (0, Some (layout_spec span))
      else (- EOVERFLOW, Some zero_layout)
    end.
Proof.
  intros Hb Hs. destruct out as [out|]; [|done].
  destruct (Z.eqb_spec span 0) as [->|]; [done|].
  apply pmm_layout_calculate_spec; [done|]. unfold is_u64 in Hs. lia.
Qed.

Lemma pmm_layout_calculate_correct_witness :
  pmm_layout_calculate 4096 2048 (Some zero_layout) = (0, Some (layout_spec 2048)).
Proof.
  rewrite pmm_layout_calculate_correct; [reflexivity | unfold is_u64; lia | unfold is_u64; lia].
Defined.

(** A successful layout is one the manager can use: the bitmap holds one
    bit per page of the span, the page array one descriptor per page, the zone
    table [MEMORY_RANGE_MAX] zones, the regions follow one another without
    overlap inside [total_bytes], every region starts on a 4 KiB boundary and
    the whole allocation ends below 2^64. *)
Theorem pmm_layout_calculate_regions base span out l :
  is_u64 base -> 0 < span < U64 ->
  pmm_layout_calculate base span (Some out) = (0, Some l) ->
  span <= 8 * bits_length l /\ bits_length l mod 8 = 0 /\
  bits_map_off l + bits_length l <= pages_struct_off l /\
  span * sizeof_Page <= pages_length l /\
  pages_struct_off l + pages_length l <= zones_struct_off l /\
  MEMORY_RANGE_MAX * sizeof_Zone <= zones_length l /\
  zones_struct_off l + zones_length l + PMM_BOOT_TAIL_BYTES <= end_of_struct_off l /\
  end_of_struct_off l <= total_bytes l /\
  pages_struct_off l mod 4096 = 0 /\ zones_struct_off l mod 4096 = 0 /\
  total_bytes l mod 4096 = 0 /\ base + total_bytes l < U64.
Proof.
  intros Hb Hs. rewrite pmm_layout_calculate_spec by done.
  destruct (Z.leb_spec (base + layout_total span) UINT64_MAX); [|done].
  intros [= <-]. simpl. unfold is_u64 in Hb.
  pose proof (align_up_bounds span 64 ltac:(lia)).
  pose proof (align_up_mod span 64 ltac:(lia)).
  destruct (layout_bounds span ltac:(lia)) as (Hp & Hz & He & Ht & He8).
  assert (8 * layout_bits span = align_up span 64) by (unfold layout_bits; dlia).
  assert (layout_bits span mod 8 = 0) by (unfold layout_bits; dlia).
  repeat split; try done; try lia; by apply align_up_mod.
Qed.

Lemma pmm_layout_calculate_regions_witness :
  2048 <= 8 * bits_length (layout_spec 2048) /\ 4096 + total_bytes (layout_spec 2048) < U64.
Proof.
  pose proof (pmm_layout_calculate_regions 4096 2048 zero_layout (layout_spec 2048)
    ltac:(unfold is_u64; lia) ltac:(lia) ltac:(vm_compute; reflexivity)).
  split; apply H.
Defined.

End PmmBoot.
