(* ===== verification/Pmm.v ===== *)
(** The physical memory manager (src/kernel/memory/pmm.c): zones of 2 MiB
    frames with one descriptor and one bitmap bit per frame of the RAM span,
    the frame allocator [alloc_pages]/[free_pages], the boot reservation walk,
    the single-frame claim and the usage snapshot. *)

From stdpp Require Import base tactics numbers option list.
From Stdlib Require Import ZArith Lia.
From S2P Require Import Prelude PmmBoot.

Module Pmm.

(** ** Data *)

Abbreviation PAGE_2M_SIZE := 2097152 (only parsing).
Abbreviation PG_PTable_Mapped := 1 (only parsing).
Abbreviation PG_Kernel_Init := 2 (only parsing).
Abbreviation PG_Kernel := 8 (only parsing).
Abbreviation PG_Shared := 16 (only parsing).
Abbreviation ZONE_DMA := 1 (only parsing).
Abbreviation ZONE_NORMAL := 2 (only parsing).
Abbreviation ZONE_UNMAPPED := 4 (only parsing).
Abbreviation MAX_NR_ZONES := 10 (only parsing).

(** [struct Page].  The zone pointer is the zone's index in [zones_struct];
    [None] is the null pointer of a hole between zones. *)
Record Page := mk_page {
  zone_struct : option Z;
  phy_address : Z;
  attribute : Z;
  reference_count : Z;
  age : Z;
}.

(** [struct Zone].  [pages_group] is the index of the zone's first descriptor
    in [pages_struct]; the back pointer to the only manager is left out. *)
Record Zone := mk_zone {
  pages_group : Z;
  pages_length : Z;
  zone_start_address : Z;
  zone_end_address : Z;
  zone_length : Z;
  zone_attribute : Z;
  page_using_count : Z;
  page_free_count : Z;
  total_pages_link : Z;
}.

(** [struct Physical_Memory_Manager] and the zone index globals.  The arrays
    hold their [bits_length / 8], [pages_size] and [zones_size] elements;
    [bits_beyond] is the word of memory that follows the bitmap, which
    [alloc_pages] reads through [*(p + 1)] at the last word. *)
Record state := mk_state {
  bits_map : list Z;
  bits_beyond : Z;
  pages_struct : list Page;
  zones_struct : list Zone;
  ZONE_DMA_INDEX : Z;
  ZONE_NORMAL_INDEX : Z;
  ZONE_UNMAPPED_INDEX : Z;
}.
Definition pages_size (s : state) : Z := zlen (pages_struct s).
Definition zones_size (s : state) : Z := zlen (zones_struct s).

(** Assignments to one component of the state. *)
Definition upd_bits (f : list Z -> list Z) (s : state) : state :=
  mk_state (f (bits_map s)) (bits_beyond s) (pages_struct s) (zones_struct s)
    (ZONE_DMA_INDEX s) (ZONE_NORMAL_INDEX s) (ZONE_UNMAPPED_INDEX s).
Definition upd_page (f : Page -> Page) (i : Z) (s : state) : state :=
  mk_state (bits_map s) (bits_beyond s) (zalter f i (pages_struct s)) (zones_struct s)
    (ZONE_DMA_INDEX s) (ZONE_NORMAL_INDEX s) (ZONE_UNMAPPED_INDEX s).
Definition upd_zone (f : Zone -> Zone) (i : Z) (s : state) : state :=
  mk_state (bits_map s) (bits_beyond s) (pages_struct s) (zalter f i (zones_struct s))
    (ZONE_DMA_INDEX s) (ZONE_NORMAL_INDEX s) (ZONE_UNMAPPED_INDEX s).

Definition set_attribute (a : Z) (p : Page) : Page :=
  mk_page (zone_struct p) (phy_address p) a (reference_count p) (age p).
Definition set_reference_count (n : Z) (p : Page) : Page :=
  mk_page (zone_struct p) (phy_address p) (attribute p) n (age p).

(** [page_using_count++; page_free_count--] and its inverse. *)
Definition zone_take (z : Zone) : Zone :=
  mk_zone (pages_group z) (pages_length z) (zone_start_address z) (zone_end_address z)
    (zone_length z) (zone_attribute z) (page_using_count z +u 1) (page_free_count z -u 1)
    (total_pages_link z).
Definition zone_give (z : Zone) : Zone :=
  mk_zone (pages_group z) (pages_length z) (zone_start_address z) (zone_end_address z)
    (zone_length z) (zone_attribute z) (page_using_count z -u 1) (page_free_count z +u 1)
    (total_pages_link z).
Definition zone_link (d : Z) (z : Zone) : Zone :=
  mk_zone (pages_group z) (pages_length z) (zone_start_address z) (zone_end_address z)
    (zone_length z) (zone_attribute z) (page_using_count z) (page_free_count z)
    (total_pages_link z +u d).

(** The bitmap is indexed by frame: word [i >> 6], bit [i % 64]. *)
Definition bm_set (i : Z) (bm : list Z) : list Z :=
  zalter (fun w => Z.lor w (shl64 1 (i mod 64))) (Z.shiftr i 6) bm.
Definition bm_clear (i : Z) (bm : list Z) : list Z :=
  zalter (fun w => w &~ shl64 1 (i mod 64)) (Z.shiftr i 6) bm.
Definition bm_flip (i : Z) (bm : list Z) : list Z :=
  zalter (fun w => Z.lxor w (shl64 1 (i mod 64))) (Z.shiftr i 6) bm.

(** [*(PMMngr.bits_map + w)]. *)
Definition word (s : state) (w : Z) : Z := default (bits_beyond s) (bits_map s !!z w).
(** [bits_map[i >> 6] & (1UL << (i % 64))] as a truth value. *)
Definition bit_used (s : state) (i : Z) : bool :=
  negb (Z.land (word s (Z.shiftr i 6)) (shl64 1 (i mod 64)) =? 0).

(** ** Page descriptor operations *)

Definition page_init (i flags : Z) (s : state) : state :=
  let s := upd_page (fun p => set_attribute (Z.lor (attribute p) flags) p) i s in
  match pages_struct s !!z i with
  | None => s
  | Some p =>
    if (reference_count p =? 0) || negb (Z.land (attribute p) PG_Shared =? 0) then
      let s := upd_page (fun p => set_reference_count (reference_count p +u 1) p) i s in
      match zone_struct p with
      | Some zi => upd_zone (zone_link 1) zi s
      | None => s
      end
    else s
  end.

Definition page_clean (i : Z) (s : state) : state :=
  let s := upd_page (fun p => set_reference_count (reference_count p -u 1) p) i s in
  match pages_struct s !!z i with
  | None => s
  | Some p =>
    let s := match zone_struct p with
             | Some zi => upd_zone (zone_link (-1)) zi s
             | None => s
             end in
    if reference_count p =? 0
    then upd_page (fun p => set_attribute (Z.land (attribute p) PG_PTable_Mapped) p) i s
    else s
  end.

(** ** alloc_pages *)

(** The 64 bits of the map from bit [k] of word [w] on. *)
Definition window (s : state) (w k : Z) : Z :=
  if k =? 0 then word s w
  else Z.lor (shr64 (word s w) k) (shl64 (word s (w + 1)) (64 - k)).

(** [for (k = shift; k < 64; k++)]: the first [k], of the [n] candidates from
    [k] on, whose window has its low [number] bits clear. *)
Fixpoint scan_k (n : nat) (s : state) (number w k : Z) : option Z :=
  match n with
  | O => None
  | S n =>
    if Z.land (window s w k) (shl64 1 number -u 1) =? 0 then Some k
    else scan_k n s number w (k + 1)
  end.

(** [for (j = start; j < end; j += j % 64 ? tmp : 64)]. *)
Fixpoint scan_zone (fuel : nat) (s : state) (number tmp j end_ : Z) : option Z :=
  match fuel with
  | O => None
  | S fuel =>
    if j <? end_ then
      let shift := j mod 64 in
      match scan_k (Z.to_nat (64 - shift)) s number (Z.shiftr j 6) shift with
      | Some k => Some (j + k - shift)
      | None => scan_zone fuel s number tmp (j +u (if j mod 64 =? 0 then 64 else tmp)) end_
      end
    else None
  end.

(** [for (l = 0; l < number; l++)]: mark the frames and charge zone [zi]. *)
Fixpoint take_pages (n : nat) (zi attr page : Z) (s : state) : state :=
  match n with
  | O => s
  | S n =>
    let s := upd_bits (bm_set page) s in
    let s := upd_zone zone_take zi s in
    let s := upd_page (set_attribute attr) page s in
    take_pages n zi attr (page + 1) s
  end.

(** [for (i = zone_start; i <= zone_end; i++)]. *)
Fixpoint alloc_zones (n : nat) (i number attr : Z) (s : state) : option Z * state :=
  match n with
  | O => (None, s)
  | S n =>
    match zones_struct s !!z i with
    | None => alloc_zones n (i + 1) number attr s
    | Some z =>
      if page_free_count z <? number then alloc_zones n (i + 1) number attr s
      else
        let start := pages_group z in
        let end_ := start +u Z.shiftr (zone_end_address z) 21
                          -u Z.shiftr (zone_start_address z) 21 in
        let tmp := 64 - start mod 64 in
        match scan_zone (Z.to_nat (end_ - start)) s number tmp start end_ with
        | Some page => (Some page, take_pages (Z.to_nat number) i attr page s)
        | None => alloc_zones n (i + 1) number attr s
        end
    end
  end.

(** The result is the index of the first descriptor, [None] for [NULL]. *)
Definition alloc_pages (zone_select number : Z) (s : state) : option Z * state :=
  if 64 <? number then (None, s)
  else
    let search zone_start zone_end attr :=
      alloc_zones (Z.to_nat (zone_end - zone_start + 1)) zone_start number attr s in
    if zone_select =? ZONE_DMA then
      search 0 (sint32 (ZONE_DMA_INDEX s)) PG_PTable_Mapped
    else if zone_select =? ZONE_NORMAL then
      search (sint32 (ZONE_DMA_INDEX s)) (sint32 (ZONE_NORMAL_INDEX s)) PG_PTable_Mapped
    else if zone_select =? ZONE_UNMAPPED then
      search (sint32 (ZONE_UNMAPPED_INDEX s)) (sint32 (zones_size s - 1)) 0
    else (None, s).

(** ** free_pages *)

Fixpoint give_pages (n : nat) (page : Z) (s : state) : state :=
  match n with
  | O => s
  | S n =>
    let s := upd_bits (bm_clear page) s in
    let s := match pages_struct s !!z page with
             | Some p => match zone_struct p with
                         | Some zi => upd_zone zone_give zi s
                         | None => s
                         end
             | None => s
             end in
    let s := upd_page (set_attribute 0) page s in
    give_pages n (page + 1) s
  end.

(** [page = None] is the null pointer. *)
Definition free_pages (page : option Z) (number : Z) (s : state) : state :=
  match page with
  | None => s
  | Some page =>
    if (64 <=? number) || (number <=? 0) then s
    else give_pages (Z.to_nat number) page s
  end.

(** ** pmm_get_stats *)

Record pmm_stats := mk_stats { managed_bytes : Z; reserved_bytes : Z; free_bytes : Z }.

Definition pmm_get_stats (s : state) : pmm_stats :=
  foldl (fun acc z =>
    mk_stats (managed_bytes acc +u (pages_length z *u PAGE_2M_SIZE))
             (reserved_bytes acc +u (page_using_count z *u PAGE_2M_SIZE))
             (free_bytes acc +u (page_free_count z *u PAGE_2M_SIZE)))
    (mk_stats 0 0 0) (zones_struct s).

(** ** Boot reservation and single-frame claim *)

Import PmmBoot(pmm_phys_range, mk_range, r_start, r_end, pmm_layout, mk_pmm_layout,
  zero_layout, pmm_layout_calculate, bits_map_off, bits_length, pages_struct_off,
  zones_struct_off, zones_length, end_of_struct_off, total_bytes).

Definition pa_in_ranges (pa : Z) (ranges : list pmm_phys_range) : bool :=
  existsb (fun r => (r_start r <=? pa) && (pa <? r_end r)) ranges.

Definition range_valid (r : pmm_phys_range) : bool :=
  negb (r_end r <=? r_start r) &&
  (Z.land (r_start r) (PAGE_2M_SIZE - 1) =? 0) &&
  (Z.land (r_end r) (PAGE_2M_SIZE - 1) =? 0).

(** One iteration of the walk over [pages_struct]. *)
Definition reserve_frame (ranges : list pmm_phys_range) (i : Z) (s : state) : state :=
  match pages_struct s !!z i with
  | None => s
  | Some p =>
    match zone_struct p with
    | None => s
    | Some zi =>
      if negb (pa_in_ranges (phy_address p) ranges) then s
      else if bit_used s i then s
      else
        let s := page_init i (Z.lor (Z.lor PG_PTable_Mapped PG_Kernel_Init) PG_Kernel) s in
        let s := upd_bits (bm_set i) s in
        upd_zone zone_take zi s
    end
  end.

Fixpoint reserve_walk (n : nat) (ranges : list pmm_phys_range) (i : Z) (s : state) : state :=
  match n with
  | O => s
  | S n => reserve_walk n ranges (i + 1) (reserve_frame ranges i s)
  end.

(** [ranges = None] is a null pointer; [count] is the list's length. *)
Definition pmm_reserve_boot_ranges (ranges : option (list pmm_phys_range)) (count : Z)
    (s : state) : Z * state :=
  match ranges with
  | None => if 0 <? count then (- EINVAL, s) else (0, s)
  | Some ranges =>
    if count =? 0 then (0, s)
    else if negb (forallb range_valid ranges) then (- EINVAL, s)
    else (0, reserve_walk (Z.to_nat (pages_size s)) ranges 0 s)
  end.

(** The test of the two claim loops: a represented frame inside the window
    that is free; the result is its zone. *)
Definition claimable (start_pa end_pa i : Z) (s : state) : option Z :=
  match pages_struct s !!z i with
  | None => None
  | Some p =>
    match zone_struct p with
    | None => None
    | Some zi =>
      if (phy_address p <? start_pa) || (end_pa <=? phy_address p) then None
      else if bit_used s i then None
      else Some zi
    end
  end.

(** [for (i = pages_size; i > 0; i--)] visits [n-1 .. 0]; the other loop
    visits [i .. i+n-1]. *)
Fixpoint claim_down (n : nat) (start_pa end_pa : Z) (s : state) : option (Z * Z) :=
  match n with
  | O => None
  | S n => match claimable start_pa end_pa (Z.of_nat n) s with
           | Some zi => Some (Z.of_nat n, zi)
           | None => claim_down n start_pa end_pa s
           end
  end.
Fixpoint claim_up (n : nat) (i start_pa end_pa : Z) (s : state) : option (Z * Z) :=
  match n with
  | O => None
  | S n => match claimable start_pa end_pa i s with
           | Some zi => Some (i, zi)
           | None => claim_up n (i + 1) start_pa end_pa s
           end
  end.

Definition pmm_claim_free_frame (start_pa end_pa : Z) (from_end : bool) (s : state)
  : option Z * state :=
  if end_pa <=? start_pa then (None, s)
  else
    let found := if from_end then claim_down (Z.to_nat (pages_size s)) start_pa end_pa s
                 else claim_up (Z.to_nat (pages_size s)) 0 start_pa end_pa s in
    match found with
    | None => (None, s)
    | Some (i, zi) =>
      let s := upd_bits (bm_set i) s in
      let s := upd_zone zone_take zi s in
      let s := upd_page (set_attribute PG_PTable_Mapped) i s in
      (Some i, s)
    end.

(** ** pmm_init, steps 2 to 7 *)

Inductive MEMORY_TYPE :=
  MEMORY_TYPE_RAM | MEMORY_TYPE_RESERVED | MEMORY_TYPE_ACPI_RECLAIM
| MEMORY_TYPE_ACPI_NVS | MEMORY_TYPE_DEVICE.
Record MEMORY_RANGE := mk_mrange { phys_start : Z; phys_end : Z; mtype : MEMORY_TYPE }.
Definition is_ram (r : MEMORY_RANGE) : bool :=
  match mtype r with MEMORY_TYPE_RAM => true | _ => false end.

Abbreviation GRANULE := 2097152 (only parsing).

(** Step 2: [TotalMem], [lowest_ram] and [highest_ram]. *)
Definition ram_bounds (ranges : list MEMORY_RANGE) : Z * Z * Z :=
  foldl (fun '(total, lo, hi) r =>
    if is_ram r then
      let sa := phys_start r &~ (GRANULE - 1) in
      let ea := (phys_end r +u GRANULE -u 1) &~ (GRANULE - 1) in
      (total +u (phys_end r -u phys_start r),
       if sa <? lo then sa else lo,
       if hi <? ea then ea else hi)
    else (total, lo, hi)) (0, UINT64_MAX, 0) ranges.

(** Step 4, the frames of one zone: [for (j = 0; j < pages_length; j++, p++)]. *)
Fixpoint init_frames (n : nat) (zi start base j : Z) (s : state) : state :=
  match n with
  | O => s
  | S n =>
    let s := upd_page (fun _ => mk_page (Some zi) (start +u shl64 j 21) 0 0 0) (base + j) s in
    let s := upd_bits (bm_flip (base + j)) s in
    init_frames n zi start base (j + 1) s
  end.

(** Step 4, one RAM range. *)
Definition init_zone (lowest_ram : Z) (s : state) (r : MEMORY_RANGE) : state :=
  if negb (is_ram r) then s else
  let start := (phys_start r +u GRANULE -u 1) &~ (GRANULE - 1) in
  let end_ := phys_end r &~ (GRANULE - 1) in
  if end_ <=? start then s else
  if MAX_NR_ZONES <=? zones_size s then s else
  let zi := zones_size s in
  let len := Z.shiftr (end_ -u start) 21 in
  let base := Z.shiftr (start -u lowest_ram) 21 in
  let z := mk_zone base len start end_ (end_ -u start) 0 0 len 0 in
  let s := mk_state (bits_map s) (bits_beyond s) (pages_struct s) (zones_struct s ++ [z])
             (ZONE_DMA_INDEX s) (ZONE_NORMAL_INDEX s) (ZONE_UNMAPPED_INDEX s) in
  init_frames (Z.to_nat len) zi start base 0 s.

(** Step 7: the zone indices. *)
Fixpoint zone_indices (zs : list Zone) (zi threshold normal unmapped : Z) : Z * Z :=
  match zs with
  | [] => (normal, unmapped)
  | z :: zs =>
    if (threshold <=? zone_start_address z) && (unmapped =? 0)
    then zone_indices zs (zi + 1) threshold (if 0 <? zi then zi - 1 else 0) zi
    else zone_indices zs (zi + 1) threshold normal unmapped
  end.

Definition empty_page : Page := mk_page None 0 0 0 0.

(** [to_phy] stands for [Virt_To_Phy], [reservations] for
    [pmm_arch_boot_reservations] and [threshold] for [pmm_arch_zone_split()].
    [None] is a fatal halt. *)
Definition pmm_init (beyond start_brk threshold : Z) (to_phy : Z -> Z)
    (reservations : pmm_layout -> Z * option Z * list pmm_phys_range)
    (ranges : list MEMORY_RANGE) : option state :=
  if bool_decide (ranges = []) then None else
  let '(TotalMem, lowest_ram, highest_ram) := ram_bounds ranges in
  if TotalMem =? 0 then None else
  let span0 := (highest_ram -u lowest_ram) / GRANULE in
  let span := if span0 =? 0 then 1 else span0 in
  let brk := (start_brk +u 4095) &~ 4095 in
  match pmm_layout_calculate brk span (Some zero_layout) with
  | (rc, Some layout) =>
    if negb (rc =? 0) then None else
    if total_bytes layout =? 0 then None else
    let s := mk_state (replicate (Z.to_nat (bits_length layout / 8)) UINT64_MAX) beyond
               (replicate (Z.to_nat span) empty_page) [] 0 0 0 in
    let s := foldl (init_zone lowest_ram) s ranges in
    let layout' := mk_pmm_layout (bits_map_off layout) (bits_length layout)
       (pages_struct_off layout) (PmmBoot.pages_length layout) (zones_struct_off layout)
       (zones_length layout) (end_of_struct_off layout) (total_bytes layout)
       (to_phy (brk +u end_of_struct_off layout)) in
    let '(brc, count, rs) := reservations layout' in
    if negb (brc =? 0) then None else
    let '(brc, s) := pmm_reserve_boot_ranges (Some rs) (default 0 count) s in
    if negb (brc =? 0) then None else
    let normal := if 0 <? zones_size s then zones_size s - 1 else 0 in
    let '(normal, unmapped) := zone_indices (zones_struct s) 0 threshold normal 0 in
    Some (mk_state (bits_map s) (bits_beyond s) (pages_struct s) (zones_struct s)
            0 normal unmapped)
  | (_, None) => None
  end.


(** * Bitmap reasoning *)

(** Bit [i] of the frame map, reading the word beyond the map past its end. *)
Definition bit (s : state) (i : Z) : bool := Z.testbit (word s (i / 64)) (i mod 64).

Lemma bit_used_bit s i : bit_used s i = bit s i.
Proof.
  unfold bit_used, bit. rewrite Z.shiftr_div_pow2 by lia.
  apply land_bit_test. apply Z.mod_pos_bound. lia.
Qed.

Lemma word_upd_bits f w s v :
  word (upd_bits (zalter f w) s) v =
    if decide (w = v /\ 0 <= v < zlen (bits_map s)) then f (word s v) else word s v.
Proof.
  unfold word. simpl. case_decide as Hd.
  - destruct Hd as [-> Hr]. rewrite zlookup_zalter.
    destruct (zlookup_in_range _ _ Hr) as [x ->]. done.
  - destruct (decide (w = v)) as [->|].
    + rewrite !zlookup_none; [done| |]; rewrite ?zlen_zalter; tauto.
    + by rewrite zlookup_zalter_ne.
Qed.

Definition words_ok (s : state) : Prop :=
  Forall is_u64 (bits_map s) /\ is_u64 (bits_beyond s).

Lemma word_u64 s w : words_ok s -> 0 <= word s w < U64.
Proof.
  intros [Hf Hb]. unfold word, zlookup. destruct (0 <=? w); [|exact Hb].
  destruct (bits_map s !! Z.to_nat w) eqn:E; [|exact Hb].
  by eapply Forall_lookup_1 in Hf.
Qed.

Lemma frame_word i : Z.shiftr i 6 = i / 64.
Proof. by rewrite Z.shiftr_div_pow2 by lia. Qed.

Lemma frame_eq i j : i / 64 = j / 64 -> (i mod 64 =? j mod 64) = (i =? j).
Proof. intros. bools; try done; dlia. Qed.

(** Writing one word of the map through [f], where [f] acts on the single bit
    [i mod 64] as [g] does, changes exactly bit [i]. *)
Lemma bit_upd f g i s j :
  (forall w m, 0 <= w < U64 -> 0 <= m < 64 ->
    Z.testbit (f w) m = g (Z.testbit w m) (i mod 64 =? m)) ->
  (forall b, g b false = b) ->
  words_ok s -> 0 <= i < 64 * zlen (bits_map s) ->
  bit (upd_bits (zalter f (Z.shiftr i 6)) s) j = g (bit s j) (i =? j).
Proof.
  intros Hf Hg Hok Hi. unfold bit. rewrite word_upd_bits, frame_word.
  pose proof (Z.mod_pos_bound j 64 ltac:(lia)).
  case_decide as Hd.
  - destruct Hd as [He Hr]. rewrite Hf by (try apply word_u64; done || lia).
    by rewrite frame_eq.
  - destruct (Z.eqb_spec i j) as [->|]; [|by rewrite Hg].
    destruct Hd. split; [done|]. dlia.
Qed.

Lemma bit_set s i j :
  words_ok s -> 0 <= i < 64 * zlen (bits_map s) ->
  bit (upd_bits (bm_set i) s) j = bit s j || (i =? j).
Proof.
  intros. unfold bm_set. apply (bit_upd _ orb); try done.
  - intros. apply lor_bit_spec. apply Z.mod_pos_bound. lia.
  - by intros [].
Qed.

Lemma bit_clear s i j :
  words_ok s -> 0 <= i < 64 * zlen (bits_map s) ->
  bit (upd_bits (bm_clear i) s) j = bit s j && negb (i =? j).
Proof.
  intros. unfold bm_clear. apply (bit_upd _ (fun a b => a && negb b)); try done.
  - intros. apply clear_bit_spec; [done|]. apply Z.mod_pos_bound. lia.
  - by intros [].
Qed.

Lemma bit_flip s i j :
  words_ok s -> 0 <= i < 64 * zlen (bits_map s) ->
  bit (upd_bits (bm_flip i) s) j = xorb (bit s j) (i =? j).
Proof.
  intros. unfold bm_flip. apply (bit_upd _ xorb); try done.
  - intros. apply lxor_bit_spec. apply Z.mod_pos_bound. lia.
  - by intros [].
Qed.

(** The word operations keep every word within 64 bits. *)
Lemma words_ok_upd f w s :
  (forall x, is_u64 x -> is_u64 (f x)) -> words_ok s -> words_ok (upd_bits (zalter f w) s).
Proof.
  intros Hf [Hw Hb]. split; [|done]. simpl. unfold zalter.
  destruct (0 <=? w); [|done]. apply Forall_alter; auto.
Qed.

Lemma is_u64_lor_bit i x : is_u64 x -> is_u64 (Z.lor x (shl64 1 (i mod 64))).
Proof.
  unfold is_u64. intros Hx. pose proof (Z.mod_pos_bound i 64 ltac:(lia)) as Hm.
  assert (0 <= Z.lor x (shl64 1 (i mod 64))).
  { apply Z.lor_nonneg. rewrite shl64_one by done. pose proof (pow2_u64 _ Hm). lia. }
  split; [done|]. apply u64_of_bits; [done|]. intros m Hge.
  rewrite lor_bit_spec, u64_bits_above by done. bools; [lia|done].
Qed.

Lemma is_u64_lxor_bit i x : is_u64 x -> is_u64 (Z.lxor x (shl64 1 (i mod 64))).
Proof.
  unfold is_u64. intros Hx. pose proof (Z.mod_pos_bound i 64 ltac:(lia)) as Hm.
  assert (0 <= Z.lxor x (shl64 1 (i mod 64))).
  { apply Z.lxor_nonneg. rewrite shl64_one by done. pose proof (pow2_u64 _ Hm). lia. }
  split; [done|]. apply u64_of_bits; [done|]. intros m Hge.
  rewrite lxor_bit_spec, u64_bits_above by done. bools; [lia|done].
Qed.

Lemma is_u64_clear_bit i x : is_u64 x -> is_u64 (x &~ shl64 1 (i mod 64)).
Proof.
  unfold is_u64. intros Hx. pose proof (Z.mod_pos_bound i 64 ltac:(lia)) as Hm.
  assert (0 <= x &~ shl64 1 (i mod 64)) by (apply Z.land_nonneg; lia).
  split; [done|]. apply u64_of_bits; [done|]. intros m Hge.
  by rewrite clear_bit_spec, u64_bits_above by done.
Qed.

Lemma words_ok_set i s : words_ok s -> words_ok (upd_bits (bm_set i) s).
Proof. apply words_ok_upd, is_u64_lor_bit. Qed.
Lemma words_ok_flip i s : words_ok s -> words_ok (upd_bits (bm_flip i) s).
Proof. apply words_ok_upd, is_u64_lxor_bit. Qed.
Lemma words_ok_clear i s : words_ok s -> words_ok (upd_bits (bm_clear i) s).
Proof. apply words_ok_upd, is_u64_clear_bit. Qed.

Create HintDb pmm.
#[export] Hint Resolve words_ok_set words_ok_flip words_ok_clear : pmm.

(** * The search for a run of free frames *)

(** [number] consecutive clear bits from [p] on. *)
Definition run_clear (s : state) (p number : Z) : Prop :=
  forall l, 0 <= l < number -> bit s (p + l) = false.

Lemma land_ones_zero x n :
  0 <= n -> Z.land x (2 ^ n - 1) = 0 <-> forall l, 0 <= l < n -> Z.testbit x l = false.
Proof.
  intros Hn. replace (2 ^ n - 1) with (Z.ones n) by (rewrite Z.ones_equiv; lia).
  split.
  - intros H0 l Hl. assert (Z.testbit (Z.land x (Z.ones n)) l = false) as Hb
      by (rewrite H0; apply Z.bits_0).
    by rewrite Z.land_spec, Z.ones_spec_low, andb_true_r in Hb by lia.
  - intros Hb. apply Z.bits_inj'. intros l Hl. rewrite Z.land_spec, Z.bits_0.
    destruct (decide (l < n)); [by rewrite Hb by lia|].
    rewrite Z.ones_spec_high by lia. apply andb_false_r.
Qed.

Lemma window_spec s w k l :
  words_ok s -> 0 <= k < 64 -> 0 <= l < 64 ->
  Z.testbit (window s w k) l = bit s (64 * w + k + l).
Proof.
  intros Hok Hk Hl. unfold window, bit.
  destruct (Z.eqb_spec k 0) as [->|].
  { f_equal; [f_equal|]; dlia. }
  unfold shr64, shl64, wrap64. change U64 with (2 ^ 64).
  rewrite !(Z.mod_small _ 64) by lia.
  rewrite Z.lor_spec, Z.shiftr_spec, Z.mod_pow2_bits_low, Z.shiftl_spec by lia.
  destruct (decide (k + l < 64)).
  - rewrite (Z.testbit_neg_r _ (l - (64 - k))), orb_false_r by lia.
    f_equal; [f_equal|]; dlia.
  - rewrite (u64_bits_above (word s w)) by (try apply word_u64; done || lia).
    simpl. f_equal; [f_equal|]; dlia.
Qed.

Lemma window_test s number w k :
  words_ok s -> 1 <= number < 64 -> 0 <= k < 64 ->
  Z.land (window s w k) (shl64 1 number -u 1) = 0 <-> run_clear s (64 * w + k) number.
Proof.
  intros Hok Hn Hk. rewrite shl64_one by lia.
  pose proof (pow2_u64 number ltac:(lia)).
  rewrite wrap64_small, land_ones_zero by lia.
  split; intros Hr l Hl; specialize (Hr l Hl); rewrite window_spec in * by (done || lia); done.
Qed.

(** The outcome of a linear search over [a .. b-1]: the first position with
    the property, or none at all. *)
Definition first_of (P : Z -> Prop) (a b : Z) (r : option Z) : Prop :=
  match r with
  | Some p => a <= p < b /\ P p /\ forall q, a <= q < p -> ~ P q
  | None => forall q, a <= q < b -> ~ P q
  end.

Lemma first_of_app P a b c r :
  a <= b -> first_of P a b None -> first_of P b c r -> first_of P a c r.
Proof.
  intros Hab Hn. destruct r as [p|]; simpl in *.
  - intros (Hr & Hp & Hq). split; [lia|]. split; [done|]. intros q ?.
    destruct (decide (q < b)); [apply Hn; lia | apply Hq; lia].
  - intros Hq q ?. destruct (decide (q < b)); [apply Hn; lia | apply Hq; lia].
Qed.

Lemma scan_k_spec n s number w k :
  words_ok s -> 1 <= number < 64 -> 0 <= k -> k + Z.of_nat n <= 64 ->
  first_of (fun q => run_clear s q number) (64 * w + k) (64 * w + k + Z.of_nat n)
    ((fun k => 64 * w + k) <$> scan_k n s number w k).
Proof.
  intros Hok Hn. revert k. induction n as [|n IH]; intros k Hk Hb; simpl scan_k.
  { simpl. intros. lia. }
  destruct (Z.eqb_spec (Z.land (window s w k) (shl64 1 number -u 1)) 0) as [He|He].
  - simpl. split; [lia|]. split; [|intros; lia].
    apply window_test; [done|done|lia|done].
  - apply (first_of_app _ _ (64 * w + (k + 1))); [lia| |].
    + simpl. intros q Hq. replace q with (64 * w + k) by lia.
      intros Hr. apply He. apply window_test; [done|done|lia|done].
    + replace (64 * w + k + Z.of_nat (S n)) with (64 * w + (k + 1) + Z.of_nat n) by lia.
      apply IH; lia.
Qed.

(** The word loop visits every position from [j] to the end of the word that
    holds [end_ - 1], in order; the given fuel is enough. *)
Lemma scan_zone_spec fuel s number tmp j end_ :
  words_ok s -> 1 <= number < 64 -> 0 <= j -> end_ < U64 - 64 ->
  (j mod 64 <> 0 -> tmp = 64 - j mod 64) ->
  j < end_ \/ j mod 64 = 0 ->
  end_ - j <= Z.of_nat fuel ->
  first_of (fun q => run_clear s q number) j (Z.max j (align_up end_ 64))
    (scan_zone fuel s number tmp j end_).
Proof.
  intros Hok Hn. revert j. induction fuel as [|fuel IH]; intros j Hj He Ht Hj' Hf.
  { simpl. unfold align_up. intros q Hq. dlia. }
  simpl scan_zone. destruct (Z.ltb_spec j end_) as [Hlt|Hge].
  2: { simpl. unfold align_up. intros q Hq. dlia. }
  pose proof (Z.mod_pos_bound j 64 ltac:(lia)). rewrite frame_word.
  pose proof (scan_k_spec (Z.to_nat (64 - j mod 64)) s number (j / 64) (j mod 64)
    Hok Hn ltac:(lia) ltac:(lia)) as Hk.
  rewrite Z2Nat.id in Hk by lia.
  assert (64 * (j / 64) + j mod 64 = j) as Hje by dlia. rewrite Hje in Hk.
  set (j' := j + (64 - j mod 64)) in *.
  assert (j' <= align_up end_ 64) by (unfold j', align_up; dlia).
  destruct (scan_k _ _ _ _ _) as [k|]; simpl fmap in Hk.
  - replace (j + k - j mod 64) with (64 * (j / 64) + k) by lia.
    simpl in Hk |- *. intuition lia.
  - apply (first_of_app _ _ j'); [lia|done|].
    assert (j +u (if j mod 64 =? 0 then 64 else tmp) = j') as ->.
    { unfold j'. destruct (Z.eqb_spec (j mod 64) 0); [|rewrite Ht by done];
        rewrite wrap64_small; lia. }
    replace (Z.max j (align_up end_ 64)) with (Z.max j' (align_up end_ 64)) by lia.
    assert (j' mod 64 = 0) by (unfold j'; dlia).
    apply IH; lia.
Qed.

(** * The invariant of the manager *)

(** The number of clear bits among the [n] from [a] on. *)
Fixpoint nfree (n : nat) (s : state) (a : Z) : Z :=
  match n with
  | O => 0
  | S n => (if bit s a then 0 else 1) + nfree n s (a + 1)
  end.

(** Zone [zi] is a non-empty block of frames of the span, 2 MiB-aligned and
    inside the physical address space, whose descriptors point back to it and
    whose counters count the bitmap. *)
Record zone_ok (s : state) (zi : Z) (z : Zone) : Prop := {
  zo_range : 0 <= pages_group z /\ 0 < pages_length z /\
             pages_group z + pages_length z <= pages_size s;
  zo_addr : 0 <= zone_start_address z /\ zone_start_address z mod PAGE_2M_SIZE = 0 /\
            zone_end_address z = zone_start_address z + pages_length z * PAGE_2M_SIZE /\
            zone_end_address z < U64;
  zo_count : page_free_count z = nfree (Z.to_nat (pages_length z)) s (pages_group z) /\
             page_using_count z = pages_length z - page_free_count z;
  zo_pages : forall i, pages_group z <= i < pages_group z + pages_length z ->
    exists p, pages_struct s !!z i = Some p /\ zone_struct p = Some zi /\
      phy_address p = zone_start_address z + (i - pages_group z) * PAGE_2M_SIZE;
}.

(** [i] is a frame of zone [z]. *)
Definition in_zone (z : Zone) (i : Z) : Prop :=
  pages_group z <= i < pages_group z + pages_length z.

Record wf (s : state) : Prop := {
  wf_words : words_ok s;
  wf_size : pages_size s <= 64 * zlen (bits_map s) /\ pages_size s < 2 ^ 59;
  wf_zone : forall zi z, zones_struct s !!z zi = Some z -> zone_ok s zi z;
  wf_sep : forall zi zj z z', zones_struct s !!z zi = Some z -> zones_struct s !!z zj = Some z' ->
    zi < zj -> pages_group z + pages_length z < pages_group z' /\
               zone_end_address z <= zone_start_address z';
  wf_hole : forall i, 0 <= i < 64 * zlen (bits_map s) -> bit s i = false ->
    exists zi z, zones_struct s !!z zi = Some z /\ in_zone z i;
  wf_page : forall i p zi, pages_struct s !!z i = Some p -> zone_struct p = Some zi ->
    exists z, zones_struct s !!z zi = Some z /\ in_zone z i;
}.

Lemma nfree_ext n s s' a :
  (forall i, a <= i < a + Z.of_nat n -> bit s' i = bit s i) -> nfree n s' a = nfree n s a.
Proof.
  revert a. induction n as [|n IH]; intros a He; [done|]. simpl.
  rewrite He, IH by lia || (intros; apply He; lia). done.
Qed.

Lemma nfree_bounds n s a : 0 <= nfree n s a <= Z.of_nat n.
Proof. revert a. induction n as [|n IH]; intros a; simpl; [lia|]. specialize (IH (a + 1)). destruct (bit s a); lia. Qed.

Lemma nfree_pos n s a :
  0 < nfree n s a -> exists i, a <= i < a + Z.of_nat n /\ bit s i = false.
Proof.
  revert a. induction n as [|n IH]; intros a; simpl; [lia|].
  destruct (bit s a) eqn:E; intros Hp; [|exists a; split; [lia|done]].
  destruct (IH (a + 1) ltac:(lia)) as (i & ? & ?). exists i. split; [lia|done].
Qed.

(** Changing the value of one bit inside the range moves the count by one. *)
Lemma nfree_change n s s' a i :
  a <= i < a + Z.of_nat n -> (forall j, j <> i -> bit s' j = bit s j) ->
  nfree n s' a = nfree n s a + (if bit s i then 1 else 0) - (if bit s' i then 1 else 0).
Proof.
  revert a. induction n as [|n IH]; intros a Hi He; [simpl in Hi; lia|]. simpl.
  destruct (decide (i = a)) as [->|].
  - rewrite (nfree_ext n s s' (a + 1)) by (intros; apply He; lia).
    destruct (bit s a), (bit s' a); lia.
  - rewrite IH, He by lia || done. lia.
Qed.

(** Only one zone owns a frame. *)
Lemma wf_unique s zi zj z z' i :
  wf s -> zones_struct s !!z zi = Some z -> zones_struct s !!z zj = Some z' ->
  in_zone z i -> in_zone z' i -> zi = zj.
Proof.
  intros Hw Hz Hz' Hi Hi'. unfold in_zone in *.
  destruct (Z.lt_trichotomy zi zj) as [Hlt|[?|Hlt]]; [|done|].
  - pose proof (wf_sep s Hw _ _ _ _ Hz Hz' Hlt). lia.
  - pose proof (wf_sep s Hw _ _ _ _ Hz' Hz Hlt). lia.
Qed.

(** A physical address belongs to one descriptor. *)
Lemma frame_address_inj s i j p q zi zj :
  wf s -> pages_struct s !!z i = Some p -> zone_struct p = Some zi ->
  pages_struct s !!z j = Some q -> zone_struct q = Some zj ->
  phy_address p = phy_address q -> i = j.
Proof.
  intros Hw Ep Es Eq Es' He.
  destruct (wf_page s Hw i p zi Ep Es) as (z & Ez & Hi).
  destruct (wf_page s Hw j q zj Eq Es') as (z' & Ez' & Hj). unfold in_zone in *.
  destruct (wf_zone s Hw _ _ Ez) as [H1 H2 _ H3], (wf_zone s Hw _ _ Ez') as [H1' H2' _ H3'].
  destruct (H3 i Hi) as (p1 & E1 & _ & Hp). destruct (H3' j Hj) as (q1 & E1' & _ & Hq).
  assert (p1 = p) as -> by congruence. assert (q1 = q) as -> by congruence.
  destruct (Z.lt_trichotomy zi zj) as [Hlt|[->|Hlt]].
  - destruct (wf_sep s Hw _ _ _ _ Ez Ez' Hlt). lia.
  - assert (z' = z) as -> by congruence. lia.
  - destruct (wf_sep s Hw _ _ _ _ Ez' Ez Hlt). lia.
Qed.

(** ** States that agree on what the invariant reads *)

Definition page_core (p : Page) : option Z * Z := (zone_struct p, phy_address p).
Definition zone_core (z : Zone) : Z * Z * Z * Z :=
  (pages_group z, pages_length z, zone_start_address z, zone_end_address z).
Definition zone_counts (z : Zone) : Z * Z := (page_free_count z, page_using_count z).

Record same_shape (s s' : state) : Prop := {
  ss_bitlen : zlen (bits_map s') = zlen (bits_map s);
  ss_pagelen : pages_size s' = pages_size s;
  ss_pages : forall i, page_core <$> pages_struct s' !!z i = page_core <$> pages_struct s !!z i;
  ss_zones : forall i, zone_core <$> zones_struct s' !!z i = zone_core <$> zones_struct s !!z i;
}.

Lemma fmap_some_inv {A B} (f : A -> B) o o' y :
  f <$> o = f <$> o' -> o = Some y -> exists x, o' = Some x /\ f x = f y.
Proof. intros He ->. destruct o'; simpl in He; [|done]. exists a. by simplify_eq. Qed.

(** The invariant carries over to a state of the same shape whose new bits
    and counters are again consistent. *)
Lemma wf_shape s s' :
  wf s -> same_shape s s' -> words_ok s' ->
  (forall i, 0 <= i < 64 * zlen (bits_map s) -> bit s' i = false ->
     bit s i = false \/ exists zi z, zones_struct s !!z zi = Some z /\ in_zone z i) ->
  (forall zi z', zones_struct s' !!z zi = Some z' ->
     page_free_count z' = nfree (Z.to_nat (pages_length z')) s' (pages_group z') /\
     page_using_count z' = pages_length z' - page_free_count z') ->
  wf s'.
Proof.
  intros Hw [Hbl Hpl Hp Hz] Hok Hb Hc.
  assert (forall zi z', zones_struct s' !!z zi = Some z' ->
    exists z, zones_struct s !!z zi = Some z /\ zone_core z = zone_core z') as Hzz.
  { intros zi z' E. eapply fmap_some_inv; [|exact E]. apply Hz. }
  assert (forall zi z, zones_struct s !!z zi = Some z ->
    exists z', zones_struct s' !!z zi = Some z' /\ zone_core z' = zone_core z) as Hzz'.
  { intros zi z E. eapply fmap_some_inv; [|exact E]. symmetry. apply Hz. }
  destruct (wf_size s Hw). constructor.
  - done.
  - rewrite Hbl, Hpl. done.
  - intros zi z' E. destruct (Hzz _ _ E) as (z & Ez & Ec). unfold zone_core in Ec. simplify_eq.
    destruct (wf_zone s Hw _ _ Ez) as [Hr Ha _ Hpg].
    constructor; rewrite ?Hpl; try congruence; [by eapply Hc|].
    intros i Hi. destruct (Hpg i ltac:(lia)) as (p & Ep & Hs & Hph).
    destruct (fmap_some_inv page_core _ _ _ (eq_sym (Hp i)) Ep) as (p' & Ep' & Ec').
    unfold page_core in Ec'. exists p'. split; [done|]. simplify_eq. split; congruence.
  - intros zi zj z z' E E' Hlt.
    destruct (Hzz _ _ E) as (y & Ey & Ec), (Hzz _ _ E') as (y' & Ey' & Ec').
    unfold zone_core in *. simplify_eq.
    pose proof (wf_sep s Hw _ _ _ _ Ey Ey' Hlt). lia.
  - intros i Hi Hf. rewrite Hbl in Hi.
    assert (exists zi z, zones_struct s !!z zi = Some z /\ in_zone z i) as (zi & z & E & Hin).
    { destruct (Hb i Hi Hf); [by eapply wf_hole | done]. }
    destruct (Hzz' _ _ E) as (z' & E' & Ec). exists zi, z'. split; [done|].
    unfold in_zone, zone_core in *. simplify_eq. congruence.
  - intros i p' zi E Hs. destruct (fmap_some_inv page_core _ _ _ (Hp i) E) as (p & Ep & Ec).
    unfold page_core in Ec. simplify_eq.
    destruct (wf_page s Hw i p zi Ep) as (z & Ez & Hin); [congruence|].
    destruct (Hzz' _ _ Ez) as (z' & E' & Ec). exists z'. split; [done|].
    unfold in_zone, zone_core in *. simplify_eq. congruence.
Qed.

(** One frame changes between free and used, with its zone's counters. *)
Lemma frame_change_wf s s' i zi z (d := (if bit s i then 1 else 0) - (if bit s' i then 1 else 0)) :
  wf s -> same_shape s s' -> words_ok s' ->
  zones_struct s !!z zi = Some z -> in_zone z i ->
  (forall j, j <> i -> bit s' j = bit s j) ->
  (forall zj z', zones_struct s' !!z zj = Some z' -> exists y, zones_struct s !!z zj = Some y /\
     zone_core z' = zone_core y /\
     page_free_count z' = page_free_count y + (if decide (zj = zi) then d else 0) /\
     page_using_count z' = page_using_count y - (if decide (zj = zi) then d else 0)) ->
  wf s'.
Proof.
  intros Hw Hss Hok Hz Hin Hb Hc. apply (wf_shape s); [done..| |].
  - intros j Hj Hf. destruct (decide (j = i)) as [->|]; [by right; eauto|].
    left. by rewrite <- Hb.
  - intros zj z' E. destruct (Hc _ _ E) as (y & Ey & Ec & -> & ->).
    destruct (wf_zone s Hw _ _ Ey) as [Hr _ [-> ->] _].
    injection Ec as -> -> _ _.
    unfold in_zone in Hin. case_decide as Hd; subst.
    + rewrite Hz in Ey. injection Ey as <-.
      rewrite (nfree_change _ s s' _ i) by (done || lia). unfold d. split; lia.
    + rewrite (nfree_ext _ s s'); [lia|]. intros j Hj. apply Hb. intros ->.
      destruct Hd. eapply (wf_unique s); [done|exact Ey|exact Hz| |done]. unfold in_zone. lia.
Qed.

(** The three assignments every path that hands out frame [i] makes, and the
    three that return it. *)
Definition occupy (f : Page -> Page) (i zi : Z) (s : state) : state :=
  upd_page f i (upd_zone zone_take zi (upd_bits (bm_set i) s)).
Definition release (f : Page -> Page) (i zi : Z) (s : state) : state :=
  upd_page f i (upd_zone zone_give zi (upd_bits (bm_clear i) s)).

Lemma zlookup_zalter_fmap {A B} (f : A -> A) (c : A -> B) (l : list A) i j :
  (forall x, c (f x) = c x) -> c <$> zalter f i l !!z j = c <$> l !!z j.
Proof.
  intros Hc. destruct (decide (i = j)) as [->|].
  - rewrite zlookup_zalter. destruct (l !!z j); simpl; [by rewrite Hc|done].
  - by rewrite zlookup_zalter_ne.
Qed.

Lemma same_shape_upd f g h i zi w s :
  (forall p, page_core (f p) = page_core p) -> (forall z, zone_core (g z) = zone_core z) ->
  same_shape s (upd_page f i (upd_zone g zi (upd_bits (zalter h w) s))).
Proof.
  intros Hf Hg. constructor; simpl.
  - apply zlen_zalter.
  - apply zlen_zalter.
  - intros. by apply zlookup_zalter_fmap.
  - intros. by apply zlookup_zalter_fmap.
Qed.

Lemma wf_frame_range s zi z i :
  wf s -> zones_struct s !!z zi = Some z -> in_zone z i ->
  0 <= i < pages_size s /\ 0 <= i < 64 * zlen (bits_map s).
Proof.
  intros Hw Hz Hi. destruct (wf_zone s Hw _ _ Hz) as [Hr _ _ _]. destruct (wf_size s Hw).
  unfold in_zone in *. lia.
Qed.

(** The counters of a zone with a free (used) frame stay within the width
    when the frame is taken (returned). *)
Lemma zone_count_pos s zi z i :
  wf s -> zones_struct s !!z zi = Some z -> in_zone z i ->
  0 <= page_free_count z <= pages_length z /\ pages_length z < 2 ^ 59 /\
  (bit s i = false -> 0 < page_free_count z) /\ (bit s i = true -> page_free_count z < pages_length z).
Proof.
  intros Hw Hz Hi. destruct (wf_zone s Hw _ _ Hz) as [Hr _ [Hc _] _].
  destruct (wf_size s Hw). unfold in_zone in Hi. rewrite Hc.
  pose proof (nfree_bounds (Z.to_nat (pages_length z)) s (pages_group z)).
  repeat split; try lia; intros Hb.
  - assert (forall j, j <> i -> bit (upd_bits (bm_set i) s) j = bit s j) as He.
    { intros. rewrite bit_set by (try apply Hw; lia). bools; [lia|by rewrite orb_false_r]. }
    pose proof (nfree_change (Z.to_nat (pages_length z)) s _ (pages_group z) i ltac:(lia) He) as Hn.
    rewrite Hb, bit_set, Z.eqb_refl, orb_true_r in Hn by (try apply Hw; lia).
    pose proof (nfree_bounds (Z.to_nat (pages_length z)) (upd_bits (bm_set i) s) (pages_group z)). lia.
  - assert (forall j, j <> i -> bit (upd_bits (bm_clear i) s) j = bit s j) as He.
    { intros. rewrite bit_clear by (try apply Hw; lia). bools; [lia|by rewrite andb_true_r]. }
    pose proof (nfree_change (Z.to_nat (pages_length z)) s _ (pages_group z) i ltac:(lia) He) as Hn.
    rewrite Hb, bit_clear, Z.eqb_refl, andb_false_r in Hn by (try apply Hw; lia).
    pose proof (nfree_bounds (Z.to_nat (pages_length z)) (upd_bits (bm_clear i) s) (pages_group z)). lia.
Qed.

Lemma bit_occupy f i zi s j :
  words_ok s -> 0 <= i < 64 * zlen (bits_map s) ->
  bit (occupy f i zi s) j = bit s j || (i =? j).
Proof. apply bit_set. Qed.
Lemma bit_release f i zi s j :
  words_ok s -> 0 <= i < 64 * zlen (bits_map s) ->
  bit (release f i zi s) j = bit s j && negb (i =? j).
Proof. apply bit_clear. Qed.

Lemma occupy_wf f i zi z s :
  (forall p, page_core (f p) = page_core p) ->
  wf s -> zones_struct s !!z zi = Some z -> in_zone z i -> bit s i = false ->
  wf (occupy f i zi s).
Proof.
  intros Hf Hw Hz Hi Hb. destruct (wf_frame_range s zi z i Hw Hz Hi).
  destruct (zone_count_pos s zi z i Hw Hz Hi) as (Hc & Hl & Hp & _). specialize (Hp Hb).
  apply (frame_change_wf s _ i zi z); [done| | |done|done| |].
  - by apply same_shape_upd.
  - apply words_ok_set, Hw.
  - intros j Hj. rewrite bit_occupy by (try apply Hw; lia). bools; [lia|by rewrite orb_false_r].
  - rewrite Hb, bit_occupy, Z.eqb_refl, orb_true_r by (try apply Hw; lia).
    intros zj z'. unfold occupy, upd_page, upd_zone, upd_bits. simpl zones_struct. intros E.
    case_decide as Hd; subst.
    + rewrite zlookup_zalter, Hz in E. injection E as <-. exists z. split; [done|].
      destruct (wf_zone s Hw _ _ Hz) as [_ _ [_ Hu] _]. unfold zone_take; simpl. unwrap. split_and!; done || lia.
    + rewrite zlookup_zalter_ne in E by done. exists z'. split_and!; done || lia.
Qed.

Lemma release_wf f i zi z s :
  (forall p, page_core (f p) = page_core p) ->
  wf s -> zones_struct s !!z zi = Some z -> in_zone z i -> bit s i = true ->
  wf (release f i zi s).
Proof.
  intros Hf Hw Hz Hi Hb. destruct (wf_frame_range s zi z i Hw Hz Hi).
  destruct (zone_count_pos s zi z i Hw Hz Hi) as (Hc & Hl & _ & Hp). specialize (Hp Hb).
  apply (frame_change_wf s _ i zi z); [done| | |done|done| |].
  - by apply same_shape_upd.
  - apply words_ok_clear, Hw.
  - intros j Hj. rewrite bit_release by (try apply Hw; lia). bools; [lia|by rewrite andb_true_r].
  - rewrite Hb, bit_release, Z.eqb_refl, andb_false_r by (try apply Hw; lia).
    intros zj z'. unfold release, upd_page, upd_zone, upd_bits. simpl zones_struct. intros E.
    case_decide as Hd; subst.
    + rewrite zlookup_zalter, Hz in E. injection E as <-. exists z. split; [done|].
      destruct (wf_zone s Hw _ _ Hz) as [_ _ [_ Hu] _]. unfold zone_give; simpl. unwrap. split_and!; done || lia.
    + rewrite zlookup_zalter_ne in E by done. exists z'. split_and!; done || lia.
Qed.

(** * alloc_pages *)

Lemma shiftr_21 a : Z.shiftr a 21 = a / PAGE_2M_SIZE.
Proof. by rewrite Z.shiftr_div_pow2 by lia. Qed.

(** The end of the bitmap range that [alloc_pages] computes for a zone. *)
Lemma zone_extent s zi z :
  wf s -> zones_struct s !!z zi = Some z ->
  pages_group z +u Z.shiftr (zone_end_address z) 21 -u Z.shiftr (zone_start_address z) 21
    = pages_group z + pages_length z.
Proof.
  intros Hw Hz. destruct (wf_zone s Hw _ _ Hz) as [Hr Ha _ _]. destruct (wf_size s Hw).
  rewrite !shiftr_21. destruct Ha as (Hs & Hm & -> & Hlt).
  rewrite Z.div_add by lia.
  assert (0 <= zone_start_address z / PAGE_2M_SIZE < 2 ^ 43) by dlia.
  unwrap. lia.
Qed.

(** What the scan of one selected zone finds. *)
Definition scan (s : state) (number : Z) (z : Zone) : option Z :=
  let start := pages_group z in
  let end_ := start +u Z.shiftr (zone_end_address z) 21 -u Z.shiftr (zone_start_address z) 21 in
  scan_zone (Z.to_nat (end_ - start)) s number (64 - start mod 64) start end_.

Lemma scan_spec s number zi z :
  wf s -> zones_struct s !!z zi = Some z -> 1 <= number < 64 ->
  first_of (fun q => run_clear s q number) (pages_group z)
    (align_up (pages_group z + pages_length z) 64) (scan s number z).
Proof.
  intros Hw Hz Hn. unfold scan. rewrite (zone_extent s zi z) by done.
  destruct (wf_zone s Hw _ _ Hz) as [Hr _ _ _]. destruct (wf_size s Hw).
  pose proof (align_up_bounds (pages_group z + pages_length z) 64 ltac:(lia)).
  replace (align_up (pages_group z + pages_length z) 64)
    with (Z.max (pages_group z) (align_up (pages_group z + pages_length z) 64)) by lia.
  apply scan_zone_spec; try done; try lia. apply Hw.
Qed.

(** The zone loop stops at the first zone that has enough free frames and in
    whose words a run is found, and marks that run. *)
Lemma alloc_zones_spec n i number attr s :
  match alloc_zones n i number attr s with
  | (Some p, s') => exists zi z, i <= zi < i + Z.of_nat n /\ zones_struct s !!z zi = Some z /\
      number <= page_free_count z /\ scan s number z = Some p /\
      s' = take_pages (Z.to_nat number) zi attr p s
  | (None, s') => s' = s /\ forall zi z, i <= zi < i + Z.of_nat n ->
      zones_struct s !!z zi = Some z -> page_free_count z < number \/ scan s number z = None
  end.
Proof.
  revert i. induction n as [|n IH]; intros i; simpl alloc_zones.
  { split; [done|]. intros; lia. }
  assert ((forall z, zones_struct s !!z i = Some z ->
             page_free_count z < number \/ scan s number z = None) ->
    match alloc_zones n (i + 1) number attr s with
    | (Some p, s') => exists zi z, i <= zi < i + Z.of_nat (S n) /\ zones_struct s !!z zi = Some z /\
        number <= page_free_count z /\ scan s number z = Some p /\
        s' = take_pages (Z.to_nat number) zi attr p s
    | (None, s') => s' = s /\ forall zi z, i <= zi < i + Z.of_nat (S n) ->
        zones_struct s !!z zi = Some z -> page_free_count z < number \/ scan s number z = None
    end) as Hnext.
  { intros Hi. specialize (IH (i + 1)). destruct (alloc_zones n (i + 1) number attr s) as [[p|] s'].
    - destruct IH as (zi & z & ? & ?). exists zi, z. split; [lia|done].
    - destruct IH as [? IH]. split; [done|]. intros zi z Hr Hz.
      destruct (decide (zi = i)) as [->|]; [by apply Hi | apply (IH zi); [lia|done]]. }
  destruct (zones_struct s !!z i) as [z|] eqn:Ez; [|by apply Hnext].
  destruct (Z.ltb_spec (page_free_count z) number).
  { apply Hnext. intros z' [= <-]. by left. }
  fold (scan s number z). destruct (scan s number z) as [p|] eqn:Es.
  - exists i, z. split_and!; done || lia.
  - apply Hnext. intros z' [= <-]. by right.
Qed.

(** The zones a selector searches, from [fst] to [snd], and the attribute the
    frames get. *)
Definition zone_window (zone_select : Z) (s : state) : option (Z * Z) :=
  if zone_select =? ZONE_DMA then Some (0, sint32 (ZONE_DMA_INDEX s))
  else if zone_select =? ZONE_NORMAL then
    Some (sint32 (ZONE_DMA_INDEX s), sint32 (ZONE_NORMAL_INDEX s))
  else if zone_select =? ZONE_UNMAPPED then
    Some (sint32 (ZONE_UNMAPPED_INDEX s), sint32 (zones_size s - 1))
  else None.
Definition zone_attr (zone_select : Z) : Z :=
  if (zone_select =? ZONE_DMA) || (zone_select =? ZONE_NORMAL) then PG_PTable_Mapped else 0.

Lemma alloc_pages_spec sel number s :
  number <= 64 ->
  match alloc_pages sel number s with
  | (Some p, s') => exists lo hi zi z, zone_window sel s = Some (lo, hi) /\ lo <= zi <= hi /\
      zones_struct s !!z zi = Some z /\ number <= page_free_count z /\
      scan s number z = Some p /\ s' = take_pages (Z.to_nat number) zi (zone_attr sel) p s
  | (None, s') => s' = s /\ forall lo hi zi z, zone_window sel s = Some (lo, hi) ->
      lo <= zi <= hi -> zones_struct s !!z zi = Some z ->
      page_free_count z < number \/ scan s number z = None
  end.
Proof.
  intros Hn. unfold alloc_pages, zone_window, zone_attr.
  destruct (Z.ltb_spec 64 number); [lia|].
  assert (forall lo hi attr, match alloc_zones (Z.to_nat (hi - lo + 1)) lo number attr s with
    | (Some p, s') => exists zi z, lo <= zi <= hi /\ zones_struct s !!z zi = Some z /\
        number <= page_free_count z /\ scan s number z = Some p /\
        s' = take_pages (Z.to_nat number) zi attr p s
    | (None, s') => s' = s /\ forall zi z, lo <= zi <= hi -> zones_struct s !!z zi = Some z ->
        page_free_count z < number \/ scan s number z = None
    end) as Hgen.
  { intros lo hi attr. pose proof (alloc_zones_spec (Z.to_nat (hi - lo + 1)) lo number attr s) as Hs.
    destruct (alloc_zones _ _ _ _ _) as [[p|] s'].
    - destruct Hs as (zi & z & ? & ?). exists zi, z. split; [lia|done].
    - destruct Hs as [? Hs]. split; [done|]. intros. apply (Hs zi); [lia|done]. }
  destruct (sel =? ZONE_DMA); [|destruct (sel =? ZONE_NORMAL); [|destruct (sel =? ZONE_UNMAPPED)]];
    simpl orb; cbv iota.
  4: { split; [done|]. intros; done. }
  all: match goal with |- context [alloc_zones (Z.to_nat (?hi - ?lo + 1)) _ _ ?a _] =>
         specialize (Hgen lo hi a); destruct (alloc_zones _ _ _ _ _) as [[p|] s'] end.
  all: destruct Hgen as [Hg1 Hg2].
  all: try (destruct Hg2 as (z & ? & ?); eexists _, _, Hg1, z; done).
  all: split; [done|]; intros lo hi zi z [= <- <-]; apply Hg2.
Qed.

Lemma run_clear_one s p : run_clear s p 1 <-> bit s p = false.
Proof.
  split; intros Hr.
  - rewrite <- (Z.add_0_r p). apply Hr. lia.
  - intros l Hl. by replace (p + l) with p by lia.
Qed.

(** In a zone whose counter is positive the scan for one frame succeeds
    inside the zone. *)
Lemma scan_one s zi z :
  wf s -> zones_struct s !!z zi = Some z -> 1 <= page_free_count z ->
  exists p, scan s 1 z = Some p /\ in_zone z p /\ bit s p = false /\
    forall q, pages_group z <= q < p -> bit s q = true.
Proof.
  intros Hw Hz Hc. pose proof (scan_spec s 1 zi z Hw Hz ltac:(lia)) as Hs.
  destruct (wf_zone s Hw _ _ Hz) as [Hr _ [Hn _] _].
  destruct (nfree_pos (Z.to_nat (pages_length z)) s (pages_group z) ltac:(lia)) as (i & Hi & Hb).
  pose proof (align_up_bounds (pages_group z + pages_length z) 64 ltac:(lia)).
  destruct (scan s 1 z) as [p|]; simpl in Hs.
  - destruct Hs as (Hp & Hrun & Hq). exists p. split; [done|].
    assert (p <= i).
    { destruct (Z.le_gt_cases p i); [done|]. exfalso. apply (Hq i); [lia|]. by apply run_clear_one. }
    unfold in_zone. split; [lia|]. split; [by apply run_clear_one|].
    intros q ?. destruct (bit s q) eqn:E; [done|]. exfalso. apply (Hq q); [lia|]. by apply run_clear_one.
  - exfalso. apply (Hs i); [lia|]. by apply run_clear_one.
Qed.

Lemma alloc_one_occupy sel s p s' :
  wf s -> alloc_pages sel 1 s = (Some p, s') ->
  exists lo hi zi z, zone_window sel s = Some (lo, hi) /\ lo <= zi <= hi /\
    zones_struct s !!z zi = Some z /\ in_zone z p /\ bit s p = false /\
    s' = occupy (set_attribute (zone_attr sel)) p zi s.
Proof.
  intros Hw Ha. pose proof (alloc_pages_spec sel 1 s ltac:(lia)) as Hs. rewrite Ha in Hs.
  destruct Hs as (lo & hi & zi & z & Hwin & Hzi & Hz & Hc & Hscan & ->).
  destruct (scan_one s zi z Hw Hz Hc) as (p' & Hp' & Hin & Hb & _).
  rewrite Hscan in Hp'. injection Hp' as <-. by exists lo, hi, zi, z.
Qed.

(** C1: a single-frame allocation keeps the manager's invariant.  It returns a
    frame of a zone of the selected window that was free, marks that frame and
    no other, and charges the frame's own zone; it fails only when every zone
    of the window is completely used, and then changes nothing. *)
Theorem alloc_pages_one_correct sel s r s' :
  wf s -> alloc_pages sel 1 s = (r, s') ->
  match r with
  | Some p =>
      wf s' /\ bit s p = false /\ (forall j, bit s' j = bit s j || (p =? j)) /\
      exists lo hi zi z, zone_window sel s = Some (lo, hi) /\ lo <= zi <= hi /\
        zones_struct s !!z zi = Some z /\ in_zone z p /\
        zones_struct s' = zalter zone_take zi (zones_struct s)
  | None =>
      s' = s /\ forall lo hi zi z i, zone_window sel s = Some (lo, hi) -> lo <= zi <= hi ->
        zones_struct s !!z zi = Some z -> in_zone z i -> bit s i = true
  end.
Proof.
  intros Hw Ha. destruct r as [p|].
  - destruct (alloc_one_occupy sel s p s' Hw Ha)
      as (lo & hi & zi & z & Hwin & Hzi & Hz & Hin & Hb & ->).
    destruct (wf_frame_range s zi z p Hw Hz Hin).
    split; [by eapply occupy_wf|]. split; [done|]. split.
    { intros j. apply bit_occupy; [apply Hw|done]. }
    by exists lo, hi, zi, z.
  - pose proof (alloc_pages_spec sel 1 s ltac:(lia)) as Hs. rewrite Ha in Hs.
    destruct Hs as [-> Hs]. split; [done|]. intros lo hi zi z i Hwin Hzi Hz Hi.
    destruct (bit s i) eqn:Hb; [done|]. exfalso.
    destruct (zone_count_pos s zi z i Hw Hz Hi) as (_ & _ & Hp & _). specialize (Hp Hb).
    destruct (scan_one s zi z Hw Hz ltac:(lia)) as (p & Hp' & _).
    destruct (Hs lo hi zi z Hwin Hzi Hz); [lia|congruence].
Qed.

Lemma words_ok_take n zi attr p s : words_ok s -> words_ok (take_pages n zi attr p s).
Proof.
  revert p s. induction n as [|n IH]; intros p s Hok; [done|]. simpl. apply IH.
  apply (words_ok_set p s Hok).
Qed.

Lemma bit_take n zi attr p s j :
  words_ok s -> 0 <= p -> p + Z.of_nat n <= 64 * zlen (bits_map s) ->
  bit (take_pages n zi attr p s) j = bit s j || ((p <=? j) && (j <? p + Z.of_nat n)).
Proof.
  revert p s. induction n as [|n IH]; intros p s Hok Hp Hl; simpl take_pages.
  { bools; try lia; by rewrite orb_false_r. }
  change (upd_page _ _ _) with (occupy (set_attribute attr) p zi s).
  rewrite IH; [|apply (words_ok_set p s Hok)|lia|].
  - rewrite bit_occupy by (done || lia).
    destruct (bit s j); simpl; [done|]. bools; done || lia.
  - unfold occupy, bm_set. simpl. rewrite zlen_zalter. lia.
Qed.

(** A run of clear bits that stays inside the bitmap lies in one zone: the
    zones are separated by frames that are permanently marked. *)
Lemma run_in_zone s p number :
  wf s -> 0 <= p -> 1 <= number -> p + number <= 64 * zlen (bits_map s) -> run_clear s p number ->
  exists zi z, zones_struct s !!z zi = Some z /\ in_zone z p /\ in_zone z (p + number - 1).
Proof.
  intros Hw Hp Hn Hl Hr.
  destruct (wf_hole s Hw p ltac:(lia)) as (zi & z & Hz & Hin).
  { apply run_clear_one. intros l ?. apply Hr. lia. }
  exists zi, z. split; [done|]. split; [done|].
  destruct (Z.lt_ge_cases (p + number - 1) (pages_group z + pages_length z)) as [|Hge].
  { unfold in_zone in *. lia. }
  exfalso. set (q := pages_group z + pages_length z). unfold in_zone in Hin.
  assert (bit s q = false) as Hq.
  { replace q with (p + (q - p)) by lia. apply Hr. lia. }
  destruct (wf_hole s Hw q ltac:(lia) Hq) as (zj & z' & Hz' & Hin').
  destruct (wf_zone s Hw _ _ Hz') as [Hr' _ _ _]. unfold in_zone in Hin'.
  destruct (Z.lt_trichotomy zi zj) as [Hlt|[->|Hlt]].
  - pose proof (wf_sep s Hw _ _ _ _ Hz Hz' Hlt). lia.
  - rewrite Hz in Hz'. injection Hz' as <-. lia.
  - pose proof (wf_sep s Hw _ _ _ _ Hz' Hz Hlt). lia.
Qed.

(** An allocation of up to 63 frames returns a block that is physically
    contiguous RAM, every frame of which was free, and marks exactly those
    frames.  The word that follows the bitmap in memory must have its first
    bit set, since the scan reads it. *)
Theorem alloc_pages_run_correct sel number s p s' :
  wf s -> 1 <= number < 64 -> bit s (64 * zlen (bits_map s)) = true ->
  alloc_pages sel number s = (Some p, s') ->
  (forall j, bit s' j = bit s j || ((p <=? j) && (j <? p + number))) /\
  exists zi z, zones_struct s !!z zi = Some z /\
    forall l, 0 <= l < number -> in_zone z (p + l) /\ bit s (p + l) = false /\
      exists pg, pages_struct s !!z (p + l) = Some pg /\
        phy_address pg = zone_start_address z + (p - pages_group z + l) * PAGE_2M_SIZE.
Proof.
  intros Hw Hn Hg Ha. pose proof (alloc_pages_spec sel number s ltac:(lia)) as Hs.
  rewrite Ha in Hs. destruct Hs as (lo & hi & zi & z & _ & _ & Hz & _ & Hscan & ->).
  pose proof (scan_spec s number zi z Hw Hz ltac:(lia)) as Hs. rewrite Hscan in Hs.
  destruct Hs as (Hp & Hr & _). destruct (wf_zone s Hw _ _ Hz) as [Hzr _ _ _].
  destruct (wf_size s Hw).
  assert (align_up (pages_group z + pages_length z) 64 <= 64 * zlen (bits_map s))
    by (unfold align_up; dlia).
  assert (p + number <= 64 * zlen (bits_map s)).
  { destruct (Z.le_gt_cases (p + number) (64 * zlen (bits_map s))); [done|]. exfalso.
    specialize (Hr (64 * zlen (bits_map s) - p) ltac:(lia)).
    replace (p + (64 * zlen (bits_map s) - p)) with (64 * zlen (bits_map s)) in Hr by lia.
    congruence. }
  split.
  { intros j. rewrite bit_take by (try apply Hw; lia). by rewrite Z2Nat.id by lia. }
  destruct (run_in_zone s p number Hw ltac:(lia) ltac:(lia) ltac:(lia) Hr)
    as (zj & z' & Hz' & Hi & Hi'). exists zj, z'. split; [done|].
  intros l Hl. unfold in_zone in *. split; [lia|]. split; [by apply Hr|].
  destruct (wf_zone s Hw _ _ Hz') as [_ _ _ Hpg].
  destruct (Hpg (p + l) ltac:(lia)) as (pg & Epg & _ & Hph). exists pg. split; [done|].
  rewrite Hph. f_equal. lia.
Qed.

(** * free_pages *)

Lemma give_one_release p pg zi n s :
  pages_struct s !!z p = Some pg -> zone_struct pg = Some zi ->
  give_pages (S n) p s = give_pages n (p + 1) (release (set_attribute 0) p zi s).
Proof. intros E Ez. simpl. by rewrite E, Ez. Qed.

Lemma zlen_release f i zi s : zlen (bits_map (release f i zi s)) = zlen (bits_map s).
Proof. unfold release, bm_clear. simpl. apply zlen_zalter. Qed.

(** Every frame of the block has a zone and is in use. *)
Definition frames_used (s : state) (p number : Z) : Prop :=
  forall l, 0 <= l < number -> bit s (p + l) = true /\
    exists zi z, zones_struct s !!z zi = Some z /\ in_zone z (p + l).

Lemma give_pages_correct n s p :
  wf s -> frames_used s p (Z.of_nat n) ->
  wf (give_pages n p s) /\
  forall j, bit (give_pages n p s) j = bit s j && negb ((p <=? j) && (j <? p + Z.of_nat n)).
Proof.
  revert s p. induction n as [|n IH]; intros s p Hw Hu.
  { split; [done|]. intros j. simpl give_pages. bools; try lia; by rewrite andb_true_r. }
  destruct (Hu 0 ltac:(lia)) as (Hb & zi & z & Hz & Hin). rewrite Z.add_0_r in *.
  destruct (wf_zone s Hw _ _ Hz) as [_ _ _ Hpg]. destruct (Hpg p Hin) as (pg & Ep & Es & _).
  rewrite (give_one_release p pg zi) by done.
  destruct (wf_frame_range s zi z p Hw Hz Hin).
  destruct (IH (release (set_attribute 0) p zi s) (p + 1)) as [Hw' Hb'].
  - by eapply release_wf.
  - intros l Hl. destruct (Hu (l + 1) ltac:(lia)) as (Hbl & zj & z' & Hz' & Hin').
    replace (p + (l + 1)) with (p + 1 + l) in * by lia. split.
    { rewrite bit_release by (try apply Hw; lia). bools; [lia|]. by rewrite Hbl. }
    assert (same_shape s (release (set_attribute 0) p zi s)) as Hss by by apply same_shape_upd.
    destruct (fmap_some_inv _ _ _ _ (eq_sym (ss_zones _ _ Hss zj)) Hz') as (y & Ey & Ec).
    exists zj, y. split; [done|]. unfold in_zone, zone_core in *. simplify_eq. congruence.
  - split; [done|]. intros j. rewrite Hb', bit_release by (try apply Hw; lia).
    destruct (bit s j); [|done]. simpl. bools; done || lia.
Qed.

(** Returning a block of up to 63 frames that are in use keeps the
    invariant and clears exactly their bits; a null pointer or a count outside
    [1, 63] leaves the manager untouched. *)
Theorem free_pages_correct s page number :
  wf s ->
  (forall p, page = Some p -> 1 <= number < 64 -> frames_used s p number) ->
  wf (free_pages page number s) /\
  forall j, bit (free_pages page number s) j =
    match page with
    | Some p => bit s j && negb ((1 <=? number) && (number <? 64) && (p <=? j) && (j <? p + number))
    | None => bit s j
    end.
Proof.
  intros Hw Hu. destruct page as [p|]; [|done]. simpl.
  destruct (Z.leb_spec 64 number), (Z.leb_spec number 0); simpl.
  1-3: split; [done|]; intros j; bools; try lia; by rewrite andb_true_r.
  specialize (Hu p eq_refl ltac:(lia)).
  destruct (give_pages_correct (Z.to_nat number) s p Hw) as [Hw' Hb].
  { by rewrite Z2Nat.id by lia. }
  split; [done|]. intros j. rewrite Hb, Z2Nat.id by lia.
  by rewrite (proj2 (Z.leb_le 1 number)), (proj2 (Z.ltb_lt number 64)) by lia.
Qed.

Lemma zone_give_take zi s z :
  wf s -> zones_struct s !!z zi = Some z -> 0 < page_free_count z <= pages_length z ->
  zalter zone_give zi (zalter zone_take zi (zones_struct s)) = zones_struct s.
Proof.
  intros Hw Hz Hc. destruct (wf_zone s Hw _ _ Hz) as [Hr _ [_ Hu] _]. destruct (wf_size s Hw).
  apply zlookup_ext. intros j. destruct (decide (zi = j)) as [<-|].
  - rewrite !zlookup_zalter, Hz. simpl. f_equal. unfold zone_give, zone_take. simpl.
    unwrap. destruct z; simpl in *. f_equal; lia.
  - by rewrite !zlookup_zalter_ne.
Qed.

(** Freeing the frame a single-frame allocation returned undoes it: the
    bitmap and every zone's counters are those before the allocation. *)
Theorem alloc_free_roundtrip sel s p s' :
  wf s -> alloc_pages sel 1 s = (Some p, s') ->
  wf (free_pages (Some p) 1 s') /\
  zones_struct (free_pages (Some p) 1 s') = zones_struct s /\
  forall j, bit (free_pages (Some p) 1 s') j = bit s j.
Proof.
  intros Hw Ha.
  destruct (alloc_one_occupy sel s p s' Hw Ha) as (lo & hi & zi & z & _ & _ & Hz & Hin & Hb & ->).
  set (a := zone_attr sel). destruct (wf_frame_range s zi z p Hw Hz Hin).
  destruct (wf_zone s Hw _ _ Hz) as [_ _ _ Hpg]. destruct (Hpg p Hin) as (pg & Ep & Es & _).
  destruct (zone_count_pos s zi z p Hw Hz Hin) as (Hc & _ & Hp & _). specialize (Hp Hb).
  assert (free_pages (Some p) 1 (occupy (set_attribute a) p zi s) =
    release (set_attribute 0) p zi (occupy (set_attribute a) p zi s)) as ->.
  { change (free_pages (Some p) 1 ?x) with (give_pages 1 p x).
    rewrite (give_one_release p (set_attribute a pg) zi); [done| |done].
    unfold occupy. simpl. by rewrite zlookup_zalter, Ep. }
  assert (wf (occupy (set_attribute a) p zi s)) as Hw' by by eapply occupy_wf.
  assert (bit (occupy (set_attribute a) p zi s) p = true) as Hb'.
  { rewrite bit_occupy, Z.eqb_refl, orb_true_r; [done|apply Hw|done]. }
  split_and!.
  - eapply (release_wf _ p zi (zone_take z)); try done.
    unfold occupy. simpl. by rewrite zlookup_zalter, Hz.
  - unfold release, occupy. simpl. eapply zone_give_take; [done|exact Hz|lia].
  - intros j. rewrite bit_release, bit_occupy; try apply Hw; try apply Hw'; try done.
    2: { unfold occupy, bm_set. simpl. by rewrite zlen_zalter. }
    destruct (Z.eqb_spec p j) as [<-|]; [by rewrite Hb, andb_false_r|].
    by rewrite orb_false_r, andb_true_r.
Qed.

(** * Boot reservation *)

(** Updates that touch only attributes, reference counts and the link
    counters. *)
Lemma wf_same s s' :
  wf s -> same_shape s s' -> bits_map s' = bits_map s -> bits_beyond s' = bits_beyond s ->
  (forall i, zone_counts <$> zones_struct s' !!z i = zone_counts <$> zones_struct s !!z i) -> wf s'.
Proof.
  intros Hw Hss Hbm Hbb Hc. assert (forall j, bit s' j = bit s j) as Hb.
  { intros j. unfold bit, word. by rewrite Hbm, Hbb. }
  apply (wf_shape s); [done|done| | |].
  - unfold words_ok. rewrite Hbm, Hbb. apply Hw.
  - intros i _ Hf. left. by rewrite <- Hb.
  - intros zi z' E. destruct (fmap_some_inv _ _ _ _ (ss_zones _ _ Hss zi) E) as (z & Ez & Ec).
    specialize (Hc zi). rewrite E, Ez in Hc. injection Hc as -> ->. injection Ec as <- <- _ _.
    destruct (wf_zone s Hw _ _ Ez) as [_ _ [-> ->] _].
    split; [|done]. apply nfree_ext. intros; by rewrite Hb.
Qed.

Lemma upd_page_same f i s :
  (forall p, page_core (f p) = page_core p) -> same_shape s (upd_page f i s).
Proof.
  intros Hf. constructor; simpl; try done.
  - apply zlen_zalter.
  - intros. by apply zlookup_zalter_fmap.
Qed.

Lemma same_shape_refl s : same_shape s s.
Proof. done. Qed.
Lemma same_shape_trans s1 s2 s3 : same_shape s1 s2 -> same_shape s2 s3 -> same_shape s1 s3.
Proof.
  intros [] []. constructor; congruence.
Qed.

Lemma upd_zone_same g i s :
  (forall z, zone_core (g z) = zone_core z) -> same_shape s (upd_zone g i s).
Proof. intros Hg. constructor; simpl; try done. intros. by apply zlookup_zalter_fmap. Qed.

(** [page_init] is [upd_page] of a function that keeps the page's zone and
    address, followed by [zone_link]s. *)
Lemma page_init_shape i flags s :
  same_shape s (page_init i flags s) /\
  bits_map (page_init i flags s) = bits_map s /\ bits_beyond (page_init i flags s) = bits_beyond s /\
  forall j, zone_counts <$> zones_struct (page_init i flags s) !!z j =
            zone_counts <$> zones_struct s !!z j.
Proof.
  unfold page_init. set (s1 := upd_page _ i s).
  assert (same_shape s s1) as H1 by by apply upd_page_same.
  destruct (pages_struct s1 !!z i) as [p|]; [|done].
  destruct (_ || _); [|done].
  set (s2 := upd_page _ i s1). assert (same_shape s s2) as H2.
  { eapply same_shape_trans; [exact H1|]. by apply upd_page_same. }
  destruct (zone_struct p) as [zi|]; [|done].
  split_and!; try done.
  - eapply same_shape_trans; [exact H2|]. by apply upd_zone_same.
  - intros j. unfold s2, s1. simpl. by apply zlookup_zalter_fmap.
Qed.

Lemma page_init_wf i flags s : wf s -> wf (page_init i flags s).
Proof. intros Hw. destruct (page_init_shape i flags s) as (? & ? & ? & ?). by eapply wf_same. Qed.

(** What the walk does to frame [i], as a change of the bitmap. *)
Lemma page_clean_shape i s :
  same_shape s (page_clean i s) /\
  bits_map (page_clean i s) = bits_map s /\ bits_beyond (page_clean i s) = bits_beyond s /\
  forall j, zone_counts <$> zones_struct (page_clean i s) !!z j =
            zone_counts <$> zones_struct s !!z j.
Proof.
  unfold page_clean. set (s1 := upd_page _ i s).
  assert (same_shape s s1) as H1 by by apply upd_page_same.
  destruct (pages_struct s1 !!z i) as [p|]; [|done].
  set (s2 := match zone_struct p with Some zi => _ | None => _ end).
  assert (same_shape s s2 /\ bits_map s2 = bits_map s /\ bits_beyond s2 = bits_beyond s /\
    forall j, zone_counts <$> zones_struct s2 !!z j = zone_counts <$> zones_struct s !!z j) as (H2 & H3 & H4 & H5).
  { unfold s2. destruct (zone_struct p) as [zi|]; [|done]. split_and!; try done.
    - eapply same_shape_trans; [exact H1|]. by apply upd_zone_same.
    - intros j. simpl. by apply zlookup_zalter_fmap. }
  destruct (_ =? _); [|done]. split_and!; try done.
  eapply same_shape_trans; [exact H2|]. by apply upd_page_same.
Qed.

Lemma page_clean_wf i s : wf s -> wf (page_clean i s).
Proof. intros Hw. destruct (page_clean_shape i s) as (? & ? & ? & ?). by eapply wf_same. Qed.

Definition reserved (ranges : list pmm_phys_range) (i : Z) (s : state) : bool :=
  match pages_struct s !!z i with
  | Some p => match zone_struct p with
              | Some _ => pa_in_ranges (phy_address p) ranges
              | None => false
              end
  | None => false
  end.

Lemma reserved_shape ranges i s s' : same_shape s s' -> reserved ranges i s' = reserved ranges i s.
Proof.
  intros Hss. pose proof (ss_pages _ _ Hss i) as Hp. unfold reserved.
  destruct (pages_struct s' !!z i), (pages_struct s !!z i); simpl in Hp; try done.
  by injection Hp as -> ->.
Qed.

Lemma reserve_frame_id ranges i s :
  (reserved ranges i s = true -> bit s i = true) -> reserve_frame ranges i s = s.
Proof.
  unfold reserve_frame, reserved. rewrite bit_used_bit.
  destruct (pages_struct s !!z i) as [p|]; [|done]. destruct (zone_struct p); [|done].
  destruct (pa_in_ranges _ _); [|done]. intros ->; done.
Qed.

Lemma reserve_frame_spec ranges i s :
  wf s ->
  wf (reserve_frame ranges i s) /\ same_shape s (reserve_frame ranges i s) /\
  forall j, bit (reserve_frame ranges i s) j = bit s j || (reserved ranges i s && (i =? j)).
Proof.
  intros Hw. destruct (reserved ranges i s && negb (bit s i)) eqn:Hr.
  2: { rewrite reserve_frame_id.
       - split; [done|]. split; [done|]. intros j.
         destruct (reserved ranges i s), (bit s i) eqn:Hb; try done; simpl; rewrite ?orb_false_r; try done.
         destruct (Z.eqb_spec i j) as [<-|]; [by rewrite Hb | by rewrite orb_false_r].
       - by destruct (reserved ranges i s), (bit s i). }
  apply andb_true_iff in Hr as [Hr Hb]. apply negb_true_iff in Hb.
  unfold reserve_frame. rewrite bit_used_bit, Hb. rewrite Hr. unfold reserved in Hr.
  destruct (pages_struct s !!z i) as [p|] eqn:Ep; [|done].
  destruct (zone_struct p) as [zi|] eqn:Es; [|done]. rewrite Hr. simpl negb. cbv iota.
  set (s1 := page_init i _ s).
  destruct (page_init_shape i (Z.lor (Z.lor PG_PTable_Mapped PG_Kernel_Init) PG_Kernel) s)
    as (Hss & Hbm & Hbb & _). fold s1 in Hss, Hbm, Hbb.
  assert (wf s1) as Hw1 by by apply page_init_wf.
  assert (forall j, bit s1 j = bit s j) as Hb1.
  { intros j. unfold bit, word. by rewrite Hbm, Hbb. }
  destruct (wf_page s Hw i p zi Ep Es) as (z & Ez & Hin).
  destruct (fmap_some_inv _ _ _ _ (eq_sym (ss_zones _ _ Hss zi)) Ez) as (z1 & Ez1 & Ec).
  assert (in_zone z1 i) as Hin1 by (unfold in_zone; injection Ec as -> -> _ _; done).
  destruct (wf_frame_range s1 zi z1 i Hw1 Ez1 Hin1) as [_ Hi].
  assert (upd_zone zone_take zi (upd_bits (bm_set i) s1) = occupy id i zi s1) as ->.
  { unfold occupy, upd_page, upd_zone, upd_bits. simpl. f_equal. apply zlookup_ext. intros j.
    pose proof (zlookup_zalter_fmap id id (pages_struct s1) i j (fun _ => eq_refl)) as Hid.
    rewrite !option_fmap_id in Hid. done. }
  split_and!.
  - eapply occupy_wf; try done. by rewrite Hb1.
  - eapply same_shape_trans; [exact Hss|]. by apply same_shape_upd.
  - intros j. rewrite bit_occupy, Hb1; [done|apply Hw1|done].
Qed.

Lemma reserve_walk_spec n ranges i s :
  wf s -> 0 <= i ->
  wf (reserve_walk n ranges i s) /\ same_shape s (reserve_walk n ranges i s) /\
  forall j, bit (reserve_walk n ranges i s) j =
    bit s j || ((i <=? j) && (j <? i + Z.of_nat n) && reserved ranges j s).
Proof.
  revert i s. induction n as [|n IH]; intros i s Hw Hi; simpl reserve_walk.
  { split; [done|]. split; [done|]. intros j. bools; try lia; by rewrite orb_false_r. }
  destruct (reserve_frame_spec ranges i s Hw) as (Hw1 & Hss1 & Hb1).
  destruct (IH (i + 1) _ Hw1 ltac:(lia)) as (Hw2 & Hss2 & Hb2).
  split; [done|]. split; [by eapply same_shape_trans|].
  intros j. rewrite Hb2, Hb1, (reserved_shape ranges j s) by done.
  destruct (Z.eqb_spec i j) as [<-|].
  - rewrite andb_true_r. bools; try lia. by rewrite orb_false_r.
  - rewrite andb_false_r, orb_false_r. bools; done || lia.
Qed.

Lemma reserve_walk_id n ranges i s :
  (forall j, reserved ranges j s = true -> bit s j = true) -> reserve_walk n ranges i s = s.
Proof.
  intros Hr. revert i. induction n as [|n IH]; intros i; simpl; [done|].
  rewrite reserve_frame_id by apply Hr. apply IH.
Qed.

Lemma reserved_range ranges i s : reserved ranges i s = true -> 0 <= i < pages_size s.
Proof.
  unfold reserved. destruct (pages_struct s !!z i) eqn:E; [|done]. intros _.
  by apply zlookup_some_range in E.
Qed.

(** The boot reservation keeps the invariant, marks every represented
    frame whose address lies in a requested range and leaves the other bits
    alone, and is idempotent: a second identical call changes nothing, not
    even a reference count.  A range that is empty or not 2 MiB-aligned makes
    the whole call fail without effect. *)
Theorem pmm_reserve_boot_ranges_correct ranges count s :
  wf s -> count = zlen ranges -> ranges <> [] ->
  if forallb range_valid ranges then
    exists s', pmm_reserve_boot_ranges (Some ranges) count s = (0, s') /\ wf s' /\
      (forall j, bit s' j = bit s j || reserved ranges j s) /\
      pmm_reserve_boot_ranges (Some ranges) count s' = (0, s')
  else pmm_reserve_boot_ranges (Some ranges) count s = (- EINVAL, s).
Proof.
  intros Hw -> Hne. unfold pmm_reserve_boot_ranges.
  destruct (Z.eqb_spec (zlen ranges) 0) as [H0|].
  { destruct ranges; [done|]. unfold zlen in H0. simpl in H0. lia. }
  destruct (forallb range_valid ranges); simpl; [|done].
  destruct (reserve_walk_spec (Z.to_nat (pages_size s)) ranges 0 s Hw ltac:(lia)) as (Hw' & Hss & Hb).
  eexists. split; [done|]. split; [done|].
  assert (forall j, bit (reserve_walk (Z.to_nat (pages_size s)) ranges 0 s) j =
    bit s j || reserved ranges j s) as Hb'.
  { intros j. rewrite Hb. destruct (reserved ranges j s) eqn:Hr; [|by rewrite andb_false_r].
    apply reserved_range in Hr. bools; done || lia. }
  split; [done|]. f_equal. apply reserve_walk_id. intros j Hr.
  rewrite (reserved_shape _ _ s) in Hr by done. rewrite Hb', Hr. apply orb_true_r.
Qed.

(** * Single-frame claim *)

(** Frame [i] is free RAM inside the window. *)
Definition free_frame_in (s : state) (start_pa end_pa i : Z) : Prop :=
  exists p zi, pages_struct s !!z i = Some p /\ zone_struct p = Some zi /\
    start_pa <= phy_address p < end_pa /\ bit s i = false.

Lemma claimable_some a b i s zi :
  claimable a b i s = Some zi ->
  exists p, pages_struct s !!z i = Some p /\ zone_struct p = Some zi /\
    a <= phy_address p < b /\ bit s i = false.
Proof.
  unfold claimable. rewrite bit_used_bit.
  destruct (pages_struct s !!z i) as [p|]; [|done]. destruct (zone_struct p) as [zj|] eqn:Ez; [|done].
  destruct (Z.ltb_spec (phy_address p) a), (Z.leb_spec b (phy_address p)); simpl; try done.
  destruct (bit s i); intros [= <-]. exists p. split_and!; done || lia.
Qed.

Lemma claimable_none a b i s : claimable a b i s = None -> ~ free_frame_in s a b i.
Proof.
  unfold claimable. rewrite bit_used_bit. intros Hc (p & zi & Ep & Ez & Hr & Hb).
  rewrite Ep, Ez, Hb in Hc. bools; done || lia.
Qed.

Lemma claim_up_spec n i a b s :
  match claim_up n i a b s with
  | Some (j, zi) => i <= j < i + Z.of_nat n /\ claimable a b j s = Some zi /\
      forall q, i <= q < j -> ~ free_frame_in s a b q
  | None => forall q, i <= q < i + Z.of_nat n -> ~ free_frame_in s a b q
  end.
Proof.
  revert i. induction n as [|n IH]; intros i; simpl claim_up; [simpl; intros; lia|].
  destruct (claimable a b i s) as [zi|] eqn:E.
  { split; [lia|]. split; [done|]. intros; lia. }
  apply claimable_none in E. specialize (IH (i + 1)).
  destruct (claim_up n (i + 1) a b s) as [[j zi]|].
  - destruct IH as (? & ? & IH). split; [lia|]. split; [done|]. intros q Hq.
    destruct (decide (q = i)) as [->|]; [done | apply IH; lia].
  - intros q Hq. destruct (decide (q = i)) as [->|]; [done | apply IH; lia].
Qed.

Lemma claim_down_spec n a b s :
  match claim_down n a b s with
  | Some (j, zi) => 0 <= j < Z.of_nat n /\ claimable a b j s = Some zi /\
      forall q, j < q < Z.of_nat n -> ~ free_frame_in s a b q
  | None => forall q, 0 <= q < Z.of_nat n -> ~ free_frame_in s a b q
  end.
Proof.
  induction n as [|n IH]; simpl claim_down; [simpl; intros; lia|].
  destruct (claimable a b (Z.of_nat n) s) as [zi|] eqn:E.
  { split; [lia|]. split; [done|]. intros; lia. }
  apply claimable_none in E. destruct (claim_down n a b s) as [[j zi]|].
  - destruct IH as (? & ? & IH). split; [lia|]. split; [done|]. intros q Hq.
    destruct (decide (q = Z.of_nat n)) as [->|]; [done | apply IH; lia].
  - intros q Hq. destruct (decide (q = Z.of_nat n)) as [->|]; [done | apply IH; lia].
Qed.

(** The claim keeps the invariant and hands out the lowest ([from_end]
    false) or highest ([from_end] true) free frame of RAM inside
    [[start_pa, end_pa)], marking only it; it returns [NULL], without effect,
    exactly when the window holds no free frame. *)
Theorem pmm_claim_free_frame_correct a b from_end s r s' :
  wf s -> pmm_claim_free_frame a b from_end s = (r, s') ->
  match r with
  | Some i => wf s' /\ free_frame_in s a b i /\ (forall j, bit s' j = bit s j || (i =? j)) /\
      forall q, free_frame_in s a b q -> if from_end then q <= i else i <= q
  | None => s' = s /\ forall q, ~ free_frame_in s a b q
  end.
Proof.
  intros Hw. unfold pmm_claim_free_frame.
  assert (forall q, free_frame_in s a b q -> 0 <= q < pages_size s) as Hrange.
  { intros q (p & _ & Ep & _). by apply zlookup_some_range in Ep. }
  destruct (Z.leb_spec b a).
  { intros [= <- <-]. split; [done|]. intros q (p & zi & _ & _ & ? & _). lia. }
  set (found := if from_end then _ else _).
  assert (match found with
    | Some (j, zi) => claimable a b j s = Some zi /\
        forall q, free_frame_in s a b q -> if from_end then q <= j else j <= q
    | None => forall q, ~ free_frame_in s a b q
    end) as Hf.
  { unfold found. destruct from_end.
    - pose proof (claim_down_spec (Z.to_nat (pages_size s)) a b s) as Hc.
      destruct (claim_down _ _ _ _) as [[j zi]|].
      + destruct Hc as (? & ? & Hc). split; [done|]. intros q Hq. pose proof (Hrange q Hq).
        destruct (Z.le_gt_cases q j); [done|]. exfalso. apply (Hc q); [lia|done].
      + intros q Hq. pose proof (Hrange q Hq). apply (Hc q); [lia|done].
    - pose proof (claim_up_spec (Z.to_nat (pages_size s)) 0 a b s) as Hc.
      destruct (claim_up _ _ _ _ _) as [[j zi]|].
      + destruct Hc as (? & ? & Hc). split; [done|]. intros q Hq. pose proof (Hrange q Hq).
        destruct (Z.le_gt_cases j q); [done|]. exfalso. apply (Hc q); [lia|done].
      + intros q Hq. pose proof (Hrange q Hq). apply (Hc q); [lia|done]. }
  destruct found as [[i zi]|].
  2: { intros [= <- <-]. done. }
  destruct Hf as [Hc Hext]. destruct (claimable_some _ _ _ _ _ Hc) as (p & Ep & Es & Hr & Hb).
  destruct (wf_page s Hw i p zi Ep Es) as (z & Ez & Hin).
  destruct (wf_frame_range s zi z i Hw Ez Hin).
  intros [= <- <-]. change (upd_page _ _ _) with (occupy (set_attribute PG_PTable_Mapped) i zi s).
  split_and!.
  - by eapply occupy_wf.
  - by exists p, zi.
  - intros j. apply bit_occupy; [apply Hw|done].
  - done.
Qed.

(** * The usage snapshot *)

Lemma stats_spec (zs : list Zone) B :
  0 <= B < U64 ->
  (forall i z, zs !!z i = Some z -> 0 <= zone_start_address z /\ zone_end_address z <= B /\
     zone_end_address z = zone_start_address z + pages_length z * PAGE_2M_SIZE /\
     0 <= page_free_count z <= pages_length z /\
     page_using_count z = pages_length z - page_free_count z) ->
  (forall i j z z', zs !!z i = Some z -> zs !!z j = Some z' -> i < j ->
     zone_end_address z <= zone_start_address z') ->
  zsum pages_length zs * PAGE_2M_SIZE <= B /\
  0 <= zsum page_free_count zs <= zsum pages_length zs /\
  foldl (fun acc z =>
    mk_stats (managed_bytes acc +u (pages_length z *u PAGE_2M_SIZE))
             (reserved_bytes acc +u (page_using_count z *u PAGE_2M_SIZE))
             (free_bytes acc +u (page_free_count z *u PAGE_2M_SIZE))) (mk_stats 0 0 0) zs =
  mk_stats (zsum pages_length zs * PAGE_2M_SIZE)
           ((zsum pages_length zs - zsum page_free_count zs) * PAGE_2M_SIZE)
           (zsum page_free_count zs * PAGE_2M_SIZE).
Proof.
  revert B. induction zs as [|z zs IH] using rev_ind; intros B HB Hz Hs.
  { simpl. split; [lia|]. split; [lia|done]. }
  destruct (Hz (zlen zs) z (zlookup_snoc_r _ _)) as (H1 & H2 & H3 & H4 & H5).
  destruct (IH (zone_start_address z)) as (I1 & I2 & I3).
  - lia.
  - intros i y Ey. destruct (Hz i y (zlookup_snoc_l _ _ _ _ Ey)) as (? & ? & ? & ? & ?).
    split; [done|]. split; [|done].
    apply (Hs i (zlen zs) y z (zlookup_snoc_l _ _ _ _ Ey) (zlookup_snoc_r _ _)).
    apply zlookup_some_range in Ey. lia.
  - intros i j y y' Ey Ey' Hlt. apply (Hs i j); [by apply zlookup_snoc_l..|done].
  - rewrite foldl_app, I3, !zsum_app. simpl. unwrap.
    split; [lia|]. split; [lia|]. f_equal; lia.
Qed.

(** The usage snapshot of a consistent manager is exact and does not
    wrap: managed bytes are 2 MiB per frame of every zone, free bytes 2 MiB
    per clear bit, and managed = reserved + free. *)
Theorem pmm_get_stats_correct s :
  wf s ->
  managed_bytes (pmm_get_stats s) = zsum pages_length (zones_struct s) * PAGE_2M_SIZE /\
  free_bytes (pmm_get_stats s) =
    zsum (fun z => nfree (Z.to_nat (pages_length z)) s (pages_group z)) (zones_struct s) * PAGE_2M_SIZE /\
  managed_bytes (pmm_get_stats s) = reserved_bytes (pmm_get_stats s) + free_bytes (pmm_get_stats s).
Proof.
  intros Hw. destruct (stats_spec (zones_struct s) UINT64_MAX) as (_ & _ & He); [lia| | |].
  - intros i z Ez. destruct (wf_zone s Hw _ _ Ez) as [Hr Ha [Hc Hu] _].
    pose proof (nfree_bounds (Z.to_nat (pages_length z)) s (pages_group z)). lia.
  - intros i j z z' Ez Ez' Hlt. apply (wf_sep s Hw _ _ _ _ Ez Ez' Hlt).
  - unfold pmm_get_stats. rewrite He. simpl. split; [done|]. split; [|lia]. f_equal.
    assert (forall i z, zones_struct s !! i = Some z ->
      page_free_count z = nfree (Z.to_nat (pages_length z)) s (pages_group z)) as Hc.
    { intros i z Ez. apply (wf_zone s Hw (Z.of_nat i)). unfold zlookup.
      destruct (Z.leb_spec 0 (Z.of_nat i)); [|lia]. by rewrite Nat2Z.id. }
    clear He. induction (zones_struct s) as [|z zs IH]; simpl; [done|].
    rewrite (Hc 0%nat z eq_refl), IH; [done|]. intros i. apply (Hc (S i)).
Qed.

End Pmm.
