(* ===== verification/PmmInit.v ===== *)
(** Boot of the physical memory manager: [pmm_init] of
    src/kernel/memory/pmm.c establishes the invariant of [Pmm] from the
    normalised memory map, and the defects of the multi-frame allocation path
    on the states it reaches. *)

From stdpp Require Import base tactics list numbers option sorting.
From Stdlib Require Import ZArith Lia.
From S2P Require Import Prelude PmmBoot Pmm.

Module PmmInit.
Import Pmm.

(** ** One zone *)

Lemma init_frames_spec n zi start base j s :
  words_ok s -> 0 <= base -> 0 <= j -> base + j + Z.of_nat n <= pages_size s ->
  pages_size s <= 64 * zlen (bits_map s) ->
  0 <= start -> start + (j + Z.of_nat n) * PAGE_2M_SIZE <= U64 ->
  let s' := init_frames n zi start base j s in
  words_ok s' /\ zlen (bits_map s') = zlen (bits_map s) /\ pages_size s' = pages_size s /\
  zones_struct s' = zones_struct s /\
  (forall i, bit s' i = xorb (bit s i) ((base + j <=? i) && (i <? base + j + Z.of_nat n))) /\
  (forall i, pages_struct s' !!z i =
     if (base + j <=? i) && (i <? base + j + Z.of_nat n)
     then Some (mk_page (Some zi) (start + (i - base) * PAGE_2M_SIZE) 0 0 0)
     else pages_struct s !!z i).
Proof.
  revert j s. induction n as [|n IH]; intros j s Hok Hb Hj Hn Hcap Hst Hend; simpl init_frames.
  { split_and!; try done; intros i; bools; try lia; by rewrite ?xorb_false_r. }
  assert (start +u shl64 j 21 = start + j * PAGE_2M_SIZE) as ->.
  { unfold shl64. rewrite (Z.mod_small 21), Z.shiftl_mul_pow2 by lia. unwrap. done. }
  set (pg := mk_page _ _ _ _ _).
  set (s1 := upd_bits (bm_flip (base + j)) (upd_page (fun _ => pg) (base + j) s)).
  assert (zlen (bits_map s1) = zlen (bits_map s)) as Hl1 by apply zlen_zalter.
  assert (pages_size s1 = pages_size s) as Hl2 by apply zlen_zalter.
  assert (forall i, bit s1 i = xorb (bit s i) (base + j =? i)) as Hb1.
  { intros i. unfold s1. rewrite bit_flip; [done|done|simpl; lia]. }
  assert (words_ok s1) as Hok1 by (apply words_ok_flip; done).
  destruct (IH (j + 1) s1) as (I1 & I2 & I3 & I4 & I5 & I6); try done; try lia.
  split_and!; try done; try lia.
  - intros i. rewrite I5, Hb1. destruct (bit s i); bools; done || lia.
  - intros i. rewrite I6. unfold s1. simpl.
    destruct (decide (base + j = i)) as [<-|].
    + rewrite zlookup_zalter.
      destruct (zlookup_in_range (pages_struct s) (base + j)) as [x ->]; [unfold pages_size in *; lia|].
      bools; try lia. unfold pg. do 3 f_equal. lia.
    + rewrite zlookup_zalter_ne by done. bools; done || lia.
Qed.

Lemma nfree_all n s a :
  (forall i, a <= i < a + Z.of_nat n -> bit s i = false) -> nfree n s a = Z.of_nat n.
Proof.
  revert a. induction n as [|n IH]; intros a Hb; [done|]. simpl.
  rewrite Hb, IH by lia || (intros; apply Hb; lia). lia.
Qed.

(** A RAM range as the normalised map delivers it: non-empty, 2 MiB-aligned
    and inside the address space. *)
Definition range_ok (r : MEMORY_RANGE) : Prop :=
  0 <= phys_start r < phys_end r /\ phys_end r < U64 /\
  phys_start r mod GRANULE = 0 /\ phys_end r mod GRANULE = 0.

Lemma round_up_granule x :
  0 <= x < U64 -> x mod GRANULE = 0 -> (x +u GRANULE -u 1) &~ (GRANULE - 1) = x.
Proof.
  intros Hx Hm.
  assert (x +u GRANULE -u 1 = x + (GRANULE - 1)) as -> by (unfold wrap64; dlia).
  change (GRANULE - 1) with (2 ^ 21 - 1). rewrite land_not_mask by (change (2 ^ 21) with GRANULE; dlia).
  change (2 ^ 21) with GRANULE. dlia.
Qed.

Lemma round_down_granule x : 0 <= x < U64 -> x mod GRANULE = 0 -> x &~ (GRANULE - 1) = x.
Proof.
  intros Hx Hm. change (GRANULE - 1) with (2 ^ 21 - 1). rewrite land_not_mask by lia.
  change (2 ^ 21) with GRANULE. lia.
Qed.

(** The frame index of a physical address counts from [lowest_ram]. *)
Definition based (lowest : Z) (s : state) : Prop :=
  forall zi z, zones_struct s !!z zi = Some z ->
    pages_group z * PAGE_2M_SIZE = zone_start_address z - lowest.

(** Every zone ends strictly below the address [a]. *)
Definition zones_below (a : Z) (s : state) : Prop :=
  forall zi z, zones_struct s !!z zi = Some z -> zone_end_address z < a.

(** Every frame of every zone is free. *)
Definition all_free (s : state) : Prop :=
  forall zi z i, zones_struct s !!z zi = Some z -> in_zone z i -> bit s i = false.

(** The physical extents of the zones, in order. *)
Definition extents (s : state) : list (Z * Z) :=
  (fun z => (zone_start_address z, zone_end_address z)) <$> zones_struct s.

Section one_zone.
Context (lowest : Z) (s : state) (r : MEMORY_RANGE).
Context (Hw : wf s) (Hr : range_ok r) (Hram : is_ram r = true).
Context (Hlow : 0 <= lowest <= phys_start r) (Hlm : lowest mod PAGE_2M_SIZE = 0).
Context (Hfit : phys_end r - lowest <= pages_size s * PAGE_2M_SIZE).
Context (Hbase : based lowest s) (Hbelow : zones_below (phys_start r) s).

Let len := (phys_end r - phys_start r) / PAGE_2M_SIZE.
Let base := (phys_start r - lowest) / PAGE_2M_SIZE.
Let z := mk_zone base len (phys_start r) (phys_end r) (phys_end r - phys_start r) 0 0 len 0.
Let s0 := mk_state (bits_map s) (bits_beyond s) (pages_struct s) (zones_struct s ++ [z])
            (ZONE_DMA_INDEX s) (ZONE_NORMAL_INDEX s) (ZONE_UNMAPPED_INDEX s).

Lemma init_zone_eq :
  zones_size s < MAX_NR_ZONES ->
  init_zone lowest s r = init_frames (Z.to_nat len) (zones_size s) (phys_start r) base 0 s0.
Proof.
  intros Hnz. unfold init_zone, range_ok in *. rewrite Hram. simpl negb. cbv iota.
  rewrite round_up_granule, round_down_granule, !shiftr_21 by lia.
  destruct (Z.leb_spec (phys_end r) (phys_start r)); [lia|].
  destruct (Z.leb_spec MAX_NR_ZONES (zones_size s)); [lia|].
  rewrite !(wrap64_small (_ - _)) by lia. done.
Qed.

(** The new zone lies strictly above the existing ones. *)
Lemma new_zone_above zi y :
  zones_struct s !!z zi = Some y -> pages_group y + pages_length y < base.
Proof using Hw Hr Hlow Hlm Hbase Hbelow.
  intros E. destruct (wf_zone s Hw _ _ E) as [_ (? & ? & He & ?) _ _].
  pose proof (Hbase _ _ E). pose proof (Hbelow _ _ E). unfold base, range_ok in *. dlia.
Qed.

Lemma new_zone_size :
  0 <= base /\ 0 < len /\ base + len <= pages_size s /\
  phys_end r = phys_start r + len * PAGE_2M_SIZE /\ base * PAGE_2M_SIZE = phys_start r - lowest.
Proof using Hr Hlow Hlm Hfit. unfold len, base, range_ok in *. dlia. Qed.

Lemma old_bits_set i : base <= i < 64 * zlen (bits_map s) -> bit s i = true.
Proof using Hw Hr Hlow Hlm Hbase Hbelow Hfit.
  intros Hi. destruct new_zone_size as (? & _).
  destruct (bit s i) eqn:E; [done|]. exfalso.
  destruct (wf_hole s Hw i ltac:(lia) E) as (zi & y & Ey & Hin).
  pose proof (new_zone_above zi y Ey). unfold in_zone in Hin. lia.
Qed.

Lemma init_zone_full : MAX_NR_ZONES <= zones_size s -> init_zone lowest s r = s.
Proof using Hram.
  intros Hge. unfold init_zone. rewrite Hram. cbn [negb]. destruct (_ <=? _); [done|].
  destruct (Z.leb_spec MAX_NR_ZONES (zones_size s)); [done|lia].
Qed.

(** The new zone is appended; its frames, and only they, become free and
    represented. *)
Lemma init_zone_frames :
  zones_size s < MAX_NR_ZONES ->
  let s' := init_zone lowest s r in
  words_ok s' /\ zlen (bits_map s') = zlen (bits_map s) /\ pages_size s' = pages_size s /\
  zones_struct s' = zones_struct s ++ [z] /\
  (forall i, bit s' i = xorb (bit s i) ((base <=? i) && (i <? base + len))) /\
  (forall i, pages_struct s' !!z i =
     if (base <=? i) && (i <? base + len)
     then Some (mk_page (Some (zones_size s)) (phys_start r + (i - base) * PAGE_2M_SIZE) 0 0 0)
     else pages_struct s !!z i).
Proof using Hw Hr Hram Hlow Hlm Hfit.
  intros Hnz. cbv zeta. rewrite init_zone_eq by done.
  destruct new_zone_size as (Hb0 & Hl0 & Hbl & Hpe & Hbs).
  destruct (wf_size s Hw) as [Hcap Hsmall]. unfold range_ok in *.
  pose proof (init_frames_spec (Z.to_nat len) (zones_size s) (phys_start r) base 0 s0) as HI.
  cbv zeta in HI. rewrite Z2Nat.id, !Z.add_0_r in HI by lia.
  apply HI; try done; try apply Hw; lia.
Qed.

Lemma init_zone_ok_old zi y :
  zones_size s < MAX_NR_ZONES -> zones_struct s !!z zi = Some y -> zone_ok (init_zone lowest s r) zi y.
Proof using Hw Hr Hram Hlow Hlm Hfit Hbase Hbelow.
  intros Hnz E. destruct (init_zone_frames Hnz) as (_ & _ & I3 & _ & I5 & I6).
  pose proof (new_zone_above zi y E). destruct (wf_zone s Hw _ _ E) as [H1 H2 [H3 H4] H5].
  constructor; rewrite ?I3; try done.
  - rewrite (nfree_ext _ s); [done|]. intros i Hi. rewrite I5.
    bools; try lia; by rewrite xorb_false_r.
  - intros i Hi. rewrite I6. destruct (H5 i Hi) as (p & Ep & ?). exists p. bools; done || lia.
Qed.

Lemma new_zone_free i :
  zones_size s < MAX_NR_ZONES -> base <= i < base + len -> bit (init_zone lowest s r) i = false.
Proof using Hw Hr Hram Hlow Hlm Hfit Hbase Hbelow.
  intros Hnz Hi. destruct (init_zone_frames Hnz) as (_ & _ & _ & _ & I5 & _).
  destruct new_zone_size as (_ & _ & ? & _). destruct (wf_size s Hw).
  rewrite I5, old_bits_set by lia. bools; done || lia.
Qed.

Lemma init_zone_ok_new :
  zones_size s < MAX_NR_ZONES -> zone_ok (init_zone lowest s r) (zones_size s) z.
Proof using Hw Hr Hram Hlow Hlm Hfit Hbase Hbelow.
  intros Hnz. destruct (init_zone_frames Hnz) as (_ & _ & I3 & _ & I5 & I6).
  destruct new_zone_size as (Hb0 & Hl0 & Hbl & Hpe & Hbs). unfold range_ok in *.
  constructor; unfold z; cbn [pages_group pages_length zone_start_address zone_end_address
    page_free_count page_using_count]; rewrite ?I3; try lia.
  - rewrite nfree_all; [lia|]. intros i Hi. apply new_zone_free; [done|lia].
  - intros i Hi. rewrite I6. eexists. bools; try lia. split_and!; done.
Qed.

Lemma init_zone_wf :
  wf (init_zone lowest s r) /\ based lowest (init_zone lowest s r) /\
  (all_free s -> all_free (init_zone lowest s r)) /\
  pages_size (init_zone lowest s r) = pages_size s /\
  (forall a, phys_end r < a -> zones_below a (init_zone lowest s r)) /\
  extents (init_zone lowest s r) =
    if zones_size s <? MAX_NR_ZONES then extents s ++ [(phys_start r, phys_end r)] else extents s.
Proof using Hw Hr Hram Hlow Hlm Hfit Hbase Hbelow.
  destruct (Z.ltb_spec (zones_size s) MAX_NR_ZONES) as [Hnz|Hge].
  2: { rewrite init_zone_full by done. split_and!; try done.
       intros a Ha zi y E. specialize (Hbelow _ _ E). unfold range_ok in *. lia. }
  destruct (init_zone_frames Hnz) as (I1 & I2 & I3 & I4 & I5 & I6).
  destruct (wf_size s Hw) as [Hcap Hsmall].
  split_and!.
  - constructor.
    + done.
    + lia.
    + rewrite I4. intros zi y [E|[-> ->]]%zlookup_snoc_inv;
        [by apply init_zone_ok_old|by apply init_zone_ok_new].
    + rewrite I4. intros zi zj y y' [E|[-> ->]]%zlookup_snoc_inv [E'|[-> ->]]%zlookup_snoc_inv Hlt.
      * by apply (wf_sep s Hw zi zj).
      * pose proof (new_zone_above zi y E). pose proof (Hbelow _ _ E). unfold z. cbn. lia.
      * apply zlookup_some_range in E'. lia.
      * lia.
    + intros i Hi. rewrite I2 in Hi. rewrite I5. intros Hf. rewrite I4.
      destruct ((base <=? i) && (i <? base + len)) eqn:Hin.
      * exists (zlen (zones_struct s)), z. split; [apply zlookup_snoc_r|].
        unfold in_zone, z. cbn. apply andb_true_iff in Hin. lia.
      * rewrite xorb_false_r in Hf. destruct (wf_hole s Hw i Hi Hf) as (zi & y & Ey & ?).
        exists zi, y. split; [by apply zlookup_snoc_l|done].
    + intros i p zi. rewrite I6, I4. destruct ((base <=? i) && (i <? base + len)) eqn:Hin.
      * intros [= <-] [= <-]. exists z. split; [apply zlookup_snoc_r|].
        unfold in_zone, z. cbn. apply andb_true_iff in Hin. lia.
      * intros Ep Es. destruct (wf_page s Hw i p zi Ep Es) as (y & Ey & ?).
        exists y. split; [by apply zlookup_snoc_l|done].
  - intros zi y. rewrite I4. intros [E|[-> ->]]%zlookup_snoc_inv; [by eapply Hbase|].
    apply new_zone_size.
  - intros Hf zi y i. rewrite I4. intros [E|[-> ->]]%zlookup_snoc_inv Hi; unfold in_zone in Hi.
    + rewrite I5, (Hf zi y i E Hi). pose proof (new_zone_above zi y E). bools; done || lia.
    + by apply new_zone_free.
  - done.
  - intros a Ha zi y. rewrite I4. intros [E|[-> ->]]%zlookup_snoc_inv; [|done].
    specialize (Hbelow _ _ E). unfold range_ok in *. lia.
  - unfold extents. by rewrite I4, fmap_app.
Qed.
End one_zone.

(** ** All zones *)

(** The RAM ranges of the map are valid, in increasing order and pairwise not
    adjacent. *)
Definition ram_ranges (ranges : list MEMORY_RANGE) : list MEMORY_RANGE := List.filter is_ram ranges.
Definition map_ok (ranges : list MEMORY_RANGE) : Prop :=
  Forall range_ok (ram_ranges ranges) /\
  StronglySorted (fun r r' => phys_end r < phys_start r') (ram_ranges ranges).
Definition extent (r : MEMORY_RANGE) : Z * Z := (phys_start r, phys_end r).

Lemma init_zone_skip lowest s r : is_ram r = false -> init_zone lowest s r = s.
Proof. intros E. unfold init_zone. by rewrite E. Qed.

Lemma extents_length s : zones_size s = zlen (extents s).
Proof. unfold zones_size, zlen, extents. by rewrite length_fmap. Qed.

Lemma init_zones_wf lowest ranges s :
  map_ok ranges -> 0 <= lowest -> lowest mod PAGE_2M_SIZE = 0 ->
  Forall (fun r => lowest <= phys_start r /\
    phys_end r - lowest <= pages_size s * PAGE_2M_SIZE /\ zones_below (phys_start r) s)
    (ram_ranges ranges) ->
  wf s -> based lowest s -> all_free s -> zones_size s <= MAX_NR_ZONES ->
  let s' := foldl (init_zone lowest) s ranges in
  wf s' /\ all_free s' /\ pages_size s' = pages_size s /\
  extents s' = take 10 (extents s ++ (extent <$> ram_ranges ranges)).
Proof.
  intros [Hok Hsort] Hl0 Hlm. cbv zeta. revert s.
  induction ranges as [|r ranges IH]; intros s Hall Hw Hb Hf Hn; simpl in *.
  { split_and!; try done. rewrite app_nil_r, take_ge; [done|].
    rewrite extents_length in Hn. unfold zlen in Hn. lia. }
  destruct (is_ram r) eqn:Er; [|by rewrite init_zone_skip by done; apply IH].
  apply Forall_cons in Hall as [(Ha1 & Ha2 & Ha3) Hall]. apply Forall_cons in Hok as [Hr Hok].
  apply StronglySorted_inv in Hsort as [Hsort Hfirst].
  destruct (init_zone_wf lowest s r) as (J1 & J2 & J3 & J4 & J5 & J6); try done.
  set (s1 := init_zone lowest s r) in *.
  destruct (IH Hok Hsort s1) as (K1 & K2 & K3 & K4); try done.
  - rewrite Forall_forall in Hall, Hfirst |- *. intros y Hy. destruct (Hall y Hy) as (? & ? & ?).
    rewrite J4. split_and!; try done. apply J5. by apply Hfirst.
  - by apply J3.
  - rewrite extents_length in Hn |- *. rewrite J6, extents_length. unfold zlen in *.
    bools; rewrite ?length_app; simpl; lia.
  - split_and!; try done; [congruence|]. rewrite K4, J6. rewrite extents_length in *. unfold zlen in *.
    destruct (Z.ltb_spec (Z.of_nat (length (extents s))) 10); [by rewrite <- app_assoc|].
    rewrite !take_app_le, !take_ge by lia. done.
Qed.

(** The span of the map covers every RAM range. *)
Lemma ram_bounds_step ranges t0 lo0 hi0 :
  Forall range_ok (ram_ranges ranges) -> 0 <= hi0 < U64 -> hi0 mod GRANULE = 0 ->
  (lo0 = UINT64_MAX \/ (0 <= lo0 < U64 /\ lo0 mod GRANULE = 0)) ->
  let '(t, lo, hi) := foldl (fun '(total, lo, hi) r =>
    if is_ram r then
      let sa := phys_start r &~ (GRANULE - 1) in
      let ea := (phys_end r +u GRANULE -u 1) &~ (GRANULE - 1) in
      (total +u (phys_end r -u phys_start r),
       if sa <? lo then sa else lo,
       if hi <? ea then ea else hi)
    else (total, lo, hi)) (t0, lo0, hi0) ranges in
  lo <= lo0 /\ hi0 <= hi < U64 /\ hi mod GRANULE = 0 /\
  (lo = UINT64_MAX \/ (0 <= lo < U64 /\ lo mod GRANULE = 0)) /\
  (ram_ranges ranges = [] -> t = t0) /\
  Forall (fun r => lo <= phys_start r /\ phys_end r <= hi) (ram_ranges ranges).
Proof.
  revert t0 lo0 hi0. induction ranges as [|r ranges IH]; intros t0 lo0 hi0 Hok Hhi Hhm Hlo; simpl in *.
  { split_and!; try done; lia. }
  destruct (is_ram r) eqn:Er; [|by apply IH].
  apply Forall_cons in Hok as [Hr Hok]. pose proof Hr as (Hr1 & Hr2 & Hr3 & Hr4).
  rewrite round_up_granule, round_down_granule by lia.
  set (lo1 := if phys_start r <? lo0 then phys_start r else lo0).
  set (hi1 := if hi0 <? phys_end r then phys_end r else hi0).
  assert (lo1 <= phys_start r /\ lo1 <= lo0 /\ hi0 <= hi1 < U64 /\ phys_end r <= hi1 /\
    hi1 mod GRANULE = 0 /\ 0 <= lo1 < U64 /\ lo1 mod GRANULE = 0) as (? & ? & ? & ? & ? & ? & ?).
  { unfold lo1, hi1. bools; split_and!; try done; try lia; destruct Hlo as [->|[? ?]]; done || lia. }
  specialize (IH (t0 +u (phys_end r -u phys_start r)) lo1 hi1 Hok ltac:(lia) ltac:(done) ltac:(by right)).
  destruct (foldl _ _ ranges) as [[t lo] hi]. destruct IH as (I1 & I2 & I3 & I4 & _ & I6).
  split_and!; try done; try lia. constructor; [lia|done].
Qed.

(** ** The initial state *)

Definition blank (nw np : nat) (beyond : Z) : state :=
  mk_state (replicate nw UINT64_MAX) beyond (replicate np empty_page) [] 0 0 0.

Lemma blank_wf nw np beyond :
  is_u64 beyond -> Z.of_nat np <= 64 * Z.of_nat nw -> Z.of_nat np < 2 ^ 59 -> wf (blank nw np beyond).
Proof.
  intros Hb Hn Hs. assert (forall i, zones_struct (blank nw np beyond) !!z i = None) as Hz.
  { intros i. apply zlookup_none. unfold zlen. simpl. lia. }
  constructor.
  - split; [|done]. apply Forall_replicate. unfold is_u64. lia.
  - unfold pages_size, zlen. simpl. rewrite !length_replicate. lia.
  - intros zi z E. by rewrite Hz in E.
  - intros zi zj z z' E. by rewrite Hz in E.
  - intros i Hi. unfold zlen in Hi. simpl in Hi. rewrite length_replicate in Hi.
    unfold bit, word. simpl. destruct (zlookup_in_range (replicate nw UINT64_MAX) (i / 64)) as [w E].
    { unfold zlen. rewrite length_replicate. dlia. }
    rewrite E. apply zlookup_replicate in E as ->. simpl.
    rewrite testbit_ones64; [done|]. apply Z.mod_pos_bound. lia.
  - intros i p zi E Es. apply zlookup_replicate in E as ->. done.
Qed.

Lemma wf_indices s a b c :
  wf s -> wf (mk_state (bits_map s) (bits_beyond s) (pages_struct s) (zones_struct s) a b c).
Proof. intros Hw. by apply (wf_same s). Qed.

(** The frame span [pmm_init] computes. *)
Definition ram_span (ranges : list MEMORY_RANGE) : Z :=
  let '(_, lo, hi) := ram_bounds ranges in
  let span := (hi -u lo) / GRANULE in if span =? 0 then 1 else span.

Lemma ram_bounds_ok ranges t lo hi :
  map_ok ranges -> ram_bounds ranges = (t, lo, hi) -> t <> 0 ->
  0 <= lo /\ lo mod GRANULE = 0 /\ lo < hi < U64 /\ hi mod GRANULE = 0 /\
  ram_span ranges = (hi - lo) / GRANULE /\
  Forall (fun r => lo <= phys_start r /\ phys_end r <= hi) (ram_ranges ranges).
Proof.
  intros [Hok _] E Ht.
  pose proof (ram_bounds_step ranges 0 UINT64_MAX 0 Hok ltac:(lia) eq_refl ltac:(by left)) as Hb.
  unfold ram_span. rewrite E.
  change (foldl _ _ ranges) with (ram_bounds ranges) in Hb. rewrite E in Hb.
  destruct Hb as (? & ? & ? & Hlo & Hnil & Hall).
  destruct (ram_ranges ranges) as [|r rs]; [by destruct Ht; apply Hnil|].
  apply Forall_cons in Hok as [(? & ? & ? & ?) _].
  pose proof Hall as [[? ?] _]%Forall_cons.
  assert (0 <= lo /\ lo mod GRANULE = 0) as [? ?] by (destruct Hlo as [->|[? ?]]; [lia|split; [lia|done]]).
  rewrite wrap64_small by lia. split_and!; try done; try lia.
  destruct (Z.eqb_spec ((hi - lo) / GRANULE) 0); [|done]. dlia.
Qed.

(** The state before the boot reservation. *)
Lemma init_zones_ok ranges t lo hi beyond :
  map_ok ranges -> ram_bounds ranges = (t, lo, hi) -> t <> 0 -> is_u64 beyond ->
  let span := ram_span ranges in
  let s := foldl (init_zone lo)
    (blank (Z.to_nat (PmmBoot.layout_bits span / 8)) (Z.to_nat span) beyond) ranges in
  wf s /\ all_free s /\ pages_size s = span /\ extents s = take 10 (extent <$> ram_ranges ranges).
Proof.
  intros Hm E Ht Hb. destruct (ram_bounds_ok ranges t lo hi Hm E Ht) as (? & ? & ? & ? & Hs & Hall).
  cbv zeta. set (span := ram_span ranges) in *. set (s0 := blank _ _ _).
  assert (pages_size s0 = span) as Hps.
  { unfold s0, blank, pages_size, zlen. simpl. rewrite length_replicate. dlia. }
  destruct (init_zones_wf lo ranges s0) as (I1 & I2 & I3 & I4); try done.
  - eapply Forall_impl; [exact Hall|]. simpl. intros r [? ?]. rewrite Hps. split_and!; try dlia.
    intros zi z Ez. apply zlookup_some_range in Ez. unfold zlen in Ez. simpl in Ez. lia.
  - apply blank_wf; [done| |dlia]. unfold PmmBoot.layout_bits.
    pose proof (align_up_bounds span 64 ltac:(lia)). pose proof (align_up_mod span 64 ltac:(lia)). dlia.
  - intros zi z Ez. apply zlookup_some_range in Ez. unfold zlen in Ez. simpl in Ez. lia.
  - intros zi z i Ez. apply zlookup_some_range in Ez. unfold zlen in Ez. simpl in Ez. lia.
  - split_and!; try done. congruence.
Qed.

Lemma extents_shape s s' : same_shape s s' -> extents s' = extents s.
Proof.
  intros Hss. unfold extents. apply zlookup_ext. intros i. rewrite !zlookup_fmap.
  pose proof (ss_zones s s' Hss i) as He.
  destruct (zones_struct s !!z i) as [[]|], (zones_struct s' !!z i) as [[]|];
    unfold zone_core in *; simpl in *; congruence.
Qed.

(** [pmm_arch_boot_reservations] as [pmm_init] calls it, with room for four
    ranges. *)
Definition default_reservations (l : PmmBoot.pmm_layout) : Z * option Z * list PmmBoot.pmm_phys_range :=
  PmmBoot.pmm_arch_boot_reservations (Some l) false 4 false.

(** Physical end of the boot metadata, rounded up to a frame. *)
Definition boot_end (brk : Z) (to_phy : Z -> Z) (ranges : list MEMORY_RANGE) : Z :=
  align_up (to_phy (brk +u PmmBoot.layout_end (ram_span ranges))) PAGE_2M_SIZE.



Lemma ram_total_pos ranges t0 lo0 hi0 :
  map_ok ranges -> 0 <= t0 -> Forall (fun r => t0 <= phys_start r) (ram_ranges ranges) ->
  0 < t0 \/ ram_ranges ranges <> [] ->
  0 < (foldl (fun '(total, lo, hi) r =>
    if is_ram r then
      let sa := phys_start r &~ (GRANULE - 1) in
      let ea := (phys_end r +u GRANULE -u 1) &~ (GRANULE - 1) in
      (total +u (phys_end r -u phys_start r),
       if sa <? lo then sa else lo,
       if hi <? ea then ea else hi)
    else (total, lo, hi)) (t0, lo0, hi0) ranges).1.1.
Proof.
  intros [Hok Hsort]. revert t0 lo0 hi0.
  induction ranges as [|r ranges IH]; intros t0 lo0 hi0 Ht Hall Hne; simpl in *.
  { destruct Hne; done. }
  destruct (is_ram r) eqn:Er; [|by apply IH].
  apply Forall_cons in Hok as [(? & ? & _) Hok]. apply Forall_cons in Hall as [? _].
  apply StronglySorted_inv in Hsort as [Hsort Hfirst].
  assert (t0 +u (phys_end r -u phys_start r) = t0 + (phys_end r - phys_start r)) as -> by (unwrap; lia).
  apply IH; try done; [lia| |left; lia].
  eapply Forall_impl; [exact Hfirst|]. simpl. lia.
Qed.

(** Once [ZONE_UNMAPPED_INDEX] is set the loop leaves both indices alone. *)
Lemma zone_indices_fixed zs zi th n u : u <> 0 -> zone_indices zs zi th n u = (n, u).
Proof.
  intros Hu. revert zi. induction zs as [|z zs IH]; intros zi; simpl; [done|].
  destruct (Z.eqb_spec u 0); [done|]. rewrite andb_false_r. apply IH.
Qed.

Lemma zone_indices_spec zs zi th n :
  0 < zi -> StronglySorted (fun z z' => zone_start_address z < zone_start_address z') zs ->
  n = zi + zlen zs - 1 ->
  forall j z, zs !!z j = Some z ->
    (zi + j <= (zone_indices zs zi th n 0).1 <-> zone_start_address z < th).
Proof.
  revert zi. induction zs as [|z zs IH]; intros zi Hzi Hsort Hn j y Ej.
  { apply zlookup_some_range in Ej. unfold zlen in Ej. simpl in Ej. lia. }
  apply StronglySorted_inv in Hsort as [Hsort Hfirst]. simpl.
  pose proof (zlookup_some_range _ _ _ Ej) as Hj.
  pose proof (zlookup_cons_inv _ _ _ _ Ej) as Hjs.
  destruct (Z.leb_spec th (zone_start_address z)); simpl.
  - rewrite zone_indices_fixed by lia. simpl. destruct (Z.ltb_spec 0 zi); [|lia].
    destruct Hjs as [[-> ->]|[? Ey]]; [lia|].
    assert (y ∈ zs) as Hin.
    { unfold zlookup in Ey. destruct (0 <=? j - 1); [|done]. by eapply list_elem_of_lookup_2. }
    rewrite Forall_forall in Hfirst. specialize (Hfirst y Hin). lia.
  - assert (n = zi + 1 + zlen zs - 1) as Hn' by (rewrite Hn; unfold zlen; simpl; lia).
    destruct Hjs as [[-> ->]|[? Ey]].
    + split; [done|]. intros _. destruct zs as [|z1 zs].
      { simpl. rewrite Hn'. unfold zlen. simpl. lia. }
      pose proof (IH (zi + 1) ltac:(lia) Hsort Hn' 0 z1 eq_refl) as [_ I].
      destruct (Z.lt_ge_cases (zone_start_address z1) th) as [?|Hge]; [specialize (I ltac:(done)); lia|].
      simpl. destruct (Z.leb_spec th (zone_start_address z1)); [|lia]. simpl.
      rewrite zone_indices_fixed by lia. simpl. destruct (Z.ltb_spec 0 (zi + 1)); lia.
    + rewrite <- (IH (zi + 1) ltac:(lia) Hsort Hn' (j - 1) y Ey). lia.
Qed.

(** The index of the normal zone is one of a zone. *)
Lemma zone_indices_range zs zi th n u N :
  0 <= zi -> zi + zlen zs <= N -> 0 <= n < N -> 0 <= (zone_indices zs zi th n u).1 < N.
Proof.
  revert zi n u. induction zs as [|z zs IH]; intros zi n u Hz HN Hn; cbn [zone_indices]; [done|].
  assert (zlen (z :: zs) = zlen zs + 1) as El by (unfold zlen; cbn; lia). rewrite El in HN. assert (0 <= zlen zs) by (unfold zlen; lia).
  destruct (_ && _); apply IH; try lia. destruct (Z.ltb_spec 0 zi); lia.
Qed.

Lemma page_round_up x : 0 <= x -> align_up x 4096 <= UINT64_MAX -> (x +u 4095) &~ 4095 = align_up x 4096.
Proof.
  intros Hx Hu. unfold align_up in *. assert (0 <= x + 4095 < U64) by dlia. rewrite (wrap64_small (x + 4095)) by done. change 4095 with (2 ^ 12 - 1).
  rewrite land_not_mask by lia. change (2 ^ 12) with 4096. dlia.
Qed.

Lemma zone_indices_all z0 zs th :
  StronglySorted (fun z z' => zone_start_address z < zone_start_address z') (z0 :: zs) ->
  zone_start_address z0 < th ->
  forall j z, (z0 :: zs) !!z j = Some z ->
    (j <= (zone_indices (z0 :: zs) 0 th (zlen (z0 :: zs) - 1) 0).1 <-> zone_start_address z < th).
Proof.
  intros [Hs Hf]%StronglySorted_inv H0 j z Ej. cbn [zone_indices].
  destruct (Z.leb_spec th (zone_start_address z0)); [lia|]. cbn [andb Z.add].
  pose proof (zone_indices_spec zs 1 th (zlen (z0 :: zs) - 1) ltac:(lia) Hs
    ltac:(unfold zlen; simpl; lia)) as Hi.
  apply zlookup_cons_inv in Ej as [[-> ->]|[Hj Ej]].
  2: { rewrite <- (Hi _ _ Ej). replace (1 + (j - 1)) with j by lia. done. }
  split; [done|]. intros _. destruct zs as [|z1 zs]; [done|].
  destruct (Z.lt_ge_cases (zone_start_address z1) th) as [Hlt|Hge];
    [apply (Hi 0 z1 eq_refl) in Hlt; etrans; [|exact Hlt]; lia|]. simpl.
  destruct (Z.leb_spec th (zone_start_address z1)); [|lia]. simpl. by rewrite zone_indices_fixed by lia.
Qed.

(** What the boot reservation leaves free: RAM at or above [e]. *)
Lemma reserve_prefix s e :
  wf s -> all_free s -> 0 < e -> e mod PAGE_2M_SIZE = 0 ->
  exists s', pmm_reserve_boot_ranges (Some [PmmBoot.mk_range 0 e]) 1 s = (0, s') /\
    wf s' /\ extents s' = extents s /\ pages_size s' = pages_size s /\
    forall i, 0 <= i < 64 * zlen (bits_map s') -> (bit s' i = false <->
      exists p zi, pages_struct s' !!z i = Some p /\ zone_struct p = Some zi /\ e <= phy_address p).
Proof.
  intros Hw Hf He Hm. unfold pmm_reserve_boot_ranges. cbn [forallb Z.eqb].
  assert (range_valid (PmmBoot.mk_range 0 e) = true) as ->.
  { unfold range_valid. cbn [PmmBoot.r_start PmmBoot.r_end]. rewrite Z.land_0_l.
    change (PAGE_2M_SIZE - 1) with (Z.ones 21). rewrite Z.land_ones by lia.
    change (2 ^ 21) with PAGE_2M_SIZE. rewrite Hm. bools; try lia; done. }
  cbn [andb negb].
  destruct (reserve_walk_spec (Z.to_nat (pages_size s)) [PmmBoot.mk_range 0 e] 0 s Hw ltac:(lia))
    as (Hw' & Hss & Hb).
  set (s' := reserve_walk _ _ _ _) in *. exists s'. split; [done|]. split; [done|].
  split; [by apply extents_shape|]. split; [apply Hss|]. intros i Hi. rewrite (ss_bitlen _ _ Hss) in Hi.
  rewrite Hb. split.
  - intros [Hi0 Hr]%orb_false_iff. destruct (wf_hole s Hw i Hi Hi0) as (zi & z & Ez & Hin).
    destruct (wf_zone s Hw _ _ Ez) as [Hzr Hza _ Hp]. destruct (Hp i Hin) as (p & Ep & Es & Hpa).
    unfold in_zone in Hin. unfold reserved in Hr. rewrite Ep, Es in Hr. simpl in Hr.
    destruct (fmap_some_inv page_core _ _ _ (eq_sym (ss_pages _ _ Hss i)) Ep) as (p' & Ep' & Hc).
    injection Hc as Hc1 Hc2. exists p', zi. split_and!; [done|congruence|].
    rewrite Hc2. revert Hr. bools; done || lia.
  - intros (p' & zi & Ep' & Es' & Hpa).
    destruct (fmap_some_inv page_core _ _ _ (ss_pages _ _ Hss i) Ep') as (p & Ep & Hc).
    injection Hc as Hc1 Hc2. rewrite <- Hc1 in Es'.
    destruct (wf_page s Hw i p zi Ep Es') as (z & Ez & Hin). rewrite (Hf zi z i Ez Hin). simpl.
    unfold reserved. rewrite Ep, Es'. simpl. rewrite Hc2. bools; done || lia.
Qed.

Lemma starts_sorted s :
  wf s -> StronglySorted (fun z z' => zone_start_address z < zone_start_address z') (zones_struct s).
Proof.
  intros Hw. assert (forall i j z z', zones_struct s !! i = Some z -> zones_struct s !! j = Some z' ->
    (i < j)%nat -> zone_start_address z < zone_start_address z') as Hs.
  { intros i j z z' Ei Ej Hij.
    assert (forall k, zones_struct s !!z Z.of_nat k = zones_struct s !! k) as Hk.
    { intros k. unfold zlookup. destruct (Z.leb_spec 0 (Z.of_nat k)); [|lia]. by rewrite Nat2Z.id. }
    rewrite <- Hk in Ei, Ej. destruct (wf_sep s Hw _ _ _ _ Ei Ej ltac:(lia)).
    destruct (wf_zone s Hw _ _ Ei) as [? ? _ _]. lia. }
  clear Hw. induction (zones_struct s) as [|z zs IH]; constructor.
  - apply IH. intros i j. intros. eapply (Hs (S i) (S j)); try done. lia.
  - apply Forall_forall. intros y [k Ek]%list_elem_of_lookup_1. eapply (Hs 0%nat (S k)); try done. lia.
Qed.

(** C36: booting from a memory map whose RAM ranges are 2 MiB-aligned, ordered
    and not adjacent succeeds and establishes the manager's invariant.  The
    zones are the first ten RAM ranges; a frame is free exactly when it is RAM
    of a zone at or above the (rounded-up) end of the boot metadata, which
    starts at [start_brk] rounded up to a page; [ZONE_NORMAL_INDEX] names a
    zone, and with the first zone below the split it is the last one that
    starts below it. *)
Theorem pmm_init_correct beyond start_brk threshold to_phy ranges :
  let brk := align_up start_brk 4096 in
  let md := to_phy (brk +u PmmBoot.layout_end (ram_span ranges)) in
  map_ok ranges -> ram_ranges ranges <> [] -> is_u64 beyond -> 0 <= start_brk ->
  brk + PmmBoot.layout_total (ram_span ranges) <= UINT64_MAX ->
  0 < md <= U64 - PAGE_2M_SIZE ->
  exists s, pmm_init beyond start_brk threshold to_phy default_reservations ranges = Some s /\
    wf s /\ extents s = take 10 (extent <$> ram_ranges ranges) /\
    pages_size s = ram_span ranges /\
    (forall i, 0 <= i < 64 * zlen (bits_map s) -> (bit s i = false <->
      exists p zi, pages_struct s !!z i = Some p /\ zone_struct p = Some zi /\
        align_up md PAGE_2M_SIZE <= phy_address p)) /\
    is_Some (zones_struct s !!z ZONE_NORMAL_INDEX s) /\
    (forall z0, zones_struct s !!z 0 = Some z0 -> zone_start_address z0 < threshold ->
      forall zi z, zones_struct s !!z zi = Some z ->
        (zi <= ZONE_NORMAL_INDEX s <-> zone_start_address z < threshold)).
Proof.
  intros brk md Hm Hne Hby Hbrk Hfit Hmd. unfold pmm_init.
  destruct (bool_decide_reflect (ranges = [])) as [->|_]; [done|].
  assert (0 < (ram_bounds ranges).1.1) as Ht.
  { apply ram_total_pos; [done|lia| |by right]. eapply Forall_impl; [apply Hm|]. unfold range_ok. lia. }
  destruct (ram_bounds ranges) as [[t lo] hi] eqn:E. simpl in Ht.
  destruct (Z.eqb_spec t 0); [lia|].
  destruct (ram_bounds_ok ranges t lo hi Hm E ltac:(lia)) as (? & ? & ? & ? & Hsp & _).
  destruct (init_zones_ok ranges t lo hi beyond Hm E ltac:(lia) Hby) as (I1 & I2 & I3 & I4).
  assert ((if (hi -u lo) / GRANULE =? 0 then 1 else (hi -u lo) / GRANULE) = ram_span ranges) as ->
    by (unfold ram_span; by rewrite E).
  cbv zeta in *. set (span := ram_span ranges) in *.
  pose proof (PmmBoot.layout_bounds span ltac:(dlia)) as Hlb. pose proof (PmmBoot.layout_bits_bound span ltac:(dlia)) as Hlb0.
  assert ((start_brk +u 4095) &~ 4095 = brk) as -> by (unfold brk; apply page_round_up; [done|fold brk; lia]).
  assert (is_u64 brk) by (unfold is_u64; pose proof (align_up_bounds start_brk 4096 ltac:(lia)); unfold brk in *; lia).
  rewrite PmmBoot.pmm_layout_calculate_spec by (done || dlia).
  destruct (Z.leb_spec (brk + PmmBoot.layout_total span) UINT64_MAX); [|lia].
  destruct (PmmBoot.layout_bounds span ltac:(dlia)) as (? & ? & ? & ? & ?).
  pose proof (PmmBoot.layout_bits_bound span ltac:(dlia)).
  cbn [Z.eqb negb PmmBoot.layout_spec PmmBoot.total_bytes PmmBoot.bits_length PmmBoot.end_of_struct_off].
  destruct (Z.eqb_spec (PmmBoot.layout_total span) 0); [lia|].
  change (mk_state _ beyond _ [] 0 0 0)
    with (blank (Z.to_nat (PmmBoot.layout_bits span / 8)) (Z.to_nat span) beyond).
  set (s1 := foldl _ _ ranges) in *.
  assert ((md +u 2097152 -u 1) &~ (2097152 - 1) = align_up md PAGE_2M_SIZE) as Hru.
  { assert (md +u 2097152 -u 1 = md + (2 ^ 21 - 1)) as -> by (unfold wrap64; dlia).
    change 2097152 with (2 ^ 21). rewrite land_not_mask by lia. unfold align_up. dlia. }
  unfold default_reservations, PmmBoot.pmm_arch_boot_reservations.
  cbn [Z.eqb negb PmmBoot.metadata_end_pa from_option id]. fold md. rewrite Hru.
  pose proof (align_up_bounds md PAGE_2M_SIZE ltac:(lia)).
  destruct (reserve_prefix s1 (align_up md PAGE_2M_SIZE) I1 I2 ltac:(lia)) as (s2 & -> & J1 & J2 & J3 & J4).
  { apply align_up_mod. lia. }
  cbn [Z.eqb negb]. set (nrm := if 0 <? zones_size s2 then _ else 0).
  destruct (zone_indices (zones_struct s2) 0 threshold nrm 0) as [nn u] eqn:Ei.
  eexists. split; [done|]. split; [by apply wf_indices|]. split; [etrans; [apply J2|done]|].
  split; [unfold pages_size in *; simpl; congruence|]. split; [exact J4|].
  cbn [zones_struct ZONE_NORMAL_INDEX]. split.
  { assert (zones_struct s2 <> []) as Hz2.
    { intros Ez. assert (extents s2 = take 10 (extent <$> ram_ranges ranges)) as Ex by (etrans; [apply J2|done]).
      unfold extents in Ex. rewrite Ez in Ex. by destruct (ram_ranges ranges). }
    pose proof (zone_indices_range (zones_struct s2) 0 threshold nrm 0 (zlen (zones_struct s2))) as Hr. rewrite Ei in Hr. cbn [fst] in Hr.
    apply zlookup_in_range. apply Hr; [lia|lia|]. unfold nrm, zones_size. destruct (zones_struct s2); [done|]. unfold zlen. cbn [length]. bools; lia. }
  intros z0 E0 Hz0 zi z Ez.
  pose proof (starts_sorted s2 J1) as Hsort. unfold nrm, zones_size in Ei.
  destruct (zones_struct s2) as [|z' zs]; [done|]. injection E0 as ->.
  destruct (Z.ltb_spec 0 (zlen (z0 :: zs))); [|unfold zlen in *; simpl in *; lia].
  pose proof (zone_indices_all z0 zs threshold Hsort Hz0 zi z Ez) as Hi. by rewrite Ei in Hi.
Qed.

(** ** A small machine *)

(** Frames 0-2 and 4-5 are RAM, frame 3 is a hole. *)
Definition demo_map : list MEMORY_RANGE :=
  [mk_mrange 0 6291456 MEMORY_TYPE_RAM; mk_mrange 6291456 8388608 MEMORY_TYPE_DEVICE;
   mk_mrange 8388608 12582912 MEMORY_TYPE_RAM].
Definition demo : state :=
  Eval vm_compute in foldl (init_zone 0) (blank 1 6 UINT64_MAX) demo_map.
(** The same machine with frame 1 in use. *)
Definition demo1 : state := Eval vm_compute in occupy (set_attribute 1) 1 0 demo.

Lemma demo_map_ok : map_ok demo_map.
Proof.
  split; unfold ram_ranges, demo_map; simpl.
  - repeat constructor; simpl; lia.
  - repeat constructor; simpl; lia.
Qed.

Lemma demo_wf : wf demo.
Proof.
  destruct (init_zones_ok demo_map 10485760 0 12582912 UINT64_MAX demo_map_ok eq_refl) as [Hw _];
    [lia|unfold is_u64; lia|exact Hw].
Qed.

Lemma demo1_wf : wf demo1.
Proof.
  change demo1 with (occupy (set_attribute 1) 1 0 demo).
  eapply occupy_wf; [done|apply demo_wf|reflexivity|unfold in_zone; simpl; lia|reflexivity].
Qed.

Lemma pmm_init_correct_witness :
  exists s, pmm_init UINT64_MAX 1048576 UINT64_MAX id default_reservations demo_map = Some s /\ wf s.
Proof.
  destruct (pmm_init_correct UINT64_MAX 1048576 UINT64_MAX id demo_map) as (s & Hs & Hw & _).
  - exact demo_map_ok.
  - discriminate.
  - unfold is_u64. lia.
  - lia.
  - vm_compute. discriminate.
  - vm_compute. split; [reflexivity|discriminate].
  - exists s. split; assumption.
Defined.

Lemma alloc_pages_one_correct_witness :
  bit demo 0 = false /\ wf (alloc_pages ZONE_NORMAL 1 demo).2.
Proof.
  pose proof (alloc_pages_one_correct ZONE_NORMAL demo (Some 0) (alloc_pages ZONE_NORMAL 1 demo).2
    demo_wf ltac:(vm_compute; reflexivity)) as (Hw & Hb & _). split; assumption.
Defined.

Lemma alloc_pages_run_correct_witness : bit (alloc_pages ZONE_NORMAL 3 demo).2 2 = true.
Proof.
  rewrite (proj1 (alloc_pages_run_correct ZONE_NORMAL 3 demo 0 (alloc_pages ZONE_NORMAL 3 demo).2
    demo_wf ltac:(lia) ltac:(vm_compute; reflexivity) ltac:(vm_compute; reflexivity))).
  vm_compute. reflexivity.
Defined.

Lemma free_pages_correct_witness : wf (free_pages (Some 1) 1 demo1).
Proof.
  apply (free_pages_correct demo1 (Some 1) 1 demo1_wf).
  intros p [= <-] _ i Hi. assert (i = 0) as -> by lia. split; [reflexivity|].
  eexists 0, _. split; [reflexivity|]. unfold in_zone. simpl. lia.
Defined.

Lemma alloc_free_roundtrip_witness :
  zones_struct (free_pages (Some 0) 1 (alloc_pages ZONE_NORMAL 1 demo).2) = zones_struct demo.
Proof.
  apply (alloc_free_roundtrip ZONE_NORMAL demo 0 (alloc_pages ZONE_NORMAL 1 demo).2
    demo_wf ltac:(vm_compute; reflexivity)).
Defined.

Lemma pmm_reserve_boot_ranges_correct_witness :
  exists s', pmm_reserve_boot_ranges (Some [PmmBoot.mk_range 0 4194304]) 1 demo = (0, s') /\ wf s'.
Proof.
  pose proof (pmm_reserve_boot_ranges_correct [PmmBoot.mk_range 0 4194304] 1 demo demo_wf
    ltac:(reflexivity) ltac:(discriminate)) as H.
  vm_compute (forallb _ _) in H. destruct H as (s' & Hs & Hw & _). exists s'. split; assumption.
Defined.

Lemma pmm_claim_free_frame_correct_witness :
  wf (pmm_claim_free_frame 0 8388608 true demo).2 /\ free_frame_in demo 0 8388608 2.
Proof.
  pose proof (pmm_claim_free_frame_correct 0 8388608 true demo (Some 2)
    (pmm_claim_free_frame 0 8388608 true demo).2 demo_wf ltac:(vm_compute; reflexivity))
    as (Hw & Hf & _). split; assumption.
Defined.

Lemma pmm_get_stats_correct_witness :
  managed_bytes (pmm_get_stats demo1) = reserved_bytes (pmm_get_stats demo1) + free_bytes (pmm_get_stats demo1).
Proof. apply (pmm_get_stats_correct demo1 demo1_wf). Defined.

(** An allocation of two frames can charge the wrong zone.  With frame 1
    of the first zone in use, the scan that starts in the first zone finds the
    second zone's frames 4 and 5 in the same bitmap word; they are marked, but
    the first zone's counters pay for them, so its two free frames are
    unreachable and the invariant is lost. *)
Theorem alloc_pages_two_mischarges :
  exists s', wf demo1 /\ alloc_pages ZONE_NORMAL 2 demo1 = (Some 4, s') /\ ~ wf s' /\
    bit s' 0 = false /\ page_free_count <$> (zones_struct s' !!z 0) = Some 0 /\
    page_free_count <$> (zones_struct s' !!z 1) = Some 2 /\
    (alloc_pages ZONE_NORMAL 1 s').1 = None.
Proof.
  exists (alloc_pages ZONE_NORMAL 2 demo1).2. split; [apply demo1_wf|].
  split; [vm_compute; reflexivity|]. split; [|vm_compute; repeat split].
  intros Hw. destruct (zlookup_in_range (zones_struct (alloc_pages ZONE_NORMAL 2 demo1).2) 0) as [z Ez];
    [vm_compute; split; [discriminate|reflexivity]|].
  destruct (wf_zone _ Hw _ _ Ez) as [_ _ [Hc _] _].
  vm_compute in Ez. injection Ez as <-. vm_compute in Hc. discriminate.
Qed.

End PmmInit.
