(* ===== verification/Slab.v ===== *)
(** The kernel object allocator (src/kernel/memory/slab.c): [kmalloc],
    [kmalloc_create], [kfree] and [ksize] on sixteen size classes whose slabs
    are 2 MiB frames.  The frames come through the interface [PageSource],
    which the frame allocator of [Pmm] implements at the end of the file. *)

From stdpp Require Import base tactics numbers option sets list.
From Stdlib Require Import ZArith Lia.
From S2P Require Import Prelude PmmBoot Pmm PmmInit.

Module Slab.

(** ** What the slabs need of the frame allocator *)

(** A frame is named by its descriptor.  [ps_alloc] is
    [alloc_pages(ZONE_NORMAL, 1, 0)] followed by [page_init(page, PG_Kernel)],
    with the descriptor and its physical address, [None] for [NULL];
    [ps_free] is [page_clean(page)] followed by [free_pages(page, 1)], and
    [ps_drop] is [free_pages(page, 1)] alone.  [ps_frame f p a] says the frame
    [p] at physical address [a] is handed out. *)
Class PageSource (F : Type) := {
  ps_alloc : F -> option (Z * Z) * F;
  ps_free : Z -> F -> F;
  ps_drop : Z -> F -> F;
  ps_inv : F -> Prop;
  ps_frame : F -> Z -> Z -> Prop;
  ps_alloc_some : forall f p a f', ps_inv f -> ps_alloc f = (Some (p, a), f') ->
    ps_inv f' /\ 0 <= a /\ a + 2097152 <= 2 ^ 47 /\ a mod 2097152 = 0 /\
    (forall q, ~ ps_frame f q a) /\ forall q b, ps_frame f' q b <-> ps_frame f q b \/ (q = p /\ b = a);
  ps_alloc_none : forall f f', ps_inv f -> ps_alloc f = (None, f') -> f' = f;
  ps_free_spec : forall f p a, ps_inv f -> ps_frame f p a ->
    ps_inv (ps_free p f) /\ forall q b, ps_frame (ps_free p f) q b <-> ps_frame f q b /\ b <> a;
}.

Abbreviation PAGE_2M_SIZE := 2097152 (only parsing).
(** ARCH_PAGE_OFFSET of x86-64, 0xffff800000000000 *)
Abbreviation PAGE_OFFSET := 18446603336221196288 (only parsing).
(** sizeof(struct Slab) on an LP64 target *)
Abbreviation sizeof_Slab := 72 (only parsing).

(** ** Data *)

(** [struct Slab]; [self] is the address of the structure itself and [map_at]
    the pointer [color_map], whose words are [color_map].  The list links are
    the order of the slabs in their cache. *)
Record Slab := mk_slab {
  self : Z;
  page : Z;
  using_count : Z;
  free_count : Z;
  address : Z;
  color_length : Z;
  color_count : Z;
  map_at : Z;
  color_map : list Z;
}.

(** [struct Slab_Cache]; [pool] is the ring that starts at [cache_pool]. *)
Record Slab_Cache := mk_cache {
  size : Z;
  total_using : Z;
  total_free : Z;
  pool : list Slab;
}.

Definition Phy_To_Virt (a : Z) : Z := a +u PAGE_OFFSET.

Definition slab_take (j : Z) (s : Slab) : Slab :=
  mk_slab (self s) (page s) (using_count s +u 1) (free_count s -u 1) (address s) (color_length s)
    (color_count s) (map_at s) (zalter (fun w => Z.lor w (shl64 1 (j mod 64))) (Z.shiftr j 6) (color_map s)).
Definition slab_give (j : Z) (s : Slab) : Slab :=
  mk_slab (self s) (page s) (using_count s -u 1) (free_count s +u 1) (address s) (color_length s)
    (color_count s) (map_at s) (zalter (fun w => w &~ shl64 1 (j mod 64)) (Z.shiftr j 6) (color_map s)).

(** [memset(color_map, 0xff, color_length)] and the loop that clears the bits
    of the [n] objects from [i] on. *)
Fixpoint clear_bits (n : nat) (i : Z) (m : list Z) : list Z :=
  match n with
  | O => m
  | S n => clear_bits n (i + 1) (zalter (fun w => Z.lxor w (shl64 1 (i mod 64))) (Z.shiftr i 6) m)
  end.
Definition fresh_map (count length : Z) : list Z :=
  clear_bits (Z.to_nat count) 0 (replicate (Z.to_nat (length / 8)) UINT64_MAX).

(** [((count + 63) >> 6) << 3] *)
Definition map_length (count : Z) : Z := Z.shiftl (Z.shiftr (count + 63) 6) 3.

Section allocator.
Context {F : Type} `{PS : PageSource F}.

(** The sixteen caches [kmalloc_cache_size] and the frame allocator. *)
Record state := mk_state { caches : list Slab_Cache; frames : F }.

Definition upd_cache (f : Slab_Cache -> Slab_Cache) (i : Z) (st : state) : state :=
  mk_state (zalter f i (caches st)) (frames st).

(** ** kmalloc *)

(** [for (i = 0; i < 16; i++) if (kmalloc_cache_size[i].size >= size) break] *)
Fixpoint find_class (cs : list Slab_Cache) (i n : Z) : option (Z * Slab_Cache) :=
  match cs with
  | [] => None
  | c :: cs => if n <=? size c then Some (i, c) else find_class cs (i + 1) n
  end.

(** The walk around the ring: the first slab with a free object, the head if
    there is none. *)
Fixpoint first_free (p : list Slab) (k : Z) : Z :=
  match p with
  | [] => 0
  | s :: p => if free_count s =? 0 then first_free p (k + 1) else k
  end.

(** [for (j = 0; j < color_count; j++)]: the first clear bit, whole words that
    are full being skipped.  [None] is no such bit. *)
Fixpoint find_color (fuel : nat) (m : list Z) (count j : Z) : option Z :=
  match fuel with
  | O => None
  | S fuel =>
    if j <? count then
      match m !!z (Z.shiftr j 6) with
      | None => None
      | Some w =>
        if w =? UINT64_MAX then find_color fuel m count (j + 64)
        else if Z.land w (shl64 1 (j mod 64)) =? 0 then Some j
        else find_color fuel m count (j + 1)
      end
    else None
  end.

Definition cache_take (k j : Z) (c : Slab_Cache) : Slab_Cache :=
  mk_cache (size c) (total_using c +u 1) (total_free c -u 1) (zalter (slab_take j) k (pool c)).

(** The tail of [kmalloc]: an object of slab [k] of cache [i].  The outer
    option is [None] for an access through an invalid pointer. *)
Definition take_color (i k : Z) (st : state) : option (option Z * state) :=
  c ← caches st !!z i;
  s ← pool c !!z k;
  match find_color (Z.to_nat (color_count s)) (color_map s) (color_count s) 0 with
  | Some j => Some (Some (address s +u (size c *u j)), upd_cache (cache_take k j) i st)
  | None => Some (None, st)
  end.

(** [kmalloc_cache_size[i].total_free += slab->color_count;
    list_add_to_before(&cache_pool->list, &slab->list)] *)
Definition cache_add (s : Slab) (c : Slab_Cache) : Slab_Cache :=
  mk_cache (size c) (total_using c) (total_free c +u color_count s) (pool c ++ [s]).

Definition kmalloc_with (create : Z -> state -> option (option Slab * state)) (n : Z) (st : state)
  : option (option Z * state) :=
  if 1048576 <? n then Some (None, st) else
  '(i, c) ← find_class (caches st) 0 n;
  if negb (total_free c =? 0) then take_color i (first_free (pool c) 0) st
  else
    '(r, st) ← create (size c) st;
    match r with
    | None => Some (None, st)
    | Some s =>
      let st := upd_cache (cache_add s) i st in
      take_color i (zlen (pool c)) st
    end.

(** [kmalloc_creating] is set: a nested call of [kmalloc_create] fails. *)
Definition create_busy (n : Z) (st : state) : option (option Slab * state) := Some (None, st).

Definition kmalloc_create (n : Z) (st : state) : option (option Slab * state) :=
  match ps_alloc (frames st) with
  | (None, f) => Some (None, mk_state (caches st) f)
  | (Some (pg, phys), f) =>
    let st := mk_state (caches st) f in
    if bool_decide (n ∈ [32; 64; 128; 256; 512]) then
      let structsize := sizeof_Slab + PAGE_2M_SIZE / n / 8 in
      let slab := Phy_To_Virt (phys +u PAGE_2M_SIZE -u structsize) in
      let count := (PAGE_2M_SIZE - PAGE_2M_SIZE / n / 8 - sizeof_Slab) / n in
      let len := map_length count in
      Some (Some (mk_slab slab pg 0 count (Phy_To_Virt phys) len count (slab +u sizeof_Slab)
                    (fresh_map count len)), st)
    else if bool_decide (n ∈ [1024; 2048; 4096; 8192; 16384; 32768; 65536; 131072; 262144; 524288; 1048576])
    then
      '(slab, st) ← kmalloc_with create_busy sizeof_Slab st;
      slab ← slab;
      let count := PAGE_2M_SIZE / n in
      let len := map_length count in
      '(map, st) ← kmalloc_with create_busy len st;
      map ← map;
      Some (Some (mk_slab slab pg 0 count (Phy_To_Virt phys) len count map (fresh_map count len)), st)
    else Some (None, mk_state (caches st) (ps_drop pg (frames st)))
  end.

Definition kmalloc : Z -> state -> option (option Z * state) := kmalloc_with kmalloc_create.

(** ** ksize and kfree *)

(** The slab of a ring, then of the caches in order, whose frame starts at
    [base]: its cache, its place in the ring and itself. *)
Fixpoint find_in_pool (p : list Slab) (k base : Z) : option (Z * Slab) :=
  match p with
  | [] => None
  | s :: p => if address s =? base then Some (k, s) else find_in_pool p (k + 1) base
  end.
Fixpoint find_slab (cs : list Slab_Cache) (i base : Z) : option (Z * Z * Slab_Cache * Slab) :=
  match cs with
  | [] => None
  | c :: cs =>
    match find_in_pool (pool c) 0 base with
    | Some (k, s) => Some (i, k, c, s)
    | None => find_slab cs (i + 1) base
    end
  end.

Definition page_base (a : Z) : Z := a &~ (PAGE_2M_SIZE - 1).

Definition ksize (a : Z) (st : state) : Z :=
  if a =? 0 then 0 else
  match find_slab (caches st) 0 (page_base a) with
  | Some (_, _, c, _) => size c
  | None => 0
  end.

Definition cache_give (k j : Z) (c : Slab_Cache) : Slab_Cache :=
  mk_cache (size c) (total_using c -u 1) (total_free c +u 1) (zalter (slab_give j) k (pool c)).

(** [list_del(&slab->list); total_free -= slab->color_count] *)
Definition cache_drop (k : Z) (s : Slab) (c : Slab_Cache) : Slab_Cache :=
  mk_cache (size c) (total_using c) (total_free c -u color_count s) (delete (Z.to_nat k) (pool c)).

(** [rec] is the recursive call on a slab's own metadata.  The result is the
    return value; [None] is a read outside the slab's map. *)
Definition kfree_with (rec : Z -> state -> option (Z * state)) (a : Z) (st : state) : option (Z * state) :=
  if a =? 0 then Some (0, st) else
  match find_slab (caches st) 0 (page_base a) with
  | None => Some (0, st)
  | Some (i, k, c, s) =>
    let index := wrap32 ((a -u address s) / size c) in
    w ← color_map s !!z (Z.shiftr index 6);
    if Z.land w (shl64 1 (index mod 64)) =? 0 then Some (1, st) else
    let st := upd_cache (cache_give k index) i st in
    c ← caches st !!z i;
    s ← pool c !!z k;
    if (using_count s =? 0) && (color_count s *u 3 / 2 <=? total_free c) && negb (k =? 0) then
      let st := upd_cache (cache_drop k s) i st in
      if bool_decide (size c ∈ [32; 64; 128; 256; 512]) then
        Some (1, mk_state (caches st) (ps_free (page s) (frames st)))
      else
        '(_, st) ← rec (map_at s) st;
        let st := mk_state (caches st) (ps_free (page s) (frames st)) in
        '(_, st) ← rec (self s) st;
        Some (1, st)
    else Some (1, st)
  end.

(** The metadata of a slab lives in caches of at most 512 bytes, whose slabs
    carry their own metadata, so one level of recursion is all there is. *)
Definition kfree_small : Z -> state -> option (Z * state) := kfree_with (fun _ _ => None).
Definition kfree : Z -> state -> option (Z * state) := kfree_with kfree_small.

(** ** The invariant *)

Definition class_size (i : Z) : Z := 32 * 2 ^ i.

(** The slabs of all caches, with their cache and whether they are the
    statically reserved head of its ring. *)
Record entry := mk_entry { e_class : Z; e_head : bool; e_slab : Slab }.
Definition entries_of (i : Z) (c : Slab_Cache) : list entry :=
  match pool c with
  | [] => []
  | h :: t => mk_entry i true h :: (mk_entry i false <$> t)
  end.
Fixpoint entries (i : Z) (cs : list Slab_Cache) : list entry :=
  match cs with
  | [] => []
  | c :: cs => entries_of i c ++ entries (i + 1) cs
  end.

(** A slab has a frame unless it is the head of a large cache, whose address
    was never set. *)
Definition backed (s : Slab) : bool := PAGE_OFFSET <=? address s.

Record slab_ok (e : entry) (s := e_slab e) : Prop := {
  so_class : 0 <= e_class e < 16;
  so_using : using_count s = if backed s then zcount (lbit (color_map s)) 0 (Z.to_nat (color_count s)) else 0;
  so_free : free_count s = if backed s then color_count s - using_count s else 0;
  so_map : Forall is_u64 (color_map s) /\ color_count s <= 64 * zlen (color_map s);
  so_count : 0 < color_count s <= 65536;
  so_fit : color_count s * class_size (e_class e) <= PAGE_2M_SIZE;
  so_addr : backed s = true -> address s mod PAGE_2M_SIZE = 0 /\ address s + PAGE_2M_SIZE <= U64;
  so_head : backed s = false -> e_head e = true;
  so_length : color_length s = 8 * zlen (color_map s);
  so_inside : e_head e = false -> e_class e < 5 ->
    address s + color_count s * class_size (e_class e) <= self s /\ self s + sizeof_Slab <= map_at s /\
    map_at s + color_length s <= address s + PAGE_2M_SIZE;
}.

(** Distinct for any two slabs. *)
Definition key (e : entry) : Z := if backed (e_slab e) then address (e_slab e) else - 1 - e_class e.

(** The blocks that hold the slab structures and maps of the large caches. *)
Definition metas_of (e : entry) : list Z :=
  if negb (e_head e) && (5 <=? e_class e) then [self (e_slab e); map_at (e_slab e)] else [].
Definition metas (es : list entry) : list Z := es ≫= metas_of.

(** The bytes of the structure and of the map of a slab that [kmalloc_create]
    made.  Those of the small classes are at the end of the slab's own frame. *)
Definition spans (e : entry) : list (Z * Z) :=
  if e_head e then [] else [(self (e_slab e), sizeof_Slab); (map_at (e_slab e), color_length (e_slab e))].

(** [a] is the start of an object of [n] bytes that is handed out. *)
Definition eblock (e : entry) (a n : Z) : Prop :=
  backed (e_slab e) = true /\ n = class_size (e_class e) /\
  exists j, 0 <= j < color_count (e_slab e) /\ lbit (color_map (e_slab e)) j = true /\
    a = address (e_slab e) + class_size (e_class e) * j.
Definition block (es : list entry) (a n : Z) : Prop := exists e, e ∈ es /\ eblock e a n.

(** [l] bytes at [a] fit in a block. *)
Definition held (b : Z -> Z -> Prop) (a l : Z) : Prop := exists n, l <= n /\ b a n.

Record good (f : F) (es : list entry) : Prop := {
  g_ok : Forall slab_ok es;
  g_keys : NoDup (key <$> es);
  g_frames : forall e, e ∈ es -> backed (e_slab e) = true ->
    ps_frame f (page (e_slab e)) (address (e_slab e) - PAGE_OFFSET);
  g_meta : NoDup (metas es);
  g_meta_block : forall a, a ∈ metas es -> exists n, n <= 512 /\ block es a n;
  g_meta_size : forall e, e ∈ es -> e_head e = false -> 5 <= e_class e ->
    held (block es) (self (e_slab e)) sizeof_Slab /\ held (block es) (map_at (e_slab e)) (color_length (e_slab e));
}.

Record cache_ok (i : Z) (c : Slab_Cache) : Prop := {
  co_size : size c = class_size i;
  co_pool : pool c <> [];
  co_free : total_free c = zsum free_count (pool c);
  co_using : total_using c = zsum using_count (pool c);
}.

Record inv (st : state) : Prop := {
  i_len : zlen (caches st) = 16;
  i_cache : forall i c, caches st !!z i = Some c -> cache_ok i c;
  i_good : good (frames st) (entries 0 (caches st));
  i_frames : ps_inv (frames st);
}.

(** ** The list of slabs under changes of one cache *)

Lemma zlookup_split {A} (l : list A) i x :
  l !!z i = Some x -> exists l1 l2, l = l1 ++ x :: l2 /\ zlen l1 = i /\
    (forall f, zalter f i l = l1 ++ f x :: l2) /\ delete (Z.to_nat i) l = l1 ++ l2.
Proof.
  unfold zlookup, zalter, zlen. destruct (Z.leb_spec 0 i); [|done].
  intros (l1 & l2 & -> & Hl)%list_elem_of_split_length. exists l1, l2.
  split; [done|]. split; [lia|]. rewrite Hl. split.
  - intros f. by rewrite <- (Nat.add_0_r (length l1)), alter_app_r.
  - apply delete_middle.
Qed.

Lemma entries_app i l1 l2 : entries i (l1 ++ l2) = entries i l1 ++ entries (i + zlen l1) l2.
Proof.
  unfold zlen. revert i. induction l1 as [|c l1 IH]; intros i; simpl; [by rewrite Z.add_0_r|].
  rewrite IH, app_assoc. do 2 f_equal. lia.
Qed.

Lemma entries_alter cs i c :
  cs !!z i = Some c -> exists rest, entries 0 cs ≡ₚ entries_of i c ++ rest /\
    forall f, entries 0 (zalter f i cs) ≡ₚ entries_of i (f c) ++ rest.
Proof.
  intros (l1 & l2 & -> & <- & Ha & _)%zlookup_split. exists (entries 0 l1 ++ entries (zlen l1 + 1) l2).
  assert (forall x, entries 0 (l1 ++ x :: l2) ≡ₚ entries_of (zlen l1) x ++ entries 0 l1 ++ entries (zlen l1 + 1) l2) as H.
  { intros x. rewrite entries_app. cbn [entries]. rewrite Z.add_0_l. rewrite !app_assoc. f_equiv. apply Permutation_app_comm. }
  split; [apply H|]. intros f. rewrite Ha. apply H.
Qed.

Lemma entries_of_split i c k s :
  pool c !!z k = Some s -> exists rest, entries_of i c ≡ₚ mk_entry i (k =? 0) s :: rest /\
    (forall c' g, pool c' = zalter g k (pool c) -> entries_of i c' ≡ₚ mk_entry i (k =? 0) (g s) :: rest) /\
    (forall c', k <> 0 -> pool c' = delete (Z.to_nat k) (pool c) -> entries_of i c' ≡ₚ rest).
Proof.
  intros (l1 & l2 & Ep & <- & Ha & Hd)%zlookup_split.
  destruct l1 as [|h l1].
  - exists (mk_entry i false <$> l2). unfold entries_of. split; [by rewrite Ep|]. split.
    + intros c' g E. by rewrite E, Ha.
    + by intros c' [].
  - assert ((zlen (h :: l1) =? 0) = false) as -> by (unfold zlen; simpl; lia).
    exists (mk_entry i true h :: (mk_entry i false <$> l1 ++ l2)).
    assert (forall x c', pool c' = (h :: l1) ++ x :: l2 ->
      entries_of i c' ≡ₚ mk_entry i false x :: mk_entry i true h :: (mk_entry i false <$> l1 ++ l2)) as H.
    { intros x c' E. unfold entries_of. rewrite E. cbn [app]. rewrite !fmap_app, fmap_cons.
      rewrite <- Permutation_middle. apply Permutation_swap. }
    split; [by apply H|]. split.
    + intros c' g E. apply H. by rewrite E, Ha.
    + intros c' _ E. unfold entries_of. by rewrite E, Hd.
Qed.

(** One slab replaced in place. *)
Lemma entries_upd cs i c k s :
  cs !!z i = Some c -> pool c !!z k = Some s -> exists rest,
    entries 0 cs ≡ₚ mk_entry i (k =? 0) s :: rest /\
    (forall f g, pool (f c) = zalter g k (pool c) ->
       entries 0 (zalter f i cs) ≡ₚ mk_entry i (k =? 0) (g s) :: rest) /\
    (forall f, k <> 0 -> pool (f c) = delete (Z.to_nat k) (pool c) -> entries 0 (zalter f i cs) ≡ₚ rest).
Proof.
  intros Hc Hs. destruct (entries_alter cs i c Hc) as (r1 & H1 & H2).
  destruct (entries_of_split i c k s Hs) as (r2 & H3 & H4 & H5). exists (r2 ++ r1). split_and!.
  - by rewrite H1, H3.
  - intros f g E. by rewrite H2, (H4 (f c) g E).
  - intros f Hk E. by rewrite H2, (H5 (f c) Hk E).
Qed.

Lemma entries_add cs i c s :
  cs !!z i = Some c -> pool c <> [] -> entries 0 (zalter (cache_add s) i cs) ≡ₚ mk_entry i false s :: entries 0 cs.
Proof.
  intros Hc Hp. destruct (entries_alter cs i c Hc) as (r1 & -> & ->). unfold entries_of. simpl.
  destruct (pool c) as [|h t]; [done|]. simpl. rewrite fmap_app. simpl.
  rewrite <- app_assoc. simpl. rewrite <- Permutation_middle. apply Permutation_swap.
Qed.

Lemma entries_elem cs e i0 :
  e ∈ entries i0 cs <-> exists i c k s, cs !!z i = Some c /\ pool c !!z k = Some s /\
    e = mk_entry (i0 + i) (k =? 0) s.
Proof.
  revert i0. induction cs as [|c cs IH]; intros i0; simpl.
  { split; [by intros ?%elem_of_nil|]. intros (i & c & k & s & Hc & _).
    apply zlookup_some_range in Hc. unfold zlen in Hc. simpl in Hc. lia. }
  rewrite elem_of_app, IH. split.
  - intros [He|(i & c' & k & s & Hc & Hs & ->)].
    + unfold entries_of in He. exists 0, c. destruct (pool c) as [|h t] eqn:Ep; [by apply elem_of_nil in He|].
      apply elem_of_cons in He as [->|(x & -> & Hx)%list_elem_of_fmap].
      * exists 0, h. split; [done|]. by rewrite Z.add_0_r.
      * apply list_elem_of_lookup in Hx as [n Hn]. exists (Z.of_nat n + 1), x. split; [done|].
        rewrite Z.add_0_r. destruct (Z.eqb_spec (Z.of_nat n + 1) 0); [lia|]. split; [|done].
        unfold zlookup. destruct (Z.leb_spec 0 (Z.of_nat n + 1)); [|lia].
        replace (Z.to_nat (Z.of_nat n + 1)) with (S n) by lia. done.
    + exists (i + 1), c', k, s. pose proof (zlookup_some_range _ _ _ Hc) as Hr. split_and!; [|done|f_equal; lia].
      unfold zlookup in *. destruct (Z.leb_spec 0 i), (Z.leb_spec 0 (i + 1)); try lia.
      by replace (Z.to_nat (i + 1)) with (S (Z.to_nat i)) by lia.
  - intros (i & c' & k & s & Hc & Hs & ->). apply zlookup_cons_inv in Hc as [[-> ->]|[Hi Hc]].
    + left. rewrite Z.add_0_r. unfold entries_of. destruct (pool c) as [|h t] eqn:Ep.
      { apply zlookup_some_range in Hs. unfold zlen in Hs. simpl in Hs. lia. }
      apply zlookup_cons_inv in Hs as [[-> ->]|[Hk Hs]]; [apply elem_of_cons; by left|].
      destruct (Z.eqb_spec k 0); [lia|]. apply elem_of_cons. right. apply list_elem_of_fmap.
      exists s. split; [done|]. unfold zlookup in Hs. destruct (0 <=? k - 1); [|done].
      by eapply list_elem_of_lookup_2.
    + right. exists (i - 1), c', k, s. split_and!; [done|done|f_equal; lia].
Qed.

(** ** One slab *)

Lemma class_size_pos i : 0 <= i -> 32 <= class_size i.
Proof. intros. unfold class_size. pose proof (Z.pow_pos_nonneg 2 i ltac:(lia) ltac:(lia)). lia. Qed.

Lemma eblock_frame e a n :
  slab_ok e -> eblock e a n ->
  address (e_slab e) <= a /\ a + n <= address (e_slab e) + PAGE_2M_SIZE /\ 32 <= n.
Proof.
  intros [Hc _ _ _ Hcc Hfit _ _ _ _] (_ & -> & j & Hj & _ & ->). pose proof (class_size_pos (e_class e) ltac:(lia)). nia.
Qed.

Lemma eblock_disjoint e a n b m x :
  slab_ok e -> eblock e a n -> eblock e b m -> a <= x < a + n -> b <= x < b + m -> a = b.
Proof.
  intros Ho (_ & -> & j & _ & _ & ->) (_ & -> & j' & _ & _ & ->) Hx Hx'.
  pose proof (class_size_pos (e_class e) ltac:(apply so_class in Ho; lia)). assert (j = j') by nia. by subst.
Qed.

Lemma shiftr_6 j : Z.shiftr j 6 = j / 64.
Proof. by rewrite Z.shiftr_div_pow2 by lia. Qed.

(** The bit of object [j] set to [v], with the counters following. *)
Lemma bit_change_ok i h s s' j (v : bool) (d := if v then 1 else -1) (A := address s + class_size i * j) :
  slab_ok (mk_entry i h s) -> backed s = true -> 0 <= j < color_count s -> lbit (color_map s) j = negb v ->
  address s' = address s -> color_count s' = color_count s ->
  Forall is_u64 (color_map s') -> zlen (color_map s') = zlen (color_map s) ->
  (forall b, lbit (color_map s') b = if j =? b then v else lbit (color_map s) b) ->
  using_count s' = using_count s +u d -> free_count s' = free_count s -u d ->
  self s' = self s -> map_at s' = map_at s -> color_length s' = color_length s ->
  slab_ok (mk_entry i h s') /\ free_count s' = free_count s - d /\ using_count s' = using_count s + d /\
  forall a n, eblock (mk_entry i h s') a n <->
    (eblock (mk_entry i h s) a n /\ a <> A) \/ (v = true /\ a = A /\ n = class_size i).
Proof.
  intros [Hc Hu Hf Hm Hcc Hfit Ha Hh Hcl Hin] Hb Hj Hbit Ea Ec Hw Hlen Hl Eu Ef Es Em El. simpl in *. rewrite Hb in *.
  assert (backed s' = true) as Hb' by (unfold backed in *; by rewrite Ea).
  assert (zcount (lbit (color_map s')) 0 (Z.to_nat (color_count s)) = using_count s + d) as Hz.
  { rewrite Hu, (zcount_change (lbit (color_map s)) _ 0 _ j); [|lia|].
    - rewrite Hl, Hbit, Z.eqb_refl. unfold d. destruct v; simpl; lia.
    - intros b Hne. rewrite Hl. by destruct (Z.eqb_spec j b). }
  pose proof (zcount_bounds (lbit (color_map s')) 0 (Z.to_nat (color_count s))) as Hzb.
  rewrite Hz in Hzb. rewrite wrap64_small in Eu, Ef by lia. split_and!; [|done..|].
  - constructor; cbn [e_slab e_class e_head]; rewrite ?Ea, ?Ec, ?Hb', ?Hlen, ?Hz, ?Es, ?Em, ?El; try done; [lia|split; [done|apply Hm]].
  - pose proof (class_size_pos i ltac:(lia)). intros a n. unfold eblock. cbn [e_slab e_class].
    rewrite Ea, Ec, Hb, Hb'. split.
    + intros (_ & -> & b & Hb1 & Hlb & ->). rewrite Hl in Hlb. destruct (Z.eqb_spec j b) as [<-|]; [by right|].
      left. split; [|unfold A; nia]. split; [done|]. split; [done|]. by exists b.
    + intros [[(_ & -> & b & Hb1 & Hlb & ->) Hne]|(-> & -> & ->)]; (split; [done|]; split; [done|]).
      * exists b. rewrite Hl, Hlb. destruct (Z.eqb_spec j b) as [<-|]; [done|done].
      * exists j. by rewrite Hl, Z.eqb_refl.
Qed.

Lemma take_ok i h s j (e := mk_entry i h s) (e' := mk_entry i h (slab_take j s)) (A := address s + class_size i * j) :
  slab_ok e -> backed s = true -> 0 <= j < color_count s -> lbit (color_map s) j = false ->
  slab_ok e' /\ free_count (slab_take j s) = free_count s - 1 /\ using_count (slab_take j s) = using_count s + 1 /\
  forall a n, eblock e' a n <-> (eblock e a n /\ a <> A) \/ (true = true /\ a = A /\ n = class_size i).
Proof.
  intros Ho Hb Hj Hbit. destruct (so_map _ Ho) as [Hm1 Hm2]. simpl in Hm1, Hm2.
  apply (bit_change_ok i h s (slab_take j s) j true); try done.
  - apply Forall_zalter; [done|]. intros. apply lor_bit_u64; [done|]. apply Z.mod_pos_bound. lia.
  - apply zlen_zalter.
  - intros b. simpl. rewrite shiftr_6, lbit_set by (done || lia). destruct (j =? b), (lbit _ b); done.
Qed.

Lemma give_ok i h s j (e := mk_entry i h s) (e' := mk_entry i h (slab_give j s)) (A := address s + class_size i * j) :
  slab_ok e -> backed s = true -> 0 <= j < color_count s -> lbit (color_map s) j = true ->
  slab_ok e' /\ free_count (slab_give j s) = free_count s + 1 /\ using_count (slab_give j s) = using_count s - 1 /\
  forall a n, eblock e' a n <-> (eblock e a n /\ a <> A) \/ (false = true /\ a = A /\ n = class_size i).
Proof.
  intros Ho Hb Hj Hbit. destruct (so_map _ Ho) as [Hm1 Hm2]. simpl in Hm1, Hm2.
  destruct (bit_change_ok i h s (slab_give j s) j false) as (? & ? & ? & ?); try done.
  - apply Forall_zalter; [done|]. intros. apply clear_bit_u64; [done|]. apply Z.mod_pos_bound. lia.
  - apply zlen_zalter.
  - intros b. simpl. rewrite shiftr_6, lbit_clear by (done || lia). destruct (j =? b), (lbit _ b); done.
Qed.

(** ** All slabs *)

#[local] Instance block_perm : Proper ((≡ₚ) ==> (=) ==> (=) ==> iff) block.
Proof. intros es es' H a ? <- n ? <-. unfold block. by setoid_rewrite H. Qed.

Lemma good_perm f es es' : es ≡ₚ es' -> good f es -> good f es'.
Proof.
  intros H [H1 H2 H3 H4 H5 H6]. constructor.
  - by rewrite <- H.
  - by rewrite <- H.
  - intros e He. apply H3. by rewrite H.
  - unfold metas in *. by rewrite <- H.
  - unfold metas in *. setoid_rewrite <- H. done.
  - unfold held in *. intros e He. setoid_rewrite <- H. apply H6. by rewrite H.
Qed.

Lemma good_entry_eq f es e e' :
  good f es -> e ∈ es -> e' ∈ es -> backed (e_slab e) = true -> backed (e_slab e') = true ->
  address (e_slab e) = address (e_slab e') -> e = e'.
Proof.
  intros Hg He He' Hb Hb' Ha. apply list_elem_of_lookup in He as [x Hx]. apply list_elem_of_lookup in He' as [y Hy].
  assert (x = y) as ->; [|congruence]. apply (NoDup_lookup (key <$> es) x y (address (e_slab e))).
  - apply Hg.
  - rewrite list_lookup_fmap, Hx. unfold key. simpl. by rewrite Hb.
  - rewrite list_lookup_fmap, Hy. unfold key. simpl. by rewrite Hb', Ha.
Qed.

Lemma page_base_in x p :
  p mod PAGE_2M_SIZE = 0 -> 0 <= p <= x -> x < p + PAGE_2M_SIZE -> x < U64 -> page_base x = p.
Proof.
  intros Hp H1 H2 H3. unfold page_base. change (PAGE_2M_SIZE - 1) with (2 ^ 21 - 1).
  rewrite land_not_mask by lia. change (2 ^ 21) with PAGE_2M_SIZE. dlia.
Qed.

(** The slab of an address is the one whose frame contains it. *)
Lemma eblock_base e a n x :
  slab_ok e -> eblock e a n -> a <= x < a + n -> page_base x = address (e_slab e) /\ PAGE_OFFSET <= x < U64.
Proof.
  intros Ho Hb Hx. destruct (eblock_frame e a n Ho Hb) as (H1 & H2 & H3). destruct Hb as [Hb _].
  destruct (so_addr _ Ho Hb) as [Ha Hr]. unfold backed in Hb. apply Z.leb_le in Hb.
  split; [|lia]. apply page_base_in; lia.
Qed.

Lemma block_disjoint f es a n b m x :
  good f es -> block es a n -> block es b m -> a <= x < a + n -> b <= x < b + m -> a = b /\ n = m.
Proof.
  intros Hg (e & He & Ha) (e' & He' & Hb) Hx Hx'.
  pose proof (proj1 (Forall_forall _ _) (g_ok _ _ Hg)) as Hok.
  destruct (eblock_base e a n x (Hok _ He) Ha Hx) as [E _], (eblock_base e' b m x (Hok _ He') Hb Hx') as [E' _].
  assert (e = e') as <- by (eapply good_entry_eq; [exact Hg|done|done|apply Ha|apply Hb|congruence]).
  split; [by eapply eblock_disjoint; [apply Hok|..]|]. destruct Ha as (_ & -> & _), Hb as (_ & -> & _). done.
Qed.

Lemma block_start_size f es a n : good f es -> block es a n -> 0 < n.
Proof.
  intros Hg (e & He & Ha). pose proof (proj1 (Forall_forall _ _) (g_ok _ _ Hg)) as Hok.
  pose proof (eblock_frame e a n (Hok _ He) Ha). lia.
Qed.

(** A change of one slab that keeps its place in memory, its metadata and the
    blocks that hold metadata keeps the whole consistent. *)
Lemma good_change f i h s s' rest (e := mk_entry i h s) (e' := mk_entry i h s') :
  good f (e :: rest) -> slab_ok e' -> address s' = address s -> page s' = page s ->
  self s' = self s -> map_at s' = map_at s -> color_length s' = color_length s ->
  (forall a n, a ∈ metas (e :: rest) -> eblock e a n -> eblock e' a n) ->
  good f (e' :: rest).
Proof.
  intros [H1 H2 H3 H4 H5 H6] Ho Ea Ep Es Em El Hb. apply Forall_cons in H1 as [_ H1].
  assert (backed s' = backed s) as Ebk by (unfold backed; by rewrite Ea).
  assert (metas (e' :: rest) = metas (e :: rest)) as Emt.
  { unfold metas. rewrite !bind_cons. f_equal. unfold metas_of, e, e'. simpl. by rewrite Es, Em. }
  assert (forall a n, a ∈ metas (e :: rest) -> block (e :: rest) a n -> block (e' :: rest) a n) as Hkeep.
  { intros a n Ha (x & Hx & Hxb). apply elem_of_cons in Hx as [->|Hx].
    - exists e'. split; [apply elem_of_cons; by left|]. by apply Hb.
    - exists x. split; [apply elem_of_cons; by right|done]. }
  constructor; rewrite ?Emt; try done.
  - by constructor.
  - revert H2. rewrite !fmap_cons. unfold key at 1 3, e, e'. simpl. by rewrite Ebk, Ea.
  - intros x [->|Hx]%elem_of_cons Hbk; [|apply H3; [apply elem_of_cons; by right|done]].
    simpl in *. rewrite Ep, Ea. rewrite Ebk in Hbk. apply (H3 e); [apply elem_of_cons; by left|done].
  - intros a Ha. destruct (H5 a Ha) as (n & Hn & Hx). exists n. split; [done|]. by apply Hkeep.
  - intros x Hx Hh Hc.
    assert (exists y, y ∈ e :: rest /\ e_head y = false /\ 5 <= e_class y /\ self (e_slab y) = self (e_slab x) /\
      map_at (e_slab y) = map_at (e_slab x) /\ color_length (e_slab y) = color_length (e_slab x)) as (y & Hy & Hyh & Hyc & <- & <- & <-).
    { apply elem_of_cons in Hx as [->|Hx]; [exists e|exists x]; (split; [set_solver|]); simpl in *; done. }
    destruct (H6 y Hy Hyh Hyc) as [(n1 & L1 & B1) (n2 & L2 & B2)].
    split; eexists; (split; [eassumption|]); apply Hkeep; try eassumption; apply list_elem_of_bind; exists y; (split; [|done]);
      unfold metas_of; rewrite Hyh, (proj2 (Z.leb_le 5 _) Hyc); set_solver.
Qed.

Lemma block_cons e es a n : block (e :: es) a n <-> eblock e a n \/ block es a n.
Proof.
  unfold block. split.
  - intros (x & [->|Hx]%elem_of_cons & Hb); [by left|right; by exists x].
  - intros [Hb|(x & Hx & Hb)]; [exists e|exists x]; (split; [|done]); apply elem_of_cons; auto.
Qed.

(** Blocks of other slabs start elsewhere. *)
Lemma block_elsewhere f e rest a b m :
  good f (e :: rest) -> slab_ok e -> backed (e_slab e) = true ->
  address (e_slab e) <= a < address (e_slab e) + PAGE_2M_SIZE -> block rest b m -> b <> a.
Proof.
  intros Hg Ho Hbk Ha (x & Hx & Hb) ->.
  pose proof (proj1 (Forall_forall _ _) (g_ok _ _ Hg)) as Hok.
  assert (slab_ok x) as Hox by (apply Hok, elem_of_cons; by right).
  destruct (eblock_base x a m a Hox Hb) as [E _]; [destruct (eblock_frame x a m Hox Hb); lia|].
  destruct (so_addr _ Ho Hbk) as [Hal Hr]. unfold backed in Hbk. apply Z.leb_le in Hbk.
  assert (page_base a = address (e_slab e)) as E' by (apply page_base_in; lia).
  pose proof (g_keys _ _ Hg) as Hk. rewrite fmap_cons in Hk. apply NoDup_cons in Hk as [Hk _]. apply Hk.
  apply list_elem_of_fmap. exists x. split; [|done]. unfold key. destruct Hb as [-> _].
  unfold backed. rewrite (proj2 (Z.leb_le _ _) Hbk). congruence.
Qed.

(** ** The state *)

Definition bl (st : state) : Z -> Z -> Prop := block (entries 0 (caches st)).
Definition mt (st : state) : list Z := metas (entries 0 (caches st)).

Lemma slab_elem st i c k s :
  caches st !!z i = Some c -> pool c !!z k = Some s -> mk_entry i (k =? 0) s ∈ entries 0 (caches st).
Proof. intros Hc Hs. apply entries_elem. by exists i, c, k, s. Qed.

Lemma slab_elem_ok st i c k s :
  inv st -> caches st !!z i = Some c -> pool c !!z k = Some s -> slab_ok (mk_entry i (k =? 0) s).
Proof.
  intros Hi Hc Hs. pose proof (proj1 (Forall_forall _ _) (g_ok _ _ (i_good st Hi))) as Hok.
  eapply Hok, slab_elem; done.
Qed.

(** Every frame of the kernel window holds at most one slab. *)
Lemma entries_bound f es : good f es -> zlen es <= 2 ^ 26 + 16.
Proof.
  intros Hg. set (N := 2 ^ 26).
  assert (key <$> es ⊆+ ((fun t => PAGE_OFFSET + PAGE_2M_SIZE * t) <$> seqZ 0 N) ++ ((fun t => - 1 - t) <$> seqZ 0 16)) as H.
  { apply NoDup_submseteq; [apply Hg|]. intros x (e & -> & He)%list_elem_of_fmap. apply elem_of_app.
    pose proof (proj1 (Forall_forall _ _) (g_ok _ _ Hg) e He) as Ho. unfold key.
    destruct (backed (e_slab e)) eqn:Hb; [left|right]; apply list_elem_of_fmap.
    - destruct (so_addr _ Ho Hb) as [Ha Hr]. unfold backed in Hb. apply Z.leb_le in Hb.
      exists ((address (e_slab e) - PAGE_OFFSET) / PAGE_2M_SIZE). rewrite elem_of_seqZ.
      change N with 67108864. split; dlia.
    - exists (e_class e). rewrite elem_of_seqZ. pose proof (so_class _ Ho). split; lia. }
  apply submseteq_length in H. rewrite length_app, !length_fmap, !length_seqZ in H.
  unfold zlen, N in *. lia.
Qed.

Lemma pool_bound st i c :
  inv st -> caches st !!z i = Some c ->
  Forall (fun s => 0 <= free_count s <= 65536 /\ 0 <= using_count s <= 65536 /\ 0 < color_count s <= 65536) (pool c) /\
  zlen (pool c) <= 2 ^ 26 + 16.
Proof.
  intros Hi Hc. split.
  - apply Forall_forall. intros s [k Hk]%list_elem_of_lookup.
    assert (pool c !!z (Z.of_nat k) = Some s) as Hs.
    { unfold zlookup. rewrite (proj2 (Z.leb_le _ _)) by lia. by rewrite Nat2Z.id. }
    destruct (slab_elem_ok st i c _ s Hi Hc Hs) as [_ Hu Hf _ Hcc _ _ _ _ _]. simpl in *.
    pose proof (zcount_bounds (lbit (color_map s)) 0 (Z.to_nat (color_count s))). destruct (backed s); lia.
  - pose proof (entries_bound _ _ (i_good st Hi)) as Hb.
    destruct (entries_alter (caches st) i c Hc) as (rest & Hp & _). unfold zlen in *.
    rewrite Hp, length_app in Hb. assert (length (entries_of i c) = length (pool c)) as Hl.
    { unfold entries_of. destruct (pool c); [done|]. simpl. by rewrite length_fmap. }
    lia.
Qed.

(** No total comes near the width. *)
Lemma totals_bound st i c :
  inv st -> caches st !!z i = Some c ->
  0 <= total_free c < 2 ^ 60 /\ 0 <= total_using c < 2 ^ 60 /\
  forall s, s ∈ pool c -> free_count s <= total_free c /\ using_count s <= total_using c /\ 0 < color_count s <= 65536.
Proof.
  intros Hi Hc. destruct (i_cache st Hi i c Hc) as [_ _ -> ->]. destruct (pool_bound st i c Hi Hc) as [Hf Hl].
  assert (Forall (fun s => 0 <= free_count s) (pool c)) by (eapply Forall_impl; [exact Hf|]; simpl; lia).
  assert (Forall (fun s => 0 <= using_count s) (pool c)) by (eapply Forall_impl; [exact Hf|]; simpl; lia).
  pose proof (zsum_nonneg free_count (pool c) ltac:(done)). pose proof (zsum_nonneg using_count (pool c) ltac:(done)).
  pose proof (zsum_bound free_count (pool c) 65536 ltac:(eapply Forall_impl; [exact Hf|]; simpl; lia)).
  pose proof (zsum_bound using_count (pool c) 65536 ltac:(eapply Forall_impl; [exact Hf|]; simpl; lia)).
  split; [lia|]. split; [lia|]. intros s Hs. split; [by apply zsum_elem|]. split; [by apply zsum_elem|].
  rewrite Forall_forall in Hf. apply Hf in Hs. lia.
Qed.

(** One slab of one cache changes in place. *)
Lemma inv_upd st i c k s f g :
  inv st -> caches st !!z i = Some c -> pool c !!z k = Some s ->
  pool (f c) = zalter g k (pool c) -> size (f c) = size c ->
  total_free (f c) = total_free c - free_count s + free_count (g s) ->
  total_using (f c) = total_using c - using_count s + using_count (g s) ->
  (forall rest, entries 0 (caches st) ≡ₚ mk_entry i (k =? 0) s :: rest ->
     good (frames st) (mk_entry i (k =? 0) s :: rest) ->
     good (frames st) (mk_entry i (k =? 0) (g s) :: rest)) ->
  inv (upd_cache f i st).
Proof.
  intros Hi Hc Hs Hp Hsz Hf Hu Hg. destruct Hi as [H1 H2 H3 H4]. constructor; simpl.
  - by rewrite zlen_zalter.
  - intros j c' E. destruct (decide (i = j)) as [<-|].
    + rewrite zlookup_zalter, Hc in E. simpl in E. injection E as <-. destruct (H2 i c Hc) as [C1 C2 C3 C4].
      constructor.
      * congruence.
      * rewrite Hp. intros E. apply (f_equal zlen) in E. rewrite zlen_zalter in E.
        apply C2. unfold zlen in E. simpl in E. by destruct (pool c).
      * rewrite Hp, (zsum_zalter free_count g k (pool c) s Hs). lia.
      * rewrite Hp, (zsum_zalter using_count g k (pool c) s Hs). lia.
    + rewrite zlookup_zalter_ne in E by done. by apply H2.
  - destruct (entries_upd (caches st) i c k s Hc Hs) as (rest & P1 & P2 & _).
    eapply good_perm; [symmetry; by apply P2|]. apply Hg; [done|]. by eapply good_perm.
  - done.
Qed.

(** ** Searching *)

Lemma lbit_mask m j w :
  m !!z (j / 64) = Some w -> 0 <= j -> (Z.land w (shl64 1 (j mod 64)) =? 0) = negb (lbit m j).
Proof.
  intros Hw Hj. unfold lbit. rewrite Hw. simpl. pose proof (Z.mod_pos_bound j 64 ltac:(lia)).
  rewrite <- (land_bit_test w (j mod 64)) by lia. by rewrite negb_involutive.
Qed.

Lemma full_word m j b w :
  m !!z (j / 64) = Some w -> w = UINT64_MAX -> 0 <= j -> b / 64 = j / 64 -> lbit m b = true.
Proof.
  intros Hw -> Hj E. unfold lbit. rewrite E, Hw. simpl. change UINT64_MAX with (Z.ones 64).
  apply Z.ones_spec_low. apply Z.mod_pos_bound. lia.
Qed.

Lemma find_color_spec fuel m count j b :
  0 <= j -> count <= 64 * zlen m -> count - j <= Z.of_nat fuel -> j <= b < count -> lbit m b = false ->
  (j mod 64 = 0 \/ m !!z (j / 64) <> Some UINT64_MAX) ->
  exists j', find_color fuel m count j = Some j' /\ j <= j' < count /\ lbit m j' = false.
Proof.
  revert j. induction fuel as [|fuel IH]; intros j Hj Hc Hf Hb Hl Ha; [lia|]. simpl.
  rewrite (proj2 (Z.ltb_lt j count)), shiftr_6 by lia.
  destruct (zlookup_in_range m (j / 64) ltac:(dlia)) as [w Ew]. rewrite Ew.
  destruct (Z.eqb_spec w UINT64_MAX) as [->|Hw].
  - destruct Ha as [Ha|[]]; [|done]. destruct (IH (j + 64)) as (j' & E & ? & ?); try done; try lia.
    + split; [|lia]. destruct (Z.le_gt_cases (j + 64) b); [done|]. exfalso.
      rewrite (full_word m j b UINT64_MAX Ew eq_refl Hj) in Hl by dlia. done.
    + left. dlia.
    + exists j'. split; [done|]. split; [lia|done].
  - rewrite (lbit_mask m j w Ew Hj). destruct (lbit m j) eqn:Elj; simpl.
    + assert (j <> b) by congruence.
      destruct (IH (j + 1)) as (j' & E & ? & ?); try done; try lia.
      * destruct (Z.eq_dec ((j + 1) mod 64) 0); [by left|right].
        replace ((j + 1) / 64) with (j / 64) by dlia. rewrite Ew. congruence.
      * exists j'. split; [done|]. split; [lia|done].
    + exists j. split; [done|]. split; [lia|done].
Qed.

Lemma first_free_spec p k0 :
  (exists s, s ∈ p /\ free_count s <> 0) ->
  exists k s, first_free p k0 = k0 + k /\ p !!z k = Some s /\ free_count s <> 0.
Proof.
  revert k0. induction p as [|x p IH]; intros k0 (s & Hs & Hf); [by apply elem_of_nil in Hs|]. simpl.
  destruct (Z.eqb_spec (free_count x) 0) as [E|E].
  - apply elem_of_cons in Hs as [->|Hs]; [done|]. destruct (IH (k0 + 1)) as (k & y & E1 & E2 & E3); [by exists s|].
    exists (k + 1), y. pose proof (zlookup_some_range _ _ _ E2). split; [lia|]. split; [|done].
    unfold zlookup in *. destruct (Z.leb_spec 0 k), (Z.leb_spec 0 (k + 1)); try lia.
    by replace (Z.to_nat (k + 1)) with (S (Z.to_nat k)) by lia.
  - exists 0, x. split; [lia|]. done.
Qed.

Lemma find_class_spec cs i0 n i c :
  find_class cs i0 n = Some (i, c) -> cs !!z (i - i0) = Some c /\ n <= size c /\ i0 <= i.
Proof.
  revert i0. induction cs as [|x cs IH]; intros i0; simpl; [done|].
  destruct (Z.leb_spec n (size x)).
  - intros [= <- <-]. rewrite Z.sub_diag. split; [done|]. lia.
  - intros (H1 & H2 & H3)%IH. split; [|lia]. unfold zlookup in *.
    destruct (Z.leb_spec 0 (i - (i0 + 1))), (Z.leb_spec 0 (i - i0)); try lia; try done.
    by replace (Z.to_nat (i - i0)) with (S (Z.to_nat (i - (i0 + 1)))) by lia.
Qed.

Lemma find_class_some cs i0 n k c :
  cs !!z k = Some c -> n <= size c -> exists i c', find_class cs i0 n = Some (i, c') /\ i <= i0 + k.
Proof.
  revert i0 k. induction cs as [|x cs IH]; intros i0 k Hk Hn.
  { apply zlookup_some_range in Hk. unfold zlen in Hk. simpl in Hk. lia. }
  pose proof (zlookup_some_range _ _ _ Hk) as Hr. simpl.
  destruct (Z.leb_spec n (size x)); [exists i0, x; split; [done|lia]|].
  apply zlookup_cons_inv in Hk as [[-> ->]|[Hk' Hk]]; [lia|].
  destruct (IH (i0 + 1) (k - 1) Hk Hn) as (i & c' & E & ?). exists i, c'. split; [done|lia].
Qed.

(** ** Handing out and returning one object *)

Lemma metas_change i h s s' rest :
  self s' = self s -> map_at s' = map_at s -> metas (mk_entry i h s' :: rest) = metas (mk_entry i h s :: rest).
Proof. intros Es Em. unfold metas. rewrite !bind_cons. f_equal. unfold metas_of. simpl. by rewrite Es, Em. Qed.

(** The bit of object [j] of slab [k] of cache [i] changes from [negb v] to
    [v]. *)
Lemma change_inv st i c k s j (v : bool) f g (A := address s + class_size i * j) :
  inv st -> caches st !!z i = Some c -> pool c !!z k = Some s -> backed s = true -> 0 <= j < color_count s ->
  pool (f c) = zalter g k (pool c) -> size (f c) = size c ->
  total_free (f c) = total_free c - free_count s + free_count (g s) ->
  total_using (f c) = total_using c - using_count s + using_count (g s) ->
  slab_ok (mk_entry i (k =? 0) (g s)) -> address (g s) = address s -> page (g s) = page s ->
  self (g s) = self s -> map_at (g s) = map_at s -> color_length (g s) = color_length s ->
  (forall a n, eblock (mk_entry i (k =? 0) (g s)) a n <->
     (eblock (mk_entry i (k =? 0) s) a n /\ a <> A) \/ (v = true /\ a = A /\ n = class_size i)) ->
  A ∉ mt st \/ v = true ->
  inv (upd_cache f i st) /\ (forall a, a ∈ mt (upd_cache f i st) <-> a ∈ mt st) /\
  forall a n, bl (upd_cache f i st) a n <-> (bl st a n /\ a <> A) \/ (v = true /\ a = A /\ n = class_size i).
Proof.
  intros Hi Hc Hs Hb Hj Hp Hsz Hf Hu Ho Ea Ep Es Em El Hblk HA.
  destruct (entries_upd (caches st) i c k s Hc Hs) as (rest & P1 & P2 & _). specialize (P2 f g Hp).
  pose proof (slab_elem_ok st i c k s Hi Hc Hs) as Hos.
  pose proof (good_perm _ _ _ P1 (i_good st Hi)) as Hg. split_and!.
  - eapply (inv_upd st i c k s f g); try done. intros rest' P Hg'. apply (good_change _ _ _ s); try done.
    intros a n Ha Hab. apply Hblk. destruct (Z.eq_dec a A) as [->|]; [|by left]. right.
    destruct HA as [HA| ->]; [|split; [done|]; split; [done|apply Hab]].
    destruct HA. unfold mt, metas in *. by rewrite P.
  - intros a. unfold mt, metas. simpl. rewrite P1, P2. fold (metas (mk_entry i (k =? 0) (g s) :: rest)).
    by rewrite (metas_change i (k =? 0) s (g s) rest Es Em).
  - intros a n. unfold bl. simpl. rewrite P1, P2, !block_cons, Hblk.
    assert (block rest a n -> a <> A) as Hne.
    { intros Hr. eapply (block_elsewhere _ (mk_entry i (k =? 0) s)); try done. simpl.
      pose proof (so_fit _ Hos) as Hfit. simpl in Hfit.
      pose proof (class_size_pos i ltac:(pose proof (so_class _ Hos); simpl in *; lia)). unfold A. nia. }
    tauto.
Qed.

Lemma take_inv st i c k s j (A := address s + class_size i * j) (st' := upd_cache (cache_take k j) i st) :
  inv st -> caches st !!z i = Some c -> pool c !!z k = Some s -> backed s = true ->
  0 <= j < color_count s -> lbit (color_map s) j = false ->
  inv st' /\ (forall a, a ∈ mt st' <-> a ∈ mt st) /\ (forall n, ~ bl st A n) /\
  forall a n, bl st' a n <-> bl st a n \/ (a = A /\ n = class_size i).
Proof.
  intros Hi Hc Hs Hb Hj Hl. pose proof (slab_elem_ok st i c k s Hi Hc Hs) as Ho.
  destruct (take_ok i (k =? 0) s j Ho Hb Hj Hl) as (Ho' & Ef & Eu & Hblk).
  destruct (totals_bound st i c Hi Hc) as (Hf & Hu & Hel).
  assert (s ∈ pool c) as Hin.
  { unfold zlookup in Hs. destruct (0 <=? k); [|done]. by eapply list_elem_of_lookup_2. }
  destruct (Hel s Hin) as (Hel1 & Hel2 & Hel3).
  assert (0 < free_count s).
  { pose proof (so_free _ Ho') as E. pose proof (so_using _ Ho') as E'. simpl in E, E'.
    change (backed (slab_take j s)) with (backed s) in *. rewrite Hb in *.
    pose proof (zcount_bounds (lbit (zalter (fun w => Z.lor w (shl64 1 (j mod 64))) (Z.shiftr j 6) (color_map s))) 0 (Z.to_nat (color_count s))).
    simpl in Ef. lia. }
  destruct (change_inv st i c k s j true (cache_take k j) (slab_take j)) as (H1 & H2 & H3); try done.
  - simpl. rewrite wrap64_small by lia. simpl in Ef. lia.
  - simpl. rewrite wrap64_small by lia. simpl in Eu. lia.
  - by right.
  - split; [done|]. split; [done|].
    assert (forall n, ~ bl st A n) as Hno.
    { intros n Hn. unfold bl in Hn. destruct (entries_upd (caches st) i c k s Hc Hs) as (rest & P1 & _ & _).
      rewrite P1, block_cons in Hn. destruct Hn as [(_ & _ & b & Hb' & Hlb & E)|Hn].
      - simpl in *. pose proof (class_size_pos i ltac:(pose proof (so_class _ Ho); simpl in *; lia)).
        assert (b = j) as -> by (unfold A in E; nia). congruence.
      - pose proof (good_perm _ _ _ P1 (i_good st Hi)) as Hg.
        eapply (block_elsewhere _ _ rest A A n Hg Ho Hb); [|done|done]. simpl.
        pose proof (so_fit _ Ho) as Hfit. simpl in Hfit.
        pose proof (class_size_pos i ltac:(pose proof (so_class _ Ho); simpl in *; lia)). unfold A. nia. }
    split; [done|]. intros a n. unfold st'. rewrite H3. split.
    + intros [[? ?]|(_ & ? & ?)]; [by left|by right].
    + intros [Hab|[? ?]]; [|right; done]. left. split; [done|]. intros ->. by apply (Hno n).
Qed.

Lemma give_inv st i c k s j (A := address s + class_size i * j) (st' := upd_cache (cache_give k j) i st) :
  inv st -> caches st !!z i = Some c -> pool c !!z k = Some s -> backed s = true ->
  0 <= j < color_count s -> lbit (color_map s) j = true -> A ∉ mt st ->
  inv st' /\ (forall a, a ∈ mt st' <-> a ∈ mt st) /\
  forall a n, bl st' a n <-> bl st a n /\ a <> A.
Proof.
  intros Hi Hc Hs Hb Hj Hl HA. pose proof (slab_elem_ok st i c k s Hi Hc Hs) as Ho.
  destruct (give_ok i (k =? 0) s j Ho Hb Hj Hl) as (Ho' & Ef & Eu & Hblk).
  destruct (totals_bound st i c Hi Hc) as (Hf & Hu & Hel).
  assert (s ∈ pool c) as Hin.
  { unfold zlookup in Hs. destruct (0 <=? k); [|done]. by eapply list_elem_of_lookup_2. }
  destruct (Hel s Hin) as (Hel1 & Hel2 & Hel3).
  assert (0 < using_count s).
  { pose proof (so_using _ Ho) as E. simpl in E. rewrite Hb in E.
    pose proof (zcount_pos (lbit (color_map s)) 0 (Z.to_nat (color_count s)) j ltac:(lia) Hl). lia. }
  destruct (change_inv st i c k s j false (cache_give k j) (slab_give j)) as (H1 & H2 & H3); try done.
  - simpl. rewrite wrap64_small by lia. simpl in Ef. lia.
  - simpl. rewrite wrap64_small by lia. simpl in Eu. lia.
  - by left.
  - split; [done|]. split; [done|]. intros a n. unfold st'. rewrite H3. split; [|tauto].
    intros [?|(? & _)]; done.
Qed.

(** ** kmalloc from a cache with a free object *)

(** A block of [m] bytes at [A] was handed out between [st] and [st']; nothing
    else happened outside cache [i]. *)
Record handed (st : state) (i A m : Z) (st' : state) : Prop := {
  h_inv : inv st';
  h_mt : forall a, a ∈ mt st' <-> a ∈ mt st;
  h_fresh : forall n, ~ bl st A n;
  h_bl : forall a n, bl st' a n <-> bl st a n \/ (a = A /\ n = m);
  h_frames : frames st' = frames st;
  h_other : forall i', i' <> i -> caches st' !!z i' = caches st !!z i';
  h_same : forall c, caches st !!z i = Some c -> exists c', caches st' !!z i = Some c' /\
    total_free c' = total_free c - 1;
  h_slabs : forall e', e' ∈ entries 0 (caches st') -> exists e, e ∈ entries 0 (caches st) /\
    address (e_slab e') = address (e_slab e);
}.

Lemma slab_backed st i c k s :
  inv st -> caches st !!z i = Some c -> pool c !!z k = Some s -> free_count s <> 0 -> backed s = true.
Proof.
  intros Hi Hc Hs Hf. pose proof (so_free _ (slab_elem_ok st i c k s Hi Hc Hs)) as E. simpl in E.
  destruct (backed s); [done|lia].
Qed.

Lemma take_color_spec st i c k s :
  inv st -> caches st !!z i = Some c -> pool c !!z k = Some s -> free_count s <> 0 ->
  exists A st', take_color i k st = Some (Some A, st') /\ handed st i A (class_size i) st'.
Proof.
  intros Hi Hc Hs Hf. pose proof (slab_backed st i c k s Hi Hc Hs Hf) as Hb.
  pose proof (slab_elem_ok st i c k s Hi Hc Hs) as Ho. unfold take_color. rewrite Hc. simpl. rewrite Hs. simpl.
  destruct (so_map _ Ho) as [Hm1 Hm2], (so_count _ Ho) as [Hc1 Hc2]. pose proof (so_free _ Ho) as Ef.
  pose proof (so_using _ Ho) as Eu. pose proof (so_class _ Ho). simpl in *. rewrite Hb in *.
  pose proof (zcount_bounds (lbit (color_map s)) 0 (Z.to_nat (color_count s))).
  destruct (zcount_lt (lbit (color_map s)) 0 (Z.to_nat (color_count s)) ltac:(lia)) as (b & Hb1 & Hb2).
  destruct (find_color_spec (Z.to_nat (color_count s)) (color_map s) (color_count s) 0 b) as (j & Ej & Hj & Hlj);
    try done; try lia; [by left|].
  rewrite Ej. exists (address s + class_size i * j), (upd_cache (cache_take k j) i st).
  destruct (so_addr _ Ho Hb) as [_ Hr]. pose proof (so_fit _ Ho) as Hfit. simpl in Hr, Hfit.
  pose proof (class_size_pos i ltac:(lia)). unfold backed in Hb. apply Z.leb_le in Hb.
  rewrite (co_size _ _ (i_cache st Hi i c Hc)).
  assert (0 <= class_size i * j /\ class_size i * j + class_size i <= PAGE_2M_SIZE) by nia.
  rewrite (wrap64_small (class_size i * j)), wrap64_small by lia. split; [done|].
  destruct (take_inv st i c k s j) as (T1 & T2 & T3 & T4); try done; [by apply Z.leb_le|].
  constructor; try done.
  - intros i' Hne. simpl. by rewrite zlookup_zalter_ne.
  - intros c' E. simpl. rewrite zlookup_zalter, E. simpl. eexists. split; [done|]. simpl.
    destruct (totals_bound st i c Hi Hc) as (? & _ & Hel). assert (c' = c) as -> by congruence.
    assert (s ∈ pool c) as Hin.
    { unfold zlookup in Hs. destruct (0 <=? k); [|done]. by eapply list_elem_of_lookup_2. }
    specialize (Hel s Hin). rewrite wrap64_small by lia. done.
  - destruct (entries_upd (caches st) i c k s Hc Hs) as (rest & R1 & R2 & _). simpl.
    specialize (R2 (cache_take k j) (slab_take j) eq_refl). intros e'. rewrite R2. setoid_rewrite R1.
    intros [->|He]%elem_of_cons; [exists (mk_entry i (k =? 0) s)|exists e']; rewrite elem_of_cons; auto.
Qed.

Lemma kmalloc_with_stock create n st i c :
  inv st -> n <= 1048576 -> find_class (caches st) 0 n = Some (i, c) -> total_free c <> 0 ->
  exists A st', kmalloc_with create n st = Some (Some A, st') /\ handed st i A (class_size i) st'.
Proof.
  intros Hi Hn Hfc Ht. destruct (find_class_spec _ _ _ _ _ Hfc) as (Hc & _ & _). rewrite Z.sub_0_r in Hc.
  unfold kmalloc_with. rewrite (proj2 (Z.ltb_ge 1048576 n)) by lia. rewrite Hfc. simpl.
  rewrite (proj2 (Z.eqb_neq _ _) Ht). cbn [negb].
  destruct (i_cache st Hi i c Hc) as [_ _ Hf _]. destruct (totals_bound st i c Hi Hc) as [Hb _].
  destruct (zsum_pos free_count (pool c) ltac:(lia)) as (s & Hs & Hfs).
  destruct (first_free_spec (pool c) 0) as (k & s' & Ek & Hk & Hfk); [exists s; split; [done|lia]|].
  rewrite Ek, Z.add_0_l. by apply (take_color_spec st i c k s').
Qed.

(** ** A new slab *)

Lemma clear_bits_spec n i m :
  Forall is_u64 m -> 0 <= i -> i + Z.of_nat n <= 64 * zlen m ->
  Forall is_u64 (clear_bits n i m) /\ zlen (clear_bits n i m) = zlen m /\
  forall b, lbit (clear_bits n i m) b = xorb (lbit m b) ((i <=? b) && (b <? i + Z.of_nat n)).
Proof.
  revert i m. induction n as [|n IH]; intros i m Hm Hi Hn; simpl.
  { split; [done|]. split; [done|]. intros b. bools; try lia; by rewrite xorb_false_r. }
  set (m' := zalter _ _ m).
  assert (Forall is_u64 m') as Hm'.
  { apply Forall_zalter; [done|]. intros. apply lxor_bit_u64; [done|]. apply Z.mod_pos_bound. lia. }
  assert (zlen m' = zlen m) as Hl' by apply zlen_zalter.
  destruct (IH (i + 1) m') as (H1 & H2 & H3); [done|lia|lia|]. split; [done|]. split; [lia|].
  intros b. rewrite H3. unfold m'. rewrite shiftr_6.
  rewrite (lbit_alter _ xorb m i b); [|intros; by apply lxor_bit_spec, Z.mod_pos_bound|by intros []|done|lia].
  destruct (lbit m b); bools; done || lia.
Qed.

Lemma fresh_map_spec count len :
  0 <= count -> len mod 8 = 0 -> count <= 8 * len ->
  Forall is_u64 (fresh_map count len) /\ count <= 64 * zlen (fresh_map count len) /\
  (forall b, 0 <= b < count -> lbit (fresh_map count len) b = false) /\ len = 8 * zlen (fresh_map count len).
Proof.
  intros Hc Hm Hl. unfold fresh_map. set (ones := replicate _ _).
  assert (zlen ones = len / 8) as Ez.
  { unfold zlen, ones. rewrite length_replicate. dlia. }
  destruct (clear_bits_spec (Z.to_nat count) 0 ones) as (H1 & H2 & H3).
  - apply Forall_replicate. unfold is_u64. lia.
  - lia.
  - rewrite Ez. dlia.
  - split; [done|]. split; [rewrite H2, Ez; dlia|]. split; [|rewrite H2, Ez; dlia]. intros b Hb. rewrite H3.
    assert (lbit ones b = true) as ->.
    { apply (full_word ones b b UINT64_MAX); try done; try lia. unfold ones, zlookup.
      rewrite (proj2 (Z.leb_le 0 (b / 64))) by dlia. apply lookup_replicate_2. dlia. }
    bools; done || lia.
Qed.

Lemma inv_frames st f :
  inv st -> ps_inv f -> (forall e, e ∈ entries 0 (caches st) -> backed (e_slab e) = true ->
    ps_frame f (page (e_slab e)) (address (e_slab e) - PAGE_OFFSET)) -> inv (mk_state (caches st) f).
Proof.
  intros [H1 H2 H3 H4] Hf Hfr. constructor; simpl; try done. destruct H3 as [G1 G2 G3 G4 G5 G6]. by constructor.
Qed.

(** What a slab must be to join cache [i]. *)
Record fresh_slab (st : state) (i : Z) (s : Slab) : Prop := {
  f_ok : slab_ok (mk_entry i false s);
  f_backed : backed s = true;
  f_empty : using_count s = 0;
  f_frame : ps_frame (frames st) (page s) (address s - PAGE_OFFSET);
  f_addr : forall e, e ∈ entries 0 (caches st) -> backed (e_slab e) = true -> address (e_slab e) <> address s;
  f_meta : 5 <= i -> self s <> map_at s /\ forall a, (a = self s \/ a = map_at s) ->
    (a ∉ mt st) /\ exists n, n <= 512 /\ bl st a n;
  f_size : 5 <= i -> held (bl st) (self s) sizeof_Slab /\ held (bl st) (map_at s) (color_length s);
}.

Lemma empty_no_block e a n : slab_ok e -> using_count (e_slab e) = 0 -> ~ eblock e a n.
Proof.
  intros Ho Hu (Hb & _ & j & Hj & Hl & _). pose proof (so_using _ Ho) as E. rewrite Hb in E.
  pose proof (zcount_pos (lbit (color_map (e_slab e))) 0 (Z.to_nat (color_count (e_slab e))) j ltac:(lia) Hl). lia.
Qed.

Lemma metas_cons e es a : a ∈ metas (e :: es) <-> a ∈ metas_of e \/ a ∈ metas es.
Proof. unfold metas. by rewrite bind_cons, elem_of_app. Qed.

Lemma metas_of_tail i s a :
  a ∈ metas_of (mk_entry i false s) <-> 5 <= i /\ (a = self s \/ a = map_at s).
Proof.
  unfold metas_of. simpl. destruct (Z.leb_spec 5 i).
  - rewrite elem_of_cons, list_elem_of_singleton. tauto.
  - rewrite elem_of_nil. split; [done|lia].
Qed.

Lemma add_inv st i c s (st' := upd_cache (cache_add s) i st) :
  inv st -> caches st !!z i = Some c -> fresh_slab st i s ->
  inv st' /\ (forall a n, bl st' a n <-> bl st a n) /\
  forall a, a ∈ mt st' <-> a ∈ mt st \/ (5 <= i /\ (a = self s \/ a = map_at s)).
Proof.
  intros Hi Hc [Fo Fb Fe Ff Fa Fm Fz]. pose proof (i_cache st Hi i c Hc) as [C1 C2 C3 C4].
  pose proof (entries_add (caches st) i c s Hc C2) as P.
  assert (forall a n, block (entries 0 (caches st')) a n <-> block (entries 0 (caches st)) a n) as Hbl.
  { intros a n. unfold st'. simpl. rewrite P, block_cons. split; [|tauto].
    intros [He|?]; [|done]. by apply empty_no_block in He. }
  pose proof (metas_of_tail i s) as Hmo.
  assert (forall a, a ∈ metas (entries 0 (caches st')) <-> a ∈ metas (entries 0 (caches st)) \/
    (5 <= i /\ (a = self s \/ a = map_at s))) as Hmt.
  { intros a. transitivity (a ∈ metas (mk_entry i false s :: entries 0 (caches st))).
    - unfold metas, st'. simpl. by rewrite P.
    - rewrite metas_cons, Hmo. tauto. }
  split; [|done]. destruct (totals_bound st i c Hi Hc) as (T1 & T2 & _). destruct Hi as [H1 H2 H3 H4].
  constructor; simpl; [by rewrite zlen_zalter| | |done].
  - intros j c' E. destruct (decide (i = j)) as [<-|]; [|rewrite zlookup_zalter_ne in E by done; by apply H2].
    rewrite zlookup_zalter, Hc in E. simpl in E. injection E as <-.
    pose proof (so_count _ Fo) as Hcc. pose proof (so_free _ Fo) as Hf. simpl in Hcc, Hf. rewrite Fb in Hf.
    constructor; simpl; [done|by destruct (pool c)|rewrite zsum_app; simpl|rewrite zsum_app; simpl; lia].
    rewrite wrap64_small by lia. lia.
  - destruct H3 as [G1 G2 G3 G4 G5 G6]. constructor.
    + rewrite P. by constructor.
    + rewrite P, fmap_cons. apply NoDup_cons. split; [|done]. unfold key at 1. simpl. rewrite Fb.
      intros (e & E & He)%list_elem_of_fmap. unfold key in E. destruct (backed (e_slab e)) eqn:Hb.
      * by apply (Fa e He Hb).
      * pose proof (proj1 (Forall_forall _ _) G1 e He) as Ho. apply so_class in Ho.
        unfold backed in Fb. apply Z.leb_le in Fb. lia.
    + intros e. rewrite P. intros [->|He]%elem_of_cons Hb; [done|by apply G3].
    + unfold metas. rewrite P, bind_cons. apply NoDup_app. split_and!; [|by setoid_rewrite Hmo; intros a [? Ha]; apply Fm|done].
      unfold metas_of. simpl. destruct (Z.leb_spec 5 i); [|constructor].
      destruct (Fm ltac:(done)) as [Hne _]. apply NoDup_cons. rewrite list_elem_of_singleton. split; [done|apply NoDup_singleton].
    + change (zalter (cache_add s) i (caches st)) with (caches st'). intros a. rewrite Hmt. setoid_rewrite Hbl. intros [Ha|[H5 Ha]]; [by apply G5|by apply Fm].
    + change (zalter (cache_add s) i (caches st)) with (caches st'). unfold held in *. setoid_rewrite Hbl. intros e. unfold st'. simpl. rewrite P.
      intros [->|He]%elem_of_cons Hh H5; [by apply Fz|by apply G6].
Qed.

(** ** kmalloc *)

Lemma class_cases i : 0 <= i < 16 ->
  i = 0 \/ i = 1 \/ i = 2 \/ i = 3 \/ i = 4 \/ i = 5 \/ i = 6 \/ i = 7 \/ i = 8 \/ i = 9 \/ i = 10 \/
  i = 11 \/ i = 12 \/ i = 13 \/ i = 14 \/ i = 15.
Proof. lia. Qed.

(** The number of objects of a new slab of class [i], and the class test of
    the code. *)
Definition new_count (i : Z) : Z :=
  if i <? 5 then (PAGE_2M_SIZE - PAGE_2M_SIZE / class_size i / 8 - sizeof_Slab) / class_size i
  else PAGE_2M_SIZE / class_size i.

Lemma class_facts i (n := class_size i) (count := new_count i) :
  0 <= i < 16 ->
  bool_decide (n ∈ [32; 64; 128; 256; 512]) = (i <? 5) /\
  bool_decide (n ∈ [1024; 2048; 4096; 8192; 16384; 32768; 65536; 131072; 262144; 524288; 1048576]) = negb (i <? 5) /\
  0 < count <= 65536 /\ count * n <= PAGE_2M_SIZE /\ map_length count mod 8 = 0 /\ count <= 8 * map_length count /\
  (5 <= i -> 0 < map_length count <= 256) /\
  (i < 5 -> count * n + sizeof_Slab + PAGE_2M_SIZE / n / 8 <= PAGE_2M_SIZE /\
     map_length count <= PAGE_2M_SIZE / n / 8 <= 8192 /\ 0 < PAGE_2M_SIZE / n / 8).
Proof.
  intros Hi. unfold n, count.
  destruct (class_cases i Hi) as [->|[->|[->|[->|[->|[->|[->|[->|[->|[->|[->|[->|[->|[->|[->| ->]]]]]]]]]]]]]]];
    split_and!; try (vm_compute; reflexivity); try (vm_compute; discriminate);
    intros; try lia; split_and!; vm_compute; reflexivity || discriminate.
Qed.

Lemma new_slab_ok i slab pg phys map (s := mk_slab slab pg 0 (new_count i) (Phy_To_Virt phys)
    (map_length (new_count i)) (new_count i) map (fresh_map (new_count i) (map_length (new_count i)))) :
  0 <= i < 16 -> 0 <= phys -> phys + PAGE_2M_SIZE <= 2 ^ 47 -> phys mod PAGE_2M_SIZE = 0 ->
  (i < 5 -> slab = Phy_To_Virt (phys +u PAGE_2M_SIZE -u (sizeof_Slab + PAGE_2M_SIZE / class_size i / 8)) /\
    map = slab +u sizeof_Slab) ->
  slab_ok (mk_entry i false s) /\ backed s = true /\ address s = PAGE_OFFSET + phys.
Proof.
  intros Hi H1 H2 H3 Hplace. destruct (class_facts i Hi) as (_ & _ & Hc & Hfit & Hm & Hl & _ & Hin).
  destruct (fresh_map_spec (new_count i) (map_length (new_count i))) as (F1 & F2 & F3 & F4); [lia|done|done|].
  assert (address s = PAGE_OFFSET + phys) as Ea.
  { simpl. unfold Phy_To_Virt. rewrite wrap64_small by lia. lia. }
  assert (backed s = true) as Hb by (unfold backed; rewrite Ea; apply Z.leb_le; lia).
  assert (zcount (lbit (color_map s)) 0 (Z.to_nat (color_count s)) = 0) as Hz.
  { apply zcount_none. intros b Hb'. apply F3. simpl in *. lia. }
  split; [|done]. constructor; cbn [e_slab e_class e_head]; rewrite ?Hb, ?Hz; try done.
  - simpl. lia.
  - intros _. rewrite Ea. split; [|lia]. dlia.
  - intros _ H5. rewrite Ea. cbn [color_count color_length self map_at s]. destruct (Hplace H5) as [Es Em], (Hin H5) as (I1 & I2 & I3).
    set (b := PAGE_2M_SIZE / class_size i / 8) in *. clearbody b.
    assert (slab = PAGE_OFFSET + phys + PAGE_2M_SIZE - sizeof_Slab - b) as Es'.
    { rewrite Es. unfold Phy_To_Virt. rewrite (wrap64_small (phys + PAGE_2M_SIZE)) by lia.
      rewrite (wrap64_small (phys + PAGE_2M_SIZE - _)), wrap64_small by lia. lia. }
    rewrite Em, wrap64_small by lia. lia.
Qed.

Lemma class_lookup st i : inv st -> 0 <= i < 16 -> exists c, caches st !!z i = Some c /\ size c = class_size i.
Proof.
  intros Hi Hr. destruct (zlookup_in_range (caches st) i) as [c Hc]; [rewrite (i_len st Hi); lia|].
  exists c. split; [done|]. apply (i_cache st Hi i c Hc).
Qed.

(** A request of at most 256 bytes is served by one of the first four
    caches. *)
Lemma small_class st n : inv st -> n <= 256 ->
  exists i c, find_class (caches st) 0 n = Some (i, c) /\ caches st !!z i = Some c /\ 0 <= i <= 3.
Proof.
  intros Hi Hn. destruct (class_lookup st 3 Hi ltac:(lia)) as (c3 & H3 & E3).
  destruct (find_class_some (caches st) 0 n 3 c3 H3) as (i & c & E & Hle); [by rewrite E3|].
  destruct (find_class_spec _ _ _ _ _ E) as (Hc & _ & H0). rewrite Z.sub_0_r in Hc. exists i, c.
  split_and!; done || lia.
Qed.

(** The small classes may run out; then a nested [kmalloc] returns [NULL]. *)
Definition low_stock (st : state) : Prop :=
  exists k c, 0 <= k <= 3 /\ caches st !!z k = Some c /\ total_free c <= 1.

Lemma kmalloc_nested st n :
  inv st -> n <= 256 ->
  (exists i A st', kmalloc_with create_busy n st = Some (Some A, st') /\ 0 <= i <= 3 /\ n <= class_size i /\
     handed st i A (class_size i) st') \/
  (kmalloc_with create_busy n st = Some (None, st) /\
   exists k c, 0 <= k <= 3 /\ caches st !!z k = Some c /\ total_free c = 0).
Proof.
  intros Hi Hn. destruct (small_class st n Hi Hn) as (i & c & Hf & Hc & Hr).
  destruct (decide (total_free c = 0)) as [E|E].
  - right. split; [|by exists i, c]. unfold kmalloc_with. rewrite (proj2 (Z.ltb_ge 1048576 n)) by lia.
    rewrite Hf. simpl. by rewrite E.
  - left. destruct (kmalloc_with_stock create_busy n st i c Hi ltac:(lia) Hf E) as (A & st' & E' & Hh).
    exists i, A, st'. split; [done|]. split; [done|]. split; [|done]. destruct (find_class_spec _ _ _ _ _ Hf) as (Hc' & Hsz & _).
    by rewrite (co_size _ _ (i_cache st Hi i c Hc)) in Hsz.
Qed.

(** What [kmalloc_create] adds for class [i]: the slab and, for a large class,
    the two blocks that hold its metadata. *)
Record created (st : state) (i : Z) (s : Slab) (st' : state) : Prop := {
  c_inv : inv st';
  c_slab : fresh_slab st' i s;
  c_free : 0 < free_count s;
  c_cache : caches st' !!z i = caches st !!z i;
  c_mt : forall a, a ∈ mt st' <-> a ∈ mt st;
  c_old : forall a n, bl st a n -> bl st' a n;
  c_new : forall a n, bl st' a n -> bl st a n \/ (5 <= i /\ (a = self s \/ a = map_at s));
  c_fresh : 5 <= i -> forall a n, (a = self s \/ a = map_at s) -> ~ bl st a n;
}.

Lemma meta_block st a : inv st -> a ∈ mt st -> exists n, n <= 512 /\ bl st a n.
Proof. intros Hi. apply (i_good st Hi). Qed.

(** The slab structure both branches of [kmalloc_create] fill in. *)
Definition new_slab (i slab pg phys map : Z) : Slab :=
  mk_slab slab pg 0 (new_count i) (Phy_To_Virt phys) (map_length (new_count i)) (new_count i) map
    (fresh_map (new_count i) (map_length (new_count i))).

(** After the frame allocation. *)
Lemma new_frame st pg phys f (st1 := mk_state (caches st) f) :
  inv st -> ps_alloc (frames st) = (Some (pg, phys), f) ->
  inv st1 /\ (forall e, e ∈ entries 0 (caches st) -> backed (e_slab e) = true ->
    address (e_slab e) <> PAGE_OFFSET + phys) /\
  forall i slab map, 0 <= i < 16 ->
    (i < 5 -> slab = Phy_To_Virt (phys +u PAGE_2M_SIZE -u (sizeof_Slab + PAGE_2M_SIZE / class_size i / 8)) /\
      map = slab +u sizeof_Slab) ->
    let s := new_slab i slab pg phys map in
    slab_ok (mk_entry i false s) /\ backed s = true /\ address s = PAGE_OFFSET + phys /\
    ps_frame f (page s) (address s - PAGE_OFFSET).
Proof.
  intros Hi Ea. destruct (ps_alloc_some _ _ _ _ (i_frames st Hi) Ea) as (Hf & P1 & P2 & P3 & P4 & P5). split_and!.
  - apply inv_frames; [done|done|]. intros e He Hb. apply P5. left. by apply (g_frames _ _ (i_good st Hi)).
  - intros e He Hb E. apply (P4 (page (e_slab e))). pose proof (g_frames _ _ (i_good st Hi) e He Hb) as Hfr.
    by replace (address (e_slab e) - PAGE_OFFSET) with phys in Hfr by lia.
  - intros i slab map Hr Hpl s. destruct (new_slab_ok i slab pg phys map Hr P1 P2 P3 Hpl) as (H1 & H2 & H3).
    fold (new_slab i slab pg phys map) in H1, H2, H3. fold s in H1, H2, H3.
    split_and!; try done. apply P5. right. split; [done|]. rewrite H3. lia.
Qed.

Lemma create_small st i pg phys f :
  inv st -> 0 <= i < 5 -> ps_alloc (frames st) = (Some (pg, phys), f) ->
  exists s st', kmalloc_create (class_size i) st = Some (Some s, st') /\ created st i s st'.
Proof.
  intros Hi Hr Ea. destruct (new_frame st pg phys f Hi Ea) as (Hi1 & Hfresh & Hs).
  destruct (class_facts i ltac:(lia)) as (Ecl & _ & Hcnt & _). unfold kmalloc_create. rewrite Ea, Ecl.
  rewrite (proj2 (Z.ltb_lt i 5)) by lia.
  set (slab := Phy_To_Virt _). set (map := slab +u sizeof_Slab).
  specialize (Hs i slab map ltac:(lia) ltac:(done)) as (H1 & H2 & H3 & H4).
  exists (new_slab i slab pg phys map), (mk_state (caches st) f). split.
  { unfold new_slab, new_count. by rewrite (proj2 (Z.ltb_lt i 5)) by lia. }
  constructor; try done; try (intros; lia).
  - constructor; try done; [|lia|lia]. intros e He Hb. rewrite H3. by apply Hfresh.
  - simpl. lia.
  - intros a n Hb. by left.
Qed.

(** The state after the two nested allocations. *)
Lemma created_large st st1 st2 st3 i i1 i2 A B s :
  inv st -> caches st1 = caches st -> handed st1 i1 A (class_size i1) st2 -> handed st2 i2 B (class_size i2) st3 ->
  0 <= i1 <= 3 -> 0 <= i2 <= 3 -> 5 <= i < 16 -> self s = A -> map_at s = B -> using_count s = 0 ->
  sizeof_Slab <= class_size i1 -> color_length s <= class_size i2 ->
  0 < free_count s -> slab_ok (mk_entry i false s) -> backed s = true ->
  ps_frame (frames st1) (page s) (address s - PAGE_OFFSET) ->
  (forall e, e ∈ entries 0 (caches st) -> backed (e_slab e) = true -> address (e_slab e) <> address s) ->
  created st i s st3.
Proof.
  intros Hi E1 K1 K2 R1 R2 Hr Es Em Hu L1 L2 Hfr Ho Hb Hps Hne.
  assert (forall a n, bl st1 a n <-> bl st a n) as Hb1 by (intros; unfold bl; by rewrite E1).
  assert (forall a, a ∈ mt st1 <-> a ∈ mt st) as Hm1 by (intros; unfold mt; by rewrite E1).
  assert (B <> A) as HBA.
  { intros ->. apply (h_fresh _ _ _ _ _ K2 (class_size i1)). apply (h_bl _ _ _ _ _ K1). by right. }
  assert (forall n, ~ bl st A n /\ ~ bl st B n) as Hfr'.
  { intros n. rewrite <- !Hb1. split; [apply (h_fresh _ _ _ _ _ K1)|]. intros H.
    apply (h_fresh _ _ _ _ _ K2 n). apply (h_bl _ _ _ _ _ K1). by left. }
  assert (forall a, a ∈ mt st3 <-> a ∈ mt st) as Hmt
    by (intros; by rewrite (h_mt _ _ _ _ _ K2), (h_mt _ _ _ _ _ K1)).
  assert (forall a n, bl st3 a n <-> (bl st a n \/ (a = A /\ n = class_size i1)) \/ (a = B /\ n = class_size i2)) as Hbl
    by (intros; by rewrite (h_bl _ _ _ _ _ K2), (h_bl _ _ _ _ _ K1), Hb1).
  assert (forall k, 0 <= k <= 3 -> class_size k <= 512) as Hcs.
  { intros k Hk. unfold class_size. pose proof (Z.pow_le_mono_r 2 k 3 ltac:(lia) ltac:(lia)). lia. }
  constructor; subst A B.
  - apply (h_inv _ _ _ _ _ K2).
  - constructor; try done.
    + by rewrite (h_frames _ _ _ _ _ K2), (h_frames _ _ _ _ _ K1).
    + intros e He Hbk. destruct (h_slabs _ _ _ _ _ K2 e He) as (e2 & He2 & Ea2).
      destruct (h_slabs _ _ _ _ _ K1 e2 He2) as (e1 & He1 & Ea1). rewrite E1 in He1. rewrite Ea2, Ea1.
      apply Hne; [done|]. unfold backed in *. by rewrite <- Ea1, <- Ea2.
    + intros _. split; [done|]. intros a Ha. split.
      * rewrite Hmt. intros Hin. destruct (meta_block st a Hi Hin) as (n & _ & Hn).
        destruct (Hfr' n) as [FA FB]. by destruct Ha as [->| ->].
      * destruct Ha as [->| ->]; [exists (class_size i1)|exists (class_size i2)]; (split; [by apply Hcs|]); apply Hbl; auto.
    + intros _. split; [exists (class_size i1)|exists (class_size i2)]; (split; [done|]); apply Hbl; auto.
  - done.
  - rewrite (h_other _ _ _ _ _ K2), (h_other _ _ _ _ _ K1), E1 by lia. done.
  - done.
  - intros a n H. apply Hbl. auto.
  - intros a n [[H|[-> _]]|[-> _]]%Hbl; [by left|right; split; [lia|auto]..].
  - intros _ a n Ha. destruct (Hfr' n) as [FA FB]. by destruct Ha as [->| ->].
Qed.

Lemma create_large st i pg phys f :
  inv st -> 5 <= i < 16 -> ps_alloc (frames st) = (Some (pg, phys), f) ->
  (exists s st', kmalloc_create (class_size i) st = Some (Some s, st') /\ created st i s st') \/
  (kmalloc_create (class_size i) st = None /\ low_stock st).
Proof.
  intros Hi Hr Ea. destruct (new_frame st pg phys f Hi Ea) as (Hi1 & Hfresh & Hs).
  destruct (class_facts i ltac:(lia)) as (Ecl & Ecl' & Hcnt & _ & _ & _ & Hml & _). unfold kmalloc_create.
  assert (PAGE_2M_SIZE / class_size i = new_count i) as En
    by (unfold new_count; by rewrite (proj2 (Z.ltb_ge i 5)) by lia).
  rewrite Ea, Ecl, Ecl', En, (proj2 (Z.ltb_ge i 5)) by lia. cbn [negb]. specialize (Hml ltac:(lia)).
  set (st1 := mk_state (caches st) f) in *.
  destruct (kmalloc_nested st1 sizeof_Slab Hi1 ltac:(lia)) as [(i1 & A & st2 & E1 & R1 & L1 & K1)|[E1 (k & c & Hk & Hc & H0)]];
    rewrite E1; simpl.
  2: { right. split; [done|]. exists k, c. split_and!; try done; lia. }
  destruct (kmalloc_nested st2 (map_length (new_count i)) (h_inv _ _ _ _ _ K1) ltac:(lia))
    as [(i2 & B & st3 & E2 & R2 & L2 & K2)|[E2 (k & c & Hk & Hc & H0)]]; rewrite E2; simpl.
  2: { right. split; [done|]. destruct (decide (k = i1)) as [->|Hne].
       - destruct (class_lookup st1 i1 Hi1 ltac:(lia)) as (c1 & Hc1 & _).
         destruct (h_same _ _ _ _ _ K1 c1 Hc1) as (c' & Hc' & Et). exists i1, c1. split_and!; [lia|lia|done|].
         assert (c' = c) by congruence. subst. lia.
       - exists k, c. rewrite (h_other _ _ _ _ _ K1 k Hne) in Hc. split_and!; try done; lia. }
  left. exists (new_slab i A pg phys B), st3. split; [done|].
  specialize (Hs i A B ltac:(lia) ltac:(lia)) as (H1 & H2 & H3 & H4).
  eapply (created_large st st1 st2 st3 i i1 i2 A B); try done; try lia.
  - simpl. lia.
  - intros e He Hb. rewrite H3. by apply Hfresh.
Qed.

(** The blocks callers own: those handed out that do not hold metadata. *)
Definition owned (st : state) (a n : Z) : Prop := bl st a n /\ a ∉ mt st.

Lemma kmalloc_new st i c n :
  inv st -> 0 <= i < 16 -> n <= 1048576 -> find_class (caches st) 0 n = Some (i, c) -> total_free c = 0 ->
  match ps_alloc (frames st) with
  | (None, _) => kmalloc n st = Some (None, st)
  | (Some _, _) =>
    (exists s st1 A st', kmalloc n st = Some (Some A, st') /\ created st i s st1 /\
       handed (upd_cache (cache_add s) i st1) i A (class_size i) st') \/
    (kmalloc n st = None /\ low_stock st)
  end.
Proof.
  intros Hi Hr Hn Hf Ht. destruct (find_class_spec _ _ _ _ _ Hf) as (Hc & _ & _). rewrite Z.sub_0_r in Hc.
  unfold kmalloc, kmalloc_with. rewrite (proj2 (Z.ltb_ge 1048576 n)), Hf by lia. simpl.
  rewrite Ht, Z.eqb_refl. cbn [negb]. rewrite (co_size _ _ (i_cache st Hi i c Hc)).
  assert (match ps_alloc (frames st) with
    | (None, _) => kmalloc_create (class_size i) st = Some (None, st)
    | (Some _, _) => (exists s st', kmalloc_create (class_size i) st = Some (Some s, st') /\ created st i s st') \/
        (kmalloc_create (class_size i) st = None /\ low_stock st) end) as Hcr.
  { destruct (ps_alloc (frames st)) as [[[pg phys]|] f] eqn:Ea.
    - destruct (Z.lt_ge_cases i 5); [left; eapply create_small; done || lia|eapply create_large; done || lia].
    - unfold kmalloc_create. rewrite Ea. apply ps_alloc_none in Ea as ->; [by destruct st|apply Hi]. }
  destruct (ps_alloc (frames st)) as [[?|] ?]; [|by rewrite Hcr].
  destruct Hcr as [(s & st1 & -> & Hcr)|[-> Hlow]]; [left|by right]. simpl.
  assert (caches st1 !!z i = Some c) as Hc1 by by rewrite (c_cache _ _ _ _ Hcr).
  destruct (add_inv st1 i c s (c_inv _ _ _ _ Hcr) Hc1 (c_slab _ _ _ _ Hcr)) as (Hi2 & _ & _).
  destruct (take_color_spec (upd_cache (cache_add s) i st1) i (cache_add s c) (zlen (pool c)) s) as (A & st' & E & Hh).
  - done.
  - simpl. by rewrite zlookup_zalter, Hc1.
  - apply zlookup_snoc_r.
  - pose proof (c_free _ _ _ _ Hcr). lia.
  - exists s, st1, A, st'. done.
Qed.

(** A new slab leaves the owned blocks as they were. *)
Lemma created_owned st i c s st1 :
  inv st -> caches st !!z i = Some c -> created st i s st1 ->
  forall a n, owned (upd_cache (cache_add s) i st1) a n <-> owned st a n.
Proof.
  intros Hi Hc Hcr. rewrite <- (c_cache _ _ _ _ Hcr) in Hc.
  destruct (add_inv st1 i c s (c_inv _ _ _ _ Hcr) Hc (c_slab _ _ _ _ Hcr)) as (_ & Hbl & Hmt).
  intros a n. unfold owned. rewrite Hbl, Hmt, (c_mt _ _ _ _ Hcr). split.
  - intros [Hb Hno]. destruct (c_new _ _ _ _ Hcr a n Hb) as [?|?]; tauto.
  - intros [Hb Hno]. split; [by apply (c_old _ _ _ _ Hcr)|]. intros [?|[H5 Ha]]; [done|].
    by apply (c_fresh _ _ _ _ Hcr H5 a n Ha).
Qed.

Lemma handed_owned st i A m st' :
  inv st -> handed st i A m st' -> forall a n, owned st' a n <-> owned st a n \/ (a = A /\ n = m).
Proof.
  intros Hi Hh a n. unfold owned. rewrite (h_bl _ _ _ _ _ Hh), (h_mt _ _ _ _ _ Hh). split; [tauto|].
  intros [?|[-> ->]]; [tauto|]. split; [by right|]. intros (k & _ & Hk)%meta_block; [|done].
  by apply (h_fresh _ _ _ _ _ Hh k).
Qed.

Lemma handed_disjoint st i A m st' b k :
  handed st i A m st' -> bl st b k -> A + m <= b \/ b + k <= A.
Proof.
  intros Hh Hb. pose proof (i_good _ (h_inv _ _ _ _ _ Hh)) as Hg.
  assert (bl st' b k) as Hb' by (apply (h_bl _ _ _ _ _ Hh); by left).
  assert (bl st' A m) as HA by (apply (h_bl _ _ _ _ _ Hh); by right).
  pose proof (block_start_size _ _ _ _ Hg Hb'). pose proof (block_start_size _ _ _ _ Hg HA).
  destruct (Z.le_gt_cases (A + m) b); [by left|]. destruct (Z.le_gt_cases (b + k) A); [by right|].
  exfalso. destruct (block_disjoint _ _ A m b k (Z.max A b) Hg HA Hb') as [-> _]; [lia|lia|].
  by apply (h_fresh _ _ _ _ _ Hh k).
Qed.

(** No block a caller owns overlaps the metadata of a slab. *)
Lemma owned_off_spans st a n e b k :
  inv st -> owned st a n -> e ∈ entries 0 (caches st) -> (b, k) ∈ spans e -> a + n <= b \/ b + k <= a.
Proof.
  intros Hi [Hbl Hmt] He Hs. pose proof (i_good st Hi) as Hg. pose proof (proj1 (Forall_forall _ _) (g_ok _ _ Hg)) as Hok.
  pose proof (block_start_size _ _ _ _ Hg Hbl) as Hn. pose proof (Hok e He) as Hoe.
  unfold spans in Hs. destruct (e_head e) eqn:Hh; [by apply elem_of_nil in Hs|].
  destruct (Z.le_gt_cases 5 (e_class e)) as [H5|H5].
  - destruct (g_meta_size _ _ Hg e He Hh H5) as [Hs1 Hs2].
    assert (held (bl st) b k /\ b ∈ mt st) as [(m & Hk & Hb) Hbm].
    { split; [apply elem_of_cons in Hs as [[= -> ->]|[= -> ->]%list_elem_of_singleton]; done|].
      apply list_elem_of_bind. exists e. split; [|done]. unfold metas_of. rewrite Hh, (proj2 (Z.leb_le 5 _) H5). set_solver. }
    pose proof (block_start_size _ _ _ _ Hg Hb) as Hm.
    destruct (Z.le_gt_cases (a + n) b); [by left|]. destruct (Z.le_gt_cases (b + m) a); [right; lia|]. exfalso.
    destruct (block_disjoint _ _ a n b m (Z.max a b) Hg Hbl Hb) as [-> _]; [lia|lia|done].
  - destruct (so_inside _ Hoe Hh H5) as (I1 & I2 & I3). pose proof (so_length _ Hoe) as Hlen.
    assert (backed (e_slab e) = true) as Hbk by (destruct (backed (e_slab e)) eqn:E; [done|by rewrite (so_head _ Hoe E) in Hh]).
    destruct (so_addr _ Hoe Hbk) as [Ha1 Ha2]. destruct Hbl as (e' & He' & Hb'). pose proof (Hok e' He') as Hoe'.
    assert (address (e_slab e) + color_count (e_slab e) * class_size (e_class e) <= b /\ b + k <= address (e_slab e) + PAGE_2M_SIZE) as [B1 B2].
    { unfold zlen in Hlen. apply elem_of_cons in Hs as [[= -> ->]|[= -> ->]%list_elem_of_singleton]; lia. }
    destruct (eblock_frame e' a n Hoe' Hb') as (F1 & F2 & _). destruct (Z.eq_dec (address (e_slab e)) (address (e_slab e'))) as [E|Hna].
    + assert (e = e') as <- by (eapply good_entry_eq; try done; apply Hb'). destruct Hb' as (_ & -> & j & Hj & _ & ->). left. nia.
    + destruct (so_addr _ Hoe' (proj1 Hb')) as [Ha1' _].
      assert (0 <= color_count (e_slab e) * class_size (e_class e)).
      { pose proof (so_count _ Hoe). pose proof (class_size_pos (e_class e) ltac:(pose proof (so_class _ Hoe); lia)). nia. }
      clear - F1 F2 B1 B2 Ha1 Ha1' Hna H. dlia.
Qed.

Lemma kmalloc_cases n st :
  inv st -> n <= 1048576 ->
  match kmalloc n st with
  | Some (Some A, st') =>
      inv st' /\ exists m, n <= m /\ (forall a k, owned st' a k <-> owned st a k \/ (a = A /\ k = m)) /\
        (forall b k, bl st b k -> A + m <= b \/ b + k <= A)
  | Some (None, st') => st' = st /\ (ps_alloc (frames st)).1 = None
  | None => low_stock st
  end.
Proof.
  intros Hi Hsm.
  destruct (class_lookup st 15 Hi ltac:(lia)) as (c15 & H15 & E15).
  destruct (find_class_some (caches st) 0 n 15 c15 H15) as (i & c & Hf & Hle); [by rewrite E15|].
  destruct (find_class_spec _ _ _ _ _ Hf) as (Hc & Hsz & H0). rewrite Z.sub_0_r in Hc.
  rewrite (co_size _ _ (i_cache st Hi i c Hc)) in Hsz.
  destruct (decide (total_free c = 0)) as [Ht|Ht].
  - pose proof (kmalloc_new st i c n Hi ltac:(lia) Hsm Hf Ht) as H.
    destruct (ps_alloc (frames st)) as [[?|] ?]; [|by rewrite H].
    destruct H as [(s & st1 & A & st' & -> & Hcr & Hh)|[-> ?]]; [|done].
    assert (caches st1 !!z i = Some c) as Hc1 by by rewrite (c_cache _ _ _ _ Hcr).
    destruct (add_inv st1 i c s (c_inv _ _ _ _ Hcr) Hc1 (c_slab _ _ _ _ Hcr)) as (Hi2 & Hbl2 & _).
    split; [apply (h_inv _ _ _ _ _ Hh)|]. exists (class_size i). split; [done|]. split.
    + intros a k. rewrite (handed_owned _ _ _ _ _ Hi2 Hh), (created_owned st i c s st1 Hi Hc Hcr). done.
    + intros b k Hb. eapply handed_disjoint; [exact Hh|]. apply Hbl2, (c_old _ _ _ _ Hcr), Hb.
  - destruct (kmalloc_with_stock kmalloc_create n st i c Hi Hsm Hf Ht) as (A & st' & E & Hh).
    unfold kmalloc. rewrite E. split; [apply (h_inv _ _ _ _ _ Hh)|]. exists (class_size i). split; [done|].
    split; [by apply (handed_owned st i)|]. intros b k Hb. by eapply handed_disjoint.
Qed.

(** C2: [kmalloc] hands out memory nobody else has.  Requests above 1 MiB are
    refused.  Otherwise a successful call returns a block at least as large as
    the request that overlaps no block handed out before, adds exactly that
    block to those the callers own, and keeps the invariant (counters, maps,
    frames and slab metadata agree).  The block overlaps neither the structure
    nor the bitmap of any slab that [kmalloc_create] made, whether these are in
    blocks of their own or at the end of the slab's frame.  [NULL] is returned, without effect, only
    when no frame is left; and the call goes through a null pointer only when
    one of the four smallest caches is down to its last object. *)
Theorem kmalloc_correct n st :
  inv st ->
  if 1048576 <? n then kmalloc n st = Some (None, st)
  else match kmalloc n st with
  | Some (Some A, st') =>
      inv st' /\ exists m, n <= m /\ (forall a k, owned st' a k <-> owned st a k \/ (a = A /\ k = m)) /\
        (forall b k, bl st b k -> A + m <= b \/ b + k <= A) /\
        forall e b k, e ∈ entries 0 (caches st') -> (b, k) ∈ spans e -> A + m <= b \/ b + k <= A
  | Some (None, st') => st' = st /\ (ps_alloc (frames st)).1 = None
  | None => low_stock st
  end.
Proof.
  intros Hi. destruct (Z.ltb_spec 1048576 n) as [Hbig|Hsm].
  { unfold kmalloc, kmalloc_with. by rewrite (proj2 (Z.ltb_lt 1048576 n)) by lia. }
  pose proof (kmalloc_cases n st Hi Hsm) as H. destruct (kmalloc n st) as [[[A|] st']|]; [|done..].
  destruct H as (Hi' & m & Hm & Ho & Hd). split; [done|]. exists m. split_and!; try done.
  intros e b k He Hs. apply (owned_off_spans st' A m e); try done. apply Ho. by right.
Qed.

(** ** kfree *)

Lemma find_in_pool_spec p k0 base :
  match find_in_pool p k0 base with
  | Some (k, s) => p !!z (k - k0) = Some s /\ address s = base
  | None => Forall (fun s => address s <> base) p
  end.
Proof.
  revert k0. induction p as [|x p IH]; intros k0; simpl; [constructor|].
  destruct (Z.eqb_spec (address x) base); [by rewrite Z.sub_diag|].
  specialize (IH (k0 + 1)). destruct (find_in_pool p (k0 + 1) base) as [[k s]|]; [|by constructor].
  destruct IH as [IH ?]. split; [|done]. pose proof (zlookup_some_range _ _ _ IH). unfold zlookup in *.
  destruct (Z.leb_spec 0 (k - (k0 + 1))), (Z.leb_spec 0 (k - k0)); try lia.
  by replace (Z.to_nat (k - k0)) with (S (Z.to_nat (k - (k0 + 1)))) by lia.
Qed.

Lemma find_slab_spec cs i0 base :
  match find_slab cs i0 base with
  | Some (i, k, c, s) => cs !!z (i - i0) = Some c /\ pool c !!z k = Some s /\ address s = base
  | None => forall e, e ∈ entries i0 cs -> address (e_slab e) <> base
  end.
Proof.
  revert i0. induction cs as [|c cs IH]; intros i0; simpl; [by intros e ?%elem_of_nil|].
  pose proof (find_in_pool_spec (pool c) 0 base) as Hp. destruct (find_in_pool (pool c) 0 base) as [[k s]|].
  - rewrite Z.sub_diag. rewrite Z.sub_0_r in Hp. done.
  - specialize (IH (i0 + 1)). destruct (find_slab cs (i0 + 1) base) as [[[[i k] c'] s]|].
    + destruct IH as [IH ?]. split; [|done]. pose proof (zlookup_some_range _ _ _ IH). unfold zlookup in *.
      destruct (Z.leb_spec 0 (i - (i0 + 1))), (Z.leb_spec 0 (i - i0)); try lia.
      by replace (Z.to_nat (i - i0)) with (S (Z.to_nat (i - (i0 + 1)))) by lia.
    + intros e [He|He]%elem_of_app; [|by apply IH]. unfold entries_of in He. destruct (pool c) as [|h t]; [by apply elem_of_nil in He|].
      apply Forall_cons in Hp as [Hh Ht]. rewrite Forall_forall in Ht.
      apply elem_of_cons in He as [->|(x & -> & Hx)%list_elem_of_fmap]; [done|]. by apply Ht.
Qed.

(** The lookup finds the slab of any address inside a slab's frame. *)
Lemma find_slab_frame st e x :
  inv st -> e ∈ entries 0 (caches st) -> backed (e_slab e) = true ->
  address (e_slab e) <= x < address (e_slab e) + PAGE_2M_SIZE ->
  exists k c, find_slab (caches st) 0 (page_base x) = Some (e_class e, k, c, e_slab e) /\
    caches st !!z (e_class e) = Some c /\ pool c !!z k = Some (e_slab e) /\ e_head e = (k =? 0).
Proof.
  intros Hi He Hb Hx. pose proof (proj1 (Forall_forall _ _) (g_ok _ _ (i_good st Hi)) e He) as Ho.
  destruct (so_addr _ Ho Hb) as [Ha Hr]. pose proof Hb as Hb2. unfold backed in Hb2. apply Z.leb_le in Hb2.
  assert (page_base x = address (e_slab e)) as -> by (apply page_base_in; lia).
  pose proof (find_slab_spec (caches st) 0 (address (e_slab e))) as Hf.
  destruct (find_slab (caches st) 0 (address (e_slab e))) as [[[[i k] c] s]|].
  - destruct Hf as (Hc & Hs & Hes). rewrite Z.sub_0_r in Hc. pose proof (slab_elem st i c k s Hc Hs) as He'.
    assert (e = mk_entry i (k =? 0) s) as ->.
    { eapply good_entry_eq; [apply (i_good st Hi)|done|done|done| |done]. simpl. unfold backed in *. by rewrite Hes. }
    by exists k, c.
  - by destruct (Hf e He).
Qed.

(** An object's index from any address inside it. *)
Lemma eblock_index e a n x :
  slab_ok e -> eblock e a n -> a <= x < a + n ->
  exists j w, wrap32 ((x -u address (e_slab e)) / class_size (e_class e)) = j /\
    0 <= j < color_count (e_slab e) /\ a = address (e_slab e) + class_size (e_class e) * j /\
    lbit (color_map (e_slab e)) j = true /\ color_map (e_slab e) !!z (j / 64) = Some w.
Proof.
  intros Ho Hb Hx. destruct (eblock_base e a n x Ho Hb Hx) as [_ Hr]. destruct Hb as (Hbk & -> & j & Hj & Hl & ->).
  destruct (so_map _ Ho) as [Hm1 Hm2], (so_count _ Ho) as [Hc1 Hc2]. pose proof (so_addr _ Ho Hbk) as [_ Ha].
  unfold backed in Hbk. apply Z.leb_le in Hbk. pose proof (class_size_pos (e_class e) ltac:(apply so_class in Ho; lia)).
  destruct (zlookup_in_range (color_map (e_slab e)) (j / 64) ltac:(dlia)) as [w Ew]. exists j, w.
  split_and!; try done; try lia. assert (address (e_slab e) <= x) by nia. rewrite wrap64_small by lia.
  assert ((x - address (e_slab e)) / class_size (e_class e) = j) as ->.
  { symmetry. apply (Z.div_unique_pos _ _ _ (x - address (e_slab e) - class_size (e_class e) * j)); [nia|lia]. }
  unfold wrap32. apply Z.mod_small. lia.
Qed.

(** An empty slab that is not a head leaves its cache. *)
Lemma zsum_delete {A} (f : A -> Z) l k x : l !!z k = Some x -> zsum f (delete (Z.to_nat k) l) = zsum f l - f x.
Proof. intros (l1 & l2 & -> & <- & _ & Hd)%zlookup_split. rewrite Hd, !zsum_app. simpl. lia. Qed.

Lemma drop_inv st i c k s (st' := upd_cache (cache_drop k s) i st) :
  inv st -> caches st !!z i = Some c -> pool c !!z k = Some s -> k <> 0 -> using_count s = 0 ->
  inv st' /\ (forall a n, bl st' a n <-> bl st a n) /\
  (exists rest, entries 0 (caches st) ≡ₚ mk_entry i false s :: rest /\ entries 0 (caches st') ≡ₚ rest).
Proof.
  intros Hi Hc Hs Hk Hu. pose proof (slab_elem_ok st i c k s Hi Hc Hs) as Ho.
  destruct (entries_upd (caches st) i c k s Hc Hs) as (rest & P1 & _ & P2).
  specialize (P2 (cache_drop k s) Hk eq_refl). rewrite (proj2 (Z.eqb_neq k 0) Hk) in P1, Ho.
  pose proof (good_perm _ _ _ P1 (i_good st Hi)) as Hg.
  assert (backed s = true) as Hb.
  { destruct (backed s) eqn:E; [done|]. by pose proof (so_head _ Ho E). }
  assert (forall a n, block rest a n <-> block (entries 0 (caches st)) a n) as Hbl.
  { intros a n. rewrite P1, block_cons. split; [by right|]. intros [He|?]; [|done]. by apply empty_no_block in He. }
  split; [|split; [|by exists rest]].
  2: { intros a n. unfold bl, st'. simpl. by rewrite P2, Hbl. }
  destruct (totals_bound st i c Hi Hc) as (T1 & T2 & Tel). destruct Hi as [H1 H2 H3 H4].
  constructor; simpl; [by rewrite zlen_zalter| | |done].
  - intros j c' E. destruct (decide (i = j)) as [<-|]; [|rewrite zlookup_zalter_ne in E by done; by apply H2].
    rewrite zlookup_zalter, Hc in E. simpl in E. injection E as <-. destruct (H2 i c Hc) as [C1 C2 C3 C4].
    pose proof (so_free _ Ho) as Hf. simpl in Hf. rewrite Hb in Hf.
    assert (s ∈ pool c) as Hin by (unfold zlookup in Hs; destruct (0 <=? k); [by eapply list_elem_of_lookup_2|done]).
    destruct (Tel s Hin) as (F1 & F2 & F3).
    constructor; simpl; rewrite ?(zsum_delete _ _ k s Hs); [done| |rewrite wrap64_small by lia; lia|lia].
    destruct (pool c) as [|h t]; [done|]. pose proof (zlookup_some_range _ _ _ Hs).
    by replace (Z.to_nat k) with (S (Z.to_nat (k - 1))) by lia.
  - eapply good_perm; [symmetry; exact P2|]. destruct Hg as [G1 G2 G3 G4 G5 G6]. apply Forall_cons in G1 as [_ G1].
    rewrite fmap_cons in G2. apply NoDup_cons in G2 as [_ G2]. constructor; try done.
    + intros e He. apply G3, elem_of_cons. by right.
    + unfold metas in *. rewrite bind_cons in G4. by apply NoDup_app in G4 as (_ & _ & ?).
    + intros a Ha. setoid_rewrite Hbl. setoid_rewrite P1. apply G5, metas_cons. by right.
    + intros e He. unfold held in *. setoid_rewrite Hbl. setoid_rewrite P1. apply G6, elem_of_cons. by right.
Qed.

(** From [st] to [st'] the owned blocks that start at the addresses [gone] were
    returned.  Frames that hold no slab are left alone. *)
Record returned (st : state) (gone : list Z) (st' : state) : Prop := {
  r_inv : inv st';
  r_owned : forall b k, owned st' b k <-> owned st b k /\ b ∉ gone;
  r_frames : forall q b, ps_frame (frames st) q b ->
    (forall e, e ∈ entries 0 (caches st) -> backed (e_slab e) = true -> address (e_slab e) <> PAGE_OFFSET + b) ->
    ps_frame (frames st') q b;
  r_slabs : forall e', e' ∈ entries 0 (caches st') -> exists e, e ∈ entries 0 (caches st) /\
    address (e_slab e') = address (e_slab e);
}.

Lemma returned_trans st g st1 g' st2 :
  returned st g st1 -> returned st1 g' st2 -> returned st (g ++ g') st2.
Proof.
  intros [A1 A2 A3 A4] [B1 B2 B3 B4]. constructor; [done|..].
  - intros b k. rewrite B2, A2, elem_of_app. tauto.
  - intros q b Hf Hno. apply B3; [by apply A3|]. intros e' He' Hb'. destruct (A4 e' He') as (e & He & E). rewrite E.
    apply Hno; [done|]. unfold backed in *. by rewrite <- E.
  - intros e'' H. destruct (B4 e'' H) as (e' & He' & E'). destruct (A4 e' He') as (e & He & E). exists e.
    split; [done|congruence].
Qed.

Lemma give_returned st i c k s j (A := address s + class_size i * j) (st' := upd_cache (cache_give k j) i st) :
  inv st -> caches st !!z i = Some c -> pool c !!z k = Some s -> backed s = true ->
  0 <= j < color_count s -> lbit (color_map s) j = true -> A ∉ mt st -> returned st [A] st'.
Proof.
  intros Hi Hc Hs Hb Hj Hl HA. destruct (give_inv st i c k s j Hi Hc Hs Hb Hj Hl HA) as (H1 & H2 & H3).
  constructor; [done|..].
  - intros b n. unfold owned. rewrite list_elem_of_singleton. fold st' in H2, H3. rewrite H2, H3. tauto.
  - done.
  - destruct (entries_upd (caches st) i c k s Hc Hs) as (rest & R1 & R2 & _). unfold st'. simpl.
    specialize (R2 (cache_give k j) (slab_give j) eq_refl). intros e'. rewrite R2. setoid_rewrite R1.
    intros [->|He]%elem_of_cons; [exists (mk_entry i (k =? 0) s)|exists e']; rewrite elem_of_cons; auto.
Qed.

(** The frame of a slab that left its cache goes back. *)
Lemma free_frame st p a :
  inv st -> ps_frame (frames st) p a ->
  (forall e, e ∈ entries 0 (caches st) -> backed (e_slab e) = true -> address (e_slab e) <> PAGE_OFFSET + a) ->
  inv (mk_state (caches st) (ps_free p (frames st))) /\
  forall q b, b <> a -> ps_frame (frames st) q b -> ps_frame (ps_free p (frames st)) q b.
Proof.
  intros Hi Hf Hno. destruct (ps_free_spec _ _ _ (i_frames st Hi) Hf) as [H1 H2].
  assert (forall q b, b <> a -> ps_frame (frames st) q b -> ps_frame (ps_free p (frames st)) q b) as Hk
    by (intros; by apply H2).
  split; [|done]. apply inv_frames; [done|done|]. intros e He Hb. apply Hk; [|by apply (g_frames _ _ (i_good st Hi))].
  specialize (Hno e He Hb). lia.
Qed.

(** What leaves with an empty slab. *)
Lemma dropped_facts st i s rest :
  inv st -> entries 0 (caches st) ≡ₚ mk_entry i false s :: rest ->
  slab_ok (mk_entry i false s) -> backed s = true ->
  ps_frame (frames st) (page s) (address s - PAGE_OFFSET) /\
  (forall e, e ∈ rest -> backed (e_slab e) = true -> address (e_slab e) <> address s) /\
  (forall a, a ∈ mt st <-> a ∈ metas rest \/ (5 <= i /\ (a = self s \/ a = map_at s))) /\
  (5 <= i -> self s <> map_at s /\ forall a, (a = self s \/ a = map_at s) ->
     (a ∉ metas rest) /\ exists n, n <= 512 /\ bl st a n).
Proof.
  intros Hi P Ho Hb. destruct (good_perm _ _ _ P (i_good st Hi)) as [G1 G2 G3 G4 G5 _].
  pose proof (metas_of_tail i s) as Hmo.
  split_and!.
  - apply (G3 (mk_entry i false s)); [apply elem_of_cons; by left|done].
  - intros e He Hbe E. rewrite fmap_cons in G2. apply NoDup_cons in G2 as [G2 _]. apply G2, list_elem_of_fmap.
    exists e. split; [|done]. unfold key. simpl. by rewrite Hb, Hbe.
  - intros a. transitivity (a ∈ metas (mk_entry i false s :: rest)); [unfold mt, metas; by rewrite P|].
    rewrite metas_cons, Hmo. tauto.
  - intros H5. unfold metas in G4. rewrite bind_cons in G4. apply NoDup_app in G4 as (N1 & N2 & _).
    split.
    + unfold metas_of in N1. simpl in N1. rewrite (proj2 (Z.leb_le 5 i) H5) in N1. simpl in N1.
      apply NoDup_cons in N1 as [N1 _]. rewrite list_elem_of_singleton in N1. done.
    + intros a Ha. split; [apply N2, Hmo; done|]. unfold bl. setoid_rewrite P. apply G5, metas_cons. left. by apply Hmo.
Qed.

(** The recursive call returns a block of metadata. *)
Definition returns (rec : Z -> state -> option (Z * state)) : Prop :=
  forall st b m, inv st -> owned st b m -> m <= 512 -> exists r st', rec b st = Some (r, st') /\ returned st [b] st'.

(** [s] has left cache [i] and nothing else has changed. *)
Record dropped (st : state) (i : Z) (s : Slab) (st1 : state) : Prop := {
  d_inv : inv st1;
  d_bl : forall a n, bl st1 a n <-> bl st a n;
  d_mt : forall a, a ∈ mt st <-> a ∈ mt st1 \/ (5 <= i /\ (a = self s \/ a = map_at s));
  d_meta : 5 <= i -> self s <> map_at s /\ forall a, (a = self s \/ a = map_at s) ->
    (a ∉ mt st1) /\ exists n, n <= 512 /\ bl st a n;
  d_frames : frames st1 = frames st;
  d_frame : ps_frame (frames st1) (page s) (address s - PAGE_OFFSET);
  d_sub : forall e, e ∈ entries 0 (caches st1) -> e ∈ entries 0 (caches st);
  d_ne : forall e, e ∈ entries 0 (caches st1) -> backed (e_slab e) = true ->
    address (e_slab e) <> PAGE_OFFSET + (address s - PAGE_OFFSET);
  d_other : forall b, (forall e, e ∈ entries 0 (caches st) -> backed (e_slab e) = true ->
    address (e_slab e) <> PAGE_OFFSET + b) -> b <> address s - PAGE_OFFSET;
}.

Lemma drop_dropped st i c k s :
  inv st -> caches st !!z i = Some c -> pool c !!z k = Some s -> k <> 0 -> using_count s = 0 ->
  dropped st i s (upd_cache (cache_drop k s) i st).
Proof.
  intros Hi Hc Hs Hk Hu. destruct (drop_inv st i c k s Hi Hc Hs Hk Hu) as (Hi1 & Hbl & rest & P1 & P2).
  set (st1 := upd_cache (cache_drop k s) i st) in *.
  pose proof (slab_elem_ok st i c k s Hi Hc Hs) as Ho. rewrite (proj2 (Z.eqb_neq k 0) Hk) in Ho.
  assert (backed s = true) as Hb by (destruct (backed s) eqn:E; [done|by pose proof (so_head _ Ho E)]).
  destruct (dropped_facts st i s rest Hi P1 Ho Hb) as (Hfr & Hne & Hmt & Hmeta).
  assert (forall a, a ∈ mt st1 <-> a ∈ metas rest) as Hmt1 by (intros; unfold mt, metas; by rewrite P2).
  constructor; try done.
  - intros a. by rewrite Hmt, Hmt1.
  - intros H5. destruct (Hmeta H5) as [Hm1 Hm2]. split; [done|]. intros a Ha. rewrite Hmt1. by apply Hm2.
  - intros e. rewrite P2, P1, elem_of_cons. auto.
  - intros e He Hbe. rewrite P2 in He. replace (_ + _) with (address s) by lia. by apply Hne.
  - intros b Hno ->. apply (Hno (mk_entry i false s)); [rewrite P1; apply elem_of_cons; by left|done|simpl; lia].
Qed.

Lemma release_small st i s st1 :
  dropped st i s st1 -> i < 5 -> returned st [] (mk_state (caches st1) (ps_free (page s) (frames st1))).
Proof.
  intros [Hi1 Hbl Hmt _ Ef Hfr Hsub Hne Hother] H5.
  destruct (free_frame st1 (page s) (address s - PAGE_OFFSET) Hi1 Hfr Hne) as [Hi2 Hfr2].
  constructor; [done|..].
  - intros b n. transitivity (owned st1 b n); [done|]. unfold owned. rewrite Hbl, Hmt, elem_of_nil.
    split; [intros [? ?]; split; [split; [done|]|tauto]|tauto]. intros [?|?]; [done|lia].
  - intros q b Hq Hno. apply Hfr2; [by apply Hother|by rewrite Ef].
  - intros e He. exists e. split; [by apply Hsub|done].
Qed.

Lemma release_large rec st i s st1 :
  dropped st i s st1 -> 5 <= i -> returns rec ->
  exists r st2, rec (map_at s) st1 = Some (r, st2) /\
    exists r' st', rec (self s) (mk_state (caches st2) (ps_free (page s) (frames st2))) = Some (r', st') /\
      returned st [] st'.
Proof.
  intros [Hi1 Hbl Hmt Hmeta Ef Hfr Hsub Hne1 Hother] H5 Hrec. destruct (Hmeta H5) as [Hnsm Hm].
  destruct (Hm (self s)) as (M1 & n1 & N1 & B1); [by left|]. destruct (Hm (map_at s)) as (M2 & n2 & N2 & B2); [by right|].
  destruct (Hrec st1 (map_at s) n2) as (r & st2 & E2 & R2); [done|split; [by apply Hbl|done]|done|].
  exists r, st2. split; [done|].
  assert (forall e, e ∈ entries 0 (caches st2) -> exists e1, e1 ∈ entries 0 (caches st1) /\
    address (e_slab e) = address (e_slab e1) /\ backed (e_slab e) = backed (e_slab e1)) as Hs2.
  { intros e He. destruct (r_slabs _ _ _ R2 e He) as (e1 & He1 & E). exists e1. split; [done|]. split; [done|].
    unfold backed. by rewrite E. }
  destruct (free_frame st2 (page s) (address s - PAGE_OFFSET) (r_inv _ _ _ R2)) as [Hi3 Hfr3].
  { by apply (r_frames _ _ _ R2). }
  { intros e He Hbe. destruct (Hs2 e He) as (e1 & He1 & -> & Eb). apply Hne1; [done|congruence]. }
  set (st3 := mk_state (caches st2) _) in *.
  assert (owned st3 (self s) n1) as O3.
  { change (owned st2 (self s) n1). apply (r_owned _ _ _ R2). rewrite list_elem_of_singleton.
    split; [|done]. split; [by apply Hbl|done]. }
  destruct (Hrec st3 (self s) n1 Hi3 O3 N1) as (r' & st4 & E4 & R4). exists r', st4. split; [done|].
  constructor; [apply R4|..].
  - intros b n. rewrite (r_owned _ _ _ R4). change (owned st3 b n) with (owned st2 b n).
    rewrite (r_owned _ _ _ R2), !list_elem_of_singleton, elem_of_nil. unfold owned. rewrite Hbl, Hmt. tauto.
  - intros q b Hq Hno. apply (r_frames _ _ _ R4).
    + apply Hfr3; [by apply Hother|]. apply (r_frames _ _ _ R2); [by rewrite Ef|]. intros e He. by apply Hno, Hsub.
    + intros e He Hbe. destruct (Hs2 e He) as (e1 & He1 & -> & Eb). apply Hno; [by apply Hsub|congruence].
  - intros e He. destruct (r_slabs _ _ _ R4 e He) as (e2 & He2 & E). destruct (Hs2 e2 He2) as (e1 & He1 & E1 & _).
    exists e1. split; [by apply Hsub|congruence].
Qed.

Lemma kfree_with_spec rec st a n x :
  inv st -> owned st a n -> a <= x < a + n -> (512 < n -> returns rec) ->
  exists st', kfree_with rec x st = Some (1, st') /\ returned st [a] st'.
Proof.
  intros Hi [(e & He & Hblk) Hno] Hx Hrec.
  pose proof (proj1 (Forall_forall _ _) (g_ok _ _ (i_good st Hi)) e He) as Ho.
  destruct (eblock_frame e a n Ho Hblk) as (F1 & F2 & F3). destruct (eblock_base e a n x Ho Hblk Hx) as [_ Hxr].
  destruct (eblock_index e a n x Ho Hblk Hx) as (j & w & Ej & Hj & -> & Hl & Hw). destruct Hblk as (Hb & -> & _).
  destruct (find_slab_frame st e x Hi He Hb ltac:(lia)) as (k & c & Ef & Hc & Hs & Eh).
  pose proof (co_size _ _ (i_cache st Hi _ c Hc)) as Esz. pose proof (so_class _ Ho) as Hcl.
  destruct (class_facts (e_class e) Hcl) as (Ecl & _).
  assert (i5 : 5 <= e_class e -> returns rec).
  { intros H5. apply Hrec. unfold class_size. pose proof (Z.pow_le_mono_r 2 5 (e_class e) ltac:(lia) H5). lia. }
  unfold kfree_with. rewrite (proj2 (Z.eqb_neq x 0)) by lia. rewrite Ef, Esz, Ej, shiftr_6, Hw. cbn [mbind option_bind].
  rewrite (lbit_mask _ j w Hw) by lia. rewrite Hl. cbn [negb].
  pose proof (give_returned st (e_class e) c k (e_slab e) j Hi Hc Hs Hb Hj Hl Hno) as R1.
  set (st1 := upd_cache _ _ st) in *. assert (caches st1 !!z e_class e = Some (cache_give k j c)) as Hc1.
  { unfold st1. simpl. by rewrite zlookup_zalter, Hc. }
  assert (pool (cache_give k j c) !!z k = Some (slab_give j (e_slab e))) as Hs1.
  { simpl. by rewrite zlookup_zalter, Hs. }
  rewrite Hc1. cbn [mbind option_bind]. rewrite Hs1. cbn [mbind option_bind]. change (size (cache_give k j c)) with (size c). rewrite Esz, Ecl.
  set (s1 := slab_give j (e_slab e)) in *. destruct (_ && _ && _) eqn:Ec; [|exists st1; done].
  apply andb_true_iff in Ec as [[Eu%Z.eqb_eq _]%andb_true_iff Ek%negb_true_iff%Z.eqb_neq].
  pose proof (drop_dropped st1 _ _ k s1 (r_inv _ _ _ R1) Hc1 Hs1 Ek Eu) as Hd.
  destruct (Z.ltb_spec (e_class e) 5) as [H5|H5].
  - eexists. split; [done|]. apply (returned_trans st [_] st1 []); [done|]. by eapply release_small.
  - destruct (release_large rec _ _ _ _ Hd H5 (i5 H5)) as (r & st2 & -> & r' & st' & E4 & R4). simpl in E4 |- *. rewrite E4.
    exists st'. split; [done|]. by apply (returned_trans st [_] st1 []).
Qed.

Lemma kfree_spec st a n x :
  inv st -> owned st a n -> a <= x < a + n -> exists st', kfree x st = Some (1, st') /\ returned st [a] st'.
Proof.
  intros Hi Ho Hx. apply (kfree_with_spec kfree_small st a n x); try done. intros _ st1 b m Hi1 Ho1 Hm.
  destruct Ho1 as [Hb Hno]. pose proof (block_start_size _ _ _ _ (i_good _ Hi1) Hb).
  destruct (kfree_with_spec (fun _ _ => None) st1 b m b) as (st' & E & R); [done|done|lia|lia|].
  by exists 1, st'.
Qed.

Lemma ksize_spec st a n x : inv st -> bl st a n -> a <= x < a + n -> ksize x st = n.
Proof.
  intros Hi (e & He & Hblk) Hx.
  pose proof (proj1 (Forall_forall _ _) (g_ok _ _ (i_good st Hi)) e He) as Ho.
  destruct (eblock_frame e a n Ho Hblk) as (F1 & F2 & F3). destruct (eblock_base e a n x Ho Hblk Hx) as [_ Hxr].
  destruct Hblk as (Hb & -> & _).
  destruct (find_slab_frame st e x Hi He Hb ltac:(lia)) as (k & c & Ef & Hc & _ & _).
  unfold ksize. rewrite (proj2 (Z.eqb_neq x 0)) by lia. rewrite Ef. apply (i_cache st Hi _ c Hc).
Qed.

(** C3: [kfree] of any address inside a block a caller owns returns 1, takes
    exactly that block from the owned ones and keeps the invariant, also when
    it empties a slab and so gives back a frame and, through two nested calls,
    the blocks of the slab's metadata.  An address whose slab has that object
    free (a double free) is reported and changes nothing, as does the null
    pointer. *)
Theorem kfree_correct st :
  inv st ->
  (forall a n x, owned st a n -> a <= x < a + n -> exists st', kfree x st = Some (1, st') /\ inv st' /\
     forall b k, owned st' b k <-> owned st b k /\ b <> a) /\
  (forall e j x, e ∈ entries 0 (caches st) -> backed (e_slab e) = true -> 0 <= j < color_count (e_slab e) ->
     lbit (color_map (e_slab e)) j = false ->
     0 <= x - (address (e_slab e) + class_size (e_class e) * j) < class_size (e_class e) ->
     kfree x st = Some (1, st)) /\
  kfree 0 st = Some (0, st).
Proof.
  intros Hi. split_and!; [| |done].
  - intros a n x Ho Hx. destruct (kfree_spec st a n x Hi Ho Hx) as (st' & E & [R1 R2 _ _]). exists st'.
    split; [done|]. split; [done|]. intros b k. by rewrite R2, list_elem_of_singleton.
  - intros e j x He Hb Hj Hl Hx. pose proof (proj1 (Forall_forall _ _) (g_ok _ _ (i_good st Hi)) e He) as Ho.
    pose proof (class_size_pos (e_class e) ltac:(apply so_class in Ho; lia)). pose proof (so_fit _ Ho).
    destruct (so_map _ Ho) as [_ Hm], (so_count _ Ho) as [_ Hcnt], (so_addr _ Ho Hb) as [_ Hr].
    pose proof Hb as Hb2. unfold backed in Hb2. apply Z.leb_le in Hb2. assert (0 <= class_size (e_class e) * j) by nia.
    assert (class_size (e_class e) * j + class_size (e_class e) <= PAGE_2M_SIZE) by nia.
    destruct (find_slab_frame st e x Hi He Hb ltac:(lia)) as (k & c & Ef & Hc & _ & _).
    destruct (zlookup_in_range (color_map (e_slab e)) (j / 64) ltac:(dlia)) as [w Hw].
    unfold kfree, kfree_with. rewrite (proj2 (Z.eqb_neq x 0)) by lia. rewrite Ef, (co_size _ _ (i_cache st Hi _ c Hc)).
    rewrite wrap64_small by lia.
    assert ((x - address (e_slab e)) / class_size (e_class e) = j) as ->.
    { symmetry. apply (Z.div_unique_pos _ _ _ (x - address (e_slab e) - class_size (e_class e) * j)); lia. }
    unfold wrap32. rewrite (Z.mod_small j), shiftr_6, Hw by lia. cbn [mbind option_bind].
    rewrite (lbit_mask _ j w Hw) by lia. by rewrite Hl.
Qed.

(** What [kmalloc] returned can be measured and given back: [ksize]
    reports at least the size asked for, and [kfree] restores the set of owned
    blocks. *)
Theorem kmalloc_kfree_roundtrip n st A st1 :
  inv st -> n <= 1048576 -> kmalloc n st = Some (Some A, st1) ->
  n <= ksize A st1 /\ exists st2, kfree A st1 = Some (1, st2) /\ inv st2 /\
    forall b k, owned st2 b k <-> owned st b k.
Proof.
  intros Hi Hn E. pose proof (kmalloc_cases n st Hi Hn) as H. rewrite E in H.
  destruct H as (Hi1 & m & Hm & Ho & Hd). assert (owned st1 A m) as HA by (apply Ho; by right).
  pose proof (block_start_size _ _ _ _ (i_good _ Hi1) (proj1 HA)).
  rewrite (ksize_spec st1 A m A Hi1 (proj1 HA)) by lia. split; [done|].
  destruct (kfree_spec st1 A m A Hi1 HA ltac:(lia)) as (st2 & E2 & [R1 R2 _ _]). exists st2.
  split; [done|]. split; [done|]. intros b k. rewrite R2, Ho, list_elem_of_singleton. split; [tauto|].
  intros Hb. split; [by left|]. intros ->. pose proof (block_start_size _ _ _ _ (i_good _ Hi) (proj1 Hb)).
  destruct (Hd A k (proj1 Hb)); lia.
Qed.

(** A large-object slab needs two small blocks for its metadata.  When the
    cache is empty, a frame is available but the 128-byte cache has no free
    object, [kmalloc] does not fail: it writes through the null pointer that
    the nested [kmalloc] returned. *)
Theorem kmalloc_large_null_dereference n st i c c2 p f :
  inv st -> n <= 1048576 -> find_class (caches st) 0 n = Some (i, c) -> 5 <= i -> total_free c = 0 ->
  caches st !!z 2 = Some c2 -> total_free c2 = 0 -> ps_alloc (frames st) = (Some p, f) ->
  kmalloc n st = None.
Proof.
  intros Hi Hn Hf H5 Ht Hc2 Ht2 Ea. destruct (find_class_spec _ _ _ _ _ Hf) as (Hc & _ & _). rewrite Z.sub_0_r in Hc.
  unfold kmalloc, kmalloc_with. rewrite (proj2 (Z.ltb_ge 1048576 n)), Hf by lia. cbn [mbind option_bind].
  rewrite Ht, (co_size _ _ (i_cache st Hi i c Hc)). cbn [negb Z.eqb].
  assert (0 <= i < 16) as Hr by (apply zlookup_some_range in Hc; rewrite (i_len st Hi) in Hc; lia).
  destruct (class_facts i Hr) as (Ecl & Ecl' & _). rewrite (proj2 (Z.ltb_ge i 5)) in Ecl, Ecl' by lia.
  unfold kmalloc_create. rewrite Ea. destruct p as [pg phys]. rewrite Ecl, Ecl'. cbn [negb].
  destruct (find_class_some (caches st) 0 sizeof_Slab 2 c2 Hc2) as (k & c' & E & Hk).
  { rewrite (co_size _ _ (i_cache st Hi 2 c2 Hc2)). vm_compute. discriminate. }
  destruct (find_class_spec _ _ _ _ _ E) as (Hck & Hsz & H0). rewrite Z.sub_0_r in Hck.
  rewrite (co_size _ _ (i_cache st Hi k c' Hck)) in Hsz.
  assert (k = 2) as ->.
  { destruct (Z.eq_dec k 0) as [->|]; [vm_compute in Hsz; congruence|].
    destruct (Z.eq_dec k 1) as [->|]; [vm_compute in Hsz; congruence|]. lia. }
  assert (c' = c2) as -> by congruence.
  unfold kmalloc_with. cbn [caches]. rewrite E. cbn [mbind option_bind]. rewrite Ht2. reflexivity.
Qed.

End allocator.

(** ** The frame allocator implements [PageSource] *)

Definition frame_alloc (s : Pmm.state) : option (Z * Z) * Pmm.state :=
  match Pmm.alloc_pages Pmm.ZONE_NORMAL 1 s with
  | (Some i, s) =>
    let s := Pmm.page_init i Pmm.PG_Kernel s in
    ((fun p => (i, Pmm.phy_address p)) <$> Pmm.pages_struct s !!z i, s)
  | (None, s) => (None, s)
  end.
Definition frame_free (i : Z) (s : Pmm.state) : Pmm.state := Pmm.free_pages (Some i) 1 (Pmm.page_clean i s).
Definition frame_drop (i : Z) (s : Pmm.state) : Pmm.state := Pmm.free_pages (Some i) 1 s.

(** The frame [i] is RAM at physical address [a]. *)
Definition frame_at (s : Pmm.state) (i a : Z) : Prop :=
  exists p zi, Pmm.pages_struct s !!z i = Some p /\ Pmm.zone_struct p = Some zi /\ Pmm.phy_address p = a.
Definition frame_used (s : Pmm.state) (i a : Z) : Prop := frame_at s i a /\ Pmm.bit s i = true.
(** All RAM lies where the kernel's direct map reaches it. *)
Definition frame_inv (s : Pmm.state) : Prop :=
  Pmm.wf s /\ forall zi z, Pmm.zones_struct s !!z zi = Some z -> Pmm.zone_end_address z <= 2 ^ 47.

Lemma frame_at_shape s s' i a : Pmm.same_shape s s' -> frame_at s' i a <-> frame_at s i a.
Proof.
  intros Hss. pose proof (Pmm.ss_pages _ _ Hss i) as Hp. unfold frame_at.
  destruct (Pmm.pages_struct s' !!z i) as [p'|], (Pmm.pages_struct s !!z i) as [p|]; simpl in Hp; try done.
  - injection Hp as E1 E2. split; intros (q & zi & [= <-] & Hz & Ha).
    + exists p, zi. split; [done|]. split; congruence.
    + exists p', zi. split; [done|]. split; congruence.
Qed.

Lemma frame_inv_shape s s' : Pmm.same_shape s s' -> Pmm.wf s' -> frame_inv s -> frame_inv s'.
Proof.
  intros Hss Hw [_ Hz]. split; [done|]. intros zi z E.
  destruct (Pmm.fmap_some_inv _ _ _ _ (Pmm.ss_zones _ _ Hss zi) E) as (y & Ey & Ec).
  specialize (Hz zi y Ey). unfold Pmm.zone_core in Ec. simplify_eq. lia.
Qed.

Lemma frame_at_zone s i a :
  frame_inv s -> frame_at s i a -> exists zi z, Pmm.zones_struct s !!z zi = Some z /\ Pmm.in_zone z i /\
    0 <= a /\ a + PAGE_2M_SIZE <= 2 ^ 47 /\ a mod PAGE_2M_SIZE = 0 /\
    a = Pmm.zone_start_address z + (i - Pmm.pages_group z) * PAGE_2M_SIZE.
Proof.
  intros [Hw Hb] (p & zi & Ep & Es & <-). destruct (Pmm.wf_page s Hw i p zi Ep Es) as (z & Ez & Hi).
  destruct (Pmm.wf_zone s Hw _ _ Ez) as [H1 H2 _ H3]. destruct (H3 i Hi) as (q & Eq & _ & Hq).
  assert (q = p) as -> by congruence. specialize (Hb zi z Ez). unfold Pmm.in_zone in *. exists zi, z.
  split_and!; try done; try lia. dlia.
Qed.

Lemma frame_at_inj s i j a : frame_inv s -> frame_at s i a -> frame_at s j a -> i = j.
Proof.
  intros Hi (p & zi & Ep & Es & Ea) (q & zj & Eq & Es' & Ea').
  eapply (Pmm.frame_address_inj s i j p q); try done; [apply Hi|congruence].
Qed.

Lemma frame_alloc_spec s r s' :
  frame_inv s -> frame_alloc s = (r, s') ->
  match r with
  | Some (p, a) => frame_inv s' /\ frame_at s p a /\ Pmm.bit s p = false /\
      (forall q b, frame_at s' q b <-> frame_at s q b) /\ forall j, Pmm.bit s' j = Pmm.bit s j || (p =? j)
  | None => s' = s
  end.
Proof.
  intros Hi. pose proof (proj1 Hi) as Hw. unfold frame_alloc.
  destruct (Pmm.alloc_pages Pmm.ZONE_NORMAL 1 s) as [[i|] s1] eqn:E.
  2: { intros [= <- <-]. pose proof (Pmm.alloc_pages_spec Pmm.ZONE_NORMAL 1 s ltac:(lia)) as Hs. rewrite E in Hs. apply Hs. }
  destruct (Pmm.alloc_one_occupy _ s i s1 Hw E) as (lo & hi & zi & z & _ & _ & Hz & Hin & Hb & ->).
  set (s1 := Pmm.occupy _ i zi s). destruct (Pmm.page_init_shape i Pmm.PG_Kernel s1) as (Hss2 & Hbm & Hbb & _).
  assert (Pmm.wf s1) as Hw1 by by eapply Pmm.occupy_wf.
  assert (Pmm.same_shape s s1) as Hss1 by by apply Pmm.same_shape_upd.
  pose proof (Pmm.same_shape_trans _ _ _ Hss1 Hss2) as Hss. set (s2 := Pmm.page_init i Pmm.PG_Kernel s1) in *.
  pose proof (Pmm.wf_frame_range s zi z i Hw Hz Hin) as [_ Hrange].
  assert (forall j, Pmm.bit s2 j = Pmm.bit s j || (i =? j)) as Hbits.
  { intros j. transitivity (Pmm.bit s1 j); [unfold Pmm.bit, Pmm.word; by rewrite Hbm, Hbb|].
    apply Pmm.bit_occupy; [apply Hw|done]. }
  destruct (Pmm.wf_zone s Hw _ _ Hz) as [_ _ _ Hpg]. destruct (Hpg i Hin) as (pg & Ep & Es & _).
  destruct (Pmm.fmap_some_inv _ _ _ _ (eq_sym (Pmm.ss_pages _ _ Hss i)) Ep) as (pg2 & Ep2 & Ec).
  rewrite Ep2. simpl. intros [= <- <-]. split_and!; try done.
  - eapply frame_inv_shape; [exact Hss| |done]. by apply Pmm.page_init_wf.
  - exists pg, zi. unfold Pmm.page_core in Ec. simplify_eq. done.
  - intros. by apply frame_at_shape.
Qed.

Lemma page_alloc_some s p a s' :
  frame_inv s -> frame_alloc s = (Some (p, a), s') ->
  frame_inv s' /\ 0 <= a /\ a + PAGE_2M_SIZE <= 2 ^ 47 /\ a mod PAGE_2M_SIZE = 0 /\
  (forall q, ~ frame_used s q a) /\ forall q b, frame_used s' q b <-> frame_used s q b \/ (q = p /\ b = a).
Proof.
  intros Hi E. destruct (frame_alloc_spec s _ s' Hi E) as (Hi' & Ha & Hb & Hat & Hbits).
  destruct (frame_at_zone s p a Hi Ha) as (zi & z & _ & _ & H1 & H2 & H3 & _). split_and!; try done.
  - intros q [Hq Hbq]. rewrite (frame_at_inj s q p a Hi Hq Ha) in Hbq. congruence.
  - intros q b. unfold frame_used. rewrite Hat, Hbits. destruct (Z.eqb_spec p q) as [<-|Hne].
    + rewrite orb_true_r. split.
      * intros [Hq _]. right. split; [done|].
        destruct Hq as (x & ? & Ex & _ & <-), Ha as (y & ? & Ey & _ & <-). congruence.
      * intros [[? ?]|[_ ->]]; done.
    + rewrite orb_false_r. split; [by left|]. intros [?|[-> _]]; done.
Qed.

Lemma page_alloc_none s s' : frame_inv s -> frame_alloc s = (None, s') -> s' = s.
Proof. intros Hi E. apply (frame_alloc_spec s _ s' Hi E). Qed.

Lemma frame_free_spec s p a :
  frame_inv s -> frame_used s p a ->
  frame_inv (frame_free p s) /\ forall q b, frame_used (frame_free p s) q b <-> frame_used s q b /\ b <> a.
Proof.
  intros Hi [Ha Hb]. pose proof (proj1 Hi) as Hw. unfold frame_free.
  destruct (Pmm.page_clean_shape p s) as (Hss1 & Hbm & Hbb & _). set (s1 := Pmm.page_clean p s) in *.
  assert (Pmm.wf s1) as Hw1 by by apply Pmm.page_clean_wf.
  assert (forall j, Pmm.bit s1 j = Pmm.bit s j) as Hb1 by (intros; unfold Pmm.bit, Pmm.word; by rewrite Hbm, Hbb).
  pose proof Ha as Ha'. rewrite <- (frame_at_shape s s1) in Ha' by done.
  assert (frame_inv s1) as Hi1 by by eapply frame_inv_shape.
  destruct (frame_at_zone s1 p a Hi1 Ha') as (zi & z & Hz & Hin & _).
  destruct (Pmm.wf_zone s1 Hw1 _ _ Hz) as [_ _ _ Hpg]. destruct (Hpg p Hin) as (pg & Ep & Es & _).
  assert (Pmm.free_pages (Some p) 1 s1 = Pmm.release (Pmm.set_attribute 0) p zi s1) as ->.
  { change (Pmm.give_pages 1 p s1 = Pmm.release (Pmm.set_attribute 0) p zi s1). by rewrite (Pmm.give_one_release p pg zi). }
  set (s2 := Pmm.release _ p zi s1). assert (Pmm.same_shape s1 s2) as Hss2 by by apply Pmm.same_shape_upd.
  pose proof (Pmm.wf_frame_range s1 zi z p Hw1 Hz Hin) as [_ Hrange].
  assert (forall j, Pmm.bit s2 j = Pmm.bit s j && negb (p =? j)) as Hbits.
  { intros j. unfold s2. rewrite Pmm.bit_release by (apply Hw1 || done). by rewrite Hb1. }
  split.
  - eapply frame_inv_shape; [exact Hss2| |done]. eapply Pmm.release_wf; try done. by rewrite Hb1.
  - intros q b. unfold frame_used. rewrite (frame_at_shape s1 s2), (frame_at_shape s s1), Hbits by done.
    destruct (Z.eqb_spec p q) as [<-|Hne]; simpl.
    + rewrite andb_false_r. split; [by intros [_ ?]|]. intros [[Hq _] Hne]. destruct Hne.
      destruct Hq as (x & ? & Ex & _ & <-), Ha as (y & ? & Ey & _ & <-). congruence.
    + rewrite andb_true_r. split; [|tauto]. intros [Hq Hbq]. split; [done|]. intros ->.
      apply Hne. by apply (frame_at_inj s p q a).
Qed.

#[export] Instance pmm_pages : PageSource Pmm.state := {|
  ps_alloc := frame_alloc;
  ps_free := frame_free;
  ps_drop := frame_drop;
  ps_inv := frame_inv;
  ps_frame := frame_used;
  ps_alloc_some := page_alloc_some;
  ps_alloc_none := page_alloc_none;
  ps_free_spec := frame_free_spec;
|}.

End Slab.
