(* ===== verification/SlabInit.v ===== *)
(** Boot of the object allocator: [slab_init] (src/kernel/memory/slab.c) on
    the booted frame allocator, and the metadata size formula the aarch64
    arena planner uses (src/kernel/include/memory/slab.h). *)

From stdpp Require Import base tactics numbers option sets list.
From Stdlib Require Import ZArith Lia.
From S2P Require Import Prelude PmmBoot Pmm PmmInit Slab.

Module SlabInit.
Import Slab.
#[local] Existing Instance Slab.pmm_pages.

(** ** The code *)

Definition Virt_To_Phy (a : Z) : Z := a -u PAGE_OFFSET.
(** The descriptor index of a physical address; [None] reads past an empty
    array. *)
Definition Phy_to_2M_Page (s : Pmm.state) (pa : Z) : option Z :=
  p0 ← Pmm.pages_struct s !!z 0; Some (Z.shiftr (pa -u Pmm.phy_address p0) 21).
Definition PAGE_2M_ALIGN (a : Z) : Z := (a +u PAGE_2M_SIZE -u 1) &~ (PAGE_2M_SIZE - 1).

(** The structure of one cache's head and its map, carved from [end_]; the
    fields [page] and [address] keep what memory held ([jp], [ja]). *)
Definition init_cache (jp ja : Z -> Z) (i end_ : Z) : Slab_Cache * Z :=
  let self := end_ in
  let end_ := end_ +u sizeof_Slab +u 80 in
  let n := class_size i in
  let count := PAGE_2M_SIZE / n in
  let len := map_length count in
  let map := end_ in
  let end_ := (end_ +u len +u 80) &~ 7 in
  let free := if i <? 8 then count else 0 in
  (mk_cache n 0 free [mk_slab self (jp i) 0 free (ja i) len count map (fresh_map count len)], end_).

Fixpoint init_caches (jp ja : Z -> Z) (n : nat) (i end_ : Z) : list Slab_Cache * Z :=
  match n with
  | O => ([], end_)
  | S n => let '(c, end_) := init_cache jp ja i end_ in
           let '(cs, end_) := init_caches jp ja n (i + 1) end_ in (c :: cs, end_)
  end.

(** Reserve the frame of descriptor [i] unless it already is; [None] is a
    descriptor without a zone. *)
Definition slab_reserve (i : Z) (s : Pmm.state) : option Pmm.state :=
  if Pmm.bit_used s i then Some s else
  p ← Pmm.pages_struct s !!z i;
  zi ← Pmm.zone_struct p;
  let s := Pmm.upd_zone Pmm.zone_take zi (Pmm.upd_bits (Pmm.bm_set i) s) in
  Some (Pmm.page_init i (Z.lor (Z.lor Pmm.PG_PTable_Mapped Pmm.PG_Kernel_Init) Pmm.PG_Kernel) s).

(** [for (j = ...; j <= i; j++)]: the frames under the metadata. *)
Fixpoint reserve_meta (n : nat) (j : Z) (s : Pmm.state) : option Pmm.state :=
  match n with
  | O => Some s
  | S n => i ← Phy_to_2M_Page s (shl64 j 21); s ← slab_reserve i s; reserve_meta n (j + 1) s
  end.

Definition set_head (pg addr : Z) (c : Slab_Cache) : Slab_Cache :=
  mk_cache (size c) (total_using c) (total_free c)
    (zalter (fun s => mk_slab (self s) pg (using_count s) (free_count s) addr (color_length s)
                        (color_count s) (map_at s) (color_map s)) 0 (pool c)).

(** [for (i = 0; i < 8; i++)]: one frame for each of the first caches. *)
Fixpoint reserve_pools (n : nat) (i addr : Z) (cs : list Slab_Cache) (s : Pmm.state)
  : option (list Slab_Cache * Pmm.state) :=
  match n with
  | O => Some (cs, s)
  | S n =>
    pg ← Phy_to_2M_Page s (Virt_To_Phy addr);
    s ← slab_reserve pg s;
    reserve_pools n (i + 1) (addr +u PAGE_2M_SIZE) (zalter (set_head pg addr) i cs) s
  end.

(** [upper] is [PMMngr_end_of_struct_upper_bound()]; [None] is the fatal halt
    or a fault.  The result is the allocator and the new [end_of_struct]. *)
Definition slab_init (jp ja : Z -> Z) (upper end_of_struct : Z) (s : Pmm.state)
  : option (@state Pmm.state * Z) :=
  let '(cs, end_) := init_caches jp ja 16 0 end_of_struct in
  let i := Z.shiftr (Virt_To_Phy end_) 21 in
  let j := Z.shiftr (PAGE_2M_ALIGN (Virt_To_Phy end_of_struct)) 21 in
  s ← reserve_meta (Z.to_nat (i - j + 1)) j s;
  let slab_page_start := (end_ +u PAGE_2M_SIZE -u 1) &~ (PAGE_2M_SIZE - 1) in
  '(cs, s) ← reserve_pools 8 0 slab_page_start cs s;
  if upper <? end_ then None else Some (mk_state cs s, end_).

(** [slab_layout_compute().meta_bytes] *)
Fixpoint layout_meta (n : nat) (i : Z) : Z :=
  match n with
  | O => 0
  | S n =>
    let entries := PAGE_2M_SIZE / class_size i in
    let bm := (entries / 8 + 7) / 8 * 8 in
    sizeof_Slab + 80 + bm + 80 + layout_meta n (i + 1)
  end.
Definition slab_layout_compute : Z := layout_meta 16 0.

(** ** The caches before any frame is attached *)

Definition head_count (i : Z) : Z := PAGE_2M_SIZE / class_size i.

Lemma head_facts i (count := head_count i) :
  0 <= i < 16 -> 0 < count <= 65536 /\ count * class_size i <= PAGE_2M_SIZE /\
  map_length count mod 8 = 0 /\ 0 < map_length count <= 8192 /\ count <= 8 * map_length count.
Proof.
  intros Hi. unfold count.
  destruct (class_cases i Hi) as [->|[->|[->|[->|[->|[->|[->|[->|[->|[->|[->|[->|[->|[->|[->| ->]]]]]]]]]]]]]]];
    split_and!; vm_compute; reflexivity || discriminate.
Qed.

(** The bytes [slab_init] uses for the caches from [i] on. *)
Fixpoint used_meta (n : nat) (i : Z) : Z :=
  match n with
  | O => 0
  | S n => 232 + map_length (head_count i) + used_meta n (i + 1)
  end.

Lemma used_meta_total : used_meta 16 0 = 20128.
Proof. vm_compute. reflexivity. Qed.

Lemma used_meta_nonneg n i : 0 <= i -> i + Z.of_nat n <= 16 -> 0 <= used_meta n i.
Proof.
  revert i. induction n as [|n IH]; intros i Hi Hn; simpl; [lia|].
  destruct (head_facts i ltac:(lia)) as (_ & _ & _ & ? & _). specialize (IH (i + 1) ltac:(lia) ltac:(lia)). lia.
Qed.

(** The head of cache [i], at address [e]. *)
Definition head (jp ja : Z -> Z) (i e : Z) : Slab :=
  mk_slab e (jp i) 0 (if i <? 8 then head_count i else 0) (ja i) (map_length (head_count i)) (head_count i)
    (e + 152) (fresh_map (head_count i) (map_length (head_count i))).

Lemma init_cache_spec jp ja i e :
  0 <= i < 16 -> 0 <= e -> e mod 8 = 0 -> e + 232 + map_length (head_count i) < U64 ->
  init_cache jp ja i e =
    (mk_cache (class_size i) 0 (if i <? 8 then head_count i else 0) [head jp ja i e],
     e + 232 + map_length (head_count i)).
Proof.
  intros Hi He Hm Hl. destruct (head_facts i Hi) as (_ & _ & Hm8 & Hml & _). unfold init_cache.
  fold (head_count i). rewrite (wrap64_small (e + 72)), (wrap64_small (e + 72 + 80)) by lia.
  rewrite (wrap64_small (e + 72 + 80 + map_length (head_count i))), wrap64_small by lia.
  change 7 with (2 ^ 3 - 1). rewrite land_not_mask by lia. change (2 ^ 3) with 8. unfold head.
  replace (e + 72 + 80) with (e + 152) by lia. f_equal. dlia.
Qed.

Lemma init_caches_spec jp ja n i e :
  0 <= i -> i + Z.of_nat n <= 16 -> 0 <= e -> e mod 8 = 0 -> e + used_meta n i < U64 ->
  exists cs, init_caches jp ja n i e = (cs, e + used_meta n i) /\ zlen cs = Z.of_nat n /\
    forall k c, cs !!z k = Some c -> exists a,
      c = mk_cache (class_size (i + k)) 0 (if i + k <? 8 then head_count (i + k) else 0) [head jp ja (i + k) a].
Proof.
  revert i e. induction n as [|n IH]; intros i e Hi Hn He Hm Hl.
  { exists []. simpl. rewrite Z.add_0_r. split; [done|]. split; [done|]. intros k c Hk.
    apply zlookup_some_range in Hk. unfold zlen in Hk. simpl in Hk. lia. }
  cbn [init_caches used_meta] in *. destruct (head_facts i ltac:(lia)) as (_ & _ & Hm8 & Hml & _).
  pose proof (used_meta_nonneg n (i + 1) ltac:(lia) ltac:(lia)).
  rewrite init_cache_spec by (done || lia).
  destruct (IH (i + 1) (e + 232 + map_length (head_count i))) as (cs & E & Hlen & Hcs); try lia; [dlia|].
  rewrite E. eexists. split; [f_equal; lia|]. split; [unfold zlen in *; simpl; lia|].
  intros k c Hk. apply zlookup_cons_inv in Hk as [[-> ->]|[Hk Hc]].
  - exists e. by rewrite Z.add_0_r.
  - destruct (Hcs (k - 1) c Hc) as (a & ->). exists a. by replace (i + 1 + (k - 1)) with (i + k) by lia.
Qed.

(** ** Reserving frames *)

Section reserve.
(** The zone that holds the metadata and the eight frames, and the first
    descriptor, relative to which frames are indexed. *)
Context (s0 : Pmm.state) (zi : Z) (z : Pmm.Zone) (p0 : Pmm.Page).
Context (Hz : Pmm.zones_struct s0 !!z zi = Some z) (Hp0 : Pmm.pages_struct s0 !!z 0 = Some p0).
Context (Hlow : 0 <= Pmm.phy_address p0)
  (Hbase : Pmm.pages_group z * PAGE_2M_SIZE = Pmm.zone_start_address z - Pmm.phy_address p0).

(** The state has evolved from [s0] by reservations. *)
Record evolved (s : Pmm.state) : Prop := {
  ev_inv : frame_inv s;
  ev_shape : Pmm.same_shape s0 s;
  ev_bits : forall j, Pmm.bit s0 j = true -> Pmm.bit s j = true;
}.

(** The descriptor of an address inside the zone. *)
Definition index (pa : Z) : Z := Pmm.pages_group z + (pa - Pmm.zone_start_address z) / PAGE_2M_SIZE.

Lemma page_of_address s pa :
  evolved s -> pa mod PAGE_2M_SIZE = 0 -> Pmm.zone_start_address z <= pa < Pmm.zone_end_address z ->
  Phy_to_2M_Page s pa = Some (index pa) /\ frame_at s (index pa) pa.
Proof using Hz Hp0 Hlow Hbase.
  intros [[Hw Hb] Hss _] Hm Hr.
  destruct (Pmm.fmap_some_inv _ _ _ _ (eq_sym (Pmm.ss_zones _ _ Hss zi)) Hz) as (z' & Ez & Ec).
  unfold Pmm.zone_core in Ec. injection Ec as E1 E2 E3 E4. destruct (Pmm.wf_zone s Hw _ _ Ez) as [H1 H2 _ H3].
  specialize (Hb zi z' Ez). rewrite E1, E2, E3, E4 in *.
  destruct (Pmm.fmap_some_inv _ _ _ _ (eq_sym (Pmm.ss_pages _ _ Hss 0)) Hp0) as (q & Eq & Ecq).
  unfold Pmm.page_core in Ecq. injection Ecq as _ Eq2. split.
  - unfold Phy_to_2M_Page. rewrite Eq. cbn [mbind option_bind]. rewrite Eq2, wrap64_small by lia.
    rewrite Z.shiftr_div_pow2 by lia. change (2 ^ 21) with PAGE_2M_SIZE. unfold index. f_equal. dlia.
  - destruct (H3 (index pa)) as (p & Ep & Es & Hp); [unfold index; dlia|]. exists p, zi. split; [done|].
    split; [done|]. rewrite Hp. unfold index. dlia.
Qed.

Lemma slab_reserve_spec s i a :
  evolved s -> frame_at s i a ->
  exists s', slab_reserve i s = Some s' /\ evolved s' /\ Pmm.same_shape s s' /\
    forall j, Pmm.bit s' j = Pmm.bit s j || (i =? j).
Proof using.
  intros Hev Ha. destruct Hev as [Hi Hss Hbits]. pose proof (proj1 Hi) as Hw. unfold slab_reserve.
  rewrite Pmm.bit_used_bit. destruct (Pmm.bit s i) eqn:Hb.
  { exists s. split; [done|]. split; [done|]. split; [done|]. intros j. destruct (Z.eqb_spec i j) as [<-|]; [by rewrite Hb|].
    by rewrite orb_false_r. }
  destruct Ha as (p & zj & Ep & Es & Epa). rewrite Ep. cbn [mbind option_bind]. rewrite Es. cbn [mbind option_bind].
  destruct (Pmm.wf_page s Hw i p zj Ep Es) as (y & Ey & Hin).
  assert (Pmm.upd_zone Pmm.zone_take zj (Pmm.upd_bits (Pmm.bm_set i) s) = Pmm.occupy id i zj s) as ->.
  { unfold Pmm.occupy, Pmm.upd_page, Pmm.upd_zone, Pmm.upd_bits. simpl. f_equal. apply zlookup_ext. intros j.
    pose proof (Pmm.zlookup_zalter_fmap id id (Pmm.pages_struct s) i j (fun _ => eq_refl)) as Hid.
    by rewrite !option_fmap_id in Hid. }
  set (s1 := Pmm.occupy id i zj s). set (fl := Z.lor _ _).
  destruct (Pmm.page_init_shape i fl s1) as (Hss2 & Hbm & Hbb & _).
  assert (Pmm.wf s1) as Hw1 by by eapply Pmm.occupy_wf.
  assert (Pmm.same_shape s s1) as Hss1 by by apply Pmm.same_shape_upd.
  pose proof (Pmm.same_shape_trans _ _ _ Hss1 Hss2) as Hss3. pose proof (Pmm.wf_frame_range s zj y i Hw Ey Hin) as [_ Hr].
  assert (forall j, Pmm.bit (Pmm.page_init i fl s1) j = Pmm.bit s j || (i =? j)) as Hb2.
  { intros j. transitivity (Pmm.bit s1 j); [unfold Pmm.bit, Pmm.word; by rewrite Hbm, Hbb|].
    apply Pmm.bit_occupy; [apply Hw|done]. }
  exists (Pmm.page_init i fl s1). split; [done|]. split_and!; try done. constructor.
  - eapply frame_inv_shape; [exact Hss3| |done]. by apply Pmm.page_init_wf.
  - by eapply Pmm.same_shape_trans.
  - intros j Hj. by rewrite Hb2, (Hbits j Hj).
Qed.

Lemma reserve_meta_spec n j s :
  evolved s -> 0 <= j -> Pmm.zone_start_address z <= j * PAGE_2M_SIZE ->
  (j + Z.of_nat n) * PAGE_2M_SIZE <= Pmm.zone_end_address z ->
  exists s', reserve_meta n j s = Some s' /\ evolved s'.
Proof using Hz Hp0 Hlow Hbase.
  revert j s. induction n as [|n IH]; intros j s Hev Hj Hlo Hhi; [by exists s|]. simpl.
  assert (Pmm.zone_end_address z <= 2 ^ 47).
  { destruct Hev as [[_ Hb] Hss _].
    destruct (Pmm.fmap_some_inv _ _ _ _ (eq_sym (Pmm.ss_zones _ _ Hss zi)) Hz) as (z' & Ez & Ec).
    unfold Pmm.zone_core in Ec. injection Ec as _ _ _ E4. specialize (Hb zi z' Ez). lia. }
  assert (shl64 j 21 = j * PAGE_2M_SIZE) as ->.
  { unfold shl64. change (21 mod 64) with 21. rewrite Z.shiftl_mul_pow2, wrap64_small by lia. done. }
  destruct (page_of_address s (j * PAGE_2M_SIZE) Hev) as [-> Hat]; [dlia|lia|]. cbn [mbind option_bind].
  destruct (slab_reserve_spec s _ _ Hev Hat) as (s' & -> & Hev' & _). cbn [mbind option_bind].
  apply IH; try done; lia.
Qed.

Lemma zone_end_bound s : evolved s -> Pmm.zone_end_address z <= 2 ^ 47.
Proof using Hz.
  intros [[_ Hb] Hss _].
  destruct (Pmm.fmap_some_inv _ _ _ _ (eq_sym (Pmm.ss_zones _ _ Hss zi)) Hz) as (z' & Ez & Ec).
  unfold Pmm.zone_core in Ec. injection Ec as _ _ _ E4. specialize (Hb zi z' Ez). lia.
Qed.

(** The frame and the address of the [d]-th cache after the one at [addr]. *)
Definition nth_addr (addr d : Z) : Z := addr + d * PAGE_2M_SIZE.
Definition nth_index (addr d : Z) : Z := index (nth_addr addr d - PAGE_OFFSET).

(** The caches [i .. i+n-1] get consecutive frames from [addr] on. *)
Lemma reserve_pools_spec n i addr cs s :
  evolved s -> 0 <= i -> PAGE_OFFSET <= addr -> addr mod PAGE_2M_SIZE = 0 ->
  Pmm.zone_start_address z <= addr - PAGE_OFFSET ->
  addr - PAGE_OFFSET + Z.of_nat n * PAGE_2M_SIZE <= Pmm.zone_end_address z ->
  addr + Z.of_nat n * PAGE_2M_SIZE < U64 ->
  exists cs' s', reserve_pools n i addr cs s = Some (cs', s') /\ evolved s' /\ Pmm.same_shape s s' /\
    (forall j, Pmm.bit s j = true -> Pmm.bit s' j = true) /\ zlen cs' = zlen cs /\
    (forall k, i <= k < i + Z.of_nat n ->
      cs' !!z k = set_head (nth_index addr (k - i)) (nth_addr addr (k - i)) <$> cs !!z k /\
      frame_at s' (nth_index addr (k - i)) (nth_addr addr (k - i) - PAGE_OFFSET) /\
      Pmm.bit s' (nth_index addr (k - i)) = true) /\
    forall k, ~ i <= k < i + Z.of_nat n -> cs' !!z k = cs !!z k.
Proof using Hz Hp0 Hlow Hbase.
  revert i addr cs s. induction n as [|n IH]; intros i addr cs s Hev Hi Ha Hm Hlo Hhi Htop.
  { exists cs, s. split_and!; try done. intros k Hk. lia. }
  pose proof (zone_end_bound s Hev). cbn [reserve_pools].
  assert (Virt_To_Phy addr = addr - PAGE_OFFSET) as -> by (unfold Virt_To_Phy; rewrite wrap64_small by lia; lia).
  destruct (page_of_address s (addr - PAGE_OFFSET) Hev) as [-> Hat]; [dlia|lia|]. cbn [mbind option_bind].
  destruct (slab_reserve_spec s _ _ Hev Hat) as (s1 & -> & Hev1 & Hss1 & Hb1). cbn [mbind option_bind].
  rewrite (wrap64_small (addr + PAGE_2M_SIZE)) by lia.
  destruct (IH (i + 1) (addr + PAGE_2M_SIZE) (zalter (set_head (index (addr - PAGE_OFFSET)) addr) i cs) s1)
    as (cs' & s' & E & Hev' & Hss' & Hb' & Hl' & Hin & Hout); try done; try lia; [dlia|].
  assert (forall k, nth_addr (addr + PAGE_2M_SIZE) (k - (i + 1)) = nth_addr addr (k - i)) as En
    by (intros; unfold nth_addr; lia).
  assert (nth_addr addr (i - i) = addr) as E0 by (unfold nth_addr; lia).
  exists cs', s'. split; [done|]. split; [done|]. split; [by eapply Pmm.same_shape_trans|].
  split; [intros j Hj; apply Hb'; by rewrite Hb1, Hj|]. split; [by rewrite Hl', zlen_zalter|]. split.
  - intros k Hk. destruct (decide (k = i)) as [->|Hne].
    + unfold nth_index. rewrite !E0. rewrite Hout, zlookup_zalter by lia. split; [done|]. split.
      * rewrite (frame_at_shape s s'); [done|]. by eapply Pmm.same_shape_trans.
      * apply Hb'. by rewrite Hb1, Z.eqb_refl, orb_true_r.
    + destruct (Hin k ltac:(lia)) as (H1 & H2 & H3). unfold nth_index in *. rewrite En in *.
      rewrite zlookup_zalter_ne in H1 by done. done.
  - intros k Hk. rewrite Hout by lia. by rewrite zlookup_zalter_ne by lia.
Qed.

End reserve.

(** ** The booted allocator *)

(** Caches that each hold their head only. *)
Lemma entries_single cs i0 (h : Z -> Slab) :
  (forall k c, cs !!z k = Some c -> pool c = [h (i0 + k)]) ->
  entries i0 cs = (fun k => mk_entry k true (h k)) <$> seqZ i0 (zlen cs).
Proof.
  revert i0. induction cs as [|c cs IH]; intros i0 Hh; [done|].
  assert (zlen (c :: cs) = Z.succ (zlen cs)) as -> by (unfold zlen; simpl; lia).
  rewrite seqZ_cons by (unfold zlen; lia). rewrite Z.pred_succ. cbn [entries fmap list_fmap].
  rewrite (IH (i0 + 1)).
  - unfold entries_of. rewrite (Hh 0 c eq_refl), Z.add_0_r. simpl. by rewrite Z.add_1_r.
  - intros k c' Hk. rewrite (Hh (k + 1) c').
    + by replace (i0 + (k + 1)) with (i0 + 1 + k) by lia.
    + pose proof (zlookup_some_range _ _ _ Hk). unfold zlookup in *.
      destruct (Z.leb_spec 0 k), (Z.leb_spec 0 (k + 1)); try lia.
      by replace (Z.to_nat (k + 1)) with (S (Z.to_nat k)) by lia.
Qed.

(** A head that has its frame, or has none and no free object. *)
Lemma head_ok i s :
  0 <= i < 16 -> using_count s = 0 -> color_count s = head_count i -> color_length s = map_length (head_count i) ->
  color_map s = fresh_map (head_count i) (map_length (head_count i)) ->
  (if backed s then free_count s = head_count i /\ address s mod PAGE_2M_SIZE = 0 /\ address s + PAGE_2M_SIZE <= U64
   else free_count s = 0) ->
  slab_ok (mk_entry i true s).
Proof.
  intros Hi Hu Hc Hcl Hm Hb. destruct (head_facts i Hi) as (F1 & F2 & F3 & F4 & F5).
  destruct (fresh_map_spec (head_count i) (map_length (head_count i))) as (M1 & M2 & M3 & M4); [lia|done|done|].
  assert (zcount (lbit (color_map s)) 0 (Z.to_nat (color_count s)) = 0) as Hz.
  { rewrite Hm, Hc. apply zcount_none. intros b Hb'. apply M3. lia. }
  constructor; cbn [e_slab e_class e_head]; rewrite ?Hz, ?Hu, ?Hc, ?Hm; try done.
  - by destruct (backed s).
  - destruct (backed s); [|done]. lia.
  - intros E. rewrite E in Hb. tauto.
  - congruence.
Qed.

(** What [slab_init] leaves in cache [k], whose frames start at [base]. *)
Record booted_cache (s : Pmm.state) (base k : Z) (c : Slab_Cache) (x : Slab) : Prop := {
  bc_cache : c = mk_cache (class_size k) 0 (if k <? 8 then head_count k else 0) [x];
  bc_using : using_count x = 0;
  bc_free : free_count x = if k <? 8 then head_count k else 0;
  bc_count : color_count x = head_count k;
  bc_length : color_length x = map_length (head_count k);
  bc_map : color_map x = fresh_map (head_count k) (map_length (head_count k));
  bc_addr : if k <? 8 then address x = base + k * PAGE_2M_SIZE /\
      frame_used s (page x) (address x - PAGE_OFFSET) else 0 <= address x < PAGE_OFFSET;
}.

Lemma booted_inv s base cs :
  frame_inv s -> zlen cs = 16 -> PAGE_OFFSET <= base -> base mod PAGE_2M_SIZE = 0 -> base + 8 * PAGE_2M_SIZE < U64 ->
  (forall k c, cs !!z k = Some c -> exists x, booted_cache s base k c x) ->
  inv (mk_state cs s) /\ forall a n, ~ bl (mk_state cs s) a n.
Proof.
  intros Hi Hl Hb1 Hb2 Hb3 Hcs.
  set (dummy := mk_slab 0 0 0 0 0 0 0 0 []).
  set (h := fun k => match cs !!z k with Some c => List.hd dummy (pool c) | None => dummy end).
  assert (forall k, 0 <= k < 16 -> exists c, cs !!z k = Some c /\ booted_cache s base k c (h k)) as Hh.
  { intros k Hk. destruct (zlookup_in_range cs k ltac:(lia)) as [c Hc]. exists c. split; [done|].
    unfold h. rewrite Hc. destruct (Hcs k c Hc) as (x & Hx). by rewrite (bc_cache _ _ _ _ _ Hx) in Hx |- *. }
  assert (entries 0 cs = (fun k => mk_entry k true (h k)) <$> seqZ 0 16) as Ees.
  { rewrite <- Hl. apply entries_single. intros k c Hk. pose proof (zlookup_some_range _ _ _ Hk).
    destruct (Hh k ltac:(lia)) as (c' & Hc' & B). assert (c' = c) as -> by congruence. by rewrite (bc_cache _ _ _ _ _ B). }
  assert (forall k, 0 <= k < 16 -> backed (h k) = (k <? 8)) as Hbk.
  { intros k Hk. destruct (Hh k Hk) as (c & _ & B). pose proof (bc_addr _ _ _ _ _ B) as Ha. unfold backed.
    destruct (Z.ltb_spec k 8); [apply Z.leb_le; lia|apply Z.leb_gt; lia]. }
  assert (forall k, 0 <= k < 16 -> slab_ok (mk_entry k true (h k))) as Hok.
  { intros k Hk. destruct (Hh k Hk) as (c & _ & B). apply head_ok; try apply B; [done|]. rewrite (Hbk k Hk).
    pose proof (bc_addr _ _ _ _ _ B) as Ha. pose proof (bc_free _ _ _ _ _ B) as Hf.
    destruct (k <? 8) eqn:E; [|done]. split; [done|]. destruct Ha as [-> _]. split; [dlia|lia]. }
  assert (forall e, e ∈ entries 0 cs -> exists k, 0 <= k < 16 /\ e = mk_entry k true (h k)) as Hel.
  { intros e. rewrite Ees. intros (k & -> & Hk%elem_of_seqZ)%list_elem_of_fmap. by exists k. }
  assert (metas (entries 0 cs) = []) as Hm.
  { apply elem_of_nil_inv. intros a Ha. unfold metas in Ha. apply list_elem_of_bind in Ha as (e & Ha & He).
    destruct (Hel e He) as (k & _ & ->). by apply elem_of_nil in Ha. }
  split.
  2: { intros a n (e & He & Hbl). destruct (Hel e He) as (k & Hk & ->). eapply empty_no_block; [by apply Hok| |done].
       destruct (Hh k Hk) as (c & _ & B). apply B. }
  constructor; [done| | |done].
  - intros k c Hk. pose proof (zlookup_some_range _ _ _ Hk). destruct (Hh k ltac:(simpl in *; lia)) as (c' & Hc' & B).
    assert (c' = c) as -> by (simpl in *; congruence). rewrite (bc_cache _ _ _ _ _ B).
    constructor; simpl; [done|done|rewrite (bc_free _ _ _ _ _ B); lia|rewrite (bc_using _ _ _ _ _ B); lia].
  - constructor; cbn [caches frames]; rewrite ?Hm; try (by constructor).
    + apply Forall_forall. intros e He. destruct (Hel e He) as (k & Hk & ->). by apply Hok.
    + rewrite Ees, <- list_fmap_compose. apply NoDup_fmap_2_strong; [|apply NoDup_seqZ].
      intros k k' Hk%elem_of_seqZ Hk'%elem_of_seqZ. unfold compose, key. cbn [e_slab e_class]. rewrite !Hbk by lia.
      destruct (Hh k ltac:(lia)) as (? & _ & B), (Hh k' ltac:(lia)) as (? & _ & B').
      pose proof (bc_addr _ _ _ _ _ B). pose proof (bc_addr _ _ _ _ _ B'). bools; lia.
    + intros e He Hb. destruct (Hel e He) as (k & Hk & ->). cbn [e_slab] in *. rewrite (Hbk k Hk) in Hb.
      destruct (Hh k Hk) as (c & _ & B). pose proof (bc_addr _ _ _ _ _ B) as Ha. rewrite Hb in Ha. apply Ha.
    + intros a Ha. by apply elem_of_nil in Ha.
    + intros e He Hd. by destruct (Hel e He) as (k & _ & ->).
Qed.

Lemma align_up_2m x : 0 <= x -> x + PAGE_2M_SIZE < U64 ->
  (x +u PAGE_2M_SIZE -u 1) &~ (PAGE_2M_SIZE - 1) = align_up x PAGE_2M_SIZE.
Proof.
  intros Hx Hl. rewrite (wrap64_small (x + PAGE_2M_SIZE)), wrap64_small by lia.
  change (PAGE_2M_SIZE - 1) with (2 ^ 21 - 1). rewrite land_not_mask by lia. change (2 ^ 21) with PAGE_2M_SIZE.
  unfold align_up. dlia.
Qed.

(** What the caller of [slab_init] provides: the metadata starts at
    [end_of_struct] in the direct map, and the frames from there to the end of
    the eight pool frames are RAM of one zone. *)
Record boot_ok (s : Pmm.state) (end_of_struct : Z) (ja : Z -> Z) (base : Z) : Prop := {
  bo_inv : frame_inv s;
  bo_end : PAGE_OFFSET <= end_of_struct /\ end_of_struct mod 8 = 0;
  bo_base : base = align_up (end_of_struct + 20128) PAGE_2M_SIZE /\ base + 8 * PAGE_2M_SIZE < U64;
  bo_zone : exists zi z p0, Pmm.zones_struct s !!z zi = Some z /\ Pmm.pages_struct s !!z 0 = Some p0 /\
    0 <= Pmm.phy_address p0 /\
    Pmm.pages_group z * PAGE_2M_SIZE = Pmm.zone_start_address z - Pmm.phy_address p0 /\
    Pmm.zone_start_address z <= align_up (end_of_struct - PAGE_OFFSET) PAGE_2M_SIZE /\
    base - PAGE_OFFSET + 8 * PAGE_2M_SIZE <= Pmm.zone_end_address z;
  bo_junk : forall i, 8 <= i < 16 -> 0 <= ja i < PAGE_OFFSET;
}.

Lemma slab_init_spec jp ja upper end0 s base :
  boot_ok s end0 ja base -> end0 + 20128 <= upper ->
  exists st, slab_init jp ja upper end0 s = Some (st, end0 + 20128) /\ inv st /\
    (forall a n, ~ bl st a n) /\
    (forall k c, caches st !!z k = Some c -> total_free c = if k <? 8 then head_count k else 0) /\
    forall j, Pmm.bit s j = true -> Pmm.bit (frames st) j = true.
Proof.
  intros [Hi [He1 He2] [-> Hb] (zi & z & p0 & Hz & Hp0 & Hlow & Hbase & Hlo & Hhi) Hj] Hup.
  set (e := end0 + 20128) in *. set (base := align_up e PAGE_2M_SIZE) in *.
  assert (base mod PAGE_2M_SIZE = 0 /\ e <= base < e + PAGE_2M_SIZE) as [Hbm Hbr] by (unfold base, align_up; split; dlia).
  unfold slab_init. destruct (init_caches_spec jp ja 16 0 end0) as (cs & -> & Hlen & Hcs); try done; try lia.
  { rewrite used_meta_total. lia. }
  rewrite used_meta_total. fold e. rewrite align_up_2m by lia. fold base.
  assert (evolved s s) as Hev by (split; [done|apply Pmm.same_shape_refl|done]).
  assert (Virt_To_Phy e = e - PAGE_OFFSET /\ Virt_To_Phy end0 = end0 - PAGE_OFFSET) as [-> ->].
  { unfold Virt_To_Phy. rewrite !wrap64_small by lia. done. }
  unfold PAGE_2M_ALIGN. rewrite align_up_2m, !Z.shiftr_div_pow2 by lia. change (2 ^ 21) with PAGE_2M_SIZE.
  set (j := align_up (end0 - PAGE_OFFSET) PAGE_2M_SIZE / PAGE_2M_SIZE).
  assert (j * PAGE_2M_SIZE = align_up (end0 - PAGE_OFFSET) PAGE_2M_SIZE) as Ej by (unfold j, align_up; dlia).
  assert (j * PAGE_2M_SIZE <= base - PAGE_OFFSET) by (rewrite Ej; unfold base, align_up; dlia).
  assert (((e - PAGE_OFFSET) / PAGE_2M_SIZE) * PAGE_2M_SIZE <= base - PAGE_OFFSET) by dlia.
  destruct (reserve_meta_spec s zi z p0 Hz Hp0 Hlow Hbase (Z.to_nat ((e - PAGE_OFFSET) / PAGE_2M_SIZE - j + 1)) j s Hev)
    as (s1 & -> & Hev1); [unfold j, align_up; dlia|lia|lia|]. cbn [mbind option_bind].
  destruct (reserve_pools_spec s zi z p0 Hz Hp0 Hlow Hbase 8 0 base cs s1 Hev1)
    as (cs' & s' & -> & Hev' & _ & _ & Hl' & Hin & Hout); try done; try lia.
  cbn [mbind option_bind]. rewrite (proj2 (Z.ltb_ge upper e)) by lia.
  assert (forall k c, cs' !!z k = Some c -> exists x, booted_cache s' base k c x) as Hbc.
  { intros k c Hk. pose proof (zlookup_some_range _ _ _ Hk). destruct (Z.lt_ge_cases k 8) as [H8|H8].
    - destruct (Hin k ltac:(lia)) as (E & Hat & Hbit). rewrite Z.sub_0_r in *. rewrite Hk in E.
      destruct (cs !!z k) as [c0|] eqn:Ec; [|done]. destruct (Hcs k c0 Ec) as (a & Ea). rewrite Z.add_0_l in Ea. subst c0. injection E as ->.
      eexists. constructor; [reflexivity|..]; simpl; rewrite ?(proj2 (Z.ltb_lt k 8)) by lia; try done.
    - rewrite Hout in Hk by lia. destruct (Hcs k c Hk) as (a & Ea). rewrite Z.add_0_l in Ea. subst c. eexists.
      constructor; [reflexivity|..]; simpl; rewrite ?(proj2 (Z.ltb_ge k 8)) by lia; try done. apply Hj. lia. }
  destruct (booted_inv s' base cs' (ev_inv _ _ Hev') ltac:(lia) ltac:(lia) Hbm Hb Hbc) as [Hinv Hbl].
  exists (mk_state cs' s'). split_and!; try done; [|apply Hev'].
  intros k c Hk. destruct (Hbc k c Hk) as (x & B). by rewrite (bc_cache _ _ _ _ _ B).
Qed.

(** Booting the object allocator.  With the metadata area in the direct
    map and the frames behind it RAM of one zone, [slab_init] succeeds and
    establishes the allocator's invariant: no block is handed out, the caches
    up to 4 KiB own one frame each with all its objects free, the larger ones
    are empty; frames that were reserved stay reserved and [end_of_struct]
    moves by 20128 bytes. *)
Theorem slab_init_correct jp ja upper end0 s base :
  boot_ok s end0 ja base -> end0 + 20128 <= upper ->
  exists st, slab_init jp ja upper end0 s = Some (st, end0 + 20128) /\ inv st /\
    (forall a n, ~ bl st a n) /\
    (forall k c, caches st !!z k = Some c -> total_free c = if k <? 8 then head_count k else 0) /\
    forall j, Pmm.bit s j = true -> Pmm.bit (frames st) j = true.
Proof. apply slab_init_spec. Qed.

(** The planner's formula reserves less than [slab_init] uses: for the two
    largest classes a map of 4 and 2 objects rounds to 0 bytes there and to 8
    here.  With the bound the planner computes, the boot check halts. *)
Theorem slab_layout_short :
  slab_layout_compute = 20112 /\
  forall jp ja end0 s base, boot_ok s end0 ja base ->
    slab_init jp ja (end0 + slab_layout_compute) end0 s = None.
Proof.
  split; [vm_compute; reflexivity|]. intros jp ja end0 s base Hb.
  destruct (slab_init_spec jp ja (end0 + 20128) end0 s base Hb) as (st & E & _); [lia|].
  change slab_layout_compute with 20112. revert E. unfold slab_init.
  destruct (init_caches jp ja 16 0 end0) as [cs e].
  destruct (reserve_meta _ _ s) as [s1|]; [|done]. cbn [mbind option_bind].
  destruct (reserve_pools 8 _ _ cs s1) as [[cs' s']|]; [|done]. cbn [mbind option_bind].
  destruct (end0 + 20128 <? e); [done|]. intros [= <- ->].
  destruct (Z.ltb_spec (end0 + 20112) (end0 + 20128)); [done|lia].
Qed.

(** ** A machine with 32 MiB of RAM *)

Definition boot_map : list Pmm.MEMORY_RANGE := [Pmm.mk_mrange 0 33554432 Pmm.MEMORY_TYPE_RAM].
Definition boot_pmm : Pmm.state :=
  Eval vm_compute in foldl (Pmm.init_zone 0) (PmmInit.blank 1 16 UINT64_MAX) boot_map.
(** The metadata starts at 1 MiB. *)
Abbreviation boot_end := (PAGE_OFFSET + 1048576) (only parsing).
Abbreviation boot_base := (PAGE_OFFSET + 2097152) (only parsing).
Definition no_junk : Z -> Z := fun _ => 0.

Lemma boot_pmm_ok : boot_ok boot_pmm boot_end no_junk boot_base.
Proof.
  assert (PmmInit.map_ok boot_map) as Hmap.
  { split; unfold PmmInit.ram_ranges, boot_map; simpl; repeat constructor; simpl; lia. }
  destruct (PmmInit.init_zones_ok boot_map 33554432 0 33554432 UINT64_MAX Hmap eq_refl) as [Hw _];
    [lia|unfold is_u64; lia|]. constructor.
  - split; [exact Hw|]. intros zi z Hz. apply zlookup_cons_inv in Hz as [[_ ->]|[_ Hz]]; [vm_compute; discriminate|].
    apply zlookup_some_range in Hz. unfold zlen in Hz. simpl in Hz. lia.
  - split; [lia|reflexivity].
  - split; [vm_compute; reflexivity|lia].
  - eexists 0, _, _. split; [reflexivity|]. split; [reflexivity|]. cbn. split; [lia|]. split; [lia|].
    split; [vm_compute; discriminate|lia].
  - intros i _. unfold no_junk. lia.
Qed.

Lemma slab_init_correct_witness :
  exists st, slab_init no_junk no_junk UINT64_MAX boot_end boot_pmm = Some (st, boot_end + 20128) /\ inv st.
Proof.
  destruct (slab_init_correct no_junk no_junk UINT64_MAX boot_end boot_pmm boot_base) as (st & E & Hi & _).
  - exact boot_pmm_ok.
  - lia.
  - exists st. split; assumption.
Defined.

(** The first request on the booted machine. *)
Lemma booted_stock : exists st, slab_init no_junk no_junk UINT64_MAX boot_end boot_pmm = Some (st, boot_end + 20128) /\
  inv st /\ exists A st', kmalloc 100 st = Some (Some A, st').
Proof.
  destruct (slab_init_spec no_junk no_junk UINT64_MAX boot_end boot_pmm boot_base boot_pmm_ok) as (st & E & Hi & _ & Hf & _); [lia|].
  exists st. split; [done|]. split; [done|].
  destruct (small_class st 100 Hi ltac:(lia)) as (i & c & Hfc & Hc & Hr).
  destruct (kmalloc_with_stock kmalloc_create 100 st i c Hi ltac:(lia) Hfc) as (A & st' & Ek & _).
  { rewrite (Hf i c Hc), (proj2 (Z.ltb_lt i 8)) by lia. destruct (head_facts i ltac:(lia)). lia. }
  by exists A, st'.
Qed.

Lemma kmalloc_correct_witness : exists st A st', inv st /\ kmalloc 100 st = Some (Some A, st') /\ inv st'.
Proof.
  destruct booted_stock as (st & _ & Hi & A & st' & E). exists st, A, st'.
  pose proof (kmalloc_correct 100 st Hi) as H. cbn [Z.ltb Z.compare Pos.compare Pos.compare_cont] in H.
  rewrite E in H. destruct H as [Hi' _]. split; [exact Hi|]. split; assumption.
Defined.

(** An object of the booted machine that is free, with its slab. *)
Lemma booted_free : exists st e x, inv st /\ (exists A st', kmalloc 100 st = Some (Some A, st')) /\ e ∈ entries 0 (caches st) /\ backed (e_slab e) = true /\ 0 < color_count (e_slab e) /\
  lbit (color_map (e_slab e)) 0 = false /\ x = address (e_slab e) /\ 32 <= class_size (e_class e).
Proof.
  destruct (slab_init_spec no_junk no_junk UINT64_MAX boot_end boot_pmm boot_base boot_pmm_ok) as (st & _ & Hi & Hno & Hf & _); [lia|].
  destruct (small_class st 100 Hi ltac:(lia)) as (i & c & Hfc & Hc & Hr).
  assert (0 < total_free c) as Ht by (rewrite (Hf i c Hc), (proj2 (Z.ltb_lt i 8)) by lia; destruct (head_facts i ltac:(lia)); lia).
  destruct (kmalloc_with_stock kmalloc_create 100 st i c Hi ltac:(lia) Hfc ltac:(lia)) as (A & st' & Ek & _).
  rewrite (co_free _ _ (i_cache st Hi i c Hc)) in Ht. destruct (zsum_pos free_count (pool c) Ht) as (s & Hs & Hfs).
  destruct (first_free_spec (pool c) 0) as (k & s' & _ & Hk & Hfk); [exists s; split; [done|lia]|].
  pose proof (slab_backed st i c k s' Hi Hc Hk Hfk) as Hb. pose proof (slab_elem_ok st i c k s' Hi Hc Hk) as Ho.
  pose proof (slab_elem st i c k s' Hc Hk) as He. exists st, (mk_entry i (k =? 0) s'), (address s').
  split; [exact Hi|]. split; [exists A, st'; exact Ek|]. split; [exact He|]. split; [exact Hb|]. split; [apply (so_count _ Ho)|].
  split; [|split; [done|]].
  - destruct (lbit _ 0) eqn:El; [|done]. exfalso. apply (Hno (address s') (class_size i)). exists (mk_entry i (k =? 0) s').
    split; [done|]. split; [done|]. split; [done|]. exists 0. split; [split; [done|apply (so_count _ Ho)]|]. split; [done|]. simpl. lia.
  - cbn. apply class_size_pos. lia.
Qed.

(** A block is taken and given back; giving back an object that is free is
    reported. *)
Lemma kfree_correct_witness : exists st A st1 st2 x,
  kmalloc 100 st = Some (Some A, st1) /\ (exists m, owned st1 A m) /\ kfree A st1 = Some (1, st2) /\ (forall m, ~ owned st2 A m) /\
  x <> 0 /\ kfree x st = Some (1, st).
Proof.
  destruct booted_free as (st & e & x & Hi & (A & st1 & Ek) & He & Hb & Hc & Hl & -> & Hn).
  pose proof (kmalloc_cases 100 st Hi ltac:(lia)) as H. rewrite Ek in H. destruct H as (Hi1 & m & Hm & Ho & _).
  assert (owned st1 A m) as HA by (apply Ho; by right).
  destruct (proj1 (kfree_correct st1 Hi1) A m A HA ltac:(lia)) as (st2 & Ef & Hi2 & Ho2). exists st, A, st1, st2, (address (e_slab e)).
  split; [exact Ek|]. split; [exists m; exact HA|]. split; [exact Ef|]. split; [intros m' Hm'; by apply Ho2 in Hm' as [_ ?]|].
  unfold backed in Hb. pose proof (proj1 (Z.leb_le _ _) Hb). split; [lia|].
  apply (proj1 (proj2 (kfree_correct st Hi)) e 0); [exact He|exact Hb|lia|exact Hl|lia].
Defined.

Lemma kmalloc_kfree_roundtrip_witness :
  exists st A st1, kmalloc 100 st = Some (Some A, st1) /\ 100 <= ksize A st1.
Proof.
  destruct booted_stock as (st & _ & Hi & A & st' & E). exists st, A, st'. split; [exact E|].
  apply (kmalloc_kfree_roundtrip 100 st A st' Hi); [lia|exact E].
Defined.

End SlabInit.
