(* ===== verification/Subpage.v ===== *)
(** The 4 KiB allocator layered on the 2 MiB frame allocator: sub-page pools
    with copy-on-write counts (the second half of src/kernel/memory/pmm.c).
    The pools obtain their frames through the interface [FrameSource], which
    the frame allocator of [Pmm] implements. *)

From stdpp Require Import base tactics numbers option sets list.
From Stdlib Require Import ZArith Lia.
From S2P Require Import Prelude PmmBoot Pmm PmmInit.

Module Subpage.

(** ** What the pools need of the frame allocator *)

(** [fs_alloc] is [alloc_pages(ZONE_NORMAL, 1, 0)->phy_address], [None] for
    [NULL]; [fs_used f a] says the 2 MiB frame at [a] has been handed out. *)
Class FrameSource (F : Type) := {
  fs_alloc : F -> option Z * F;
  fs_inv : F -> Prop;
  fs_used : F -> Z -> Prop;
  fs_alloc_some : forall f a f', fs_inv f -> fs_alloc f = (Some a, f') ->
    fs_inv f' /\ 0 <= a /\ a + 2097152 < U64 /\ a mod 2097152 = 0 /\
    ~ fs_used f a /\ forall b, fs_used f' b <-> fs_used f b \/ b = a;
  fs_alloc_none : forall f f', fs_inv f -> fs_alloc f = (None, f') -> f' = f;
}.

Abbreviation PAGE_4K_SIZE := 4096 (only parsing).
Abbreviation PAGE_2M_SIZE := 2097152 (only parsing).
Abbreviation SUBPAGE_4K_COUNT := 512 (only parsing).

(** ** Data *)

(** [struct subpage_pool].  It lives in slot 0 of its own frame; the list
    links are the order of the pools in [subpage_pools]. *)
Record subpage_pool := mk_pool {
  base_phys : Z;
  bitmap : list Z;
  alloc_count : Z;
  cow_count : list Z;
}.

(** __builtin_ctzll: the index of the lowest set bit. *)
Fixpoint ctz_from (n : nat) (w k : Z) : Z :=
  match n with
  | O => k
  | S n => if Z.testbit w k then k else ctz_from n w (k + 1)
  end.
Definition ctzll (w : Z) : Z := ctz_from 64 w 0.

(** ** Operations on one pool *)

(** [for (i = 0; i < SUBPAGE_4K_COUNT / 64; i++)]: the first word that is not
    full, and its lowest clear bit. *)
Fixpoint free_slot (ws : list Z) (i : Z) : option (Z * Z) :=
  match ws with
  | [] => None
  | w :: ws => if w =? UINT64_MAX then free_slot ws (i + 1) else Some (i, ctzll (not64 w))
  end.

Definition pool_take (p : subpage_pool) : option (Z * subpage_pool) :=
  if alloc_count p <? SUBPAGE_4K_COUNT then
    match free_slot (bitmap p) 0 with
    | Some (i, bit) =>
      let slot := i * 64 + bit in
      Some (base_phys p +u (slot *u PAGE_4K_SIZE),
            mk_pool (base_phys p) (zalter (fun w => Z.lor w (shl64 1 bit)) i (bitmap p))
              (wrap32 (alloc_count p + 1)) (zset slot 0 (cow_count p)))
    | None => None
    end
  else None.

(** ** The allocator *)

Section allocator.
Context {F : Type} `{FrameSource F}.

(** [subpage_pools], from the head on, and the frame allocator. *)
Record state := mk_sub { pools : list subpage_pool; frames : F }.

Fixpoint search_pools (ps : list subpage_pool) : option (Z * list subpage_pool) :=
  match ps with
  | [] => None
  | p :: ps =>
    match pool_take p with
    | Some (phys, p') => Some (phys, p' :: ps)
    | None => match search_pools ps with
              | Some (phys, ps') => Some (phys, p :: ps')
              | None => None
              end
    end
  end.

(** [junk] is the memory the new frame holds where [cow_count] goes: the code
    clears the bitmap but only [cow_count[1]]. *)
Definition alloc_4k_page (junk : list Z) (st : state) : Z * state :=
  match search_pools (pools st) with
  | Some (phys, ps) => (phys, mk_sub ps (frames st))
  | None =>
    match fs_alloc (frames st) with
    | (None, fr) => (0, mk_sub (pools st) fr)
    | (Some pa, fr) =>
      let bm := replicate 8 0 in
      let bm := zalter (fun w => Z.lor w 1) 0 bm in
      let bm := zalter (fun w => Z.lor w (shl64 1 1)) 0 bm in
      let pool := mk_pool pa bm 2 (zset 1 0 junk) in
      (pa +u PAGE_4K_SIZE, mk_sub (pool :: pools st) fr)
    end
  end.

(** [find_pool_locked] and a write through the pointer it returns. *)
Definition covers (phys : Z) (p : subpage_pool) : bool :=
  (base_phys p <=? phys) && (phys <? base_phys p +u PAGE_2M_SIZE).
Definition find_pool_locked (phys : Z) (st : state) : option subpage_pool :=
  List.find (covers phys) (pools st).
Fixpoint on_pool (phys : Z) (f : subpage_pool -> subpage_pool) (ps : list subpage_pool)
  : list subpage_pool :=
  match ps with
  | [] => []
  | p :: ps => if covers phys p then f p :: ps else p :: on_pool phys f ps
  end.

Definition slot_of (phys : Z) (p : subpage_pool) : Z := Z.shiftr (phys -u base_phys p) 12.

Definition pool_free (phys : Z) (p : subpage_pool) : subpage_pool :=
  let slot := wrap32 ((phys -u base_phys p) / PAGE_4K_SIZE) in
  if slot <? SUBPAGE_4K_COUNT then
    let word := slot / 64 in
    let bit := slot mod 64 in
    if negb (Z.land (default 0 (bitmap p !!z word)) (shl64 1 bit) =? 0) then
      mk_pool (base_phys p) (zalter (fun w => w &~ shl64 1 bit) word (bitmap p))
        (wrap32 (alloc_count p - 1)) (cow_count p)
    else p
  else p.

Definition free_4k_page (phys : Z) (st : state) : state :=
  if phys =? 0 then st
  else mk_sub (on_pool phys (pool_free phys) (pools st)) (frames st).

Definition pmm_4k_page_allocated (phys : Z) (st : state) : bool :=
  if (phys =? 0) || negb (Z.land phys (PAGE_4K_SIZE - 1) =? 0) then false
  else match find_pool_locked phys st with
       | None => false
       | Some p =>
         let slot := wrap32 ((phys -u base_phys p) / PAGE_4K_SIZE) in
         (0 <? slot) && (slot <? SUBPAGE_4K_COUNT) &&
         negb (Z.land (default 0 (bitmap p !!z (slot / 64))) (shl64 1 (slot mod 64)) =? 0)
       end.

(** The copy-on-write counters are [uint16_t]. *)
Definition set_cow (f : Z -> Z) (phys : Z) (p : subpage_pool) : subpage_pool :=
  mk_pool (base_phys p) (bitmap p) (alloc_count p) (zalter f (slot_of phys p) (cow_count p)).

Definition page_cow_get (phys : Z) (st : state) : state :=
  mk_sub (on_pool phys (set_cow (fun c => wrap16 (c + 1)) phys) (pools st)) (frames st).

Definition page_cow_refs (phys : Z) (st : state) : Z :=
  match find_pool_locked phys st with
  | Some p => default 0 (cow_count p !!z slot_of phys p)
  | None => 0
  end.

Definition page_cow_put (phys : Z) (st : state) : bool * state :=
  match find_pool_locked phys st with
  | None => (false, st)
  | Some p =>
    let c := default 0 (cow_count p !!z slot_of phys p) in
    if 0 <? c then
      (wrap16 (c - 1) =? 0,
       mk_sub (on_pool phys (set_cow (fun c => wrap16 (c - 1)) phys) (pools st)) (frames st))
    else (false, st)
  end.

(** ** Invariant *)

Record pool_ok (p : subpage_pool) : Prop := {
  po_base : 0 <= base_phys p /\ base_phys p + PAGE_2M_SIZE < U64 /\ base_phys p mod PAGE_2M_SIZE = 0;
  po_words : zlen (bitmap p) = 8 /\ Forall is_u64 (bitmap p);
  po_count : alloc_count p = zcount (lbit (bitmap p)) 0 512;
  po_self : lbit (bitmap p) 0 = true;
  po_cow : zlen (cow_count p) = 512 /\ Forall (fun c => 0 <= c < 65536) (cow_count p);
}.

(** Every pool is consistent, its own slot 0 is taken, no two pools share a
    frame and every pool's frame is in use in the frame allocator. *)
Record inv (st : state) : Prop := {
  inv_frames : fs_inv (frames st);
  inv_pools : Forall pool_ok (pools st);
  inv_distinct : NoDup (base_phys <$> pools st);
  inv_owned : Forall (fun p => fs_used (frames st) (base_phys p)) (pools st);
}.

(** The abstract state: the set of allocated pages. *)
Definition allocated (st : state) (phys : Z) : Prop :=
  exists p slot, p ∈ pools st /\ 0 < slot < 512 /\ phys = base_phys p + slot * PAGE_4K_SIZE /\
    lbit (bitmap p) slot = true.

(** ** Finding a free slot *)

Lemma ctz_from_spec n w k m :
  k <= m < k + Z.of_nat n -> Z.testbit w m = true ->
  k <= ctz_from n w k < k + Z.of_nat n /\ Z.testbit w (ctz_from n w k) = true.
Proof.
  revert k. induction n as [|n IH]; intros k Hm Hb; [lia|]. simpl.
  destruct (Z.testbit w k) eqn:E; [split; [lia|done]|].
  destruct (Z.eq_dec m k) as [->|]; [congruence|].
  destruct (IH (k + 1)) as [? ?]; [lia|done|]. split; [lia|done].
Qed.

Lemma not64_spec w m : 0 <= w < U64 -> 0 <= m < 64 -> Z.testbit (not64 w) m = negb (Z.testbit w m).
Proof.
  intros Hw Hm. assert (not64 w = UINT64_MAX &~ w) as ->.
  { apply Z.bits_inj'. intros n Hn. rewrite Z.land_spec. destruct (Z.lt_ge_cases n 64).
    - rewrite testbit_ones64 by lia. done.
    - by rewrite !u64_bits_above by (unfold not64; lia). }
  rewrite land_not64, Z.ldiff_spec, testbit_ones64 by lia. done.
Qed.

Lemma u64_full w : 0 <= w < U64 -> (forall m, 0 <= m < 64 -> Z.testbit w m = true) -> w = UINT64_MAX.
Proof.
  intros Hw Hb. apply Z.bits_inj'. intros n Hn. destruct (Z.lt_ge_cases n 64).
  - rewrite Hb, testbit_ones64 by lia. done.
  - by rewrite !u64_bits_above by lia.
Qed.

Lemma ctzll_free w :
  0 <= w < U64 -> w <> UINT64_MAX ->
  0 <= ctzll (not64 w) < 64 /\ Z.testbit w (ctzll (not64 w)) = false.
Proof.
  intros Hw Hne. destruct (Z.lt_ge_cases (zcount (Z.testbit w) 0 64) 64) as [Hlt|Hge].
  - destruct (zcount_lt _ _ _ Hlt) as (m & Hm & Hb).
    destruct (ctz_from_spec 64 (not64 w) 0 m) as [Hr Ht]; [lia|by rewrite not64_spec, Hb by lia|].
    fold (ctzll (not64 w)) in *. split; [lia|]. rewrite not64_spec in Ht by lia.
    by destruct (Z.testbit w (ctzll (not64 w))).
  - destruct Hne. apply u64_full; [done|]. pose proof (zcount_bounds (Z.testbit w) 0 64).
    intros m Hm. apply (zcount_full (Z.testbit w) 0 64); lia.
Qed.

Lemma free_slot_spec ws i :
  Forall is_u64 ws ->
  match free_slot ws i with
  | Some (k, b) => i <= k < i + zlen ws /\ 0 <= b < 64 /\
      exists w, ws !!z (k - i) = Some w /\ Z.testbit w b = false
  | None => Forall (fun w => w = UINT64_MAX) ws
  end.
Proof.
  revert i. induction ws as [|w ws IH]; intros i Hok; simpl; [done|].
  apply Forall_cons in Hok as [Hw Hok].
  destruct (Z.eqb_spec w UINT64_MAX) as [->|Hne].
  - specialize (IH (i + 1) Hok). destruct (free_slot ws (i + 1)) as [[k b]|]; [|by constructor].
    destruct IH as (Hk & Hb & w & Ew & Ht). unfold zlen in *. simpl. split; [lia|]. split; [done|].
    exists w. split; [|done]. unfold zlookup in *.
    destruct (Z.leb_spec 0 (k - i)), (Z.leb_spec 0 (k - (i + 1))); try lia.
    replace (Z.to_nat (k - i)) with (S (Z.to_nat (k - (i + 1)))) by lia. done.
  - destruct (ctzll_free w Hw Hne) as [Hr Ht]. unfold zlen. simpl. split; [lia|]. split; [done|].
    exists w. by rewrite Z.sub_diag.
Qed.

(** ** Taking and returning a slot *)

Lemma lbit_word l i b w :
  l !!z i = Some w -> 0 <= b < 64 -> lbit l (i * 64 + b) = Z.testbit w b.
Proof.
  intros E Hb. unfold lbit. replace ((i * 64 + b) / 64) with i by dlia.
  replace ((i * 64 + b) mod 64) with b by dlia. by rewrite E.
Qed.

Lemma pool_take_spec p :
  pool_ok p ->
  match pool_take p with
  | Some (phys, p') => exists slot, 0 < slot < 512 /\ phys = base_phys p + slot * PAGE_4K_SIZE /\
      lbit (bitmap p) slot = false /\ pool_ok p' /\ base_phys p' = base_phys p /\
      (forall j, lbit (bitmap p') j = lbit (bitmap p) j || (slot =? j)) /\
      cow_count p' = zset slot 0 (cow_count p)
  | None => forall j, 0 <= j < 512 -> lbit (bitmap p) j = true
  end.
Proof.
  intros [(Hb1 & Hb2 & Hb3) [Hw8 Hw] Hc Hself [Hcl Hcf]]. unfold pool_take.
  pose proof (zcount_bounds (lbit (bitmap p)) 0 512).
  destruct (Z.ltb_spec (alloc_count p) 512) as [Hlt|Hge].
  2: { intros j Hj. apply (zcount_full (lbit (bitmap p)) 0 512); lia. }
  pose proof (free_slot_spec (bitmap p) 0 Hw) as Hs.
  destruct (free_slot (bitmap p) 0) as [[k b]|].
  - destruct Hs as (Hk & Hb & w & Ew & Ht). rewrite Z.sub_0_r in Ew.
    pose proof (lbit_word _ _ _ _ Ew Hb) as Hf. rewrite Ht in Hf.
    set (slot := k * 64 + b) in *.
    assert (k = slot / 64) as Ek by (unfold slot; dlia). assert (b = slot mod 64) as Eb by (unfold slot; dlia).
    assert (slot <> 0) by (intros E; rewrite E in Hf; congruence).
    assert (0 < slot < 512) as Hslot by (unfold slot in *; lia).
    assert (forall j, lbit (zalter (fun w => Z.lor w (shl64 1 b)) k (bitmap p)) j =
      lbit (bitmap p) j || (slot =? j)) as Hbits.
    { intros j. rewrite Ek, Eb. apply lbit_set; [done|lia]. }
    exists slot. rewrite (wrap64_small (slot * _)), wrap64_small by lia. split_and!; try done; try lia.
    constructor; simpl.
    + split_and!; done.
    + rewrite zlen_zalter. split; [done|]. apply Forall_zalter; [done|]. intros. by apply lor_bit_u64.
    + unfold wrap32. rewrite Z.mod_small by lia.
      rewrite (zcount_change (lbit (bitmap p)) _ 0 512 slot), Hbits, Hf, Z.eqb_refl, <- Hc; [simpl; lia|lia|].
      intros j Hj. rewrite Hbits. destruct (Z.eqb_spec slot j); [lia|by rewrite orb_false_r].
    + rewrite Hbits, Hself. done.
    + rewrite zlen_zalter. split; [done|]. apply Forall_zalter; [done|]. intros; lia.
  - exfalso. assert (zcount (lbit (bitmap p)) 0 512 = 512); [|lia]. apply zcount_all.
    intros j Hj. unfold lbit. destruct (zlookup_in_range (bitmap p) (j / 64) ltac:(dlia)) as [w Ew].
    rewrite Ew. unfold zlookup in Ew. destruct (0 <=? j / 64); [|done].
    eapply Forall_lookup_1 in Hs; [|exact Ew]. subst w. simpl. apply testbit_ones64.
    apply Z.mod_pos_bound. lia.
Qed.

Lemma covers_spec p phys : pool_ok p -> covers phys p = true <-> base_phys p = phys / PAGE_2M_SIZE * PAGE_2M_SIZE.
Proof.
  intros [(? & ? & ?) _ _ _ _]. unfold covers. rewrite wrap64_small by lia.
  rewrite andb_true_iff, Z.leb_le, Z.ltb_lt. split; intros; dlia.
Qed.

(** A write through the pool pointer changes the pool that covers [phys] and
    no other. *)
Lemma elem_of_on_pool phys f ps q :
  Forall pool_ok ps -> NoDup (base_phys <$> ps) ->
  q ∈ on_pool phys f ps <->
    (q ∈ ps /\ covers phys q = false) \/ exists p, p ∈ ps /\ covers phys p = true /\ q = f p.
Proof.
  intros Hok Hnd. induction ps as [|p ps IH]; simpl.
  { split; [by intros ?%not_elem_of_nil|]. intros [[?%not_elem_of_nil _]|(? & ?%not_elem_of_nil & _)]; done. }
  apply Forall_cons in Hok as [Hp Hok]. apply NoDup_cons in Hnd as [Hni Hnd].
  specialize (IH Hok Hnd). destruct (covers phys p) eqn:Ec.
  - assert (forall q, q ∈ ps -> covers phys q = false) as Hno.
    { intros q' Hq'. destruct (covers phys q') eqn:E; [|done]. destruct Hni.
      apply list_elem_of_fmap. exists q'. split; [|done].
      rewrite covers_spec in Ec, E by (try done; by eapply Forall_forall in Hok). congruence. }
    rewrite elem_of_cons. split.
    + intros [->|Hq]; [right; exists p; rewrite elem_of_cons; auto|].
      left. rewrite elem_of_cons. auto.
    + intros [[[->|Hq]%elem_of_cons Hc]|(p' & [->|Hp']%elem_of_cons & Hc & ->)]; try congruence; auto.
      rewrite Hno in Hc; done.
  - rewrite elem_of_cons, IH. split.
    + intros [->|[[? ?]|(p' & ? & ? & ?)]]; [left; rewrite elem_of_cons; auto..|].
      right. exists p'. rewrite elem_of_cons. auto.
    + intros [[[->|Hq]%elem_of_cons Hc]|(p' & [->|Hp']%elem_of_cons & Hc & ->)]; try congruence; auto.
      right. right. eauto.
Qed.

Lemma on_pool_bases phys f ps :
  (forall p, base_phys (f p) = base_phys p) -> base_phys <$> on_pool phys f ps = base_phys <$> ps.
Proof.
  intros Hf. induction ps as [|p ps IH]; [done|]. cbn [on_pool].
  destruct (covers phys p); rewrite !fmap_cons; [by rewrite Hf|by rewrite IH].
Qed.

Lemma find_pool_spec st phys p :
  inv st -> find_pool_locked phys st = Some p <-> p ∈ pools st /\ covers phys p = true.
Proof.
  intros [_ Hok Hnd _]. unfold find_pool_locked. revert Hok Hnd.
  induction (pools st) as [|q ps IH]; intros Hok Hnd; simpl.
  { split; [done|]. by intros [?%not_elem_of_nil _]. }
  apply Forall_cons in Hok as [Hq Hok]. apply NoDup_cons in Hnd as [Hni Hnd].
  rewrite elem_of_cons. destruct (covers phys q) eqn:Ec.
  - split; [intros [= ->]; auto|]. intros [[->|Hp] Hc]; [done|]. destruct Hni.
    apply list_elem_of_fmap. exists p. split; [|done].
    rewrite covers_spec in Ec, Hc by (try done; by eapply Forall_forall in Hok). congruence.
  - rewrite IH by done. split; [intros [? ?]; auto|]. intros [[->|?] ?]; [congruence|auto].
Qed.

Lemma find_pool_none st phys :
  inv st -> find_pool_locked phys st = None -> forall p, p ∈ pools st -> covers phys p = false.
Proof.
  intros Hi Hn p Hp. destruct (covers phys p) eqn:E; [|done].
  pose proof (proj2 (find_pool_spec st phys p Hi) (conj Hp E)). congruence.
Qed.

Lemma pool_unique st phys p q :
  inv st -> p ∈ pools st -> q ∈ pools st -> covers phys p = true -> covers phys q = true -> p = q.
Proof.
  intros Hi Hp Hq Hcp Hcq.
  pose proof (proj2 (find_pool_spec st phys p Hi) (conj Hp Hcp)).
  pose proof (proj2 (find_pool_spec st phys q Hi) (conj Hq Hcq)). congruence.
Qed.

(** The slot of an address inside a pool. *)
Lemma slot_bounds p phys :
  pool_ok p -> covers phys p = true ->
  phys -u base_phys p = phys - base_phys p /\ 0 <= (phys - base_phys p) / PAGE_4K_SIZE < 512 /\
  slot_of phys p = (phys - base_phys p) / PAGE_4K_SIZE /\
  wrap32 ((phys - base_phys p) / PAGE_4K_SIZE) = (phys - base_phys p) / PAGE_4K_SIZE.
Proof.
  intros [(? & ? & ?) _ _ _ _]. unfold covers, slot_of. rewrite (wrap64_small (_ + _)) by lia.
  rewrite andb_true_iff, Z.leb_le, Z.ltb_lt. intros [? ?].
  rewrite wrap64_small, Z.shiftr_div_pow2 by lia. change (2 ^ 12) with 4096. unfold wrap32.
  rewrite Z.mod_small by dlia. split_and!; done || dlia.
Qed.

Lemma slot_covers p slot :
  pool_ok p -> 0 <= slot < 512 -> covers (base_phys p + slot * PAGE_4K_SIZE) p = true /\
    (base_phys p + slot * PAGE_4K_SIZE - base_phys p) / PAGE_4K_SIZE = slot.
Proof.
  intros Hp Hs. rewrite covers_spec by done. destruct Hp as [(? & ? & ?) _ _ _ _]. split; dlia.
Qed.

Lemma pool_in_ok st p : inv st -> p ∈ pools st -> pool_ok p.
Proof. intros Hi Hp. by eapply Forall_forall in Hp; [|apply (inv_pools st Hi)]. Qed.

Lemma allocated_spec st phys :
  inv st -> allocated st phys <->
    exists p, p ∈ pools st /\ covers phys p = true /\ phys mod PAGE_4K_SIZE = 0 /\
      0 < (phys - base_phys p) / PAGE_4K_SIZE /\
      lbit (bitmap p) ((phys - base_phys p) / PAGE_4K_SIZE) = true.
Proof.
  intros Hi. split.
  - intros (p & slot & Hp & Hs & -> & Hb). pose proof (pool_in_ok st p Hi Hp) as Hok.
    destruct (slot_covers p slot Hok ltac:(lia)) as [Hc Hd]. exists p. rewrite Hd.
    destruct Hok as [(? & ? & ?) _ _ _ _]. split_and!; try done; try lia. dlia.
  - intros (p & Hp & Hc & Hm & Hs & Hb). pose proof (pool_in_ok st p Hi Hp) as Hok.
    destruct (slot_bounds p phys Hok Hc) as (_ & Hr & _).
    exists p, ((phys - base_phys p) / PAGE_4K_SIZE). split_and!; try done; try lia.
    destruct Hok as [(? & ? & ?) _ _ _ _]. dlia.
Qed.

(** The query used by the user-copy paths decides membership in the set
    of allocated 4 KiB pages. *)
Theorem pmm_4k_page_allocated_correct st phys :
  inv st -> pmm_4k_page_allocated phys st = true <-> allocated st phys.
Proof.
  intros Hi. rewrite allocated_spec by done. unfold pmm_4k_page_allocated.
  change (PAGE_4K_SIZE - 1) with (2 ^ 12 - 1). rewrite land_mask by lia. change (2 ^ 12) with 4096.
  destruct (find_pool_locked phys st) as [p|] eqn:E.
  - apply find_pool_spec in E as [Hp Hc]; [|done]. pose proof (pool_in_ok st p Hi Hp) as Hok.
    destruct (slot_bounds p phys Hok Hc) as (E1 & Hr & _ & E2). rewrite E1, E2.
    rewrite land_bit_test by (apply Z.mod_pos_bound; lia).
    fold (lbit (bitmap p) ((phys - base_phys p) / 4096)). split.
    + destruct (Z.eqb_spec phys 0), (Z.eqb_spec (phys mod 4096) 0); simpl; try done.
      rewrite !andb_true_iff. intros [[? ?] ?]. exists p. split_and!; try done; lia.
    + intros (q & Hq & Hcq & Hm & Hs & Hb).
      pose proof (pool_unique st phys q p Hi Hq Hp Hcq Hc) as ->.
      destruct Hok as [(? & ? & ?) _ _ _ _].
      destruct (Z.eqb_spec phys 0); [subst; dlia|]. rewrite Hm. simpl. rewrite Hb.
      bools; done || lia.
  - pose proof (find_pool_none st phys Hi E) as Hn. split.
    + destruct (_ || _); done.
    + intros (p & Hp & Hc & _). rewrite Hn in Hc; done.
Qed.

(** ** Allocation *)

(** The pools differ in one pool [p], replaced by [p'] with the same frame. *)
Definition replaced (p p' : subpage_pool) (ps ps' : list subpage_pool) : Prop :=
  exists l1 l2, ps = l1 ++ p :: l2 /\ ps' = l1 ++ p' :: l2.

Lemma search_pools_spec ps :
  match search_pools ps with
  | Some (phys, ps') => exists p p', pool_take p = Some (phys, p') /\ replaced p p' ps ps'
  | None => Forall (fun p => pool_take p = None) ps
  end.
Proof.
  induction ps as [|p ps IH]; simpl; [done|].
  destruct (pool_take p) as [[phys p']|] eqn:E.
  { exists p, p'. split; [done|]. by exists [], ps. }
  destruct (search_pools ps) as [[phys ps']|]; [|by constructor].
  destruct IH as (q & q' & Eq & l1 & l2 & -> & ->). exists q, q'. split; [done|]. by exists (p :: l1), l2.
Qed.

Lemma replaced_inv p p' ps ps' fr :
  replaced p p' ps ps' -> base_phys p' = base_phys p -> pool_ok p' ->
  inv (mk_sub ps fr) -> inv (mk_sub ps' fr).
Proof.
  intros (l1 & l2 & -> & ->) Hb Hok [H1 H2 H3 H4]. constructor; simpl in *.
  - done.
  - apply Forall_app in H2 as [? [? ?]%Forall_cons]. apply Forall_app. split; [done|]. by constructor.
  - rewrite fmap_app, fmap_cons in H3 |- *. by rewrite Hb.
  - apply Forall_app in H4 as [? [? ?]%Forall_cons]. apply Forall_app. split; [done|].
    constructor; [by rewrite Hb|done].
Qed.

(** Replacing a pool by one with the single bit [slot] changed adds or removes
    exactly the page of that slot. *)
Lemma replaced_allocated p p' ps ps' fr slot b :
  replaced p p' ps ps' -> base_phys p' = base_phys p -> 0 < slot < 512 ->
  inv (mk_sub ps fr) -> lbit (bitmap p') slot = b ->
  (forall j, j <> slot -> lbit (bitmap p') j = lbit (bitmap p) j) ->
  forall q, allocated (mk_sub ps' fr) q <->
    (q = base_phys p + slot * PAGE_4K_SIZE /\ b = true) \/
    (q <> base_phys p + slot * PAGE_4K_SIZE /\ allocated (mk_sub ps fr) q).
Proof.
  intros (l1 & l2 & -> & ->) Hb Hs Hi Hbit Hj q. pose proof (inv_distinct _ Hi) as Hnd.
  pose proof (inv_pools _ Hi) as Hok. simpl in Hnd, Hok. rewrite fmap_app, fmap_cons in Hnd.
  assert (forall r sl, r ∈ l1 \/ r ∈ l2 -> 0 < sl < 512 ->
    base_phys r + sl * 4096 <> base_phys p + slot * 4096) as Hother.
  { intros r sl Hr Hsl E. assert (pool_ok r /\ pool_ok p) as [[(? & ? & ?) _ _ _ _] [(? & ? & ?) _ _ _ _]].
    { rewrite Forall_forall in Hok. split; apply Hok; rewrite elem_of_app, elem_of_cons; tauto. }
    assert (base_phys r = base_phys p) as Eb by dlia.
    apply NoDup_app in Hnd as (_ & Hd & [Hn _]%NoDup_cons). destruct Hr as [Hr|Hr].
    - apply (Hd (base_phys r)); [by apply list_elem_of_fmap_2|]. rewrite Eb. apply elem_of_cons. auto.
    - apply Hn. rewrite <- Eb. by apply list_elem_of_fmap_2. }
  unfold allocated. simpl. split.
  - intros (r & sl & Hr & Hsl & -> & Hb1). rewrite elem_of_app, elem_of_cons in Hr.
    assert (r = p' \/ (r ∈ l1 \/ r ∈ l2)) as [->|Hr'] by tauto.
    + rewrite Hb. destruct (Z.eq_dec sl slot) as [->|]; [left; split; [done|congruence]|right].
      split; [lia|]. exists p, sl. rewrite elem_of_app, elem_of_cons, <- Hj by done. tauto.
    + right. split; [by apply Hother|]. exists r, sl. rewrite elem_of_app, elem_of_cons. tauto.
  - intros [[-> ->]|(Hq & r & sl & Hr & Hsl & -> & Hb1)].
    + exists p', slot. rewrite elem_of_app, elem_of_cons, Hb. tauto.
    + rewrite elem_of_app, elem_of_cons in Hr.
      assert (r = p \/ (r ∈ l1 \/ r ∈ l2)) as [->|Hr'] by tauto.
      * exists p', sl. assert (sl <> slot) by (intros ->; done).
        rewrite elem_of_app, elem_of_cons, Hb, Hj by done. tauto.
      * exists r, sl. rewrite elem_of_app, elem_of_cons. tauto.
Qed.

Lemma refs_of st phys p :
  inv st -> p ∈ pools st -> covers phys p = true ->
  page_cow_refs phys st = default 0 (cow_count p !!z ((phys - base_phys p) / PAGE_4K_SIZE)).
Proof.
  intros Hi Hp Hc. unfold page_cow_refs.
  rewrite (proj2 (find_pool_spec st phys p Hi) (conj Hp Hc)).
  destruct (slot_bounds p phys (pool_in_ok st p Hi Hp) Hc) as (_ & _ & -> & _). done.
Qed.

Lemma fresh_refs st p slot :
  inv st -> p ∈ pools st -> 0 <= slot < 512 -> cow_count p !!z slot = Some 0 ->
  page_cow_refs (base_phys p + slot * PAGE_4K_SIZE) st = 0.
Proof.
  intros Hi Hp Hs E. destruct (slot_covers p slot (pool_in_ok st p Hi Hp) Hs) as [Hc Hd].
  by rewrite (refs_of st _ p Hi Hp Hc), Hd, E.
Qed.

Lemma zlookup_zset {A} (x : A) i l : 0 <= i < zlen l -> zset i x l !!z i = Some x.
Proof. intros Hi. rewrite zlookup_zalter. by destruct (zlookup_in_range l i Hi) as [y ->]. Qed.

Definition junk_ok (junk : list Z) : Prop := zlen junk = 512 /\ Forall (fun c => 0 <= c < 65536) junk.

(** The bitmap of a new pool: slots 0 and 1. *)
Lemma new_bitmap_bits j :
  0 <= j < 512 -> lbit [3; 0; 0; 0; 0; 0; 0; 0] j = (j =? 0) || (j =? 1).
Proof.
  intros Hj. assert (forallb (fun n => eqb (lbit [3; 0; 0; 0; 0; 0; 0; 0] (Z.of_nat n))
    ((Z.of_nat n =? 0) || (Z.of_nat n =? 1))) (seq 0 512) = true) as Hall by (vm_compute; reflexivity).
  rewrite forallb_forall in Hall. specialize (Hall (Z.to_nat j)).
  rewrite Z2Nat.id in Hall by lia. apply eqb_prop, Hall. apply in_seq. lia.
Qed.

Lemma new_pool_ok pa junk :
  0 <= pa -> pa + PAGE_2M_SIZE < U64 -> pa mod PAGE_2M_SIZE = 0 -> junk_ok junk ->
  pool_ok (mk_pool pa [3; 0; 0; 0; 0; 0; 0; 0] 2 (zset 1 0 junk)).
Proof.
  intros ? ? ? [Hj1 Hj2]. constructor; simpl.
  - done.
  - split; [done|]. repeat constructor; simpl; lia.
  - vm_compute. reflexivity.
  - done.
  - rewrite zlen_zalter. split; [done|]. apply Forall_zalter; [done|]. intros; lia.
Qed.

Lemma new_pool_inv pa junk ps fr fr' :
  junk_ok junk -> inv (mk_sub ps fr) -> fs_alloc fr = (Some pa, fr') ->
  inv (mk_sub (mk_pool pa [3; 0; 0; 0; 0; 0; 0; 0] 2 (zset 1 0 junk) :: ps) fr').
Proof.
  intros Hj [H1 H2 H3 H4] E. simpl in *.
  destruct (fs_alloc_some fr pa fr' H1 E) as (? & ? & ? & ? & Hnu & Hu). constructor; simpl.
  - done.
  - constructor; [by apply new_pool_ok|done].
  - apply NoDup_cons. split; [|done]. intros (p & -> & Hp)%list_elem_of_fmap. apply Hnu.
    by eapply Forall_forall in Hp; [|exact H4].
  - constructor; [apply Hu; by right|]. eapply Forall_impl; [exact H4|]. intros p Hp. apply Hu. by left.
Qed.

(** The effect of handing out the page [phys]. *)
Definition page_added (st : state) (phys : Z) (st' : state) : Prop :=
  inv st' /\ 0 < phys /\ ~ allocated st phys /\
  (forall q, allocated st' q <-> allocated st q \/ q = phys) /\
  page_cow_refs phys st' = 0 /\ phys mod PAGE_4K_SIZE = 0.

Lemma take_page_added ps ps' fr p p' phys :
  inv (mk_sub ps fr) -> pool_take p = Some (phys, p') -> replaced p p' ps ps' ->
  page_added (mk_sub ps fr) phys (mk_sub ps' fr).
Proof.
  intros Hi Et Hr.
  assert (p ∈ ps) as Hp by (destruct Hr as (l1 & l2 & -> & _); rewrite elem_of_app, elem_of_cons; tauto).
  assert (p' ∈ ps') as Hp' by (destruct Hr as (l1 & l2 & _ & ->); rewrite elem_of_app, elem_of_cons; tauto).
  pose proof (pool_in_ok _ p Hi Hp) as Hok. pose proof (pool_take_spec p Hok) as Hs. rewrite Et in Hs.
  destruct Hs as (slot & Hsl & -> & Hb & Hok' & Hbase & Hbits & Hcow).
  pose proof (replaced_inv p p' ps ps' fr Hr Hbase Hok' Hi) as Hi'.
  pose proof Hok as [(? & ? & ?) _ _ _ [Hc _]].
  assert (forall j, j <> slot -> lbit (bitmap p') j = lbit (bitmap p) j) as Hj.
  { intros j Hj'. rewrite Hbits. destruct (Z.eqb_spec slot j); [lia|by rewrite orb_false_r]. }
  pose proof (replaced_allocated p p' ps ps' fr slot true Hr Hbase Hsl Hi
    ltac:(by rewrite Hbits, Z.eqb_refl, orb_true_r) Hj) as Ha.
  split; [done|]. split; [lia|]. split_and!.
  - rewrite allocated_spec by done. intros (r & Hr1 & Hc1 & _ & _ & Hb1). simpl in Hr1.
    destruct (slot_covers p slot Hok ltac:(lia)) as [Hc2 Hd].
    pose proof (pool_unique _ _ r p Hi Hr1 Hp Hc1 Hc2) as ->.
    rewrite Hd in Hb1. congruence.
  - intros q. rewrite Ha. destruct (Z.eq_dec q (base_phys p + slot * 4096)); tauto.
  - rewrite <- Hbase. apply fresh_refs; try done; [lia|]. rewrite Hcow. apply zlookup_zset. lia.
  - dlia.
Qed.

Lemma new_pool_added ps fr fr' pa junk :
  inv (mk_sub ps fr) -> junk_ok junk -> fs_alloc fr = (Some pa, fr') ->
  page_added (mk_sub ps fr) (pa + PAGE_4K_SIZE)
    (mk_sub (mk_pool pa [3; 0; 0; 0; 0; 0; 0; 0] 2 (zset 1 0 junk) :: ps) fr').
Proof.
  intros Hi Hj Ef. pose proof (new_pool_inv pa junk ps fr fr' Hj Hi Ef) as Hi'.
  destruct (fs_alloc_some fr pa fr' (inv_frames _ Hi) Ef) as (_ & ? & ? & ? & Hnu & _).
  set (np := mk_pool pa _ _ _) in *. split; [done|]. split; [lia|]. split_and!.
  - intros (p & slot & Hp & Hsl & E & _). simpl in Hp. pose proof (pool_in_ok _ p Hi Hp) as [(? & ? & ?) _ _ _ _].
    assert (base_phys p = pa) by dlia. subst pa. apply Hnu.
    pose proof (inv_owned _ Hi) as Ho. simpl in Ho. by eapply Forall_forall in Hp; [|exact Ho].
  - intros q. unfold allocated. simpl. split.
    + intros (p & slot & Hp & Hsl & -> & Hb). apply elem_of_cons in Hp as [->|Hp]; [right|left; by exists p, slot].
      simpl in *. rewrite new_bitmap_bits in Hb by lia. bools; done || lia.
    + intros [(p & slot & Hp & Hrest)| ->]; [exists p, slot; rewrite elem_of_cons; tauto|].
      exists np, 1. rewrite elem_of_cons. split_and!; auto; lia.
  - change (pa + 4096) with (base_phys np + 1 * 4096).
    apply fresh_refs; [done|apply elem_of_cons; auto|lia|]. apply zlookup_zset. destruct Hj. lia.
  - dlia.
Qed.

(** [alloc_4k_page] keeps the allocator's invariant.  A non-zero result
    is a 4 KiB-aligned page that was not allocated, is now, and has no
    copy-on-write references; no other page changes.  Zero is returned only
    when every slot of every pool is taken and the frame allocator is
    exhausted, and then nothing changes. *)
Theorem alloc_4k_page_correct junk st phys st' :
  inv st -> junk_ok junk -> alloc_4k_page junk st = (phys, st') ->
  if phys =? 0 then
    st' = st /\ (fs_alloc (frames st)).1 = None /\
    forall p slot, p ∈ pools st -> 0 < slot < 512 -> allocated st (base_phys p + slot * PAGE_4K_SIZE)
  else
    inv st' /\ ~ allocated st phys /\ (forall q, allocated st' q <-> allocated st q \/ q = phys) /\
    page_cow_refs phys st' = 0 /\ phys mod PAGE_4K_SIZE = 0.
Proof.
  intros Hi Hj. destruct st as [ps fr]. unfold alloc_4k_page. simpl.
  pose proof (search_pools_spec ps) as Hs. destruct (search_pools ps) as [[ph ps']|].
  - destruct Hs as (p & p' & Et & Hr). intros [= <- <-].
    destruct (take_page_added ps ps' fr p p' ph Hi Et Hr) as (? & ? & ?).
    destruct (Z.eqb_spec ph 0); [lia|done].
  - destruct (fs_alloc fr) as [[pa|] fr'] eqn:Ef; intros [= <- <-].
    + destruct (new_pool_added ps fr fr' pa junk Hi Hj Ef) as (? & ? & ?).
      destruct (fs_alloc_some fr pa fr' (inv_frames _ Hi) Ef) as (_ & ? & ? & _).
      rewrite wrap64_small by lia. destruct (Z.eqb_spec (pa + 4096) 0); [lia|done].
    + simpl. pose proof (fs_alloc_none fr fr' (inv_frames _ Hi) Ef) as ->. split; [done|]. split; [done|].
      intros p slot Hp Hsl. exists p, slot. split; [done|]. split; [done|]. split; [done|].
      pose proof (pool_take_spec p (pool_in_ok _ p Hi Hp)) as Ht.
      eapply Forall_forall in Hs; [|exact Hp]. simpl in Hs. rewrite Hs in Ht. apply Ht. lia.
Qed.

(** ** Freeing *)

Lemma on_pool_replaced phys f p ps :
  p ∈ ps -> covers phys p = true -> Forall pool_ok ps -> NoDup (base_phys <$> ps) ->
  replaced p (f p) ps (on_pool phys f ps).
Proof.
  intros Hp Hc. induction ps as [|q ps IH]; intros Hok Hnd; [by apply not_elem_of_nil in Hp|].
  apply Forall_cons in Hok as [Hq Hok]. apply NoDup_cons in Hnd as [Hni Hnd]. simpl.
  apply elem_of_cons in Hp as [->|Hp].
  { rewrite Hc. by exists [], ps. }
  destruct (covers phys q) eqn:Ec.
  - destruct Hni. apply list_elem_of_fmap. exists p. split; [|done].
    rewrite covers_spec in Ec, Hc by (try done; by eapply Forall_forall in Hok). congruence.
  - destruct (IH Hp Hok Hnd) as (l1 & l2 & E1 & E2). exists (q :: l1), l2. simpl. by rewrite <- E1, E2.
Qed.

Lemma on_pool_id phys f ps :
  (forall p, p ∈ ps -> covers phys p = true -> f p = p) -> on_pool phys f ps = ps.
Proof.
  induction ps as [|p ps IH]; intros Hf; [done|]. simpl. destruct (covers phys p) eqn:E.
  - rewrite Hf; [done|apply elem_of_cons; auto|done].
  - rewrite IH; [done|]. intros q Hq. apply Hf. apply elem_of_cons; auto.
Qed.

Lemma pool_free_eq p phys :
  pool_ok p -> covers phys p = true ->
  let slot := (phys - base_phys p) / PAGE_4K_SIZE in
  pool_free phys p =
    if lbit (bitmap p) slot then
      mk_pool (base_phys p) (zalter (fun w => w &~ shl64 1 (slot mod 64)) (slot / 64) (bitmap p))
        (wrap32 (alloc_count p - 1)) (cow_count p)
    else p.
Proof.
  intros Hok Hc. destruct (slot_bounds p phys Hok Hc) as (E1 & Hr & _ & E2). cbv zeta.
  unfold pool_free. rewrite E1, E2. destruct (Z.ltb_spec ((phys - base_phys p) / 4096) 512); [|lia].
  rewrite land_bit_test by (apply Z.mod_pos_bound; lia). done.
Qed.

Lemma pool_free_ok p slot :
  pool_ok p -> 0 < slot < 512 -> lbit (bitmap p) slot = true ->
  pool_ok (mk_pool (base_phys p) (zalter (fun w => w &~ shl64 1 (slot mod 64)) (slot / 64) (bitmap p))
        (wrap32 (alloc_count p - 1)) (cow_count p)).
Proof.
  intros [Hb [Hw8 Hw] Hc Hself Hcow] Hs Hbit.
  assert (forall j, lbit (zalter (fun w => w &~ shl64 1 (slot mod 64)) (slot / 64) (bitmap p)) j =
    lbit (bitmap p) j && negb (slot =? j)) as Hbits by (intros; apply lbit_clear; [done|lia]).
  constructor; simpl; try done.
  - rewrite zlen_zalter. split; [done|]. apply Forall_zalter; [done|]. intros.
    apply clear_bit_u64; [done|]. apply Z.mod_pos_bound. lia.
  - rewrite (zcount_change (lbit (bitmap p)) _ 0 512 slot), Hbits, Hbit, Z.eqb_refl, <- Hc; [|lia|].
    2: { intros j Hj. rewrite Hbits. destruct (Z.eqb_spec slot j); [lia|by rewrite andb_true_r]. }
    pose proof (zcount_bounds (lbit (bitmap p)) 0 512). simpl. unfold wrap32.
    pose proof (zcount_pos (lbit (bitmap p)) 0 512 slot ltac:(lia) Hbit). rewrite Z.mod_small; lia.
  - rewrite Hbits, Hself. by destruct (Z.eqb_spec slot 0); [lia|].
Qed.

Lemma free_noop st phys :
  inv st -> ~ allocated st phys ->
  (forall p, p ∈ pools st -> covers phys p = true -> pool_free phys p = p) ->
  inv (free_4k_page phys st) /\
  (forall q, allocated (free_4k_page phys st) q <-> allocated st q /\ q <> phys) /\
  (~ allocated st phys -> free_4k_page phys st = st).
Proof.
  intros Hi Hn Hf. assert (free_4k_page phys st = st) as ->.
  { unfold free_4k_page. destruct (phys =? 0); [done|]. rewrite on_pool_id by done. by destruct st. }
  split; [done|]. split; [|done]. intros q. split; [|tauto]. intros Ha. split; [done|]. by intros ->.
Qed.

Lemma free_taken st p slot :
  inv st -> p ∈ pools st -> 0 < slot < 512 -> lbit (bitmap p) slot = true ->
  let phys := base_phys p + slot * PAGE_4K_SIZE in
  inv (free_4k_page phys st) /\
  forall q, allocated (free_4k_page phys st) q <-> allocated st q /\ q <> phys.
Proof.
  intros Hi Hp Hslot Hb phys. pose proof (pool_in_ok _ p Hi Hp) as Hok. destruct st as [ps fr].
  simpl in Hp. destruct (slot_covers p slot Hok ltac:(lia)) as [Hc Hd]. fold phys in Hc, Hd.
  pose proof (pool_free_eq p phys Hok Hc) as Hf. cbv zeta in Hf. rewrite Hd, Hb in Hf.
  pose proof (on_pool_replaced phys (pool_free phys) p ps Hp Hc (inv_pools _ Hi) (inv_distinct _ Hi)) as Hrep.
  pose proof (pool_free_ok p slot Hok Hslot Hb) as Hok'. rewrite <- Hf in Hok'.
  assert (forall j, lbit (bitmap (pool_free phys p)) j = lbit (bitmap p) j && negb (slot =? j)) as Hbits.
  { intros j. rewrite Hf. apply lbit_clear; [apply Hok|]. rewrite (proj1 (po_words p Hok)). lia. }
  unfold free_4k_page. pose proof Hok as [(? & ? & ?) _ _ _ _].
  destruct (Z.eqb_spec phys 0); [unfold phys in *; lia|].
  split; [eapply replaced_inv; try done; by rewrite Hf|].
  intros q. simpl. rewrite (replaced_allocated p _ ps _ fr slot false Hrep); try done.
  - fold phys. split; [intros [[_ ?]|?]; [done|tauto]|tauto].
  - by rewrite Hf.
  - by rewrite Hbits, Z.eqb_refl, andb_false_r.
  - intros j Hj. rewrite Hbits. destruct (Z.eqb_spec slot j); [lia|by rewrite andb_true_r].
Qed.

(** Freeing an allocated page removes exactly that page from the set of
    allocated pages and keeps the invariant; freeing a page that is not
    allocated (a double free included) changes nothing, as long as the address
    is not in slot 0 of a pool, where the pool's own record lives. *)
Theorem free_4k_page_correct st phys :
  inv st -> (forall p, p ∈ pools st -> covers phys p = true -> PAGE_4K_SIZE <= phys - base_phys p) ->
  phys mod PAGE_4K_SIZE = 0 ->
  inv (free_4k_page phys st) /\
  (forall q, allocated (free_4k_page phys st) q <-> allocated st q /\ q <> phys) /\
  (~ allocated st phys -> free_4k_page phys st = st).
Proof.
  intros Hi Hs Hm.
  destruct (find_pool_locked phys st) as [p|] eqn:E.
  2: { pose proof (find_pool_none _ phys Hi E) as Hn. apply free_noop; [done| |].
       - rewrite allocated_spec by done. intros (p & Hp & Hc & _). rewrite Hn in Hc; done.
       - intros q Hq Hcq. rewrite Hn in Hcq; done. }
  apply find_pool_spec in E as [Hp Hc]; [|done].
  pose proof (pool_in_ok _ p Hi Hp) as Hok. destruct (slot_bounds p phys Hok Hc) as (E1 & Hr & _ & E2).
  specialize (Hs p Hp Hc). pose proof (pool_free_eq p phys Hok Hc) as Hf. cbv zeta in Hf.
  set (slot := (phys - base_phys p) / 4096) in *.
  pose proof Hok as [(? & ? & ?) _ _ _ _].
  assert (0 < slot < 512) as Hslot by (unfold slot in *; dlia).
  assert (phys = base_phys p + slot * 4096) as Hphys by (unfold slot; dlia).
  destruct (lbit (bitmap p) slot) eqn:Hb.
  - destruct (free_taken st p slot) as [Hi' Ha]; try done. rewrite <- Hphys in Hi', Ha.
    split; [done|]. split; [done|]. intros []. exists p, slot. done.
  - apply free_noop; [done| |].
    + rewrite allocated_spec by done. intros (r & Hr1 & Hc1 & _ & _ & Hb1).
      pose proof (pool_unique _ _ r p Hi Hr1 Hp Hc1 Hc) as ->. unfold slot in Hb. congruence.
    + intros q Hq Hcq. by rewrite (pool_unique _ _ q p Hi Hq Hp Hcq Hc).
Qed.

(** ** Copy-on-write counts *)

Lemma set_cow_ok f phys p :
  pool_ok p -> (forall c, 0 <= f c < 65536) -> pool_ok (set_cow f phys p).
Proof.
  intros [H1 H2 H3 H4 [H5 H6]] Hf. constructor; simpl; try done. rewrite zlen_zalter.
  split; [done|]. apply Forall_zalter; [done|]. intros; apply Hf.
Qed.

Lemma wrap16_range x : 0 <= wrap16 x < 65536.
Proof. apply Z.mod_pos_bound. lia. Qed.

Section cow_update.
Context (st : state) (phys : Z) (f : Z -> Z).
Context (Hi : inv st) (Hf : forall c, 0 <= f c < 65536).
Let st' := mk_sub (on_pool phys (set_cow f phys) (pools st)) (frames st).

Lemma cow_update_inv : inv st'.
Proof using Hi Hf.
  destruct Hi as [H1 H2 H3 H4]. constructor; simpl; try done.
  - apply Forall_forall. intros q [[Hq _]|(p & Hp & _ & ->)]%elem_of_on_pool; [|apply set_cow_ok; [|done]|done|done];
      by eapply Forall_forall in H2.
  - by rewrite on_pool_bases.
  - apply Forall_forall. rewrite Forall_forall in H4.
    intros q [[Hq _]|(p & Hp & _ & ->)]%elem_of_on_pool; [by apply H4|by apply (H4 p)|done|done].
Qed.

Lemma cow_update_refs p q :
  p ∈ pools st -> covers phys p = true ->
  page_cow_refs q st' =
    if q / PAGE_4K_SIZE =? phys / PAGE_4K_SIZE then f (page_cow_refs q st) else page_cow_refs q st.
Proof using Hi Hf.
  intros Hp Hc. pose proof cow_update_inv as Hi'. pose proof (pool_in_ok st p Hi Hp) as Hok.
  pose proof (elem_of_on_pool phys (set_cow f phys) (pools st)) as Hel.
  destruct (find_pool_locked q st) as [r|] eqn:E.
  - apply find_pool_spec in E as [Hr Hcr]; [|done]. pose proof (pool_in_ok st r Hi Hr) as Hokr.
    destruct (slot_bounds r q Hokr Hcr) as (_ & Hsl & _).
    pose proof Hokr as [(? & ? & ?) _ _ _ [Hcl _]]. destruct (covers phys r) eqn:Ecr.
    + pose proof (pool_unique st phys r p Hi Hr Hp Ecr Hc) as ->.
      assert (set_cow f phys p ∈ pools st') as Hin by (apply Hel; [apply Hi..|right; by exists p]).
      rewrite (refs_of st' q (set_cow f phys p)), (refs_of st q p) by done. simpl.
      destruct (slot_bounds p phys Hok Hc) as (_ & _ & -> & _).
      destruct (Z.eqb_spec (q / 4096) (phys / 4096)).
      * replace ((q - base_phys p) / 4096) with ((phys - base_phys p) / 4096) in * by dlia.
        rewrite zlookup_zalter.
        by destruct (zlookup_in_range (cow_count p) ((phys - base_phys p) / 4096) ltac:(lia)) as [c ->].
      * rewrite zlookup_zalter_ne; [done|dlia].
    + assert (r ∈ pools st') as Hin by (apply Hel; [apply Hi..|by left]).
      rewrite (refs_of st' q r), (refs_of st q r) by done.
      destruct (Z.eqb_spec (q / 4096) (phys / 4096)); [|done]. exfalso.
      rewrite covers_spec in Hcr by done. assert (covers phys r = true); [|congruence].
      apply covers_spec; [done|]. dlia.
  - pose proof (find_pool_none st q Hi E) as Hn. unfold page_cow_refs. rewrite E.
    destruct (find_pool_locked q st') as [r|] eqn:E'.
    { apply find_pool_spec in E' as [Hr Hcr]; [|done].
      apply Hel in Hr as [[Hr _]|(r' & Hr & _ & ->)]; [| |apply Hi..].
      - rewrite Hn in Hcr; done.
      - change (covers q (set_cow f phys r')) with (covers q r') in Hcr. rewrite Hn in Hcr; done. }
    destruct (Z.eqb_spec (q / 4096) (phys / 4096)); [|done]. exfalso.
    specialize (Hn p Hp). rewrite covers_spec in Hc by done.
    assert (covers q p = true); [|congruence]. pose proof Hok as [(? & ? & ?) _ _ _ _].
    apply covers_spec; [done|]. dlia.
Qed.
End cow_update.

Lemma refs_range st phys p :
  inv st -> p ∈ pools st -> covers phys p = true -> 0 <= page_cow_refs phys st < 65536.
Proof.
  intros Hi Hp Hc. rewrite (refs_of st phys p) by done. pose proof (pool_in_ok st p Hi Hp) as [_ _ _ _ [_ Hf]].
  destruct (cow_count p !!z _) as [c|] eqn:E; [|simpl; lia]. simpl. unfold zlookup in E.
  destruct (0 <=? _); [|done]. by eapply Forall_lookup_1 in Hf.
Qed.

(** Addresses of one 4 KiB page share their counter. *)
Lemma refs_page st phys q :
  inv st -> q / PAGE_4K_SIZE = phys / PAGE_4K_SIZE -> page_cow_refs q st = page_cow_refs phys st.
Proof.
  intros Hi He. destruct (find_pool_locked phys st) as [p|] eqn:E.
  - apply find_pool_spec in E as [Hp Hc]; [|done]. pose proof (pool_in_ok st p Hi Hp) as Hok.
    assert (covers q p = true) as Hcq by (rewrite covers_spec in * by done; dlia).
    rewrite (refs_of st q p), (refs_of st phys p) by done. pose proof Hok as [(? & ? & ?) _ _ _ _].
    do 2 f_equal. dlia.
  - unfold page_cow_refs. rewrite E. destruct (find_pool_locked q st) as [p|] eqn:E'; [|done].
    apply find_pool_spec in E' as [Hp Hc]; [|done]. pose proof (pool_in_ok st p Hi Hp) as Hok.
    assert (covers phys p = true) by (rewrite covers_spec in * by done; dlia).
    pose proof (find_pool_none st phys Hi E p Hp). congruence.
Qed.

Lemma page_cow_put_eq st phys p :
  inv st -> p ∈ pools st -> covers phys p = true ->
  page_cow_put phys st = (page_cow_refs phys st =? 1,
    if 0 <? page_cow_refs phys st
    then mk_sub (on_pool phys (set_cow (fun c => wrap16 (c - 1)) phys) (pools st)) (frames st) else st).
Proof.
  intros Hi Hp Hc. pose proof (refs_range st phys p Hi Hp Hc) as Hr. unfold page_cow_put.
  unfold page_cow_refs in Hr |- *. rewrite (proj2 (find_pool_spec st phys p Hi) (conj Hp Hc)) in Hr |- *.
  set (c := default 0 _) in *. destruct (Z.ltb_spec 0 c).
  - f_equal. unfold wrap16. rewrite Z.mod_small by lia. bools; done || lia.
  - f_equal. bools; done || lia.
Qed.

Lemma put_refs st phys p q :
  inv st -> p ∈ pools st -> covers phys p = true ->
  page_cow_refs q (page_cow_put phys st).2 =
    if q / PAGE_4K_SIZE =? phys / PAGE_4K_SIZE then Z.max 0 (page_cow_refs q st - 1)
    else page_cow_refs q st.
Proof.
  intros Hi Hp Hc. pose proof (refs_range st phys p Hi Hp Hc) as Hr.
  rewrite (page_cow_put_eq st phys p) by done. simpl.
  assert (q / PAGE_4K_SIZE = phys / PAGE_4K_SIZE -> page_cow_refs q st = page_cow_refs phys st) as Hq
    by by apply refs_page.
  destruct (Z.ltb_spec 0 (page_cow_refs phys st)).
  - rewrite (cow_update_refs st phys _ Hi (fun c => wrap16_range _) p q Hp Hc).
    destruct (Z.eqb_spec (q / 4096) (phys / 4096)); [|done]. rewrite Hq by done. unfold wrap16.
    rewrite Z.mod_small; lia.
  - destruct (Z.eqb_spec (q / 4096) (phys / 4096)); [|done]. rewrite Hq by done. lia.
Qed.

Lemma get_refs st phys p q :
  inv st -> p ∈ pools st -> covers phys p = true -> page_cow_refs phys st < 65535 ->
  page_cow_refs q (page_cow_get phys st) =
    page_cow_refs q st + (if q / PAGE_4K_SIZE =? phys / PAGE_4K_SIZE then 1 else 0).
Proof.
  intros Hi Hp Hc Hlt. pose proof (refs_range st phys p Hi Hp Hc) as Hr. unfold page_cow_get.
  rewrite (cow_update_refs st phys _ Hi (fun c => wrap16_range _) p q Hp Hc).
  destruct (Z.eqb_spec (q / 4096) (phys / 4096)) as [He|]; [|lia].
  rewrite (refs_page st phys q) by done. unfold wrap16. rewrite Z.mod_small; lia.
Qed.

Lemma cow_update_allocated st phys f q :
  inv st -> allocated (mk_sub (on_pool phys (set_cow f phys) (pools st)) (frames st)) q <-> allocated st q.
Proof.
  intros [H1 H2 H3 H4]. unfold allocated. simpl. split.
  - intros (p & slot & Hp & Hrest). apply elem_of_on_pool in Hp as [[Hp _]|(p' & Hp & _ & ->)]; [| |done..].
    + by exists p, slot.
    + by exists p', slot.
  - intros (p & slot & Hp & Hrest). destruct (covers phys p) eqn:E.
    + exists (set_cow f phys p), slot. split; [|done]. apply elem_of_on_pool; [done..|]. right. eauto.
    + exists p, slot. split; [|done]. apply elem_of_on_pool; [done..|]. by left.
Qed.

(** The copy-on-write counters behave as per-page reference counts.  For
    an allocated page, [page_cow_get] adds one reference (as long as the
    16-bit counter is below its maximum), [page_cow_put] removes one and
    reports true exactly when it removed the last, neither touches any other
    page's count or the set of allocated pages, and a get followed by a put
    restores every count. *)
Theorem page_cow_counts st phys :
  inv st -> allocated st phys ->
  let '(zero, st2) := page_cow_put phys st in
  inv (page_cow_get phys st) /\ inv st2 /\
  (page_cow_refs phys st < 65535 ->
     (forall q, page_cow_refs q (page_cow_get phys st) =
        page_cow_refs q st + (if q / PAGE_4K_SIZE =? phys / PAGE_4K_SIZE then 1 else 0)) /\
     (forall q, page_cow_refs q (page_cow_put phys (page_cow_get phys st)).2 = page_cow_refs q st)) /\
  zero = (page_cow_refs phys st =? 1) /\
  (forall q, page_cow_refs q st2 =
     if q / PAGE_4K_SIZE =? phys / PAGE_4K_SIZE then Z.max 0 (page_cow_refs q st - 1)
     else page_cow_refs q st) /\
  (forall q, allocated (page_cow_get phys st) q <-> allocated st q) /\
  (forall q, allocated st2 q <-> allocated st q).
Proof.
  intros Hi Ha. apply allocated_spec in Ha as (p & Hp & Hc & _); [|done].
  pose proof (fun q => put_refs st phys p q Hi Hp Hc) as Hput.
  pose proof (page_cow_put_eq st phys p Hi Hp Hc) as Hpe.
  assert (inv (page_cow_get phys st)) as Hg by (apply cow_update_inv; [done|intros; apply wrap16_range]).
  destruct (page_cow_put phys st) as [zero st2]. simpl in Hput. injection Hpe as -> E2.
  split; [done|]. split.
  { rewrite E2. destruct (0 <? _); [apply cow_update_inv; [done|intros; apply wrap16_range]|done]. }
  split_and!; try done.
  - intros Hlt. split; [by intros; eapply get_refs|]. intros q.
    assert (set_cow (fun c => wrap16 (c + 1)) phys p ∈ pools (page_cow_get phys st)) as Hp'.
    { apply elem_of_on_pool; [apply Hi..|]. right. eauto. }
    rewrite (put_refs _ phys _ q Hg Hp') by done.
    rewrite (get_refs st phys p q) by done. destruct (Z.eqb_spec (q / 4096) (phys / 4096)); [|lia].
    rewrite (refs_page st phys q) by done. pose proof (refs_range st phys p Hi Hp Hc). lia.
  - intros q. by apply cow_update_allocated.
  - intros q. rewrite E2. destruct (0 <? _); [by apply cow_update_allocated|done].
Qed.

End allocator.

(** ** The frame allocator implements [FrameSource] *)

Definition frame_alloc (s : Pmm.state) : option Z * Pmm.state :=
  match Pmm.alloc_pages Pmm.ZONE_NORMAL 1 s with
  | (Some i, s') => (Pmm.phy_address <$> Pmm.pages_struct s' !!z i, s')
  | (None, s') => (None, s')
  end.

Definition frame_used (s : Pmm.state) (a : Z) : Prop :=
  exists i p zi, Pmm.pages_struct s !!z i = Some p /\ Pmm.zone_struct p = Some zi /\
    Pmm.phy_address p = a /\ Pmm.bit s i = true.

Lemma frame_alloc_some s a s' :
  Pmm.wf s -> frame_alloc s = (Some a, s') ->
  Pmm.wf s' /\ 0 <= a /\ a + PAGE_2M_SIZE < U64 /\ a mod PAGE_2M_SIZE = 0 /\
  ~ frame_used s a /\ forall b, frame_used s' b <-> frame_used s b \/ b = a.
Proof.
  intros Hw. unfold frame_alloc.
  destruct (Pmm.alloc_pages Pmm.ZONE_NORMAL 1 s) as [[i|] s1] eqn:E; [|done].
  destruct (Pmm.alloc_one_occupy _ s i s1 Hw E) as (lo & hi & zi & z & _ & _ & Hz & Hin & Hb & ->).
  pose proof (Pmm.wf_frame_range s zi z i Hw Hz Hin) as [_ Hrange].
  destruct (Pmm.wf_zone s Hw _ _ Hz) as [Hzr Hza _ Hpg]. destruct (Hpg i Hin) as (pg & Ep & Es & Hpa).
  unfold Pmm.in_zone in Hin. set (f := Pmm.set_attribute _).
  assert (forall j, Pmm.pages_struct (Pmm.occupy f i zi s) !!z j =
    if decide (i = j) then Some (f pg) else Pmm.pages_struct s !!z j) as Hpages.
  { intros j. unfold Pmm.occupy. simpl. case_decide as Hd; [|by apply zlookup_zalter_ne].
    subst j. by rewrite zlookup_zalter, Ep. }
  assert (forall j, Pmm.bit (Pmm.occupy f i zi s) j = Pmm.bit s j || (i =? j)) as Hbits
    by (intros; apply Pmm.bit_occupy; [apply Hw|done]).
  rewrite Hpages, decide_True by done. simpl. intros [= <- <-].
  split; [by eapply Pmm.occupy_wf|]. split; [lia|]. split; [lia|]. split; [dlia|]. split.
  - intros (j & q & zj & Eq & Esq & Ha & Hbj).
    assert (j = i) as -> by by eapply (Pmm.frame_address_inj s j i q pg). congruence.
  - intros b. unfold frame_used. split.
    + intros (j & q & zj & Eq & Esq & <- & Hbj). rewrite Hpages in Eq. rewrite Hbits in Hbj.
      case_decide as Hd; [simplify_eq; by right|]. left. exists j, q, zj. split_and!; try done.
      destruct (Z.eqb_spec i j); [done|]. by rewrite orb_false_r in Hbj.
    + intros [(j & q & zj & Eq & Esq & <- & Hbj)| ->].
      * exists j, q, zj. rewrite Hpages, Hbits, Hbj. case_decide as Hd; [subst j; congruence|done].
      * exists i, (f pg), zi. rewrite Hpages, Hbits, decide_True, Z.eqb_refl, orb_true_r by done. done.
Qed.

Lemma frame_alloc_none s s' : Pmm.wf s -> frame_alloc s = (None, s') -> s' = s.
Proof.
  intros Hw. unfold frame_alloc.
  destruct (Pmm.alloc_pages Pmm.ZONE_NORMAL 1 s) as [[i|] s1] eqn:E.
  - destruct (Pmm.alloc_one_occupy _ s i s1 Hw E) as (lo & hi & zi & z & _ & _ & Hz & Hin & Hb & ->).
    destruct (Pmm.wf_zone s Hw _ _ Hz) as [Hzr Hza _ Hpg]. destruct (Hpg i Hin) as (pg & Ep & Es & Hpa).
    unfold Pmm.occupy. simpl. by rewrite zlookup_zalter, Ep.
  - intros [= <-]. pose proof (Pmm.alloc_pages_spec Pmm.ZONE_NORMAL 1 s ltac:(lia)) as Hs.
    rewrite E in Hs. apply Hs.
Qed.

#[export] Instance pmm_frames : FrameSource Pmm.state := {|
  fs_alloc := frame_alloc;
  fs_inv := Pmm.wf;
  fs_used := frame_used;
  fs_alloc_some := frame_alloc_some;
  fs_alloc_none := frame_alloc_none;
|}.

(** ** The allocator over the small machine of [PmmInit] *)

Definition boot_sub : state := mk_sub [] PmmInit.demo.
Definition junk0 : list Z := replicate 512 7.
(** One page handed out. *)
Definition sub1 : state := (alloc_4k_page junk0 boot_sub).2.

Lemma boot_sub_inv : inv boot_sub.
Proof. constructor; simpl; [apply PmmInit.demo_wf|done|constructor|done]. Qed.

Lemma junk0_ok : junk_ok junk0.
Proof. split; [done|]. apply Forall_replicate. lia. Qed.

Lemma sub1_inv : inv sub1 /\ allocated sub1 4096.
Proof.
  destruct (new_pool_added [] PmmInit.demo (frame_alloc PmmInit.demo).2 0 junk0
    boot_sub_inv junk0_ok ltac:(vm_compute; reflexivity)) as (Hi & _ & _ & Ha & _).
  split; [exact Hi|]. apply Ha. by right.
Qed.

Lemma pmm_4k_page_allocated_correct_witness : allocated sub1 4096.
Proof. apply (pmm_4k_page_allocated_correct sub1 4096 (proj1 sub1_inv)). vm_compute. reflexivity. Defined.

Lemma alloc_4k_page_correct_witness : inv (alloc_4k_page junk0 sub1).2 /\ ~ allocated sub1 8192.
Proof.
  pose proof (alloc_4k_page_correct junk0 sub1 8192 (alloc_4k_page junk0 sub1).2 (proj1 sub1_inv)
    junk0_ok ltac:(vm_compute; reflexivity)) as (Hi & Hn & _). split; assumption.
Defined.

Lemma free_4k_page_correct_witness : inv (free_4k_page 4096 sub1) /\ ~ allocated (free_4k_page 4096 sub1) 4096.
Proof.
  destruct (free_4k_page_correct sub1 4096 (proj1 sub1_inv)) as (Hi & Ha & _).
  - intros p Hp _. apply list_elem_of_singleton in Hp as ->. simpl. lia.
  - reflexivity.
  - split; [exact Hi|]. rewrite Ha. tauto.
Defined.

Lemma page_cow_counts_witness : page_cow_refs 4096 (page_cow_get 4096 sub1) = 1.
Proof.
  pose proof (page_cow_counts sub1 4096 (proj1 sub1_inv) (proj2 sub1_inv)) as Hc.
  destruct (page_cow_put 4096 sub1) as [zero st2]. destruct Hc as (_ & _ & Hget & _).
  rewrite (proj1 (Hget ltac:(vm_compute; reflexivity))). vm_compute. reflexivity.
Defined.

(** [free_4k_page] does not protect slot 0, which holds the pool's own
    record: freeing a pool's base address makes the next allocation return
    that page to a client, a page [pmm_4k_page_allocated] then denies.  (Pool
    at 2 MiB; the first frame of the machine is taken first.) *)
Theorem free_4k_page_slot0 :
  exists st st' : state, inv st /\ base_phys <$> pools st = [2097152] /\
    alloc_4k_page junk0 (free_4k_page 2097152 st) = (2097152, st') /\
    pmm_4k_page_allocated 2097152 st' = false /\ ~ inv (free_4k_page 2097152 st).
Proof.
  pose (fr := Pmm.occupy (Pmm.set_attribute 1) 0 0 PmmInit.demo).
  assert (Pmm.wf fr) as Hw.
  { eapply Pmm.occupy_wf; [done|apply PmmInit.demo_wf|reflexivity|unfold Pmm.in_zone; simpl; lia|reflexivity]. }
  assert (inv (mk_sub [] fr)) as Hi0 by (constructor; simpl; [done|done|constructor|done]).
  pose (st := (alloc_4k_page junk0 (mk_sub [] fr)).2).
  assert (inv st) as Hi.
  { apply (new_pool_added [] fr (frame_alloc fr).2 2097152 junk0 Hi0 junk0_ok). vm_compute. reflexivity. }
  exists st, (alloc_4k_page junk0 (free_4k_page 2097152 st)).2.
  split; [done|]. split; [vm_compute; reflexivity|]. split; [vm_compute; reflexivity|].
  split; [vm_compute; reflexivity|]. intros [_ Hp _ _].
  assert (Forall (fun p => lbit (bitmap p) 0 = true) (pools (free_4k_page 2097152 st))) as Hs
    by (eapply Forall_impl; [exact Hp|]; intros p []; done).
  vm_compute in Hs. by inversion Hs.
Qed.

End Subpage.
