(* ===== verification/CList.v ===== *)
(** The intrusive circular doubly linked list of src/libc/include/list.h, on a
    heap of nodes.  The ring of nodes reached from a head is described by a
    list of addresses, and each pointer operation refines the corresponding
    operation on that list; the other components use the list. *)

From stdpp Require Import base tactics numbers option gmap sets list.
From Stdlib Require Import ZArith Lia.
From S2P Require Import Prelude.

Module CList.

(** ** The code *)

(** [struct List]; addresses are integers. *)
Record node := mk_node { prev : Z; next : Z }.
Abbreviation heap := (gmap Z node) (only parsing).

(** Loads and stores of one field; [None] is an access to an address that
    holds no node. *)
Definition ld_next (h : heap) (a : Z) : option Z := next <$> h !! a.
Definition ld_prev (h : heap) (a : Z) : option Z := prev <$> h !! a.
Definition st_next (a v : Z) (h : heap) : option heap :=
  n ← h !! a; Some (<[a := mk_node (prev n) v]> h).
Definition st_prev (a v : Z) (h : heap) : option heap :=
  n ← h !! a; Some (<[a := mk_node v (next n)]> h).

Definition list_init (lst : Z) (h : heap) : option heap :=
  h ← st_prev lst lst h;
  st_next lst lst h.

Definition list_add_to_behind (entry new_entry : Z) (h : heap) : option heap :=
  en ← ld_next h entry;
  h ← st_next new_entry en h;
  h ← st_prev new_entry entry h;
  nn ← ld_next h new_entry;
  h ← st_prev nn new_entry h;
  st_next entry new_entry h.

Definition list_add_to_before (entry new_entry : Z) (h : heap) : option heap :=
  h ← st_next new_entry entry h;
  ep ← ld_prev h entry;
  h ← st_prev new_entry ep h;
  ep ← ld_prev h entry;
  h ← st_next ep new_entry h;
  st_prev entry new_entry h.

Definition list_del (entry : Z) (h : heap) : option heap :=
  en ← ld_next h entry;
  ep ← ld_prev h entry;
  h ← st_prev en ep h;
  ep ← ld_prev h entry;
  en ← ld_next h entry;
  st_next ep en h.

Definition list_del_init (entry : Z) (h : heap) : option heap :=
  h ← list_del entry h;
  list_init entry h.

Definition list_is_empty (entry : Z) (h : heap) : option bool :=
  en ← ld_next h entry;
  if entry =? en then ep ← ld_prev h entry; Some (entry =? ep) else Some false.

(** [list_prev] and [list_next] map a null link to a null result. *)
Definition list_prev (entry : Z) (h : heap) : option Z := ld_prev h entry.
Definition list_next (entry : Z) (h : heap) : option Z := ld_next h entry.

(** ** Rings *)

(** [h] links [a] to [b]. *)
Definition linked (h : heap) (a b : Z) : Prop := ld_next h a = Some b /\ ld_prev h b = Some a.

(** [chain h a l b]: the nodes [a :: l] are linked in order and the last one
    to [b]. *)
Fixpoint chain (h : heap) (a : Z) (l : list Z) (b : Z) : Prop :=
  match l with
  | [] => linked h a b
  | x :: l => linked h a x /\ chain h x l b
  end.

(** [ring h a l]: starting at [a] and following [next], the nodes are [a],
    then [l], then [a] again, all distinct, with [prev] the inverse. *)
Definition ring (h : heap) (a : Z) (l : list Z) : Prop := NoDup (a :: l) /\ chain h a l a.

(** The heaps agree outside a set of addresses. *)
Definition same_outside (h h' : heap) (l : list Z) : Prop :=
  forall a, a ∉ l -> h' !! a = h !! a.

Lemma chain_app h a l1 x l2 b : chain h a (l1 ++ x :: l2) b <-> chain h a l1 x /\ chain h x l2 b.
Proof. revert a. induction l1 as [|y l1 IH]; intros a; simpl; [tauto|]. rewrite IH. tauto. Qed.

Lemma linked_same h h' a b :
  ld_next h' a = ld_next h a -> ld_prev h' b = ld_prev h b -> linked h a b -> linked h' a b.
Proof. unfold linked. intros -> ->. done. Qed.

(** A chain survives a change of [next] fields outside its sources and of
    [prev] fields outside its targets. *)
Lemma chain_same h h' a l b :
  (forall x, x ∈ a :: l -> ld_next h' x = ld_next h x) ->
  (forall x, x ∈ l ++ [b] -> ld_prev h' x = ld_prev h x) ->
  chain h a l b -> chain h' a l b.
Proof.
  revert a. induction l as [|x l IH]; intros a Hn Hp; simpl.
  - apply linked_same; [apply Hn|apply Hp]; set_solver.
  - intros [Hl Hc]. split.
    + eapply linked_same; [..|exact Hl]; [apply Hn|apply Hp]; set_solver.
    + apply IH; [|by intros; apply Hp; simpl; set_solver|done]. intros. apply Hn. set_solver.
Qed.

Lemma chain_mapped h a l b x : chain h a l b -> x ∈ a :: l ++ [b] -> exists n, h !! x = Some n.
Proof.
  unfold chain, linked, ld_next, ld_prev. revert a. induction l as [|y l IH]; intros a; simpl.
  - intros [Hn Hp] Hx. destruct (h !! a) eqn:E1, (h !! b) eqn:E2; simpl in *; try done. set_solver.
  - intros [[Hn Hp] Hc] Hx. destruct (h !! a) eqn:E1; simpl in *; [|done].
    apply elem_of_cons in Hx as [->|Hx]; [eauto|]. by apply (IH y).
Qed.

(** A ring can be entered at any of its nodes. *)
Lemma ring_rotate h a l1 x l2 : ring h a (l1 ++ x :: l2) <-> ring h x (l2 ++ a :: l1).
Proof.
  unfold ring. rewrite !chain_app.
  assert (a :: l1 ++ x :: l2 ≡ₚ x :: l2 ++ a :: l1) as ->.
  { rewrite (Permutation_app_comm l1), (Permutation_app_comm l2). simpl.
    rewrite (Permutation_app_comm l2 l1). constructor. }
  tauto.
Qed.

(** ** The effect of the operations on the link fields *)

Definition mapped (h : heap) (a : Z) : Prop := is_Some (h !! a).

(** [h'] is [h] with some links of the addresses [l] rewritten: the [next]
    fields are those of [fn], the [prev] fields those of [fp]. *)
Record relinked (h h' : heap) (l : list Z) (fn fp : Z -> option Z) : Prop := {
  rl_next : forall x, ld_next h' x = fn x;
  rl_prev : forall x, ld_prev h' x = fp x;
  rl_out : same_outside h h' l;
  rl_map : forall x, mapped h' x <-> mapped h x;
}.

Definition upd (a v : Z) (f : Z -> option Z) : Z -> option Z :=
  fun x => if decide (x = a) then Some v else f x.

Lemma st_next_spec h a v :
  mapped h a ->
  exists h', st_next a v h = Some h' /\ relinked h h' [a] (upd a v (ld_next h)) (ld_prev h).
Proof.
  intros [n E]. unfold st_next. rewrite E. eexists. split; [reflexivity|].
  constructor; unfold ld_next, ld_prev, upd, mapped.
  - intros x. case_decide as Hd; [subst; by rewrite lookup_insert_eq|by rewrite lookup_insert_ne].
  - intros x. destruct (decide (x = a)) as [->|]; [by rewrite lookup_insert_eq, E|by rewrite lookup_insert_ne].
  - intros x Hx. rewrite lookup_insert_ne; [done|set_solver].
  - intros x. destruct (decide (x = a)) as [->|]; [rewrite lookup_insert_eq, E; split; eauto|by rewrite lookup_insert_ne].
Qed.

Lemma st_prev_spec h a v :
  mapped h a ->
  exists h', st_prev a v h = Some h' /\ relinked h h' [a] (ld_next h) (upd a v (ld_prev h)).
Proof.
  intros [n E]. unfold st_prev. rewrite E. eexists. split; [reflexivity|].
  constructor; unfold ld_next, ld_prev, upd, mapped.
  - intros x. destruct (decide (x = a)) as [->|]; [by rewrite lookup_insert_eq, E|by rewrite lookup_insert_ne].
  - intros x. case_decide as Hd; [subst; by rewrite lookup_insert_eq|by rewrite lookup_insert_ne].
  - intros x Hx. rewrite lookup_insert_ne; [done|set_solver].
  - intros x. destruct (decide (x = a)) as [->|]; [rewrite lookup_insert_eq, E; split; eauto|by rewrite lookup_insert_ne].
Qed.

(** Execute one store of a sequence. *)
Ltac store :=
  match goal with
  | |- context [st_next ?a ?v ?h] =>
    let h' := fresh "h" in let Hn := fresh "Hn" in let Hp := fresh "Hp" in
    let Ho := fresh "Ho" in let Hm := fresh "Hm" in let E := fresh "E" in
    destruct (st_next_spec h a v) as (h' & E & [Hn Hp Ho Hm]); [|rewrite E; cbn [mbind option_bind]]
  | |- context [st_prev ?a ?v ?h] =>
    let h' := fresh "h" in let Hn := fresh "Hn" in let Hp := fresh "Hp" in
    let Ho := fresh "Ho" in let Hm := fresh "Hm" in let E := fresh "E" in
    destruct (st_prev_spec h a v) as (h' & E & [Hn Hp Ho Hm]); [|rewrite E; cbn [mbind option_bind]]
  end.
(** Read a link through the stores so far. *)
Ltac links := repeat match goal with
  | H : forall x, ld_next ?h x = _ |- context [ld_next ?h _] => rewrite H
  | H : forall x, ld_prev ?h x = _ |- context [ld_prev ?h _] => rewrite H
  end.

Lemma same_outside_app h h1 h2 l1 l2 :
  same_outside h h1 l1 -> same_outside h1 h2 l2 -> same_outside h h2 (l1 ++ l2).
Proof. intros H1 H2 a Ha. rewrite H2, H1; set_solver. Qed.

Lemma list_init_links h a :
  mapped h a -> exists h', list_init a h = Some h' /\
    relinked h h' [a] (upd a a (ld_next h)) (upd a a (ld_prev h)).
Proof.
  intros Ha. unfold list_init. store; [done|]. store; [by apply Hm|]. eexists. split; [done|].
  constructor; intros x; links; unfold upd; links; try done.
  - intros Hx. rewrite Ho0, Ho; done.
  - by rewrite Hm0, Hm.
Qed.

Lemma list_add_to_behind_links h e new en :
  ld_next h e = Some en -> mapped h e -> mapped h new -> mapped h en -> e <> new -> en <> new ->
  exists h', list_add_to_behind e new h = Some h' /\
    relinked h h' [e; new; en] (upd e new (upd new en (ld_next h))) (upd en new (upd new e (ld_prev h))).
Proof.
  intros En He Hnew Hen Hne Hne'. unfold list_add_to_behind. rewrite En. cbn [mbind option_bind].
  store; [done|]. store; [by apply Hm|]. links. unfold upd at 1. rewrite decide_True by done.
  cbn [mbind option_bind]. store; [by apply Hm0, Hm|]. store; [by apply Hm1, Hm0, Hm|].
  eexists. split; [done|]. constructor; intros x.
  - links. unfold upd. repeat (case_decide; links; try done); unfold upd; repeat case_decide; done.
  - links. unfold upd. links. unfold upd. repeat (case_decide; links; try done).
  - intros Hx. rewrite Ho2, Ho1, Ho0, Ho; set_solver.
  - by rewrite Hm2, Hm1, Hm0, Hm.
Qed.

Lemma list_add_to_before_links h e new ep :
  ld_prev h e = Some ep -> mapped h e -> mapped h new -> mapped h ep -> e <> new -> ep <> new ->
  exists h', list_add_to_before e new h = Some h' /\
    relinked h h' [e; new; ep] (upd ep new (upd new e (ld_next h))) (upd e new (upd new ep (ld_prev h))).
Proof.
  intros Ep He Hnew Hep Hne Hne'. unfold list_add_to_before.
  store; [done|]. links. rewrite Ep. cbn [mbind option_bind]. store; [by apply Hm|]. links.
  unfold upd at 1. rewrite decide_False, Hp, Ep by done. cbn [mbind option_bind].
  store; [by apply Hm0, Hm|]. store; [by apply Hm1, Hm0, Hm|].
  eexists. split; [done|]. constructor; intros x.
  - links. unfold upd. links. unfold upd. repeat (case_decide; links; try done).
  - links. unfold upd. links. unfold upd. repeat (case_decide; links; try done).
  - intros Hx. rewrite Ho2, Ho1, Ho0, Ho; set_solver.
  - by rewrite Hm2, Hm1, Hm0, Hm.
Qed.

Lemma list_del_links h e en ep :
  ld_next h e = Some en -> ld_prev h e = Some ep -> mapped h en -> mapped h ep -> (en = e <-> ep = e) ->
  exists h', list_del e h = Some h' /\
    relinked h h' [en; ep] (upd ep en (ld_next h)) (upd en ep (ld_prev h)).
Proof.
  intros En Ep Hen Hep Hself. unfold list_del. rewrite En, Ep. cbn [mbind option_bind].
  store; [done|]. links. unfold upd. assert ((if decide (e = en) then Some ep else ld_prev h e) = Some ep) as ->.
  { case_decide; [done|]. done. }
  cbn [mbind option_bind]. links. rewrite En. cbn [mbind option_bind].
  store; [by apply Hm|]. eexists. split; [done|]. constructor; intros x.
  - links. unfold upd. links. done.
  - links. done.
  - intros Hx. rewrite Ho0, Ho; set_solver.
  - by rewrite Hm0, Hm.
Qed.

(** ** Refinement *)

(** The node after the head of a ring. *)
Definition first (a : Z) (l : list Z) : Z := match l with [] => a | x :: _ => x end.

Lemma ring_next h a l : ring h a l -> ld_next h a = Some (first a l).
Proof. intros [_ Hc]. destruct l; simpl in Hc; apply Hc. Qed.

Lemma ring_mapped h a l x : ring h a l -> x ∈ a :: l -> mapped h x.
Proof.
  intros [_ Hc] Hx. apply (chain_mapped h a l a x Hc). rewrite app_comm_cons, elem_of_app. by left.
Qed.

Lemma first_in a l : first a l ∈ a :: l.
Proof. destruct l; simpl; set_solver. Qed.

Lemma ring_frame h h' a l s : ring h a l -> same_outside h h' s -> (forall x, x ∈ a :: l -> x ∉ s) -> ring h' a l.
Proof.
  intros [Hn Hc] Ho Hd. split; [done|]. revert Hc.
  apply chain_same; intros x Hx; unfold ld_next, ld_prev; rewrite Ho; [done| |done|]; apply Hd; set_solver.
Qed.

Lemma relinked_chain h h' s fn fp a l b :
  relinked h h' s fn fp ->
  (forall x, x ∈ a :: l -> fn x = ld_next h x) -> (forall x, x ∈ l ++ [b] -> fp x = ld_prev h x) ->
  chain h a l b -> chain h' a l b.
Proof.
  intros [Hn Hp _ _] H1 H2. apply chain_same; intros x Hx; [rewrite Hn|rewrite Hp]; auto.
Qed.

Lemma upd_eq a v f : upd a v f a = Some v.
Proof. unfold upd. by rewrite decide_True. Qed.
Lemma upd_ne a v f x : x <> a -> upd a v f x = f x.
Proof. intros. unfold upd. by rewrite decide_False. Qed.

Lemma list_add_to_behind_ring h e l new :
  ring h e l -> mapped h new -> new ∉ e :: l ->
  exists h', list_add_to_behind e new h = Some h' /\ ring h' e (new :: l) /\
    same_outside h h' (e :: new :: l) /\ (forall x, mapped h' x <-> mapped h x).
Proof.
  intros Hr Hnew Hni. pose proof (ring_next h e l Hr) as En. pose proof (first_in e l) as Hf.
  assert (e <> new) by set_solver. assert (first e l <> new) by set_solver.
  destruct (list_add_to_behind_links h e new (first e l)) as (h' & E & Hl); try done.
  { eapply ring_mapped; set_solver. } { by eapply ring_mapped. }
  exists h'. pose proof Hl as [Hn Hp Ho Hm]. split; [done|]. destruct Hr as [Hnd Hc]. split_and!; try done.
  2: { intros x Hx. apply Ho. intros Hx'. apply Hx. set_solver. }
  split.
  { apply NoDup_cons in Hnd as [? ?]. apply NoDup_cons. split; [set_solver|]. apply NoDup_cons. set_solver. }
  cbn [chain]. unfold linked at 1. rewrite Hn, Hp, upd_eq, upd_ne, upd_eq by done. split; [done|].
  destruct l as [|x l]; cbn [chain first] in *; unfold linked at 1.
  { rewrite Hn, Hp, upd_eq, upd_ne, upd_eq by done. done. }
  destruct Hc as [Hex Hc]. rewrite Hn, Hp, upd_eq, upd_ne, upd_eq by done. split; [done|].
  apply NoDup_cons in Hnd as [He Hnd]. apply NoDup_cons in Hnd as [Hx Hnd].
  eapply relinked_chain; [exact Hl|..|exact Hc].
  - intros y Hy. rewrite !upd_ne; [done|set_solver|set_solver].
  - intros y Hy. rewrite !upd_ne; [done|set_solver|]. intros ->. set_solver.
Qed.

Lemma ring_rot_last h a l x : ring h a (l ++ [x]) <-> ring h x (a :: l).
Proof. apply (ring_rotate h a l x []). Qed.

Lemma list_add_to_before_ring h e l new :
  ring h e l -> mapped h new -> new ∉ e :: l ->
  exists h', list_add_to_before e new h = Some h' /\ ring h' e (l ++ [new]) /\
    same_outside h h' (e :: new :: l) /\ (forall x, mapped h' x <-> mapped h x).
Proof.
  intros Hr Hnew Hni. assert (e <> new) by set_solver.
  assert (exists ep l', e :: l = l' ++ [ep] /\ linked h ep e) as (ep & l' & El & Hlk).
  { destruct Hr as [_ Hc]. destruct l as [|x l _] using rev_ind; [by exists e, []|].
    apply chain_app in Hc as [_ Hc]. by exists x, (e :: l). }
  assert (ep ∈ e :: l) as Hin by (rewrite El; set_solver). assert (ep <> new) by (intros ->; done).
  destruct (list_add_to_before_links h e new ep) as (h' & E & Hl); try done; [apply Hlk|..].
  { eapply ring_mapped; set_solver. } { by eapply ring_mapped. }
  exists h'. pose proof Hl as [Hn Hp Ho Hm]. split; [done|]. destruct Hr as [Hnd Hc]. split_and!; try done.
  2: { intros x Hx. apply Ho. intros Hx'. apply Hx. set_solver. }
  split.
  { rewrite app_comm_cons. apply NoDup_app. split; [done|]. split; [|apply NoDup_singleton].
    intros x Hx ->%list_elem_of_singleton. done. }
  apply chain_app. split; [|cbn; unfold linked; rewrite Hn, Hp, upd_ne, !upd_eq by done; done].
  destruct l as [|x l _] using rev_ind.
  { destruct l'; simplify_eq/=; [|by destruct l'].
    unfold linked. rewrite Hn, Hp, upd_eq, upd_ne, upd_eq by done. done. }
  rewrite app_comm_cons in El. apply app_inj_2 in El as [<- [= ->]]; [|done].
  apply chain_app in Hc as [Hc _]. apply chain_app. split.
  - rewrite app_comm_cons in Hnd, Hni. apply NoDup_app in Hnd as (Hnd & Hd & _).
    eapply relinked_chain; [exact Hl|..|exact Hc].
    + intros y Hy. rewrite !upd_ne; [done|set_solver|]. intros ->. apply (Hd ep); set_solver.
    + intros y Hy. rewrite !upd_ne; [done|set_solver|]. intros ->.
      apply NoDup_cons in Hnd as [? _]. apply elem_of_app in Hy as [?| ->%list_elem_of_singleton]; [done|].
      apply (Hd ep); set_solver.
  - cbn. unfold linked. rewrite Hn, Hp, upd_eq, upd_ne, upd_eq by done. done.
Qed.

Lemma list_del_ring h e x l :
  ring h e (x :: l) ->
  exists h', list_del e h = Some h' /\ ring h' x l /\ h' !! e = h !! e /\
    same_outside h h' (x :: l) /\ (forall y, mapped h' y <-> mapped h y).
Proof.
  intros Hr. pose proof (ring_next h e _ Hr) as En. cbn in En.
  assert (exists ep l', x :: l = l' ++ [ep] /\ linked h ep e) as (ep & l' & El & Hlk).
  { destruct Hr as [_ Hc]. destruct l as [|y l _] using rev_ind.
    - cbn in Hc. exists x, []. tauto.
    - rewrite app_comm_cons in Hc. apply chain_app in Hc as [_ Hc]. by exists y, (x :: l). }
  assert (ep ∈ x :: l) as Hin by (rewrite El; set_solver).
  pose proof Hr as [[He Hnd]%NoDup_cons Hc].
  assert (x <> e) by set_solver. assert (ep <> e) by (intros ->; done).
  destruct (list_del_links h e x ep) as (h' & E & Hl); try done; [apply Hlk|eapply ring_mapped; set_solver..|].
  exists h'. pose proof Hl as [Hn Hp Ho Hm]. split; [done|]. split_and!; try done.
  - split; [done|]. destruct Hc as [_ Hc]. destruct l as [|y l _] using rev_ind.
    { destruct l'; simplify_eq/=; [|by destruct l']. unfold linked. by rewrite Hn, Hp, !upd_eq. }
    rewrite app_comm_cons in El. apply app_inj_2 in El as [<- [= ->]]; [|done].
    apply chain_app in Hc as [Hc _]. apply chain_app. split.
    + rewrite app_comm_cons in Hnd. apply NoDup_app in Hnd as ([Hx Hnd]%NoDup_cons & Hd & _).
      eapply relinked_chain; [exact Hl|..|exact Hc].
      * intros z Hz. rewrite upd_ne; [done|]. intros ->. apply (Hd ep); set_solver.
      * intros z Hz. rewrite upd_ne; [done|]. intros ->.
        apply elem_of_app in Hz as [?| ->%list_elem_of_singleton]; [done|]. apply (Hd ep); set_solver.
    + cbn. unfold linked. by rewrite Hn, Hp, !upd_eq.
  - apply Ho. set_solver.
  - intros y Hy. apply Ho. set_solver.
Qed.

Lemma list_init_ring h a :
  mapped h a -> exists h', list_init a h = Some h' /\ ring h' a [] /\ same_outside h h' [a] /\
    (forall x, mapped h' x <-> mapped h x).
Proof.
  intros Ha. destruct (list_init_links h a Ha) as (h' & E & [Hn Hp Ho Hm]). exists h'. split_and!; try done.
  split; [apply NoDup_singleton|]. cbn. unfold linked. by rewrite Hn, Hp, !upd_eq.
Qed.

Lemma list_is_empty_ring h a l : ring h a l -> list_is_empty a h = Some (bool_decide (l = [])).
Proof.
  intros Hr. unfold list_is_empty. rewrite (ring_next h a l Hr). cbn [mbind option_bind].
  destruct Hr as [[Hni _]%NoDup_cons Hc]. destruct l as [|x l]; cbn in *.
  - rewrite Z.eqb_refl. destruct Hc as [_ ->]. cbn. by rewrite Z.eqb_refl.
  - destruct (Z.eqb_spec a x) as [->|]; [set_solver|done].
Qed.

(** The pointer operations of list.h implement the operations on the
    sequence of nodes.  For a list with head [e] and elements [l] and a node
    outside it, adding behind the head prepends, adding before it appends;
    deleting and re-initialising the first element removes it and leaves it a
    list of its own; and the emptiness test is exact.  Nodes outside the list
    are not written. *)
Theorem list_ops_refine h e l new :
  ring h e l -> mapped h new -> new ∉ e :: l ->
  (exists h', list_add_to_behind e new h = Some h' /\ ring h' e (new :: l) /\
     same_outside h h' (e :: new :: l)) /\
  (exists h', list_add_to_before e new h = Some h' /\ ring h' e (l ++ [new]) /\
     same_outside h h' (e :: new :: l)) /\
  (forall x l', l = x :: l' -> exists h', list_del_init x h = Some h' /\ ring h' e l' /\ ring h' x [] /\
     same_outside h h' (e :: l)) /\
  list_is_empty e h = Some (bool_decide (l = [])).
Proof.
  intros Hr Hm Hni. split_and!.
  - destruct (list_add_to_behind_ring h e l new) as (h' & ? & ? & ? & _); eauto.
  - destruct (list_add_to_before_ring h e l new) as (h' & ? & ? & ? & _); eauto.
  - intros x l' ->. apply (ring_rotate h e [] x l') in Hr.
    assert (exists y m, l' ++ [e] = y :: m) as (y & m & Em) by (destruct l'; simpl; eauto).
    rewrite Em in Hr. destruct (list_del_ring h x y m Hr) as (h1 & E1 & Hr1 & Hx & Ho1 & Hm1).
    destruct (list_init_ring h1 x) as (h2 & E2 & Hr2 & Ho2 & Hm2).
    { apply Hm1. eapply ring_mapped; [exact Hr|]. apply elem_of_cons. auto. }
    exists h2. unfold list_del_init. rewrite E1. cbn. split; [done|]. split_and!; try done.
    + destruct Hr as [[Hxn _]%NoDup_cons _].
      assert (ring h2 y m) as Hr3.
      { eapply ring_frame; [exact Hr1|exact Ho2|]. intros z Hz ->%list_elem_of_singleton. done. }
      destruct l' as [|w l']; simpl in Em; injection Em as <- <-; [done|]. by apply ring_rot_last in Hr3.
    + intros z Hz. rewrite Ho2, Ho1; [done| |set_solver]. rewrite <- Em. set_solver.
  - by apply list_is_empty_ring.
Qed.

(** Head at 100 with elements 200 and 300, and a separate node 400. *)
Definition demo_heap : heap :=
  {[ 100 := mk_node 300 200; 200 := mk_node 100 300; 300 := mk_node 200 100; 400 := mk_node 0 0 ]}.

Lemma list_ops_refine_witness :
  exists h', list_add_to_before 100 400 demo_heap = Some h' /\ ring h' 100 [200; 300; 400].
Proof.
  destruct (list_ops_refine demo_heap 100 [200; 300] 400) as (_ & (h' & E & Hr & _) & _).
  - split; [apply (bool_decide_unpack _); vm_compute; exact I|]. cbn. unfold linked.
    repeat split; reflexivity.
  - exists (mk_node 0 0). reflexivity.
  - apply (bool_decide_unpack _). vm_compute. exact I.
  - exists h'. split; assumption.
Defined.

End CList.
