(* ===== verification/Vmm.v ===== *)
(** The 4 KiB page-table operations of src/kernel/memory/vmm.c on the four
    levels of tables, and their refinement of a flat map from user pages to
    leaf entries, which is the interface [PageTable] the address-space code
    is verified against. *)

From stdpp Require Import base tactics numbers option gmap sets list.
From Stdlib Require Import ZArith Lia.
From S2P Require Import Prelude PmmBoot Pmm PmmInit Subpage.

(** ** What the address-space code needs of the page tables *)

(** [pt_get p va] is [*vmm_pt_walk(pgd, va, 0, 0)], [None] for a null
    pointer; [pt_set p va v] is the store [*pte = v] through that pointer;
    [pt_map] is [vmm_map_4k_page]. *)
Definition pt_val {P} (get : P -> Z -> option Z) (p : P) (va : Z) : Z := default 0 (get p va).

(** User addresses: the lower half, PGD entries 0 to 255. *)
Abbreviation USER_TOP := 140737488355328 (only parsing).
Definition user_va (va : Z) : Prop := 0 <= va < USER_TOP.

Class PageTable (P : Type) := {
  pt_get : P -> Z -> option Z;
  pt_set : P -> Z -> Z -> P;
  pt_map : P -> Z -> Z -> Z -> Z * P;
  pt_inv : P -> Prop;
  pt_get_page : forall p va va', pt_inv p -> user_va va -> user_va va' ->
    va / 4096 = va' / 4096 -> pt_get p va = pt_get p va';
  pt_set_spec : forall p va v e, pt_inv p -> user_va va -> pt_get p va = Some e ->
    pt_inv (pt_set p va v) /\
    forall va', user_va va' ->
      pt_val pt_get (pt_set p va v) va' = if va' / 4096 =? va / 4096 then v else pt_val pt_get p va';
  pt_map_spec : forall p phys va flags rc p', pt_inv p -> user_va va ->
    pt_map p phys va flags = (rc, p') ->
    pt_inv p' /\ (rc = 0 \/ rc = - ENOMEM) /\
    forall va', user_va va' ->
      pt_val pt_get p' va' =
        if (rc =? 0) && (va' / 4096 =? va / 4096)
        then Z.lor (phys &~ 4095) (Z.land flags 4095) else pt_val pt_get p va';
}.

Module Vmm.

(** ** PTE bits *)

Abbreviation PAGE_VALID := 1 (only parsing).
Abbreviation PAGE_WRITE := 2 (only parsing).
Abbreviation PAGE_USER := 4 (only parsing).
Abbreviation PAGE_HUGE := 128 (only parsing).
Abbreviation PAGE_PROTNONE := 512 (only parsing).
Abbreviation PAGE_COW := 1024 (only parsing).
Abbreviation PAGE_USER_PGD := 7 (only parsing).
Abbreviation PAGE_USER_PUD := 7 (only parsing).
Abbreviation PAGE_KERNEL_PGD := 3 (only parsing).
Abbreviation PAGE_KERNEL_PUD := 3 (only parsing).

(** [e & bits] as a truth value. *)
Definition has (e bits : Z) : bool := negb (Z.land e bits =? 0).

(** ** Table memory *)

(** The tables, by physical base address; an entry never written is the zero
    [calloc] left there. *)
Abbreviation tables := (gmap Z (gmap Z Z)) (only parsing).

(** Load and store of [table[i]]; [None] is an access outside every table. *)
Definition ld (m : tables) (t i : Z) : option Z :=
  tbl ← m !! t; Some (default 0 (tbl !! i)).
Definition st (m : tables) (t i v : Z) : option tables :=
  tbl ← m !! t; Some (<[t := <[i := v]> tbl]> m).

Section walk.
(** [calloc(1, PAGE_4K_SIZE)]: the physical address of a new table, or
    [None]. *)
Context (calloc_table : tables -> option Z).

(** One step of the walk: the entry [i] of table [t], with a new zeroed table
    behind it if it is not valid and [allocate] is set.  The result is the
    next table, [None] for the null return. *)
Definition walk_level (m : tables) (t i flags : Z) (allocate : bool) : option (option Z * tables) :=
  e ← ld m t i;
  if has e PAGE_VALID then Some (Some (e &~ 4095), m)
  else if negb allocate then Some (None, m)
  else match calloc_table m with
       | None => Some (None, m)
       | Some pa =>
         m ← st (<[pa := ∅]> m) t i (Z.lor pa flags);
         e ← ld m t i;
         Some (Some (e &~ 4095), m)
       end.

(** The result is the table and index of the leaf entry. *)
Definition vmm_pt_walk (m : tables) (pgdir virt flags : Z) (allocate : bool)
  : option (option (Z * Z) * tables) :=
  let l0 := Z.land (Z.shiftr virt 39) 511 in
  let l1 := Z.land (Z.shiftr virt 30) 511 in
  let l2 := Z.land (Z.shiftr virt 21) 511 in
  let l3 := Z.land (Z.shiftr virt 12) 511 in
  if 256 <=? l0 then Some (None, m) else
  let pgd_flags := if has flags PAGE_USER then PAGE_USER_PGD else PAGE_KERNEL_PGD in
  let pud_flags := if has flags PAGE_USER then PAGE_USER_PUD else PAGE_KERNEL_PUD in
  '(pud, m) ← walk_level m pgdir l0 pgd_flags allocate;
  match pud with
  | None => Some (None, m)
  | Some pud =>
    '(pmd, m) ← walk_level m pud l1 pud_flags allocate;
    match pmd with
    | None => Some (None, m)
    | Some pmd =>
      e ← ld m pmd l2;
      if has e PAGE_HUGE then Some (None, m) else
      '(pt, m) ← walk_level m pmd l2 pud_flags allocate;
      match pt with
      | None => Some (None, m)
      | Some pt => Some (Some (pt, l3), m)
      end
    end
  end.

Definition x86_vmm_map_4k_page (m : tables) (pgdir phys virt flags : Z) : option (Z * tables) :=
  '(pte, m) ← vmm_pt_walk m pgdir virt flags true;
  match pte with
  | None => Some (- ENOMEM, m)
  | Some (t, i) =>
    m ← st m t i (Z.lor (phys &~ 4095) (Z.land flags 4095));
    Some (0, m)
  end.

(** Physical address and flags of a present entry. *)
Definition x86_vmm_query_4k_page (m : tables) (pgdir virt : Z) : option (Z * option (Z * Z)) :=
  '(pte, m) ← vmm_pt_walk m pgdir virt 0 false;
  match pte with
  | None => Some (- ENOENT, None)
  | Some (t, i) =>
    e ← ld m t i;
    if has e (Z.lor PAGE_VALID PAGE_PROTNONE)
    then Some (0, Some (e &~ 4095, Z.land e 4095)) else Some (- ENOENT, None)
  end.

(** Unmapping drops the page's copy-on-write reference or frees it. *)
Definition x86_vmm_unmap_4k_page_with_free {F} `{FS : Subpage.FrameSource F}
    (m : tables) (pgdir virt : Z) (s : @Subpage.state F) : option (Z * tables * @Subpage.state F) :=
  '(pte, m) ← vmm_pt_walk m pgdir virt 0 false;
  match pte with
  | None => Some (- ENOENT, m, s)
  | Some (t, i) =>
    e ← ld m t i;
    if negb (has e (Z.lor PAGE_VALID PAGE_PROTNONE)) then Some (- ENOENT, m, s) else
    let phys := e &~ 4095 in
    let s := if has e PAGE_COW then
               let '(last, s) := Subpage.page_cow_put phys s in
               if last then Subpage.free_4k_page phys s else s
             else Subpage.free_4k_page phys s in
    m ← st m t i 0;
    Some (0, m, s)
  end.

(** ** The tree of tables *)

(** The table behind entry [i] of a table at depth [lvl]; a huge PMD entry is
    a leaf. *)
Definition follow (m : tables) (lvl : nat) (t i : Z) : option Z :=
  e ← ld m t i;
  if has e PAGE_VALID && negb (bool_decide (lvl = 2%nat) && has e PAGE_HUGE)
  then Some (e &~ 4095) else None.

Fixpoint tbl_at (m : tables) (lvl : nat) (t : Z) (path : list Z) : option Z :=
  match path with
  | [] => Some t
  | i :: path => t' ← follow m lvl t i; tbl_at m (S lvl) t' path
  end.

(** Index paths from the root of a user address. *)
Definition path_ok (p : list Z) : Prop :=
  (length p <= 3)%nat /\ Forall (fun i => 0 <= i < 512) p /\
  match p with i :: _ => i < 256 | [] => True end.

(** Every table reached from the root exists, and no table is reached by two
    paths. *)
Record pt_wf (m : tables) (root : Z) : Prop := {
  pw_closed : forall p t, path_ok p -> tbl_at m 0 root p = Some t -> is_Some (m !! t);
  pw_inj : forall p q t, path_ok p -> path_ok q ->
    tbl_at m 0 root p = Some t -> tbl_at m 0 root q = Some t -> p = q;
}.

(** The leaf entry of an address, 0 where there is no leaf table. *)
Definition idx (va : Z) (sh : Z) : Z := Z.land (Z.shiftr va sh) 511.
Definition pte_at (m : tables) (root va : Z) : Z :=
  match tbl_at m 0 root [idx va 39; idx va 30; idx va 21] with
  | Some t => default 0 (ld m t (idx va 12))
  | None => 0
  end.

(** A 2 MiB mapping covers the address. *)
Definition huge_at (m : tables) (root va : Z) : Prop :=
  exists t e, tbl_at m 0 root [idx va 39; idx va 30] = Some t /\ ld m t (idx va 21) = Some e /\ has e PAGE_HUGE = true.

(** ** Lemmas on entries *)

Lemma ld_insert m t i v tbl t' i' :
  m !! t = Some tbl ->
  ld (<[t := <[i := v]> tbl]> m) t' i' = if decide (t' = t /\ i' = i) then Some v else ld m t' i'.
Proof using.
  intros E. unfold ld. case_decide as Hd.
  - destruct Hd as [-> ->]. rewrite lookup_insert_eq. simpl. by rewrite lookup_insert_eq.
  - destruct (decide (t' = t)) as [->|].
    + rewrite lookup_insert_eq, E. simpl. by rewrite lookup_insert_ne by (intros ->; by apply Hd).
    + by rewrite lookup_insert_ne.
Qed.

Lemma st_some m t i v : is_Some (m !! t) ->
  exists m', st m t i v = Some m' /\
    (forall t' i', ld m' t' i' = if decide (t' = t /\ i' = i) then Some v else ld m t' i') /\
    (forall t', is_Some (m' !! t') <-> is_Some (m !! t')).
Proof using.
  intros [tbl E]. unfold st. rewrite E. eexists. split; [reflexivity|]. split.
  - intros. by apply ld_insert.
  - intros t'. destruct (decide (t' = t)) as [->|]; [rewrite lookup_insert_eq, E; by split; intros; eexists|].
    by rewrite lookup_insert_ne.
Qed.

Lemma path_ok_snoc p i : path_ok (p ++ [i]) -> path_ok p.
Proof.
  intros (Hl & Hf & Hh). rewrite length_app in Hl. simpl in Hl. apply Forall_app in Hf as [? _].
  split; [lia|]. split; [done|]. by destruct p.
Qed.

Lemma tbl_at_snoc m lvl t p i :
  tbl_at m lvl t (p ++ [i]) = t' ← tbl_at m lvl t p; follow m (lvl + length p) t' i.
Proof.
  revert lvl t. induction p as [|j p IH]; intros lvl t; simpl.
  - rewrite Nat.add_0_r. by destruct (follow m lvl t i).
  - destruct (follow m lvl t j); simpl; [|done]. rewrite IH. simpl. by rewrite Nat.add_succ_r.
Qed.

Lemma path_len p i : path_ok (p ++ [i]) -> (length p <= 2)%nat.
Proof. intros (Hl & _). rewrite length_app in Hl. simpl in Hl. lia. Qed.

(** ** Storing a new table behind an invalid entry *)

Section new_table.
Context (m m' : tables) (root : Z) (p : list Z) (t i pa v : Z).
Context (Hw : pt_wf m root) (Hp : path_ok (p ++ [i])).
Context (Ht : tbl_at m 0 root p = Some t) (Hinv : follow m (length p) t i = None).
Context (Hfresh : m !! pa = None).
Context (Hld : forall t' i', ld m' t' i' =
  if decide (t' = t /\ i' = i) then Some v else if decide (t' = pa) then Some 0 else ld m t' i').
Context (Hdom : forall t', is_Some (m' !! t') <-> is_Some (m !! t') \/ t' = pa).
Context (Hv : has v PAGE_VALID = true) (Hh : has v PAGE_HUGE = false) (Hpa : v &~ 4095 = pa).

Lemma reached_ne q t1 : path_ok q -> tbl_at m 0 root q = Some t1 -> t1 <> pa.
Proof using Hw Hfresh.
  intros Hq E ->. destruct (pw_closed m root Hw q pa Hq E) as [x Ex]. congruence.
Qed.

Lemma new_table_at q :
  path_ok q ->
  (q = p ++ [i] /\ tbl_at m' 0 root q = Some pa) \/
  (exists j r, q = p ++ i :: j :: r /\ tbl_at m' 0 root q = None /\ tbl_at m 0 root q = None) \/
  (q <> p ++ [i] /\ tbl_at m' 0 root q = tbl_at m 0 root q).
Proof using Hw Hp Ht Hinv Hfresh Hld Hv Hh Hpa.
  induction q as [|j q IH] using rev_ind; intros Hq.
  { right. right. split; [by destruct p|done]. }
  specialize (IH (path_ok_snoc _ _ Hq)). pose proof (path_len _ _ Hq) as Hlen.
  rewrite !tbl_at_snoc. simpl. destruct IH as [[-> E]|[(j' & r & -> & E & E')|[Hne E]]].
  - right. left. exists j, []. rewrite <- app_assoc. split; [done|]. rewrite E. simpl.
    assert (tbl_at m 0 root (p ++ [i]) = None) as ->.
    { rewrite tbl_at_snoc, Ht. done. }
    split; [|done]. unfold follow. rewrite Hld. rewrite decide_False.
    + by rewrite decide_True.
    + intros [Hpt _]. subst t. apply (reached_ne p pa (path_ok_snoc _ _ Hp) Ht). done.
  - right. left. exists j', (r ++ [j]). rewrite E, E'. split; [by rewrite <- app_assoc|done].
  - rewrite E. destruct (tbl_at m 0 root q) as [t1|] eqn:E1; simpl.
    2: { right. right. split; [|done]. intros Heq. apply app_inj_2 in Heq as [-> _]; [|done]. congruence. }
    assert (t1 <> pa) as Hn1 by (eapply reached_ne; [exact (path_ok_snoc _ _ Hq)|done]).
    unfold follow. rewrite Hld. destruct (decide (t1 = t /\ j = i)) as [[-> ->]|Hd].
    + assert (q = p) as ->.
      { eapply (pw_inj m root Hw); [exact (path_ok_snoc _ _ Hq)|exact (path_ok_snoc _ _ Hp)|done|done]. }
      left. split; [done|]. simpl. by rewrite Hv, Hh, andb_false_r, Hpa.
    + rewrite decide_False by done. right. right. split; [|done].
      intros Heq. apply app_inj_2 in Heq as [-> [= ->]]; [|done]. apply Hd. split; [congruence|done].
Qed.

Lemma new_table_wf : pt_wf m' root.
Proof using Hw Hp Ht Hinv Hfresh Hld Hdom Hv Hh Hpa.
  assert (forall q t1, path_ok q -> tbl_at m' 0 root q = Some t1 ->
    (q = p ++ [i] /\ t1 = pa) \/ (tbl_at m 0 root q = Some t1 /\ t1 <> pa)) as Hcase.
  { intros q t1 Hq E. destruct (new_table_at q Hq) as [[-> E']|[(j & r & _ & E' & _)|[_ E']]].
    - left. split; [done|]. congruence.
    - congruence.
    - right. rewrite E' in E. split; [done|]. by eapply reached_ne. }
  constructor.
  - intros q t1 Hq E. apply Hdom. destruct (Hcase q t1 Hq E) as [[_ ->]|[E' _]]; [by right|].
    left. by eapply (pw_closed m root Hw).
  - intros q1 q2 t1 Hq1 Hq2 E1 E2.
    destruct (Hcase q1 t1 Hq1 E1) as [[-> ->]|[E1' ?]], (Hcase q2 _ Hq2 E2) as [[-> ?]|[E2' ?]]; try done.
    by eapply (pw_inj m root Hw).
Qed.

Lemma new_table_pte va : path_ok [idx va 39; idx va 30; idx va 21] -> pte_at m' root va = pte_at m root va.
Proof using Hw Hp Ht Hinv Hfresh Hdom Hld Hv Hh Hpa.
  intros Hq. unfold pte_at. pose proof (path_len _ _ Hp) as Hlen.
  destruct (new_table_at _ Hq) as [[E1 E2]|[(j & r & _ & -> & ->)|[Hne E2]]]; [|done|].
  - rewrite E2, Hld. rewrite E1, tbl_at_snoc, Ht. simpl. rewrite Hinv.
    case_decide as Hd.
    { destruct Hd as [Hd _]. exfalso. by apply (reached_ne p t (path_ok_snoc _ _ Hp) Ht). }
    by rewrite decide_True.
  - rewrite E2. destruct (tbl_at m 0 root [idx va 39; idx va 30; idx va 21]) as [t1|] eqn:E; [|done].
    rewrite Hld.
    pose proof (reached_ne _ t1 Hq E). rewrite decide_False, decide_False; try done.
    intros [-> _]. pose proof (pw_inj m root Hw _ p t Hq (path_ok_snoc _ _ Hp) E Ht) as <-.
    simpl in Hlen. lia.
Qed.

Lemma new_table_huge va : path_ok [idx va 39; idx va 30] -> huge_at m' root va -> huge_at m root va.
Proof using Hw Hp Ht Hinv Hfresh Hdom Hld Hv Hh Hpa.
  intros Hq (t1 & e & E1 & El & Hhu). rewrite Hld in El. case_decide as Hd; [simplify_eq; congruence|].
  case_decide as Hd2; [simplify_eq; by vm_compute in Hhu|]. exists t1, e. split_and!; try done.
  destruct (new_table_at _ Hq) as [[_ E2]|[(j & r & _ & E2 & _)|[_ E2]]]; congruence.
Qed.

End new_table.

(** ** Storing a leaf entry *)

Section leaf.
Context (m m' : tables) (root va t v : Z).
Context (Hw : pt_wf m root) (Hva : path_ok [idx va 39; idx va 30; idx va 21]).
Context (Ht : tbl_at m 0 root [idx va 39; idx va 30; idx va 21] = Some t).
Context (Hld : forall t' i', ld m' t' i' = if decide (t' = t /\ i' = idx va 12) then Some v else ld m t' i').
Context (Hdom : forall t', is_Some (m' !! t') <-> is_Some (m !! t')).

Lemma leaf_at q : path_ok q -> tbl_at m' 0 root q = tbl_at m 0 root q.
Proof using Hw Hva Ht Hld.
  induction q as [|j q IH] using rev_ind; intros Hq; [done|].
  specialize (IH (path_ok_snoc _ _ Hq)). pose proof (path_len _ _ Hq) as Hlen.
  rewrite !tbl_at_snoc, IH. destruct (tbl_at m 0 root q) as [t1|] eqn:E; [|done]. simpl.
  unfold follow. rewrite Hld, decide_False; [done|]. intros [-> _].
  pose proof (pw_inj m root Hw q _ t (path_ok_snoc _ _ Hq) Hva E Ht) as ->. simpl in Hlen. lia.
Qed.

Lemma leaf_wf : pt_wf m' root.
Proof using Hw Hva Ht Hld Hdom.
  constructor.
  - intros p t1 Hp. rewrite leaf_at by done. rewrite Hdom. by apply (pw_closed m root Hw).
  - intros p q t1 Hp Hq. rewrite !leaf_at by done. by apply (pw_inj m root Hw).
Qed.

Lemma leaf_pte va' :
  path_ok [idx va' 39; idx va' 30; idx va' 21] ->
  pte_at m' root va' =
    if decide ([idx va' 39; idx va' 30; idx va' 21; idx va' 12] = [idx va 39; idx va 30; idx va 21; idx va 12])
    then v else pte_at m root va'.
Proof using Hw Hva Ht Hld.
  intros Hva'. unfold pte_at. rewrite leaf_at by done. case_decide as Hd.
  - injection Hd as -> -> -> ->. rewrite Ht, Hld, decide_True by done. done.
  - destruct (tbl_at m 0 root [idx va' 39; idx va' 30; idx va' 21]) as [t1|] eqn:E; [|done].
    rewrite Hld, decide_False; [done|]. intros [-> Hi]. apply Hd.
    pose proof (pw_inj m root Hw _ _ t Hva' Hva E Ht) as Heq. injection Heq as -> -> ->. by rewrite Hi.
Qed.
End leaf.

(** The four indices determine, and are determined by, the page number of a
    user address. *)
Lemma idx_eq va sh : 0 <= sh -> idx va sh = va / 2 ^ sh mod 512.
Proof.
  intros. unfold idx. change 511 with (Z.ones 9). rewrite Z.land_ones, Z.shiftr_div_pow2 by lia. done.
Qed.

Lemma idx_path va : user_va va -> path_ok [idx va 39; idx va 30; idx va 21].
Proof.
  intros Hva. unfold user_va in Hva. rewrite !idx_eq by lia. change (2 ^ 39) with 549755813888.
  split; [simpl; lia|]. split; [repeat constructor; apply Z.mod_pos_bound; lia|]. dlia.
Qed.

(** The page number from its four indices. *)
Lemma page_of_idx va :
  user_va va -> va / 4096 = ((idx va 39 * 512 + idx va 30) * 512 + idx va 21) * 512 + idx va 12.
Proof.
  intros Hva. unfold user_va in Hva. rewrite !idx_eq by lia.
  change (2 ^ 39) with (4096 * 512 * 512 * 512). change (2 ^ 30) with (4096 * 512 * 512).
  change (2 ^ 21) with (4096 * 512). change (2 ^ 12) with 4096. rewrite <- !Z.div_div by lia.
  assert (0 <= va / 4096 < 34359738368) by dlia. set (n := va / 4096) in *.
  pose proof (Z.div_mod n 512). pose proof (Z.div_mod (n / 512) 512).
  pose proof (Z.div_mod (n / 512 / 512) 512).
  rewrite (Z.mod_small (n / 512 / 512 / 512)) by dlia. lia.
Qed.

Lemma idx_page va va' :
  user_va va -> user_va va' ->
  [idx va' 39; idx va' 30; idx va' 21; idx va' 12] = [idx va 39; idx va 30; idx va 21; idx va 12] <->
  va' / 4096 = va / 4096.
Proof.
  intros Hva Hva'. split.
  - intros E. injection E as E1 E2 E3 E4. rewrite !page_of_idx by done. congruence.
  - intros E. assert (forall sh, 12 <= sh -> idx va' sh = idx va sh) as He.
    { intros sh Hsh. rewrite !idx_eq by lia. replace sh with (12 + (sh - 12)) by lia.
      rewrite Z.pow_add_r by lia. rewrite <- !Z.div_div by (try apply Z.pow_nonzero; lia).
      change (2 ^ 12) with 4096. by rewrite E. }
    rewrite !He by lia. done.
Qed.

(** ** The walk *)

(** A walk that does not allocate finds the leaf table of the tree. *)
Lemma walk_level_ro m t i f e :
  ld m t i = Some e ->
  walk_level m t i f false = Some (if has e PAGE_VALID then Some (e &~ 4095) else None, m).
Proof. intros E. unfold walk_level. rewrite E. simpl. by destruct (has e 1). Qed.

Lemma closed_ld m root p t i : pt_wf m root -> path_ok p -> tbl_at m 0 root p = Some t -> exists e, ld m t i = Some e.
Proof.
  intros Hw Hp E. destruct (pw_closed m root Hw p t Hp E) as [tbl Et]. unfold ld. rewrite Et. simpl. eauto.
Qed.

Lemma path_ok_prefix p q : path_ok (p ++ q) -> path_ok p.
Proof.
  intros (Hl & Hf & Hh). rewrite length_app in Hl. apply Forall_app in Hf as [? _].
  split; [lia|]. split; [done|]. by destruct p.
Qed.

Lemma follow_level m lvl t i e f :
  ld m t i = Some e -> (lvl < 2)%nat ->
  walk_level m t i f false = Some (follow m lvl t i, m).
Proof.
  intros E Hl. rewrite (walk_level_ro m t i f e E). unfold follow. rewrite E. simpl.
  rewrite bool_decide_eq_false_2 by lia. simpl. rewrite andb_true_r. done.
Qed.

Lemma walk_ro m root va f :
  pt_wf m root -> user_va va ->
  vmm_pt_walk m root va f false =
    Some ((fun t => (t, idx va 12)) <$> tbl_at m 0 root [idx va 39; idx va 30; idx va 21], m).
Proof.
  intros Hw Hva. pose proof (idx_path va Hva) as Hp. unfold vmm_pt_walk.
  fold (idx va 39) (idx va 30) (idx va 21) (idx va 12).
  destruct (Z.leb_spec 256 (idx va 39)) as [Hge|_]; [destruct Hp as (_ & _ & ?); lia|].
  destruct (closed_ld m root [] root (idx va 39) Hw) as [e0 E0]; [by apply (path_ok_prefix [] _ Hp)|done|].
  rewrite (follow_level m 0 root _ e0) by (done || lia). simpl.
  destruct (follow m 0 root (idx va 39)) as [t1|] eqn:F0; [|done]. simpl.
  destruct (closed_ld m root [idx va 39] t1 (idx va 30) Hw) as [e1 E1];
    [by apply (path_ok_prefix [idx va 39] _ Hp)|by simpl; rewrite F0|].
  rewrite (follow_level m 1 t1 _ e1) by (done || lia). simpl.
  destruct (follow m 1 t1 (idx va 30)) as [t2|] eqn:F1; [|done]. simpl.
  destruct (closed_ld m root [idx va 39; idx va 30] t2 (idx va 21) Hw) as [e2 E2];
    [by apply (path_ok_prefix [idx va 39; idx va 30] _ Hp)|by simpl; rewrite F0; simpl; rewrite F1|].
  rewrite E2. simpl. unfold follow. rewrite E2. simpl.
  destruct (has e2 128) eqn:Hh; [by rewrite andb_false_r|].
  rewrite (walk_level_ro m t2 _ _ e2 E2). simpl. by destruct (has e2 1).
Qed.

(** ** The allocating walk *)

Section alloc.
Hypothesis calloc_fresh : forall m pa, calloc_table m = Some pa ->
  m !! pa = None /\ 0 <= pa < U64 - 4096 /\ pa mod 4096 = 0.

Definition table_flags (f : Z) : Prop := f = PAGE_USER_PGD \/ f = PAGE_KERNEL_PGD.

(** The tables after one step of an allocating walk. *)
Definition extends (m m' : tables) (root : Z) : Prop :=
  pt_wf m' root /\ (forall va, user_va va -> pte_at m' root va = pte_at m root va) /\
  forall va, user_va va -> huge_at m' root va -> huge_at m root va.

Lemma walk_level_rw m root p t i f :
  pt_wf m root -> path_ok (p ++ [i]) -> tbl_at m 0 root p = Some t -> table_flags f ->
  (length p = 2%nat -> forall e, ld m t i = Some e -> has e PAGE_HUGE = false) ->
  exists r m', walk_level m t i f true = Some (r, m') /\ extends m m' root /\
    match r with Some t' => tbl_at m' 0 root (p ++ [i]) = Some t' | None => calloc_table m' = None end.
Proof using calloc_fresh.
  intros Hw Hp Ht Hf Hh. destruct (closed_ld m root p t i Hw (path_ok_snoc _ _ Hp) Ht) as [e E].
  assert (follow m (length p) t i = if has e PAGE_VALID then Some (e &~ 4095) else None) as Hfl.
  { unfold follow. rewrite E. simpl. destruct (decide (length p = 2%nat)) as [Hl|Hl].
    - by rewrite (Hh Hl e E), andb_false_r, andb_true_r.
    - by rewrite bool_decide_eq_false_2, andb_true_r by done. }
  unfold walk_level. rewrite E. simpl. destruct (has e 1) eqn:Hv; simpl.
  { exists (Some (e &~ 4095)), m. split; [done|]. split; [done|]. by rewrite tbl_at_snoc, Ht. }
  destruct (calloc_table m) as [pa|] eqn:Ec; [|by exists None, m].
  destruct (calloc_fresh m pa Ec) as (Hfr & Hpa & Hal).
  destruct (pw_closed m root Hw p t (path_ok_snoc _ _ Hp) Ht) as [tbl Et].
  assert (t <> pa) by congruence.
  destruct (st_some (<[pa := ∅]> m) t i (Z.lor pa f)) as (m' & -> & Hld & Hdom).
  { rewrite lookup_insert_ne by done. eauto. }
  simpl. rewrite Hld, decide_True by done. simpl.
  assert (Z.lor pa f &~ 4095 = pa) as Hback by (apply lor_page_addr; destruct Hf; lia).
  assert (has (Z.lor pa f) PAGE_VALID = true /\ has (Z.lor pa f) PAGE_HUGE = false) as [Hv' Hh'].
  { unfold has. rewrite !lor_page_flags by lia. destruct Hf; subst f; done. }
  assert (forall t' i', ld m' t' i' = if decide (t' = t /\ i' = i) then Some (Z.lor pa f)
    else if decide (t' = pa) then Some 0 else ld m t' i') as Hld'.
  { intros t' i'. rewrite Hld. case_decide; [done|]. unfold ld.
    case_decide as Hd; [subst t'; by rewrite lookup_insert_eq|by rewrite lookup_insert_ne]. }
  assert (forall t', is_Some (m' !! t') <-> is_Some (m !! t') \/ t' = pa) as Hdom'.
  { intros t'. rewrite Hdom. destruct (decide (t' = pa)) as [->|].
    - rewrite lookup_insert_eq. split; eauto.
    - rewrite lookup_insert_ne by done. tauto. }
  rewrite Hback. exists (Some pa), m'. split; [done|]. split; [split|].
  - by eapply (new_table_wf m m' root p t i pa).
  - split; intros va Hva.
    + eapply (new_table_pte m m' root p t i pa); try done. by apply idx_path.
    + eapply (new_table_huge m m' root p t i pa); try done. apply (path_ok_prefix [idx va 39; idx va 30] [idx va 21]). by apply idx_path.
  - destruct (new_table_at m m' root p t i pa (Z.lor pa f) Hw Hp Ht Hfl Hfr Hld' Hv' Hh' Hback (p ++ [i]) Hp)
      as [[_ ->]|[(j & r & Hq & _)|[? _]]]; [done| |done].
    apply (f_equal length) in Hq. rewrite !length_app in Hq. simpl in Hq. lia.
Qed.

Lemma extends_trans m1 m2 m3 root : extends m1 m2 root -> extends m2 m3 root -> extends m1 m3 root.
Proof. intros (_ & H1 & H1') (H2 & H3 & H3'). split_and!; [done|intros va Hva; by rewrite H3, H1|auto]. Qed.

Lemma walk_rw m root va f :
  pt_wf m root -> user_va va ->
  exists r m', vmm_pt_walk m root va f true = Some (r, m') /\ extends m m' root /\
    match r with
    | Some (t, i) => i = idx va 12 /\ tbl_at m' 0 root [idx va 39; idx va 30; idx va 21] = Some t
    | None => calloc_table m' = None \/ huge_at m root va
    end.
Proof using calloc_fresh.
  intros Hw Hva. pose proof (idx_path va Hva) as Hp. unfold vmm_pt_walk.
  fold (idx va 39) (idx va 30) (idx va 21) (idx va 12).
  destruct (Z.leb_spec 256 (idx va 39)) as [Hge|_]; [destruct Hp as (_ & _ & ?); lia|].
  set (f0 := if has f 4 then 7 else 3).
  assert (table_flags f0) as Hf by (unfold f0, table_flags; destruct (has f 4); auto).
  destruct (walk_level_rw m root [] root (idx va 39) f0) as (r0 & m0 & -> & X0 & R0); try done.
  { apply (path_ok_prefix [idx va 39] _ Hp). }
  simpl. destruct r0 as [t1|]; [|exists None, m0; auto].
  destruct (walk_level_rw m0 root [idx va 39] t1 (idx va 30) f0) as (r1 & m1 & -> & X1 & R1); try done.
  { apply X0. } { apply (path_ok_prefix [idx va 39; idx va 30] _ Hp). }
  pose proof (extends_trans _ _ _ _ X0 X1) as X01.
  simpl. destruct r1 as [t2|]; [|exists None, m1; auto].
  destruct (closed_ld m1 root [idx va 39; idx va 30] t2 (idx va 21)) as [e2 E2];
    [apply X1|apply (path_ok_prefix [idx va 39; idx va 30] _ Hp)|done|].
  rewrite E2. simpl. destruct (has e2 128) eqn:Hh.
  { exists None, m1. split; [done|]. split; [done|]. right. apply X01; [done|]. by exists t2, e2. }
  destruct (walk_level_rw m1 root [idx va 39; idx va 30] t2 (idx va 21) f0) as (r2 & m2 & -> & X2 & R2); try done.
  { apply X1. } { intros _ e He. congruence. }
  pose proof (extends_trans _ _ _ _ X01 X2) as X02.
  simpl. destruct r2 as [t3|]; [|exists None, m2; auto]. by exists (Some (t3, idx va 12)), m2.
Qed.

Lemma pte_store m root va t v m' :
  pt_wf m root -> user_va va -> tbl_at m 0 root [idx va 39; idx va 30; idx va 21] = Some t ->
  st m t (idx va 12) v = Some m' ->
  pt_wf m' root /\ forall va', user_va va' ->
    pte_at m' root va' = if va' / 4096 =? va / 4096 then v else pte_at m root va'.
Proof using.
  intros Hw Hva Ht E. pose proof (idx_path va Hva) as Hp.
  destruct (st_some m t (idx va 12) v (pw_closed m root Hw _ t Hp Ht)) as (m1 & E1 & Hld & Hdom).
  assert (m1 = m') as -> by congruence. split; [by eapply leaf_wf|].
  intros va' Hva'. rewrite (leaf_pte m m' root va t v Hw Hp Ht Hld va') by by apply idx_path.
  pose proof (idx_page va va' Hva Hva'). destruct (Z.eqb_spec (va' / 4096) (va / 4096)).
  - rewrite decide_True; [done|]. by apply H.
  - rewrite decide_False; [done|]. by rewrite H.
Qed.

Lemma store_ok m root va t v :
  pt_wf m root -> user_va va -> tbl_at m 0 root [idx va 39; idx va 30; idx va 21] = Some t ->
  exists m', st m t (idx va 12) v = Some m'.
Proof using.
  intros Hw Hva Ht. destruct (st_some m t (idx va 12) v) as (m1 & E1 & _); [|by exists m1].
  apply (pw_closed m root Hw _ t (idx_path va Hva) Ht).
Qed.

Lemma map_4k_spec m root phys va flags :
  pt_wf m root -> user_va va ->
  exists rc m', x86_vmm_map_4k_page m root phys va flags = Some (rc, m') /\
    pt_wf m' root /\ (rc = 0 \/ rc = - ENOMEM /\ (calloc_table m' = None \/ huge_at m root va)) /\
    forall va', user_va va' ->
      pte_at m' root va' = if (rc =? 0) && (va' / 4096 =? va / 4096)
        then Z.lor (phys &~ 4095) (Z.land flags 4095) else pte_at m root va'.
Proof using calloc_fresh.
  intros Hw Hva. unfold x86_vmm_map_4k_page.
  destruct (walk_rw m root va flags Hw Hva) as (r & m1 & -> & (Hw1 & Hx & _) & Hr). simpl.
  destruct r as [[t i]|]; [|exists (- ENOMEM), m1; split_and!; auto].
  destruct Hr as [-> Ht]. set (v := Z.lor _ _).
  destruct (store_ok m1 root va t v Hw1 Hva Ht) as [m2 E2]. rewrite E2. simpl.
  destruct (pte_store m1 root va t v m2 Hw1 Hva Ht E2) as [Hw2 Hpte].
  exists 0, m2. split_and!; auto. intros va' Hva'. rewrite Hpte, Hx by done. done.
Qed.

(** The present entry of an address through the query. *)
Lemma query_4k_spec m root va :
  pt_wf m root -> user_va va ->
  x86_vmm_query_4k_page m root va =
    Some (let e := pte_at m root va in
          if has e (Z.lor PAGE_VALID PAGE_PROTNONE) then (0, Some (e &~ 4095, Z.land e 4095))
          else (- ENOENT, None)).
Proof using calloc_table.
  intros Hw Hva. unfold x86_vmm_query_4k_page, pte_at. rewrite walk_ro by done.
  destruct (tbl_at m 0 root [idx va 39; idx va 30; idx va 21]) as [t|] eqn:Ht; [|reflexivity]. simpl.
  destruct (closed_ld m root _ t (idx va 12) Hw (idx_path va Hva) Ht) as [e ->]. simpl.
  by destruct (has e _).
Qed.

(** C37: mapping a user page on well-formed tables, with an allocator that gives
    out addresses not in use as tables.  The tree of tables stays
    well-formed, tables allocated on the way included.  On success the leaf
    entry of the page is the page address with the low twelve bits of the flags,
    and no other user page's entry changes; a query then returns the address and
    the flags when these mark the page present.  The only other result is
    [-ENOMEM], with every entry as it was; it is returned only when a 2 MiB
    mapping covers the address or no memory for a table is left. *)
Theorem vmm_map_4k_page_correct m root phys va flags :
  pt_wf m root -> user_va va -> is_u64 phys -> is_u64 flags ->
  exists rc m', x86_vmm_map_4k_page m root phys va flags = Some (rc, m') /\
    pt_wf m' root /\ (rc = 0 \/ rc = - ENOMEM /\ (calloc_table m' = None \/ huge_at m root va)) /\
    (forall va', user_va va' ->
       pte_at m' root va' = if (rc =? 0) && (va' / 4096 =? va / 4096)
         then Z.lor (phys &~ 4095) (Z.land flags 4095) else pte_at m root va') /\
    (rc = 0 -> has flags (Z.lor PAGE_VALID PAGE_PROTNONE) = true ->
       x86_vmm_query_4k_page m' root va = Some (0, Some (phys &~ 4095, Z.land flags 4095))).
Proof using calloc_fresh.
  intros Hw Hva Hphys Hflags. destruct (map_4k_spec m root phys va flags Hw Hva) as (rc & m' & E & Hw' & Hrc & Hpte).
  exists rc, m'. split_and!; try done. intros -> Hf. rewrite query_4k_spec, Hpte by done. rewrite !Z.eqb_refl. cbn [andb]. cbv zeta.
  unfold is_u64 in *. rewrite page_addr by lia.
  assert (phys / 4096 * 4096 mod 4096 = 0) as Hal by (rewrite Z.mod_mul; lia).
  assert (0 <= Z.land flags 4095 < 4096) as Hlow.
  { change 4095 with (2 ^ 12 - 1). rewrite land_mask by lia. apply Z.mod_pos_bound. lia. }
  unfold has in *. rewrite (lor_page_flags _ _ (Z.lor 1 512)), (lor_page_flags _ _ 4095)
    by (done || (simpl; lia)). rewrite <- !Z.land_assoc.
  change (Z.land 4095 (Z.lor 1 512)) with (Z.lor 1 512). change (Z.land 4095 4095) with 4095.
  assert (0 <= phys / 4096 <= 4503599627370495) by (clear - Hphys; dlia).
  rewrite Hf, lor_page_addr; try done; lia.
Qed.

(** Unmapping a user page clears its leaf entry and no other, keeps the
    tree well-formed and gives up exactly one claim on the page: a plain page
    is freed, a copy-on-write page loses one reference and is freed only when
    that was the last one.  An address with no present entry is left alone
    with [-ENOENT]. *)
Theorem vmm_unmap_4k_page_correct {F} `{FS : Subpage.FrameSource F} m root va (s : @Subpage.state F) :
  pt_wf m root -> user_va va ->
  let e := pte_at m root va in
  if has e (Z.lor PAGE_VALID PAGE_PROTNONE) then
    exists m' s', x86_vmm_unmap_4k_page_with_free m root va s = Some (0, m', s') /\
      pt_wf m' root /\
      (forall va', user_va va' -> pte_at m' root va' = if va' / 4096 =? va / 4096 then 0 else pte_at m root va') /\
      s' = (if has e PAGE_COW then
              if (Subpage.page_cow_put (e &~ 4095) s).1
              then Subpage.free_4k_page (e &~ 4095) (Subpage.page_cow_put (e &~ 4095) s).2
              else (Subpage.page_cow_put (e &~ 4095) s).2
            else Subpage.free_4k_page (e &~ 4095) s)
  else x86_vmm_unmap_4k_page_with_free m root va s = Some (- ENOENT, m, s).
Proof.
  intros Hw Hva. cbv zeta. unfold x86_vmm_unmap_4k_page_with_free. rewrite walk_ro by done.
  destruct (tbl_at m 0 root [idx va 39; idx va 30; idx va 21]) as [t|] eqn:Ht.
  2: { assert (pte_at m root va = 0) as -> by (unfold pte_at; by rewrite Ht). reflexivity. }
  cbn [fmap option_fmap option_map mbind option_bind].
  destruct (closed_ld m root _ t (idx va 12) Hw (idx_path va Hva) Ht) as [e Ee].
  assert (pte_at m root va = e) as -> by (unfold pte_at; by rewrite Ht, Ee). rewrite Ee.
  cbn [from_option id mbind option_bind]. destruct (has e (Z.lor 1 512)); cbn [negb]; [|done].
  set (s' := if has e 1024 then _ else _).
  destruct (store_ok m root va t 0 Hw Hva Ht) as [m2 E2]. rewrite E2.
  destruct (pte_store m root va t 0 m2 Hw Hva Ht E2) as [Hw2 Hpte].
  exists m2, s'. split_and!; try done. unfold s'.
  destruct (has e 1024); [|done]. by destruct (Subpage.page_cow_put (e &~ 4095) s) as [[] ?].
Qed.

End alloc.

End walk.

(** ** The tables implement [PageTable] *)

Section instance.
Context (calloc_table : tables -> option Z) (root : Z).
Context (calloc_fresh : forall m pa, calloc_table m = Some pa ->
  m !! pa = None /\ 0 <= pa < U64 - 4096 /\ pa mod 4096 = 0).

Definition x86_get (m : tables) (va : Z) : option Z :=
  match vmm_pt_walk calloc_table m root va 0 false with
  | Some (Some (t, i), m) => ld m t i
  | _ => None
  end.
Definition x86_set (m : tables) (va v : Z) : tables :=
  match vmm_pt_walk calloc_table m root va 0 false with
  | Some (Some (t, i), m) => default m (st m t i v)
  | _ => m
  end.
Definition x86_map (m : tables) (phys va flags : Z) : Z * tables :=
  default (- ENOMEM, m) (x86_vmm_map_4k_page calloc_table m root phys va flags).

Lemma x86_get_val m va : pt_wf m root -> user_va va -> pt_val x86_get m va = pte_at m root va.
Proof.
  intros Hw Hva. unfold pt_val, x86_get, pte_at. rewrite walk_ro by done.
  by destruct (tbl_at m 0 root _).
Qed.

Lemma x86_get_page m va va' :
  pt_wf m root -> user_va va -> user_va va' -> va / 4096 = va' / 4096 -> x86_get m va = x86_get m va'.
Proof.
  intros Hw Hva Hva' He. unfold x86_get. rewrite !walk_ro by done.
  apply idx_page in He; [|done..]. injection He as -> -> -> ->. done.
Qed.

Lemma x86_set_spec m va v e :
  pt_wf m root -> user_va va -> x86_get m va = Some e ->
  pt_wf (x86_set m va v) root /\ forall va', user_va va' ->
    pt_val x86_get (x86_set m va v) va' = if va' / 4096 =? va / 4096 then v else pt_val x86_get m va'.
Proof.
  intros Hw Hva. unfold x86_get at 1, x86_set. rewrite walk_ro by done.
  destruct (tbl_at m 0 root [idx va 39; idx va 30; idx va 21]) as [t|] eqn:Ht; [|done].
  cbn [fmap option_fmap option_map]. intros E.
  destruct (store_ok m root va t v Hw Hva Ht) as [m2 E2]. rewrite E2. cbn [from_option id].
  destruct (pte_store m root va t v m2 Hw Hva Ht E2) as [Hw2 Hpte].
  split; [done|]. intros va' Hva'. rewrite !x86_get_val by done. by apply Hpte.
Qed.

Lemma x86_map_spec m phys va flags rc m' :
  pt_wf m root -> user_va va -> x86_map m phys va flags = (rc, m') ->
  pt_wf m' root /\ (rc = 0 \/ rc = - ENOMEM) /\ forall va', user_va va' ->
    pt_val x86_get m' va' =
      if (rc =? 0) && (va' / 4096 =? va / 4096)
      then Z.lor (phys &~ 4095) (Z.land flags 4095) else pt_val x86_get m va'.
Proof.
  intros Hw Hva. unfold x86_map.
  destruct (map_4k_spec calloc_table calloc_fresh m root phys va flags Hw Hva) as (rc' & m1 & -> & Hw1 & Hrc & Hpte).
  intros [= <- <-]. split_and!; [done|tauto|]. intros va' Hva'. rewrite !x86_get_val by done. by apply Hpte.
Qed.

Definition x86_page_table : PageTable tables := {|
  pt_get := x86_get;
  pt_set := x86_set;
  pt_map := x86_map;
  pt_inv := fun m => pt_wf m root;
  pt_get_page := x86_get_page;
  pt_set_spec := x86_set_spec;
  pt_map_spec := x86_map_spec;
|}.
End instance.

(** ** A concrete tree *)

(** A table allocator handing out the first free page above 64 KiB. *)
Fixpoint first_free (n : nat) (m : tables) (pa : Z) : option Z :=
  match n with
  | O => None
  | S n => match m !! pa with None => Some pa | Some _ => first_free n m (pa + 4096) end
  end.
Definition demo_calloc (m : tables) : option Z := first_free 100 m 65536.

Lemma demo_calloc_fresh m pa :
  demo_calloc m = Some pa -> m !! pa = None /\ 0 <= pa < U64 - 4096 /\ pa mod 4096 = 0.
Proof.
  unfold demo_calloc. assert (forall n a, 0 <= a -> a + Z.of_nat n * 4096 < U64 - 4096 -> a mod 4096 = 0 ->
    first_free n m a = Some pa -> m !! pa = None /\ 0 <= pa < U64 - 4096 /\ pa mod 4096 = 0) as Hn.
  { induction n as [|n IH]; intros a H0 H1 H2; simpl; [done|].
    destruct (m !! a) eqn:E; [apply IH; dlia|]. intros [= ->]. split_and!; done || lia. }
  apply Hn; (done || lia).
Qed.

Definition demo_tables : tables := {[ 4096 := ∅ ]}.

Lemma demo_tables_wf : pt_wf demo_tables 4096.
Proof.
  assert (forall p t, tbl_at demo_tables 0 4096 p = Some t -> p = [] /\ t = 4096) as Hp.
  { intros [|i p] t; simpl; [by intros [= <-]|]. unfold follow, ld, demo_tables.
    rewrite lookup_singleton_eq. done. }
  constructor.
  - intros p t _ E. destruct (Hp p t E) as [_ ->]. unfold demo_tables. rewrite lookup_singleton_eq. eauto.
  - intros p q t _ _ E1 E2. destruct (Hp p t E1) as [-> _], (Hp q t E2) as [-> _]. done.
Qed.

Lemma demo_tables_pte va : pte_at demo_tables 4096 va = 0.
Proof. unfold pte_at, demo_tables. simpl. unfold follow, ld. by rewrite lookup_singleton_eq. Qed.

Lemma vmm_map_4k_page_correct_witness :
  exists m', x86_vmm_map_4k_page demo_calloc demo_tables 4096 2097152 4194304 7 = Some (0, m') /\ pt_wf m' 4096 /\
    pte_at m' 4096 4194304 = 2097159 /\ x86_vmm_query_4k_page demo_calloc m' 4096 4194304 = Some (0, Some (2097152, 7)).
Proof.
  destruct (vmm_map_4k_page_correct demo_calloc demo_calloc_fresh demo_tables 4096 2097152 4194304 7
    demo_tables_wf) as (rc & m' & E & Hw & _ & Hpte & Hq); [unfold user_va; lia|unfold is_u64; lia..|].
  assert (rc = 0) as -> by (apply (f_equal (fmap fst)) in E; vm_compute in E; injection E as E; symmetry; exact E).
  exists m'. split; [exact E|]. split; [exact Hw|]. split; [|apply Hq; reflexivity].
  rewrite Hpte by (unfold user_va; lia). reflexivity.
Defined.

(** The tables with one page mapped. *)
Definition mapped_tables : tables :=
  default ∅ (snd <$> x86_vmm_map_4k_page demo_calloc demo_tables 4096 2101248 4194304 7).

Lemma mapped_tables_wf : pt_wf mapped_tables 4096.
Proof.
  destruct (map_4k_spec demo_calloc demo_calloc_fresh demo_tables 4096 2101248 4194304 7
    demo_tables_wf) as (rc & m' & E & Hw & _); [unfold user_va; lia|].
  unfold mapped_tables. rewrite E. exact Hw.
Qed.

#[local] Existing Instance Subpage.pmm_frames.
Lemma vmm_unmap_4k_page_correct_witness :
  exists m' s', x86_vmm_unmap_4k_page_with_free demo_calloc mapped_tables 4096 4194304 Subpage.sub1
    = Some (0, m', s') /\ pt_wf m' 4096.
Proof.
  pose proof (vmm_unmap_4k_page_correct demo_calloc mapped_tables 4096 4194304 Subpage.sub1
    mapped_tables_wf ltac:(unfold user_va; lia)) as H.
  cbv zeta in H. replace (has (pte_at mapped_tables 4096 4194304) (Z.lor 1 512)) with true in H
    by (vm_compute; reflexivity).
  destruct H as (m' & s' & E & Hw & _). exists m', s'. split; assumption.
Defined.

End Vmm.
