(* ===== verification/Vma.v ===== *)
(** Address spaces: the VMA list, mmap, munmap, mprotect and the program
    break of src/kernel/memory/vma.c, over the page-table interface
    [PageTable] and the 4 KiB allocator of [Subpage]. *)

From stdpp Require Import base tactics numbers option sets sorting list.
From Stdlib Require Import ZArith Lia.
From S2P Require Import Prelude PmmBoot Pmm PmmInit Subpage Vmm.

Module Vma.

(** ** Constants and data *)

Abbreviation PAGE_4K_SIZE := 4096 (only parsing).
Abbreviation VMA_PROT_READ := 1 (only parsing).
Abbreviation VMA_PROT_WRITE := 2 (only parsing).
Abbreviation VMA_PROT_EXEC := 4 (only parsing).
Abbreviation VMA_SHARED := 8 (only parsing).
Abbreviation VMA_ANON := 32 (only parsing).
Abbreviation VMA_IO := 128 (only parsing).
Abbreviation VMA_HEAP := 256 (only parsing).
Abbreviation MAP_SHARED := 1 (only parsing).
Abbreviation MAP_FIXED := 16 (only parsing).
Abbreviation MAP_ANONYMOUS := 32 (only parsing).
Abbreviation PROT_NONE := 0 (only parsing).
Abbreviation PROT_READ := 1 (only parsing).
Abbreviation PROT_WRITE := 2 (only parsing).
Abbreviation PROT_EXEC := 4 (only parsing).
Abbreviation PAGE_VALID := 1 (only parsing).
Abbreviation PAGE_USER := 4 (only parsing).
Abbreviation PAGE_PROTNONE := 512 (only parsing).
Abbreviation PAGE_COW := 1024 (only parsing).
Abbreviation PAGE_USER_PTE := 7 (only parsing).
Abbreviation PAGE_USER_PTE_RO := 5 (only parsing).
Abbreviation USER_MIN_ADDR := 4194304 (only parsing).
Abbreviation USER_CODE_ADDR := 4194304 (only parsing).
Abbreviation USER_STACK_BASE := 541065216 (only parsing).
(** [USER_CODE_ADDR + USER_ENVELOPE_SIZE - 0x1000] = 0x203ff000. *)
Abbreviation HEAP_LIMIT := 541061120 (only parsing).
Abbreviation NOFILE := 16 (only parsing).

Import Vmm(has).

(** PAGE_4K_ALIGN *)
Definition page_align (x : Z) : Z := (x +u PAGE_4K_SIZE -u 1) &~ 4095.

(** [vma_t]; [vm_file] is the vfs node. *)
Record vma_t := mk_vma {
  vm_start : Z;
  vm_end : Z;
  vm_flags : Z;
  vm_page_prot : Z;
  vm_pgoff : Z;
  vm_file : option Z;
}.
Definition with_start (a : Z) (v : vma_t) : vma_t :=
  mk_vma a (vm_end v) (vm_flags v) (vm_page_prot v) (vm_pgoff v) (vm_file v).
Definition with_end (a : Z) (v : vma_t) : vma_t :=
  mk_vma (vm_start v) a (vm_flags v) (vm_page_prot v) (vm_pgoff v) (vm_file v).
Definition with_prot (flags prot : Z) (v : vma_t) : vma_t :=
  mk_vma (vm_start v) (vm_end v) flags prot (vm_pgoff v) (vm_file v).

(** ** The VMA list *)

Fixpoint vma_find (l : list vma_t) (addr : Z) : option vma_t :=
  match l with
  | [] => None
  | v :: l =>
    if (vm_start v <=? addr) && (addr <? vm_end v) then Some v
    else if addr <? vm_start v then None
    else vma_find l addr
  end.

Fixpoint vma_insert (l : list vma_t) (vma : vma_t) : list vma_t :=
  match l with
  | [] => [vma]
  | v :: l => if vm_start vma <? vm_start v then vma :: v :: l else v :: vma_insert l vma
  end.

(** The reserved windows; [start_brk] is the address space's. *)
Definition mm_user_range_protected (start_brk start end_ : Z) : bool :=
  if start_brk =? 0 then false
  else if end_ <=? start then false
  else
    let stack_end := USER_STACK_BASE + 2097152 in
    if (start <? start_brk) && (USER_CODE_ADDR <? end_) then true
    else if (start <? HEAP_LIMIT) && (start_brk <? end_) then true
    else if (start <? USER_STACK_BASE) && (HEAP_LIMIT <? end_) then true
    else if (start <? stack_end) && (USER_STACK_BASE <? end_) then true
    else false.

(** [(int)prot] to page and VMA flags; the error is [-EINVAL]. *)
Definition prot_to_page_flags (prot : Z) : Z + Z * Z :=
  let prot := wrap32 prot in
  if negb (Z.land prot (4294967295 - 7) =? 0) then inl (- EINVAL)
  else if has prot PROT_WRITE && negb (has prot PROT_READ) then inl (- EINVAL)
  else
    let prot := if has prot PROT_EXEC then Z.lor prot PROT_READ else prot in
    if prot =? PROT_NONE then inr (PAGE_USER, 0)
    else if prot =? PROT_READ then inr (PAGE_USER_PTE_RO, VMA_PROT_READ)
    else if prot =? 3 then inr (PAGE_USER_PTE, 3)
    else if (prot =? 5) || (prot =? 7) then
      inr (PAGE_USER_PTE, Z.lor (Z.lor VMA_PROT_READ VMA_PROT_EXEC)
                             (if has prot PROT_WRITE then VMA_PROT_WRITE else 0))
    else inl (- EINVAL).

Definition map_flags_to_vm (flags vm_flags : Z) : Z :=
  let vm_flags := if has flags MAP_SHARED then Z.lor vm_flags VMA_SHARED else vm_flags in
  if has flags MAP_ANONYMOUS then Z.lor vm_flags VMA_ANON else vm_flags.

Section address_space.
Context {P : Type} `{PT : PageTable P} {F : Type} `{FS : Subpage.FrameSource F}.

(** The current process: its [mm_t], the state of its page table, the 4 KiB
    allocator, the bytes of physical memory, the reference counts of vfs
    nodes, the outcomes of the coming [kmalloc] calls ([true] for success;
    the empty list means they all succeed), the memory a new sub-page pool
    finds in its counters, and [addr_limit]. *)
Record sys := mk_sys {
  vma_list : list vma_t;
  start_brk : Z;
  end_brk : Z;
  mmap_base : Z;
  pt : P;
  sub : @Subpage.state F;
  mem : Z -> Z;
  frefs : Z -> Z;
  kok : list bool;
  junk : list Z;
  addr_limit : Z;
}.

Definition set_vmas (l : list vma_t) (s : sys) : sys :=
  mk_sys l (start_brk s) (end_brk s) (mmap_base s) (pt s) (sub s) (mem s) (frefs s) (kok s)
    (junk s) (addr_limit s).
Definition set_brk (a b : Z) (s : sys) : sys :=
  mk_sys (vma_list s) a b (mmap_base s) (pt s) (sub s) (mem s) (frefs s) (kok s) (junk s) (addr_limit s).
Definition set_pt (p : P) (s : sys) : sys :=
  mk_sys (vma_list s) (start_brk s) (end_brk s) (mmap_base s) p (sub s) (mem s) (frefs s) (kok s)
    (junk s) (addr_limit s).
Definition set_sub (a : @Subpage.state F) (s : sys) : sys :=
  mk_sys (vma_list s) (start_brk s) (end_brk s) (mmap_base s) (pt s) a (mem s) (frefs s) (kok s)
    (junk s) (addr_limit s).
Definition set_mem (m : Z -> Z) (s : sys) : sys :=
  mk_sys (vma_list s) (start_brk s) (end_brk s) (mmap_base s) (pt s) (sub s) m (frefs s) (kok s)
    (junk s) (addr_limit s).
Definition set_frefs (r : Z -> Z) (s : sys) : sys :=
  mk_sys (vma_list s) (start_brk s) (end_brk s) (mmap_base s) (pt s) (sub s) (mem s) r (kok s)
    (junk s) (addr_limit s).
Definition set_kok (k : list bool) (s : sys) : sys :=
  mk_sys (vma_list s) (start_brk s) (end_brk s) (mmap_base s) (pt s) (sub s) (mem s) (frefs s) k
    (junk s) (addr_limit s).

Definition kmalloc (s : sys) : bool * sys :=
  match kok s with
  | [] => (true, s)
  | b :: k => (b, set_kok k s)
  end.

(** vfs_node_get and vfs_node_put *)
Definition file_ref (d : Z) (f : option Z) (s : sys) : sys :=
  match f with
  | None => s
  | Some n => set_frefs (fun m => if m =? n then frefs s m + d else frefs s m) s
  end.

Definition alloc_page (s : sys) : Z * sys :=
  let '(phys, a) := Subpage.alloc_4k_page (junk s) (sub s) in (phys, set_sub a s).
Definition free_page (phys : Z) (s : sys) : sys := set_sub (Subpage.free_4k_page phys (sub s)) s.
Definition cow_put (phys : Z) (s : sys) : bool * sys :=
  let '(last, a) := Subpage.page_cow_put phys (sub s) in (last, set_sub a s).

(** memset to zero and memcpy on physical memory *)
Definition zero (a n : Z) (s : sys) : sys :=
  set_mem (fun x => if (a <=? x) && (x <? a + n) then 0 else mem s x) s.
Definition copy (dst src n : Z) (s : sys) : sys :=
  set_mem (fun x => if (dst <=? x) && (x <? dst + n) then mem s (src + (x - dst)) else mem s x) s.

(** vmm_unmap_4k_page *)
Definition unmap_page (va : Z) (s : sys) : sys :=
  match pt_get (pt s) va with
  | None => s
  | Some e =>
    if negb (has e (Z.lor PAGE_VALID PAGE_PROTNONE)) then s else
    let phys := e &~ 4095 in
    let s := if has e PAGE_COW then
               let '(last, s) := cow_put phys s in if last then free_page phys s else s
             else free_page phys s in
    set_pt (pt_set (pt s) va 0) s
  end.

(** [for (va = a; va < b; va += PAGE_4K_SIZE) vmm_unmap_4k_page(pgd, va)] *)
Definition pages (a b : Z) : nat := Z.to_nat ((b - a + 4095) / 4096).
Fixpoint unmap_n (n : nat) (va : Z) (s : sys) : sys :=
  match n with
  | O => s
  | S n => unmap_n n (va + PAGE_4K_SIZE) (unmap_page va s)
  end.
Definition unmap_range (a b : Z) (s : sys) : sys := unmap_n (pages a b) a s.

(** ** munmap *)

(** The walk over the VMAs from [l] on; the result is what the list becomes
    from there.  A split inserts the right half after the left one, which is
    where [vma_insert] puts it in a sorted list. *)
Fixpoint munmap_vmas (l : list vma_t) (addr end_ : Z) (s : sys) : list vma_t * sys :=
  match l with
  | [] => ([], s)
  | v :: l =>
    if vm_end v <=? addr then
      let '(l', s) := munmap_vmas l addr end_ s in (v :: l', s)
    else if end_ <=? vm_start v then (v :: l, s)
    else
      let u_start := if vm_start v <? addr then addr else vm_start v in
      let u_end := if end_ <? vm_end v then end_ else vm_end v in
      let s := unmap_range u_start u_end s in
      if (u_start <=? vm_start v) && (vm_end v <=? u_end) then
        let s := file_ref (-1) (vm_file v) s in
        munmap_vmas l addr end_ s
      else if (vm_start v <? u_start) && (u_end <? vm_end v) then
        let '(ok, s) := kmalloc s in
        let left := with_end u_start v in
        if ok then
          let right := with_end (vm_end v) (with_start u_end left) in
          let s := file_ref 1 (vm_file right) s in
          let '(l', s) := munmap_vmas l addr end_ s in
          (left :: vma_insert l' right, s)
        else
          let '(l', s) := munmap_vmas l addr end_ s in (left :: l', s)
      else if vm_start v <? u_start then
        let '(l', s) := munmap_vmas l addr end_ s in (with_end u_start v :: l', s)
      else
        let '(l', s) := munmap_vmas l addr end_ s in (with_start u_end v :: l', s)
  end.

Definition do_munmap_locked (addr length : Z) (s : sys) : Z * sys :=
  let addr := page_align addr in
  let length := page_align length in
  if length =? 0 then (- EINVAL, s) else
  let end_ := addr +u length in
  if mm_user_range_protected (start_brk s) addr end_ then (- EINVAL, s) else
  let '(l, s) := munmap_vmas (vma_list s) addr end_ s in
  (0, set_vmas l s).

Definition do_munmap (addr length : Z) (s : sys) : Z * sys := do_munmap_locked addr length s.

(** ** mmap *)

(** The gap search: the candidate, 0 if none was found, and the last VMA
    passed. *)
Fixpoint find_gap (l : list vma_t) (prev : option vma_t) (search length : Z) : Z * option vma_t :=
  match l with
  | [] => (0, prev)
  | v :: l =>
    let gap_start := match prev with Some p => vm_end p | None => search end in
    let gap_start := if gap_start <? search then search else gap_start in
    if gap_start +u length <=? vm_start v then (gap_start, prev)
    else find_gap l (Some v) search length
  end.

(** [fds] is [current->files->fd[fd]->node], [None] for a missing file;
    [dev_mmap] is the node's mmap handler if it has one, acting on the
    address space and the new VMA. *)
Definition do_mmap (fds : Z -> option Z) (dev_mmap : Z -> option (vma_t -> sys -> Z * vma_t * sys))
    (addr length prot flags fd offset : Z) (s : sys) : Z * sys :=
  if length =? 0 then (- EINVAL, s) else
  if negb (addr =? 0) && (addr <? USER_MIN_ADDR) then (- EINVAL, s) else
  let end_ := page_align (addr +u length) in
  if end_ <? addr then (- EINVAL, s) else
  if negb (Z.land offset 4095 =? 0) then (- EINVAL, s) else
  let anon := has flags MAP_ANONYMOUS in
  let file := if fd <? NOFILE then fds fd else None in
  if anon && negb (sint64 fd =? -1) then (- EINVAL, s) else
  if negb anon && bool_decide (file = None) then (- EBADF, s) else
  let fixed := has flags MAP_FIXED in
  if fixed && negb (Z.land addr 4095 =? 0) then (- EINVAL, s) else
  if fixed && (addr_limit s <=? addr) then (- ENOMEM, s) else
  if fixed && mm_user_range_protected (start_brk s) addr end_ then (- EINVAL, s) else
  let length := page_align length in
  if length =? 0 then (- EINVAL, s) else
  let search := mmap_base s in
  let '(addr, s) :=
    if negb fixed then
      let '(a, prev) := find_gap (vma_list s) None search length in
      let a := if a =? 0 then match prev with Some p => vm_end p | None => search end else a in
      let a := if a <? search then search else a in
      let a := if mm_user_range_protected (start_brk s) a (a +u length)
               then USER_STACK_BASE + 2097152 else a in
      (a, s)
    else (addr, (do_munmap_locked addr length s).2) in
  if addr_limit s <? addr +u length then (- ENOMEM, s) else
  if addr_limit s <=? addr then (- ENOMEM, s) else
  match prot_to_page_flags prot with
  | inl rc => (rc, s)
  | inr (page_prot, vm_flags_base) =>
    let vm_flags_base := map_flags_to_vm (wrap32 flags) vm_flags_base in
    let file_node := if anon then None else file in
    let s := file_ref 1 file_node s in
    let insert v s := set_vmas (vma_insert (vma_list s) v) s in
    let plain s :=
      let '(ok, s) := kmalloc s in
      if negb ok then (- ENOMEM, file_ref (-1) file_node s)
      else (addr, insert (mk_vma addr (addr +u length) vm_flags_base page_prot
                            (Z.shiftr offset 12) file_node) s) in
    match (n ← file_node; dev_mmap n) with
    | None => plain s
    | Some handler =>
      if negb (has flags MAP_SHARED) then (- EINVAL, file_ref (-1) file_node s) else
      if mm_user_range_protected (start_brk s) addr (addr +u length)
      then (- EINVAL, file_ref (-1) file_node s) else
      let '(ok, s) := kmalloc s in
      if negb ok then (- ENOMEM, file_ref (-1) file_node s) else
      let '(rc, v, s) := handler (mk_vma addr (addr +u length) (Z.lor vm_flags_base VMA_IO)
                           page_prot (Z.shiftr offset 12) file_node) s in
      if rc <? 0 then (rc, file_ref (-1) file_node s)
      else (vm_start v, insert v s)
    end
  end.

(** ** mprotect *)

(** The pre-scan: an error, or how far the range is covered. *)
Fixpoint prescan (l : list vma_t) (scan_addr end_ : Z) : Z + Z :=
  match l with
  | [] => inr scan_addr
  | v :: l =>
    if vm_end v <=? scan_addr then prescan l scan_addr end_
    else if end_ <=? vm_start v then inr scan_addr
    else if scan_addr <? vm_start v then inl (- ENOMEM)
    else if has (vm_flags v) VMA_IO then inl (- EPERM)
    else if end_ <=? vm_end v then inr (vm_end v)
    else prescan l (vm_end v) end_
  end.

(** [*(uint64_t * )Phy_To_Virt(a) = v] *)
Definition store64 (a v : Z) (s : sys) : sys :=
  set_mem (fun x => if (a <=? x) && (x <? a + 8) then Z.shiftr v (8 * (x - a)) mod 256 else mem s x) s.

(** The entry of one page, and the list of pages to free after the flush (in
    the code it is threaded through their first words). *)
Definition mprotect_page (prot new_page_prot va : Z) (d : list Z) (s : sys) : list Z * sys :=
  match pt_get (pt s) va with
  | None => (d, s)
  | Some e =>
    if negb (has e (Z.lor PAGE_VALID PAGE_PROTNONE)) then (d, s) else
    let phys := e &~ 4095 in
    if prot =? PROT_NONE then
      let stash := Z.lor (Z.lor phys PAGE_USER) PAGE_PROTNONE in
      let stash := if has e PAGE_COW then Z.lor stash PAGE_COW else stash in
      (d, set_pt (pt_set (pt s) va stash) s)
    else if has e PAGE_COW then
      if 1 <? Subpage.page_cow_refs phys (sub s) then
        let '(new_phys, s) := alloc_page s in
        if new_phys =? 0 then (d, s) else
        let s := copy new_phys phys PAGE_4K_SIZE s in
        let '(last, s) := cow_put phys s in
        let s := set_pt (pt_set (pt s) va (Z.lor new_phys new_page_prot)) s in
        if last then (phys :: d, store64 phys (match d with [] => 0 | h :: _ => h end) s) else (d, s)
      else
        let '(_, s) := cow_put phys s in
        (d, set_pt (pt_set (pt s) va (Z.lor phys new_page_prot)) s)
    else (d, set_pt (pt_set (pt s) va (Z.lor phys new_page_prot)) s)
  end.
Fixpoint mprotect_n (n : nat) (prot new_page_prot va : Z) (d : list Z) (s : sys) : list Z * sys :=
  match n with
  | O => (d, s)
  | S n => let '(d, s) := mprotect_page prot new_page_prot va d s in
           mprotect_n n prot new_page_prot (va + PAGE_4K_SIZE) d s
  end.

(** The update loop: the VMAs, the final [addr], the pages to free. *)
Fixpoint mprotect_vmas (l : list vma_t) (prot new_page_prot new_vm_flags addr end_ : Z)
    (d : list Z) (s : sys) : list vma_t * Z * list Z * sys :=
  match l with
  | [] => ([], addr, d, s)
  | v :: l =>
    if vm_end v <=? addr then
      let '(l', a, d, s) := mprotect_vmas l prot new_page_prot new_vm_flags addr end_ d s in
      (v :: l', a, d, s)
    else if end_ <=? vm_start v then (v :: l, addr, d, s)
    else
      let v' := with_prot (Z.lor (vm_flags v &~ 7) new_vm_flags) new_page_prot v in
      let va_start := if vm_start v <? addr then addr else vm_start v in
      let va_end := if end_ <? vm_end v then end_ else vm_end v in
      let '(d, s) := mprotect_n (pages va_start va_end) prot new_page_prot va_start d s in
      if end_ <=? vm_end v then (v' :: l, vm_end v, d, s)
      else
        let '(l', a, d, s) := mprotect_vmas l prot new_page_prot new_vm_flags (vm_end v) end_ d s in
        (v' :: l', a, d, s)
  end.

Definition do_mprotect (addr length prot : Z) (s : sys) : Z * sys :=
  let addr := page_align addr in
  let length := page_align length in
  if length =? 0 then (- EINVAL, s) else
  if addr +u length <? addr then (- EINVAL, s) else
  let end_ := addr +u length in
  if mm_user_range_protected (start_brk s) addr end_ then (- EINVAL, s) else
  match prot_to_page_flags prot with
  | inl rc => (rc, s)
  | inr (new_page_prot, new_vm_flags) =>
    match prescan (vma_list s) addr end_ with
    | inl rc => (rc, s)
    | inr scan_addr =>
      if scan_addr <? end_ then (- ENOMEM, s) else
      let '(l, addr, d, s) := mprotect_vmas (vma_list s) prot new_page_prot new_vm_flags addr end_ [] s in
      let s := set_vmas l s in
      let s := foldl (fun s phys => free_page phys s) s d in
      if addr <? end_ then (- ENOMEM, s) else (0, s)
    end
  end.

(** ** Address-space set-up, fork and teardown *)

Definition mm_init_user_heap (elf_end : Z) (s : sys) : Z * sys :=
  let heap_base := (elf_end +u (PAGE_4K_SIZE - 1)) &~ (PAGE_4K_SIZE - 1) in
  let '(ok, s) := kmalloc s in
  if negb ok then (- ENOMEM, s) else
  let hv := mk_vma heap_base heap_base 291 7 0 None in
  let s := set_brk heap_base heap_base s in
  (0, set_vmas (vma_insert (vma_list s) hv) s).

(** The parent's list copied into [child]. *)
Fixpoint fork_vma_copy (parent child : list vma_t) (s : sys) : list vma_t * sys :=
  match parent with
  | [] => (child, s)
  | pv :: parent =>
    let '(ok, s) := kmalloc s in
    if negb ok then fork_vma_copy parent child s
    else fork_vma_copy parent (vma_insert child pv) (file_ref 1 (vm_file pv) s)
  end.

(** [have_pgd] is [mm->pgdir != NULL]. *)
Fixpoint free_vmas (have_pgd : bool) (l : list vma_t) (s : sys) : sys :=
  match l with
  | [] => s
  | v :: l =>
    let s := if has (vm_flags v) VMA_IO then s
             else if have_pgd then unmap_range (vm_start v) (vm_end v) s else s in
    free_vmas have_pgd l (file_ref (-1) (vm_file v) s)
  end.
Definition vma_free_all (have_pgd : bool) (s : sys) : sys :=
  set_vmas [] (free_vmas have_pgd (vma_list s) s).

(** ** The program break *)

Definition is_heap (sb : Z) (v : vma_t) : bool := has (vm_flags v) VMA_HEAP && (vm_start v =? sb).
(** [heap_vma->vm_end = a] for the first heap VMA. *)
Fixpoint set_heap_end (sb a : Z) (l : list vma_t) : list vma_t :=
  match l with
  | [] => []
  | v :: l => if is_heap sb v then with_end a v :: l else v :: set_heap_end sb a l
  end.
Definition commit_brk (requested : Z) (s : sys) : sys :=
  set_vmas (set_heap_end (start_brk s) requested (vma_list s)) (set_brk (start_brk s) requested s).

(** Staging of the new leaves: the error code and the addresses staged. *)
Fixpoint grow_n (n : nat) (page_prot va : Z) (staged : list Z) (s : sys) : Z * list Z * sys :=
  match n with
  | O => (0, staged, s)
  | S n =>
    let present := match pt_get (pt s) va with Some e => has e PAGE_VALID | None => false end in
    if present then grow_n n page_prot (va + PAGE_4K_SIZE) staged s
    else
      let '(phys, s) := alloc_page s in
      if phys =? 0 then (- ENOMEM, staged, s) else
      let s := zero phys PAGE_4K_SIZE s in
      let '(map_rc, p) := pt_map (pt s) phys va page_prot in
      let s := set_pt p s in
      if negb (map_rc =? 0) then (- ENOMEM, staged, free_page phys s)
      else grow_n n page_prot (va + PAGE_4K_SIZE) (staged ++ [va]) s
  end.

(** The retained tail of a shrink: [inl] is the out-of-memory exit, the
    number a page to free at the end (0 for none). *)
Definition shrink_tail (page_prot requested aligned_new : Z) (s : sys) : sys + Z * sys :=
  let tail_va := aligned_new -u PAGE_4K_SIZE in
  match pt_get (pt s) tail_va with
  | None => inr (0, s)
  | Some e =>
    if negb (has e PAGE_VALID) then inr (0, s) else
    let old_phys := e &~ 4095 in
    let fin phys f s :=
      let off := requested -u tail_va in inr (f, zero (phys + off) (PAGE_4K_SIZE - off) s) in
    if has e PAGE_COW then
      if 1 <? Subpage.page_cow_refs old_phys (sub s) then
        let '(new_phys, s) := alloc_page s in
        if new_phys =? 0 then inl s else
        let s := copy new_phys old_phys PAGE_4K_SIZE s in
        let s := set_pt (pt_set (pt s) tail_va (Z.lor new_phys page_prot)) s in
        let '(last, s) := cow_put old_phys s in
        fin new_phys (if last then old_phys else 0) s
      else
        let '(_, s) := cow_put old_phys s in
        fin old_phys 0 (set_pt (pt_set (pt s) tail_va (Z.lor old_phys page_prot)) s)
    else fin old_phys 0 s
  end.

(** The return code and [*result] if it was written. *)
Definition mm_set_brk (requested : Z) (s : sys) : Z * option Z * sys :=
  if requested =? 0 then (0, Some (end_brk s), s) else
  if start_brk s =? 0 then (- ENOMEM, None, s) else
  if requested <? start_brk s then (- EINVAL, None, s) else
  if HEAP_LIMIT <? requested then (- ENOMEM, None, s) else
  if requested =? end_brk s then (0, Some (end_brk s), s) else
  match List.find (is_heap (start_brk s)) (vma_list s) with
  | None => (- ENOMEM, None, s)
  | Some heap_vma =>
    let page_prot := vm_page_prot heap_vma in
    let aligned_old := (end_brk s +u (PAGE_4K_SIZE - 1)) &~ 4095 in
    let aligned_new := (requested +u (PAGE_4K_SIZE - 1)) &~ 4095 in
    if end_brk s <? requested then
      let aligned_new := if HEAP_LIMIT <? aligned_new then HEAP_LIMIT else aligned_new in
      if aligned_new <=? aligned_old then (0, Some requested, commit_brk requested s)
      else
        let '(ok1, s) := kmalloc s in
        let '(ok2, s) := kmalloc s in
        if negb (ok1 && ok2) then (- ENOMEM, None, s) else
        let '(rc, staged, s) := grow_n (pages aligned_old aligned_new) page_prot aligned_old [] s in
        if negb (rc =? 0) then (rc, None, foldl (fun s va => unmap_page va s) s staged)
        else (0, Some requested, commit_brk requested s)
    else
      let tail := if requested <? aligned_new then shrink_tail page_prot requested aligned_new s
                  else inr (0, s) in
      match tail with
      | inl s => (- ENOMEM, None, s)
      | inr (free_old_phys, s) =>
        let s := unmap_range aligned_new aligned_old s in
        let s := commit_brk requested s in
        (0, Some requested, if free_old_phys =? 0 then s else free_page free_old_phys s)
      end
  end.

(** * VMA lists *)

(** A VMA list is in order when each VMA is an interval and ends where or
    before the next one starts. *)
Definition vma_ok (v : vma_t) : Prop := 0 <= vm_start v <= vm_end v.
Definition before (v w : vma_t) : Prop := vm_end v <= vm_start w.
Definition sorted (l : list vma_t) : Prop := Forall vma_ok l /\ StronglySorted before l.

(** The VMA [v] contains the address [a]. *)
Definition contains (v : vma_t) (a : Z) : Prop := vm_start v <= a < vm_end v.

(** What a mapping grants at an address. *)
Definition grants (l : list vma_t) (a : Z) (x : Z * Z * option Z) : Prop :=
  exists v, v ∈ l /\ contains v a /\ (vm_flags v, vm_page_prot v, vm_file v) = x.

Lemma sorted_cons v l : sorted (v :: l) <-> vma_ok v /\ Forall (before v) l /\ sorted l.
Proof.
  unfold sorted. rewrite Forall_cons. split.
  - intros [[? ?] [? ?]%StronglySorted_inv]. auto.
  - intros (? & ? & ? & ?). split; [auto|]. by constructor.
Qed.

Lemma vma_find_spec l a v : sorted l -> vma_find l a = Some v <-> v ∈ l /\ contains v a.
Proof.
  unfold contains. induction l as [|w l IH]; intros Hs; simpl.
  { split; [done|]. by intros [?%not_elem_of_nil _]. }
  apply sorted_cons in Hs as (Hw & Hb & Hs). specialize (IH Hs). rewrite elem_of_cons.
  assert (forall x, x ∈ l -> vm_end w <= vm_start x) as Hb' by (by rewrite Forall_forall in Hb).
  unfold vma_ok in Hw.
  destruct (Z.leb_spec (vm_start w) a), (Z.ltb_spec a (vm_end w)), (Z.ltb_spec a (vm_start w)); simpl; try lia.
  - split; [intros [= ->]; auto|]. intros [[->|Hv] ?]; [done|]. specialize (Hb' v Hv). lia.
  - rewrite IH. split; [intros [? ?]; auto|]. intros [[->|Hv] ?]; [lia|auto].
  - split; [done|]. intros [[->|Hv] ?]; [lia|]. specialize (Hb' v Hv). lia.
Qed.

Lemma elem_of_vma_insert l v w : w ∈ vma_insert l v <-> w = v \/ w ∈ l.
Proof.
  induction l as [|x l IH]; simpl; [by rewrite list_elem_of_singleton, elem_of_nil; tauto|].
  destruct (vm_start v <? vm_start x); rewrite !elem_of_cons, ?IH, ?elem_of_cons; tauto.
Qed.

Lemma vma_insert_sorted l v :
  sorted l -> vma_ok v -> vm_start v < vm_end v -> (forall w, w ∈ l -> before w v \/ before v w) ->
  sorted (vma_insert l v).
Proof.
  intros Hs Hv Hne. induction l as [|x l IH]; intros Hd; simpl.
  { apply sorted_cons. done. }
  pose proof Hs as (Hx & Hb & Hs')%sorted_cons.
  assert (before x v \/ before v x) as Hdx by (apply Hd; apply elem_of_cons; auto).
  unfold before, vma_ok in *. destruct (Z.ltb_spec (vm_start v) (vm_start x)).
  - apply sorted_cons. split; [done|]. split; [|done]. constructor; [unfold before; lia|].
    eapply Forall_impl; [exact Hb|]. unfold before. simpl. lia.
  - apply sorted_cons. split; [done|]. split; [|by apply IH; [|intros w Hw; apply Hd; apply elem_of_cons; auto]].
    apply Forall_forall. intros w [->|Hw]%elem_of_vma_insert; [unfold before; lia|].
    by eapply Forall_forall in Hb.
Qed.

(** * munmap *)

Lemma kok_unmap_page va s : kok (unmap_page va s) = kok s.
Proof.
  unfold unmap_page, cow_put, free_page. destruct (pt_get (pt s) va); [|done].
  destruct (negb _); [done|]. destruct (has _ _); [|done].
  destruct (Subpage.page_cow_put _ _) as [[] ?]; done.
Qed.
Lemma kok_unmap_n n va s : kok (unmap_n n va s) = kok s.
Proof. revert va s. induction n as [|n IH]; intros va s; simpl; [done|]. by rewrite IH, kok_unmap_page. Qed.
Lemma kok_file_ref d f s : kok (file_ref d f s) = kok s.
Proof. by destruct f. Qed.

Lemma grants_cons v l a x :
  grants (v :: l) a x <-> (contains v a /\ (vm_flags v, vm_page_prot v, vm_file v) = x) \/ grants l a x.
Proof.
  unfold grants. split.
  - intros (w & [->|Hw]%elem_of_cons & Hc & E); [auto|]. right. eauto.
  - intros [[Hc E]|(w & Hw & Hc & E)]; [exists v|exists w]; rewrite elem_of_cons; auto.
Qed.

(** Every VMA of [l'] lies inside one of [l]. *)
Definition inside (l' l : list vma_t) : Prop :=
  forall w, w ∈ l' -> exists v, v ∈ l /\ vm_start v <= vm_start w /\ vm_end w <= vm_end v.

Lemma inside_cons l' l v w :
  inside l' l -> vm_start v <= vm_start w -> vm_end w <= vm_end v -> inside (w :: l') (v :: l).
Proof.
  intros Hi H1 H2 x [->|Hx]%elem_of_cons; [exists v; rewrite elem_of_cons; auto|].
  destruct (Hi x Hx) as (y & Hy & ?). exists y. rewrite elem_of_cons. auto.
Qed.

Lemma inside_skip l' l v : inside l' l -> inside l' (v :: l).
Proof. intros Hi x Hx. destruct (Hi x Hx) as (y & Hy & ?). exists y. rewrite elem_of_cons. auto. Qed.

Lemma inside_refl l : inside l l.
Proof. intros x Hx. exists x. split; [done|lia]. Qed.

(** A cut piece of [v] can head a list inside the rest of a sorted list. *)
Lemma sorted_piece v w l l' :
  sorted (v :: l) -> sorted l' -> inside l' l ->
  vma_ok w -> vm_end w <= vm_end v -> sorted (w :: l').
Proof.
  intros (Hv & Hb & Hs)%sorted_cons Hs' Hi Hw Hwv. apply sorted_cons. split; [done|]. split; [|done].
  apply Forall_forall. intros x Hx. destruct (Hi x Hx) as (y & Hy & ? & ?).
  eapply Forall_forall in Hb; [|exact Hy]. unfold before in *. lia.
Qed.

(** Past the end of the range the walk stops. *)
Lemma munmap_vmas_past l addr end_ s :
  addr < end_ -> sorted l -> (forall v, v ∈ l -> end_ <= vm_start v) -> munmap_vmas l addr end_ s = (l, s).
Proof.
  intros Hae Hs Hl. destruct l as [|v l]; [done|]. simpl.
  specialize (Hl v ltac:(apply elem_of_cons; auto)). apply sorted_cons in Hs as (Hv & _). unfold vma_ok in Hv.
  destruct (Z.leb_spec (vm_end v) addr); [lia|]. destruct (Z.leb_spec end_ (vm_start v)); [done|lia].
Qed.

(** The result of the walk on the list. *)
Record unmapped (l : list vma_t) (addr end_ : Z) (l' : list vma_t) : Prop := {
  um_sorted : sorted l';
  um_inside : inside l' l;
  um_grants : forall a x, grants l' a x <-> grants l a x /\ ~ (addr <= a < end_);
}.

Lemma unmapped_keep v l addr end_ l' :
  sorted (v :: l) -> unmapped l addr end_ l' -> (forall a, contains v a -> ~ (addr <= a < end_)) ->
  unmapped (v :: l) addr end_ (v :: l').
Proof.
  intros Hs [H1 H2 H3] Hd. pose proof Hs as (Hv & _)%sorted_cons. constructor.
  - eapply sorted_piece; [done|done|done|done|lia].
  - apply inside_cons; [done|lia|lia].
  - intros a x. rewrite !grants_cons, H3. specialize (Hd a). tauto.
Qed.

Lemma unmapped_drop v l addr end_ l' :
  unmapped l addr end_ l' -> (forall a, contains v a -> addr <= a < end_) -> unmapped (v :: l) addr end_ l'.
Proof.
  intros [H1 H2 H3] Hd. constructor; [done|by apply inside_skip|].
  intros a x. rewrite grants_cons, H3. specialize (Hd a). tauto.
Qed.

(** Replacing [v] by a piece [w] of it that keeps exactly the addresses
    outside the range. *)
Lemma unmapped_piece v w l addr end_ l' :
  sorted (v :: l) -> unmapped l addr end_ l' -> vma_ok w -> vm_start v <= vm_start w -> vm_end w <= vm_end v ->
  (vm_flags w, vm_page_prot w, vm_file w) = (vm_flags v, vm_page_prot v, vm_file v) ->
  (forall a, contains w a <-> contains v a /\ ~ (addr <= a < end_)) ->
  unmapped (v :: l) addr end_ (w :: l').
Proof.
  intros Hs [H1 H2 H3] Hw Hws Hwe Ha Hc. constructor.
  - by eapply sorted_piece.
  - by apply inside_cons.
  - intros a x. rewrite !grants_cons, H3, Hc, Ha. tauto.
Qed.

Lemma unmapped_refl l addr end_ :
  sorted l -> (forall v a, v ∈ l -> contains v a -> ~ (addr <= a < end_)) -> unmapped l addr end_ l.
Proof.
  intros Hs Hd. constructor; [done|apply inside_refl|]. intros a x. split; [|tauto].
  intros (v & Hv & Hc & E). split; [by exists v|]. by apply (Hd v).
Qed.

Lemma munmap_vmas_list l addr end_ s :
  sorted l -> addr < end_ -> kok s = [] ->
  unmapped l addr end_ (munmap_vmas l addr end_ s).1 /\ kok (munmap_vmas l addr end_ s).2 = [].
Proof.
  intros Hs Hae. revert s. induction l as [|v l IH]; intros s Hk.
  { split; [|done]. apply unmapped_refl; [done|]. by intros v a ?%elem_of_nil. }
  pose proof Hs as (Hv & Hb & Hs')%sorted_cons. specialize (IH Hs'). unfold vma_ok in Hv. simpl.
  destruct (Z.leb_spec (vm_end v) addr).
  { destruct (IH s Hk) as [Hu Hk']. destruct (munmap_vmas l addr end_ s) as [l' s']. simpl in *.
    split; [|done]. apply unmapped_keep; [done|done|]. unfold contains. lia. }
  destruct (Z.leb_spec end_ (vm_start v)).
  { split; [|done]. apply unmapped_refl; [done|]. intros w a Hw. unfold contains.
    apply elem_of_cons in Hw as [->|Hw]; [lia|].
    eapply Forall_forall in Hb; [|exact Hw]. unfold before in Hb. lia. }
  set (u_start := if vm_start v <? addr then addr else vm_start v).
  set (u_end := if end_ <? vm_end v then end_ else vm_end v).
  assert (vm_start v <= u_start <= vm_end v /\ vm_start v <= u_end <= vm_end v /\
    (u_start = addr \/ u_start = vm_start v /\ addr <= vm_start v) /\
    (u_end = end_ \/ u_end = vm_end v /\ vm_end v <= end_)) as (? & ? & Hus & Hue)
    by (unfold u_start, u_end; bools; lia).
  set (s1 := unmap_range u_start u_end s).
  assert (kok s1 = []) as Hk1 by (unfold s1, unmap_range; by rewrite kok_unmap_n).
  destruct ((u_start <=? vm_start v) && (vm_end v <=? u_end)) eqn:E1.
  { apply andb_true_iff in E1. destruct (IH (file_ref (-1) (vm_file v) s1)) as [Hu Hk'].
    { by rewrite kok_file_ref. }
    split; [|done]. apply unmapped_drop; [done|]. unfold contains. lia. }
  destruct ((vm_start v <? u_start) && (u_end <? vm_end v)) eqn:E2.
  - apply andb_true_iff in E2. unfold kmalloc. rewrite Hk1.
    rewrite munmap_vmas_past; [|done|done|].
    2: { intros w Hw. eapply Forall_forall in Hb; [|exact Hw]. unfold before in Hb. lia. }
    cbn [fst snd]. rewrite kok_file_ref. split; [|done].
    set (right := with_end (vm_end v) (with_start u_end (with_end u_start v))).
    assert (vma_insert l right = right :: l) as ->.
    { destruct l as [|w l]; [done|]. simpl. apply Forall_cons in Hb as [Hb _]. unfold before in Hb.
      destruct (Z.ltb_spec u_end (vm_start w)); [done|]. lia. }
    assert (unmapped l addr end_ l) as Hul.
    { apply unmapped_refl; [done|]. intros w a Hw. eapply Forall_forall in Hb; [|exact Hw].
      unfold before, contains in *. lia. }
    assert (sorted (right :: l)) as Hsr
      by (eapply sorted_piece; [exact Hs|done|apply inside_refl|unfold vma_ok; simpl; lia|simpl; lia]).
    constructor.
    + apply sorted_cons. split; [unfold vma_ok; simpl; lia|]. split; [|done].
      constructor; [unfold before; simpl; lia|]. eapply Forall_impl; [exact Hb|]. unfold before. simpl. lia.
    + intros w [->|[->|Hw]%elem_of_cons]%elem_of_cons.
      * exists v. rewrite elem_of_cons. simpl. split; [auto|lia].
      * exists v. rewrite elem_of_cons. simpl. split; [auto|lia].
      * exists w. rewrite elem_of_cons. split; [auto|lia].
    + intros a x. rewrite !grants_cons, (um_grants _ _ _ _ Hul). unfold contains. simpl.
      assert (vm_start v <= a < vm_end v /\ ~ (addr <= a < end_) <->
        vm_start v <= a < u_start \/ u_end <= a < vm_end v) as Hsplit by lia.
      tauto.
  - apply andb_false_iff in E1, E2. destruct (Z.ltb_spec (vm_start v) u_start).
    + destruct (IH s1 Hk1) as [Hu Hk']. destruct (munmap_vmas l addr end_ s1) as [l' s']. simpl in *.
      split; [|done]. apply (unmapped_piece v (with_end u_start v)); try done; simpl; try lia.
      { unfold vma_ok. simpl. lia. } { unfold contains. simpl. lia. }
    + destruct (IH s1 Hk1) as [Hu Hk']. destruct (munmap_vmas l addr end_ s1) as [l' s']. simpl in *.
      split; [|done]. apply (unmapped_piece v (with_start u_end v)); try done; simpl; try lia.
      { unfold vma_ok. simpl. lia. } { unfold contains. simpl. lia. }
Qed.

(** ** The page table under munmap *)

(** A present leaf entry is cleared, one that is not is left. *)
Definition clear (e : Z) : Z := if has e (Z.lor PAGE_VALID PAGE_PROTNONE) then 0 else e.
Definition page_of (va : Z) : Z := va / PAGE_4K_SIZE * PAGE_4K_SIZE.
Definition pte (s : sys) (va : Z) : Z := pt_val pt_get (pt s) va.

Lemma clear_clear e : clear (clear e) = clear e.
Proof. unfold clear. destruct (has e _) eqn:E; [done|by rewrite E]. Qed.

(** [s'] is [s] with the leaf entries of the pages in [S] cleared. *)
Definition cleared (S : Z -> bool) (s s' : sys) : Prop :=
  pt_inv (pt s') /\ forall va, user_va va -> pte s' va = if S (page_of va) then clear (pte s va) else pte s va.

Lemma cleared_trans S1 S2 s1 s2 s3 :
  cleared S1 s1 s2 -> cleared S2 s2 s3 -> cleared (fun a => S1 a || S2 a) s1 s3.
Proof.
  intros [_ H1] [H2 H3]. split; [done|]. intros va Hva. rewrite H3, H1 by done.
  destruct (S1 (page_of va)), (S2 (page_of va)); simpl; by rewrite ?clear_clear.
Qed.

Lemma cleared_ext S1 S2 s s' : (forall va, user_va va -> S1 (page_of va) = S2 (page_of va)) -> cleared S1 s s' -> cleared S2 s s'.
Proof. intros He [H1 H2]. split; [done|]. intros va Hva. by rewrite <- He, H2. Qed.

Lemma pt_unmap_page va s :
  pt (unmap_page va s) =
    match pt_get (pt s) va with
    | Some e => if has e (Z.lor PAGE_VALID PAGE_PROTNONE) then pt_set (pt s) va 0 else pt s
    | None => pt s
    end.
Proof.
  unfold unmap_page, cow_put, free_page. destruct (pt_get (pt s) va) as [e|]; [|done].
  destruct (has e (Z.lor 1 512)); [|done]. simpl. destruct (has e 1024); [|done].
  by destruct (Subpage.page_cow_put _ _) as [[] ?].
Qed.

Lemma unmap_page_cleared va s :
  pt_inv (pt s) -> user_va va -> cleared (fun a => a =? page_of va) s (unmap_page va s).
Proof.
  intros Hi Hva. unfold cleared, pte. rewrite pt_unmap_page.
  assert (forall va', user_va va' -> va' / 4096 = va / 4096 -> pt_get (pt s) va' = pt_get (pt s) va) as Hpage
    by (intros; by apply pt_get_page).
  assert (forall va', (page_of va' =? page_of va) = (va' / 4096 =? va / 4096)) as Hp
    by (intros; unfold page_of; bools; done || lia).
  destruct (pt_get (pt s) va) as [e|] eqn:E.
  - destruct (has e (Z.lor 1 512)) eqn:Hh.
    + destruct (pt_set_spec (pt s) va 0 e Hi Hva E) as [Hi' Hv].
      split; [done|]. intros va' Hva'. rewrite Hv, Hp by done.
      destruct (Z.eqb_spec (va' / 4096) (va / 4096)) as [He|]; [|done].
      unfold pt_val, clear. rewrite (Hpage va' Hva' He). simpl. by rewrite Hh.
    + split; [done|]. intros va' Hva'. rewrite Hp. destruct (Z.eqb_spec (va' / 4096) (va / 4096)) as [He|]; [|done].
      unfold pt_val, clear. rewrite (Hpage va' Hva' He). simpl. by rewrite Hh.
  - split; [done|]. intros va' Hva'. rewrite Hp. destruct (Z.eqb_spec (va' / 4096) (va / 4096)) as [He|]; [|done].
    unfold pt_val. by rewrite (Hpage va' Hva' He).
Qed.

Lemma unmap_n_cleared n va s :
  pt_inv (pt s) -> 0 <= va -> va mod PAGE_4K_SIZE = 0 -> va + Z.of_nat n * PAGE_4K_SIZE <= USER_TOP ->
  cleared (fun a => (va <=? a) && (a <? va + Z.of_nat n * PAGE_4K_SIZE)) s (unmap_n n va s).
Proof.
  revert va s. induction n as [|n IH]; intros va s Hi H0 Hm Ht.
  { split; [done|]. intros va' _. bools; done || lia. }
  cbn [unmap_n]. pose proof (unmap_page_cleared va s Hi ltac:(unfold user_va; lia)) as Hc.
  pose proof (IH (va + 4096) (unmap_page va s) (proj1 Hc) ltac:(lia) ltac:(dlia) ltac:(lia)) as Hc'.
  eapply cleared_ext; [|exact (cleared_trans _ _ _ _ _ Hc Hc')].
  intros va' _. simpl. assert (page_of va = va) as -> by (unfold page_of; dlia).
  assert (page_of va' mod 4096 = 0) by (unfold page_of; rewrite Z.mod_mul; lia).
  set (pg := page_of va') in *. bools; try done; dlia.
Qed.

Lemma unmap_range_cleared a b s :
  pt_inv (pt s) -> 0 <= a <= b -> a mod PAGE_4K_SIZE = 0 -> b <= USER_TOP ->
  cleared (fun x => (a <=? x) && (x <? b)) s (unmap_range a b s).
Proof.
  intros Hi Hab Hm Hb. unfold unmap_range, pages.
  eapply cleared_ext; [|apply unmap_n_cleared; try done; try dlia].
  intros va _. simpl. assert (page_of va mod 4096 = 0) by (unfold page_of; rewrite Z.mod_mul; lia).
  set (pg := page_of va) in *. rewrite Z2Nat.id by dlia. bools; try done; dlia.
Qed.

Definition covb (l : list vma_t) (a : Z) : bool :=
  existsb (fun v => (vm_start v <=? a) && (a <? vm_end v)) l.
Definition in_user (v : vma_t) : Prop := vm_start v mod PAGE_4K_SIZE = 0 /\ vm_end v <= USER_TOP.

Lemma pt_file_ref d f s : pt (file_ref d f s) = pt s.
Proof. by destruct f. Qed.
Lemma pt_kmalloc s : pt (kmalloc s).2 = pt s.
Proof. unfold kmalloc. by destruct (kok s). Qed.

(** Steps of the walk that leave the page table alone. *)
Lemma cleared_pt S s s1 s2 s' : pt s1 = pt s -> pt s2 = pt s' -> cleared S s1 s2 -> cleared S s s'.
Proof. unfold cleared, pte. intros E1 E2. by rewrite E1, E2. Qed.

Lemma munmap_vmas_cleared l addr end_ s :
  sorted l -> Forall in_user l -> pt_inv (pt s) -> addr mod PAGE_4K_SIZE = 0 -> addr < end_ ->
  cleared (fun a => (addr <=? a) && (a <? end_) && covb l a) s (munmap_vmas l addr end_ s).2.
Proof.
  intros Hs Hu Hi Hal Hae. revert s Hi. induction l as [|v l IH]; intros s Hi.
  { split; [done|]. intros va _. simpl. by rewrite andb_false_r. }
  pose proof Hs as (Hv & Hb & Hs')%sorted_cons. apply Forall_cons in Hu as [[Hvm Hvt] Hu].
  specialize (IH Hs' Hu). unfold vma_ok in Hv.
  assert (forall a, covb (v :: l) a = (vm_start v <=? a) && (a <? vm_end v) || covb l a) as Hcov by done.
  cbn [munmap_vmas]. destruct (Z.leb_spec (vm_end v) addr).
  { specialize (IH s Hi). destruct (munmap_vmas l addr end_ s) as [l' s']. simpl in *.
    eapply cleared_ext; [|exact IH]. intros va _. simpl. bools; try done; lia. }
  destruct (Z.leb_spec end_ (vm_start v)).
  { split; [done|]. intros va _. cbn [snd].
    destruct ((addr <=? page_of va) && (page_of va <? end_) && covb (v :: l) (page_of va)) eqn:E; [|done].
    apply andb_true_iff in E as [E (w & Hw & Hc)%existsb_exists]. apply andb_true_iff in E, Hc.
    apply list_elem_of_In in Hw. apply elem_of_cons in Hw as [->|Hw]; [lia|].
    eapply Forall_forall in Hb; [|exact Hw]. unfold before in Hb. lia. }
  set (u_start := if vm_start v <? addr then addr else vm_start v).
  set (u_end := if end_ <? vm_end v then end_ else vm_end v).
  assert (u_start mod PAGE_4K_SIZE = 0 /\ 0 <= u_start <= u_end /\ u_end <= USER_TOP) as (Hum & ? & ?)
    by (unfold u_start, u_end; bools; lia).
  set (s1 := unmap_range u_start u_end s).
  pose proof (unmap_range_cleared u_start u_end s Hi ltac:(lia) Hum ltac:(lia)) as Hc1. fold s1 in Hc1.
  assert (forall s2, pt s2 = pt s1 -> cleared (fun a => (addr <=? a) && (a <? end_) && covb l a) s1
    (munmap_vmas l addr end_ s2).2) as Hrec.
  { intros s2 E2. eapply (cleared_pt _ _ s2); [done|done|]. apply IH. rewrite E2. apply Hc1. }
  assert (forall s3, cleared (fun a => (addr <=? a) && (a <? end_) && covb l a) s1 s3 ->
    cleared (fun a => (addr <=? a) && (a <? end_) && covb (v :: l) a) s s3) as Hjoin.
  { intros s3 H3. eapply cleared_ext; [|exact (cleared_trans _ _ _ _ _ Hc1 H3)].
    intros va _. simpl. unfold u_start, u_end. destruct (covb l (page_of va)); bools; try done; lia. }
  destruct ((u_start <=? vm_start v) && (vm_end v <=? u_end)).
  { apply Hjoin, Hrec. by rewrite pt_file_ref. }
  destruct ((vm_start v <? u_start) && (u_end <? vm_end v)).
  - destruct (kmalloc s1) as [ok s2] eqn:Ek. assert (pt s2 = pt s1) as E2.
    { pose proof (pt_kmalloc s1) as Hk. by rewrite Ek in Hk. }
    destruct ok.
    + pose proof (Hrec (file_ref 1 (vm_file (with_end (vm_end v) (with_start u_end (with_end u_start v)))) s2)
        ltac:(by rewrite pt_file_ref)) as Hr.
      destruct (munmap_vmas l addr end_ _) as [l' s']. by apply Hjoin.
    + specialize (Hrec s2 E2). destruct (munmap_vmas l addr end_ s2) as [l' s']. by apply Hjoin.
  - specialize (Hrec s1 eq_refl).
    destruct (vm_start v <? u_start); destruct (munmap_vmas l addr end_ s1) as [l' s']; by apply Hjoin.
Qed.

(** What [page_align] does when the sum does not wrap. *)
Lemma page_align_spec x : 0 <= x <= U64 - 4096 -> page_align x = align_up x PAGE_4K_SIZE.
Proof.
  intros Hx. unfold page_align.
  assert (x +u 4096 -u 1 = x + (2 ^ 12 - 1)) as -> by (unfold wrap64; dlia).
  change 4095 with (2 ^ 12 - 1). rewrite land_not_mask by lia. change (2 ^ 12) with 4096.
  unfold align_up. dlia.
Qed.

(** C29: munmap rounds the address up to a page, and the length likewise; this
    concerns the range [a, b) that results.  A range that touches a reserved
    window is refused with [-EINVAL] and nothing changes.  Otherwise exactly the
    range is removed.  The VMA list stays sorted and non-overlapping, an address
    of the range is no longer mapped and every other address keeps its
    protection, flags and file; every page of the range that a VMA covered has
    no present entry left, and no other page's entry changes.  This is for
    ranges that end below the top of user space, and when the [kmalloc] of a
    split succeeds. *)
Theorem do_munmap_correct addr length s :
  let a := align_up addr PAGE_4K_SIZE in
  let b := a + align_up length PAGE_4K_SIZE in
  sorted (vma_list s) -> Forall in_user (vma_list s) -> pt_inv (pt s) -> kok s = [] ->
  0 <= addr -> 0 < length -> b <= USER_TOP ->
  if mm_user_range_protected (start_brk s) a b then do_munmap addr length s = (- EINVAL, s)
  else exists s', do_munmap addr length s = (0, s') /\
    sorted (vma_list s') /\
    (forall x g, grants (vma_list s') x g <-> grants (vma_list s) x g /\ ~ (a <= x < b)) /\
    pt_inv (pt s') /\
    forall va, user_va va -> pte s' va =
      if (a <=? page_of va) && (page_of va <? b) && covb (vma_list s) (page_of va)
      then clear (pte s va) else pte s va.
Proof.
  intros a b Hs Hu Hi Hk Ha Hl Hb.
  pose proof (align_up_bounds addr 4096 ltac:(lia)). pose proof (align_up_bounds length 4096 ltac:(lia)).
  pose proof (align_up_mod addr 4096 ltac:(lia)).
  unfold do_munmap, do_munmap_locked. rewrite !page_align_spec by lia. fold a.
  destruct (Z.eqb_spec (align_up length 4096) 0); [lia|].
  rewrite (wrap64_small (a + _)) by lia. fold b. destruct (mm_user_range_protected _ a b); [done|].
  destruct (munmap_vmas_list (vma_list s) a b s Hs ltac:(lia) Hk) as [[U1 U2 U3] _].
  destruct (munmap_vmas_cleared (vma_list s) a b s Hs Hu Hi ltac:(done) ltac:(lia)) as [U4 U5].
  destruct (munmap_vmas (vma_list s) a b s) as [l s1]. eexists. split; [done|]. simpl in *. done.
Qed.

(** * mmap *)

(** The lowest address the next gap may start at. *)
Definition gap_floor (prev : option vma_t) (search : Z) : Z :=
  Z.max search (match prev with Some p => vm_end p | None => search end).

(** The candidate [do_mmap] derives from the gap search. *)
Definition candidate (l : list vma_t) (prev : option vma_t) (search length : Z) : Z :=
  let '(a, prev) := find_gap l prev search length in
  let a := if a =? 0 then match prev with Some p => vm_end p | None => search end else a in
  if a <? search then search else a.

(** [a, a + length) lies between VMAs. *)
Definition fits (l : list vma_t) (a length : Z) : Prop :=
  forall v, v ∈ l -> vm_end v <= a \/ a + length <= vm_start v.

Lemma candidate_fits l prev pre search length :
  sorted l -> Forall (fun v => vm_end v <= USER_TOP) l -> 0 < search <= USER_TOP ->
  0 < length <= U64 - 2 * USER_TOP -> gap_floor prev search <= USER_TOP ->
  (forall v, v ∈ pre -> vm_end v <= gap_floor prev search) ->
  (forall v w, v ∈ pre -> w ∈ l -> vm_end v <= vm_start w) ->
  search <= candidate l prev search length <= USER_TOP /\
  fits (pre ++ l) (candidate l prev search length) length /\
  (candidate l prev search length = search \/
   exists v, (prev = Some v \/ v ∈ l) /\ candidate l prev search length = vm_end v).
Proof.
  intros Hs Htop Hse Hlen. revert prev pre. induction l as [|v l IH]; intros prev pre Hg Hpre Hpl.
  - unfold candidate, find_gap, gap_floor in *. simpl. rewrite app_nil_r.
    assert ((if match prev with Some p => vm_end p | None => search end <? search then search
      else match prev with Some p => vm_end p | None => search end) =
      Z.max search match prev with Some p => vm_end p | None => search end) as -> by (bools; lia).
    split; [lia|]. split; [intros v Hv; left; by apply Hpre|].
    destruct prev as [p|]; [|left; lia].
    destruct (Z.le_ge_cases (vm_end p) search); [left; lia|right; exists p; split; [auto|lia]].
  - pose proof Hs as (Hv & Hb & Hs')%sorted_cons. apply Forall_cons in Htop as [Htv Htop].
    unfold candidate. cbn [find_gap].
    assert ((if match prev with Some p => vm_end p | None => search end <? search then search
      else match prev with Some p => vm_end p | None => search end) = gap_floor prev search) as ->
      by (unfold gap_floor; bools; lia).
    assert (search <= gap_floor prev search) by (unfold gap_floor; lia).
    rewrite wrap64_small by lia.
    destruct (Z.leb_spec (gap_floor prev search + length) (vm_start v)).
    + destruct (Z.eqb_spec (gap_floor prev search) 0); [lia|].
      destruct (Z.ltb_spec (gap_floor prev search) search); [lia|]. split; [lia|]. split.
      * intros w [Hw|[->|Hw]%elem_of_cons]%elem_of_app; [left; by apply Hpre|right; lia|right].
        eapply Forall_forall in Hb; [|exact Hw]. unfold before, vma_ok in *. lia.
      * unfold gap_floor in *. destruct prev as [p|]; [|left; lia].
        destruct (Z.le_ge_cases (vm_end p) search); [left; lia|right; exists p; split; [auto|lia]].
    + destruct (IH Hs' Htop (Some v) (pre ++ [v])) as (I1 & I2 & I3).
      * unfold gap_floor. lia.
      * intros w [Hw|Hw%list_elem_of_singleton]%elem_of_app; unfold gap_floor; [|subst; lia].
        specialize (Hpl w v Hw ltac:(apply elem_of_cons; auto)). unfold vma_ok in Hv. lia.
      * intros w x [Hw|Hw%list_elem_of_singleton]%elem_of_app Hx.
        -- apply Hpl; [done|apply elem_of_cons; auto].
        -- subst w. by eapply Forall_forall in Hb.
      * unfold candidate in I1, I2, I3. split; [done|]. split; [by rewrite <- app_assoc in I2|].
        destruct I3 as [?|(w & [[= ->]|Hw] & E)]; [auto| |]; right; exists w || exists v;
          rewrite elem_of_cons; auto.
Qed.

(** No lower address has room. *)
Lemma candidate_lowest l prev search length x :
  sorted l -> Forall (fun v => vm_end v <= USER_TOP) l -> 0 < search -> 0 < length <= U64 - 2 * USER_TOP ->
  gap_floor prev search <= USER_TOP -> gap_floor prev search <= x < candidate l prev search length -> ~ fits l x length.
Proof.
  intros Hs Htop Hse Hlen. revert prev. induction l as [|v l IH]; intros prev Hg Hx Hf.
  - unfold candidate, find_gap, gap_floor in *. simpl in Hx. revert Hx. bools; lia.
  - pose proof Hs as (Hv & Hb & Hs')%sorted_cons. apply Forall_cons in Htop as [Htv Htop].
    unfold candidate in Hx. cbn [find_gap] in Hx.
    assert ((if match prev with Some p => vm_end p | None => search end <? search then search
      else match prev with Some p => vm_end p | None => search end) = gap_floor prev search) as Eg
      by (unfold gap_floor; bools; lia).
    rewrite Eg in Hx. assert (search <= gap_floor prev search) by (unfold gap_floor; lia). rewrite wrap64_small in Hx by lia.
    destruct (Z.leb_spec (gap_floor prev search + length) (vm_start v)).
    + revert Hx. destruct (Z.eqb_spec (gap_floor prev search) 0), (Z.ltb_spec (gap_floor prev search) search); lia.
    + destruct (Hf v ltac:(left)) as [Hle|?]; [|lia]. apply (IH Hs' Htop (Some v)).
      * unfold gap_floor. lia.
      * unfold gap_floor in *. split; [lia|]. apply Hx.
      * intros w Hw. apply Hf. by right.
Qed.

(** An interval above the reserved windows is not protected. *)
Lemma not_protected sb a b :
  sb <= HEAP_LIMIT -> USER_STACK_BASE + 2097152 <= a -> mm_user_range_protected sb a b = false.
Proof. intros. unfold mm_user_range_protected. bools; done || lia. Qed.

(** C28: an anonymous mmap without MAP_FIXED of one to 2^64 - 2^48 bytes, with a
    valid protection and a hint that is 0 or in user space, on an address space
    whose VMAs are sorted and page-aligned from [mmap_base] on.  It returns the
    start of a new mapping of the rounded-up length at the lowest
    address, from [mmap_base] on, where the mapping lies outside every existing
    VMA; this is below the address limit.  The list stays sorted, every address
    outside the new mapping keeps what it had, and the new addresses get the
    requested protection.  Otherwise it fails with [-ENOMEM] and leaves the
    address space as it was, either because no place from [mmap_base] to the
    limit is large enough or because the [kmalloc] of the VMA fails.  (Longer
    requests wrap around, see [do_mmap_length_wraps].) *)
Theorem do_mmap_anonymous_correct fds dev_mmap addr length prot flags s page_prot vflags :
  sorted (vma_list s) -> Forall in_user (vma_list s) ->
  Forall (fun v => mmap_base s <= vm_end v -> vm_end v mod PAGE_4K_SIZE = 0) (vma_list s) ->
  start_brk s <= HEAP_LIMIT -> USER_STACK_BASE + 2097152 <= mmap_base s <= USER_TOP ->
  mmap_base s mod PAGE_4K_SIZE = 0 -> addr_limit s <= USER_TOP ->
  addr = 0 \/ USER_MIN_ADDR <= addr <= USER_TOP -> 0 < length <= U64 - 2 * USER_TOP -> is_u64 flags ->
  has flags MAP_ANONYMOUS = true -> has flags MAP_FIXED = false ->
  prot_to_page_flags prot = inr (page_prot, vflags) ->
  let len := align_up length PAGE_4K_SIZE in
  let '(r, s') := do_mmap fds dev_mmap addr length prot flags UINT64_MAX 0 s in
  (r = - ENOMEM /\ s' = s /\
     forall x, mmap_base s <= x -> x + len <= addr_limit s -> ~ fits (vma_list s) x len) \/
  (r = - ENOMEM /\ head (kok s) = Some false /\ s' = set_kok (tail (kok s)) s) \/
  (mmap_base s <= r /\ r mod PAGE_4K_SIZE = 0 /\ r + len <= addr_limit s /\ fits (vma_list s) r len /\
    (forall x, mmap_base s <= x < r -> ~ fits (vma_list s) x len) /\
    sorted (vma_list s') /\
    forall x g, grants (vma_list s') x g <->
      grants (vma_list s) x g \/
      (r <= x < r + len /\ g = (map_flags_to_vm (wrap32 flags) vflags, page_prot, None))).
Proof.
  intros Hs Hu Hal Hsb Hmb Hmbm Hlim Haddr Hlen Hfl Han Hfx Hprot. cbv zeta.
  set (len := align_up length 4096).
  pose proof (align_up_bounds length 4096 ltac:(lia)) as Hlb. fold len in Hlb.
  pose proof (align_up_mod length 4096 ltac:(lia)) as Hlm. fold len in Hlm.
  assert (len <= U64 - 2 * USER_TOP) by (unfold len, align_up; dlia).
  assert (Forall (fun v => vm_end v <= USER_TOP) (vma_list s)) as Htop by (eapply Forall_impl; [exact Hu|]; by intros v [_ ?]).
  pose proof (fun x => candidate_lowest (vma_list s) None (mmap_base s) len x Hs Htop ltac:(lia) ltac:(lia)
    ltac:(unfold gap_floor; lia)) as Hlow.
  unfold gap_floor in Hlow. rewrite Z.max_id in Hlow.
  destruct (candidate_fits (vma_list s) None [] (mmap_base s) len) as (C1 & C2 & C3); try done; try lia.
  { unfold gap_floor. lia. } { by intros v ?%elem_of_nil. } { by intros v w ?%elem_of_nil. }
  simpl in C2. set (r := candidate (vma_list s) None (mmap_base s) len) in *.
  assert (r mod 4096 = 0) as Hrm.
  { destruct C3 as [->|(v & [?|Hv] & E)]; [done|done|]. rewrite E.
    eapply Forall_forall in Hal; [|exact Hv]. apply Hal. lia. }
  unfold do_mmap. destruct (Z.eqb_spec length 0); [lia|].
  assert (negb (addr =? 0) && (addr <? 4194304) = false) as -> by (bools; done || lia).
  rewrite (wrap64_small (addr + length)), (page_align_spec (addr + length)) by lia.
  pose proof (align_up_bounds (addr + length) 4096 ltac:(lia)).
  destruct (Z.ltb_spec (align_up (addr + length) 4096) addr); [lia|].
  change (Z.land 0 4095) with 0. rewrite Z.eqb_refl. cbn [negb]. rewrite Han, Hfx.
  change (sint64 UINT64_MAX =? -1) with true. cbn [negb andb].
  rewrite (page_align_spec length) by lia. fold len. destruct (Z.eqb_spec len 0); [lia|].
  assert (r = candidate (vma_list s) None (mmap_base s) len) as Hr by done.
  unfold candidate in Hr. clearbody r.
  destruct (find_gap (vma_list s) None (mmap_base s) len) as [a0 p0]. rewrite <- Hr.
  rewrite not_protected by lia. rewrite (wrap64_small (r + len)) by lia.
  destruct (Z.ltb_spec (addr_limit s) (r + len)).
  { left. split_and!; [done..|]. intros x Hx1 Hx2. apply Hlow. lia. }
  destruct (Z.leb_spec (addr_limit s) r); [lia|]. rewrite Hprot.
  cbn [file_ref mbind option_bind]. destruct (kmalloc s) as [ok s1] eqn:Ek.
  assert (vma_list s1 = vma_list s /\ (ok = false -> head (kok s) = Some false /\ s1 = set_kok (tail (kok s)) s)) as [El Ekf].
  { unfold kmalloc in Ek. destruct (kok s) as [|k ks]; injection Ek as <- <-; split; try done. simpl. by intros ->. }
  destruct ok; cbn [negb]; right; [right; rewrite El; clear Ekf|left; by destruct (Ekf eq_refl)].
  set (v := mk_vma _ _ _ _ _ _).
  assert (vma_ok v /\ vm_start v < vm_end v) as [Hv1 Hv2] by (unfold vma_ok, v; simpl; lia).
  split_and!; try done; try lia.
  - by apply vma_insert_sorted.
  - intros x g. unfold grants, set_vmas. cbn [vma_list]. split.
    + intros (w & [->|Hw]%elem_of_vma_insert & Hc & E); [right|left; eauto]. split; [exact Hc|by rewrite <- E].
    + intros [(w & Hw & Hc & E)|[Hc ->]]; [exists w|exists v]; rewrite elem_of_vma_insert; auto.
Qed.

(** * mprotect *)

(** The pre-scan succeeds exactly when the range is covered by VMAs none of
    which is an I/O mapping. *)
Definition covered (l : list vma_t) (a b : Z) : Prop :=
  forall x, a <= x < b -> exists v, v ∈ l /\ contains v x /\ has (vm_flags v) VMA_IO = false.

Lemma prescan_spec l a b :
  sorted l -> a < b ->
  match prescan l a b with
  | inl rc => (rc = - ENOMEM \/ rc = - EPERM) /\ ~ covered l a b
  | inr k => if k <? b then ~ covered l a b else covered l a b
  end.
Proof.
  unfold covered, contains. intros Hs. revert a. induction l as [|v l IH]; intros a Hab; simpl.
  { destruct (Z.ltb_spec a b); [|lia]. intros Hc. destruct (Hc a ltac:(lia)) as (v & ?%elem_of_nil & _). done. }
  apply sorted_cons in Hs as (Hv & Hb & Hs). unfold vma_ok in Hv.
  assert (forall w, w ∈ l -> vm_end v <= vm_start w) as Hb' by (by rewrite Forall_forall in Hb).
  (* uncovered at [x]: no VMA of the list contains it *)
  assert (forall x, a <= x < b -> (forall w, w ∈ v :: l -> ~ (contains w x /\ has (vm_flags w) VMA_IO = false)) ->
    ~ covered (v :: l) a b) as Hunc.
  { intros x Hx Hn Hc. destruct (Hc x Hx) as (w & Hw & ? & ?). by apply (Hn w Hw). }
  unfold covered, contains in Hunc.
  destruct (Z.leb_spec (vm_end v) a).
  { specialize (IH Hs a Hab).
    assert ((forall x, a <= x < b -> exists w, w ∈ l /\ vm_start w <= x < vm_end w /\ has (vm_flags w) VMA_IO = false) <->
      (forall x, a <= x < b -> exists w, w ∈ v :: l /\ vm_start w <= x < vm_end w /\ has (vm_flags w) VMA_IO = false)) as He.
    { split; intros Hc x Hx; destruct (Hc x Hx) as (w & Hw & Hr & ?); exists w; [rewrite elem_of_cons; auto|].
      apply elem_of_cons in Hw as [->|Hw]; [lia|auto]. }
    destruct (prescan l a b) as [rc|k]; [destruct IH; split; [done|]|destruct (k <? b)]; by rewrite <- He. }
  destruct (Z.leb_spec b (vm_start v)).
  { destruct (Z.ltb_spec a b); [|lia]. apply (Hunc a); [lia|]. intros w [->|Hw]%elem_of_cons; [lia|].
    specialize (Hb' w Hw). lia. }
  destruct (Z.ltb_spec a (vm_start v)).
  { split; [auto|]. apply (Hunc a); [lia|]. intros w [->|Hw]%elem_of_cons; [lia|]. specialize (Hb' w Hw). lia. }
  destruct (has (vm_flags v) 128) eqn:Hio.
  { split; [auto|]. apply (Hunc a); [lia|].
    intros w [->|Hw]%elem_of_cons; [intros [_ ?]; congruence|]. specialize (Hb' w Hw). lia. }
  destruct (Z.leb_spec b (vm_end v)).
  { destruct (Z.ltb_spec (vm_end v) b); [lia|]. intros x Hx. exists v. rewrite elem_of_cons. split; [auto|]. split; [lia|done]. }
  specialize (IH Hs (vm_end v) ltac:(lia)).
  assert ((forall x, vm_end v <= x < b -> exists w, w ∈ l /\ vm_start w <= x < vm_end w /\ has (vm_flags w) VMA_IO = false) <->
    (forall x, a <= x < b -> exists w, w ∈ v :: l /\ vm_start w <= x < vm_end w /\ has (vm_flags w) VMA_IO = false)) as He.
  { split; intros Hc x Hx.
    - destruct (Z.lt_ge_cases x (vm_end v)); [exists v; rewrite elem_of_cons; split; [auto|]; split; [lia|done]|].
      destruct (Hc x ltac:(lia)) as (w & Hw & ?). exists w. rewrite elem_of_cons. auto.
    - destruct (Hc x ltac:(lia)) as (w & [->|Hw]%elem_of_cons & Hr & ?); [lia|eauto]. }
  destruct (prescan l (vm_end v) b) as [rc|k]; [destruct IH; split; [done|]|destruct (k <? b)]; by rewrite <- He.
Qed.

Section mprotect_loop.
Context (prot npp nvf : Z).

(** The VMAs the loop rewrites, and how. *)
Definition touches (a b : Z) (v : vma_t) : bool :=
  (vm_start v <? b) && (a <? vm_end v) && (vm_start v <? vm_end v).
Definition reprotect (v : vma_t) : vma_t := with_prot (Z.lor (vm_flags v &~ 7) nvf) npp v.

Lemma mprotect_vmas_list l a b d s k :
  sorted l -> a < b -> prescan l a b = inr k -> b <= k ->
  (mprotect_vmas l prot npp nvf a b d s).1.1.1 = (fun v => if touches a b v then reprotect v else v) <$> l /\
  (mprotect_vmas l prot npp nvf a b d s).1.1.2 = k.
Proof.
  intros Hs. revert a d s. induction l as [|v l IH]; intros a d s Hab Hk Hbk; [by simplify_eq/=|].
  rewrite fmap_cons. cbn [mprotect_vmas prescan] in *.
  apply sorted_cons in Hs as (Hv & Hb & Hs). specialize (IH Hs). unfold vma_ok in Hv.
  assert (forall w, w ∈ l -> vm_end v <= vm_start w) as Hb' by (by rewrite Forall_forall in Hb).
  unfold touches at 1. destruct (Z.leb_spec (vm_end v) a).
  { destruct (IH a d s Hab Hk Hbk) as [I1 I2].
    destruct (mprotect_vmas l prot npp nvf a b d s) as [[[l' a'] d'] s']. simpl in *. rewrite I1. split; [|done].
    f_equal. bools; done || lia. }
  destruct (Z.leb_spec b (vm_start v)); [simplify_eq; lia|].
  destruct (Z.ltb_spec a (vm_start v)); [done|]. destruct (has (vm_flags v) 128); [done|].
  destruct (mprotect_n _ prot npp _ d s) as [d1 s1].
  destruct (Z.leb_spec b (vm_end v)).
  - injection Hk as <-. cbn [fst snd]. split; [|done].
    assert ((fun v => if touches a b v then reprotect v else v) <$> l = l) as ->.
    { rewrite <- (list_fmap_id l) at 2. apply list_fmap_ext. intros i w Hw. apply list_elem_of_lookup_2 in Hw.
      specialize (Hb' w Hw). unfold touches. destruct (Z.ltb_spec (vm_start w) b); [lia|done]. }
    f_equal. bools; done || lia.
  - destruct (IH (vm_end v) d1 s1 ltac:(lia) Hk Hbk) as [I1 I2].
    destruct (mprotect_vmas l prot npp nvf (vm_end v) b d1 s1) as [[[l' a'] d'] s']. simpl in *.
    split; [|done]. rewrite I1. f_equal; [bools; done || lia|].
    apply list_fmap_ext. intros i w Hw. apply list_elem_of_lookup_2 in Hw. specialize (Hb' w Hw).
    unfold touches. bools; done || lia.
Qed.

(** The new leaf entry of a page that is not shared copy-on-write. *)
Definition newpte (e : Z) : Z :=
  if has e (Z.lor PAGE_VALID PAGE_PROTNONE) then
    if prot =? PROT_NONE then Z.lor (Z.lor (e &~ 4095) PAGE_USER) PAGE_PROTNONE
    else Z.lor (e &~ 4095) npp
  else e.

(** [s'] is [s] with the entries of the pages in [S] re-protected; what
    happens to a copy-on-write page is left open. *)
Definition reprotected (S : Z -> bool) (s s' : sys) : Prop :=
  pt_inv (pt s') /\ forall va, user_va va ->
    if S (page_of va) then has (pte s va) PAGE_COW = false -> pte s' va = newpte (pte s va)
    else pte s' va = pte s va.

Lemma reprotected_join S1 S2 s1 s2 s3 :
  (forall a, S1 a = true -> S2 a = false) ->
  reprotected S1 s1 s2 -> reprotected S2 s2 s3 -> reprotected (fun a => S1 a || S2 a) s1 s3.
Proof.
  intros Hd [_ H1] [H2 H3]. split; [done|]. intros va Hva. specialize (H1 va Hva). specialize (H3 va Hva).
  specialize (Hd (page_of va)). destruct (S1 (page_of va)); simpl.
  - rewrite Hd in H3 by done. by rewrite H3.
  - destruct (S2 (page_of va)); [by rewrite H1 in H3|by rewrite H3].
Qed.

Lemma reprotected_ext S1 S2 s s' :
  (forall va, user_va va -> S1 (page_of va) = S2 (page_of va)) -> reprotected S1 s s' -> reprotected S2 s s'.
Proof. intros He [H1 H2]. split; [done|]. intros va Hva. rewrite <- He by done. by apply H2. Qed.

(** Only the page's own entry is written. *)
Lemma mprotect_page_pt va d s :
  pt (mprotect_page prot npp va d s).2 = pt s \/
  exists v, pt (mprotect_page prot npp va d s).2 = pt_set (pt s) va v.
Proof.
  unfold mprotect_page, alloc_page, cow_put. destruct (pt_get (pt s) va) as [e|]; [|by left].
  destruct (negb _); [by left|]. destruct (prot =? 0); [right; eauto|]. destruct (has e 1024); [|right; eauto].
  destruct (1 <? _).
  - destruct (Subpage.alloc_4k_page _ _) as [ph a]. destruct (ph =? 0); [by left|].
    destruct (Subpage.page_cow_put _ _) as [[] ?]; right; simpl; eauto.
  - destruct (Subpage.page_cow_put _ _) as [? ?]. right. simpl. eauto.
Qed.

Lemma mprotect_page_reprotected va d s :
  pt_inv (pt s) -> user_va va ->
  reprotected (fun a => a =? page_of va) s (mprotect_page prot npp va d s).2.
Proof.
  intros Hi Hva.
  assert (forall va', (page_of va' =? page_of va) = (va' / 4096 =? va / 4096)) as Hp
    by (intros; unfold page_of; bools; done || lia).
  assert (forall va', user_va va' -> va' / 4096 = va / 4096 -> pte s va' = pte s va) as Hsame
    by (intros; unfold pte, pt_val; by rewrite (pt_get_page (pt s) va' va)).
  pose proof (mprotect_page_pt va d s) as Hpt. destruct (pt_get (pt s) va) as [e|] eqn:E.
  2: { assert (mprotect_page prot npp va d s = (d, s)) as -> by (unfold mprotect_page; by rewrite E).
       split; [done|]. intros va' Hva'. rewrite Hp. destruct (Z.eqb_spec (va' / 4096) (va / 4096)); [|done].
       intros _. simpl. rewrite Hsame by done. unfold pte, pt_val, newpte. by rewrite E. }
  assert (has e PAGE_COW = false -> pt (mprotect_page prot npp va d s).2 =
    if has e (Z.lor PAGE_VALID PAGE_PROTNONE) then pt_set (pt s) va (newpte e) else pt s) as Hval.
  { intros Hc. unfold mprotect_page, newpte. rewrite E, Hc. destruct (has e (Z.lor 1 512)); [|done]. simpl.
    by destruct (prot =? 0). }
  assert (pte s va = e) as Ee by (unfold pte, pt_val; by rewrite E).
  split.
  { destruct Hpt as [->|[v ->]]; [done|]. by apply (pt_set_spec (pt s) va v e). }
  intros va' Hva'. rewrite Hp. destruct (Z.eqb_spec (va' / 4096) (va / 4096)) as [He|Hne].
  - rewrite Hsame, Ee by done. intros Hc. unfold pte. rewrite (Hval Hc). destruct (has e (Z.lor 1 512)) eqn:Hh.
    + destruct (pt_set_spec (pt s) va (newpte e) e Hi Hva E) as [_ Hs]. rewrite Hs by done.
      by destruct (Z.eqb_spec (va' / 4096) (va / 4096)).
    + change (pte s va' = newpte e). rewrite Hsame, Ee by done. unfold newpte. by rewrite Hh.
  - unfold pte. destruct Hpt as [->|[v ->]]; [done|].
    destruct (pt_set_spec (pt s) va v e Hi Hva E) as [_ Hs]. rewrite Hs by done.
    by destruct (Z.eqb_spec (va' / 4096) (va / 4096)).
Qed.

Lemma mprotect_n_reprotected n va d s :
  pt_inv (pt s) -> 0 <= va -> va mod PAGE_4K_SIZE = 0 -> va + Z.of_nat n * PAGE_4K_SIZE <= USER_TOP ->
  reprotected (fun a => (va <=? a) && (a <? va + Z.of_nat n * PAGE_4K_SIZE)) s (mprotect_n n prot npp va d s).2.
Proof.
  revert va d s. induction n as [|n IH]; intros va d s Hi H0 Hm Ht.
  { split; [done|]. intros va' _. bools; done || lia. }
  cbn [mprotect_n]. pose proof (mprotect_page_reprotected va d s Hi ltac:(unfold user_va; lia)) as Hc.
  destruct (mprotect_page prot npp va d s) as [d1 s1]. cbn [snd] in Hc.
  pose proof (IH (va + 4096) d1 s1 (proj1 Hc) ltac:(lia) ltac:(dlia) ltac:(lia)) as Hc'.
  assert (page_of va = va) as Epv by (unfold page_of; dlia). rewrite Epv in Hc.
  eapply reprotected_ext; [|eapply (reprotected_join _ _ _ _ _); [|exact Hc|exact Hc']].
  - intros va' _. simpl. assert (page_of va' mod 4096 = 0) by (unfold page_of; rewrite Z.mod_mul; lia).
    set (pg := page_of va') in *. bools; try done; dlia.
  - intros a. simpl. bools; done || lia.
Qed.

Lemma mprotect_vmas_pt l a b d s k :
  sorted l -> Forall (fun v => vm_end v <= USER_TOP) l ->
  (forall v, v ∈ l -> a < vm_end v -> vm_start v < b -> vm_end v mod PAGE_4K_SIZE = 0) ->
  0 <= a -> a mod PAGE_4K_SIZE = 0 -> a < b <= USER_TOP -> b mod PAGE_4K_SIZE = 0 ->
  prescan l a b = inr k -> b <= k -> pt_inv (pt s) ->
  reprotected (fun x => (a <=? x) && (x <? b)) s (mprotect_vmas l prot npp nvf a b d s).2.
Proof.
  intros Hs Ht. revert a d s. induction l as [|v l IH]; intros a d s He H0 Ham Hab Hbm Hk Hbk Hi.
  { simplify_eq/=. lia. }
  apply sorted_cons in Hs as (Hv & Hb & Hs). apply Forall_cons in Ht as [Htv Ht]. specialize (IH Hs Ht).
  unfold vma_ok in Hv. cbn [mprotect_vmas prescan] in *.
  assert (forall w, w ∈ l -> w ∈ v :: l) as Hin by (intros; apply elem_of_cons; auto).
  destruct (Z.leb_spec (vm_end v) a).
  { assert (reprotected (fun x => (a <=? x) && (x <? b)) s (mprotect_vmas l prot npp nvf a b d s).2) as Hr.
    { apply IH; try done. intros w Hw. by apply He, Hin. }
    by destruct (mprotect_vmas l prot npp nvf a b d s) as [[[l' a'] d'] s']. }
  destruct (Z.leb_spec b (vm_start v)); [simplify_eq; lia|].
  destruct (Z.ltb_spec a (vm_start v)); [done|]. destruct (has (vm_flags v) 128); [done|].
  assert ((if vm_start v <? a then a else vm_start v) = a) as -> by (bools; lia).
  assert (vm_end v mod PAGE_4K_SIZE = 0) as Hvm by (apply He; [apply elem_of_cons; auto|lia|lia]).
  set (e := if b <? vm_end v then b else vm_end v).
  assert (a < e <= USER_TOP /\ e mod PAGE_4K_SIZE = 0 /\ e = Z.min b (vm_end v)) as (? & ? & Ee)
    by (unfold e; bools; lia).
  pose proof (mprotect_n_reprotected (pages a e) a d s Hi H0 Ham ltac:(unfold pages; dlia)) as Hr.
  destruct (mprotect_n (pages a e) prot npp a d s) as [d1 s1]. cbn [snd] in Hr.
  assert (reprotected (fun x => (a <=? x) && (x <? e)) s s1) as Hr1.
  { eapply reprotected_ext; [|exact Hr]. intros va _. simpl.
    assert (page_of va mod 4096 = 0) by (unfold page_of; rewrite Z.mod_mul; lia). unfold pages.
    set (pg := page_of va) in *. rewrite Z2Nat.id by dlia. bools; try done; dlia. }
  destruct (Z.leb_spec b (vm_end v)).
  - cbn [snd]. eapply reprotected_ext; [|exact Hr1]. intros va _. simpl. by replace e with b by lia.
  - assert (reprotected (fun x => (vm_end v <=? x) && (x <? b)) s1 (mprotect_vmas l prot npp nvf (vm_end v) b d1 s1).2) as Hr2.
    { apply IH; try done; try lia; [|apply Hr1]. intros w Hw ? ?. apply He; [by apply Hin|lia|lia]. }
    destruct (mprotect_vmas l prot npp nvf (vm_end v) b d1 s1) as [[[l' a'] d'] s']. cbn [snd] in *.
    eapply reprotected_ext; [|eapply reprotected_join; [|exact Hr1|exact Hr2]].
    + intros va _. simpl. bools; try done; lia.
    + intros x. simpl. bools; done || lia.
Qed.
End mprotect_loop.

Lemma fold_free_same d s :
  pt (foldl (fun s phys => free_page phys s) s d) = pt s /\
  vma_list (foldl (fun s phys => free_page phys s) s d) = vma_list s.
Proof. revert s. induction d as [|x d IH]; intros s; simpl; [done|]. by rewrite !(proj1 (IH _)), !(proj2 (IH _)). Qed.

(** Mprotect is all-or-nothing on the VMA list.  It fails, changing
    nothing, unless every address of the (page-rounded) range is mapped by a
    VMA that is not an I/O mapping.  When it succeeds, every VMA that meets
    the range gets the new protection over its whole extent, no other VMA
    changes; every present page of the range that is not shared
    copy-on-write has its entry rewritten with the same frame and the new
    permissions; and no page outside the range has its entry changed. *)
Theorem do_mprotect_correct addr length prot s npp nvf :
  let a := align_up addr PAGE_4K_SIZE in
  let b := a + align_up length PAGE_4K_SIZE in
  sorted (vma_list s) -> Forall (fun v => vm_end v <= USER_TOP) (vma_list s) -> pt_inv (pt s) ->
  (forall v, v ∈ vma_list s -> a < vm_end v -> vm_start v < b -> vm_end v mod PAGE_4K_SIZE = 0) ->
  0 <= addr -> 0 < length -> b <= USER_TOP ->
  mm_user_range_protected (start_brk s) a b = false -> prot_to_page_flags prot = inr (npp, nvf) ->
  let '(rc, s') := do_mprotect addr length prot s in
  (rc = 0 /\ covered (vma_list s) a b /\
     vma_list s' = (fun v => if touches a b v then reprotect npp nvf v else v) <$> vma_list s /\
     reprotected prot npp (fun x => (a <=? x) && (x <? b)) s s') \/
  ((rc = - ENOMEM \/ rc = - EPERM) /\ ~ covered (vma_list s) a b /\ s' = s).
Proof.
  intros a b Hs Ht Hi He Ha Hl Hb Hp Hf.
  pose proof (align_up_bounds addr 4096 ltac:(lia)). pose proof (align_up_bounds length 4096 ltac:(lia)).
  pose proof (align_up_mod addr 4096 ltac:(lia)) as Ham. pose proof (align_up_mod length 4096 ltac:(lia)) as Hlm.
  unfold do_mprotect. rewrite !page_align_spec by lia. fold a.
  destruct (Z.eqb_spec (align_up length 4096) 0); [lia|].
  rewrite !(wrap64_small (a + _)) by lia. fold b. destruct (Z.ltb_spec b a); [lia|]. rewrite Hp, Hf.
  pose proof (prescan_spec (vma_list s) a b Hs ltac:(lia)) as Hpre.
  destruct (prescan (vma_list s) a b) as [rc|k] eqn:Ek; [right; by destruct Hpre|].
  destruct (Z.ltb_spec k b); [right; auto|].
  assert (b mod 4096 = 0) as Hbm by (unfold b, a; dlia).
  destruct (mprotect_vmas_list prot npp nvf (vma_list s) a b [] s k Hs ltac:(lia) Ek ltac:(lia)) as [M1 M2].
  pose proof (mprotect_vmas_pt prot npp nvf (vma_list s) a b [] s k Hs Ht He ltac:(lia) Ham ltac:(lia) Hbm Ek
    ltac:(lia) Hi) as M3.
  destruct (mprotect_vmas (vma_list s) prot npp nvf a b [] s) as [[[l a'] d] s1]. simpl in M1, M2, M3. subst l a'.
  destruct (Z.ltb_spec k b); [lia|].
  pose proof (fold_free_same d (set_vmas ((fun v => if touches a b v then reprotect npp nvf v else v) <$> vma_list s) s1)) as [F1 F2].
  left. split; [done|]. split; [done|]. rewrite F2. split; [done|].
  destruct M3 as [M3 M4]. split; [by rewrite F1|]. intros va Hva. specialize (M4 va Hva).
  unfold pte in *. by rewrite F1.
Qed.

(** * The program break *)

(** Steps that leave the address-space record alone. *)
Definition same_mm (s s' : sys) : Prop :=
  vma_list s' = vma_list s /\ start_brk s' = start_brk s /\ end_brk s' = end_brk s.

Lemma same_mm_trans s1 s2 s3 : same_mm s1 s2 -> same_mm s2 s3 -> same_mm s1 s3.
Proof. unfold same_mm. intros (? & ? & ?) (? & ? & ?). split_and!; congruence. Qed.

Lemma same_mm_unmap_page va s : same_mm s (unmap_page va s).
Proof.
  unfold unmap_page, cow_put, free_page. destruct (pt_get (pt s) va); [|done].
  destruct (negb _); [done|]. destruct (has _ _); [|done]. by destruct (Subpage.page_cow_put _ _) as [[] ?].
Qed.
Lemma same_mm_unmap_n n va s : same_mm s (unmap_n n va s).
Proof.
  revert va s. induction n as [|n IH]; intros va s; simpl; [done|].
  eapply same_mm_trans; [apply same_mm_unmap_page|apply IH].
Qed.

(** [pt] is unchanged by the allocator and memory steps. *)
Lemma alloc_page_same s : pt (alloc_page s).2 = pt s /\ same_mm s (alloc_page s).2.
Proof. unfold alloc_page. by destruct (Subpage.alloc_4k_page _ _). Qed.
Lemma cow_put_same ph s : pt (cow_put ph s).2 = pt s /\ same_mm s (cow_put ph s).2.
Proof. unfold cow_put. by destruct (Subpage.page_cow_put _ _). Qed.

Lemma has_lor_r a b m : has b m = true -> has (Z.lor a b) m = true.
Proof.
  unfold has. rewrite Z.land_lor_distr_l. intros Hb. destruct (Z.eqb_spec (Z.lor (Z.land a m) (Z.land b m)) 0) as [E|]; [|done].
  apply Z.lor_eq_0_iff in E as [_ E]. by rewrite E in Hb.
Qed.

Lemma present_valid e : has e (Z.lor PAGE_VALID PAGE_PROTNONE) = false -> has e PAGE_VALID = false.
Proof.
  unfold has. rewrite Z.land_lor_distr_r. destruct (Z.eqb_spec (Z.land e 1) 0); [done|].
  destruct (Z.eqb_spec (Z.lor (Z.land e 1) (Z.land e 512)) 0) as [E|]; [|done].
  by apply Z.lor_eq_0_iff in E as [? _].
Qed.

(** The entry [pt_map] writes is valid when the flags are. *)
Lemma mapped_valid phys prot :
  has prot PAGE_VALID = true -> has (Z.lor (phys &~ 4095) (Z.land prot 4095)) PAGE_VALID = true.
Proof. intros Hp. apply has_lor_r. unfold has in *. by rewrite <- Z.land_assoc. Qed.

Lemma page_of_mod va : page_of va mod 4096 = 0.
Proof. unfold page_of. apply Z.mod_mul. lia. Qed.

(** The list of [k] pages from [va] on. *)
Fixpoint page_list (va : Z) (k : nat) : list Z :=
  match k with O => [] | S k => va :: page_list (va + PAGE_4K_SIZE) k end.

Lemma grow_n_spec n prot va staged s :
  pt_inv (pt s) -> 0 <= va -> va mod PAGE_4K_SIZE = 0 -> va + Z.of_nat n * PAGE_4K_SIZE <= USER_TOP ->
  has prot PAGE_VALID = true ->
  (forall x, va <= x < va + Z.of_nat n * PAGE_4K_SIZE -> x mod PAGE_4K_SIZE = 0 -> has (pte s x) PAGE_VALID = false) ->
  let '(rc, staged', s') := grow_n n prot va staged s in
  exists k, (k <= n)%nat /\ staged' = staged ++ page_list va k /\ same_mm s s' /\ pt_inv (pt s') /\
    (rc = 0 /\ k = n \/ rc = - ENOMEM) /\
    forall x, user_va x ->
      if (va <=? page_of x) && (page_of x <? va + Z.of_nat k * PAGE_4K_SIZE)
      then has (pte s' x) PAGE_VALID = true else pte s' x = pte s x.
Proof.
  revert va staged s. induction n as [|n IH]; intros va staged s Hi H0 Hm Ht Hp Hn.
  { exists 0%nat. rewrite app_nil_r. split_and!; try done; [by left|]. intros x _. bools; done || lia. }
  cbn [grow_n].
  assert (forall rc s', same_mm s s' -> pt_inv (pt s') -> (forall x, user_va x -> pte s' x = pte s x) -> rc = - ENOMEM ->
    exists k, (k <= S n)%nat /\ staged = staged ++ page_list va k /\ same_mm s s' /\ pt_inv (pt s') /\
    (rc = 0 /\ k = S n \/ rc = - ENOMEM) /\ forall x, user_va x ->
      if (va <=? page_of x) && (page_of x <? va + Z.of_nat k * PAGE_4K_SIZE)
      then has (pte s' x) PAGE_VALID = true else pte s' x = pte s x) as Hfail.
  { intros rc s' ? ? Hsame ->. exists 0%nat. rewrite app_nil_r. split_and!; try done; [lia|auto|].
    intros x Hx. bools; try lia; by apply Hsame. }
  assert (match pt_get (pt s) va with Some e => has e PAGE_VALID | None => false end = false) as ->.
  { specialize (Hn va ltac:(lia) Hm). unfold pte, pt_val in Hn. by destruct (pt_get (pt s) va). }
  pose proof (alloc_page_same s) as [Ep Em]. destruct (alloc_page s) as [phys s1]. cbn [snd] in *.
  destruct (Z.eqb_spec phys 0).
  { apply Hfail; try done; [by rewrite Ep|]. intros x Hx. unfold pte. by rewrite Ep. }
  change (pt (zero phys 4096 s1)) with (pt s1). rewrite Ep.
  destruct (pt_map (pt s) phys va prot) as [mrc p] eqn:Emap.
  destruct (pt_map_spec (pt s) phys va prot mrc p Hi ltac:(unfold user_va; lia) Emap) as (Hi' & Hrc & Hv).
  destruct (Z.eqb_spec mrc 0) as [->|Hne]; cbn [negb].
  2: { by apply Hfail. }
  set (s2 := set_pt p (zero phys 4096 s1)).
  assert (forall x, user_va x -> pte s2 x = if x / 4096 =? va / 4096 then Z.lor (phys &~ 4095) (Z.land prot 4095)
    else pte s x) as Hv2 by (intros x Hx; apply (Hv x Hx)).
  specialize (IH (va + 4096) (staged ++ [va]) s2 Hi' ltac:(lia) ltac:(dlia) ltac:(lia) Hp).
  destruct (grow_n n prot (va + 4096) (staged ++ [va]) s2) as [[rc st'] s'].
  destruct IH as (k & Hk & -> & Hm2 & Hi2 & Hrc2 & Hv3).
  { intros x Hx Hxm. rewrite Hv2 by (unfold user_va; lia).
    destruct (Z.eqb_spec (x / 4096) (va / 4096)); [dlia|]. apply Hn; [lia|done]. }
  exists (S k). split_and!; try done; [lia|by rewrite <- app_assoc| |by destruct Hrc2 as [[? ->]|?]; auto|].
  { eapply same_mm_trans; [exact Em|exact Hm2]. }
  intros x Hx. specialize (Hv3 x Hx). pose proof (page_of_mod x) as Hpm.
  assert ((x / 4096 =? va / 4096) = (page_of x =? va)) as Heq by (unfold page_of; bools; try done; dlia).
  rewrite Hv2, Heq in Hv3 by done.
  destruct ((va + 4096 <=? page_of x) && (page_of x <? va + 4096 + Z.of_nat k * 4096)) eqn:E3.
  - apply andb_true_iff in E3. bools; done || lia.
  - apply andb_false_iff in E3. destruct (Z.eqb_spec (page_of x) va) as [Epx|].
    + rewrite Hv3, mapped_valid by done. bools; done || lia.
    + set (pg := page_of x) in *. bools; try done; dlia.
Qed.

Lemma rollback_cleared va k s :
  pt_inv (pt s) -> 0 <= va -> va mod PAGE_4K_SIZE = 0 -> va + Z.of_nat k * PAGE_4K_SIZE <= USER_TOP ->
  let s' := foldl (fun s va => unmap_page va s) s (page_list va k) in
  same_mm s s' /\ cleared (fun a => (va <=? a) && (a <? va + Z.of_nat k * PAGE_4K_SIZE)) s s'.
Proof.
  intros Hi H0 Hm Ht. assert (forall va s, foldl (fun s va => unmap_page va s) s (page_list va k) = unmap_n k va s) as He.
  { clear. induction k as [|k IH]; intros va s; [done|]. simpl. apply IH. }
  cbv zeta. rewrite He. split; [apply same_mm_unmap_n|by apply unmap_n_cleared].
Qed.

Lemma shrink_tail_spec prot requested aligned_new s :
  pt_inv (pt s) -> PAGE_4K_SIZE <= aligned_new <= USER_TOP -> aligned_new mod PAGE_4K_SIZE = 0 ->
  has prot PAGE_VALID = true ->
  match shrink_tail prot requested aligned_new s with
  | inl s' => same_mm s s' /\ pt s' = pt s
  | inr (_, s') => same_mm s s' /\ pt_inv (pt s') /\ forall x, user_va x ->
      if page_of x =? aligned_new - PAGE_4K_SIZE
      then has (pte s x) PAGE_VALID = true -> has (pte s' x) PAGE_VALID = true
      else pte s' x = pte s x
  end.
Proof.
  intros Hi Han Ham Hp. unfold shrink_tail. rewrite (wrap64_small (aligned_new - 4096)) by lia.
  set (tv := aligned_new - 4096). assert (user_va tv) as Htv by (unfold user_va, tv; lia).
  assert (forall s', same_mm s s' -> pt s' = pt s -> same_mm s s' /\ pt_inv (pt s') /\ forall x, user_va x ->
    if page_of x =? tv then has (pte s x) PAGE_VALID = true -> has (pte s' x) PAGE_VALID = true
    else pte s' x = pte s x) as Hsame.
  { intros s' Hm Ept. unfold pte. rewrite Ept. split_and!; try done. intros x _. by destruct (_ =? _). }
  destruct (pt_get (pt s) tv) as [e|] eqn:E; [|by apply Hsame].
  destruct (has e 1) eqn:Hv; [|by apply Hsame]. cbn [negb].
  assert (forall s' v, same_mm s s' -> pt s' = pt_set (pt s) tv (Z.lor v prot) -> same_mm s s' /\ pt_inv (pt s') /\
    forall x, user_va x -> if page_of x =? tv then has (pte s x) PAGE_VALID = true -> has (pte s' x) PAGE_VALID = true
    else pte s' x = pte s x) as Hset.
  { intros s' v Hm Ept. destruct (pt_set_spec (pt s) tv (Z.lor v prot) e Hi Htv E) as [Hi' Hv'].
    unfold pte. rewrite Ept. split_and!; try done. intros x Hx. rewrite Hv' by done.
    assert ((x / 4096 =? tv / 4096) = (page_of x =? tv)) as -> by (unfold page_of, tv; bools; try done; dlia).
    destruct (page_of x =? tv); [|done]. intros _. by apply has_lor_r. }
  destruct (has e 1024); [|by apply Hsame]. destruct (1 <? _).
  - pose proof (alloc_page_same s) as [Ep Em]. destruct (alloc_page s) as [ph s1]. cbn [snd] in *.
    destruct (ph =? 0); [done|]. set (s2 := set_pt _ _).
    pose proof (cow_put_same (e &~ 4095) s2) as [Ep2 Em2]. destruct (cow_put (e &~ 4095) s2) as [last s3].
    cbn [snd] in *. apply (Hset _ ph).
    + eapply same_mm_trans; [|exact Em2]. exact Em.
    + change (pt s3 = pt_set (pt s) tv (Z.lor ph prot)). rewrite Ep2. unfold s2. simpl. by rewrite Ep.
  - pose proof (cow_put_same (e &~ 4095) s) as [Ep2 Em2]. destruct (cow_put (e &~ 4095) s) as [last s3].
    cbn [snd] in *. apply (Hset _ (e &~ 4095)); [exact Em2|]. simpl. by rewrite Ep2.
Qed.

(** The heap's invariant: one heap VMA ending at the break, the pages up to
    the break mapped, the rest of the heap window not present. *)
Record heap_inv (s : sys) : Prop := {
  hi_pt : pt_inv (pt s);
  hi_brk : 0 < start_brk s <= end_brk s /\ end_brk s <= HEAP_LIMIT /\ start_brk s mod PAGE_4K_SIZE = 0;
  hi_vma : exists v, List.find (is_heap (start_brk s)) (vma_list s) = Some v /\
    vm_end v = end_brk s /\ has (vm_page_prot v) PAGE_VALID = true;
  hi_valid : forall x, start_brk s <= x < align_up (end_brk s) PAGE_4K_SIZE -> x mod PAGE_4K_SIZE = 0 ->
    has (pte s x) PAGE_VALID = true;
  hi_free : forall x, align_up (end_brk s) PAGE_4K_SIZE <= x < HEAP_LIMIT -> x mod PAGE_4K_SIZE = 0 ->
    has (pte s x) (Z.lor PAGE_VALID PAGE_PROTNONE) = false;
}.

Lemma find_set_heap_end sb a l v :
  List.find (is_heap sb) l = Some v -> List.find (is_heap sb) (set_heap_end sb a l) = Some (with_end a v).
Proof.
  induction l as [|w l IH]; simpl; [done|]. destruct (is_heap sb w) eqn:E; simpl.
  - intros [= ->]. unfold is_heap in *. simpl. by rewrite E.
  - rewrite E. apply IH.
Qed.

Lemma page_of_aligned x : x mod PAGE_4K_SIZE = 0 -> page_of x = x.
Proof. intros. unfold page_of. dlia. Qed.

Lemma heap_inv_same s s' :
  heap_inv s -> same_mm s s' -> pt_inv (pt s') ->
  (forall x, user_va x -> x mod PAGE_4K_SIZE = 0 -> pte s' x = pte s x \/
    align_up (end_brk s) PAGE_4K_SIZE <= x /\ has (pte s' x) (Z.lor PAGE_VALID PAGE_PROTNONE) = false) -> heap_inv s'.
Proof.
  intros [H1 H2 H3 H4 H5] (E1 & E2 & E3) Hi Hpte.
  pose proof (align_up_bounds (end_brk s) 4096 ltac:(lia)).
  assert (align_up (end_brk s) 4096 <= HEAP_LIMIT) by (unfold align_up; dlia).
  constructor; rewrite ?E1, ?E2, ?E3; try done.
  - intros x Hx Hxm. destruct (Hpte x ltac:(unfold user_va; lia) Hxm) as [->|[? _]]; [by apply H4|lia].
  - intros x Hx Hxm. destruct (Hpte x ltac:(unfold user_va; lia) Hxm) as [->|[_ ?]]; [by apply H5|done].
Qed.

Lemma heap_inv_commit s0 s requested :
  heap_inv s0 -> same_mm s0 s -> pt_inv (pt s) -> start_brk s0 <= requested <= HEAP_LIMIT ->
  (forall x, start_brk s0 <= x < align_up requested PAGE_4K_SIZE -> x mod PAGE_4K_SIZE = 0 -> has (pte s x) PAGE_VALID = true) ->
  (forall x, align_up requested PAGE_4K_SIZE <= x < HEAP_LIMIT -> x mod PAGE_4K_SIZE = 0 ->
    has (pte s x) (Z.lor PAGE_VALID PAGE_PROTNONE) = false) ->
  heap_inv (commit_brk requested s).
Proof.
  intros [H1 H2 (v & Hf & Hv & Hp) H4 H5] (E1 & E2 & E3) Hi Hr Hval Hfree. constructor; simpl; rewrite ?E1, ?E2; try done.
  - lia.
  - exists (with_end requested v). split; [by apply find_set_heap_end|done].
Qed.

(** What a call with an admissible request may do. *)
Definition brk_effect (s : sys) (requested : Z) (out : Z * option Z * sys) : Prop :=
  let '(rc, res, s') := out in
  heap_inv s' /\ start_brk s' = start_brk s /\
  (forall x, user_va x -> page_of x < start_brk s \/ HEAP_LIMIT <= page_of x -> pte s' x = pte s x) /\
  (rc = 0 /\ res = Some requested /\ end_brk s' = requested \/ rc = - ENOMEM /\ res = None /\ same_mm s s').

Lemma brk_align x : 0 <= x <= HEAP_LIMIT -> (x +u (PAGE_4K_SIZE - 1)) &~ 4095 = align_up x PAGE_4K_SIZE.
Proof. intros Hx. change 4095 with (2 ^ 12 - 1). change (4096 - 1) with (2 ^ 12 - 1). apply round_up_mask; lia. Qed.

Lemma kmalloc_same s : pt (kmalloc s).2 = pt s /\ same_mm s (kmalloc s).2.
Proof. unfold kmalloc. by destruct (kok s). Qed.

Lemma grow_effect s requested prot s1 :
  heap_inv s -> end_brk s < requested <= HEAP_LIMIT -> has prot PAGE_VALID = true ->
  pt s1 = pt s -> same_mm s s1 ->
  let ao := align_up (end_brk s) PAGE_4K_SIZE in
  let an := align_up requested PAGE_4K_SIZE in
  brk_effect s requested
    (let '(rc, staged, s2) := grow_n (pages ao an) prot ao [] s1 in
     if negb (rc =? 0) then (rc, None, foldl (fun s va => unmap_page va s) s2 staged)
     else (0, Some requested, commit_brk requested s2)).
Proof.
  intros Hh Hr Hp Ept Hm1 ao an. pose proof Hh as [H1 H2 H3 H4 H5].
  pose proof (align_up_bounds (end_brk s) 4096 ltac:(lia)) as Hao. fold ao in Hao.
  pose proof (align_up_bounds requested 4096 ltac:(lia)) as Han. fold an in Han.
  pose proof (align_up_mod (end_brk s) 4096 ltac:(lia)) as Haom. fold ao in Haom.
  pose proof (align_up_mod requested 4096 ltac:(lia)) as Hanm. fold an in Hanm.
  assert (ao <= an <= HEAP_LIMIT) as Haan by (unfold ao, an, align_up; dlia).
  assert (Z.of_nat (pages ao an) * 4096 = an - ao) as Hpg by (unfold pages; dlia).
  assert (forall x, pte s1 x = pte s x) as Hpte1 by (intros; unfold pte; by rewrite Ept).
  pose proof (grow_n_spec (pages ao an) prot ao [] s1 ltac:(by rewrite Ept) ltac:(lia) Haom ltac:(lia) Hp) as Hg.
  destruct (grow_n (pages ao an) prot ao [] s1) as [[rc staged] s2].
  destruct Hg as (k & Hk & -> & Hm2 & Hi2 & Hrc & Hv).
  { intros x Hx Hxm. rewrite Hpte1. apply present_valid. apply H5; [lia|done]. }
  pose proof (same_mm_trans _ _ _ Hm1 Hm2) as Hm. cbn [app].
  assert (Z.of_nat k * 4096 <= an - ao) as Hkb by lia.
  destruct Hrc as [[-> ->]| ->]; cbn [negb Z.eqb].
  - rewrite Hpg in Hv. unfold brk_effect. split_and!; [| |intros x Hx Hout|left; done].
    + apply (heap_inv_commit s); try done; [lia| |].
      * intros x Hx Hxm. fold an in Hx. specialize (Hv x ltac:(unfold user_va; lia)). rewrite page_of_aligned in Hv by done.
        destruct ((ao <=? x) && (x <? ao + (an - ao))) eqn:E; [done|]. apply andb_false_iff in E.
        rewrite Hv, Hpte1. apply H4; [|done]. fold ao. lia.
      * intros x Hx Hxm. fold an in Hx. specialize (Hv x ltac:(unfold user_va; lia)). rewrite page_of_aligned in Hv by done.
        destruct ((ao <=? x) && (x <? ao + (an - ao))) eqn:E; [apply andb_true_iff in E; lia|].
        rewrite Hv, Hpte1. apply H5; [fold ao; lia|done].
    + apply Hm.
    + specialize (Hv x Hx). change (pte (commit_brk requested s2) x) with (pte s2 x).
      destruct ((ao <=? page_of x) && (page_of x <? ao + (an - ao))) eqn:E; [apply andb_true_iff in E; lia|]. by rewrite Hv.
  - destruct (rollback_cleared ao k s2 Hi2 ltac:(lia) Haom ltac:(lia)) as [Hm3 [Hi3 Hc3]].
    set (s3 := foldl _ s2 _) in *. pose proof (same_mm_trans _ _ _ Hm Hm3) as Hm'.
    assert (forall x, user_va x -> if (ao <=? page_of x) && (page_of x <? ao + Z.of_nat k * 4096)
      then has (pte s3 x) (Z.lor PAGE_VALID PAGE_PROTNONE) = false else pte s3 x = pte s x) as Hfin.
    { intros x Hx. rewrite Hc3 by done. specialize (Hv x Hx).
      destruct ((ao <=? page_of x) && (page_of x <? ao + Z.of_nat k * 4096)); [|by rewrite Hv].
      unfold clear. by destruct (has (pte s2 x) (Z.lor 1 512)) eqn:E. }
    unfold brk_effect. split_and!; [|apply Hm'|intros x Hx Hout|right; done].
    + apply (heap_inv_same s); try done. intros x Hx Hxm. specialize (Hfin x Hx). rewrite page_of_aligned in Hfin by done.
      destruct ((ao <=? x) && (x <? ao + Z.of_nat k * 4096)) eqn:E; [|by left]. right. apply andb_true_iff in E. fold ao. split; [lia|done].
    + specialize (Hfin x Hx). destruct ((ao <=? page_of x) && (page_of x <? ao + Z.of_nat k * 4096)) eqn:E; [|done].
      apply andb_true_iff in E. lia.
Qed.

Lemma same_page_effect s requested :
  heap_inv s -> end_brk s < requested <= HEAP_LIMIT ->
  align_up requested PAGE_4K_SIZE <= align_up (end_brk s) PAGE_4K_SIZE ->
  brk_effect s requested (0, Some requested, commit_brk requested s).
Proof.
  intros Hh Hr Ha. pose proof Hh as [H1 H2 H3 H4 H5].
  assert (align_up requested 4096 = align_up (end_brk s) 4096) as E by (unfold align_up in *; dlia).
  unfold brk_effect. split_and!; [|done|done|left; done].
  apply (heap_inv_commit s); try done; [lia|rewrite E..]; done.
Qed.

Lemma shrink_effect s requested prot :
  heap_inv s -> start_brk s <= requested < end_brk s -> has prot PAGE_VALID = true ->
  let ao := align_up (end_brk s) PAGE_4K_SIZE in
  let an := align_up requested PAGE_4K_SIZE in
  brk_effect s requested
    (match (if requested <? an then shrink_tail prot requested an s else inr (0, s)) with
     | inl s => (- ENOMEM, None, s)
     | inr (f, s) =>
       let s := unmap_range an ao s in
       let s := commit_brk requested s in
       (0, Some requested, if f =? 0 then s else free_page f s)
     end).
Proof.
  intros Hh Hr Hp ao an. pose proof Hh as [H1 H2 H3 H4 H5].
  pose proof (align_up_bounds (end_brk s) 4096 ltac:(lia)) as Hao. fold ao in Hao.
  pose proof (align_up_bounds requested 4096 ltac:(lia)) as Han. fold an in Han.
  pose proof (align_up_mod requested 4096 ltac:(lia)) as Hanm. fold an in Hanm.
  assert (an <= ao <= HEAP_LIMIT) as Haan by (unfold ao, an, align_up; dlia).
  assert (forall s1 f, same_mm s s1 -> pt_inv (pt s1) ->
    (forall x, user_va x -> if page_of x <? an then (start_brk s <= page_of x -> has (pte s x) PAGE_VALID = true -> has (pte s1 x) PAGE_VALID = true) /\
        (page_of x < start_brk s -> pte s1 x = pte s x)
      else pte s1 x = pte s x) ->
    brk_effect s requested (0, Some requested,
      if f =? 0 then commit_brk requested (unmap_range an ao s1) else free_page f (commit_brk requested (unmap_range an ao s1)))) as Hgo.
  { intros s1 f Hm1 Hi1 Hv1.
    destruct (unmap_range_cleared an ao s1 Hi1 ltac:(lia) Hanm ltac:(lia)) as [Hi2 Hc2].
    set (s2 := unmap_range an ao s1) in *. pose proof (same_mm_trans _ _ _ Hm1 (same_mm_unmap_n (pages an ao) an s1)) as Hm2.
    assert (heap_inv (commit_brk requested s2)) as Hh2.
    { apply (heap_inv_commit s); try done; [lia| |]; intros x Hx Hxm; fold an in Hx;
        (rewrite Hc2 by (unfold user_va; lia)); specialize (Hv1 x ltac:(unfold user_va; lia)); rewrite page_of_aligned in * by done.
      - destruct ((an <=? x) && (x <? ao)) eqn:E; [apply andb_true_iff in E; lia|].
        destruct (Z.ltb_spec x an); [|lia]. apply Hv1; [lia|]. apply H4; [fold ao; lia|done].
      - destruct (Z.ltb_spec x an); [lia|]. rewrite Hv1. destruct ((an <=? x) && (x <? ao)) eqn:E.
        + unfold clear. by destruct (has (pte s x) (Z.lor 1 512)) eqn:E'.
        + apply H5; [|done]. fold ao. apply andb_false_iff in E. lia. }
    assert (brk_effect s requested (0, Some requested, commit_brk requested s2)) as Hbe.
    { unfold brk_effect. split_and!; [done|apply Hm2|intros x Hx Hout|left; done].
      change (pte (commit_brk requested s2) x) with (pte s2 x). rewrite Hc2 by done. specialize (Hv1 x Hx).
      destruct ((an <=? page_of x) && (page_of x <? ao)) eqn:E; [apply andb_true_iff in E; lia|].
      destruct (Z.ltb_spec (page_of x) an); [apply Hv1; lia|done]. }
    destruct (f =? 0); [done|]. destruct Hbe as (B1 & B2 & B3 & B4). unfold brk_effect. split_and!; try done.
    by destruct B1. }
  destruct (Z.ltb_spec requested an).
  - pose proof (shrink_tail_spec prot requested an s H1 ltac:(unfold an, align_up in *; dlia) Hanm Hp) as Ht.
    destruct (shrink_tail prot requested an s) as [s1|[f s1]].
    + destruct Ht as [Hm Ept]. unfold brk_effect. split_and!; [|apply Hm|intros; unfold pte; by rewrite Ept|right; done].
      apply (heap_inv_same s); [done|done|by rewrite Ept|]. intros x _ _. left. unfold pte. by rewrite Ept.
    + destruct Ht as (Hm & Hi1 & Hv). apply (Hgo s1 f Hm Hi1). intros x Hx. specialize (Hv x Hx).
      pose proof (page_of_mod x). destruct (Z.eqb_spec (page_of x) (an - 4096)) as [E|E].
      * destruct (Z.ltb_spec (page_of x) an); [|lia]. split; [auto|]. intros Hlt. exfalso. unfold an, align_up in *. dlia.
      * rewrite Hv. by destruct (page_of x <? an).
  - apply (Hgo s 0); try done. intros x _. by destruct (page_of x <? an).
Qed.

(** The outcomes of [mm_set_brk]. *)
Lemma mm_set_brk_spec s requested :
  heap_inv s -> is_u64 requested ->
  if requested =? 0 then mm_set_brk requested s = (0, Some (end_brk s), s)
  else if requested <? start_brk s then mm_set_brk requested s = (- EINVAL, None, s)
  else if HEAP_LIMIT <? requested then mm_set_brk requested s = (- ENOMEM, None, s)
  else brk_effect s requested (mm_set_brk requested s).
Proof.
  intros Hh Hu. pose proof Hh as [H1 H2 (v & Hf & Hv & Hp) H4 H5]. unfold mm_set_brk, is_u64 in *.
  destruct (Z.eqb_spec requested 0); [done|]. destruct (Z.eqb_spec (start_brk s) 0); [lia|].
  destruct (Z.ltb_spec requested (start_brk s)); [done|]. destruct (Z.ltb_spec HEAP_LIMIT requested); [done|].
  destruct (Z.eqb_spec requested (end_brk s)) as [->|].
  { unfold brk_effect. split_and!; try done. by left. }
  rewrite Hf, !brk_align by lia. destruct (Z.ltb_spec (end_brk s) requested).
  - assert (align_up requested 4096 <= HEAP_LIMIT) by (unfold align_up; dlia).
    destruct (Z.ltb_spec HEAP_LIMIT (align_up requested 4096)); [lia|].
    destruct (Z.leb_spec (align_up requested 4096) (align_up (end_brk s) 4096)); [apply same_page_effect; done || lia|].
    pose proof (kmalloc_same s) as [P1 M1]. destruct (kmalloc s) as [ok1 s1].
    pose proof (kmalloc_same s1) as [P2 M2]. destruct (kmalloc s1) as [ok2 s2]. cbn [snd] in *.
    pose proof (same_mm_trans _ _ _ M1 M2) as M. rewrite P1 in P2. destruct (negb (ok1 && ok2)).
    + unfold brk_effect. split_and!; [|apply M|intros; unfold pte; by rewrite P2|right; done].
      apply (heap_inv_same s); [done|done|by rewrite P2|]. intros x _ _. left. unfold pte. by rewrite P2.
    + apply grow_effect; done || lia.
  - apply shrink_effect; done || lia.
Qed.


(** * fork *)

Lemma vma_insert_last l v : Forall (fun w => vm_start w <= vm_start v) l -> vma_insert l v = l ++ [v].
Proof.
  induction l as [|w l IH]; intros Hl; simpl; [done|]. apply Forall_cons in Hl as [Hw Hl].
  destruct (Z.ltb_spec (vm_start v) (vm_start w)); [lia|]. by rewrite IH.
Qed.

Lemma fork_copy_app parent child s :
  sorted (child ++ parent) -> kok s = [] ->
  (fork_vma_copy parent child s).1 = child ++ parent /\
  forall n, frefs (fork_vma_copy parent child s).2 n =
    frefs s n + Z.of_nat (length (filter (fun v => vm_file v = Some n) parent)).
Proof.
  revert child s. induction parent as [|v parent IH]; intros child s Hs Hk; simpl.
  { rewrite app_nil_r. split; [done|]. intros n. lia. }
  unfold kmalloc. rewrite Hk. cbn [negb].
  assert (vma_insert child v = child ++ [v]) as ->.
  { apply vma_insert_last. destruct Hs as [Hok Hss]. apply Forall_forall. intros w Hw.
    apply StronglySorted_app in Hss as (Hb & _). rewrite Forall_forall in Hok.
    specialize (Hb w v Hw ltac:(apply elem_of_cons; auto)).
    pose proof (Hok w ltac:(apply elem_of_app; auto)). unfold before, vma_ok in *. lia. }
  destruct (IH (child ++ [v]) (file_ref 1 (vm_file v) s)) as [I1 I2].
  { by rewrite <- app_assoc. } { by rewrite kok_file_ref. }
  rewrite I1, <- app_assoc. split; [done|]. intros n. rewrite I2.
  rewrite filter_cons. unfold file_ref. destruct (vm_file v) as [m|]; simpl.
  - destruct (Z.eqb_spec n m) as [->|]; [rewrite decide_True by done|rewrite decide_False by congruence]; simpl; lia.
  - lia.
Qed.

(** Forking copies the parent's VMA list, in order and complete, and
    takes one vfs reference per file-backed VMA.  (Every [kmalloc] succeeding;
    the child starts with no VMA.) *)
Theorem fork_vma_copy_correct s :
  sorted (vma_list s) -> kok s = [] ->
  (fork_vma_copy (vma_list s) [] s).1 = vma_list s /\
  forall n, frefs (fork_vma_copy (vma_list s) [] s).2 n =
    frefs s n + Z.of_nat (length (filter (fun v => vm_file v = Some n) (vma_list s))).
Proof. intros Hs Hk. by apply (fork_copy_app (vma_list s) []). Qed.

(** * Teardown *)

Definition io_free (l : list vma_t) : list vma_t := List.filter (fun v => negb (has (vm_flags v) VMA_IO)) l.

Lemma free_vmas_cleared l s :
  Forall vma_ok l -> Forall in_user l -> pt_inv (pt s) -> cleared (covb (io_free l)) s (free_vmas true l s).
Proof.
  revert s. induction l as [|v l IH]; intros s Ho Hu Hi; simpl; [by split|].
  apply Forall_cons in Hu as [[Hvm Hvt] Hu]. apply Forall_cons in Ho as [Hv Ho]. unfold vma_ok in Hv.
  destruct (has (vm_flags v) 128); simpl.
  - eapply (cleared_pt _ _ (file_ref (-1) (vm_file v) s)); [by rewrite pt_file_ref|done|].
    apply IH; try done. by rewrite pt_file_ref.
  - pose proof (unmap_range_cleared (vm_start v) (vm_end v) s Hi ltac:(lia) Hvm Hvt) as Hc.
    eapply (cleared_trans _ _ _ (unmap_range (vm_start v) (vm_end v) s)); [exact Hc|].
    eapply (cleared_pt _ _ (file_ref (-1) (vm_file v) (unmap_range (vm_start v) (vm_end v) s)));
      [by rewrite pt_file_ref|done|]. apply IH; try done. rewrite pt_file_ref. apply Hc.
Qed.

(** Tearing an address space down empties the VMA list and leaves no
    present entry in any page a non-I/O VMA covered; other pages' entries are
    untouched. *)
Theorem vma_free_all_correct s :
  sorted (vma_list s) -> Forall in_user (vma_list s) -> pt_inv (pt s) ->
  vma_list (vma_free_all true s) = [] /\
  forall va, user_va va ->
    pte (vma_free_all true s) va = if covb (io_free (vma_list s)) (page_of va) then clear (pte s va) else pte s va.
Proof.
  intros [Ho _] Hu Hi. split; [done|].
  apply (free_vmas_cleared (vma_list s) s Ho Hu Hi).
Qed.

(** * Demand paging *)

(** The file offset [do_page_fault] reads the faulting page from; the page is
    mapped at [cr2 & PAGE_4K_MASK]. *)
Definition fault_file_off (v : vma_t) (cr2 : Z) : Z := (cr2 -u vm_start v) +u shl64 (vm_pgoff v) 12.

End address_space.

(** * A small process *)

Section demo.
#[local] Existing Instance Subpage.pmm_frames.
#[local] Instance demo_pt : PageTable Vmm.tables :=
  Vmm.x86_page_table Vmm.demo_calloc 4096 Vmm.demo_calloc_fresh.

Definition heap_vma0 : vma_t := mk_vma 6291456 6291456 291 7 0 None.
(** Four anonymous pages at [mmap_base]. *)
Definition anon0 : vma_t := mk_vma 1073741824 1073758208 35 7 0 None.
(** Three pages of file 9 at [mmap_base]. *)
Definition file0 : vma_t := mk_vma 1073741824 1073754112 1 5 0 (Some 9).

Abbreviation psys := (@sys Vmm.tables Pmm.state) (only parsing).
Definition proc (l : list vma_t) : psys :=
  mk_sys l 6291456 6291456 1073741824 Vmm.demo_tables Subpage.boot_sub (fun _ => 0) (fun _ => 1) []
    Subpage.junk0 USER_TOP.
Definition no_fds : Z -> option Z := fun _ => None.
Definition no_dev : Z -> option (vma_t -> psys -> Z * vma_t * psys) := fun _ => None.

Lemma demo_sorted : sorted [heap_vma0; anon0].
Proof. split; repeat constructor; unfold vma_ok, before; simpl; lia. Qed.
Lemma demo_user : Forall in_user [heap_vma0; anon0].
Proof. repeat constructor; simpl; lia. Qed.

Lemma do_munmap_correct_witness :
  exists s', do_munmap 1073745920 4096 (proc [heap_vma0; anon0]) = (0, s') /\ sorted (vma_list s') /\
    (forall g, ~ grants (vma_list s') 1073745920 g) /\ grants (vma_list s') 1073750016 (35, 7, None).
Proof.
  pose proof (do_munmap_correct 1073745920 4096 (proc [heap_vma0; anon0]) demo_sorted demo_user Vmm.demo_tables_wf
    eq_refl ltac:(lia) ltac:(lia) ltac:(vm_compute; discriminate)) as H.
  replace (mm_user_range_protected _ _ _) with false in H by (vm_compute; reflexivity).
  destruct H as (s' & E & Hs & Hg & _). exists s'. split; [exact E|]. split; [exact Hs|]. split.
  - intros g Hgr. apply Hg in Hgr as [_ Hgr]. apply Hgr. unfold align_up. vm_compute. split; [discriminate|reflexivity].
  - apply Hg. split; [|unfold align_up; vm_compute; intros [_ Hx]; discriminate].
    exists anon0. split; [apply elem_of_cons; right; apply elem_of_cons; left; reflexivity|]. split; [unfold contains; simpl; lia|reflexivity].
Defined.

Lemma do_mmap_anonymous_correct_witness :
  let '(r, s') := do_mmap no_fds no_dev 0 5000 3 34 UINT64_MAX 0 (proc [heap_vma0; anon0]) in
  r = 1073758208 /\ fits [heap_vma0; anon0] r 8192 /\ sorted (vma_list s') /\ grants (vma_list s') r (35, 7, None).
Proof.
  pose proof (do_mmap_anonymous_correct no_fds no_dev 0 5000 3 34 (proc [heap_vma0; anon0]) 7 3 demo_sorted
    demo_user ltac:(repeat constructor) ltac:(vm_compute; discriminate) ltac:(vm_compute; split; discriminate)
    ltac:(reflexivity) ltac:(vm_compute; discriminate) ltac:(left; reflexivity) ltac:(lia)
    ltac:(unfold is_u64; lia) ltac:(reflexivity) ltac:(reflexivity) ltac:(reflexivity)) as H.
  cbv zeta in H. destruct (do_mmap no_fds no_dev 0 5000 3 34 UINT64_MAX 0 (proc [heap_vma0; anon0])) as [r s'] eqn:E.
  assert (r = 1073758208) as -> by (apply (f_equal fst) in E; vm_compute in E; symmetry; exact E).
  destruct H as [[Hr _]|[[Hr _]|(_ & _ & _ & Hf & _ & Hs & Hg)]]; [discriminate Hr..|]. split; [reflexivity|].
  split; [exact Hf|]. split; [exact Hs|]. apply Hg. right. split; [vm_compute; split; [discriminate|reflexivity]|reflexivity].
Defined.

Lemma do_mprotect_correct_witness :
  let '(rc, s') := do_mprotect 1073745920 4096 1 (proc [heap_vma0; anon0]) in
  (rc = 0 /\ covered [heap_vma0; anon0] 1073745920 1073750016) \/ rc <> 0.
Proof.
  pose proof (do_mprotect_correct 1073745920 4096 1 (proc [heap_vma0; anon0]) 5 1 demo_sorted
    ltac:(repeat constructor; vm_compute; discriminate) Vmm.demo_tables_wf
    ltac:(intros v [->|[->|?%elem_of_nil]%elem_of_cons]%elem_of_cons; [reflexivity|reflexivity|contradiction])
    ltac:(lia) ltac:(lia) ltac:(vm_compute; discriminate) ltac:(vm_compute; reflexivity) ltac:(reflexivity)) as H.
  cbv zeta in H. destruct (do_mprotect 1073745920 4096 1 (proc [heap_vma0; anon0])) as [rc s'].
  destruct H as [(E & Hc & _)|([E|E] & _)]; [left; split; [exact E|exact Hc]|right; rewrite E; discriminate..].
Defined.

Lemma proc_heap_inv : heap_inv (proc [heap_vma0; anon0]).
Proof.
  assert (forall x, user_va x -> pte (proc [heap_vma0; anon0]) x = 0) as Hz.
  { intros x Hx. unfold pte. simpl. rewrite Vmm.x86_get_val; [|apply Vmm.demo_tables_wf|done].
    apply Vmm.demo_tables_pte. }
  constructor; simpl.
  - apply Vmm.demo_tables_wf.
  - split_and!; done || lia.
  - exists heap_vma0. done.
  - intros x Hx. change (align_up 6291456 4096) with 6291456 in Hx. lia.
  - intros x Hx _. change (align_up 6291456 4096) with 6291456 in Hx. rewrite Hz; [done|unfold user_va; lia].
Qed.


Lemma fork_vma_copy_correct_witness :
  (fork_vma_copy [heap_vma0; anon0] [] (proc [heap_vma0; anon0])).1 = [heap_vma0; anon0].
Proof. apply (fork_vma_copy_correct (proc [heap_vma0; anon0]) demo_sorted eq_refl). Defined.

Lemma vma_free_all_correct_witness : vma_list (vma_free_all true (proc [heap_vma0; anon0])) = [].
Proof.
  apply (vma_free_all_correct (proc [heap_vma0; anon0]));
    [exact demo_sorted|exact demo_user|exact Vmm.demo_tables_wf].
Defined.

(** ** Defects *)

(** The automatic address search does not guard its sums.  A length of
    [2^64 - 4096] passes every check because [addr + length] wraps below the
    limit, and mmap succeeds with a VMA whose end lies below its start. *)
Theorem do_mmap_length_wraps :
  exists s', do_mmap no_fds no_dev 0 (U64 - 4096) 3 34 UINT64_MAX 0 (proc []) = (1073741824, s') /\
    (exists v, v ∈ vma_list s' /\ vm_end v < vm_start v) /\ ~ sorted (vma_list s').
Proof.
  eexists. split; [vm_compute; reflexivity|]. split.
  - eexists. split; [apply elem_of_cons; left; reflexivity|]. vm_compute. reflexivity.
  - intros [Ho _]. apply Forall_cons in Ho as [Ho _]. unfold vma_ok in Ho. simpl in Ho. lia.
Qed.

(** A fixed mapping at address 0 is accepted, although nothing below
    [USER_MIN_ADDR] is meant to be mappable: the guard lets [addr == 0]
    through as "let the kernel pick", which MAP_FIXED does not do. *)
Theorem do_mmap_fixed_maps_null :
  exists s', do_mmap no_fds no_dev 0 4096 3 50 UINT64_MAX 0 (proc [heap_vma0]) = (0, s') /\
    grants (vma_list s') 0 (35, 7, None).
Proof.
  eexists. split; [vm_compute; reflexivity|]. eexists. split; [apply elem_of_cons; left; reflexivity|].
  split; [unfold contains; simpl; lia|reflexivity].
Qed.

(** A fixed mapping with an invalid protection fails with [-EINVAL] but
    has already unmapped the range. *)
Theorem do_mmap_fixed_unmaps_on_error :
  exists s', do_mmap no_fds no_dev 1073741824 4096 2 50 UINT64_MAX 0 (proc [heap_vma0; anon0]) = (- EINVAL, s') /\
    grants [heap_vma0; anon0] 1073741824 (35, 7, None) /\
    forall g, ~ grants (vma_list s') 1073741824 g.
Proof.
  eexists. split; [vm_compute; reflexivity|]. split.
  - exists anon0. split; [rewrite !elem_of_cons; auto|]. split; [unfold contains; simpl; lia|reflexivity].
  - intros g (v & Hv & Hc & _). unfold contains in Hc. simpl in Hv.
    repeat (apply elem_of_cons in Hv as [->|Hv]; [simpl in Hc; lia|]). by apply elem_of_nil in Hv.
Qed.

(** An address inside a page is rounded up, not down or refused: munmap of one
    byte at the second byte of a page unmaps the page after it. *)
Theorem do_munmap_rounds_up :
  exists s', do_munmap 1073741825 1 (proc [heap_vma0; anon0]) = (0, s') /\
    grants (vma_list s') 1073741825 (35, 7, None) /\ forall g, ~ grants (vma_list s') 1073745920 g.
Proof.
  eexists. split; [vm_compute; reflexivity|]. split.
  - eexists. split; [apply elem_of_cons; right; apply elem_of_cons; left; reflexivity|].
    split; [unfold contains; simpl; lia|reflexivity].
  - intros g (v & Hv & Hc & _). unfold contains in Hc. simpl in Hv.
    repeat (apply elem_of_cons in Hv as [->|Hv]; [simpl in Hc; lia|]). by apply elem_of_nil in Hv.
Qed.

(** Unmapping the head of a file mapping moves the rest of it in the
    file.  The VMA's start advances but its page offset does not, so the page
    that showed offset 4096 of the file is faulted in from offset 0. *)
Theorem do_munmap_shifts_file_offset :
  exists v s' v', vma_find (vma_list (proc [file0])) 1073745920 = Some v /\
    do_munmap 1073741824 4096 (proc [file0]) = (0, s') /\
    vma_find (vma_list s') 1073745920 = Some v' /\
    fault_file_off v 1073745920 = 4096 /\ fault_file_off v' 1073745920 = 0.
Proof.
  eexists file0, _, _. split; [reflexivity|]. split; [vm_compute; reflexivity|].
  split; [vm_compute; reflexivity|]. split; vm_compute; reflexivity.
Qed.

(** The fault handler reads the page from the unaligned fault address: a
    first touch at byte 291 of a page fills the page, mapped at its start,
    with the file's bytes from offset 291 on. *)
Theorem fault_offset_unaligned :
  fault_file_off file0 1073742115 = 291 /\ page_of 1073742115 = vm_start file0.
Proof. split; vm_compute; reflexivity. Qed.

(** Mprotect of one page of a larger mapping changes what every page of
    the mapping grants. *)
Theorem do_mprotect_spills :
  exists s', do_mprotect 1073745920 4096 0 (proc [heap_vma0; anon0]) = (0, s') /\
    grants [heap_vma0; anon0] 1073741824 (35, 7, None) /\ grants (vma_list s') 1073741824 (32, 4, None) /\
    ~ (1073745920 <= 1073741824).
Proof.
  eexists. split; [vm_compute; reflexivity|]. split_and!; [| |lia].
  - exists anon0. split; [rewrite !elem_of_cons; auto|]. split; [unfold contains; simpl; lia|reflexivity].
  - eexists. split; [apply elem_of_cons; right; apply elem_of_cons; left; reflexivity|].
    split; [unfold contains; simpl; lia|reflexivity].
Qed.

(** The process with one page of its mapping present. *)
Definition touched : psys :=
  set_pt (pt_map (pt (proc [heap_vma0; anon0])) 2101248 1073741824 7).2 (proc [heap_vma0; anon0]).

(** Mprotect tests the untruncated protection word for PROT_NONE but
    derives the page flags from its low 32 bits.  With bit 32 set the entry of
    a present page is rewritten neither valid nor marked PROT_NONE, so the
    frame is lost: munmap no longer frees it. *)
Theorem do_mprotect_wide_prot_loses_page :
  exists s' s'', has (pte touched 1073741824) PAGE_VALID = true /\
    do_mprotect 1073741824 4096 4294967296 touched = (0, s') /\
    has (pte s' 1073741824) (Z.lor PAGE_VALID PAGE_PROTNONE) = false /\
    do_munmap 1073741824 4096 s' = (0, s'') /\ sub s'' = sub touched.
Proof.
  eexists _, _. split; [vm_compute; reflexivity|]. split; [vm_compute; reflexivity|].
  split; [vm_compute; reflexivity|]. split; vm_compute; reflexivity.
Qed.

End demo.
End Vma.
