(* ===== verification/Malloc.v ===== *)
(** The user-space allocator of src/libc/stdlib/malloc.c: a first-fit free list
    threaded through the blocks that tile the heap, over the program break of
    the kernel.  The break is an interface, which the address spaces of Vma.v
    implement. *)

From stdpp Require Import base tactics numbers option sets sorting list.
From Stdlib Require Import ZArith Lia.
From S2P Require Import Prelude Pmm Subpage Vmm Vma.

Module Malloc.

(** ** Memory *)

(** Bytes at addresses, and the little-endian objects they hold. *)
Definition upd (a v : Z) (m : Z -> Z) : Z -> Z := fun x => if x =? a then v else m x.
Fixpoint ld (n : nat) (a : Z) (m : Z -> Z) : Z :=
  match n with O => 0 | S n => m a + 256 * ld n (a + 1) m end.
Fixpoint st (n : nat) (a v : Z) (m : Z -> Z) : Z -> Z :=
  match n with O => m | S n => st n (a + 1) (v / 256) (upd a (v mod 256) m) end.

Lemma st_out n : forall a v m x, x < a \/ a + Z.of_nat n <= x -> st n a v m x = m x.
Proof.
  induction n as [|n IH]; intros a v m x Hx; simpl; [done|]. rewrite IH by lia. unfold upd.
  destruct (Z.eqb_spec x a); [lia|done].
Qed.
Lemma ld_ext n : forall a m m', (forall x, a <= x < a + Z.of_nat n -> m' x = m x) -> ld n a m' = ld n a m.
Proof.
  induction n as [|n IH]; intros a m m' Hm; simpl; [done|]. rewrite Hm by lia. f_equal. f_equal. apply IH. intros x Hx. apply Hm. lia.
Qed.
Lemma ld_st n : forall a v m, 0 <= v < 256 ^ Z.of_nat n -> ld n a (st n a v m) = v.
Proof.
  induction n as [|n IH]; intros a v m Hv; simpl ld; simpl st; [change (256 ^ Z.of_nat 0) with 1 in Hv; lia|].
  rewrite Nat2Z.inj_succ, Z.pow_succ_r in Hv by lia. rewrite IH by (Z.div_mod_to_equations; lia).
  rewrite st_out by lia. unfold upd. rewrite Z.eqb_refl. Z.div_mod_to_equations; lia.
Qed.
Lemma ld_st_ne n k a b v m :
  a + Z.of_nat n <= b \/ b + Z.of_nat k <= a -> ld n a (st k b v m) = ld n a m.
Proof. intros H. apply ld_ext. intros x Hx. apply st_out. lia. Qed.

#[global] Arguments ld : simpl never.
#[global] Arguments st : simpl never.

(** ** The program break *)

(** What [SYS_brk] promises to the C library. *)
Class Break (K : Type) := {
  sys_brk : Z -> K -> Z * K;
  brk_start : K -> Z;
  brk_end : K -> Z;
  brk_inv : K -> Prop;
  brk_range : forall k, brk_inv k -> 0 < brk_start k <= brk_end k /\ brk_end k <= 1073741824 /\ brk_start k mod 16 = 0;
  brk_query : forall k, brk_inv k -> sys_brk 0 k = (brk_end k, k);
  brk_set : forall k a, brk_inv k -> brk_end k < a < U64 ->
    let '(r, k') := sys_brk a k in
    brk_inv k' /\ brk_start k' = brk_start k /\
    (r = a /\ brk_end k' = a \/ r < 0 /\ brk_end k' = brk_end k);
}.

(** ** Data *)

Abbreviation MALLOC_ALIGN := 16 (only parsing).
Abbreviation HEADER_SIZE := 16 (only parsing).
Abbreviation MIN_BLOCK_SIZE := 32 (only parsing).

Section malloc.
Context {K : Type} `{BK : Break K}.

Record heap := mk_heap {
  freelist : Z;
  heap_initialized : bool;
  errno : Z;
  mem : Z -> Z;
  kernel : K;
}.

Definition set_freelist (v : Z) (s : heap) : heap := mk_heap v (heap_initialized s) (errno s) (mem s) (kernel s).
Definition set_errno (v : Z) (s : heap) : heap := mk_heap (freelist s) (heap_initialized s) v (mem s) (kernel s).
Definition set_mem (m : Z -> Z) (s : heap) : heap := mk_heap (freelist s) (heap_initialized s) (errno s) m (kernel s).
Definition set_kernel (k : K) (s : heap) : heap := mk_heap (freelist s) (heap_initialized s) (errno s) (mem s) k.

(** Accesses to the heap, whose pages are mapped up to the rounded-up break;
    [None] is an access below or above them. *)
Definition mapped (n a : Z) (s : heap) : bool :=
  (brk_start (kernel s) <=? a) && (a + n <=? Prelude.align_up (brk_end (kernel s)) 4096).
Definition rd (n : nat) (a : Z) (s : heap) : option Z := if mapped (Z.of_nat n) a s then Some (ld n a (mem s)) else None.
Definition wr (n : nat) (a v : Z) (s : heap) : option heap :=
  if mapped (Z.of_nat n) a s then Some (set_mem (st n a v (mem s)) s) else None.

(** The fields of [block_header_t] and [free_block_t]. *)
Definition ld_size (b : Z) : heap -> option Z := rd 8 b.
Definition ld_is_free (b : Z) : heap -> option Z := rd 4 (b + 8).
Definition ld_next (b : Z) : heap -> option Z := rd 8 (b + 16).
Definition st_size (b v : Z) : heap -> option heap := wr 8 b v.
Definition st_is_free (b v : Z) : heap -> option heap := wr 4 (b + 8) v.
Definition st_next (b v : Z) : heap -> option heap := wr 8 (b + 16) v.

(** ** Operations *)

Definition get_brk (s : heap) : Z * heap :=
  let '(ret, k) := sys_brk 0 (kernel s) in (if ret <? 0 then 0 else ret, set_kernel k s).
Definition set_brk (addr : Z) (s : heap) : Z * heap :=
  let '(actual, k) := sys_brk addr (kernel s) in
  (if actual <? 0 then -1 else if addr <=? actual then 0 else -1, set_kernel k s).

Definition heap_init (s : heap) : heap := mk_heap 0 true (errno s) (mem s) (kernel s).
Definition align_up (n align : Z) : Z := (n +u align -u 1) &~ (align -u 1).

(** The bound of the loops: the blocks of a list do not overlap. *)
Definition fuel_of (s : heap) : nat := S (Z.to_nat (brk_end (kernel s) - brk_start (kernel s))).

(** [while (prev && prev->next != next_free) prev = prev->next;] *)
Fixpoint find_prev (fuel : nat) (prev next_free : Z) (s : heap) : option Z :=
  match fuel with
  | O => None
  | S fuel =>
    if prev =? 0 then Some 0 else
    nx ← ld_next prev s;
    if nx =? next_free then Some prev else find_prev fuel nx next_free s
  end.

Definition try_coalesce (block : Z) (s : heap) : option heap :=
  block_size ← ld_size block s;
  let next_addr := block +u block_size in
  let '(brk, s) := get_brk s in
  if brk <=? next_addr then Some s else
  next_is_free ← ld_is_free next_addr s;
  if next_is_free =? 0 then Some s else
  next_size ← ld_size next_addr s;
  s ← st_size block (block_size +u next_size) s;
  nn ← ld_next next_addr s;
  if freelist s =? next_addr then Some (set_freelist nn s)
  else
    prev ← find_prev (fuel_of s) (freelist s) next_addr s;
    if prev =? 0 then Some s else st_next prev nn s.

(** The search of [malloc]: the block found and its predecessor, 0 for none. *)
Fixpoint search (fuel : nat) (total prev block : Z) (s : heap) : option (Z * Z) :=
  match fuel with
  | O => None
  | S fuel =>
    if block =? 0 then Some (prev, 0) else
    sz ← ld_size block s;
    if total <=? sz then Some (prev, block)
    else nx ← ld_next block s; search fuel total block nx s
  end.

(** [if (prev) prev->next = v; else freelist = v;] *)
Definition relink (prev v : Z) (s : heap) : option heap :=
  if prev =? 0 then Some (set_freelist v s) else st_next prev v s.

(** The use of the block the search found. *)
Definition take_block (total prev block : Z) (s : heap) : option heap :=
  sz ← ld_size block s;
  let remain := sz -u total in
  s ← (if MIN_BLOCK_SIZE <=? remain then
         let new_hdr := block +u total in
         s ← st_size new_hdr remain s;
         s ← st_is_free new_hdr 1 s;
         nx ← ld_next block s;
         s ← st_next new_hdr nx s;
         s ← st_size block total s;
         relink prev new_hdr s
       else
         nx ← ld_next block s;
         relink prev nx s);
  st_is_free block 0 s.

(** [None] is a fault; a result of 0 is [NULL]. *)
Definition malloc (size : Z) (s : heap) : option (Z * heap) :=
  if size =? 0 then Some (0, s) else
  let s := if heap_initialized s then s else heap_init s in
  let total := align_up size MALLOC_ALIGN +u HEADER_SIZE in
  let total := if total <? MIN_BLOCK_SIZE then MIN_BLOCK_SIZE else total in
  '(prev, block) ← search (fuel_of s) total 0 (freelist s) s;
  if negb (block =? 0) then
    s ← take_block total prev block s;
    Some (block +u HEADER_SIZE, s)
  else
    let '(brk, s) := get_brk s in
    if brk =? 0 then Some (0, s) else
    let '(rc, s) := set_brk (brk +u total) s in
    if negb (rc =? 0) then Some (0, set_errno ENOMEM s) else
    s ← st_size brk total s;
    s ← st_is_free brk 0 s;
    Some (brk +u HEADER_SIZE, s).

Definition free (ptr : Z) (s : heap) : option heap :=
  if ptr =? 0 then Some s else
  if negb (heap_initialized s) then Some s else
  let hdr := ptr -u HEADER_SIZE in
  fr ← ld_is_free hdr s;
  if negb (fr =? 0) then Some s else
  s ← st_is_free hdr 1 s;
  s ← st_next hdr (freelist s) s;
  try_coalesce hdr (set_freelist hdr s).

(** [memcpy] between disjoint ranges. *)
Fixpoint copy_bytes (n : nat) (dst src : Z) (m : Z -> Z) : Z -> Z :=
  match n with O => m | S n => copy_bytes n (dst + 1) (src + 1) (upd dst (m src) m) end.
Definition memcpy (dst src n : Z) (s : heap) : option heap :=
  if (n =? 0) || (mapped n dst s && mapped n src s) then Some (set_mem (copy_bytes (Z.to_nat n) dst src (mem s)) s) else None.

Definition realloc (ptr size : Z) (s : heap) : option (Z * heap) :=
  if ptr =? 0 then malloc size s else
  if size =? 0 then s ← free ptr s; Some (0, s) else
  '(new, s) ← malloc size s;
  if new =? 0 then Some (0, s) else
  hsize ← ld_size (ptr -u HEADER_SIZE) s;
  let old_usable := hsize -u HEADER_SIZE in
  let copy := if old_usable <? size then old_usable else size in
  s ← memcpy new ptr copy s;
  s ← free ptr s;
  Some (new, s).

Fixpoint set_bytes (n : nat) (dst v : Z) (m : Z -> Z) : Z -> Z :=
  match n with O => m | S n => set_bytes n (dst + 1) v (upd dst (wrap8 v) m) end.
Definition memset (dst v n : Z) (s : heap) : option heap :=
  if (n =? 0) || mapped n dst s then Some (set_mem (set_bytes (Z.to_nat n) dst v (mem s)) s) else None.

(** The product is not checked. *)
Definition calloc (n size : Z) (s : heap) : option (Z * heap) :=
  let total := n *u size in
  '(ptr, s) ← malloc total s;
  if ptr =? 0 then Some (0, s) else
  s ← memset ptr 0 total s;
  Some (ptr, s).

(** ** The invariant *)

(** A block of the heap: its address, its size with the header, and whether it
    is free. *)
Record block := mk_block { addr : Z; bsize : Z; bfree : bool }.

#[export] Instance block_eq_dec : EqDecision block.
Proof. solve_decision. Defined.

Fixpoint tiled (a : Z) (bs : list block) (e : Z) : Prop :=
  match bs with
  | [] => a = e
  | b :: bs => addr b = a /\ MIN_BLOCK_SIZE <= bsize b /\ bsize b mod MALLOC_ALIGN = 0 /\ tiled (a + bsize b) bs e
  end.

Definition stored (m : Z -> Z) (b : block) : Prop :=
  ld 8 (addr b) m = bsize b /\ ld 4 (addr b + 8) m = if bfree b then 1 else 0.

(** The links from [p] through the free blocks at [xs] to [q]. *)
Fixpoint seg (m : Z -> Z) (p : Z) (xs : list Z) (q : Z) : Prop :=
  match xs with
  | [] => p = q
  | x :: xs => p = x /\ x <> 0 /\ seg m (ld 8 (x + 16) m) xs q
  end.

Definition used (bs : list block) : list block := List.filter (fun b => negb (bfree b)) bs.
Definition frees (bs : list block) : list Z := addr <$> List.filter bfree bs.

Record inv (s : heap) (bs : list block) (xs : list Z) : Prop := {
  i_brk : brk_inv (kernel s);
  i_tiled : tiled (brk_start (kernel s)) bs (brk_end (kernel s));
  i_stored : Forall (stored (mem s)) bs;
  i_chain : seg (mem s) (freelist s) xs 0;
  i_free : xs ≡ₚ frees bs;
  i_init : heap_initialized s = false -> bs = [];
}.

(** *** Tilings *)

Lemma tiled_app a l1 l2 e : tiled a (l1 ++ l2) e <-> exists x, tiled a l1 x /\ tiled x l2 e.
Proof.
  revert a. induction l1 as [|b l1 IH]; intros a; simpl; [naive_solver|]. rewrite IH. naive_solver.
Qed.
Lemma tiled_le a bs e : tiled a bs e -> a <= e.
Proof. revert a. induction bs as [|b bs IH]; intros a; simpl; [lia|]. intros (_ & ? & _ & ?%IH). lia. Qed.
Lemma tiled_fun a bs e e' : tiled a bs e -> tiled a bs e' -> e = e'.
Proof. revert a. induction bs as [|b bs IH]; intros a; simpl; [congruence|]. intros (_ & _ & _ & ?) (_ & _ & _ & ?). by eapply IH. Qed.
Lemma tiled_mod a bs e : tiled a bs e -> a mod 16 = 0 -> e mod 16 = 0.
Proof.
  revert a. induction bs as [|b bs IH]; intros a; simpl; [by intros ->|]. intros (_ & _ & Hm & Ht) Ha. apply (IH _ Ht). dlia.
Qed.
Lemma tiled_in a bs e b :
  tiled a bs e -> b ∈ bs -> a <= addr b /\ addr b + bsize b <= e /\ 32 <= bsize b /\ bsize b mod 16 = 0.
Proof.
  intros Ht (l1 & l2 & ->)%list_elem_of_split. apply tiled_app in Ht as (x & H1 & <- & H2 & H3 & H4).
  apply tiled_le in H1, H4. lia.
Qed.
Lemma tiled_in_mod a bs e b : tiled a bs e -> b ∈ bs -> a mod 16 = 0 -> addr b mod 16 = 0.
Proof.
  intros Ht (l1 & l2 & ->)%list_elem_of_split Ha. apply tiled_app in Ht as (x & H1 & <- & _). by eapply tiled_mod.
Qed.

Definition apart (b b' : block) : Prop := addr b + bsize b <= addr b' \/ addr b' + bsize b' <= addr b.
Lemma tiled_apart a l1 b l2 e b' : tiled a (l1 ++ b :: l2) e -> b' ∈ l1 ++ l2 -> apart b b'.
Proof.
  intros Ht Hin. apply tiled_app in Ht as (x & H1 & <- & H2 & _ & H4). apply elem_of_app in Hin as [Hin|Hin].
  - right. pose proof (tiled_in _ _ _ _ H1 Hin). lia.
  - left. pose proof (tiled_in _ _ _ _ H4 Hin). lia.
Qed.
Lemma tiled_same a bs e b b' : tiled a bs e -> b ∈ bs -> b' ∈ bs -> b = b' \/ apart b b'.
Proof.
  intros Ht (l1 & l2 & ->)%list_elem_of_split Hb'. rewrite elem_of_app, elem_of_cons in Hb'.
  destruct (decide (b' ∈ l1 ++ l2)) as [Hin|Hin].
  - right. by eapply tiled_apart.
  - left. rewrite elem_of_app in Hin. naive_solver.
Qed.

(** *** Headers and links *)

Lemma stored_same m m' b : (forall x, addr b <= x < addr b + 16 -> m' x = m x) -> stored m b -> stored m' b.
Proof.
  intros Hm [H1 H2]. split; [rewrite <- H1|rewrite <- H2]; apply ld_ext; intros x Hx; apply Hm; lia.
Qed.

Lemma seg_app m p l1 l2 q : seg m p (l1 ++ l2) q <-> exists r, seg m p l1 r /\ seg m r l2 q.
Proof. revert p. induction l1 as [|x l1 IH]; intros p; simpl; [naive_solver|]. rewrite IH. naive_solver. Qed.
Lemma seg_ext m m' p xs q :
  (forall x y, x ∈ xs -> x + 16 <= y < x + 24 -> m' y = m y) -> seg m p xs q -> seg m' p xs q.
Proof.
  revert p. induction xs as [|x xs IH]; intros p Hm; simpl; [done|]. intros (-> & Hx & Hs). split_and!; try done.
  replace (ld 8 (x + 16) m') with (ld 8 (x + 16) m); [|symmetry; apply ld_ext; intros y Hy; apply (Hm x); [left|lia]].
  apply IH; [|done]. intros z y Hz Hy. apply (Hm z); [by right|done].
Qed.

(** The head of a chain, and the predecessor of the rest of one. *)
Lemma seg_first m p xs : seg m p xs 0 -> p = default 0 (head xs).
Proof. destruct xs; simpl; naive_solver. Qed.
Lemma seg_last m p l y q : seg m p (l ++ [y]) q <-> seg m p l y /\ y <> 0 /\ ld 8 (y + 16) m = q.
Proof. rewrite seg_app. simpl. naive_solver. Qed.

(** The free blocks of a list, by address. *)
Lemma frees_in bs x : x ∈ frees bs <-> exists b, b ∈ bs /\ bfree b = true /\ addr b = x.
Proof.
  unfold frees. rewrite list_elem_of_fmap. split.
  - intros (b & -> & Hb%list_elem_of_In%filter_In). rewrite <- list_elem_of_In in Hb. exists b. tauto.
  - intros (b & Hb & Hf & <-). exists b. split; [done|]. apply list_elem_of_In, filter_In. by rewrite <- list_elem_of_In.
Qed.
Lemma used_in bs b : b ∈ used bs <-> b ∈ bs /\ bfree b = false.
Proof. unfold used. rewrite list_elem_of_In, filter_In, <- list_elem_of_In, negb_true_iff. done. Qed.
Lemma used_app l1 l2 : used (l1 ++ l2) = used l1 ++ used l2.
Proof. apply List.filter_app. Qed.
Lemma frees_app l1 l2 : frees (l1 ++ l2) = frees l1 ++ frees l2.
Proof. unfold frees. by rewrite List.filter_app, fmap_app. Qed.

Lemma tiled_nodup a bs e : tiled a bs e -> NoDup (addr <$> bs).
Proof.
  revert a. induction bs as [|b bs IH]; intros a Ht; simpl; [constructor|]. pose proof Ht as (Ha & H32 & _ & Ht').
  constructor; [|by eapply IH]. rewrite list_elem_of_fmap. intros (b' & E & Hb'). pose proof (tiled_in _ _ _ _ Ht' Hb'). lia.
Qed.
Lemma frees_nodup a bs e : tiled a bs e -> NoDup (frees bs).
Proof.
  intros Ht%tiled_nodup. revert Ht. unfold frees. induction bs as [|b bs IH]; simpl; [done|].
  intros [Hn Hd]%NoDup_cons. destruct (bfree b); [|by apply IH]. simpl. constructor; [|by apply IH].
  intros (b' & E & Hb'%list_elem_of_In%filter_In)%list_elem_of_fmap. apply Hn. rewrite E. apply list_elem_of_fmap_2.
  apply list_elem_of_In. tauto.
Qed.

Lemma length_frees a bs e : tiled a bs e -> Z.of_nat (length (frees bs)) <= e - a.
Proof.
  revert a. induction bs as [|b bs IH]; intros a; [simpl; lia|]. intros (_ & H32 & _ & Ht%IH).
  assert (length (frees (b :: bs)) <= S (length (frees bs)))%nat by (unfold frees; rewrite !length_fmap; simpl; destruct (bfree b); simpl; lia). lia.
Qed.

(** The facts about a block of the heap that bound the accesses to it. *)
Lemma block_facts s bs xs b :
  inv s bs xs -> b ∈ bs ->
  brk_start (kernel s) <= addr b /\ addr b + bsize b <= brk_end (kernel s) /\ 32 <= bsize b /\ bsize b mod 16 = 0 /\
  0 < addr b /\ brk_end (kernel s) <= 1073741824 /\ addr b mod 16 = 0 /\ stored (mem s) b.
Proof.
  intros H Hb. pose proof (brk_range _ (i_brk _ _ _ H)). pose proof (tiled_in _ _ _ _ (i_tiled _ _ _ H) Hb).
  pose proof (tiled_in_mod _ _ _ _ (i_tiled _ _ _ H) Hb). pose proof (i_stored _ _ _ H) as Hs. rewrite Forall_forall in Hs.
  split_and!; try lia; auto.
Qed.

Lemma mapped_in s n a : brk_start (kernel s) <= a -> a + n <= brk_end (kernel s) -> mapped n a s = true.
Proof. intros. unfold mapped. pose proof (align_up_bounds (brk_end (kernel s)) 4096 ltac:(lia)). apply andb_true_iff. lia. Qed.

(** Loads and stores of the fields of a block succeed. *)
Lemma ld_block s bs xs b :
  inv s bs xs -> b ∈ bs ->
  ld_size (addr b) s = Some (bsize b) /\ ld_is_free (addr b) s = Some (if bfree b then 1 else 0) /\
  ld_next (addr b) s = Some (ld 8 (addr b + 16) (mem s)).
Proof.
  intros H Hb. destruct (block_facts _ _ _ _ H Hb) as (? & ? & ? & ? & ? & ? & ? & [H1 H2]).
  unfold ld_size, ld_is_free, ld_next, rd. rewrite !mapped_in by lia. by rewrite H1, H2.
Qed.
Lemma st_in s a v n : brk_start (kernel s) <= a -> a + Z.of_nat n <= brk_end (kernel s) ->
  wr n a v s = Some (set_mem (st n a v (mem s)) s).
Proof. intros. unfold wr. by rewrite mapped_in. Qed.

Lemma chain_block s bs xs x : inv s bs xs -> x ∈ xs -> exists b, b ∈ bs /\ bfree b = true /\ addr b = x.
Proof. intros H Hx. rewrite (i_free _ _ _ H) in Hx. by apply frees_in. Qed.
Lemma chain_nodup s bs xs : inv s bs xs -> NoDup xs.
Proof. intros H. rewrite (i_free _ _ _ H). eapply frees_nodup, (i_tiled _ _ _ H). Qed.
Lemma chain_length s bs xs : inv s bs xs -> (length xs < fuel_of s)%nat.
Proof.
  intros H. pose proof (length_frees _ _ _ (i_tiled _ _ _ H)). rewrite <- (Permutation_length (i_free _ _ _ H)) in H0. unfold fuel_of. lia.
Qed.

(** A free block at [x] is large enough for [t] bytes. *)
Definition fitting (bs : list block) (t x : Z) : Prop := exists b, b ∈ bs /\ bfree b = true /\ addr b = x /\ t <= bsize b.
Lemma fitting_size s bs xs t b : inv s bs xs -> b ∈ bs -> fitting bs t (addr b) -> t <= bsize b.
Proof.
  intros H Hb (c & Hc & _ & Ea & Ht). pose proof (block_facts _ _ _ _ H Hc). pose proof (block_facts _ _ _ _ H Hb).
  destruct (tiled_same _ _ _ _ _ (i_tiled _ _ _ H) Hc Hb) as [->|[]]; lia.
Qed.

(** The search stops at the first free block that is large enough. *)
Lemma search_spec s bs xs total : inv s bs xs -> forall ys prev p fuel,
  (forall y, y ∈ ys -> y ∈ xs) -> seg (mem s) p ys 0 -> (length ys < fuel)%nat ->
  (search fuel total prev p s = Some (default prev (last ys), 0) /\ forall y, y ∈ ys -> ~ fitting bs total y) \/
  (exists l1 b l2, ys = l1 ++ addr b :: l2 /\ b ∈ bs /\ bfree b = true /\ total <= bsize b /\
     (forall y, y ∈ l1 -> ~ fitting bs total y) /\
     search fuel total prev p s = Some (default prev (last l1), addr b)).
Proof.
  intros H. induction ys as [|y ys IH]; intros prev p [|fuel] Hys Hseg Hf; simpl in Hf; try lia; simpl.
  { simpl in Hseg. subst p. left. split; [done|]. intros y Hy. by apply elem_of_nil in Hy. }
  destruct Hseg as (-> & Hy0 & Hseg). destruct (chain_block s bs xs y H) as (b & Hb & Hfr & <-); [apply Hys; left|].
  rewrite (proj2 (Z.eqb_neq _ _) Hy0). destruct (ld_block s bs xs b H Hb) as (-> & _ & ->). cbn [mbind option_bind].
  destruct (Z.leb_spec total (bsize b)) as [Hle|Hgt].
  { right. exists [], b, ys. split_and!; try done. intros y Hy. by apply elem_of_nil in Hy. }
  assert (~ fitting bs total (addr b)) as Hno by (intros Hn%(fitting_size s bs xs); [lia|done..]).
  destruct (IH (addr b) _ fuel ltac:(set_solver) Hseg ltac:(lia)) as [[-> Hn]|(l1 & b' & l2 & -> & Hb' & Hf' & Ht & Hn & ->)].
  - left. split; [|intros y [->|Hy]%elem_of_cons; auto]. f_equal. f_equal. destruct ys as [|z ys] using rev_ind; [done|]. by rewrite app_comm_cons, !last_snoc.
  - right. exists (addr b :: l1), b', l2. split_and!; try done; [intros y [->|Hy]%elem_of_cons; auto|]. f_equal. f_equal.
    destruct l1 as [|z l1] using rev_ind; [done|]. by rewrite app_comm_cons, !last_snoc.
Qed.

Lemma find_prev_spec s z : forall ys p fuel l1 l2,
  ys = l1 ++ z :: l2 -> l1 <> [] -> (forall y, y ∈ ys -> brk_start (kernel s) <= y /\ y + 24 <= brk_end (kernel s)) ->
  NoDup ys -> seg (mem s) p ys 0 -> (length ys < fuel)%nat ->
  find_prev fuel p z s = Some (default 0 (last l1)).
Proof.
  induction ys as [|y ys IH]; intros p [|fuel] l1 l2 E Hl1 Hys Hnd Hseg Hf; simpl in Hf; try lia; simpl.
  { by destruct l1. }
  destruct Hseg as (-> & Hy0 & Hseg). rewrite (proj2 (Z.eqb_neq _ _) Hy0).
  destruct (Hys y) as [? ?]; [left|]. unfold ld_next, rd. rewrite mapped_in by lia. cbn [mbind option_bind].
  destruct l1 as [|y1 l1]; [done|]. injection E as <- ->. pose proof (seg_first _ _ _ Hseg) as Ef. apply NoDup_cons in Hnd as [_ Hnd].
  destruct l1 as [|y2 l1].
  - simpl in Ef. by rewrite Ef, Z.eqb_refl.
  - rewrite Ef. simpl default. assert (y2 <> z) as Hne.
    { intros ->. simpl in Hnd. apply NoDup_cons in Hnd as [Hnd _]. set_solver. }
    rewrite (proj2 (Z.eqb_neq _ _) Hne). rewrite Ef in Hseg. simpl default in Hseg.
    rewrite (IH y2 fuel (y2 :: l1) l2); try done; [set_solver|lia].
Qed.

(** Addresses of blocks: distinct ones are at least a minimal block apart. *)
Definition spaced (xs : list Z) : Prop :=
  NoDup xs /\ forall y z, y ∈ xs -> z ∈ xs -> y = z \/ y + 32 <= z \/ z + 32 <= y.

Lemma chain_spaced s bs xs : inv s bs xs -> spaced xs.
Proof.
  intros H. split; [by eapply chain_nodup|]. intros y z Hy Hz.
  destruct (chain_block s bs xs y H Hy) as (b & Hb & _ & <-). destruct (chain_block s bs xs z H Hz) as (c & Hc & _ & <-).
  pose proof (block_facts _ _ _ _ H Hb). pose proof (block_facts _ _ _ _ H Hc).
  destruct (tiled_same _ _ _ _ _ (i_tiled _ _ _ H) Hb Hc) as [->|[]]; lia.
Qed.

(** Redirecting the link that leads to the rest of a chain. *)
Lemma relink_spec s l1 q v l2 :
  seg (mem s) (freelist s) l1 q -> seg (mem s) v l2 0 -> spaced (l1 ++ l2) -> 0 <= v < U64 ->
  (forall y, y ∈ l1 -> brk_start (kernel s) <= y /\ y + 24 <= brk_end (kernel s)) ->
  exists s', relink (default 0 (last l1)) v s = Some s' /\ seg (mem s') (freelist s') (l1 ++ l2) 0 /\
    kernel s' = kernel s /\ heap_initialized s' = heap_initialized s /\
    (forall x, (forall y, y ∈ l1 -> x < y + 16 \/ y + 24 <= x) -> mem s' x = mem s x).
Proof.
  intros H1 H2 [Hnd Hsp] Hv Hr. unfold relink. destruct l1 as [|y l1 _] using rev_ind; simpl default.
  { exists (set_freelist v s). by split_and!. }
  rewrite last_snoc. simpl default. apply seg_last in H1 as (H1 & Hy0 & _). rewrite (proj2 (Z.eqb_neq _ _) Hy0).
  destruct (Hr y) as [Hr1 Hr2]; [set_solver|]. unfold st_next. rewrite st_in by lia. eexists. split; [done|]. simpl.
  rewrite <- app_assoc in *. simpl in *.
  assert (forall z x, z ∈ l1 ++ l2 -> z + 16 <= x < z + 24 -> st 8 (y + 16) v (mem s) x = mem s x) as Hout.
  { intros z x Hz Hx. apply st_out. assert (z <> y) as Hne.
    { intros ->. apply NoDup_app in Hnd as (_ & Hn1 & [Hn2 _]%NoDup_cons). apply elem_of_app in Hz as [Hz|Hz]; [|done].
      apply (Hn1 y Hz). left. }
    destruct (Hsp z y) as [?|?]; [set_solver|set_solver|done|lia]. }
  split_and!; try done.
  - apply seg_app. exists y. split.
    + eapply seg_ext; [|exact H1]. intros z x Hz. apply (Hout z). set_solver.
    + simpl. split_and!; try done. rewrite ld_st by (change (256 ^ Z.of_nat 8) with U64; lia).
      eapply seg_ext; [|exact H2]. intros z x Hz. apply (Hout z). set_solver.
  - intros x Hx. destruct (Hx y); [set_solver| |]; apply st_out; lia.
Qed.

(** The blocks around the blocks [ol], which span [a0] to [e0]. *)
Lemma tiled_mid a B1 ol B2 e :
  tiled a (B1 ++ ol ++ B2) e <-> exists a0 e0, tiled a B1 a0 /\ tiled a0 ol e0 /\ tiled e0 B2 e.
Proof. rewrite tiled_app. setoid_rewrite tiled_app. naive_solver. Qed.

(** [m'] differs from [m] only between [a0] and [e0] and in the links of the
    blocks at [ys]. *)
Definition rewritten (a0 e0 : Z) (ys : list Z) (m m' : Z -> Z) : Prop :=
  forall x, x < a0 \/ e0 <= x -> (forall y, y ∈ ys -> x < y + 16 \/ y + 24 <= x) -> m' x = m x.

(** Replacing the blocks [ol] by [nl]. *)
Lemma inv_replace s s' B1 ol nl B2 xs xs' ys a0 e0 :
  inv s (B1 ++ ol ++ B2) xs -> kernel s' = kernel s -> heap_initialized s' = heap_initialized s ->
  tiled (brk_start (kernel s)) B1 a0 -> tiled a0 ol e0 -> tiled a0 nl e0 -> ol <> [] ->
  Forall (stored (mem s')) nl -> (forall y, y ∈ ys -> y ∈ xs) -> rewritten a0 e0 ys (mem s) (mem s') ->
  seg (mem s') (freelist s') xs' 0 -> xs' ≡ₚ frees (B1 ++ nl ++ B2) ->
  inv s' (B1 ++ nl ++ B2) xs' /\
  (forall u x, u ∈ used (B1 ++ B2) -> addr u <= x < addr u + bsize u -> mem s' x = mem s x).
Proof.
  intros H Ek Ei H1 Ho Hn Hne Hst Hys Hm Hseg Hfr.
  assert (tiled e0 B2 (brk_end (kernel s))) as H2.
  { pose proof (i_tiled _ _ _ H) as Ht. apply tiled_mid in Ht as (a1 & e1 & T1 & T2 & T3).
    assert (a1 = a0) as -> by (eapply tiled_fun; done). by assert (e1 = e0) as -> by (eapply tiled_fun; done). }
  assert (forall c, c ∈ B1 ++ B2 -> (addr c + bsize c <= a0 \/ e0 <= addr c) /\ 32 <= bsize c /\ c ∈ B1 ++ ol ++ B2) as Hc.
  { intros c [Hc|Hc]%elem_of_app; [pose proof (tiled_in _ _ _ _ H1 Hc)|pose proof (tiled_in _ _ _ _ H2 Hc)];
      (split_and!; [lia|lia|set_solver]). }
  assert (forall c y, c ∈ B1 ++ B2 -> y ∈ ys -> (addr c = y /\ bfree c = true) \/ y + 32 <= addr c \/ addr c + bsize c <= y) as Hcy.
  { intros c y Hin Hy. destruct (Hc c Hin) as (_ & _ & Hin'). destruct (chain_block s _ xs y H (Hys y Hy)) as (d & Hd & Hf & <-).
    pose proof (tiled_in _ _ _ _ (i_tiled _ _ _ H) Hd). destruct (tiled_same _ _ _ _ _ (i_tiled _ _ _ H) Hin' Hd) as [->|[]]; [by left|lia..]. }
  split; [split|].
  - rewrite Ek. apply H.
  - rewrite Ek. apply tiled_mid. by exists a0, e0.
  - pose proof (i_stored _ _ _ H) as Hs. rewrite !Forall_app in *. destruct Hs as (Hs1 & _ & Hs2).
    assert (Forall (stored (mem s')) (B1 ++ B2)) as Hs; [|rewrite Forall_app in Hs; tauto].
    rewrite Forall_forall. intros c Hin. destruct (Hc c Hin) as (Hr & H32 & _). apply (stored_same (mem s)).
    + intros x Hx. apply Hm; [lia|]. intros y Hy. destruct (Hcy c y Hin Hy); lia.
    + rewrite Forall_forall in Hs1, Hs2. apply elem_of_app in Hin as [?|?]; auto.
  - done.
  - done.
  - rewrite Ei. intros E. pose proof (i_init _ _ _ H E) as En. apply app_eq_nil in En as [_ En]. apply app_eq_nil in En as [? _]. done.
  - intros u x [Hu Hf]%used_in Hx. destruct (Hc u Hu) as (Hr & _ & _). apply Hm; [lia|]. intros y Hy.
    destruct (Hcy u y Hu Hy) as [[_ ?]|?]; [congruence|lia].
Qed.

(** What a successful allocation does: [b'] is a new block in use, and the
    blocks that were in use keep their contents. *)
Definition allocated (s s' : heap) (bs bs' : list block) (b' : block) (total : Z) : Prop :=
  bfree b' = false /\ total <= bsize b' /\ used bs' ≡ₚ b' :: used bs /\
  (forall u x, u ∈ used bs -> addr u <= x < addr u + bsize u -> mem s' x = mem s x).

(** The free list around the free block [b]. *)
Lemma chain_split s bs l1 b l2 :
  inv s bs (l1 ++ addr b :: l2) -> b ∈ bs ->
  seg (mem s) (freelist s) l1 (addr b) /\ seg (mem s) (ld 8 (addr b + 16) (mem s)) l2 0 /\
  0 <= ld 8 (addr b + 16) (mem s) < 1073741824 /\
  (forall y, y ∈ l1 ++ l2 -> (y + 32 <= addr b \/ addr b + bsize b <= y) /\ y <> addr b) /\
  (forall y, y ∈ l1 ++ l2 -> brk_start (kernel s) <= y /\ y + 24 <= brk_end (kernel s)) /\ spaced (l1 ++ l2).
Proof.
  intros H Hb. pose proof (i_chain _ _ _ H) as Hs. apply seg_app in Hs as (r & Hs1 & -> & H0 & Hs2).
  pose proof (chain_spaced _ _ _ H) as [Hnd Hsp].
  assert (forall y, y ∈ l1 ++ l2 -> exists c, c ∈ bs /\ addr c = y /\ c <> b) as Hin.
  { intros y Hy. destruct (chain_block s bs _ y H) as (c & Hc & _ & <-); [set_solver|]. exists c. split_and!; try done. intros ->.
    apply NoDup_app in Hnd as (_ & N1 & [N2 _]%NoDup_cons). apply elem_of_app in Hy as [Hy|Hy]; [|done]. apply (N1 _ Hy). left. }
  split_and!; try done.
  - rewrite (seg_first _ _ _ Hs2). destruct l2 as [|y l2]; [simpl; lia|]. simpl. destruct (Hin y) as (c & Hc & <- & _); [set_solver|].
    pose proof (block_facts _ _ _ _ H Hc). lia.
  - rewrite (seg_first _ _ _ Hs2). destruct l2 as [|y l2]; [simpl; lia|]. simpl. destruct (Hin y) as (c & Hc & <- & _); [set_solver|].
    pose proof (block_facts _ _ _ _ H Hc). lia.
  - intros y Hy. destruct (Hin y Hy) as (c & Hc & <- & Hne). pose proof (block_facts _ _ _ _ H Hc). pose proof (block_facts _ _ _ _ H Hb).
    destruct (tiled_same _ _ _ _ _ (i_tiled _ _ _ H) Hc Hb) as [?|[]]; [done|lia..].
  - intros y Hy. destruct (Hin y Hy) as (c & Hc & <- & _). pose proof (block_facts _ _ _ _ H Hc). lia.
  - apply NoDup_app in Hnd as (N0 & N1 & [N2 N3]%NoDup_cons). split.
    + apply NoDup_app. split_and!; try done. intros x Hx. specialize (N1 x Hx). set_solver.
    + intros y z Hy Hz. apply Hsp; set_solver.
Qed.

Lemma take_whole s B1 b B2 l1 l2 total :
  inv s (B1 ++ [b] ++ B2) (l1 ++ addr b :: l2) -> bfree b = true -> total <= bsize b -> bsize b - total < MIN_BLOCK_SIZE ->
  0 <= total ->
  exists s' bs' xs', take_block total (default 0 (last l1)) (addr b) s = Some s' /\ inv s' bs' xs' /\
    allocated s s' (B1 ++ [b] ++ B2) bs' (mk_block (addr b) (bsize b) false) total.
Proof.
  intros H Hf Ht Hrem H0. assert (b ∈ B1 ++ [b] ++ B2) as Hb by set_solver.
  destruct (chain_split _ _ _ _ _ H Hb) as (Hs1 & Hs2 & Hnx & Hout & Hr & Hsp).
  destruct (block_facts _ _ _ _ H Hb) as (F1 & F2 & F3 & F4 & F5 & F6 & F7 & [F8 F9]).
  destruct (ld_block _ _ _ _ H Hb) as (E1 & _ & E3). unfold take_block. rewrite E1. cbn [mbind option_bind].
  rewrite (wrap64_small (bsize b - total)) by lia. rewrite (proj2 (Z.leb_gt _ _) Hrem), E3. cbn [mbind option_bind].
  destruct (relink_spec s l1 (addr b) _ l2 Hs1 Hs2 Hsp ltac:(lia)) as (s1 & -> & Hseg & Ek & Ei & Hm1); [intros y Hy; apply Hr; set_solver|].
  cbn [mbind option_bind]. unfold st_is_free. rewrite st_in by (rewrite Ek; lia). eexists _, _, _. split; [done|].
  set (m' := st 4 (addr b + 8) 0 (mem s1)). set (s' := set_mem m' s1).
  pose proof (i_tiled _ _ _ H) as Htl. apply tiled_mid in Htl as (a0 & e0 & T1 & T2 & T3). pose proof T2 as (<- & _ & _ & <-).
  assert (rewritten (addr b) (addr b + bsize b) l1 (mem s) m') as Hrw.
  { intros x Hx Hy. unfold m'. rewrite st_out by lia. by apply Hm1. }
  destruct (inv_replace s s' B1 [b] [mk_block (addr b) (bsize b) false] B2 _ (l1 ++ l2) l1 (addr b) (addr b + bsize b) H Ek Ei T1 T2)
    as [Hinv Huse]; try done; [..|split; [exact Hinv|]].
  - repeat constructor; simpl; unfold m'.
    + rewrite ld_st_ne by lia. rewrite <- F8. apply ld_ext. intros x Hx. apply Hm1. intros y Hy. destruct (Hout y); [set_solver|]. lia.
    + by rewrite ld_st.
  - set_solver.
  - simpl. unfold m'. eapply seg_ext; [|exact Hseg]. intros y x Hy Hx. apply st_out. destruct (Hout y Hy). lia.
  - apply (Permutation_cons_inv (a := addr b)). rewrite Permutation_middle, (i_free _ _ _ H). rewrite !frees_app.
    unfold frees at 2. simpl. rewrite Hf. simpl. unfold frees at 4. simpl. by rewrite <- Permutation_middle.
  - split_and!; try done; rewrite !used_app; unfold used at 2; simpl; [rewrite ?Hf; simpl; by rewrite <- Permutation_middle|].
    rewrite Hf. simpl. intros u x Hu. apply Huse. by rewrite used_app.
Qed.

Lemma take_split s B1 b B2 l1 l2 total :
  inv s (B1 ++ [b] ++ B2) (l1 ++ addr b :: l2) -> bfree b = true -> MIN_BLOCK_SIZE <= bsize b - total ->
  MIN_BLOCK_SIZE <= total -> total mod 16 = 0 ->
  exists s' bs' xs', take_block total (default 0 (last l1)) (addr b) s = Some s' /\ inv s' bs' xs' /\
    allocated s s' (B1 ++ [b] ++ B2) bs' (mk_block (addr b) total false) total.
Proof.
  intros H Hf Hrem Htot Hmod. assert (b ∈ B1 ++ [b] ++ B2) as Hb by set_solver.
  destruct (chain_split _ _ _ _ _ H Hb) as (Hs1 & Hs2 & Hnx & Hout & Hr & Hsp).
  destruct (block_facts _ _ _ _ H Hb) as (F1 & F2 & F3 & F4 & F5 & F6 & F7 & [F8 F9]).
  destruct (ld_block _ _ _ _ H Hb) as (E1 & _ & E3). unfold take_block. rewrite E1. cbn [mbind option_bind].
  rewrite (wrap64_small (bsize b - total)) by lia. rewrite (proj2 (Z.leb_le _ _) Hrem). cbv zeta.
  rewrite (wrap64_small (addr b + total)) by lia. set (nh := addr b + total). set (rem := bsize b - total).
  unfold st_size, st_is_free, st_next, ld_next, rd.
  rewrite st_in by (unfold nh; lia). cbn [mbind option_bind]. rewrite st_in by (simpl; unfold nh; lia). cbn [mbind option_bind].
  rewrite mapped_in by (simpl; lia). cbn [mbind option_bind]. rewrite st_in by (simpl; unfold nh; lia). cbn [mbind option_bind].
  rewrite st_in by (simpl; lia). cbn [mbind option_bind]. simpl mem. simpl set_mem.
  assert (ld 8 (addr b + 16) (st 4 (nh + 8) 1 (st 8 nh rem (mem s))) = ld 8 (addr b + 16) (mem s)) as Enx.
  { unfold nh. by rewrite !ld_st_ne by lia. }
  rewrite Enx. set (nx := ld 8 (addr b + 16) (mem s)) in *.
  set (m4 := st 8 (addr b) total _).
  match goal with |- context [relink _ _ ?h] => set (s4 := h) end.
  assert (forall x, x < addr b \/ addr b + bsize b <= x -> m4 x = mem s x) as Hm4.
  { intros x Hx. unfold m4, nh. by rewrite !st_out by lia. }
  assert (seg (mem s4) (freelist s4) l1 (addr b)) as Hs4.
  { eapply seg_ext; [|exact Hs1]. intros y x Hy Hx. apply Hm4. destruct (Hout y); [set_solver|]. lia. }
  assert (seg (mem s4) nh (nh :: l2) 0) as Hs5.
  { simpl. split_and!; [done|unfold nh; lia|]. replace (ld 8 (nh + 16) m4) with nx.
    - eapply seg_ext; [|exact Hs2]. intros y x Hy Hx. apply Hm4. destruct (Hout y); [set_solver|]. lia.
    - unfold m4. rewrite ld_st_ne by (unfold nh; lia). rewrite ld_st; [done|change (256 ^ Z.of_nat 8) with U64; lia]. }
  assert (spaced (l1 ++ nh :: l2)) as Hsp'.
  { destruct Hsp as [N S]. assert (forall y, y ∈ l1 ++ l2 -> y + 32 <= nh \/ nh + 32 <= y) as Hnh.
    { intros y Hy. destruct (Hout y Hy). unfold nh. lia. }
    split.
    - rewrite <- Permutation_middle. constructor; [|done]. intros Hin%Hnh. lia.
    - intros y z. rewrite !elem_of_app, !elem_of_cons. setoid_rewrite elem_of_app in S. setoid_rewrite elem_of_app in Hnh.
      intros Hy Hz. destruct (decide (y = nh)) as [->|]; destruct (decide (z = nh)) as [->|]; [by left|..].
      + right. destruct (Hnh z); [tauto|lia..].
      + right. destruct (Hnh y); [tauto|lia..].
      + apply S; tauto. }
  destruct (relink_spec s4 l1 (addr b) nh (nh :: l2) Hs4 Hs5 Hsp' ltac:(unfold nh; lia)) as (s5 & -> & Hseg & Ek & Ei & Hm5);
    [intros y Hy; apply Hr; set_solver|]. cbn [mbind option_bind]. rewrite st_in by (rewrite Ek; simpl; lia).
  eexists _, _, _. split; [done|]. set (m' := st 4 (addr b + 8) 0 (mem s5)). set (s' := set_mem m' s5).
  pose proof (i_tiled _ _ _ H) as Htl. apply tiled_mid in Htl as (a0 & e0 & T1 & T2 & T3). pose proof T2 as (<- & _ & _ & <-).
  destruct (inv_replace s s' B1 [b] [mk_block (addr b) total false; mk_block nh rem true] B2 _ (l1 ++ nh :: l2) l1
    (addr b) (addr b + bsize b) H Ek Ei T1 T2) as [Hinv Huse]; try done; [..|split; [exact Hinv|]].
  - simpl. unfold nh, rem. split_and!; try lia; dlia.
  - assert (forall x, addr b <= x < addr b + bsize b -> mem s5 x = m4 x) as H54.
    { intros x Hx. apply Hm5. intros y Hy. destruct (Hout y); [set_solver|]. lia. }
    repeat constructor; simpl; unfold m'.
    + rewrite ld_st_ne by lia. rewrite (ld_ext _ _ m4) by (intros; apply H54; lia). unfold m4. apply ld_st. change (256 ^ Z.of_nat 8) with U64. lia.
    + by rewrite ld_st.
    + rewrite ld_st_ne by (unfold nh; lia). rewrite (ld_ext _ _ m4) by (intros; apply H54; unfold nh in *; lia). unfold m4, nh.
      rewrite !ld_st_ne by lia. apply ld_st. change (256 ^ Z.of_nat 8) with U64. unfold rem. lia.
    + rewrite ld_st_ne by (unfold nh; lia). rewrite (ld_ext _ _ m4) by (intros; apply H54; unfold nh in *; lia). unfold m4, nh.
      rewrite 2!ld_st_ne by lia. by apply ld_st.
  - set_solver.
  - intros x Hx Hy. simpl. unfold m'. rewrite st_out by lia. rewrite Hm5 by done. apply Hm4. lia.
  - simpl. unfold m'. eapply seg_ext; [|exact Hseg]. intros y x Hy Hx. apply st_out.
    apply elem_of_app in Hy as [Hy|[->|Hy]%elem_of_cons]; [destruct (Hout y); [set_solver|]|unfold nh in *|destruct (Hout y); [set_solver|]]; lia.
  - rewrite <- Permutation_middle. pose proof (i_free _ _ _ H) as Hp. rewrite <- Permutation_middle in Hp. rewrite !frees_app in *.
    unfold frees in Hp at 2. simpl in Hp. rewrite Hf in Hp. simpl in Hp. unfold frees at 2. simpl. rewrite <- Permutation_middle in Hp |- *.
    by apply Permutation_cons_inv in Hp as ->.
  - split_and!; try done; rewrite !used_app; unfold used at 2; simpl; [rewrite ?Hf; simpl; by rewrite <- Permutation_middle|].
    rewrite Hf. simpl. intros u x Hu. apply Huse. by rewrite used_app.
Qed.

(** The total size of a block for a request, without wrap-around. *)
Definition need (size : Z) : Z := Prelude.align_up size 16 + 16.

Lemma need_facts size : 0 < size -> size <= need size - 16 /\ 32 <= need size < size + 32 /\ need size mod 16 = 0.
Proof. intros Hs. unfold need, Prelude.align_up. split_and!; dlia. Qed.
Lemma total_need size : 0 < size <= 9223372036854775808 ->
  (let total := align_up size MALLOC_ALIGN +u HEADER_SIZE in if total <? MIN_BLOCK_SIZE then MIN_BLOCK_SIZE else total) = need size.
Proof.
  intros Hs. assert (align_up size 16 = Prelude.align_up size 16) as E.
  { unfold align_up. change (16 -u 1) with (2 ^ 4 - 1). replace (size +u 16 -u 1) with (size +u (2 ^ 4 - 1)).
    - change (Prelude.align_up size 16) with (Prelude.align_up size (2 ^ 4)). apply round_up_mask; lia.
    - change (2 ^ 4 - 1) with 15. rewrite (wrap64_small (size + 16)), !wrap64_small by lia. lia. }
  rewrite E. cbv zeta. pose proof (need_facts size ltac:(lia)). fold (need size). unfold need in *.
  rewrite wrap64_small by lia. destruct (Z.ltb_spec (Prelude.align_up size 16 + 16) 32); lia.
Qed.

Lemma get_brk_spec s bs xs : inv s bs xs -> get_brk s = (brk_end (kernel s), s).
Proof.
  intros H. unfold get_brk. rewrite (brk_query _ (i_brk _ _ _ H)). pose proof (brk_range _ (i_brk _ _ _ H)).
  destruct (Z.ltb_spec (brk_end (kernel s)) 0); [lia|]. by destruct s.
Qed.

Lemma inv_grow s bs xs k total s' :
  inv s bs xs -> heap_initialized s = true -> brk_inv k -> brk_start k = brk_start (kernel s) ->
  brk_end k = brk_end (kernel s) + total -> 32 <= total -> total mod 16 = 0 ->
  s' = set_mem (st 4 (brk_end (kernel s) + 8) 0 (st 8 (brk_end (kernel s)) total (mem s))) (set_kernel k s) ->
  inv s' (bs ++ [mk_block (brk_end (kernel s)) total false]) xs /\
  allocated s s' bs (bs ++ [mk_block (brk_end (kernel s)) total false]) (mk_block (brk_end (kernel s)) total false) total.
Proof.
  intros H Hi Hk Es Ee Ht Hm ->. pose proof (brk_range _ Hk) as Hr. pose proof (brk_range _ (i_brk _ _ _ H)) as Hr0.
  assert (forall x, x < brk_end (kernel s) ->
    st 4 (brk_end (kernel s) + 8) 0 (st 8 (brk_end (kernel s)) total (mem s)) x = mem s x) as Hold.
  { intros x Hx. by rewrite !st_out by lia. }
  split; [split; simpl|].
  - done.
  - rewrite Es, Ee. apply tiled_app. exists (brk_end (kernel s)). split; [apply H|]. simpl. split_and!; done || lia.
  - rewrite Forall_app, Forall_singleton. split.
    + pose proof (i_stored _ _ _ H) as Hs. rewrite Forall_forall in *. intros b Hb. apply (stored_same (mem s)); [|by apply Hs].
      intros x Hx. apply Hold. pose proof (tiled_in _ _ _ _ (i_tiled _ _ _ H) Hb). lia.
    + split; simpl; [|by apply ld_st]. rewrite ld_st_ne by lia. apply ld_st. change (256 ^ Z.of_nat 8) with U64. lia.
  - eapply seg_ext; [|apply (i_chain _ _ _ H)]. intros y x Hy Hx. apply Hold.
    destruct (chain_block s bs xs y H Hy) as (b & Hb & _ & <-). pose proof (tiled_in _ _ _ _ (i_tiled _ _ _ H) Hb). lia.
  - rewrite frees_app. unfold frees at 2. simpl. rewrite app_nil_r. apply H.
  - congruence.
  - split_and!; simpl; [done|lia|by rewrite used_app, Permutation_app_comm|].
    intros u x [Hu _]%used_in Hx. apply Hold. pose proof (tiled_in _ _ _ _ (i_tiled _ _ _ H) Hu). lia.
Qed.

Lemma inv_init s bs xs : inv s bs xs -> inv (if heap_initialized s then s else heap_init s) bs xs.
Proof.
  intros H. destruct (heap_initialized s) eqn:E; [done|]. pose proof (i_init _ _ _ H E) as ->.
  pose proof (i_free _ _ _ H) as ->%Permutation_nil_r. destruct H. by split.
Qed.

(** Where the memory of a new block [b] comes from: the first free block that is
    large enough, with the break as it was, or else an extension of the heap. *)
Definition first_fit (s s' : heap) (bs : list block) (xs : list Z) (b : block) (t : Z) : Prop :=
  exists l1 l2, xs = l1 ++ addr b :: l2 /\ fitting bs t (addr b) /\ (forall x, x ∈ l1 -> ~ fitting bs t x) /\ kernel s' = kernel s.
Definition extended (s s' : heap) (bs : list block) (xs : list Z) (b : block) (t : Z) : Prop :=
  (forall x, x ∈ xs -> ~ fitting bs t x) /\ addr b = brk_end (kernel s) /\ bsize b = t /\
  sys_brk (brk_end (kernel s) + t) (kernel s) = (brk_end (kernel s) + t, kernel s').
(** No free block is large enough and the kernel does not extend the heap. *)
Definition refused (s : heap) (bs : list block) (xs : list Z) (t : Z) : Prop :=
  (forall x, x ∈ xs -> ~ fitting bs t x) /\ (sys_brk (brk_end (kernel s) + t) (kernel s)).1 < 0.

Lemma wr_kernel n a v s s' : wr n a v s = Some s' -> kernel s' = kernel s.
Proof. unfold wr. destruct (mapped _ _ _); [|done]. by intros [= <-]. Qed.
Lemma relink_kernel prev v s s' : relink prev v s = Some s' -> kernel s' = kernel s.
Proof. unfold relink. destruct (prev =? 0); [by intros [= <-]|apply wr_kernel]. Qed.
Lemma take_block_kernel total prev block s s' : take_block total prev block s = Some s' -> kernel s' = kernel s.
Proof.
  unfold take_block. destruct (ld_size block s) as [sz|]; [|done]. cbn [mbind option_bind]. cbv zeta.
  intros (s1 & E1 & E2%wr_kernel)%bind_Some. rewrite E2. destruct (32 <=? _).
  - apply bind_Some in E1 as (s2 & <-%wr_kernel & (s3 & <-%wr_kernel & (nx & _ & (s4 & <-%wr_kernel & (s5 & <-%wr_kernel & E)%bind_Some)%bind_Some)%bind_Some)%bind_Some).
    by apply relink_kernel in E.
  - apply bind_Some in E1 as (nx & _ & E). by apply relink_kernel in E.
Qed.

Lemma malloc_ready s bs xs size :
  inv s bs xs -> heap_initialized s = true -> 0 < size <= 9223372036854775808 ->
  exists p s' bs' xs', malloc size s = Some (p, s') /\ inv s' bs' xs' /\
    ((p = 0 /\ bs' = bs /\ mem s' = mem s /\ errno s' = ENOMEM /\ refused s bs xs (need size)) \/
     exists b, p = addr b + 16 /\ b ∈ bs' /\ size <= bsize b - 16 /\ allocated s s' bs bs' b (need size) /\
       (first_fit s s' bs xs b (need size) \/ extended s s' bs xs b (need size))).
Proof.
  intros H Ei Hs. unfold malloc. rewrite (proj2 (Z.eqb_neq size 0)) by lia. rewrite Ei. cbv zeta.
  pose proof (total_need size Hs) as Et. cbv zeta in Et. rewrite Et. clear Et.
  pose proof (need_facts size ltac:(lia)) as (N1 & N2 & N3).
  destruct (search_spec s bs xs (need size) H xs 0 (freelist s) (fuel_of s)) as [[-> Hno]|(l1 & b & l2 & -> & Hb & Hf & Hsz & Hno & ->)];
    [done|apply H|by eapply chain_length| |]; cbn [mbind option_bind].
  - simpl negb. cbn iota. rewrite (get_brk_spec _ _ _ H). pose proof (brk_range _ (i_brk _ _ _ H)) as Hr.
    rewrite (proj2 (Z.eqb_neq _ 0)) by lia. rewrite (wrap64_small (_ + need size)) by lia. unfold set_brk.
    assert (brk_end (kernel s) < brk_end (kernel s) + need size < U64) as Hrange by lia.
    pose proof (brk_set (kernel s) (brk_end (kernel s) + need size) (i_brk _ _ _ H) Hrange) as Hb.
    destruct (sys_brk _ (kernel s)) as [r k] eqn:Ebrk. destruct Hb as (Hk & Es & [[-> Ee]|[Hneg Ee]]).
    + rewrite (proj2 (Z.ltb_ge _ 0)) by lia. rewrite Z.leb_refl. simpl negb. cbn iota.
      unfold st_size, st_is_free. rewrite st_in by (simpl; lia). cbn [mbind option_bind]. rewrite st_in by (simpl; lia). cbn [mbind option_bind].
      rewrite (wrap64_small (_ + 16)) by lia.
      destruct (inv_grow s bs xs k (need size) _ H Ei Hk Es Ee ltac:(lia) N3 eq_refl) as [Hinv Hal].
      eexists _, _, _, _. split; [done|]. split; [exact Hinv|]. right. eexists. split_and!; [|apply elem_of_app; right; left|..|exact Hal|right]; done.
    + rewrite (proj2 (Z.ltb_lt _ 0)) by lia. simpl negb. cbn iota. eexists _, _, bs, xs. split; [done|]. split; [|left; split_and!; [done..|]; split; [done|by rewrite Ebrk]].
      destruct H. split; simpl; try done. by rewrite Es, Ee.
  - assert (0 < addr b) as Ha by (by apply (block_facts _ _ _ _ H)). rewrite (proj2 (Z.eqb_neq _ 0)) by lia. simpl negb. cbn iota.
    pose proof (block_facts _ _ _ _ H Hb) as Hfb. apply list_elem_of_split in Hb as (B1 & B2 & ->).
    assert (exists s' bs' xs' b', take_block (need size) (default 0 (last l1)) (addr b) s = Some s' /\ inv s' bs' xs' /\
      addr b' = addr b /\ allocated s s' (B1 ++ b :: B2) bs' b' (need size)) as (s' & bs' & xs' & b' & Etk & Hinv & Ea & Hal).
    { destruct (decide (bsize b - need size < 32)) as [Hlt|Hge].
      - destruct (take_whole s B1 b B2 l1 l2 (need size) H Hf Hsz Hlt ltac:(lia)) as (s' & bs' & xs' & E & Hi & Hal). by exists s', bs', xs', (mk_block (addr b) (bsize b) false).
      - destruct (take_split s B1 b B2 l1 l2 (need size) H Hf ltac:(lia) ltac:(lia) N3) as (s' & bs' & xs' & E & Hi & Hal). by exists s', bs', xs', (mk_block (addr b) (need size) false). }
    rewrite Etk. cbn [mbind option_bind]. rewrite (wrap64_small (_ + 16)) by lia. exists (addr b + 16), s', bs', xs'. split_and!; try done. right. exists b'.
    rewrite Ea. split_and!; try done.
    + destruct Hal as (_ & _ & Hp & _). assert (b' ∈ used bs') as Hu by (rewrite Hp; left). apply used_in in Hu as [? _]. done.
    + destruct Hal as (_ & ? & _). lia.
    + left. exists l1, l2. rewrite Ea. split_and!; try done; [exists b|by eapply take_block_kernel]. split_and!; try done. set_solver.
Qed.

Lemma malloc_spec s bs xs size :
  inv s bs xs -> 0 < size <= 9223372036854775808 ->
  exists p s' bs' xs', malloc size s = Some (p, s') /\ inv s' bs' xs' /\
    ((p = 0 /\ bs' = bs /\ mem s' = mem s /\ errno s' = ENOMEM /\ refused s bs xs (need size)) \/
     exists b, p = addr b + 16 /\ b ∈ bs' /\ size <= bsize b - 16 /\ allocated s s' bs bs' b (need size) /\
       (first_fit s s' bs xs b (need size) \/ extended s s' bs xs b (need size))).
Proof.
  intros H Hs. pose proof (inv_init _ _ _ H) as H0. destruct (heap_initialized s) eqn:Ei; [by apply (malloc_ready s bs xs)|].
  destruct (malloc_ready (heap_init s) bs xs size H0 eq_refl Hs) as (p & s' & bs' & xs' & E & Hr). exists p, s', bs', xs'.
  split; [|exact Hr]. rewrite <- E. unfold malloc. rewrite Ei, (proj2 (Z.eqb_neq size 0)) by lia. reflexivity.
Qed.

(** Marking a block free and pushing it onto the list. *)
Lemma push_spec s B1 b B2 xs :
  inv s (B1 ++ [b] ++ B2) xs -> bfree b = false ->
  let s' := set_freelist (addr b) (set_mem (st 8 (addr b + 16) (freelist s) (st 4 (addr b + 8) 1 (mem s))) s) in
  inv s' (B1 ++ [mk_block (addr b) (bsize b) true] ++ B2) (addr b :: xs) /\
  (forall u x, u ∈ used (B1 ++ B2) -> addr u <= x < addr u + bsize u -> mem s' x = mem s x).
Proof.
  intros H Hf s'. assert (b ∈ B1 ++ [b] ++ B2) as Hb by set_solver.
  destruct (block_facts _ _ _ _ H Hb) as (F1 & F2 & F3 & F4 & F5 & F6 & F7 & [F8 F9]).
  pose proof (i_tiled _ _ _ H) as Htl. apply tiled_mid in Htl as (a0 & e0 & T1 & T2 & T3). pose proof T2 as (<- & _ & _ & <-).
  assert (forall y, y ∈ xs -> exists c, c ∈ B1 ++ [b] ++ B2 /\ c <> b /\ addr c = y) as Hxs.
  { intros y Hy. destruct (chain_block _ _ _ _ H Hy) as (c & Hc & Hfc & <-). exists c. split_and!; try done. congruence. }
  assert (forall y, y ∈ xs -> y + 32 <= addr b \/ addr b + bsize b <= y) as Hout.
  { intros y Hy. destruct (Hxs y Hy) as (c & Hc & Hne & <-). pose proof (block_facts _ _ _ _ H Hc).
    destruct (tiled_same _ _ _ _ _ (i_tiled _ _ _ H) Hc Hb) as [?|[]]; [done|lia..]. }
  assert (0 <= freelist s < U64) as Hfl.
  { rewrite (seg_first _ _ _ (i_chain _ _ _ H)). destruct xs as [|y xs]; [done|]. simpl. destruct (Hxs y) as (c & Hc & _ & <-); [left|].
    pose proof (block_facts _ _ _ _ H Hc). lia. }
  apply (inv_replace s s' B1 [b] [mk_block (addr b) (bsize b) true] B2 xs (addr b :: xs) [] (addr b) (addr b + bsize b)); try done.
  - repeat constructor; simpl; [by rewrite !ld_st_ne by lia|]. rewrite ld_st_ne by lia. by apply ld_st.
  - set_solver.
  - intros x Hx _. simpl. by rewrite !st_out by lia.
  - simpl. split_and!; [done|lia|]. rewrite ld_st by (change (256 ^ Z.of_nat 8) with U64; lia).
    eapply seg_ext; [|apply (i_chain _ _ _ H)]. intros y x Hy Hx. destruct (Hout y Hy); by rewrite !st_out by lia.
  - rewrite (i_free _ _ _ H), !frees_app. unfold frees at 2 5. simpl. rewrite Hf. simpl. by rewrite <- Permutation_middle.
Qed.

(** Merging the free block [b] at the head of the list with the free block
    [n] that follows it in memory: the code unlinks [n] by redirecting the link
    before it. *)
Lemma last_in (x : Z) l : default 0 (last (x :: l)) ∈ x :: l.
Proof. revert x. induction l as [|y l IH]; intros x; simpl; [left|]. right. apply IH. Qed.

Section merge.
Context (s : heap) (B1 B2 : list block) (b n : block) (l1 l2 : list Z).
Context (H : inv s (B1 ++ [b; n] ++ B2) ((addr b :: l1) ++ addr n :: l2)) (Hfb : bfree b = true) (Hfn : bfree n = true).

Let m1 : Z -> Z := st 8 (addr b) (bsize b + bsize n) (mem s).
Let s1 : heap := set_mem m1 s.
Let nx : Z := ld 8 (addr n + 16) (mem s).

Lemma merge_facts :
  addr n = addr b + bsize b /\ 32 <= bsize b /\ 32 <= bsize n /\ brk_start (kernel s) <= addr b /\ 0 < addr b /\
  addr n + bsize n <= brk_end (kernel s) /\ brk_end (kernel s) <= 1073741824 /\ bsize b mod 16 = 0 /\ bsize n mod 16 = 0.
Proof.
  assert (b ∈ B1 ++ [b; n] ++ B2 /\ n ∈ B1 ++ [b; n] ++ B2) as [Hb Hn] by set_solver.
  pose proof (block_facts _ _ _ _ H Hb). pose proof (block_facts _ _ _ _ H Hn).
  pose proof (i_tiled _ _ _ H) as Htl. apply tiled_mid in Htl as (a0 & e0 & _ & (<- & _ & _ & En & _) & _). lia.
Qed.

Lemma merge_outside x : x < addr b \/ addr b + 8 <= x -> m1 x = mem s x.
Proof. intros. unfold m1. by rewrite st_out by lia. Qed.

Lemma merge_chain y : y ∈ (addr b :: l1) ++ addr n :: l2 ->
  (y = addr b \/ y + 32 <= addr b \/ addr b + 32 <= y) /\ brk_start (kernel s) <= y /\ y + 24 <= brk_end (kernel s).
Proof.
  intros Hy. destruct (chain_spaced _ _ _ H) as [_ Hsp]. destruct (chain_block _ _ _ _ H Hy) as (c & Hc & _ & Ec).
  pose proof (block_facts _ _ _ _ H Hc). destruct (Hsp y (addr b) Hy); [set_solver|lia..].
Qed.

Lemma merge_seg p xs q : (forall y, y ∈ xs -> y ∈ (addr b :: l1) ++ addr n :: l2) -> seg (mem s) p xs q -> seg m1 p xs q.
Proof.
  intros Hxs Hs. eapply seg_ext; [|exact Hs]. intros y x Hy Hx. apply merge_outside. destruct (merge_chain y (Hxs y Hy)). lia.
Qed.

Lemma merge_run : try_coalesce (addr b) s = relink (default 0 (last (addr b :: l1))) nx s1.
Proof.
  assert (b ∈ B1 ++ [b; n] ++ B2 /\ n ∈ B1 ++ [b; n] ++ B2) as [Hb Hn] by set_solver.
  destruct merge_facts as (En & F). destruct (ld_block _ _ _ _ H Hb) as (Eb & _ & _). destruct (ld_block _ _ _ _ H Hn) as (En1 & En2 & En3).
  unfold try_coalesce. rewrite Eb. cbn [mbind option_bind]. rewrite (wrap64_small (addr b + bsize b)) by lia. rewrite <- En.
  rewrite (get_brk_spec _ _ _ H). rewrite (proj2 (Z.leb_gt _ _)) by lia. rewrite En2, Hfn. cbn [mbind option_bind]. simpl Z.eqb. cbn iota.
  rewrite En1. cbn [mbind option_bind]. rewrite (wrap64_small (bsize b + bsize n)) by lia.
  unfold st_size. rewrite st_in by lia. cbn [mbind option_bind]. fold m1. fold s1.
  assert (ld_next (addr n) s1 = Some nx) as ->.
  { unfold ld_next, rd. rewrite mapped_in by (simpl; lia). simpl. f_equal. unfold m1. by rewrite ld_st_ne by lia. }
  cbn [mbind option_bind]. pose proof (i_chain _ _ _ H) as Hch. pose proof (seg_first _ _ _ Hch) as Efl. simpl in Efl.
  simpl freelist. rewrite Efl, (proj2 (Z.eqb_neq _ _)) by lia. rewrite Efl in Hch.
  rewrite (find_prev_spec s1 (addr n) ((addr b :: l1) ++ addr n :: l2) (addr b) (fuel_of s1) (addr b :: l1) l2); try done.
  - cbn [mbind option_bind]. unfold relink. destruct (Z.eqb_spec (default 0 (last (addr b :: l1))) 0) as [E0|]; [|done].
    destruct (merge_chain (default 0 (last (addr b :: l1)))) as (_ & ? & _); [apply elem_of_app; left; apply last_in|].
    pose proof (brk_range _ (i_brk _ _ _ H)). lia.
  - intros y Hy. apply (merge_chain y Hy).
  - by eapply chain_nodup.
  - by apply merge_seg.
  - by apply (chain_length _ _ _ H).
Qed.

Lemma merge_spec :
  exists s', try_coalesce (addr b) s = Some s' /\
    inv s' (B1 ++ [mk_block (addr b) (bsize b + bsize n) true] ++ B2) ((addr b :: l1) ++ l2) /\
    (forall u x, u ∈ used (B1 ++ B2) -> addr u <= x < addr u + bsize u -> mem s' x = mem s x).
Proof.
  assert (b ∈ B1 ++ [b; n] ++ B2 /\ n ∈ B1 ++ [b; n] ++ B2) as [Hb Hn] by set_solver. destruct merge_facts as (En & F).
  destruct (chain_split _ _ _ _ _ H Hn) as (Hs1 & Hs2 & Hnx & _ & Hr & Hsp).
  destruct (relink_spec s1 (addr b :: l1) (addr n) nx l2) as (s' & E & Hseg & Ek & Ei & Hm').
  { apply merge_seg; [set_solver|exact Hs1]. } { apply merge_seg; [set_solver|exact Hs2]. }
  { done. } { unfold nx. lia. } { intros y Hy. apply Hr. set_solver. }
  exists s'. rewrite merge_run. split; [done|].
  pose proof (i_tiled _ _ _ H) as Htl. apply tiled_mid in Htl as (a0 & e0 & T1 & T2 & _). pose proof T2 as (<- & _ & _ & _ & _ & _ & <-).
  apply (inv_replace s s' B1 [b; n] [mk_block (addr b) (bsize b + bsize n) true] B2 _ _ (addr b :: l1)
    (addr b) (addr b + bsize b + bsize n) H Ek Ei T1 T2); try done.
  - simpl. split_and!; [done|lia|dlia|lia].
  - assert (forall x, addr b <= x < addr b + 16 -> mem s' x = m1 x) as Hh.
    { intros x Hx. apply Hm'. intros y Hy. destruct (merge_chain y) as (? & _); [set_solver|]. lia. }
    destruct (block_facts _ _ _ _ H Hb) as (_ & _ & _ & _ & _ & _ & _ & [_ F9]). repeat constructor; simpl.
    + rewrite (ld_ext _ _ m1) by (intros; apply Hh; lia). apply ld_st. change (256 ^ Z.of_nat 8) with U64. lia.
    + rewrite (ld_ext _ _ (mem s)); [by rewrite F9, Hfb|]. intros x Hx. rewrite Hh by lia. apply merge_outside. lia.
  - set_solver.
  - intros x Hx Hy. rewrite Hm' by done. apply merge_outside. lia.
  - pose proof (i_free _ _ _ H) as Hp. rewrite <- Permutation_middle in Hp. rewrite !frees_app in *.
    unfold frees in Hp at 2. simpl in Hp. rewrite Hfb, Hfn in Hp. simpl in Hp. unfold frees at 2. simpl.
    apply (Permutation_cons_inv (a := addr n)). rewrite Hp. solve_Permutation.
Qed.
End merge.

Lemma free_spec s bs xs b :
  inv s bs xs -> b ∈ bs -> bfree b = false ->
  exists s' bs' xs', free (addr b + 16) s = Some s' /\ inv s' bs' xs' /\ used bs ≡ₚ b :: used bs' /\
    (forall u x, u ∈ used bs' -> addr u <= x < addr u + bsize u -> mem s' x = mem s x).
Proof.
  intros H Hb Hf. destruct (block_facts _ _ _ _ H Hb) as (F1 & F2 & F3 & F4 & F5 & F6 & F7 & _).
  destruct (ld_block _ _ _ _ H Hb) as (_ & Efr & _). unfold free. rewrite (proj2 (Z.eqb_neq _ 0)) by lia.
  assert (heap_initialized s = true) as ->.
  { destruct (heap_initialized s) eqn:E; [done|]. rewrite (i_init _ _ _ H E) in Hb. set_solver. }
  simpl negb. cbn iota. rewrite Z.add_simpl_r, wrap64_small by lia. cbv zeta. rewrite Efr, Hf. cbn [mbind option_bind]. simpl negb. cbn iota.
  unfold st_is_free, st_next. rewrite st_in by lia. cbn [mbind option_bind]. rewrite st_in by (simpl; lia). cbn [mbind option_bind].
  simpl mem. simpl freelist. apply list_elem_of_split in Hb as (B1 & B2 & ->).
  destruct (push_spec s B1 b B2 xs H Hf) as [H1 Hu1]. set (s1 := set_freelist _ _) in *.
  change (set_freelist _ _) with s1.
  assert (used (B1 ++ b :: B2) ≡ₚ b :: used (B1 ++ B2)) as Hused.
  { rewrite !used_app. unfold used at 2. simpl. rewrite Hf. simpl. by rewrite <- Permutation_middle. }
  set (bf := mk_block (addr b) (bsize b) true) in *.
  assert (used (B1 ++ [bf] ++ B2) = used (B1 ++ B2)) as Hus1 by by rewrite !used_app.
  assert (bf ∈ B1 ++ [bf] ++ B2) as Hbf by set_solver. destruct (ld_block _ _ _ _ H1 Hbf) as (Esz & _ & _). simpl in Esz.
  assert (try_coalesce (addr b) s1 = Some s1 -> exists s' bs' xs', try_coalesce (addr b) s1 = Some s' /\ inv s' bs' xs' /\
    used (B1 ++ b :: B2) ≡ₚ b :: used bs' /\ (forall u x, u ∈ used bs' -> addr u <= x < addr u + bsize u -> mem s' x = mem s x)) as Hstop.
  { intros E. exists s1, (B1 ++ [bf] ++ B2), (addr b :: xs). rewrite Hus1. by split_and!. }
  destruct B2 as [|n B2].
  - apply Hstop. unfold try_coalesce. rewrite Esz. cbn [mbind option_bind]. rewrite (get_brk_spec _ _ _ H1), (wrap64_small (addr b + _)) by lia.
    pose proof (i_tiled _ _ _ H1) as Ht. apply tiled_app in Ht as (e & _ & <- & _ & _ & E). simpl in E.
    rewrite (proj2 (Z.leb_le _ _)) by (simpl; lia). done.
  - assert (n ∈ B1 ++ [bf] ++ n :: B2) as Hn by set_solver. destruct (ld_block _ _ _ _ H1 Hn) as (_ & Enf & _).
    pose proof (i_tiled _ _ _ H1) as Ht. apply tiled_app in Ht as (e & _ & <- & _ & _ & En & _). simpl in En.
    pose proof (block_facts _ _ _ _ H1 Hn) as Hnf. destruct (bfree n) eqn:Hfn.
    + assert (addr n ∈ xs) as (l1 & l2 & ->)%list_elem_of_split.
      { rewrite (i_free _ _ _ H), frees_in. exists n. split_and!; [set_solver|done|done]. }
      destruct (merge_spec s1 B1 B2 bf n l1 l2 H1 eq_refl Hfn) as (s' & E & Hi & Hu). eexists s', _, _. split; [exact E|]. split; [exact Hi|].
      assert (used (B1 ++ [mk_block (addr bf) (bsize bf + bsize n) true] ++ B2) = used (B1 ++ B2)) as -> by by rewrite !used_app.
      assert (used (B1 ++ n :: B2) = used (B1 ++ B2)) as En2 by (rewrite !used_app; unfold used at 2; simpl; by rewrite Hfn).
      rewrite Hused, En2. split; [done|]. intros u x Hu' Hx. rewrite (Hu u x Hu' Hx). apply (Hu1 u x); [by rewrite En2|done].
    + apply Hstop. unfold try_coalesce. rewrite Esz. cbn [mbind option_bind]. rewrite (get_brk_spec _ _ _ H1), (wrap64_small (addr b + _)) by lia.
      rewrite <- En. rewrite (proj2 (Z.leb_gt _ _)) by lia. by rewrite Enf.
Qed.

(** ** The program's own writes, and copying *)

(** A write inside the payload of a block in use keeps the heap intact. *)
Lemma payload_inv s bs xs b m :
  inv s bs xs -> b ∈ bs -> bfree b = false -> (forall x, x < addr b + 16 \/ addr b + bsize b <= x -> m x = mem s x) ->
  inv (set_mem m s) bs xs.
Proof.
  intros H Hb Hf Hm. pose proof (block_facts _ _ _ _ H Hb) as F. apply list_elem_of_split in Hb as (B1 & B2 & ->).
  pose proof (i_tiled _ _ _ H) as Htl. change (b :: B2) with ([b] ++ B2) in Htl. apply tiled_mid in Htl as (a0 & e0 & T1 & T2 & T3).
  pose proof T2 as (<- & _ & _ & <-).
  eapply (inv_replace s (set_mem m s) B1 [b] [b] B2 xs xs [] (addr b) (addr b + bsize b)); try done.
  - repeat constructor; simpl; [|]; (etrans; [apply ld_ext; intros x Hx; apply Hm; lia|apply F]).
  - set_solver.
  - intros x Hx _. apply Hm. lia.
  - simpl. eapply seg_ext; [|apply (i_chain _ _ _ H)]. intros y x Hy Hx. apply Hm.
    destruct (chain_block _ _ _ _ H Hy) as (c & Hc & Hfc & <-). pose proof (block_facts _ _ _ _ H Hc).
    destruct (tiled_same _ _ _ c b (i_tiled _ _ _ H) Hc) as [->|[]]; [set_solver|congruence|lia..].
  - apply H.
Qed.

Lemma copy_spec n : forall dst src m, dst + Z.of_nat n <= src \/ src + Z.of_nat n <= dst ->
  (forall i, 0 <= i < Z.of_nat n -> copy_bytes n dst src m (dst + i) = m (src + i)) /\
  (forall x, x < dst \/ dst + Z.of_nat n <= x -> copy_bytes n dst src m x = m x).
Proof.
  induction n as [|n IH]; intros dst src m Hd; simpl copy_bytes; [split; [lia|done]|].
  destruct (IH (dst + 1) (src + 1) (upd dst (m src) m)) as [H1 H2]; [lia|]. unfold upd in *. split.
  - intros i Hi. destruct (decide (i = 0)) as [->|].
    + rewrite H2 by lia. rewrite !Z.add_0_r, Z.eqb_refl. done.
    + replace (dst + i) with (dst + 1 + (i - 1)) by lia. rewrite H1 by lia. destruct (Z.eqb_spec (src + 1 + (i - 1)) dst); [lia|]. f_equal. lia.
  - intros x Hx. rewrite H2 by lia. destruct (Z.eqb_spec x dst); [lia|done].
Qed.

(** A new block is none of the blocks that were in use, and lies apart from them. *)
Lemma allocated_new s s' bs bs' xs' b' total u :
  inv s' bs' xs' -> allocated s s' bs bs' b' total -> u ∈ used bs -> u ∈ bs' /\ b' ∈ bs' /\ u <> b' /\ apart u b'.
Proof.
  intros H (_ & _ & Hp & _) Hu. assert (u ∈ bs' /\ bfree u = false) as [Hu' _] by (apply used_in; rewrite Hp; by right).
  assert (b' ∈ bs' /\ bfree b' = false) as [Hb' _] by (apply used_in; rewrite Hp; left).
  assert (NoDup (used bs')) as Hnd.
  { apply (NoDup_fmap_1 addr). eapply sublist_NoDup; [by eapply tiled_nodup, (i_tiled _ _ _ H)|]. apply fmap_sublist. unfold used.
    clear. induction bs' as [|b bs IH]; simpl; [constructor|]. destruct (negb _); by constructor. }
  rewrite Hp in Hnd. apply NoDup_cons in Hnd as [Hnd _]. assert (u <> b') as Hne by congruence.
  split_and!; try done. by destruct (tiled_same _ _ _ _ _ (i_tiled _ _ _ H) Hu' Hb').
Qed.

Lemma memcpy_spec s dst src n :
  0 <= n -> brk_start (kernel s) <= dst -> dst + n <= brk_end (kernel s) -> brk_start (kernel s) <= src ->
  src + n <= brk_end (kernel s) -> dst + n <= src \/ src + n <= dst ->
  exists m, memcpy dst src n s = Some (set_mem m s) /\ (forall i, 0 <= i < n -> m (dst + i) = mem s (src + i)) /\
    (forall x, x < dst \/ dst + n <= x -> m x = mem s x).
Proof.
  intros Hn H1 H2 H3 H4 Hd. unfold memcpy. rewrite !mapped_in by lia. rewrite orb_true_r. eexists. split; [done|].
  destruct (copy_spec (Z.to_nat n) dst src (mem s)) as [C1 C2]; [lia|]. split; intros; [apply C1|apply C2]; lia.
Qed.

Lemma realloc_spec s bs xs b size :
  inv s bs xs -> b ∈ used bs -> 0 < size <= 9223372036854775808 ->
  exists p s' bs' xs', realloc (addr b + 16) size s = Some (p, s') /\ inv s' bs' xs' /\
    ((p = 0 /\ bs' = bs /\ mem s' = mem s) \/
     exists b', p = addr b' + 16 /\ b' ∈ bs' /\ size <= bsize b' - 16 /\ b :: used bs' ≡ₚ b' :: used bs /\
       (forall i, 0 <= i < Z.min (bsize b - 16) size -> mem s' (p + i) = mem s (addr b + 16 + i)) /\
       (forall u x, u ∈ used bs -> u <> b -> addr u <= x < addr u + bsize u -> mem s' x = mem s x)).
Proof.
  intros H Hub Hs. pose proof Hub as [Hb Hf]%used_in. pose proof (block_facts _ _ _ _ H Hb) as F. unfold realloc.
  rewrite (proj2 (Z.eqb_neq (addr b + 16) 0)), (proj2 (Z.eqb_neq size 0)) by lia.
  destruct (malloc_spec s bs xs size H Hs) as (p & s1 & bs1 & xs1 & -> & H1 & Hor). cbn [mbind option_bind].
  destruct Hor as [(-> & -> & Em & _)|(b' & -> & Hb' & Hsz & Hal & _)]; [exists 0, s1, bs, xs1; split_and!; try done; by left|].
  destruct (allocated_new _ _ _ _ _ _ _ _ H1 Hal Hub) as (Hb1 & _ & Hne & Hap). pose proof (block_facts _ _ _ _ H1 Hb') as F'.
  pose proof (block_facts _ _ _ _ H1 Hb1) as F1. rewrite (proj2 (Z.eqb_neq (addr b' + 16) 0)) by lia.
  rewrite Z.add_simpl_r, (wrap64_small (addr b)) by lia. destruct (ld_block _ _ _ _ H1 Hb1) as (-> & _). cbn [mbind option_bind]. cbv zeta.
  rewrite (wrap64_small (bsize b - 16)) by lia.
  assert ((if bsize b - 16 <? size then bsize b - 16 else size) = Z.min (bsize b - 16) size) as ->.
  { destruct (Z.ltb_spec (bsize b - 16) size); lia. }
  destruct (memcpy_spec s1 (addr b' + 16) (addr b + 16) (Z.min (bsize b - 16) size)) as (m & -> & Hcp & Hout); try lia; [destruct Hap; lia|].
  cbn [mbind option_bind].
  pose proof Hal as (Hfb' & _ & Hp & Hold).
  assert (inv (set_mem m s1) bs1 xs1) as H2 by (apply (payload_inv s1 bs1 xs1 b'); try done; intros x Hx; apply Hout; lia).
  destruct (free_spec (set_mem m s1) bs1 xs1 b H2 Hb1 Hf) as (s3 & bs3 & xs3 & -> & H3 & Hp3 & Hold3). cbn [mbind option_bind].
  exists (addr b' + 16), s3, bs3, xs3. split_and!; try done. right. exists b'.
  assert (forall u, u ∈ used bs -> u <> b -> u ∈ used bs3) as Hkeep.
  { intros u Hu Hub'. assert (u ∈ used bs1) as Hu1 by (rewrite Hp; by right). rewrite Hp3 in Hu1. by apply elem_of_cons in Hu1 as [?|?]. }
  assert (b' ∈ used bs3) as Hb3.
  { assert (b' ∈ used bs1) as Hu1 by (rewrite Hp; left). rewrite Hp3 in Hu1. apply elem_of_cons in Hu1 as [?|?]; [congruence|done]. }
  split_and!; try done.
  - by apply used_in in Hb3 as [? _].
  - by rewrite <- Hp3.
  - intros i Hi. rewrite (Hold3 b' _ Hb3) by lia. simpl. rewrite Hcp by lia. apply (Hold b); [done|lia].
  - intros u x Hu Hub' Hx. rewrite (Hold3 u x (Hkeep u Hu Hub') Hx). simpl. rewrite Hout; [by apply (Hold u)|].
    destruct (allocated_new _ _ _ _ _ _ _ _ H1 Hal Hu) as (_ & _ & _ & []); lia.
Qed.

Lemma set_bytes_spec n : forall dst v m,
  (forall i, 0 <= i < Z.of_nat n -> set_bytes n dst v m (dst + i) = wrap8 v) /\
  (forall x, x < dst \/ dst + Z.of_nat n <= x -> set_bytes n dst v m x = m x).
Proof.
  induction n as [|n IH]; intros dst v m; simpl set_bytes; [split; [lia|done]|].
  destruct (IH (dst + 1) v (upd dst (wrap8 v) m)) as [IH1 IH2]. split.
  - intros i Hi. destruct (Z.eqb_spec i 0) as [->|Hne].
    + rewrite IH2 by lia. unfold upd. by rewrite Z.add_0_r, Z.eqb_refl.
    + replace (dst + i) with (dst + 1 + (i - 1)) by lia. apply IH1. lia.
  - intros x Hx. rewrite IH2 by lia. unfold upd. destruct (Z.eqb_spec x dst); [lia|done].
Qed.

(** ** Correctness *)

(** [calloc] of a product that does not overflow is [malloc] of it with every
    byte zero. *)
Theorem calloc_correct s bs xs n size :
  inv s bs xs -> 0 < n -> 0 < size -> n * size <= 9223372036854775808 ->
  exists p s' bs' xs', calloc n size s = Some (p, s') /\ inv s' bs' xs' /\
    (forall u x, u ∈ used bs -> addr u <= x < addr u + bsize u -> mem s' x = mem s x) /\
    ((p = 0 /\ bs' = bs /\ errno s' = ENOMEM) \/
     exists b, p = addr b + 16 /\ n * size <= bsize b - 16 /\ used bs' ≡ₚ b :: used bs /\
       forall i, 0 <= i < n * size -> mem s' (p + i) = 0).
Proof.
  intros H Hn Hs Ht. assert (0 < n * size) as Hpos by (apply Z.mul_pos_pos; lia). unfold calloc. rewrite (wrap64_small (n * size)) by lia.
  set (t := n * size) in *. clearbody t.
  destruct (malloc_spec s bs xs t H ltac:(lia)) as (p & s1 & bs1 & xs1 & -> & H1 & Hor). cbn [mbind option_bind].
  destruct Hor as [(-> & -> & Em & Ee & _)|(b & -> & Hb & Hsz & Hal & _)].
  { exists 0, s1, bs, xs1. rewrite Em. split_and!; try done. by left. }
  pose proof (block_facts _ _ _ _ H1 Hb) as F. rewrite (proj2 (Z.eqb_neq (addr b + 16) 0)) by lia.
  assert (mapped t (addr b + 16) s1 = true) as Hm by (apply mapped_in; lia).
  unfold memset. rewrite Hm, orb_true_r. cbn [mbind option_bind]. destruct (set_bytes_spec (Z.to_nat t) (addr b + 16) 0 (mem s1)) as [Hin Hout].
  pose proof Hal as (Hfb & _ & Hp & Hold). eexists _, _, bs1, xs1. split; [reflexivity|]. split_and!.
  - apply (payload_inv s1 bs1 xs1 b); try done. intros x Hx. apply Hout. lia.
  - intros u x Hu Hx. cbn. rewrite Hout; [by apply (Hold u)|]. destruct (allocated_new _ _ _ _ _ _ _ _ H1 Hal Hu) as (_ & _ & _ & []); lia.
  - right. exists b. split_and!; try done. intros i Hi. cbn. rewrite Hin by lia. done.
Qed.

(** C31: [malloc] of at least one and at most 2^63 bytes on a well-formed heap
    never faults.  It takes the first block of the free list that is large
    enough for the rounded size with its header, and then leaves the break as it
    is; when there is none it extends the heap.  It returns NULL, with [errno]
    set and the blocks as they were, only when no free block is large enough and
    the kernel refuses the new break.  Otherwise the result is the 16-byte
    aligned payload of a block, apart from every block in use, that holds at
    least the requested size.  The blocks in use keep their contents, and the
    heap remains a tiling of blocks whose free ones are exactly those on the
    free list. *)
Theorem malloc_correct s bs xs size :
  inv s bs xs -> 0 < size <= 9223372036854775808 ->
  exists p s' bs' xs', malloc size s = Some (p, s') /\ inv s' bs' xs' /\
    (forall u x, u ∈ used bs -> addr u <= x < addr u + bsize u -> mem s' x = mem s x) /\
    ((p = 0 /\ bs' = bs /\ errno s' = ENOMEM /\ refused s bs xs (need size)) \/
     exists b, p = addr b + 16 /\ p mod 16 = 0 /\ size <= bsize b - 16 /\ used bs' ≡ₚ b :: used bs /\
       (forall u, u ∈ used bs -> apart u b) /\
       (first_fit s s' bs xs b (need size) \/ extended s s' bs xs b (need size))).
Proof.
  intros H Hs. destruct (malloc_spec s bs xs size H Hs) as (p & s' & bs' & xs' & E & H' & Hor). exists p, s', bs', xs'.
  destruct Hor as [(-> & -> & Em & Ee & Hre)|(b & -> & Hb & Hsz & Hal & Hsrc)].
  - rewrite Em. split_and!; try done. by left.
  - pose proof (block_facts _ _ _ _ H' Hb) as F. pose proof Hal as (_ & _ & Hp & Hold). split_and!; try done. right. exists b.
    split_and!; try done; [dlia|]. intros u Hu. by destruct (allocated_new _ _ _ _ _ _ _ _ H' Hal Hu) as (_ & _ & _ & ?).
Qed.

(** C32: [free] of a block in use, of NULL, or of a block that is already free
    never faults and keeps the heap well formed: the first gives back exactly
    that block, possibly merged with the free block after it, and leaves the
    contents of all other blocks in use; the other two change nothing. *)
Theorem free_correct s bs xs :
  inv s bs xs -> free 0 s = Some s /\
  forall b, b ∈ bs ->
    if bfree b then free (addr b + 16) s = Some s
    else exists s' bs' xs', free (addr b + 16) s = Some s' /\ inv s' bs' xs' /\ used bs ≡ₚ b :: used bs' /\
      (forall u x, u ∈ used bs' -> addr u <= x < addr u + bsize u -> mem s' x = mem s x).
Proof.
  intros H. split; [done|]. intros b Hb. destruct (bfree b) eqn:Hf; [|by apply (free_spec s bs xs b)].
  pose proof (block_facts _ _ _ _ H Hb) as F. destruct (ld_block _ _ _ _ H Hb) as (_ & E & _).
  unfold free. rewrite (proj2 (Z.eqb_neq _ 0)) by lia. destruct (heap_initialized s); [|done]. simpl negb. cbn iota.
  rewrite Z.add_simpl_r, wrap64_small by lia. cbv zeta. by rewrite E, Hf.
Qed.

(** [realloc] of a block in use returns NULL with the heap as it was, or a
    block of at least the new size that starts with the old contents, as far as
    both sizes go, and takes the place of the old block; the other blocks in use
    keep their contents. *)
Theorem realloc_correct s bs xs b size :
  inv s bs xs -> b ∈ used bs -> 0 < size <= 9223372036854775808 ->
  exists p s' bs' xs', realloc (addr b + 16) size s = Some (p, s') /\ inv s' bs' xs' /\
    ((p = 0 /\ bs' = bs /\ mem s' = mem s) \/
     exists b', p = addr b' + 16 /\ size <= bsize b' - 16 /\ b :: used bs' ≡ₚ b' :: used bs /\
       (forall i, 0 <= i < Z.min (bsize b - 16) size -> mem s' (p + i) = mem s (addr b + 16 + i)) /\
       (forall u x, u ∈ used bs -> u <> b -> addr u <= x < addr u + bsize u -> mem s' x = mem s x)).
Proof.
  intros H Hb Hs. destruct (realloc_spec s bs xs b size H Hb Hs) as (p & s' & bs' & xs' & E & H' & Hor). exists p, s', bs', xs'.
  split_and!; try done. destruct Hor as [?|(b' & ? & _ & ?)]; [by left|right]. by exists b'.
Qed.

End malloc.

(** ** The break of an address space *)

Section address_space.
Context {P : Type} `{PT : Vmm.PageTable P} {F : Type} `{FS : Subpage.FrameSource F}.

(** [SYS_brk] of a process. *)
Definition sys_mm_brk (addr : Z) (s : Vma.sys) : Z * Vma.sys :=
  let '(brk_rc, result, s) := Vma.mm_set_brk addr s in
  (if brk_rc <? 0 then brk_rc else default 0 result, s).

#[export, refine] Instance address_space_break : Break Vma.sys := {|
  sys_brk := sys_mm_brk;
  brk_start := Vma.start_brk;
  brk_end := Vma.end_brk;
  brk_inv := Vma.heap_inv;
|}.
Proof.
  - intros k H. pose proof (Vma.hi_brk _ H). dlia.
  - intros k H. unfold sys_mm_brk, Vma.mm_set_brk. simpl. done.
  - intros k a H Ha. pose proof (Vma.hi_brk _ H) as Hr. pose proof (Vma.mm_set_brk_spec k a H) as Hs. unfold is_u64 in Hs.
    specialize (Hs ltac:(lia)). destruct (Z.eqb_spec a 0); [lia|]. destruct (Z.ltb_spec a (Vma.start_brk k)); [lia|]. unfold sys_mm_brk.
    destruct (Z.ltb_spec 541061120 a) as [Hbig|Hok]; [rewrite Hs; simpl; split_and!; auto; right; lia|].
    destruct (Vma.mm_set_brk a k) as [[rc res] k']. destruct Hs as (Hi & Es & _ & [(-> & -> & Ee)|(-> & -> & Hsame)]); simpl.
    + split_and!; auto.
    + split_and!; auto. right. split; [lia|]. apply Hsame.
Defined.
End address_space.

(** ** A concrete heap *)

Section demo.
#[local] Existing Instance Subpage.pmm_frames.
#[local] Existing Instance Vma.demo_pt.

Definition demo_heap : heap := mk_heap 0 false 0 (fun _ => 0) (Vma.proc [Vma.heap_vma0; Vma.anon0]).

Lemma demo_heap_inv : inv demo_heap [] [].
Proof. split; simpl; try done. apply Vma.proc_heap_inv. Qed.

(** The heap after a first [malloc(40)]. *)
Lemma demo_alloc : exists s bs xs b, malloc 40 demo_heap = Some (addr b + 16, s) /\ inv s bs xs /\ b ∈ used bs.
Proof.
  destruct (malloc_spec demo_heap [] [] 40 demo_heap_inv ltac:(lia)) as (p & s & bs & xs & E & H & Hor). exists s, bs, xs.
  destruct Hor as [(-> & _)|(b & -> & _ & _ & (_ & _ & Hp & _) & _)].
  - apply (f_equal (fmap fst)) in E. vm_compute in E. discriminate.
  - exists b. split_and!; [exact E|exact H|]. rewrite Hp. left.
Qed.

Lemma malloc_correct_witness :
  exists p s bs xs, malloc 40 demo_heap = Some (p, s) /\ inv s bs xs /\ p = 6291472.
Proof.
  destruct (malloc_correct demo_heap [] [] 40 demo_heap_inv ltac:(lia)) as (p & s & bs & xs & E & H & _). exists p, s, bs, xs.
  split; [exact E|]. split; [exact H|]. apply (f_equal (fmap fst)) in E. vm_compute in E. injection E as E. symmetry. exact E.
Defined.

Lemma free_correct_witness :
  exists s b s' bs' xs', malloc 40 demo_heap = Some (addr b + 16, s) /\ free (addr b + 16) s = Some s' /\ inv s' bs' xs'.
Proof.
  destruct demo_alloc as (s & bs & xs & b & E & H & [Hb Hf]%used_in). pose proof (proj2 (free_correct s bs xs H) b Hb) as Hfree.
  rewrite Hf in Hfree. destruct Hfree as (s' & bs' & xs' & E' & H' & _). exists s, b, s', bs', xs'. split; [exact E|]. split; [exact E'|exact H'].
Defined.

Lemma realloc_correct_witness :
  exists s b p s' bs' xs', malloc 40 demo_heap = Some (addr b + 16, s) /\ realloc (addr b + 16) 100 s = Some (p, s') /\ inv s' bs' xs'.
Proof.
  destruct demo_alloc as (s & bs & xs & b & E & H & Hb).
  destruct (realloc_correct s bs xs b 100 H Hb ltac:(lia)) as (p & s' & bs' & xs' & E' & H' & _).
  exists s, b, p, s', bs', xs'. split; [exact E|]. split; [exact E'|exact H'].
Defined.

(** A request close to [SIZE_MAX] is not refused: the new break wraps around,
    the heap shrinks, and the pointer returned lies above the break. *)
Example malloc_huge_shrinks :
  (s ← snd <$> malloc 40 demo_heap; '(p, s') ← malloc (U64 - 48) s;
   Some (brk_end (kernel s), p, brk_end (kernel s'))) = Some (6291520, 6291536, 6291488).
Proof. vm_compute. reflexivity. Qed.

(** [malloc(SIZE_MAX)] returns a block of sixteen bytes. *)
Example malloc_max_wraps :
  ('(p, s') ← malloc UINT64_MAX demo_heap; sz ← ld_size (p - 16) s'; Some (p, sz)) = Some (6291472, 32).
Proof. vm_compute. reflexivity. Qed.

(** The product of [calloc] wraps around: for 2^61 + 1 objects of eight bytes it
    returns a block of sixteen. *)
Example calloc_wraps :
  ('(p, s') ← calloc 2305843009213693953 8 demo_heap; sz ← ld_size (p - 16) s'; Some (p, sz)) = Some (6291472, 32).
Proof. vm_compute. reflexivity. Qed.
End demo.

End Malloc.
