(* ===== verification/RbTree.v ===== *)
(** The intrusive red-black tree of src/libc/rbtree/rbtree.c, which orders the
    scheduler's run queues.  The operations run on a heap of nodes with parent
    pointers; a tree-shaped part of that heap is described by a tree of node
    addresses, and insertion and removal are shown to keep it a red-black tree
    with the right sequence of nodes, to dereference only nodes of the tree,
    and to write nothing else. *)

From stdpp Require Import base tactics numbers option gmap sets sorting list.
From Stdlib Require Import ZArith Lia.
From S2P Require Import Prelude.

Module RbTree.

(** ** Memory *)

Abbreviation RB_BLACK := 0 (only parsing).
Abbreviation RB_RED := 1 (only parsing).

(** [rbtree_node_t], [rbtree_root_t] and the nodes by address; 0 is NULL. *)
Record node := mk_node { left : Z; right : Z; parent : Z; color : Z }.
Record mem := mk_mem { rb_node : Z; nodes : gmap Z node }.

(** Computations that read and write the memory; [None] is a dereference of an
    address that holds no node, or the end of the fuel of a loop. *)
Definition M (A : Type) : Type := mem -> option (A * mem).
Definition ret {A} (x : A) : M A := fun s => Some (x, s).
Definition bind {A B} (m : M A) (f : A -> M B) : M B := fun s => '(x, s) ← m s; f x s.
Definition stuck {A} : M A := fun _ => None.
Declare Scope rb_scope.
Delimit Scope rb_scope with rb.
Notation "x <- m ;; k" := (bind m (fun x => k)) (at level 100, m at next level, right associativity) : rb_scope.
Notation "m ;;; k" := (bind m (fun _ => k)) (at level 100, right associativity) : rb_scope.
#[local] Open Scope rb_scope.

(** The two children are the mirror image of each other, and so are the
    branches of the code that the source writes out once for each side. *)
Inductive dir := L | R.
Definition opp (d : dir) : dir := match d with L => R | R => L end.
Definition child (d : dir) (n : node) : Z := match d with L => left n | R => right n end.
Definition upd_child (d : dir) (v : Z) (n : node) : node :=
  match d with
  | L => mk_node v (right n) (parent n) (color n)
  | R => mk_node (left n) v (parent n) (color n)
  end.
Definition upd_parent (v : Z) (n : node) : node := mk_node (left n) (right n) v (color n).
Definition upd_color (v : Z) (n : node) : node := mk_node (left n) (right n) (parent n) v.

Definition ld {A} (f : node -> A) (p : Z) : M A := fun s => n ← nodes s !! p; Some (f n, s).
Definition st (f : node -> node) (p : Z) : M unit :=
  fun s => n ← nodes s !! p; Some (tt, mk_mem (rb_node s) (<[p := f n]> (nodes s))).
Definition ld_root : M Z := fun s => Some (rb_node s, s).
Definition st_root (v : Z) : M unit := fun s => Some (tt, mk_mem v (nodes s)).

(** ** The code *)

Definition is_red (n : Z) : M bool :=
  if n =? 0 then ret false else c <- ld color n;; ret (c =? RB_RED).
Definition set_black (n : Z) : M unit := if n =? 0 then ret tt else st (upd_color RB_BLACK) n.
Definition set_red (n : Z) : M unit := if n =? 0 then ret tt else st (upd_color RB_RED) n.

Definition rbtree_node_init (n : Z) : M unit :=
  st (upd_child L 0) n;;; st (upd_child R 0) n;;; st (upd_parent 0) n;;; st (upd_color RB_BLACK) n.

(** [if (c) c->parent = p;] *)
Definition adopt (c p : Z) : M unit := if c =? 0 then ret tt else st (upd_parent p) c.

(** [if (!p) root->rb_node = c; else if (old == p->left) p->left = c; else
    p->right = c;] for [d = L]. *)
Definition replace_child (d : dir) (p old c : Z) : M unit :=
  if p =? 0 then st_root c
  else x <- ld (child d) p;; if old =? x then st (upd_child d c) p else st (upd_child (opp d) c) p.

(** [rotate L] is [rotate_left]: its [right] is [n->right]. *)
Definition rotate (d : dir) (n : Z) : M unit :=
  right <- ld (child (opp d)) n;;
  parent <- ld parent n;;
  c <- ld (child d) right;;
  st (upd_child (opp d) c) n;;;
  c <- ld (child d) right;;
  adopt c n;;;
  st (upd_parent parent) right;;;
  replace_child d parent n right;;;
  st (upd_child d n) right;;;
  st (upd_parent right) n.
Definition rotate_left : Z -> M unit := rotate L.
Definition rotate_right : Z -> M unit := rotate R.

(** The pointer [link]: the root's field, or a child field of a node. *)
Definition link := option (dir * Z).
Definition ld_link (l : link) : M Z :=
  match l with None => ld_root | Some (d, p) => ld (child d) p end.
Definition st_link (l : link) (v : Z) : M unit :=
  match l with None => st_root v | Some (d, p) => st (upd_child d v) p end.

(** The descent of [rbtree_insert]: the conflicting node, or the empty link
    and its parent. *)
Fixpoint descend (fuel : nat) (cmp : Z -> Z -> Z) (n : Z) (l : link) (par : Z) : M (Z + link * Z) :=
  match fuel with
  | O => stuck
  | S fuel =>
    p <- ld_link l;;
    if p =? 0 then ret (inr (l, par)) else
    let c := cmp n p in
    if c <? 0 then descend fuel cmp n (Some (L, p)) p
    else if 0 <? c then descend fuel cmp n (Some (R, p)) p
    else ret (inl p)
  end.

(** The body of the loop after insertion, for [n->parent == gp->left] when
    [d = L]; the result is the new [n]. *)
Definition insert_case (d : dir) (n gp : Z) : M Z :=
  uncle <- ld (child (opp d)) gp;;
  red <- is_red uncle;;
  if red : bool then
    p <- ld parent n;; set_black p;;;
    set_black uncle;;;
    set_red gp;;;
    ret gp
  else
    p <- ld parent n;;
    c <- ld (child (opp d)) p;;
    n <- (if n =? c then p <- ld parent n;; rotate d p;;; ret p else ret n);;
    p <- ld parent n;; set_black p;;;
    set_red gp;;;
    rotate (opp d) gp;;;
    ret n.

Fixpoint insert_fixup (fuel : nat) (n : Z) : M unit :=
  match fuel with
  | O => stuck
  | S fuel =>
    p <- ld parent n;;
    if p =? 0 then ret tt else
    c <- ld color p;;
    if c =? RB_RED then
      gp <- ld parent p;;
      gl <- ld left gp;;
      n <- insert_case (if p =? gl then L else R) n gp;;
      insert_fixup fuel n
    else ret tt
  end.

(** The loops run on at most the nodes of one tree. *)
Definition fuel_of (s : mem) : nat := S (S (size (nodes s))).

Definition rbtree_insert (n : Z) (cmp : Z -> Z -> Z) : M Z := fun s0 =>
  (r <- descend (fuel_of s0) cmp n None 0;;
   match r with
   | inl p => ret p
   | inr (l, par) =>
     st (upd_child L 0) n;;;
     st (upd_child R 0) n;;;
     st (upd_parent par) n;;;
     st (upd_color RB_RED) n;;;
     st_link l n;;;
     insert_fixup (fuel_of s0) n;;;
     root <- ld_root;;
     set_black root;;;
     ret 0
   end) s0.

(** [while (n->left) n = n->left] for [d = L]. *)
Fixpoint extreme (fuel : nat) (d : dir) (n : Z) : M Z :=
  match fuel with
  | O => stuck
  | S fuel => c <- ld (child d) n;; if c =? 0 then ret n else extreme fuel d c
  end.

Definition rbtree_end (d : dir) : M Z := fun s0 =>
  (n <- ld_root;; if n =? 0 then ret 0 else extreme (fuel_of s0) d n) s0.
Definition rbtree_first : M Z := rbtree_end L.
Definition rbtree_last : M Z := rbtree_end R.

(** [while (p && node == p->right) { node = p; p = p->parent; }] for [d = L]. *)
Fixpoint climb (fuel : nat) (d : dir) (n p : Z) : M Z :=
  match fuel with
  | O => stuck
  | S fuel =>
    if p =? 0 then ret p else
    c <- ld (child (opp d)) p;;
    if n =? c then pp <- ld parent p;; climb fuel d p pp else ret p
  end.

(** [rbtree_next] is [rbtree_step L]: the leftmost node of the right subtree,
    or the first ancestor of which the node is in the left subtree. *)
Definition rbtree_step (d : dir) (n : Z) : M Z := fun s0 =>
  (c <- ld (child (opp d)) n;;
   if negb (c =? 0) then extreme (fuel_of s0) d c
   else p <- ld parent n;; climb (fuel_of s0) d n p) s0.
Definition rbtree_next : Z -> M Z := rbtree_step L.
Definition rbtree_prev : Z -> M Z := rbtree_step R.

(** [!c || c->color == RB_BLACK] *)
Definition is_black (n : Z) : M bool :=
  if n =? 0 then ret true else c <- ld color n;; ret (c =? RB_BLACK).

(** The body of [rbtree_erase_fixup], for [n == p->left] when [d = L], once
    the sibling is black, and from its start: [Some (n, p)] continues the loop,
    [None] is the [break]. *)
Definition erase_sibling (d : dir) (p sib : Z) : M (option (Z * Z)) :=
  near <- ld (child d) sib;;
  nb <- is_black near;;
  fb <- (if nb : bool then far <- ld (child (opp d)) sib;; is_black far else ret false);;
  if fb : bool then
    set_red sib;;; pp <- ld parent p;; ret (Some (p, pp))
  else
    far <- ld (child (opp d)) sib;;
    fb <- is_black far;;
    sib <- (if fb : bool then
              near <- ld (child d) sib;; set_black near;;;
              set_red sib;;; rotate (opp d) sib;;; ld (child (opp d)) p
            else ret sib);;
    c <- ld color p;;
    st (upd_color c) sib;;;
    set_black p;;;
    far <- ld (child (opp d)) sib;; set_black far;;;
    rotate d p;;;
    ret None.

Definition erase_case (d : dir) (p : Z) : M (option (Z * Z)) :=
  sib <- ld (child (opp d)) p;;
  red <- is_red sib;;
  sib <- (if red : bool then
            set_black sib;;; set_red p;;; rotate d p;;; ld (child (opp d)) p
          else ret sib);;
  erase_sibling d p sib.

Fixpoint erase_fixup (fuel : nat) (n p : Z) : M Z :=
  match fuel with
  | O => stuck
  | S fuel =>
    black <- is_black n;;
    root <- ld_root;;
    if black && negb (n =? root) then
      l <- ld left p;;
      r <- erase_case (if n =? l then L else R) p;;
      match r with
      | Some (n, p) => erase_fixup fuel n p
      | None => ld_root
      end
    else ret n
  end.
Definition rbtree_erase_fixup (n p : Z) : M unit := fun s0 =>
  (n <- erase_fixup (fuel_of s0) n p;; set_black n) s0.

(** The two detachments of [rbtree_erase]: of the in-order successor of a node
    with two children, and of a node with at most one.  The result is the
    child, its new parent and the colour that was removed. *)
Definition erase_two (n : Z) : M (Z * Z * Z) := fun s0 =>
  (r <- ld right n;;
   succ <- extreme (fuel_of s0) L r;;
   sp <- ld parent succ;;
   res <- (if negb (sp =? n) then
      child_ <- ld right succ;;
      par <- ld parent succ;;
      col <- ld color succ;;
      pl <- ld left par;;
      (if pl =? succ then sr <- ld right succ;; st (upd_child L sr) par
       else sr <- ld right succ;; st (upd_child R sr) par);;;
      sr <- ld right succ;;
      adopt sr par;;;
      nl <- ld left n;; st (upd_child L nl) succ;;;
      nl <- ld left n;; st (upd_parent succ) nl;;;
      nr <- ld right n;; st (upd_child R nr) succ;;;
      nr <- ld right n;; st (upd_parent succ) nr;;;
      ret (child_, par, col)
    else
      child_ <- ld right succ;;
      col <- ld color succ;;
      nl <- ld left n;; st (upd_child L nl) succ;;;
      nl <- ld left n;; st (upd_parent succ) nl;;;
      ret (child_, succ, col));;
   np <- ld parent n;; st (upd_parent np) succ;;;
   nc <- ld color n;; st (upd_color nc) succ;;;
   np <- ld parent n;;
   replace_child L np n succ;;;
   ret res) s0.

Definition erase_one (n : Z) : M (Z * Z * Z) :=
  l <- ld left n;;
  child_ <- (if negb (l =? 0) then ret l else ld right n);;
  par <- ld parent n;;
  col <- ld color n;;
  adopt child_ par;;;
  replace_child L par n child_;;;
  ret (child_, par, col).

Definition rbtree_erase (n : Z) : M unit :=
  l <- ld left n;;
  r <- ld right n;;
  res <- (if negb (l =? 0) && negb (r =? 0) then erase_two n else erase_one n);;
  let '(child_, par, col) := res in
  if col =? RB_BLACK then rbtree_erase_fixup child_ par else ret tt.

(** ** Trees and their memory *)

Inductive tree := E | T (c : Z) (l : tree) (x : Z) (r : tree).
#[export] Instance tree_eq_dec : EqDecision tree.
Proof. solve_decision. Defined.

(** The address of a tree. *)
Definition ptr (t : tree) : Z := match t with E => 0 | T _ _ x _ => x end.
Fixpoint height (t : tree) : nat :=
  match t with E => 0 | T _ l _ r => S (Nat.max (height l) (height r)) end.
Fixpoint inorder (t : tree) : list Z :=
  match t with E => [] | T _ l x r => inorder l ++ x :: inorder r end.

(** The memory of [t] when its parent is [p]. *)
Fixpoint trep (h : gmap Z node) (p : Z) (t : tree) : Prop :=
  match t with
  | E => True
  | T c l x r => h !! x = Some (mk_node (ptr l) (ptr r) p c) /\ trep h x l /\ trep h x r
  end.

(** A node with its child on side [d] given first. *)
Definition dnode (d : dir) (c : Z) (a : tree) (x : Z) (b : tree) : tree :=
  match d with L => T c a x b | R => T c b x a end.

(** A path from a subtree to the root: the subtree hangs on side [fd] of the
    first node, whose other child is [fs]. *)
Record frame := F { fd : dir; fc : Z; fx : Z; fs : tree }.
Definition fplug (f : frame) (t : tree) : tree := dnode (fd f) (fc f) t (fx f) (fs f).
Fixpoint plug (k : list frame) (t : tree) : tree :=
  match k with [] => t | f :: k => plug k (fplug f t) end.

Definition kparent (k : list frame) : Z := match k with [] => 0 | f :: _ => fx f end.
Fixpoint kroot (k : list frame) (p : Z) : Z := match k with [] => p | f :: k => kroot k (fx f) end.
Definition dnode_rec (d : dir) (c a b p : Z) : node :=
  match d with L => mk_node a b p c | R => mk_node b a p c end.
(** The memory of a path whose subtree has the address [p]. *)
Fixpoint krep (h : gmap Z node) (k : list frame) (p : Z) : Prop :=
  match k with
  | [] => True
  | f :: k =>
    h !! fx f = Some (dnode_rec (fd f) (fc f) p (ptr (fs f)) (kparent k)) /\
    trep h (fx f) (fs f) /\ krep h k (fx f)
  end.

(** Nodes before and after the subtree. *)
Fixpoint before (k : list frame) : list Z :=
  match k with
  | [] => []
  | f :: k => before k ++ match fd f with L => [] | R => inorder (fs f) ++ [fx f] end
  end.
Fixpoint after (k : list frame) : list Z :=
  match k with
  | [] => []
  | f :: k => match fd f with L => fx f :: inorder (fs f) | R => [] end ++ after k
  end.
(** The nodes of the path and of the trees beside it. *)
Fixpoint knodes (k : list frame) : list Z :=
  match k with [] => [] | f :: k => fx f :: inorder (fs f) ++ knodes k end.

(** The memory [s] holds the tree [t] and, everywhere else, agrees with
    [h0]. *)
Record rep (h0 : gmap Z node) (s : mem) (t : tree) : Prop := {
  rep_root : rb_node s = ptr t;
  rep_tree : trep (nodes s) 0 t;
  rep_nodup : NoDup (inorder t);
  rep_null : 0 ∉ inorder t;
  rep_rest : forall q, q ∉ inorder t -> nodes s !! q = h0 !! q;
}.

(** ** Shapes *)

Lemma inorder_plug k t : inorder (plug k t) = before k ++ inorder t ++ after k.
Proof.
  revert t. induction k as [|[d c x s] k IH]; intros t; simpl; [by rewrite app_nil_r|].
  rewrite IH. destruct d; simpl; by rewrite ?app_nil_r, <- ?app_assoc.
Qed.

Lemma plug_app k1 k2 t : plug (k1 ++ k2) t = plug k2 (plug k1 t).
Proof. revert t. induction k1; intros t; simpl; [done|]. apply IHk1. Qed.

Lemma inorder_plug_eq k t t' : inorder t = inorder t' -> inorder (plug k t) = inorder (plug k t').
Proof. rewrite !inorder_plug. by intros ->. Qed.

Lemma knodes_perm k : knodes k ≡ₚ before k ++ after k.
Proof.
  induction k as [|[d c x s] k IH]; simpl; [done|]. rewrite IH. destruct d; simpl; solve_Permutation.
Qed.

Lemma inorder_plug_perm k t : inorder (plug k t) ≡ₚ inorder t ++ knodes k.
Proof. rewrite inorder_plug, knodes_perm. solve_Permutation. Qed.

Lemma ptr_plug k t : ptr (plug k t) = kroot k (ptr t).
Proof.
  revert t. induction k as [|[d c x s] k IH]; intros t; simpl; [done|]. rewrite IH. by destruct d.
Qed.

Lemma trep_dnode h p d c a x b :
  trep h p (dnode d c a x b) <->
  h !! x = Some (dnode_rec d c (ptr a) (ptr b) p) /\ trep h x a /\ trep h x b.
Proof. destruct d; simpl; tauto. Qed.

Lemma ptr_dnode d c a x b : ptr (dnode d c a x b) = x.
Proof. by destruct d. Qed.

Lemma trep_plug h k t : trep h 0 (plug k t) <-> krep h k (ptr t) /\ trep h (kparent k) t.
Proof.
  revert t. induction k as [|[d c x s] k IH]; intros t; simpl; [tauto|].
  rewrite IH. unfold fplug. simpl. rewrite trep_dnode, ptr_dnode. tauto.
Qed.

Lemma inorder_dnode_perm d c a x b : inorder (dnode d c a x b) ≡ₚ x :: inorder a ++ inorder b.
Proof. destruct d; simpl; solve_Permutation. Qed.

Lemma ptr_in t : t <> E -> ptr t ∈ inorder t.
Proof. destruct t; [done|]. simpl. set_solver. Qed.

Lemma ptr_null t : 0 ∉ inorder t -> ptr t = 0 -> t = E.
Proof. destruct t; simpl; [done|]. intros H ->. set_solver. Qed.

Lemma height_length t : (height t <= length (inorder t))%nat.
Proof. induction t; simpl; [lia|]. rewrite length_app. simpl. lia. Qed.

(** ** Frames *)

Lemma trep_same h h' p t : (forall q, q ∈ inorder t -> h' !! q = h !! q) -> trep h p t -> trep h' p t.
Proof.
  revert p. induction t as [|c l IHl x r IHr]; intros p Hs; simpl; [done|].
  intros (Hx & Hl & Hr). simpl in Hs. split_and!.
  - rewrite Hs by set_solver. done.
  - apply IHl; [|done]. intros. apply Hs. set_solver.
  - apply IHr; [|done]. intros. apply Hs. set_solver.
Qed.

Lemma krep_same h h' k p : (forall q, q ∈ knodes k -> h' !! q = h !! q) -> krep h k p -> krep h' k p.
Proof.
  revert p. induction k as [|f k IH]; intros p Hs; simpl; [done|].
  intros (Hx & Ht & Hk). simpl in Hs. split_and!.
  - rewrite Hs by set_solver. done.
  - eapply trep_same; [|done]. intros. apply Hs. set_solver.
  - apply IH; [|done]. intros. apply Hs. set_solver.
Qed.

Lemma trep_insert h q n p t : q ∉ inorder t -> trep h p t -> trep (<[q := n]> h) p t.
Proof. intros Hq. apply trep_same. intros y Hy. apply lookup_insert_ne. by intros ->. Qed.

Lemma krep_insert h q n k p : q ∉ knodes k -> krep h k p -> krep (<[q := n]> h) k p.
Proof. intros Hq. apply krep_same. intros y Hy. apply lookup_insert_ne. by intros ->. Qed.

(** ** Running the code *)

Section running.
Context {A B : Type}.

Lemma bind_ld (f : node -> A) p (k : A -> M B) s n :
  nodes s !! p = Some n -> bind (ld f p) k s = k (f n) s.
Proof. unfold bind, ld. by intros ->. Qed.
Lemma bind_st (f : node -> node) p (k : unit -> M B) s n :
  nodes s !! p = Some n -> bind (st f p) k s = k tt (mk_mem (rb_node s) (<[p := f n]> (nodes s))).
Proof. unfold bind, st. by intros ->. Qed.
Lemma bind_some (m : M A) (k : A -> M B) s x s' : m s = Some (x, s') -> bind m k s = k x s'.
Proof. unfold bind. by intros ->. Qed.
End running.

Lemma bind_bind {A B C} (m : M A) (f : A -> M B) (g : B -> M C) s :
  bind (bind m f) g s = bind m (fun x => bind (f x) g) s.
Proof. unfold bind. by destruct (m s) as [[? ?]|]. Qed.
Lemma st_spec f p s n :
  nodes s !! p = Some n -> st f p s = Some (tt, mk_mem (rb_node s) (<[p := f n]> (nodes s))).
Proof. unfold st. by intros ->. Qed.
Lemma ld_some {A} (f : node -> A) p s n : nodes s !! p = Some n -> ld f p s = Some (f n, s).
Proof. unfold ld. by intros ->. Qed.

(** The memory after a subtree or a path is given a new neighbour. *)
Definition reparent (t : tree) (q : Z) (h : gmap Z node) : gmap Z node :=
  match t with E => h | T c l x r => <[x := mk_node (ptr l) (ptr r) q c]> h end.
Definition relink (k : list frame) (p : Z) (s : mem) : mem :=
  match k with
  | [] => mk_mem p (nodes s)
  | f :: k =>
    mk_mem (rb_node s) (<[fx f := dnode_rec (fd f) (fc f) p (ptr (fs f)) (kparent k)]> (nodes s))
  end.

Lemma adopt_spec t p q s :
  0 ∉ inorder t -> trep (nodes s) p t ->
  adopt (ptr t) q s = Some (tt, mk_mem (rb_node s) (reparent t q (nodes s))).
Proof.
  intros H0 Ht. unfold adopt. destruct t as [|c l x r]; simpl in *; [by destruct s|].
  destruct (Z.eqb_spec x 0) as [->|]; [set_solver|]. by rewrite (st_spec _ _ _ _ (proj1 Ht)).
Qed.

Lemma trep_reparent h p q t : NoDup (inorder t) -> trep h p t -> trep (reparent t q h) q t.
Proof.
  destruct t as [|c l x r]; simpl; [done|]. intros (_ & Hl & [Hr _]%NoDup_cons)%NoDup_app (Hx & Hl' & Hr').
  rewrite lookup_insert_eq. split_and!; [done|apply trep_insert; [set_solver|done]..].
Qed.

Lemma reparent_ne h q t y : y ∉ inorder t -> reparent t q h !! y = h !! y.
Proof.
  destruct t as [|c l x r]; simpl; [done|]. intros Hy. apply lookup_insert_ne. intros ->. set_solver.
Qed.

Lemma replace_child_spec d k old new s :
  0 ∉ knodes k -> old <> 0 -> old ∉ knodes k -> krep (nodes s) k old ->
  replace_child d (kparent k) old new s = Some (tt, relink k new s).
Proof.
  intros H0 Hn Ho Hk. unfold replace_child. destruct k as [|f k]; simpl in *; [done|].
  destruct (Z.eqb_spec (fx f) 0) as [E|]; [rewrite E in *; set_solver|].
  destruct Hk as (Hx & Ht & Hk). rewrite (bind_ld _ _ _ _ _ Hx).
  assert (old <> ptr (fs f)) as Hne.
  { intros ->. destruct (fs f); [done|]. simpl in *. set_solver. }
  destruct f as [[] c x t], d; simpl in *; rewrite ?Z.eqb_refl;
    try (rewrite (proj2 (Z.eqb_neq _ _)) by done); by rewrite (st_spec _ _ _ _ Hx).
Qed.

Lemma krep_relink k old new s : NoDup (knodes k) -> krep (nodes s) k old -> krep (nodes (relink k new s)) k new.
Proof.
  destruct k as [|f k]; simpl; [done|].
  intros ([Hi Ho]%not_elem_of_app & _)%NoDup_cons (Hx & Ht & Hk). rewrite lookup_insert_eq.
  split_and!; [done|by apply trep_insert|by apply krep_insert].
Qed.

Lemma relink_ne k p s y : y ∉ knodes k -> nodes (relink k p s) !! y = nodes s !! y.
Proof. destruct k as [|f k]; simpl; [done|]. intros Hy. apply lookup_insert_ne. intros <-. set_solver. Qed.

Lemma relink_root k p q s : rb_node s = kroot k q -> rb_node (relink k p s) = kroot k p.
Proof. by destruct k. Qed.

(** [rep] of a subtree in its context. *)
Record zrep (h0 : gmap Z node) (s : mem) (k : list frame) (t : tree) : Prop := {
  z_root : rb_node s = kroot k (ptr t);
  z_path : krep (nodes s) k (ptr t);
  z_tree : trep (nodes s) (kparent k) t;
  z_nodup : NoDup (inorder t ++ knodes k);
  z_null : 0 ∉ inorder t ++ knodes k;
  z_rest : forall q, q ∉ inorder t ++ knodes k -> nodes s !! q = h0 !! q;
}.

Lemma rep_plug h0 s k t : rep h0 s (plug k t) <-> zrep h0 s k t.
Proof.
  pose proof (inorder_plug_perm k t) as Hp. split.
  - intros [Hr Ht Hn H0 Hq]. rewrite ptr_plug in Hr. apply trep_plug in Ht as [Hk Ht].
    rewrite Hp in Hn. setoid_rewrite Hp in H0. split; try done. intros. apply Hq. by rewrite Hp.
  - intros [Hr Hk Ht Hn H0 Hq]. split; rewrite ?Hp; try done; [by rewrite ptr_plug|by apply trep_plug|].
    intros q. rewrite Hp. apply Hq.
Qed.

(** The record of a node of a tree. *)
Lemma rep_node h0 s k d c a x b :
  rep h0 s (plug k (dnode d c a x b)) ->
  nodes s !! x = Some (dnode_rec d c (ptr a) (ptr b) (kparent k)) /\ x <> 0.
Proof.
  intros [_ _ Ht _ H0 _]%rep_plug. apply trep_dnode in Ht as [? _]. split; [done|]. intros ->.
  rewrite inorder_dnode_perm in H0. set_solver.
Qed.

(** A change of colour. *)
Lemma color_spec h0 s k d c a x b v :
  rep h0 s (plug k (dnode d c a x b)) ->
  exists s', st (upd_color v) x s = Some (tt, s') /\ rep h0 s' (plug k (dnode d v a x b)).
Proof.
  intros [Hr Hk Ht Hn H0 Hq]%rep_plug.
  assert (inorder (dnode d v a x b) = inorder (dnode d c a x b)) as Ei by by destruct d.
  apply trep_dnode in Ht as (Hx & Ha & Hb). rewrite (st_spec _ _ _ _ Hx). eexists. split; [done|].
  apply rep_plug. rewrite (inorder_dnode_perm d c a x b) in *. rewrite ptr_dnode in *.
  simpl in Hn. apply NoDup_cons in Hn as [Hx' Hn].
  split; rewrite ?Ei, ?(inorder_dnode_perm d c a x b), ?ptr_dnode; simpl; try done.
  - apply krep_insert; [set_solver|done].
  - apply trep_dnode. rewrite lookup_insert_eq. split_and!; [by destruct d|apply trep_insert; [set_solver|done]..].
  - by apply NoDup_cons.
  - intros q Hy. rewrite lookup_insert_ne; [by apply Hq|]. intros <-. apply Hy.
    rewrite (inorder_dnode_perm d c a x b). set_solver.
Qed.

(** ** Distinct addresses *)

Definition disj (l k : list Z) : Prop := forall z, z ∈ l -> z ∉ k.

Lemma disj_sym l k : disj l k -> disj k l.
Proof. intros H z Hk Hl. by apply (H z). Qed.
Lemma disj_app l k1 k2 : disj l (k1 ++ k2) <-> disj l k1 /\ disj l k2.
Proof. unfold disj. set_solver. Qed.
Lemma disj_cons l x k : disj l (x :: k) <-> (x ∉ l) /\ disj l k.
Proof. unfold disj. set_solver. Qed.
Lemma nodup_app (l k : list Z) : NoDup (l ++ k) <-> NoDup l /\ disj l k /\ NoDup k.
Proof. apply NoDup_app. Qed.

(** Splits a hypothesis on distinctness into its pairs. *)
Ltac nodup H :=
  repeat first
    [ rewrite nodup_app in H | rewrite NoDup_cons in H | rewrite disj_app in H | rewrite disj_cons in H
    | rewrite not_elem_of_cons in H | rewrite not_elem_of_app in H ];
  destruct_and? H.
Ltac apart := first [assumption | by apply not_eq_sym | apply disj_sym; assumption].

Lemma trep_reparent_ne h q t p t' : disj (inorder t') (inorder t) -> trep h p t' -> trep (reparent t q h) p t'.
Proof. intros Hd. apply trep_same. intros y Hy. apply reparent_ne. auto. Qed.
Lemma krep_reparent h q t k p : disj (inorder t) (knodes k) -> krep h k p -> krep (reparent t q h) k p.
Proof. intros Hd. apply krep_same. intros y Hy. apply reparent_ne. intros ?. by apply (Hd y). Qed.
Lemma trep_relink k q s p t :
  disj (inorder t) (knodes k) -> trep (nodes s) p t -> trep (nodes (relink k q s)) p t.
Proof. intros Hd. apply trep_same. intros y Hy. apply relink_ne. auto. Qed.

(** The content of an address in an updated memory. *)
Ltac look_for :=
  cbn [nodes rb_node];
  repeat first
    [ rewrite lookup_insert_eq
    | rewrite lookup_insert_ne by apart
    | rewrite reparent_ne by apart
    | rewrite relink_ne by apart; cbn [nodes rb_node] ].
Ltac look := look_for; first [eassumption | reflexivity].

(** A subtree or a path that the updates do not touch. *)
Ltac keep :=
  simpl;
  repeat first
    [ eassumption
    | apply trep_insert; [apart|]
    | apply krep_insert; [apart|]
    | eapply trep_reparent; [done|]
    | apply trep_reparent_ne; [apart|]
    | apply krep_reparent; [apart|]
    | apply trep_relink; [apart|]
    | eapply krep_relink; [done|] ].

Lemma rotate_spec h0 s k d c a x c' b y e :
  rep h0 s (plug k (dnode d c a x (dnode d c' b y e))) ->
  exists s', rotate d x s = Some (tt, s') /\ rep h0 s' (plug k (dnode d c' (dnode d c a x b) y e)).
Proof.
  intros [Hr Hk Ht Hn H0 Hq]%rep_plug.
  assert (inorder (dnode d c' (dnode d c a x b) y e) = inorder (dnode d c a x (dnode d c' b y e))) as Ei.
  { destruct d; simpl; by rewrite <- ?app_assoc. }
  rewrite ptr_dnode in *. apply trep_dnode in Ht as (Hx & Ha & (Hy & Hb & He)%trep_dnode).
  rewrite ptr_dnode in Hx.
  assert (inorder (dnode d c a x (dnode d c' b y e)) ++ knodes k ≡ₚ
    x :: y :: inorder a ++ inorder b ++ inorder e ++ knodes k) as Hp.
  { rewrite !inorder_dnode_perm. solve_Permutation. }
  rewrite Hp in Hn. rewrite Hp in H0. pose proof Hn as Hn'. pose proof H0 as H0'. nodup Hn. nodup H0.
  unfold rotate.
  rewrite (bind_ld _ _ _ _ _ Hx), (bind_ld _ _ _ _ _ Hx).
  replace (child (opp d) _) with y by by destruct d.
  replace (parent _) with (kparent k) by by destruct d.
  rewrite (bind_ld _ _ _ _ _ Hy). replace (child d _) with (ptr b) by by destruct d.
  rewrite (bind_st _ _ _ _ _ Hx).
  erewrite bind_ld by look. replace (child d _) with (ptr b) by by destruct d.
  erewrite (bind_some (adopt _ _)); [|apply (adopt_spec b y); [done|apply trep_insert; done]].
  erewrite bind_st by look.
  erewrite (bind_some (replace_child _ _ _ _)); [|apply replace_child_spec; [done..|keep]].
  erewrite bind_st by look. erewrite st_spec by look. eexists. split; [done|]. apply rep_plug.
  split; rewrite ?Ei, ?Hp, ?ptr_dnode; try done.
  - simpl. by eapply relink_root.
  - keep.
  - rewrite trep_dnode, trep_dnode. split_and!; try keep.
    + rewrite ptr_dnode. look_for. by destruct d.
    + look_for. by destruct d.
  - intros q Hy'. rewrite Hp in Hy'. pose proof Hy' as Hy2. nodup Hy2. look_for.
    apply Hq. by rewrite Hp.
Qed.

(** ** Red-black trees *)

(** [rbt c n t]: [t] is a red-black tree with root colour [c] (an empty tree is
    black) and [n] black nodes on every path to a leaf. *)
Inductive rbt : Z -> nat -> tree -> Prop :=
| rbt_empty : rbt RB_BLACK 0 E
| rbt_red n l x r : rbt RB_BLACK n l -> rbt RB_BLACK n r -> rbt RB_RED n (T RB_RED l x r)
| rbt_black n cl cr l x r : rbt cl n l -> rbt cr n r -> rbt RB_BLACK (S n) (T RB_BLACK l x r).

(** [krb k c n]: putting a tree with [rbt c n] in the path gives a red-black
    tree with a black root. *)
Inductive krb : list frame -> Z -> nat -> Prop :=
| krb_nil n : krb [] RB_BLACK n
| krb_red d x s k n : krb k RB_RED n -> rbt RB_BLACK n s -> krb (F d RB_RED x s :: k) RB_BLACK n
| krb_black d x s k c c' n : krb k RB_BLACK (S n) -> rbt c' n s -> krb (F d RB_BLACK x s :: k) c n.

Definition paint (v : Z) (t : tree) : tree := match t with E => E | T _ l x r => T v l x r end.
Definition tcolor (t : tree) : Z := match t with E => RB_BLACK | T c _ _ _ => c end.

Lemma dir_cases (d e : dir) : e = d \/ e = opp d.
Proof. destruct d, e; tauto. Qed.
Lemma dnode_opp d c a x b : dnode (opp d) c a x b = dnode d c b x a.
Proof. by destruct d. Qed.

Lemma rbt_dred d n a x b : rbt RB_BLACK n a -> rbt RB_BLACK n b -> rbt RB_RED n (dnode d RB_RED a x b).
Proof. destruct d; by constructor. Qed.
Lemma rbt_dblack d n ca cb a x b : rbt ca n a -> rbt cb n b -> rbt RB_BLACK (S n) (dnode d RB_BLACK a x b).
Proof. destruct d; by econstructor. Qed.
Lemma rbt_dnode_inv d c n c' a x b :
  rbt c n (dnode d c' a x b) ->
  c = c' /\ ((c = RB_RED /\ rbt RB_BLACK n a /\ rbt RB_BLACK n b) \/
             (c = RB_BLACK /\ exists m ca cb, n = S m /\ rbt ca m a /\ rbt cb m b)).
Proof. destruct d; inversion 1; subst; split; try done; (left + right); (split; [done|]); naive_solver. Qed.

Lemma rbt_colors c n t : rbt c n t -> c = RB_BLACK \/ c = RB_RED.
Proof. destruct 1; tauto. Qed.
Lemma rbt_color c n t : rbt c n t -> c = tcolor t.
Proof. by destruct 1. Qed.
Lemma rbt_paint c n t : rbt c n t -> exists n', rbt RB_BLACK n' (paint RB_BLACK t).
Proof. destruct 1; simpl; eexists; by econstructor. Qed.
Lemma rbt_nonempty c n t : rbt c (S n) t -> t <> E.
Proof. by inversion 1. Qed.
Lemma inorder_paint v t : inorder (paint v t) = inorder t.
Proof. by destruct t. Qed.

(** A red-black tree is shallow. *)
Lemma rbt_height c n t : rbt c n t -> (height t <= 2 * n + Z.to_nat c)%nat.
Proof. induction 1 as [|n l x r _ IHl _ IHr|n cl cr l x r Hl IHl Hr IHr]; simpl in *; [lia..|].
  destruct (rbt_colors _ _ _ Hl) as [->| ->], (rbt_colors _ _ _ Hr) as [->| ->]; lia. Qed.
Lemma rbt_size c n t : rbt c n t -> (2 ^ n <= S (length (inorder t)))%nat.
Proof. induction 1; simpl in *; rewrite ?length_app; simpl; lia. Qed.

Lemma krb_weaken k n : krb k RB_RED n -> krb k RB_BLACK n.
Proof. inversion 1; subst; by econstructor. Qed.

Lemma krb_plug k c n t : krb k c n -> rbt c n t -> exists n', rbt RB_BLACK n' (plug k t).
Proof.
  intros Hk. revert t. induction Hk; intros t Ht; simpl; [by eexists|..]; apply IHHk.
  - by apply rbt_dred.
  - by eapply rbt_dblack.
Qed.

Lemma plug_rbt k n t : rbt RB_BLACK n (plug k t) -> exists c m, krb k c m /\ rbt c m t.
Proof.
  revert t n. induction k as [|[d c x s] k IH]; intros t n Ht; simpl in Ht.
  - exists RB_BLACK, n. split; [constructor|done].
  - apply IH in Ht as (c1 & m & Hk & Ht). unfold fplug in Ht. simpl in Ht.
    apply rbt_dnode_inv in Ht as (-> & [(-> & Ha & Hb)|(-> & m' & ca & cb & -> & Ha & Hb)]).
    + exists RB_BLACK, m. by repeat constructor.
    + exists ca, m'. split; [by econstructor|done].
Qed.

(** ** Reading and painting a tree *)

Section reading.
Context {A : Type} (h0 : gmap Z node).

Lemma rd_child s k d c a x b (f : Z -> M A) :
  rep h0 s (plug k (dnode d c a x b)) -> bind (ld (child d) x) f s = f (ptr a) s.
Proof. intros [H _]%rep_node. rewrite (bind_ld _ _ _ _ _ H). by destruct d. Qed.
Lemma rd_other s k d c a x b (f : Z -> M A) :
  rep h0 s (plug k (dnode d c a x b)) -> bind (ld (child (opp d)) x) f s = f (ptr b) s.
Proof. intros [H _]%rep_node. rewrite (bind_ld _ _ _ _ _ H). by destruct d. Qed.
Lemma rd_parent s k d c a x b (f : Z -> M A) :
  rep h0 s (plug k (dnode d c a x b)) -> bind (ld parent x) f s = f (kparent k) s.
Proof. intros [H _]%rep_node. rewrite (bind_ld _ _ _ _ _ H). by destruct d. Qed.
Lemma rd_color s k d c a x b (f : Z -> M A) :
  rep h0 s (plug k (dnode d c a x b)) -> bind (ld color x) f s = f c s.
Proof. intros [H _]%rep_node. rewrite (bind_ld _ _ _ _ _ H). by destruct d. Qed.

Lemma rep_ptr0 s k t : rep h0 s (plug k t) -> (ptr t =? 0) = bool_decide (t = E).
Proof.
  intros H. destruct t as [|c l x r]; [done|]. rewrite bool_decide_eq_false_2 by done.
  apply Z.eqb_neq. by apply (rep_node h0 s k L c l x r).
Qed.

Lemma rd_is_red s k t (f : bool -> M A) :
  rep h0 s (plug k t) -> bind (is_red (ptr t)) f s = f (tcolor t =? RB_RED) s.
Proof.
  intros H. unfold is_red. rewrite (rep_ptr0 s k t H). destruct t as [|c l x r]; [done|].
  rewrite bool_decide_eq_false_2 by done.
  destruct (rep_node h0 s k L c l x r H) as [Hx _]. unfold bind, ld. simpl. by rewrite Hx.
Qed.
Lemma rd_is_black s k t (f : bool -> M A) :
  rep h0 s (plug k t) -> bind (is_black (ptr t)) f s = f (tcolor t =? RB_BLACK) s.
Proof.
  intros H. unfold is_black. rewrite (rep_ptr0 s k t H). destruct t as [|c l x r]; [done|].
  rewrite bool_decide_eq_false_2 by done.
  destruct (rep_node h0 s k L c l x r H) as [Hx _]. unfold bind, ld. simpl. by rewrite Hx.
Qed.
End reading.

Lemma set_black_spec h0 s k t :
  rep h0 s (plug k t) ->
  exists s', set_black (ptr t) s = Some (tt, s') /\ rep h0 s' (plug k (paint RB_BLACK t)).
Proof.
  intros H. unfold set_black. rewrite (rep_ptr0 h0 s k t H). destruct t as [|c l x r]; [by eexists|].
  rewrite bool_decide_eq_false_2 by done. apply (color_spec h0 s k L c l x r RB_BLACK H).
Qed.
Lemma set_red_spec h0 s k t :
  rep h0 s (plug k t) ->
  exists s', set_red (ptr t) s = Some (tt, s') /\ rep h0 s' (plug k (paint RB_RED t)).
Proof.
  intros H. unfold set_red. rewrite (rep_ptr0 h0 s k t H). destruct t as [|c l x r]; [by eexists|].
  rewrite bool_decide_eq_false_2 by done. apply (color_spec h0 s k L c l x r RB_RED H).
Qed.

(** ** Insertion *)

(** Runs a step whose effect a lemma gives. *)
Ltac step L s' H' :=
  let E := fresh in
  destruct L as (s' & E & H'); rewrite (bind_some _ _ _ _ _ E); clear E.

Section insertion.
Context (h0 : gmap Z node).
Implicit Types (s : mem) (k : list frame) (a b u t : tree).

(** The second child, in the first place. *)
Lemma rep_swap s k d c a x b :
  rep h0 s (plug k (dnode d c a x b)) <-> rep h0 s (plug (F (opp d) c x a :: k) b).
Proof. unfold plug at 2. unfold fplug. simpl. by rewrite dnode_opp. Qed.

Lemma insert_case_red s k d d' e c a n b p sib g u :
  rep h0 s (plug k (dnode d RB_BLACK (dnode d' RB_RED (dnode e c a n b) p sib) g u)) ->
  tcolor u = RB_RED ->
  exists s', insert_case d n g s = Some (g, s') /\
    rep h0 s' (plug k (dnode d RB_RED (dnode d' RB_BLACK (dnode e c a n b) p sib) g (paint RB_BLACK u))).
Proof.
  intros H Hu. unfold insert_case. rewrite (rd_other h0 s _ _ _ _ _ _ _ H).
  rewrite (rd_is_red h0 s (F (opp d) RB_BLACK g _ :: k) u _ (proj1 (rep_swap _ _ _ _ _ _ _) H)).
  rewrite Hu, Z.eqb_refl. cbv iota.
  rewrite (rd_parent h0 s (F d' RB_RED p sib :: F d RB_BLACK g u :: k) e c a n b _ H). simpl (kparent _).
  pose proof (set_black_spec h0 s (F d RB_BLACK g u :: k) (dnode d' RB_RED (dnode e c a n b) p sib) H) as H1.
  rewrite ptr_dnode in H1. step H1 s1 H2.
  replace (paint _ _) with (dnode d' RB_BLACK (dnode e c a n b) p sib) in H2 by by destruct d'.
  apply (rep_swap _ k d) in H2. step (set_black_spec h0 s1 _ u H2) s2 H3.
  apply (rep_swap _ k d) in H3. pose proof (set_red_spec h0 s2 k _ H3) as H4. rewrite ptr_dnode in H4. step H4 s3 H5.
  exists s3. split; [done|]. by destruct d.
Qed.

(** The rotation that ends the loop. *)
Lemma insert_rotate s k d X q Y g u (f : M Z) :
  rep h0 s (plug k (dnode d RB_BLACK (dnode d RB_RED X q Y) g u)) ->
  exists s', (set_black q;;; set_red g;;; rotate (opp d) g;;; f) s = f s' /\
    rep h0 s' (plug k (dnode d RB_BLACK X q (dnode d RB_RED Y g u))).
Proof.
  intros H.
  pose proof (set_black_spec h0 s (F d RB_BLACK g u :: k) (dnode d RB_RED X q Y) H) as H1.
  rewrite ptr_dnode in H1. step H1 s1 H2.
  replace (paint _ _) with (dnode d RB_BLACK X q Y) in H2 by by destruct d.
  pose proof (set_red_spec h0 s1 k (dnode d RB_BLACK (dnode d RB_BLACK X q Y) g u) H2) as H3.
  rewrite ptr_dnode in H3. step H3 s2 H4.
  replace (paint _ _) with (dnode (opp d) RB_RED u g (dnode (opp d) RB_BLACK Y q X)) in H4 by by destruct d.
  step (rotate_spec h0 s2 k (opp d) _ _ _ _ _ _ _ H4) s3 H5.
  exists s3. split; [done|]. by rewrite !dnode_opp in H5.
Qed.

Lemma insert_case_outer s k d e c a n b p sib g u :
  rep h0 s (plug k (dnode d RB_BLACK (dnode d RB_RED (dnode e c a n b) p sib) g u)) ->
  tcolor u <> RB_RED ->
  exists s', insert_case d n g s = Some (n, s') /\
    rep h0 s' (plug k (dnode d RB_BLACK (dnode e c a n b) p (dnode d RB_RED sib g u))).
Proof.
  intros H Hu. unfold insert_case. rewrite (rd_other h0 s _ _ _ _ _ _ _ H).
  rewrite (rd_is_red h0 s (F (opp d) RB_BLACK g _ :: k) u _ (proj1 (rep_swap _ _ _ _ _ _ _) H)).
  rewrite (proj2 (Z.eqb_neq _ _) Hu). cbv iota.
  rewrite (rd_parent h0 s (F d RB_RED p sib :: F d RB_BLACK g u :: k) e c a n b _ H). simpl (kparent _).
  rewrite (rd_other h0 s (F d RB_BLACK g u :: k) d _ _ _ _ _ H).
  assert ((n =? ptr sib) = false) as ->.
  { apply Z.eqb_neq. intros ->. pose proof (rep_node h0 s (F d RB_RED p sib :: F d RB_BLACK g u :: k) _ _ _ _ _ H) as [_ H0].
    apply rep_plug in H as [_ _ _ Hn _ _]. assert (sib <> E) as Hs by by intros ->. apply ptr_in in Hs.
    rewrite !inorder_dnode_perm in Hn. nodup Hn. set_solver. }
  rewrite (bind_some (ret n) _ s n s eq_refl).
  rewrite (rd_parent h0 s (F d RB_RED p sib :: F d RB_BLACK g u :: k) e c a n b _ H). simpl (kparent _).
  apply (insert_rotate _ _ _ _ _ _ _ _ (ret n)) in H as (s' & -> & H). by exists s'.
Qed.

Lemma insert_case_inner s k d c a n b p sib g u :
  rep h0 s (plug k (dnode d RB_BLACK (dnode d RB_RED sib p (dnode d c a n b)) g u)) ->
  c = RB_RED -> tcolor u <> RB_RED ->
  exists s', insert_case d n g s = Some (p, s') /\
    rep h0 s' (plug k (dnode d RB_BLACK (dnode d RB_RED sib p a) n (dnode d RB_RED b g u))).
Proof.
  intros H -> Hu. unfold insert_case. rewrite (rd_other h0 s _ _ _ _ _ _ _ H).
  rewrite (rd_is_red h0 s (F (opp d) RB_BLACK g _ :: k) u _ (proj1 (rep_swap _ _ _ _ _ _ _) H)).
  rewrite (proj2 (Z.eqb_neq _ _) Hu). cbv iota.
  pose proof (proj1 (rep_swap s (F d RB_BLACK g u :: k) d _ _ _ _) H) as H'.
  rewrite (rd_parent h0 s _ d _ a n b _ H'). simpl (kparent _).
  rewrite (rd_other h0 s (F d RB_BLACK g u :: k) d _ _ _ _ _ H). rewrite ptr_dnode, Z.eqb_refl.
  pose proof (rotate_spec h0 s (F d RB_BLACK g u :: k) d _ _ _ _ _ _ _ H) as (s1 & E1 & H1).
  rewrite (bind_some _ _ s p s1).
  2: { rewrite (rd_parent h0 s _ d _ a n b _ H'). simpl (kparent _). by rewrite (bind_some _ _ _ _ _ E1). }
  rewrite (rd_parent h0 s1 (F d RB_RED n b :: F d RB_BLACK g u :: k) d _ sib p a _ H1). simpl (kparent _).
  apply (insert_rotate _ k d _ n _ g u (ret p)) in H1 as (s' & -> & H2). by exists s'.
Qed.

Lemma rd_side s k d c t g u :
  rep h0 s (plug k (dnode d c t g u)) -> t <> E \/ u <> E ->
  exists l, ld left g s = Some (l, s) /\ (if ptr t =? l then L else R) = d.
Proof.
  intros H Ht. pose proof (rep_node _ _ _ _ _ _ _ _ H) as [Hg _]. rewrite (ld_some _ _ _ _ Hg).
  eexists. split; [done|]. destruct d; simpl; [by rewrite Z.eqb_refl|].
  destruct (Z.eqb_spec (ptr t) (ptr u)) as [E|]; [exfalso|done].
  apply rep_plug in H as [_ _ _ Hn H0 _]. rewrite inorder_dnode_perm in Hn, H0. nodup Hn. nodup H0.
  destruct t, u; simpl in *; subst; destruct Ht; set_solver.
Qed.

Lemma insert_fixup_stop s fuel k d e c a n b p sib :
  rep h0 s (plug k (dnode d RB_BLACK (dnode e c a n b) p sib)) ->
  insert_fixup (S fuel) n s = Some (tt, s).
Proof.
  intros H. simpl. rewrite (rd_parent h0 s (F d RB_BLACK p sib :: k) e c a n b _ H). simpl (kparent _).
  pose proof (rep_node _ _ _ _ _ _ _ _ H) as [_ Hp%Z.eqb_neq]. rewrite Hp.
  by rewrite (rd_color h0 s k d _ _ _ _ _ H).
Qed.

(** What the loop leaves for [set_black(root->rb_node)]. *)
Definition fixed (xs : list Z) (s : mem) : Prop :=
  exists t m, rep h0 s t /\ inorder t = xs /\ rbt RB_BLACK m (paint RB_BLACK t).

Lemma fixed_krb s k c m t xs :
  rep h0 s (plug k t) -> krb k c m -> rbt c m t -> inorder (plug k t) = xs -> fixed xs s.
Proof.
  intros H Hk Ht E. destruct (krb_plug _ _ _ _ Hk Ht) as [m' Hm]. destruct (rbt_paint _ _ _ Hm) as [m2 Hm2].
  by exists (plug k t), m2.
Qed.

Lemma fixed_eq xs ys s : fixed xs s -> xs = ys -> fixed ys s.
Proof. by intros ? <-. Qed.

Lemma insert_fixup_rotate s fuel k d d' e a n b p sib g u m c :
  rep h0 s (plug k (dnode d RB_BLACK (dnode d' RB_RED (dnode e RB_RED a n b) p sib) g u)) ->
  krb k RB_BLACK (S m) -> rbt RB_BLACK m a -> rbt RB_BLACK m b -> rbt RB_BLACK m sib -> rbt c m u ->
  c <> RB_RED -> exists s', bind (insert_case d n g) (insert_fixup (S fuel)) s = Some (tt, s') /\
    fixed (inorder (plug k (dnode d RB_BLACK (dnode d' RB_RED (dnode e RB_RED a n b) p sib) g u))) s'.
Proof.
  intros H Hk Ha Hb Hs Hu Hc. pose proof (rbt_color _ _ _ Hu) as Ec. subst c.
  assert (rbt RB_BLACK m u) as Hu' by (destruct (rbt_colors _ _ _ Hu) as [E|]; [by rewrite E in Hu|done]).
  destruct (dir_cases d d') as [->| ->].
  - step (insert_case_outer _ _ _ _ _ _ _ _ _ _ _ _ H Hc) s1 H1. exists s1.
    rewrite (insert_fixup_stop _ _ _ _ _ _ _ _ _ _ _ H1). split; [done|].
    eapply fixed_krb; [exact H1|exact Hk|..].
    + eapply rbt_dblack; by apply rbt_dred.
    + apply inorder_plug_eq. destruct d; simpl; by rewrite <- ?app_assoc.
  - assert (exists a' b', dnode e RB_RED a n b = dnode d RB_RED a' n b' /\
      rbt RB_BLACK m a' /\ rbt RB_BLACK m b') as (a' & b' & E & Ha' & Hb').
    { destruct (dir_cases d e) as [->| ->]; [by eexists _, _|]. rewrite dnode_opp. by eexists _, _. }
    rewrite E, dnode_opp in *. step (insert_case_inner _ _ _ _ _ _ _ _ _ _ _ H eq_refl Hc) s1 H1. exists s1.
    rewrite (insert_fixup_stop _ _ _ _ _ _ _ _ _ _ _ H1). split; [done|].
    eapply fixed_krb; [exact H1|exact Hk|..].
    + eapply rbt_dblack; by apply rbt_dred.
    + apply inorder_plug_eq. destruct d; simpl; by rewrite <- ?app_assoc; simpl; rewrite <- ?app_assoc.
Qed.

Lemma insert_fixup_spec fuel s k e a n b m :
  rep h0 s (plug k (dnode e RB_RED a n b)) -> krb k RB_BLACK m -> rbt RB_BLACK m a -> rbt RB_BLACK m b ->
  (length k < fuel)%nat ->
  exists s', insert_fixup fuel n s = Some (tt, s') /\ fixed (inorder (plug k (dnode e RB_RED a n b))) s'.
Proof.
  revert s k e a n b m. induction fuel as [|fuel IH]; intros s k e a n b m H Hk Ha Hb Hf; [lia|].
  inversion Hk; subst.
  - exists s. simpl. rewrite (rd_parent h0 s [] e _ a n b _ H). split; [done|].
    exists (dnode e RB_RED a n b), (S m). split_and!; try done. destruct e; by econstructor.
  - rename H0 into Hk1, H1 into Hs, k0 into k1, s0 into sib, x into p.
    inversion Hk1 as [| |d' g u k2 c1 c' m1 Hk2 Hu]; subst. simpl insert_fixup.
    rewrite (rd_parent h0 s (F d RB_RED p sib :: F d' RB_BLACK g u :: k2) e _ a n b _ H). simpl (kparent _).
    pose proof (rep_node h0 s (F d' RB_BLACK g u :: k2) d _ _ p sib H) as [_ Hp%Z.eqb_neq]. rewrite Hp.
    rewrite (rd_color h0 s (F d' RB_BLACK g u :: k2) d _ _ p sib _ H), Z.eqb_refl. cbv iota.
    rewrite (rd_parent h0 s (F d' RB_BLACK g u :: k2) d _ _ p sib _ H). simpl (kparent _).
    edestruct (rd_side s k2 d' RB_BLACK (dnode d RB_RED (dnode e RB_RED a n b) p sib) g u) as (l & E & Ed);
      [exact H|left; by destruct d|].
    rewrite (bind_some _ _ _ _ _ E). clear E. rewrite ptr_dnode in Ed. rewrite Ed.
    destruct (decide (c' = RB_RED)) as [->|Hc].
    + step (insert_case_red _ _ _ _ _ _ _ _ _ _ _ _ _ H (eq_sym (rbt_color _ _ _ Hu))) s1 H1.
      destruct (IH s1 k2 d' _ _ _ (S m) H1) as (s' & E & Hx); try done.
      * by eapply rbt_dblack; [apply rbt_dred|].
      * inversion Hu; subst. by econstructor.
      * simpl in Hf. lia.
      * exists s'. split; [done|]. eapply fixed_eq; [exact Hx|]. apply (inorder_plug_eq k2).
        destruct d', d; simpl; by rewrite inorder_paint.
    + destruct fuel as [|fuel]; [simpl in Hf; lia|]. by eapply insert_fixup_rotate.
  - exists s. rewrite (insert_fixup_stop _ _ _ _ _ _ _ _ _ _ _ H). split; [done|].
    eapply (fixed_krb _ (F d RB_BLACK x s0 :: k0) RB_RED m); [exact H| |by apply rbt_dred|done]. by econstructor.
Qed.

(** The fuel covers every path of the tree. *)
Lemma trep_in h p t x : trep h p t -> x ∈ inorder t -> is_Some (h !! x).
Proof.
  revert p. induction t as [|c l IHl y r IHr]; intros p; simpl; [set_solver|].
  intros (Hy & Hl & Hr). rewrite elem_of_app, elem_of_cons. naive_solver.
Qed.
Lemma rep_size s t : rep h0 s t -> (length (inorder t) <= size (nodes s))%nat.
Proof.
  intros [_ Ht Hn _ _]. rewrite <- size_dom, <- (size_list_to_set (C := gset Z) (inorder t) Hn).
  apply subseteq_size. intros x Hx%elem_of_list_to_set. apply elem_of_dom. by eapply trep_in.
Qed.
Lemma path_length k t : (length k + length (inorder t) <= length (inorder (plug k t)))%nat.
Proof.
  revert t. induction k as [|[d c x b] k IH]; intros t; simpl; [lia|].
  specialize (IH (fplug (F d c x b) t)). unfold fplug in *. simpl in *.
  rewrite (inorder_dnode_perm d c t x b) in IH at 1. simpl in IH. rewrite length_app in IH. lia.
Qed.

Definition klink (k : list frame) : link := match k with [] => None | f :: _ => Some (fd f, fx f) end.

Lemma rd_link s k t : rep h0 s (plug k t) -> ld_link (klink k) s = Some (ptr t, s).
Proof.
  intros H. destruct k as [|[d c x b] k]; simpl.
  - unfold ld_link, ld_root. by rewrite (rep_root _ _ _ H).
  - pose proof (rep_node h0 s k d c t x b H) as [Hx _]. rewrite (ld_some _ _ _ _ Hx). by destruct d.
Qed.

(** A comparison function that orders distinct nodes. *)
Record comparator (cmp : Z -> Z -> Z) : Prop := {
  cmp_anti : forall x y, x <> y -> 0 < cmp x y -> cmp y x < 0;
  cmp_anti' : forall x y, x <> y -> cmp x y < 0 -> 0 < cmp y x;
  cmp_trans : forall x y z, cmp x y < 0 -> cmp y z < 0 -> cmp x z < 0;
}.
Definition ordered (cmp : Z -> Z -> Z) : list Z -> Prop := StronglySorted (fun x y => cmp x y < 0).

Section compared.
Context (cmp : Z -> Z -> Z) (Hcmp : comparator cmp) (x : Z).

(** Everything before the path is below [x] and everything after it above. *)
Definition placed (k : list frame) : Prop :=
  (forall y, y ∈ before k -> 0 < cmp x y) /\ (forall y, y ∈ after k -> cmp x y < 0).

Lemma placed_down d c y b k t :
  placed k -> ordered cmp (inorder (plug (F d c y b :: k) t)) -> x ∉ inorder (plug (F d c y b :: k) t) ->
  match d with L => cmp x y < 0 | R => 0 < cmp x y end -> placed (F d c y b :: k).
Proof.
  intros [Hb Ha] Ho Hx Hy. rewrite inorder_plug in Ho, Hx. destruct d; simpl in *; split; simpl.
  - intros z. rewrite app_nil_r. apply Hb.
  - apply StronglySorted_app_1_r, StronglySorted_app_1_r, StronglySorted_cons in Ho as [Ho _].
    rewrite Forall_app, Forall_forall in Ho. intros z. rewrite elem_of_cons, elem_of_app. intros [->| [Hz|Hz]]; [done| |by apply Ha].
    by eapply (cmp_trans _ Hcmp); [|apply Ho].
  - intros z. rewrite !elem_of_app, list_elem_of_singleton. intros [Hz| [Hz| ->]]; [by apply Hb| |done].
    assert (cmp z y < 0) as Hzy.
    { apply StronglySorted_app_1_l in Ho. apply StronglySorted_app_1_r in Ho.
      apply (StronglySorted_app_1_elem_of _ _ _ _ _ Ho Hz). set_solver. }
    assert (y <> x /\ z <> x) as [] by set_solver.
    apply (cmp_anti' _ Hcmp); [done|]. eapply (cmp_trans _ Hcmp); [exact Hzy|]. by apply (cmp_anti _ Hcmp).
  - done.
Qed.

Lemma descend_spec t : forall fuel s k,
  rep h0 s (plug k t) -> ordered cmp (inorder (plug k t)) -> x ∉ inorder (plug k t) -> placed k ->
  (height t < fuel)%nat ->
  (exists y, y ∈ inorder t /\ cmp x y = 0 /\ descend fuel cmp x (klink k) (kparent k) s = Some (inl y, s)) \/
  (exists k', plug k t = plug k' E /\ placed k' /\
    descend fuel cmp x (klink k) (kparent k) s = Some (inr (klink k', kparent k'), s)).
Proof.
  induction t as [|c l IHl y r IHr]; intros [|fuel] s k H Ho Hx Hp Hf; try (simpl in Hf; lia); simpl descend.
  - right. exists k. split_and!; try done. by rewrite (bind_some _ _ _ _ _ (rd_link _ _ _ H)).
  - rewrite (bind_some _ _ _ _ _ (rd_link _ _ _ H)). rewrite (rep_ptr0 h0 s k _ H).
    rewrite bool_decide_eq_false_2 by done. simpl (ptr _). simpl in Hf.
    destruct (Z.ltb_spec (cmp x y) 0).
    + destruct (IHl fuel s (F L c y r :: k)) as [(z & Hz & E)|(k' & E & E')]; try done; try lia.
      * by apply (placed_down _ _ _ _ _ l).
      * left. exists z. split; [simpl; set_solver|done].
      * right. by exists k'.
    + destruct (Z.ltb_spec 0 (cmp x y)).
      * destruct (IHr fuel s (F R c y l :: k)) as [(z & Hz & E)|(k' & E & E')]; try done; try lia.
        -- by apply (placed_down _ _ _ _ _ r).
        -- left. exists z. split; [simpl; set_solver|done].
        -- right. by exists k'.
      * left. exists y. split_and!; [simpl; set_solver|lia|done].
Qed.

Lemma st_link_spec k p v s : krep (nodes s) k p -> st_link (klink k) v s = Some (tt, relink k v s).
Proof.
  destruct k as [|[d c y b] k]; simpl; [done|]. intros (Hy & _). rewrite (st_spec _ _ _ _ Hy). by destruct d.
Qed.

Lemma link_spec s k :
  rep h0 s (plug k E) -> x ∉ inorder (plug k E) -> x <> 0 -> is_Some (nodes s !! x) ->
  exists s',
    (forall A (f : M A),
      (st (upd_child L 0) x;;; st (upd_child R 0) x;;; st (upd_parent (kparent k)) x;;;
       st (upd_color RB_RED) x;;; st_link (klink k) x;;; f) s = f s') /\
    rep h0 s' (plug k (dnode L RB_RED E x E)).
Proof.
  intros [Hr Hk _ Hn H0 Hq]%rep_plug Hx Hx0 [n Hn0]. rewrite inorder_plug_perm in Hx. simpl in *.
  eexists. split.
  { intros A f.
    rewrite (bind_st _ _ _ _ _ Hn0). erewrite bind_st by look. erewrite bind_st by look. erewrite bind_st by look.
    cbn [nodes rb_node]. rewrite !insert_insert_eq. erewrite bind_some; [|eapply st_link_spec; keep]. done. }
  apply rep_plug. split; simpl.
  - by eapply relink_root.
  - keep.
  - split; [look|done].
  - by apply NoDup_cons.
  - rewrite not_elem_of_cons. done.
  - intros q [Hqx Hqk]%not_elem_of_cons. look_for. by apply Hq.
Qed.

Lemma placed_split k t0 :
  ordered cmp (inorder (plug k E)) -> x ∉ inorder (plug k E) -> placed k -> inorder t0 = [x] ->
  ordered cmp (inorder (plug k t0)) /\ inorder (plug k t0) ≡ₚ x :: inorder (plug k E).
Proof.
  intros Ho Hx [Hb Ha] E. rewrite !inorder_plug in *. rewrite E. simpl in *. split; [|solve_Permutation].
  apply StronglySorted_app in Ho as (Hba & Hob & Hoa). apply StronglySorted_app_2; [|done|].
  - intros y z Hy. rewrite elem_of_cons. intros [->|Hz]; [|by apply Hba].
    apply (cmp_anti _ Hcmp); [set_solver|by apply Hb].
  - apply StronglySorted_cons. split; [|done]. apply Forall_forall. apply Ha.
Qed.

Lemma insert_spec s t m :
  rep h0 s t -> rbt RB_BLACK m t -> ordered cmp (inorder t) -> x ∉ inorder t -> x <> 0 ->
  is_Some (nodes s !! x) ->
  (exists y, y ∈ inorder t /\ cmp x y = 0 /\ rbtree_insert x cmp s = Some (y, s)) \/
  (exists s' t' m', rbtree_insert x cmp s = Some (0, s') /\ rep h0 s' t' /\ rbt RB_BLACK m' t' /\
    ordered cmp (inorder t') /\ inorder t' ≡ₚ x :: inorder t /\ (forall y, y ∈ inorder t -> cmp x y <> 0)).
Proof.
  intros H Ht Ho Hx Hx0 Hn. pose proof (rep_size _ _ H) as Hsz. pose proof (height_length t). unfold rbtree_insert.
  destruct (descend_spec t (fuel_of s) s [] H Ho Hx) as [(y & Hy & Hc & Ed)|(k & Ek & Hp & Ed)];
    [split; set_solver|unfold fuel_of; lia|left; exists y; by rewrite (bind_some _ _ _ _ _ Ed)|].
  right. simpl in Ek. subst t. rewrite (bind_some _ _ _ _ _ Ed).
  pose proof (path_length k E) as Hlen.
  destruct (link_spec s k) as (s1 & E1 & H1); [done..|]. rewrite E1.
  destruct (plug_rbt _ _ _ Ht) as (c & m1 & Hk & He). inversion He; subst.
  destruct (insert_fixup_spec (fuel_of s) s1 k L E x E 0 H1 Hk) as (s2 & E2 & t2 & m2 & H2 & Ei & Hm2);
    [done..|unfold fuel_of; lia|].
  rewrite (bind_some _ _ _ _ _ E2). rewrite (bind_some ld_root _ s2 (rb_node s2) s2 eq_refl).
  rewrite (rep_root _ _ _ H2). step (set_black_spec h0 s2 [] t2 H2) s3 H3. simpl in H3.
  destruct (placed_split k (dnode L RB_RED E x E) Ho Hx Hp eq_refl) as [Ho' Hp'].
  exists s3, (paint RB_BLACK t2), m2. rewrite inorder_paint, Ei. split_and!; try done.
  intros y. rewrite inorder_plug. simpl. destruct Hp as [Hb Ha]. intros [Hy|Hy]%elem_of_app; [specialize (Hb y Hy)|specialize (Ha y Hy)]; lia.
Qed.
End compared.
End insertion.

(** ** Removal *)

Section removal.
Context (h0 : gmap Z node).
Implicit Types (s : mem) (k : list frame) (a b u t : tree).

Lemma rbt_S_inv d c m t :
  rbt c (S m) t -> exists a y b, t = dnode d c a y b /\
    ((c = RB_RED /\ rbt RB_BLACK (S m) a /\ rbt RB_BLACK (S m) b) \/
     (c = RB_BLACK /\ exists ca cb, rbt ca m a /\ rbt cb m b)).
Proof.
  intros H. destruct t as [|c' l y r]; [inversion H|]. pose proof (rbt_color _ _ _ H) as E. simpl in E. subst c'.
  assert (exists a b, T c l y r = dnode d c a y b) as (a & b & E) by (destruct d; by eexists _, _).
  rewrite E in H. exists a, y, b. split; [done|].
  apply rbt_dnode_inv in H as (_ & [?|(? & m' & ca & cb & [= <-] & ? & ?)]); [by left|right]. naive_solver.
Qed.

(** A is_rbtree tree: red-black, with the nodes it had. *)
Definition is_rbtree (xs : list Z) (s : mem) : Prop :=
  exists t m, rep h0 s t /\ inorder t = xs /\ rbt RB_BLACK m t.

Lemma is_rbtree_krb s k c m t xs :
  rep h0 s (plug k t) -> krb k c m -> rbt c m t -> inorder (plug k t) = xs -> is_rbtree xs s.
Proof. intros H Hk Ht Ei. destruct (krb_plug _ _ _ _ Hk Ht) as [m' Hm]. by exists (plug k t), m'. Qed.

(** The path above [p] takes back a tree of [p]'s colour and old height. *)
Definition accepts k (cp : Z) (m : nat) : Prop :=
  (cp = RB_RED /\ krb k RB_RED (S m)) \/ (cp = RB_BLACK /\ krb k RB_BLACK (S (S m))).

(** The rotation that ends the loop: the far nephew is red. *)
Lemma erase_rotate s k d cp t p cs sn y z fa fb m cn :
  rep h0 s (plug k (dnode d cp t p (dnode d cs sn y (dnode d RB_RED fa z fb)))) ->
  accepts k cp m -> rbt RB_BLACK m t -> rbt cn m sn -> rbt RB_BLACK m fa -> rbt RB_BLACK m fb ->
  exists s', (c <- ld color p;; st (upd_color c) y;;; set_black p;;;
      far <- ld (child (opp d)) y;; set_black far;;; rotate d p;;; ret (A := option (Z * Z)) None) s = Some (None, s') /\
    is_rbtree (inorder (plug k (dnode d cp t p (dnode d cs sn y (dnode d RB_RED fa z fb))))) s'.
Proof.
  intros H Hk Ht Hn Hfa Hfb. rewrite (rd_color h0 s k d _ _ _ _ _ H).
  step (color_spec h0 s (F (opp d) cp p t :: k) d cs sn y (dnode d RB_RED fa z fb) cp (proj1 (rep_swap _ _ _ _ _ _ _ _) H)) s1 H1.
  apply (rep_swap _ _ k d) in H1.
  pose proof (set_black_spec h0 s1 k _ H1) as X. rewrite ptr_dnode in X. step X s2 H2.
  replace (paint _ _) with (dnode d RB_BLACK t p (dnode d cp sn y (dnode d RB_RED fa z fb))) in H2 by by destruct d.
  apply (rep_swap _ _ k d) in H2. rewrite (rd_other h0 s2 _ d _ _ y _ _ H2).
  apply (rep_swap _ _ (F (opp d) RB_BLACK p t :: k) d) in H2.
  step (set_black_spec h0 s2 _ _ H2) s3 H3.
  replace (paint _ _) with (dnode d RB_BLACK fa z fb) in H3 by by destruct d.
  apply (rep_swap _ _ (F (opp d) RB_BLACK p t :: k) d) in H3. apply (rep_swap _ _ k d) in H3.
  step (rotate_spec h0 s3 k d _ _ _ _ _ _ _ H3) s4 H4. exists s4. split; [done|].
  destruct Hk as [[-> Hk]|[-> Hk]].
  - eapply (is_rbtree_krb _ _ _ _ _ _ H4 Hk); [|apply inorder_plug_eq; destruct d; simpl; by rewrite <- ?app_assoc].
    apply rbt_dred; by eapply rbt_dblack.
  - eapply (is_rbtree_krb _ _ _ _ _ _ H4 Hk); [|apply inorder_plug_eq; destruct d; simpl; by rewrite <- ?app_assoc].
    eapply rbt_dblack; by eapply rbt_dblack.
Qed.

Lemma rbt_red_inv d c m t :
  rbt c m t -> tcolor t = RB_RED -> exists a y b, t = dnode d RB_RED a y b /\ rbt RB_BLACK m a /\ rbt RB_BLACK m b.
Proof.
  destruct 1 as [|n l x r Hl Hr|]; try done. intros _. destruct d; [exists l, x, r|exists r, x, l]; done.
Qed.
Lemma rbt_black_of c m t : rbt c m t -> tcolor t = RB_BLACK -> rbt RB_BLACK m t.
Proof. intros H E. apply rbt_color in H as E'. by rewrite <- E, <- E'. Qed.
Lemma rbt_not_black c m t : rbt c m t -> tcolor t <> RB_BLACK -> tcolor t = RB_RED.
Proof. intros H. rewrite <- (rbt_color _ _ _ H). destruct (rbt_colors _ _ _ H); [by intros []|done]. Qed.

(** The near nephew is red and the far one black: one rotation makes the far
    nephew red. *)
Lemma erase_near s k d cp t p sn y sf m cn cf :
  rep h0 s (plug k (dnode d cp t p (dnode d RB_BLACK sn y sf))) ->
  rbt cn m sn -> tcolor sn = RB_RED -> rbt cf m sf -> tcolor sf = RB_BLACK ->
  exists s' a z b, (near <- ld (child d) y;; set_black near;;; set_red y;;; rotate (opp d) y;;;
      ld (child (opp d)) p) s = Some (z, s') /\
    rep h0 s' (plug k (dnode d cp t p (dnode d RB_BLACK a z (dnode d RB_RED b y sf)))) /\
    rbt RB_BLACK m a /\ rbt RB_BLACK m b /\ inorder (dnode d RB_BLACK a z (dnode d RB_RED b y sf)) =
      inorder (dnode d RB_BLACK sn y sf).
Proof.
  intros H Hn Cn Hf Cf. destruct (rbt_red_inv d _ _ _ Hn Cn) as (a & z & b & -> & Ha & Hb).
  apply (rep_swap _ _ k d) in H. rewrite (rd_child h0 s _ d _ _ y _ _ H). rewrite ptr_dnode.
  pose proof (set_black_spec h0 s (F d RB_BLACK y sf :: F (opp d) cp p t :: k) _ H) as X.
  rewrite ptr_dnode in X. step X s1 H1.
  replace (paint _ _) with (dnode d RB_BLACK a z b) in H1 by by destruct d.
  pose proof (set_red_spec h0 s1 (F (opp d) cp p t :: k) (dnode d RB_BLACK (dnode d RB_BLACK a z b) y sf) H1) as X.
  rewrite ptr_dnode in X. step X s2 H2.
  replace (paint _ _) with (dnode (opp d) RB_RED sf y (dnode (opp d) RB_BLACK b z a)) in H2 by by destruct d.
  step (rotate_spec h0 s2 _ (opp d) _ _ _ _ _ _ _ H2) s3 H3. rewrite !dnode_opp in H3.
  apply (rep_swap _ _ k d) in H3. pose proof (rep_node _ _ _ _ _ _ _ _ H3) as [Hp _].
  exists s3, a, z, b. rewrite (ld_some _ _ _ _ Hp). split_and!; try done.
  - destruct d; done.
  - destruct d; simpl; by rewrite <- ?app_assoc.
Qed.

Lemma erase_sibling_spec s k d cp t p sn y sf m cn cf :
  rep h0 s (plug k (dnode d cp t p (dnode d RB_BLACK sn y sf))) ->
  accepts k cp m -> rbt RB_BLACK m t -> rbt cn m sn -> rbt cf m sf ->
  (exists s', erase_sibling d p y s = Some (Some (p, kparent k), s') /\
    rep h0 s' (plug k (dnode d cp t p (dnode d RB_RED sn y sf))) /\ rbt RB_BLACK m sn /\ rbt RB_BLACK m sf) \/
  (exists s', erase_sibling d p y s = Some (None, s') /\
    is_rbtree (inorder (plug k (dnode d cp t p (dnode d RB_BLACK sn y sf)))) s').
Proof.
  intros H Hk Ht Hn Hf. pose proof (proj1 (rep_swap _ _ k d _ _ _ _) H) as H'.
  pose proof (proj1 (rep_swap _ _ (F (opp d) cp p t :: k) d _ _ _ _) H') as H''.
  unfold erase_sibling. rewrite (rd_child h0 s _ d _ _ y _ _ H').
  rewrite (rd_is_black h0 s (F d RB_BLACK y sf :: F (opp d) cp p t :: k) sn _ H').
  set (body := fun fb : bool => _). 
  assert (bind (if tcolor sn =? RB_BLACK then far <- ld (child (opp d)) y;; is_black far else ret false) body s =
    body ((tcolor sn =? RB_BLACK) && (tcolor sf =? RB_BLACK)) s) as ->.
  { destruct (tcolor sn =? RB_BLACK); [|done].
    by rewrite bind_bind, (rd_other h0 s _ d _ _ y _ _ H'), (rd_is_black h0 s _ sf _ H''). }
  unfold body. clear body. destruct (Z.eqb_spec (tcolor sn) RB_BLACK) as [Cn|Cn%(rbt_not_black _ _ _ Hn)],
    (Z.eqb_spec (tcolor sf) RB_BLACK) as [Cf|Cf%(rbt_not_black _ _ _ Hf)]; cbv beta iota delta [andb].
  - left. pose proof (set_red_spec h0 s _ _ H') as X. rewrite ptr_dnode in X. step X s1 H1.
    replace (paint _ _) with (dnode d RB_RED sn y sf) in H1 by by destruct d. apply (rep_swap _ _ k d) in H1.
    rewrite (rd_parent h0 s1 k d _ _ p _ _ H1). exists s1. split_and!; try done; by eapply rbt_black_of.
  - right. rewrite (rd_other h0 s _ d _ _ y _ _ H'), (rd_is_black h0 s _ sf _ H''), Cf. simpl (_ =? _). cbv iota.
    rewrite (bind_some (ret y) _ s y s eq_refl). destruct (rbt_red_inv d _ _ _ Hf Cf) as (a & z & b & -> & Ha & Hb).
    by eapply erase_rotate.
  - right. rewrite (rd_other h0 s _ d _ _ y _ _ H'), (rd_is_black h0 s _ sf _ H''), Cf. simpl (_ =? _). cbv iota.
    destruct (erase_near _ _ _ _ _ _ _ _ _ _ _ _ H Hn Cn Hf Cf) as (s1 & a & z & b & E & H1 & Ha & Hb & Ei).
    rewrite (bind_some _ _ _ _ _ E). assert (rbt RB_BLACK m sf) by by eapply rbt_black_of.
    destruct (erase_rotate s1 k d cp t p RB_BLACK a z y b sf m RB_BLACK) as (s2 & E2 & H2); try done.
    exists s2. split; [done|]. revert H2. erewrite inorder_plug_eq; [done|]. destruct d; simpl in *; congruence.
  - right. rewrite (rd_other h0 s _ d _ _ y _ _ H'), (rd_is_black h0 s _ sf _ H''), Cf. simpl (_ =? _). cbv iota.
    rewrite (bind_some (ret y) _ s y s eq_refl). destruct (rbt_red_inv d _ _ _ Hf Cf) as (a & z & b & -> & Ha & Hb).
    by eapply erase_rotate.
Qed.

(** The subtree [t] lacks one black node, or is red and needs only to be
    painted. *)
Definition deficient k t : Prop :=
  exists m, krb k RB_BLACK (S m) /\
    ((tcolor t = RB_RED /\ rbt RB_BLACK (S m) (paint RB_BLACK t)) \/ rbt RB_BLACK m t).

Definition continues k0 (xs : list Z) (n q : Z) (s : mem) : Prop :=
  exists k t, n = ptr t /\ q = kparent k /\ rep h0 s (plug k t) /\ inorder (plug k t) = xs /\ deficient k t /\
    (tcolor t = RB_RED \/ k = k0).

Lemma deficient_up k d cp t p sn y sf m :
  accepts k cp m -> rbt RB_BLACK m t -> rbt RB_BLACK m sn -> rbt RB_BLACK m sf ->
  deficient k (dnode d cp t p (dnode d RB_RED sn y sf)) /\
  (cp = RB_RED -> tcolor (dnode d cp t p (dnode d RB_RED sn y sf)) = RB_RED).
Proof.
  intros [[-> Hk]|[-> Hk]] Ht Hn Hf; (split; [|by destruct d]).
  - exists m. split; [by apply krb_weaken|]. left. split; [by destruct d|].
    replace (paint _ _) with (dnode d RB_BLACK t p (dnode d RB_RED sn y sf)) by by destruct d.
    by eapply rbt_dblack; [|apply rbt_dred].
  - exists (S m). split; [done|]. right. by eapply rbt_dblack; [|apply rbt_dred].
Qed.

Lemma erase_case_black s k d cp t p sib m :
  rep h0 s (plug k (dnode d cp t p sib)) -> rbt RB_BLACK m t -> accepts k cp m -> rbt RB_BLACK (S m) sib ->
  (exists s' n q, erase_sibling d p (ptr sib) s = Some (Some (n, q), s') /\
    continues k (inorder (plug k (dnode d cp t p sib))) n q s' /\
    (cp = RB_RED -> exists k' t', n = ptr t' /\ q = kparent k' /\ rep h0 s' (plug k' t') /\
      inorder (plug k' t') = inorder (plug k (dnode d cp t p sib)) /\ deficient k' t' /\ tcolor t' = RB_RED)) \/
  (exists s', erase_sibling d p (ptr sib) s = Some (None, s') /\ is_rbtree (inorder (plug k (dnode d cp t p sib))) s').
Proof.
  intros H Ht Hk Hs. destruct (rbt_S_inv d _ _ _ Hs) as (sn & y & sf & -> & [[? ?]|(_ & cn & cf & Hn & Hf)]); [done|].
  rewrite ptr_dnode.
  destruct (erase_sibling_spec _ _ _ _ _ _ _ _ _ _ _ _ H Hk Ht Hn Hf) as [(s' & E & H1 & Hn' & Hf')|?]; [left|by right].
  exists s', p, (kparent k). split; [done|]. destruct (deficient_up k d cp t p sn y sf m Hk Ht Hn' Hf') as [Hd Hc].
  assert (inorder (plug k (dnode d cp t p (dnode d RB_RED sn y sf))) =
    inorder (plug k (dnode d cp t p (dnode d RB_BLACK sn y sf)))) as Ei by (apply inorder_plug_eq; by destruct d).
  split.
  - exists k, (dnode d cp t p (dnode d RB_RED sn y sf)). rewrite ptr_dnode. split_and!; try done. by right.
  - intros Ec. exists k, (dnode d cp t p (dnode d RB_RED sn y sf)). rewrite ptr_dnode. split_and!; try done. by apply Hc.
Qed.

Lemma erase_case_spec s k d cp t p sib m :
  rep h0 s (plug k (dnode d cp t p sib)) -> rbt RB_BLACK m t -> krb (F d cp p sib :: k) RB_BLACK (S m) ->
  (exists s' n q, erase_case d p s = Some (Some (n, q), s') /\
    continues k (inorder (plug k (dnode d cp t p sib))) n q s') \/
  (exists s', erase_case d p s = Some (None, s') /\ is_rbtree (inorder (plug k (dnode d cp t p sib))) s').
Proof.
  intros H Ht Hk. unfold erase_case. pose proof (proj1 (rep_swap _ _ k d _ _ _ _) H) as H'.
  rewrite (rd_other h0 s _ d _ _ p _ _ H), (rd_is_red h0 s _ sib _ H').
  assert (accepts k cp m /\ rbt RB_BLACK (S m) sib \/ cp = RB_BLACK /\ krb k RB_BLACK (S (S m)) /\ rbt RB_RED (S m) sib)
    as [[Ha Hs]|(-> & Hk' & Hs)].
  { inversion Hk as [| |? ? ? ? ? c' ? ? Hs]; subst; [left; split; [by left|done]|].
    destruct (rbt_colors _ _ _ Hs) as [->| ->]; [left; split; [by right|done]|by right]. }
  - rewrite <- (rbt_color _ _ _ Hs). simpl (_ =? _). cbv iota. rewrite (bind_some (ret (ptr sib)) _ s _ s eq_refl).
    destruct (erase_case_black _ _ _ _ _ _ _ _ H Ht Ha Hs) as [(s' & n & q & E & Hc & _)|?]; [left|by right].
    by exists s', n, q.
  - rewrite <- (rbt_color _ _ _ Hs). simpl (_ =? _). cbv iota.
    destruct (rbt_S_inv d _ _ _ Hs) as (sn & y & sf & -> & [(_ & Hn & Hf)|[? _]]); [|done]. rewrite ptr_dnode.
    pose proof (set_black_spec h0 s _ _ H') as (s1 & E1 & H1). rewrite ptr_dnode in E1.
    replace (paint _ _) with (dnode d RB_BLACK sn y sf) in H1 by by destruct d. apply (rep_swap _ _ k d) in H1.
    pose proof (set_red_spec h0 s1 _ _ H1) as (s2 & E2 & H2). rewrite ptr_dnode in E2.
    replace (paint _ _) with (dnode d RB_RED t p (dnode d RB_BLACK sn y sf)) in H2 by by destruct d.
    destruct (rotate_spec h0 s2 _ d _ _ _ _ _ _ _ H2) as (s3 & E3 & H3).
    rewrite (bind_some _ _ s (ptr sn) s3).
    2: { rewrite (bind_some _ _ _ _ _ E1), (bind_some _ _ _ _ _ E2), (bind_some _ _ _ _ _ E3).
         pose proof (rep_node h0 s3 (F d RB_BLACK y sf :: k) d _ _ p _ H3) as [Hp _].
         rewrite (ld_some _ _ _ _ Hp). by destruct d. }
    assert (accepts (F d RB_BLACK y sf :: k) RB_RED m) as Ha by (left; split; [done|by econstructor]).
    assert (inorder (plug (F d RB_BLACK y sf :: k) (dnode d RB_RED t p sn)) =
      inorder (plug k (dnode d RB_BLACK t p (dnode d RB_RED sn y sf)))) as Ei.
    { apply (inorder_plug_eq k). destruct d; simpl; by rewrite <- ?app_assoc. }
    destruct (erase_case_black s3 (F d RB_BLACK y sf :: k) d RB_RED t p sn m H3 Ht Ha Hn)
      as [(s' & n & q & E & _ & Hc)|(s' & E & Hfin)]; rewrite Ei in *; [left|right; by exists s'].
    exists s', n, q. split; [done|]. destruct (Hc eq_refl) as (k' & t' & ? & ? & ? & ? & ? & ?).
    exists k', t'. split_and!; try done. by left.
Qed.

Lemma kroot_in k p : k <> [] -> kroot k p ∈ knodes k.
Proof.
  intros Hk. destruct k as [|f k]; [done|]. clear Hk. simpl. revert f.
  induction k as [|g k IH]; intros f; simpl; [set_solver|]. specialize (IH g). set_solver.
Qed.
Lemma rep_root_ne s f k t : rep h0 s (plug (f :: k) t) -> ptr t <> rb_node s.
Proof.
  intros [Hr _ _ Hn H0 _]%rep_plug. rewrite Hr. intros E. pose proof (kroot_in (f :: k) (ptr t) ltac:(done)) as Hi.
  rewrite <- E in Hi. apply nodup_app in Hn as (_ & Hd & _). apply not_elem_of_app in H0 as [_ H0].
  destruct t as [|c l x r]; simpl in *; [done|].
  apply (Hd x); [set_solver|exact Hi].
Qed.

(** The node the loop leaves for [if (n) set_black(n)]. *)
Definition to_paint (xs : list Z) (n : Z) (s : mem) : Prop :=
  exists k t m, n = ptr t /\ rep h0 s (plug k t) /\ inorder (plug k t) = xs /\ rbt RB_BLACK m (plug k (paint RB_BLACK t)).

Lemma paint_black t : tcolor t = RB_BLACK -> paint RB_BLACK t = t.
Proof. destruct t; simpl; [done|]. by intros ->. Qed.

Lemma erase_fixup_spec fuel s k t :
  rep h0 s (plug k t) -> deficient k t -> (0 < fuel)%nat -> (tcolor t = RB_RED \/ (length k < fuel)%nat) ->
  exists s' n, erase_fixup fuel (ptr t) (kparent k) s = Some (n, s') /\ to_paint (inorder (plug k t)) n s'.
Proof.
  revert s k t. induction fuel as [|fuel IH]; intros s k t H (m & Hk & Hd) Hf0 Hf; [lia|]. simpl erase_fixup.
  rewrite (rd_is_black h0 s _ _ _ H). rewrite (bind_some ld_root _ s (rb_node s) s eq_refl).
  destruct Hd as [[Hc Ht]|Ht].
  { rewrite Hc. exists s, (ptr t). split; [done|].
    destruct (krb_plug _ _ _ _ Hk Ht) as [m' ?]. by exists k, t, m'. }
  pose proof (rbt_color _ _ _ Ht) as Hc. rewrite <- Hc. rewrite Z.eqb_refl.
  destruct k as [|[d cp p sib] k].
  { simpl in H. rewrite (rep_root _ _ _ H), Z.eqb_refl. exists s, (ptr t). split; [done|].
    exists [], t, m. split_and!; try done. simpl. by rewrite paint_black. }
  rewrite (proj2 (Z.eqb_neq _ _) (rep_root_ne _ _ _ _ H)). cbv beta iota delta [andb negb].
  destruct Hf as [Hf|Hf]; [congruence|]. simpl in Hf. simpl (kparent _).
  assert (sib <> E) as Hs by (inversion Hk; subst; by eapply rbt_nonempty).
  destruct (rd_side h0 s k d cp t p sib H (or_intror Hs)) as (l & E & Ed).
    rewrite (bind_some _ _ _ _ _ E), Ed.
  destruct (erase_case_spec s k d cp t p sib m H Ht Hk)
    as [(s1 & n & q & E1 & k' & t' & -> & -> & H1 & Ei & Hd' & Hk')|(s1 & E1 & t' & m' & H1 & Ei & Hm)];
    rewrite (bind_some _ _ _ _ _ E1).
  - simpl plug. unfold fplug. simpl. rewrite <- Ei. apply IH; try done; [lia|]. destruct Hk' as [?| ->]; [by left|right; lia].
  - exists s1, (rb_node s1). split; [done|]. exists [], t', m'. split_and!; try done; [by apply rep_root in H1|].
    simpl. by rewrite paint_black by by rewrite <- (rbt_color _ _ _ Hm).
Qed.

Lemma rbtree_erase_fixup_spec s k t :
  rep h0 s (plug k t) -> deficient k t ->
  exists s', rbtree_erase_fixup (ptr t) (kparent k) s = Some (tt, s') /\ is_rbtree (inorder (plug k t)) s'.
Proof.
  intros H Hd. unfold rbtree_erase_fixup. pose proof (rep_size _ _ _ H) as Hsz. pose proof (path_length k t) as Hlen.
  destruct (erase_fixup_spec (fuel_of s) s k t H Hd) as (s1 & n & E & k' & t' & m & -> & H1 & Ei & Hm);
    [unfold fuel_of; lia|right; unfold fuel_of; lia|].
  rewrite (bind_some _ _ _ _ _ E). destruct (set_black_spec h0 s1 k' t' H1) as (s2 & E2 & H2).
  exists s2. split; [done|]. exists (plug k' (paint RB_BLACK t')), m. split_and!; try done.
  rewrite <- Ei. apply inorder_plug_eq. apply inorder_paint.
Qed.

(** A node with one child at most is replaced by that child. *)
Lemma unlink_spec s k c l x r ch :
  rep h0 s (plug k (T c l x r)) -> (l = E /\ ch = r) \/ (r = E /\ ch = l) ->
  exists s1 s2 n,
    adopt (ptr ch) (kparent k) s = Some (tt, s1) /\
    replace_child L (kparent k) x (ptr ch) s1 = Some (tt, s2) /\
    rep (<[x := n]> h0) s2 (plug k ch).
Proof.
  intros [Hr Hk Ht Hn H0 Hq]%rep_plug Hch. simpl in Hr, Hk, Ht. destruct Ht as (Hx & Hl & Hr').
  assert (trep (nodes s) x ch) as Hc by (destruct Hch as [[_ ->]|[_ ->]]; done).
  assert (inorder (T c l x r) ++ knodes k ≡ₚ x :: inorder ch ++ knodes k) as Hp.
  { destruct Hch as [[-> ->]|[-> ->]]; simpl; [done|]. solve_Permutation. }
  rewrite Hp in Hn, H0. pose proof Hn as Hn'. pose proof H0 as H0'. nodup Hn. nodup H0.
  eexists _, _, _. split; [by apply (adopt_spec ch x)|]. split; [apply replace_child_spec; try apart; keep|].
  apply rep_plug. split.
  - by eapply relink_root.
  - keep.
  - keep.
  - by apply NoDup_cons in Hn' as [_ ?].
  - set_solver.
  - intros q Hy. pose proof Hy as Hy'. nodup Hy'. destruct (decide (q = x)) as [->|Hne].
    + rewrite lookup_insert_eq. look.
    + rewrite (lookup_insert_ne (M := gmap Z)) by done. look_for. apply Hq. rewrite Hp. by apply not_elem_of_cons.
Qed.

Lemma erase_one_spec s k c l x r :
  rep h0 s (plug k (T c l x r)) -> l = E \/ r = E ->
  exists s' n ch, erase_one x s = Some (ptr ch, kparent k, c, s') /\ rep (<[x := n]> h0) s' (plug k ch) /\
    ((l = E /\ ch = r) \/ (r = E /\ ch = l)).
Proof.
  intros H Hlr. set (ch := if decide (l = E) then r else l).
  assert ((l = E /\ ch = r) \/ (r = E /\ ch = l)) as Hch.
  { unfold ch. case_decide; [by left|right]. by destruct Hlr. }
  destruct (unlink_spec s k c l x r ch H Hch) as (s1 & s2 & n & E1 & E2 & H2).
  exists s2, n, ch. split_and!; try done. unfold erase_one.
  rewrite (rd_child h0 s k L c l x r _ H).
  rewrite (rep_ptr0 h0 s (F L c x r :: k) l H).
  rewrite (bind_some _ _ s (ptr ch) s).
  2: { unfold ch. case_decide as Hl; [subst l; rewrite bool_decide_eq_true_2 by done|by rewrite bool_decide_eq_false_2].
       pose proof (rep_node h0 s k L c E x r H) as [Hx _]. cbv beta iota delta [negb]. by rewrite (ld_some _ _ _ _ Hx). }
  rewrite (rd_parent h0 s k L c l x r _ H), (rd_color h0 s k L c l x r _ H).
  by rewrite (bind_some _ _ _ _ _ E1), (bind_some _ _ _ _ _ E2).
Qed.

(** The leftmost or rightmost node of a tree. *)
Lemma extreme_spec d t : forall fuel s k,
  rep h0 s (plug k t) -> t <> E -> (length (inorder t) <= fuel)%nat ->
  exists ks c y b, t = plug ks (dnode d c E y b) /\ Forall (fun f => fd f = d) ks /\
    extreme fuel d (ptr t) s = Some (y, s).
Proof.
  assert (forall n fuel s k t, (length (inorder t) <= n)%nat -> rep h0 s (plug k t) -> t <> E ->
    (length (inorder t) <= fuel)%nat -> exists ks c y b, t = plug ks (dnode d c E y b) /\
    Forall (fun f => fd f = d) ks /\ extreme fuel d (ptr t) s = Some (y, s)) as Hgen; [|eauto].
  induction n as [|n IH]; intros fuel s k t' Hn H Ht Hf.
  { destruct t'; [done|]. simpl in Hn. rewrite length_app in Hn. simpl in Hn. lia. }
  destruct t' as [|c l x r]; [done|].
  assert (exists a b, T c l x r = dnode d c a x b) as (a & b & E) by (destruct d; by eexists _, _).
  rewrite E in *. clear E Ht. pose proof (Permutation_length (inorder_dnode_perm d c a x b)) as Hlen.
  simpl in Hlen. rewrite length_app in Hlen. destruct fuel as [|fuel]; [lia|]. simpl extreme. rewrite ptr_dnode.
  rewrite (rd_child h0 s k d c a x b _ H), (rep_ptr0 h0 s (F d c x b :: k) a H). case_bool_decide as Ha.
  - subst a. exists [], c, x, b. by repeat constructor.
  - destruct (IH fuel s (F d c x b :: k) a) as (ks & c' & y & b' & -> & Hd & E); [lia|done|done|lia|].
    exists (ks ++ [F d c x b]), c', y, b'. split_and!; [|apply Forall_app; split; [done|by constructor]|done].
    by rewrite plug_app.
Qed.

Lemma st_parent_spec t p q s :
  t <> E -> trep (nodes s) p t ->
  st (upd_parent q) (ptr t) s = Some (tt, mk_mem (rb_node s) (reparent t q (nodes s))).
Proof. destruct t as [|c l x r]; [done|]. intros _ [Hx _]. by rewrite (st_spec _ _ _ _ Hx). Qed.

(** The successor leaves its place. *)
Lemma detach_spec s k cf p fs cy y yr :
  rep h0 s (plug (F L cf p fs :: k) (T cy E y yr)) ->
  exists s' n,
    (forall A (f : M A),
      (pl <- ld left p;;
       (if pl =? y then sr <- ld right y;; st (upd_child L sr) p
        else sr <- ld right y;; st (upd_child R sr) p);;;
       sr <- ld right y;; adopt sr p;;; f) s = f s') /\
    rep (<[y := n]> h0) s' (plug (F L cf p fs :: k) yr) /\ nodes s' !! y = Some n.
Proof.
  intros [Hr Hk Ht Hn H0 Hq]%rep_plug. simpl in Hr, Hk, Ht, Hn, H0. destruct Hk as (Hp & Hfs & Hk), Ht as (Hy & _ & Hyr).
  assert (y :: inorder yr ++ p :: inorder fs ++ knodes k ≡ₚ inorder (T cy E y yr) ++ knodes (F L cf p fs :: k)) as Hperm
    by done.
  pose proof Hn as Hn'. pose proof H0 as H0'. nodup Hn. nodup H0.
  eexists _, _. split; [|split].
  - intros A f. rewrite (bind_ld _ _ _ _ _ Hp). simpl left. rewrite Z.eqb_refl. rewrite bind_bind.
    rewrite (bind_ld _ _ _ _ _ Hy), (bind_st _ _ _ _ _ Hp). simpl right.
    erewrite bind_ld by look. simpl right.
    erewrite (bind_some (adopt _ _)); [|apply (adopt_spec yr y); [apart|keep]]. done.
  - apply rep_plug. split; simpl; rewrite ?lookup_insert_eq.
    + done.
    + split_and!; [look|keep|keep].
    + keep.
    + by apply NoDup_cons in Hn' as [_ ?].
    + set_solver.
    + intros q Hq'. pose proof Hq' as Hq2. nodup Hq2. destruct (decide (q = y)) as [->|Hne].
      * rewrite (lookup_insert_eq (M := gmap Z)). look.
      * rewrite (lookup_insert_ne (M := gmap Z)) by done. look_for. apply Hq. simpl. by apply not_elem_of_cons.
  - look.
Qed.

(** ... and takes the place of [x]. *)
Lemma replace_spec s k c l x r y n0 :
  rep h0 s (plug k (T c l x r)) -> l <> E -> r <> E -> y ∉ inorder (plug k (T c l x r)) -> y <> 0 ->
  nodes s !! y = Some n0 ->
  exists s1 s' n,
    (forall A (f : M A),
      (nl <- ld left x;; st (upd_child L nl) y;;;
       nl <- ld left x;; st (upd_parent y) nl;;;
       nr <- ld right x;; st (upd_child R nr) y;;;
       nr <- ld right x;; st (upd_parent y) nr;;; f) s = f s1) /\
    (forall A (f : M A),
      (np <- ld parent x;; st (upd_parent np) y;;;
       nc <- ld color x;; st (upd_color nc) y;;;
       np <- ld parent x;; replace_child L np x y;;; f) s1 = f s') /\
    rep (<[x := n]> h0) s' (plug k (T c l y r)).
Proof.
  intros [Hr Hk Ht Hn H0 Hq]%rep_plug Hl0 Hr0 Hy Hy0 Hny. simpl in Hr, Hk, Ht. destruct Ht as (Hx & Hl & Hr').
  rewrite inorder_plug_perm in Hy.
  assert (inorder (T c l x r) ++ knodes k ≡ₚ x :: inorder l ++ inorder r ++ knodes k) as Hp
    by (simpl; solve_Permutation).
  rewrite Hp in Hn, H0, Hy. pose proof Hn as Hn'. pose proof H0 as H0'. pose proof Hy as Hy'. nodup Hn. nodup H0. nodup Hy.
  eexists _, _, _. split; [|split].
  - intros A f. rewrite (bind_ld _ _ _ _ _ Hx). rewrite (bind_st _ _ _ _ _ Hny). simpl left.
    erewrite bind_ld by look. simpl left. erewrite bind_some; [|apply (st_parent_spec l x); [done|keep]].
    erewrite bind_ld by look. erewrite bind_st by look. erewrite bind_ld by look. simpl right.
    erewrite bind_some; [|apply (st_parent_spec r x); [done|keep]]. done.
  - intros A f. erewrite bind_ld by look. simpl parent. erewrite bind_st by look. erewrite bind_ld by look. simpl color.
    erewrite bind_st by look. erewrite bind_ld by look. simpl parent.
    erewrite bind_some; [|apply replace_child_spec; [apart|by apply not_eq_sym|apart|keep]]. done.
  - apply rep_plug. split; simpl.
    + by eapply relink_root.
    + keep.
    + split_and!; [look|keep|keep].
    + assert ((inorder l ++ y :: inorder r) ++ knodes k ≡ₚ y :: inorder l ++ inorder r ++ knodes k) as ->
        by solve_Permutation. apply NoDup_cons in Hn' as [_ ?]. apply NoDup_cons. set_solver.
    + set_solver.
    + intros q Hq'. pose proof Hq' as Hq2. nodup Hq2. destruct (decide (q = x)) as [->|Hne].
      * rewrite (lookup_insert_eq (M := gmap Z)). look.
      * rewrite (lookup_insert_ne (M := gmap Z)) by done. look_for. apply Hq. rewrite Hp. set_solver.
Qed.

(** The successor is the right child of [x]. *)
Lemma replace_direct_spec s k c l x cy y yr :
  rep h0 s (plug k (T c l x (T cy E y yr))) -> l <> E ->
  exists s1 s' n,
    (forall A (f : M A),
      (nl <- ld left x;; st (upd_child L nl) y;;;
       nl <- ld left x;; st (upd_parent y) nl;;; f) s = f s1) /\
    (forall A (f : M A),
      (np <- ld parent x;; st (upd_parent np) y;;;
       nc <- ld color x;; st (upd_color nc) y;;;
       np <- ld parent x;; replace_child L np x y;;; f) s1 = f s') /\
    rep (<[x := n]> h0) s' (plug k (T c l y yr)).
Proof.
  intros [Hr Hk Ht Hn H0 Hq]%rep_plug Hl0. simpl in Hr, Hk, Ht. destruct Ht as (Hx & Hl & Hy & _ & Hyr).
  assert (inorder (T c l x (T cy E y yr)) ++ knodes k ≡ₚ x :: y :: inorder l ++ inorder yr ++ knodes k) as Hp
    by (simpl; solve_Permutation).
  rewrite Hp in Hn, H0. pose proof Hn as Hn'. pose proof H0 as H0'. nodup Hn. nodup H0.
  eexists _, _, _. split; [|split].
  - intros A f. rewrite (bind_ld _ _ _ _ _ Hx). rewrite (bind_st _ _ _ _ _ Hy). simpl left.
    erewrite bind_ld by look. simpl left. erewrite bind_some; [|apply (st_parent_spec l x); [done|keep]]. done.
  - intros A f. erewrite bind_ld by look. simpl parent. erewrite bind_st by look. erewrite bind_ld by look. simpl color.
    erewrite bind_st by look. erewrite bind_ld by look. simpl parent.
    erewrite bind_some; [|apply replace_child_spec; [apart|by apply not_eq_sym|apart|keep]]. done.
  - apply rep_plug. split; simpl.
    + by eapply relink_root.
    + keep.
    + split_and!; [look|keep|keep].
    + assert ((inorder l ++ y :: inorder yr) ++ knodes k ≡ₚ y :: inorder l ++ inorder yr ++ knodes k) as ->
        by solve_Permutation. by apply NoDup_cons in Hn' as [_ ?].
    + set_solver.
    + intros q Hq'. pose proof Hq' as Hq2. nodup Hq2. destruct (decide (q = x)) as [->|Hne].
      * rewrite (lookup_insert_eq (M := gmap Z)). look.
      * rewrite (lookup_insert_ne (M := gmap Z)) by done. look_for. apply Hq. rewrite Hp. set_solver.
Qed.

Lemma rep_base h1 s t : (forall q, q ∉ inorder t -> h1 !! q = h0 !! q) -> rep h1 s t -> rep h0 s t.
Proof. intros Hh [? ? ? ? Hq]. split; try done. intros q Hin. rewrite Hq by done. by apply Hh. Qed.

End removal.

Section erasing.
Context (h0 : gmap Z node).

Lemma erase_two_spec s k c l x r :
  rep h0 s (plug k (T c l x r)) -> l <> E -> r <> E ->
  exists s' n ks cy y yr,
    erase_two x s = Some (ptr yr, kparent (ks ++ F R c y l :: k), cy, s') /\
    rep (<[x := n]> h0) s' (plug (ks ++ F R c y l :: k) yr) /\
    r = plug ks (T cy E y yr) /\ Forall (fun f => fd f = L) ks.
Proof.
  intros H Hl Hr. pose proof (rep_size _ _ _ H) as Hsz. pose proof (path_length (F R c x l :: k) r) as Hlen.
  change (plug (F R c x l :: k) r) with (plug k (T c l x r)) in Hlen. unfold erase_two. rewrite (rd_other h0 s k L c l x r _ H).
  destruct (extreme_spec h0 L r (fuel_of s) s (F R c x l :: k) H Hr) as (ks & cy & y & yr & -> & Hd & Ex);
    [unfold fuel_of; simpl in *; lia|].
  rewrite (bind_some _ _ _ _ _ Ex). clear Ex Hsz Hlen. simpl dnode in *.
  assert (rep h0 s (plug (ks ++ F R c x l :: k) (T cy E y yr))) as H1 by by rewrite plug_app.
  rewrite (rd_parent h0 s _ L cy E y yr _ H1). destruct ks as [|[d cf p fs] ks].
  - simpl (kparent _). rewrite Z.eqb_refl. cbv beta iota delta [negb].
    destruct (replace_direct_spec h0 s k c l x cy y yr H Hl) as (s1 & s' & n & E1 & E' & H').
    exists s', n, [], cy, y, yr. split_and!; try done.
    rewrite (bind_some _ _ s (ptr yr, y, cy) s1); [apply E'|].
    rewrite (rd_other h0 s _ L cy E y yr _ H1), (rd_color h0 s _ L cy E y yr _ H1). apply E1.
  - inversion Hd as [|? ? Hdl Hd']; subst. simpl in Hdl. subst d. simpl (kparent _).
    assert (p <> x) as Hpx.
    { apply rep_plug in H1 as [_ _ _ Hn _ _]. intros ->. apply nodup_app in Hn as (_ & _ & Hn). simpl in Hn.
      apply NoDup_cons in Hn as [Hn _]. apply Hn. apply elem_of_app. right. clear. induction ks; simpl; set_solver. }
    rewrite (proj2 (Z.eqb_neq _ _) Hpx). cbv beta iota delta [negb].
    destruct (detach_spec h0 s (ks ++ F R c x l :: k) cf p fs cy y yr H1) as (s1 & ny & E1 & H2 & Hy).
    change (F L cf p fs :: ks ++ F R c x l :: k) with ((F L cf p fs :: ks) ++ F R c x l :: k) in H2.
    rewrite plug_app in H2. change (plug (F R c x l :: k) ?t) with (plug k (T c l x t)) in H2.
    assert ((y ∉ inorder (plug k (T c l x (plug (F L cf p fs :: ks) yr)))) /\ y <> 0) as [Hyn Hy0].
    { pose proof (rep_node h0 s _ L cy E y yr H1) as [_ Hy0]. split; [|done].
      apply rep_nodup in H1. rewrite inorder_plug_perm in H1. change (T c l x ?t) with (fplug (F R c x l) t).
      change (plug k (fplug ?f ?t)) with (plug (f :: k) t). rewrite <- plug_app, inorder_plug_perm.
      simpl in H1. by apply NoDup_cons in H1 as [? _]. }
    assert (plug (F L cf p fs :: ks) yr <> E) as Hne.
    { intros E2. apply (f_equal inorder) in E2. simpl in E2. rewrite inorder_plug in E2. simpl in E2.
      by destruct (before ks), (inorder yr). }
    destruct (replace_spec _ s1 k c l x _ y ny H2 Hl Hne Hyn Hy0 Hy) as (s2 & s' & n & E2 & E' & H').
    exists s', n, (F L cf p fs :: ks), cy, y, yr. split_and!; try done.
    + rewrite (bind_some _ _ s (ptr yr, p, cy) s2); [apply E'|].
      rewrite (rd_other h0 s _ L cy E y yr _ H1), (rd_parent h0 s _ L cy E y yr _ H1), (rd_color h0 s _ L cy E y yr _ H1).
      simpl (kparent _). rewrite E1. apply E2.
    + rewrite plug_app. revert H'. apply rep_base. intros q Hq. destruct (decide (q = x)) as [->|];
        [by rewrite !lookup_insert_eq|]. rewrite !(lookup_insert_ne (M := gmap Z) _ x) by done.
      rewrite lookup_insert_ne; [done|]. intros ->. apply Hq. rewrite inorder_plug_perm. simpl. set_solver.
Qed.

Lemma tree_focus t x : x ∈ inorder t -> exists k c l r, t = plug k (T c l x r).
Proof.
  induction t as [|c l IHl y r IHr]; simpl; [set_solver|]. rewrite elem_of_app, elem_of_cons.
  intros [H|[<-|H]].
  - destruct (IHl H) as (k & c' & l' & r' & ->). exists (k ++ [F L c y r]), c', l', r'. by rewrite plug_app.
  - by exists [], c, l, r.
  - destruct (IHr H) as (k & c' & l' & r' & ->). exists (k ++ [F R c y l]), c', l', r'. by rewrite plug_app.
Qed.

Lemma krb_rename ks d c x y l k c' m : krb (ks ++ F d c x l :: k) c' m -> krb (ks ++ F d c y l :: k) c' m.
Proof.
  revert c' m. induction ks as [|f ks IH]; intros c' m; simpl; inversion 1; subst; econstructor; eauto.
Qed.

Lemma before_left ks : Forall (fun f => fd f = L) ks -> before ks = [].
Proof. induction 1 as [|f ks Hf _ IH]; simpl; [done|]. by rewrite IH, Hf. Qed.

(** The colour that was removed decides whether the tree needs repair. *)
Lemma erase_color k c m l x r ch :
  krb k c m -> rbt c m (T c l x r) -> (l = E /\ ch = r) \/ (r = E /\ ch = l) ->
  (c = RB_RED /\ ch = E /\ krb k RB_BLACK 0) \/ (c = RB_BLACK /\ deficient k ch).
Proof.
  intros Hk Ht Hch. apply (rbt_dnode_inv L) in Ht as (_ & [(-> & Hl & Hr)|(-> & m' & cl & cr & -> & Hl & Hr)]).
  - left. assert (m = 0%nat /\ l = E /\ r = E) as (-> & -> & ->).
    { destruct Hch as [[-> ->]|[-> ->]]; [inversion Hl|inversion Hr]; subst; split_and!; try done;
        [inversion Hr|inversion Hl]; done. }
    split_and!; try done; [by destruct Hch as [[_ ->]|[_ ->]]|by apply krb_weaken].
  - right. split; [done|]. exists m'. split; [done|]. assert (exists cc, rbt cc m' ch) as [cc Hc].
    { destruct Hch as [[_ ->]|[_ ->]]; by eexists. }
    destruct Hc as [|n a y b Ha Hb|n ca cb a y b Ha Hb]; [right; constructor|left|right; by econstructor].
    split; [done|]. simpl. by econstructor.
Qed.

(** The end of [rbtree_erase]. *)
Lemma erase_finish s k ch col :
  rep h0 s (plug k ch) ->
  (col = RB_RED /\ ch = E /\ krb k RB_BLACK 0) \/ (col = RB_BLACK /\ deficient k ch) ->
  exists s', (if col =? RB_BLACK then rbtree_erase_fixup (ptr ch) (kparent k) else ret tt) s = Some (tt, s') /\
    is_rbtree h0 (inorder (plug k ch)) s'.
Proof.
  intros H [(-> & -> & Hk)|[-> Hd]]; simpl.
  - exists s. split; [done|]. eapply is_rbtree_krb; [exact H|exact Hk|constructor|done].
  - by apply rbtree_erase_fixup_spec.
Qed.
End erasing.

Lemma erase_spec h0 s t m x :
  rep h0 s t -> rbt RB_BLACK m t -> x ∈ inorder t ->
  exists s' n pre post, rbtree_erase x s = Some (tt, s') /\ inorder t = pre ++ x :: post /\
    is_rbtree (<[x := n]> h0) (pre ++ post) s'.
Proof.
  intros H Ht (k & c & l & r & ->)%tree_focus. unfold rbtree_erase.
  rewrite (rd_child h0 s k L c l x r _ H), (rd_other h0 s k L c l x r _ H).
  rewrite (rep_ptr0 h0 s (F L c x r :: k) l H), (rep_ptr0 h0 s (F R c x l :: k) r H).
  rewrite inorder_plug. destruct (decide (l = E \/ r = E)) as [Hlr|Hlr].
  - replace (negb _ && negb _) with false by (repeat case_bool_decide; try done; tauto). cbv iota.
    destruct (erase_one_spec h0 s k c l x r H Hlr) as (s1 & n & ch & E1 & H1 & Hch).
    destruct (plug_rbt _ _ _ Ht) as (c' & m' & Hk & Hc). pose proof (rbt_color _ _ _ Hc) as Ec. simpl in Ec. subst c'.
    destruct (erase_finish _ s1 k ch c H1 (erase_color _ _ _ _ _ _ _ Hk Hc Hch)) as (s2 & E2 & H2).
    exists s2, n, (before k ++ inorder l), (inorder r ++ after k). rewrite (bind_some _ _ _ _ _ E1).
    split_and!; [done|simpl; by rewrite <- !app_assoc|]. revert H2. rewrite inorder_plug.
    by destruct Hch as [[-> ->]|[-> ->]]; simpl; rewrite <- ?app_assoc.
  - apply Decidable.not_or in Hlr as [Hl Hr]. rewrite !bool_decide_eq_false_2 by done. cbv beta iota delta [negb andb].
    destruct (erase_two_spec h0 s k c l x r H Hl Hr) as (s1 & n & ks & cy & y & yr & E1 & H1 & -> & Hd).
    change (plug k (T c l x ?t)) with (plug (F R c x l :: k) t) in Ht. rewrite <- plug_app in Ht.
    destruct (plug_rbt _ _ _ Ht) as (c' & m' & Hk & Hc). pose proof (rbt_color _ _ _ Hc) as Ec. simpl in Ec. subst c'.
    apply (krb_rename _ _ _ _ y) in Hk.
    destruct (erase_finish _ s1 _ yr cy H1 (erase_color _ _ _ _ _ _ yr Hk Hc (or_introl (conj eq_refl eq_refl))))
      as (s2 & E2 & H2).
    exists s2, n, (before k ++ inorder l), (inorder (plug ks (T cy E y yr)) ++ after k).
    rewrite (bind_some _ _ _ _ _ E1). split_and!; [done|simpl; by rewrite <- !app_assoc|].
    revert H2. rewrite plug_app. simpl plug. rewrite !inorder_plug. simpl. rewrite inorder_plug, (before_left _ Hd).
    simpl. rewrite <- !app_assoc. simpl. by rewrite <- app_assoc.
Qed.

(** ** Iteration *)

(** The node of a list nearest to side [d], NULL if there is none; the nodes
    beyond a path on the other side. *)
Definition nearest (d : dir) (l : list Z) : Z := match d with L => default 0 (head l) | R => default 0 (last l) end.
Definition beyond (d : dir) (k : list frame) : list Z := match d with L => after k | R => before k end.

Lemma nodup_pivot (x : Z) pre post pre' post' :
  NoDup (pre ++ x :: post) -> pre ++ x :: post = pre' ++ x :: post' -> pre = pre' /\ post = post'.
Proof.
  revert pre'. induction pre as [|y pre IH]; intros [|z pre'] Hn E; simpl in *; simplify_eq; try done.
  - apply NoDup_cons in Hn as [Hn _]. set_solver.
  - apply NoDup_cons in Hn as [Hn _]. set_solver.
  - apply NoDup_cons in Hn as [_ Hn]. by destruct (IH pre' Hn) as [-> ->].
Qed.

Section iteration.
Context (h0 : gmap Z node).

Lemma nearest_plug d ks c y b :
  Forall (fun f => fd f = d) ks -> nearest d (inorder (plug ks (dnode d c E y b))) = y.
Proof.
  intros Hd. rewrite inorder_plug. destruct d; simpl.
  - by rewrite (before_left _ Hd).
  - assert (after ks = []) as ->.
    { induction Hd as [|f ks Hf _ IH]; simpl; [done|]. by rewrite IH, Hf. }
    by rewrite app_nil_r, app_assoc, last_snoc.
Qed.

Lemma end_spec d s t : rep h0 s t -> rbtree_end d s = Some (nearest d (inorder t), s).
Proof.
  intros H. unfold rbtree_end. rewrite (bind_some ld_root _ s (rb_node s) s eq_refl), (rep_root _ _ _ H).
  rewrite (rep_ptr0 h0 s [] t H). case_bool_decide as Ht; [subst; by destruct d|].
  pose proof (rep_size _ _ _ H).
  destruct (extreme_spec h0 d t (fuel_of s) s [] H Ht) as (ks & c & y & b & -> & Hd & E); [unfold fuel_of; lia|].
  by rewrite E, nearest_plug.
Qed.

Lemma nearest_cons d c x b k : nearest d (beyond d (F d c x b :: k)) = x.
Proof. destruct d; simpl; [done|]. by rewrite app_assoc, last_snoc. Qed.

Lemma beyond_opp d c x b k : beyond d (F (opp d) c x b :: k) = beyond d k.
Proof. destruct d; simpl; [done|]. by rewrite app_nil_r. Qed.

Lemma climb_spec d fuel s k t :
  rep h0 s (plug k t) -> t <> E -> (length k < fuel)%nat ->
  climb fuel d (ptr t) (kparent k) s = Some (nearest d (beyond d k), s).
Proof.
  revert k t. induction fuel as [|fuel IH]; intros k t H Ht Hf; [lia|]. simpl climb.
  destruct k as [|[e c p sib] k]; [by destruct d|]. simpl (kparent _).
  pose proof (rep_node h0 s k e c t p sib H) as [_ Hp%Z.eqb_neq]. rewrite Hp.
  destruct (dir_cases d e) as [->| ->].
  - rewrite (rd_other h0 s k d c t p sib _ H), nearest_cons.
    destruct (Z.eqb_spec (ptr t) (ptr sib)) as [E|]; [exfalso|done].
    apply rep_plug in H as [_ _ _ Hn H0 _]. simpl in *. apply nodup_app in Hn as (_ & Hd & _).
    apply (Hd (ptr t)); [by apply ptr_in|]. right. apply elem_of_app. left. rewrite E. apply ptr_in.
    intros ->. simpl in E. apply ptr_in in Ht. rewrite E in Ht. apply H0. apply elem_of_app. by left.
  - rewrite (rd_child h0 s k (opp d) c t p sib _ H), Z.eqb_refl, beyond_opp. simpl in Hf.
    rewrite (rd_parent h0 s k (opp d) c t p sib _ H). rewrite <- (ptr_dnode (opp d) c t p sib).
    apply IH; [exact H|by destruct d|lia].
Qed.

Lemma step_spec d s k c a x b :
  rep h0 s (plug k (dnode d c a x b)) ->
  rbtree_step d x s = Some (match d with L => nearest L (inorder b ++ after k) | R => nearest R (before k ++ inorder b) end, s).
Proof.
  intros H. unfold rbtree_step. rewrite (rd_other h0 s k d c a x b _ H).
  pose proof (proj1 (rep_swap _ _ k d _ _ _ _) H) as H'. rewrite (rep_ptr0 h0 s _ b H').
  pose proof (rep_size _ _ _ H) as Hsz. pose proof (path_length k (dnode d c a x b)) as Hlen.
  pose proof (path_length (F (opp d) c x a :: k) b) as Hlen'.
  case_bool_decide as Hb; cbv beta iota delta [negb].
  - subst b. rewrite (rd_parent h0 s k d c a x E _ H). rewrite <- (ptr_dnode d c a x E) at 1.
    rewrite (climb_spec d _ s k _ H); [|by destruct d|unfold fuel_of; lia].
    destruct d; simpl; [done|by rewrite app_nil_r].
  - destruct (extreme_spec h0 d b (fuel_of s) s _ H' Hb) as (ks & c' & y & b' & Eb & Hd & E).
    { apply rep_size in H'. unfold fuel_of. simpl in *. lia. }
    rewrite E. pose proof (nearest_plug d ks c' y b' Hd) as Hy. rewrite <- Eb in Hy.
    destruct b as [|cb l z r]; [done|]. destruct d; simpl in *.
    + rewrite <- Hy. by destruct (inorder l).
    + rewrite <- Hy, !last_app, last_cons. by destruct (last (inorder r)).
Qed.

Lemma next_spec s t pre x post :
  rep h0 s t -> inorder t = pre ++ x :: post ->
  rbtree_next x s = Some (nearest L post, s) /\ rbtree_prev x s = Some (nearest R pre, s).
Proof.
  intros H Ei. destruct (tree_focus t x) as (k & c & l & r & ->); [rewrite Ei; set_solver|].
  assert (pre = before k ++ inorder l /\ post = inorder r ++ after k) as [-> ->].
  { pose proof (rep_nodup _ _ _ H) as Hn. rewrite Ei in Hn. apply (nodup_pivot _ _ _ _ _ Hn).
    rewrite <- Ei, inorder_plug. simpl. by rewrite <- !app_assoc. }
  split; [exact (step_spec L s k c l x r H)|exact (step_spec R s k c r x l H)].
Qed.
End iteration.

(** ** The operations *)

Section operations.
Context (cmp : Z -> Z -> Z) (h0 : gmap Z node).
Implicit Types (s : mem) (xs : list Z).

(** C4: insertion into an ordered red-black tree either finds a node that
    compares equal, returns it and changes nothing, or links the new node so
    that the memory again holds an ordered red-black tree of the old nodes and
    the new one; no other memory is written and no null pointer is
    dereferenced. *)
Theorem rbtree_insert_correct s xs x :
  comparator cmp -> is_rbtree h0 xs s -> ordered cmp xs -> x ∉ xs -> x <> 0 -> is_Some (nodes s !! x) ->
  (exists y, y ∈ xs /\ cmp x y = 0 /\ rbtree_insert x cmp s = Some (y, s)) \/
  ((forall y, y ∈ xs -> cmp x y <> 0) /\
   exists s' xs', rbtree_insert x cmp s = Some (0, s') /\ is_rbtree h0 xs' s' /\ ordered cmp xs' /\ xs' ≡ₚ x :: xs).
Proof.
  intros Hcmp (t & m & H & <- & Ht) Ho Hx Hx0 Hn.
  destruct (insert_spec h0 cmp Hcmp x s t m H Ht Ho Hx Hx0 Hn) as [?|(s' & t' & m' & E & H' & Ht' & Ho' & Hp & Hc)];
    [by left|right].
  split; [done|]. exists s', (inorder t'). split_and!; try done. by exists t', m'.
Qed.

(** C5: removing a node of a red-black tree leaves a red-black tree of the
    other nodes in the same order; nothing outside the tree is written, and
    every dereference is of a node of the tree. *)
Theorem rbtree_erase_correct s xs x :
  is_rbtree h0 xs s -> x ∈ xs ->
  exists s' n pre post, rbtree_erase x s = Some (tt, s') /\ xs = pre ++ x :: post /\
    is_rbtree (<[x := n]> h0) (pre ++ post) s'.
Proof. intros (t & m & H & <- & Ht) Hx. by eapply erase_spec. Qed.

(** The iteration functions follow the order of the nodes: the first, the
    last, the successor and the predecessor, with NULL past either end. *)
Theorem rbtree_iteration_correct s xs :
  is_rbtree h0 xs s ->
  rbtree_first s = Some (default 0 (head xs), s) /\ rbtree_last s = Some (default 0 (last xs), s) /\
  (forall pre x post, xs = pre ++ x :: post ->
    rbtree_next x s = Some (default 0 (head post), s) /\ rbtree_prev x s = Some (default 0 (last pre), s)).
Proof.
  intros (t & m & H & <- & Ht). split_and!; [exact (end_spec h0 L s t H)|exact (end_spec h0 R s t H)|].
  intros pre x post E. exact (next_spec h0 s t pre x post H E).
Qed.

(** The search of an insertion into a tree of [n] nodes visits at most
    [2 * log2 (n + 1)] of them. *)
Theorem rbtree_descent_bound s xs x :
  comparator cmp -> is_rbtree h0 xs s -> ordered cmp xs -> x ∉ xs ->
  exists r, descend (S (2 * Nat.log2 (S (length xs)))) cmp x None 0 s = Some (r, s).
Proof.
  intros Hcmp (t & m & H & <- & Ht) Ho Hx. pose proof (rbt_height _ _ _ Ht) as Hh. pose proof (rbt_size _ _ _ Ht) as Hs.
  assert (m <= Nat.log2 (S (length (inorder t))))%nat as Hm.
  { rewrite <- (Nat.log2_pow2 m) by lia. by apply Nat.log2_le_mono. }
  destruct (descend_spec h0 cmp Hcmp x t (S (2 * Nat.log2 (S (length (inorder t))))) s [] H Ho Hx)
    as [(y & _ & _ & E)|(k & _ & _ & E)]; [split; set_solver|simpl in Hh; lia|eauto..].
Qed.
End operations.

(** ** Witnesses *)

(** Nodes 1, 3 and 5 in a tree, node 4 outside it; addresses order them. *)
Definition three : tree := T RB_BLACK (T RB_RED E 1 E) 3 (T RB_RED E 5 E).
Definition three_mem : mem :=
  mk_mem 3 (list_to_map [(1, mk_node 0 0 3 RB_RED); (3, mk_node 1 5 0 RB_BLACK); (5, mk_node 0 0 3 RB_RED);
                         (4, mk_node 0 0 0 0)]).

Lemma three_rbtree : is_rbtree (nodes three_mem) [1; 3; 5] three_mem.
Proof.
  exists three, 1%nat. split_and!; [|done|by repeat econstructor].
  split; [done|by repeat split|repeat constructor; set_solver|simpl; set_solver|done].
Qed.
Lemma sub_comparator : comparator Z.sub.
Proof. split; intros; lia. Qed.
Lemma three_ordered : ordered Z.sub [1; 3; 5].
Proof. repeat constructor. Qed.

Lemma rbtree_insert_correct_witness :
  (4 ∉ [1; 3; 5]) /\ exists s' xs', rbtree_insert 4 Z.sub three_mem = Some (0, s') /\
    is_rbtree (nodes three_mem) xs' s' /\ xs' ≡ₚ [4; 1; 3; 5].
Proof.
  assert (4 ∉ [1; 3; 5]) as Hx by set_solver.
  split; [done|]. destruct (rbtree_insert_correct Z.sub (nodes three_mem) three_mem [1; 3; 5] 4)
    as [(y & Hy & E & _)|(_ & s' & xs' & E & H & _ & Hp)];
    [apply sub_comparator|apply three_rbtree|apply three_ordered|done|lia|by eexists| |].
  - exfalso. apply Hx. by assert (y = 4) as <- by lia.
  - by exists s', xs'.
Defined.

Lemma rbtree_erase_correct_witness :
  exists s' n, rbtree_erase 3 three_mem = Some (tt, s') /\ is_rbtree (<[3 := n]> (nodes three_mem)) [1; 5] s'.
Proof.
  destruct (rbtree_erase_correct (nodes three_mem) three_mem [1; 3; 5] 3) as (s' & n & pre & post & E & Ex & H);
    [apply three_rbtree|set_solver|].
  exists s', n. split; [done|].
  destruct (nodup_pivot 3 [1] [5] pre post) as [<- <-]; [repeat constructor; set_solver|done|done].
Defined.

Lemma rbtree_iteration_correct_witness :
  rbtree_first three_mem = Some (1, three_mem) /\ rbtree_next 3 three_mem = Some (5, three_mem).
Proof.
  destruct (rbtree_iteration_correct (nodes three_mem) three_mem [1; 3; 5] three_rbtree) as (H1 & _ & H2).
  split; [exact H1|]. exact (proj1 (H2 [1] 3 [5] eq_refl)).
Defined.

Lemma rbtree_descent_bound_witness : exists r, descend 5 Z.sub 4 None 0 three_mem = Some (r, three_mem).
Proof.
  apply (rbtree_descent_bound Z.sub (nodes three_mem) three_mem [1; 3; 5] 4);
    [apply sub_comparator|apply three_rbtree|apply three_ordered|set_solver].
Defined.

End RbTree.
