(* ===== verification/Sched.v ===== *)
(** The scheduler of src/kernel/sched: the EEVDF run queues (fair.c), CPU
    placement and load balancing (balance.c), and the wake-up, blocking and
    switching paths of core.c.  A run queue is a red-black tree (RbTree) whose
    nodes are embedded in the tasks. *)

From stdpp Require Import base tactics numbers option gmap sets sorting list.
From Stdlib Require Import ZArith Lia.
From S2P Require Import Prelude RbTree.

Module Sched.

(** ** Data *)

Abbreviation NR_CPUS := 8 (only parsing).
Abbreviation EEVDF_MIN_SLICE := 10 (only parsing).
Abbreviation EEVDF_LATENCY := 40 (only parsing).
Abbreviation TASK_RUNNING := 1 (only parsing).
Abbreviation TASK_INTERRUPTIBLE := 2 (only parsing).
Abbreviation TASK_UNINTERRUPTIBLE := 4 (only parsing).
Abbreviation TASK_ZOMBIE := 8 (only parsing).
Abbreviation BLOCKER_NONE := 0 (only parsing).
Abbreviation PF_KTHREAD := 1 (only parsing).

(** The scheduling fields of [task_t].  [check] tells whether the blocker has
    a callback. *)
Record task := mk_task {
  state : Z;
  pid : Z;
  signal : Z;
  blocked : Z;
  vruntime : Z;
  deadline : Z;
  on_rq : bool;
  cpu : Z;
  allowed_cpus : Z;
  type : Z;
  check : bool;
  signal_can_wake : bool;
  on_cpu : bool;
  in_schedule : bool;
  flags : Z;
  parent : Z;
}.

Definition set_state (v : Z) (t : task) : task :=
  mk_task v (pid t) (signal t) (blocked t) (vruntime t) (deadline t) (on_rq t) (cpu t) (allowed_cpus t)
    (type t) (check t) (signal_can_wake t) (on_cpu t) (in_schedule t) (flags t) (parent t).
Definition set_vruntime (v : Z) (t : task) : task :=
  mk_task (state t) (pid t) (signal t) (blocked t) v (deadline t) (on_rq t) (cpu t) (allowed_cpus t)
    (type t) (check t) (signal_can_wake t) (on_cpu t) (in_schedule t) (flags t) (parent t).
Definition set_deadline (v : Z) (t : task) : task :=
  mk_task (state t) (pid t) (signal t) (blocked t) (vruntime t) v (on_rq t) (cpu t) (allowed_cpus t)
    (type t) (check t) (signal_can_wake t) (on_cpu t) (in_schedule t) (flags t) (parent t).
Definition set_on_rq (v : bool) (t : task) : task :=
  mk_task (state t) (pid t) (signal t) (blocked t) (vruntime t) (deadline t) v (cpu t) (allowed_cpus t)
    (type t) (check t) (signal_can_wake t) (on_cpu t) (in_schedule t) (flags t) (parent t).
Definition set_cpu (v : Z) (t : task) : task :=
  mk_task (state t) (pid t) (signal t) (blocked t) (vruntime t) (deadline t) (on_rq t) v (allowed_cpus t)
    (type t) (check t) (signal_can_wake t) (on_cpu t) (in_schedule t) (flags t) (parent t).
Definition set_blocker (ty : Z) (c w : bool) (t : task) : task :=
  mk_task (state t) (pid t) (signal t) (blocked t) (vruntime t) (deadline t) (on_rq t) (cpu t) (allowed_cpus t)
    ty c w (on_cpu t) (in_schedule t) (flags t) (parent t).
Definition set_on_cpu (v : bool) (t : task) : task :=
  mk_task (state t) (pid t) (signal t) (blocked t) (vruntime t) (deadline t) (on_rq t) (cpu t) (allowed_cpus t)
    (type t) (check t) (signal_can_wake t) v (in_schedule t) (flags t) (parent t).
Definition set_in_schedule (v : bool) (t : task) : task :=
  mk_task (state t) (pid t) (signal t) (blocked t) (vruntime t) (deadline t) (on_rq t) (cpu t) (allowed_cpus t)
    (type t) (check t) (signal_can_wake t) (on_cpu t) v (flags t) (parent t).
Definition set_signal (v : Z) (t : task) : task :=
  mk_task (state t) (pid t) v (blocked t) (vruntime t) (deadline t) (on_rq t) (cpu t) (allowed_cpus t)
    (type t) (check t) (signal_can_wake t) (on_cpu t) (in_schedule t) (flags t) (parent t).

(** The scheduling fields of [percpu_t]; [run_queue] is the tree's root. *)
Record percpu := mk_percpu {
  need_resched : bool;
  cpu_id : Z;
  online : bool;
  scheduler_ok : bool;
  run_queue : Z;
  idle : Z;
  min_vruntime : Z;
  nr_running : Z;
}.

Definition set_need_resched (v : bool) (c : percpu) : percpu :=
  mk_percpu v (cpu_id c) (online c) (scheduler_ok c) (run_queue c) (idle c) (min_vruntime c) (nr_running c).
Definition set_min_vruntime (v : Z) (c : percpu) : percpu :=
  mk_percpu (need_resched c) (cpu_id c) (online c) (scheduler_ok c) (run_queue c) (idle c) v (nr_running c).
Definition set_queue (r n : Z) (c : percpu) : percpu :=
  mk_percpu (need_resched c) (cpu_id c) (online c) (scheduler_ok c) r (idle c) (min_vruntime c) n.

(** The globals.  Tasks and their embedded tree nodes are addressed by the
    task; [task_list] is the order of the global list after its head;
    [notified] records the calls of [arch_sched_notify_remote]. *)
Record sys := mk_sys {
  percpu_data : list percpu;
  tasks : gmap Z task;
  rb_nodes : gmap Z RbTree.node;
  num_cpus : Z;
  user_init_pid : Z;
  task_list : list Z;
  notified : list Z;
}.

Definition upd_cpu (f : percpu -> percpu) (c : Z) (s : sys) : sys :=
  mk_sys (zalter f c (percpu_data s)) (tasks s) (rb_nodes s) (num_cpus s) (user_init_pid s) (task_list s) (notified s).
Definition upd_task (f : task -> task) (t : Z) (s : sys) : sys :=
  mk_sys (percpu_data s) (alter f t (tasks s)) (rb_nodes s) (num_cpus s) (user_init_pid s) (task_list s) (notified s).
Definition upd_nodes (h : gmap Z RbTree.node) (s : sys) : sys :=
  mk_sys (percpu_data s) (tasks s) h (num_cpus s) (user_init_pid s) (task_list s) (notified s).
Definition notify (c : Z) (s : sys) : sys :=
  mk_sys (percpu_data s) (tasks s) (rb_nodes s) (num_cpus s) (user_init_pid s) (task_list s) (c :: notified s).

(** [(t->allowed_cpus >> c) & 1] *)
Definition allows (t : task) (c : Z) : bool := negb (Z.land (shr64 (allowed_cpus t) c) 1 =? 0).

(** ** fair.c *)

(** [None] stands for a dereference of a pointer that is no task or no CPU,
    and for a failed [ASSERT], which halts. *)
Definition update_curr (t c : Z) (s : sys) : option sys :=
  rq ← percpu_data s !!z c;
  if (t =? 0) || (t =? idle rq) then Some s else
  tk ← tasks s !! t;
  let v := vruntime tk +u 1 in
  let s := upd_task (set_vruntime v) t s in
  Some (if deadline tk <=? v then upd_cpu (set_need_resched true) c s else s).

Definition cmp_deadline (ts : gmap Z task) (a b : Z) : Z :=
  match ts !! a, ts !! b with
  | Some ta, Some tb =>
    if deadline ta <? deadline tb then -1
    else if deadline tb <? deadline ta then 1
    else if pid ta <? pid tb then -1
    else if pid tb <? pid ta then 1
    else if a <? b then -1 else 1
  | _, _ => 0
  end.

Definition enqueue_task (t c : Z) (s : sys) : option sys :=
  rq ← percpu_data s !!z c;
  tk ← tasks s !! t;
  if t =? idle rq then None else
  if (cpu_id rq <? NR_CPUS) && negb (allows tk (cpu_id rq)) then Some s else
  let s := upd_task (set_deadline (vruntime tk +u EEVDF_MIN_SLICE)) t s in
  let s := upd_task (set_on_rq true) t s in
  '(conflict, m) ← RbTree.rbtree_insert t (cmp_deadline (tasks s)) (RbTree.mk_mem (run_queue rq) (rb_nodes s));
  if conflict =? 0 then
    Some (upd_cpu (set_queue (RbTree.rb_node m) (wrap32 (nr_running rq + 1))) c (upd_nodes (RbTree.nodes m) s))
  else None.

Definition dequeue_task (t c : Z) (s : sys) : option sys :=
  rq ← percpu_data s !!z c;
  '(_, m) ← RbTree.rbtree_erase t (RbTree.mk_mem (run_queue rq) (rb_nodes s));
  let s := upd_task (set_on_rq false) t (upd_nodes (RbTree.nodes m) s) in
  Some (upd_cpu (set_queue (RbTree.rb_node m) (wrap32 (nr_running rq - 1))) c s).

Definition pick_eevdf (c : Z) (s : sys) : option (Z * sys) :=
  rq ← percpu_data s !!z c;
  if run_queue rq =? 0 then Some (idle rq, s) else
  '(t, _) ← RbTree.rbtree_first (RbTree.mk_mem (run_queue rq) (rb_nodes s));
  tk ← tasks s !! t;
  Some (t, if min_vruntime rq +u EEVDF_LATENCY <? vruntime tk
           then upd_cpu (set_min_vruntime (vruntime tk)) c s else s).

(** ** balance.c *)

(** The loop of [sched_pick_cpu_mask] from CPU [i] on, [n] CPUs to go; [me] is
    the calling CPU. *)
Fixpoint pick_cpu_loop (n : nat) (s : sys) (allowed me i best min_nr : Z) : option Z :=
  match n with
  | O => Some best
  | S n =>
    if Z.land (shr64 allowed i) 1 =? 0 then pick_cpu_loop n s allowed me (i + 1) best min_nr
    else if num_cpus s <=? i then Some best
    else
      rq ← percpu_data s !!z i;
      if negb (online rq) || negb (scheduler_ok rq) then pick_cpu_loop n s allowed me (i + 1) best min_nr
      else
        let nr := nr_running rq in
        if (nr <? min_nr) || ((nr =? min_nr) && ((best =? NR_CPUS) || (i =? me)))
        then pick_cpu_loop n s allowed me (i + 1) i nr
        else pick_cpu_loop n s allowed me (i + 1) best min_nr
  end.
Definition sched_pick_cpu_mask (allowed me : Z) (s : sys) : option Z :=
  if allowed =? 0 then Some NR_CPUS else pick_cpu_loop (Z.to_nat NR_CPUS) s allowed me 0 NR_CPUS UINT32_MAX.

Definition sched_pick_cpu (me : Z) (s : sys) : option Z :=
  let mask := if NR_CPUS <=? num_cpus s then UINT64_MAX else shl64 1 (num_cpus s) - 1 in
  c ← sched_pick_cpu_mask mask me s;
  Some (if c =? NR_CPUS then 0 else c).

Definition sched_notify_remote_cpu (me c : Z) (s : sys) : option sys :=
  if (NR_CPUS <=? c) || (num_cpus s <=? c) then Some s else
  if c =? me then Some s else
  dst ← percpu_data s !!z c;
  if negb (online dst) || negb (scheduler_ok dst) then Some s
  else Some (notify c (upd_cpu (set_need_resched true) c s)).

Definition sched_notify_remote (me t : Z) (s : sys) : option sys :=
  tk ← tasks s !! t; sched_notify_remote_cpu me (cpu tk) s.

(** The search for the busiest other CPU: its index ([-1] for none) and its
    [nr_running]. *)
Fixpoint busiest (n : nat) (s : sys) (me i src max_nr max_vr : Z) : option (Z * Z) :=
  match n with
  | O => Some (src, max_nr)
  | S n =>
    rq ← percpu_data s !!z i;
    if (i =? me) || negb (online rq) || negb (scheduler_ok rq) then busiest n s me (i + 1) src max_nr max_vr
    else
      let nr := nr_running rq in
      if nr =? 0 then busiest n s me (i + 1) src max_nr max_vr
      else
        let vr := min_vruntime rq in
        if (max_nr <? nr) || ((nr =? max_nr) && (max_vr <? vr)) then busiest n s me (i + 1) i nr vr
        else busiest n s me (i + 1) src max_nr max_vr
  end.

(** The migration of [t] from CPU [src] to CPU [c]. *)
Definition migrate (t src c : Z) (s : sys) : option sys :=
  rq ← percpu_data s !!z c;
  s ← dequeue_task t src s;
  let s := upd_task (set_cpu (cpu_id rq)) t s in
  tk ← tasks s !! t;
  let s := if vruntime tk <? min_vruntime rq then upd_task (set_vruntime (min_vruntime rq)) t s else s in
  enqueue_task t c s.

(** The loop that steals from the tail: [count] more tasks at most. *)
Fixpoint steal (fuel : nat) (node src c count taken : Z) (s : sys) : option sys :=
  match fuel with
  | O => None
  | S fuel =>
    if negb (node =? 0) && (taken <? count) then
      tk ← tasks s !! node;
      srq ← percpu_data s !!z src;
      rq ← percpu_data s !!z c;
      '(prev, _) ← RbTree.rbtree_prev node (RbTree.mk_mem (run_queue srq) (rb_nodes s));
      if negb (node =? idle srq) &&
         (negb (pid tk =? user_init_pid s) && negb (on_cpu tk) && allows tk (cpu_id rq)) then
        s ← migrate node src c s;
        steal fuel prev src c count (taken + 1) s
      else steal fuel prev src c count taken s
    else Some s
  end.

Definition sched_balance (c : Z) (s : sys) : option sys :=
  rq ← percpu_data s !!z c;
  '(src, max_nr) ← busiest (Z.to_nat (num_cpus s)) s (cpu_id rq) 0 (-1) 0 0;
  if src <? 0 then Some s else
  if (0 <? nr_running rq) && (max_nr <=? wrap32 (nr_running rq + 1)) then Some s else
  let half := Z.quot (sint32 (wrap32 (max_nr - nr_running rq))) 2 in
  let count := if half <? 1 then 1 else half in
  srq ← percpu_data s !!z src;
  '(node, _) ← RbTree.rbtree_last (RbTree.mk_mem (run_queue srq) (rb_nodes s));
  s ← steal (S (size (tasks s))) node src c count 0 s;
  srq ← percpu_data s !!z src;
  Some (if nr_running srq =? 0 then upd_cpu (set_min_vruntime 0) src s else s).

(** ** core.c *)

(** [task_finish_switch], run by CPU [me] on the stack of the incoming task. *)
Definition task_finish_switch (me prev : Z) (s : sys) : option sys :=
  tk ← tasks s !! prev;
  rq ← percpu_data s !!z cpu tk;
  let target := cpu_id rq in
  let again := (state tk =? TASK_RUNNING) && negb (on_rq tk) && negb (prev =? idle rq) in
  s ← (if again then
         s ← enqueue_task prev (cpu tk) s;
         Some (upd_cpu (set_need_resched true) (cpu tk) s)
       else Some s);
  let s := upd_task (set_on_cpu false) prev s in
  if again && negb (target =? me) then sched_notify_remote_cpu me target s else Some s.

(** The critical section of [task_wake] on the run queue of the task's CPU, in
    which the lockless read of [t->cpu] is confirmed. *)
Definition task_wake (me t : Z) (s : sys) : option sys :=
  tk ← tasks s !! t;
  rq ← percpu_data s !!z cpu tk;
  if t =? idle rq then Some s else
  let s := upd_task (set_state TASK_RUNNING) t s in
  if on_rq tk then Some s else
  if on_cpu tk then Some s else
  let wake := if EEVDF_LATENCY <? min_vruntime rq then min_vruntime rq - EEVDF_LATENCY else 0 in
  let s := if vruntime tk <? wake then upd_task (set_vruntime wake) t s else s in
  s ← enqueue_task t (cpu tk) s;
  let s := upd_task (set_cpu (cpu_id rq)) t s in
  if negb (cpu_id rq =? me) then sched_notify_remote_cpu me (cpu_id rq) s else Some s.

(** [t->signal & ~t->blocked] *)
Definition pending (tk : task) : bool := negb (Z.land (signal tk) (Z.lnot (blocked tk)) =? 0).

(** [ready t] is the answer of the callback of [t]'s blocker. *)
Definition blocker_wake_locked (ready : Z -> bool) (me t : Z) (s : sys) : option sys :=
  tk ← tasks s !! t;
  if negb (state tk =? TASK_INTERRUPTIBLE) && negb (state tk =? TASK_UNINTERRUPTIBLE) then Some s else
  if type tk =? BLOCKER_NONE then Some s else
  let cond := check tk && ready t in
  let signal_wake := negb cond && signal_can_wake tk && pending tk in
  if negb cond && negb signal_wake then Some s
  else task_wake me t (upd_task (set_blocker BLOCKER_NONE false (signal_can_wake tk)) t s).

Definition blocker_wake (ready : Z -> bool) (me t : Z) (s : sys) : option sys :=
  if t =? 0 then Some s else blocker_wake_locked ready me t s.

Definition task_signal_parent (ready : Z -> bool) (me child signals : Z) (s : sys) : option sys :=
  ck ← tasks s !! child;
  if parent ck =? 0 then Some s else
  pk ← tasks s !! parent ck;
  if Z.land (flags pk) PF_KTHREAD =? 0 then
    blocker_wake_locked ready me (parent ck) (upd_task (set_signal (Z.lor (signal pk) signals)) (parent ck) s)
  else Some s.

Definition task_wake_parent (me child : Z) (s : sys) : option sys :=
  ck ← tasks s !! child;
  if parent ck =? 0 then Some s else
  pk ← tasks s !! parent ck;
  if (state pk =? TASK_INTERRUPTIBLE) || (state pk =? TASK_RUNNING) then task_wake me (parent ck) s else Some s.

(** The scan of the task list by [sched_unblock_blocked]. *)
Fixpoint unblock_scan (ready : Z -> bool) (me : Z) (ts : list Z) (s : sys) : option sys :=
  match ts with
  | [] => Some s
  | t :: ts =>
    tk ← tasks s !! t;
    if negb (state tk =? TASK_INTERRUPTIBLE) then unblock_scan ready me ts s
    else if type tk =? BLOCKER_NONE then unblock_scan ready me ts s
    else if (check tk && ready t) || (signal_can_wake tk && pending tk) then
      s ← blocker_wake_locked ready me t s; unblock_scan ready me ts s
    else unblock_scan ready me ts s
  end.
Definition sched_unblock_blocked (ready : Z -> bool) (me : Z) (s : sys) : option sys :=
  unblock_scan ready me (task_list s) s.

(** [blocker_wait] up to the call of [schedule]: [check1] and [check2] are the
    two answers of the callback [fn] (false for NULL).  [inl r] returns [r]; [inr] goes on to
    sleep. *)
Definition blocker_wait_begin (self ty : Z) (fn can_wake check1 check2 : bool) (s : sys) : option ((Z + unit) * sys) :=
  if negb fn then Some (inl (- EINVAL), s) else
  if check1 then Some (inl 0, s) else
  tk ← tasks s !! self;
  let s := upd_task (set_blocker ty true can_wake) self s in
  let s := upd_task (set_state TASK_INTERRUPTIBLE) self s in
  if check2 then
    let s := upd_task (set_blocker BLOCKER_NONE false can_wake) self s in
    Some (inl 0, upd_task (set_state TASK_RUNNING) self s)
  else Some (inr tt, s).

(** ... and after it: [check3] is the last answer. *)
Definition blocker_wait_end (self : Z) (can_wake check3 : bool) (s : sys) : option (Z * sys) :=
  tk ← tasks s !! self;
  let s := upd_task (set_blocker BLOCKER_NONE false (signal_can_wake tk)) self s in
  let s := upd_task (set_state TASK_RUNNING) self s in
  Some (if can_wake && pending tk && negb check3 then - EINTR else 0, s).

Definition task_exit_zombie (self : Z) (s : sys) : option sys :=
  tk ← tasks s !! self; Some (upd_task (set_state TASK_ZOMBIE) self s).

(** [schedule] on CPU [c], whose current task is [cur].  The entry, which a
    nested call leaves at once: whether the call goes on. *)
Definition sched_enter (cur c : Z) (s : sys) : option (bool * sys) :=
  rq ← percpu_data s !!z c;
  if negb (scheduler_ok rq) then Some (false, s) else
  tk ← tasks s !! cur;
  if in_schedule tk then Some (false, s) else
  let s := upd_task (set_in_schedule true) cur s in
  let s := upd_task (set_on_cpu true) cur s in
  s ← update_curr cur c s;
  Some (true, s).

(** The two critical sections on the CPU's own queue: the requeueing of the
    current task, and the choice of the next. *)
Definition sched_requeue (cur c : Z) (s : sys) : option sys :=
  rq ← percpu_data s !!z c;
  tk ← tasks s !! cur;
  s ← (if on_rq tk then dequeue_task cur c s else Some s);
  if (state tk =? TASK_RUNNING) && negb (cur =? idle rq) then enqueue_task cur c s else Some s.

Definition sched_pick (c : Z) (s : sys) : option (Z * sys) :=
  rq ← percpu_data s !!z c;
  '(next, s) ← pick_eevdf c s;
  s ← (if negb (next =? 0) && negb (next =? idle rq) then
         s ← dequeue_task next c s;
         Some (upd_task (set_cpu (cpu_id rq)) next (upd_task (set_on_cpu true) next s))
       else Some s);
  Some (next, upd_cpu (set_need_resched false) c s).

(** What follows the choice: the fallback to idle, and the bookkeeping of the
    switch.  The result is the task CPU [c] runs next; the call returns without
    a switch if it is [cur]. *)
Definition sched_commit (cur next c : Z) (s : sys) : option (Z * sys) :=
  rq ← percpu_data s !!z c;
  next ← (if next =? 0 then Some (idle rq)
          else tk ← tasks s !! next; Some (if state tk =? TASK_RUNNING then next else idle rq));
  if next =? 0 then Some (cur, upd_task (set_in_schedule false) cur s) else
  tk ← tasks s !! next;
  if next =? cur then
    let s := if negb (next =? idle rq) && (deadline tk <=? vruntime tk) && (min_vruntime rq <? vruntime tk)
             then upd_cpu (set_min_vruntime (vruntime tk)) c s else s in
    Some (next, upd_task (set_in_schedule false) cur s)
  else
    Some (next,
      if negb (next =? idle rq) && (min_vruntime rq <? vruntime tk)
      then upd_cpu (set_min_vruntime (vruntime tk)) c s else s).

(** The tail of [schedule], run by a task that is switched back in. *)
Definition sched_resume (cur : Z) (s : sys) : option sys :=
  tk ← tasks s !! cur;
  Some (upd_task (set_in_schedule false) cur (upd_task (set_on_cpu true) cur s)).

(** One call of [schedule] up to [switch_to], with nothing between its
    sections: the task to run.  [ready] answers the blocker callbacks and
    [scan] is [arch_sched_scan_blockers()]. *)
Definition schedule (ready : Z -> bool) (scan : bool) (cur c : Z) (s : sys) : option (Z * sys) :=
  '(go, s) ← sched_enter cur c s;
  if negb go then Some (cur, s) else
  s ← sched_requeue cur c s;
  s ← (if scan then sched_unblock_blocked ready c s else Some s);
  s ← sched_balance c s;
  '(next, s) ← sched_pick c s;
  sched_commit cur next c s.

(** ** Run queues *)

(** The heap [h] holds the red-black tree with root [r] of the nodes [xs]. *)
Definition tree_at (h : gmap Z RbTree.node) (r : Z) (xs : list Z) : Prop :=
  RbTree.is_rbtree h xs (RbTree.mk_mem r h).

Lemma tree_at_frame h h' r xs :
  (forall q, q ∈ xs -> h' !! q = h !! q) -> tree_at h r xs -> tree_at h' r xs.
Proof.
  intros Hs (t & m & [Hr Ht Hn H0 _] & <- & Hb). exists t, m. split_and!; try done. split; try done.
  by apply (RbTree.trep_same h).
Qed.

Lemma tree_at_nodup h r xs : tree_at h r xs -> NoDup xs.
Proof. intros (t & m & H & <- & _). by apply RbTree.rep_nodup in H. Qed.

Lemma tree_at_in h r xs x : tree_at h r xs -> x ∈ xs -> is_Some (h !! x).
Proof. intros (t & m & H & <- & _). apply RbTree.rep_tree in H. by eapply RbTree.trep_in. Qed.

Lemma tree_at_root h r xs : tree_at h r xs -> (r =? 0) = bool_decide (xs = []).
Proof.
  intros (t & m & H & <- & _). pose proof (RbTree.rep_root _ _ _ H) as Hr. simpl in Hr. subst r.
  rewrite (RbTree.rep_ptr0 _ _ [] t H). apply bool_decide_ext. destruct t; simpl; [done|].
  split; [done|]. by intros [_ ?]%app_eq_nil.
Qed.

Lemma tree_insert cmp h r xs x :
  RbTree.comparator cmp -> tree_at h r xs -> RbTree.ordered cmp xs -> x ∉ xs -> x <> 0 -> is_Some (h !! x) ->
  (forall y, y ∈ xs -> cmp x y <> 0) ->
  exists m xs', RbTree.rbtree_insert x cmp (RbTree.mk_mem r h) = Some (0, m) /\
    tree_at (RbTree.nodes m) (RbTree.rb_node m) xs' /\ RbTree.ordered cmp xs' /\ xs' ≡ₚ x :: xs /\
    (forall q, q ∉ x :: xs -> RbTree.nodes m !! q = h !! q).
Proof.
  intros Hc (t & n & H & <- & Hb) Ho Hx Hx0 Hh Hne.
  destruct (RbTree.insert_spec h cmp Hc x _ t n H Hb Ho Hx Hx0 Hh) as [(y & Hy & E & _)|(m & t' & n' & E & H' & Hb' & Ho' & Hp & _)].
  { by destruct (Hne y Hy). }
  exists m, (RbTree.inorder t'). split_and!; try done.
  - exists t', n'. split_and!; try done. destruct H' as [Hr Ht Hn H0 Hq]. by split.
  - intros q Hq. apply (RbTree.rep_rest _ _ _ H'). by rewrite Hp.
Qed.

Lemma tree_erase h r xs x :
  tree_at h r xs -> x ∈ xs ->
  exists m pre post, RbTree.rbtree_erase x (RbTree.mk_mem r h) = Some (tt, m) /\ xs = pre ++ x :: post /\
    tree_at (RbTree.nodes m) (RbTree.rb_node m) (pre ++ post) /\
    (forall q, q ∉ xs -> RbTree.nodes m !! q = h !! q) /\ is_Some (RbTree.nodes m !! x).
Proof.
  intros (t & n & H & <- & Hb) Hx.
  destruct (RbTree.erase_spec h _ t n x H Hb Hx) as (m & nd & pre & post & E & Ei & t' & n' & H' & Ei' & Hb').
  pose proof (RbTree.rep_nodup _ _ _ H) as Hn. rewrite Ei in Hn.
  exists m, pre, post. split_and!; try done.
  - exists t', n'. split_and!; try done. destruct H' as [? ? ? ? ?]. by split.
  - intros q Hq. rewrite Ei in Hq. rewrite (RbTree.rep_rest _ _ _ H') by (rewrite Ei'; set_solver).
    rewrite lookup_insert_ne by set_solver. done.
  - rewrite (RbTree.rep_rest _ _ _ H'); [by rewrite lookup_insert_eq; eexists|]. rewrite Ei'.
    apply NoDup_app in Hn as (_ & Hn1 & [Hn2 _]%NoDup_cons). set_solver.
Qed.

Lemma cmp_deadline_comparator ts : RbTree.comparator (cmp_deadline ts).
Proof.
  split; unfold cmp_deadline.
  - intros x y Hne. destruct (ts !! x), (ts !! y); try lia. bools; lia.
  - intros x y Hne. destruct (ts !! x), (ts !! y); try lia. bools; lia.
  - intros x y z. destruct (ts !! x), (ts !! y), (ts !! z); try lia. bools; lia.
Qed.

Lemma ordered_ext (cmp cmp' : Z -> Z -> Z) xs :
  (forall a b, a ∈ xs -> b ∈ xs -> cmp' a b = cmp a b) -> RbTree.ordered cmp xs -> RbTree.ordered cmp' xs.
Proof.
  unfold RbTree.ordered. induction xs as [|x xs IH]; intros He Ho; [constructor|].
  apply StronglySorted_cons in Ho as [Hx Ho]. apply StronglySorted_cons. split.
  - rewrite Forall_forall in *. intros y Hy. rewrite He by set_solver. auto.
  - apply IH; [|done]. intros. apply He; set_solver.
Qed.

Lemma ordered_remove cmp pre (x : Z) post : RbTree.ordered cmp (pre ++ x :: post) -> RbTree.ordered cmp (pre ++ post).
Proof.
  unfold RbTree.ordered. rewrite !StronglySorted_app, StronglySorted_cons.
  intros (H1 & H2 & _ & H3). split_and!; try done. intros. apply H1; set_solver.
Qed.

(** [qs c] is the run queue of CPU [c], in deadline order.  A task is on the
    queue of its own CPU exactly when its [on_rq] flag is set, is runnable
    there, and may run there; idle tasks are on no queue. *)
Record queues (s : sys) (qs : Z -> list Z) : Prop := {
  q_cpu : forall c rq, percpu_data s !!z c = Some rq -> cpu_id rq = c /\ c < NR_CPUS;
  q_tree : forall c rq, percpu_data s !!z c = Some rq -> tree_at (rb_nodes s) (run_queue rq) (qs c);
  q_ord : forall c rq, percpu_data s !!z c = Some rq -> RbTree.ordered (cmp_deadline (tasks s)) (qs c);
  q_nr : forall c rq, percpu_data s !!z c = Some rq -> nr_running rq = zlen (qs c);
  q_in : forall c t, t ∈ qs c ->
    exists tk, tasks s !! t = Some tk /\ on_rq tk = true /\ cpu tk = c /\ state tk = TASK_RUNNING;
  q_out : forall t tk, tasks s !! t = Some tk -> on_rq tk = true -> t ∈ qs (cpu tk);
  q_task : forall t tk, tasks s !! t = Some tk ->
    t <> 0 /\ is_Some (rb_nodes s !! t) /\ is_Some (percpu_data s !!z cpu tk) /\ allows tk (cpu tk) = true;
  q_idle : forall c rq, percpu_data s !!z c = Some rq ->
    exists tk, tasks s !! idle rq = Some tk /\ cpu tk = c /\ on_rq tk = false;
  q_size : Z.of_nat (size (tasks s)) < 2147483648;
  q_num : num_cpus s <= zlen (percpu_data s);
}.

Definition qset (c : Z) (q : list Z) (qs : Z -> list Z) : Z -> list Z :=
  fun c' => if decide (c' = c) then q else qs c'.

Lemma qset_eq c q qs : qset c q qs c = q.
Proof. unfold qset. by case_decide. Qed.
Lemma qset_ne c q qs c' : c' <> c -> qset c q qs c' = qs c'.
Proof. intros. unfold qset. by case_decide. Qed.

(** The globals that no operation here changes. *)
Definition same_globals (s s' : sys) : Prop :=
  num_cpus s' = num_cpus s /\ user_init_pid s' = user_init_pid s /\ task_list s' = task_list s.

#[export] Instance same_globals_trans : Transitive same_globals.
Proof. intros s1 s2 s3 (? & ? & ?) (? & ? & ?). split_and!; congruence. Qed.

Lemma nodup_size {A} (m : gmap Z A) xs :
  NoDup xs -> (forall x, x ∈ xs -> is_Some (m !! x)) -> (length xs <= size m)%nat.
Proof.
  intros Hn Hs. rewrite <- size_dom, <- (size_list_to_set (C := gset Z) xs Hn).
  apply subseteq_size. intros x Hx%elem_of_list_to_set. apply elem_of_dom. auto.
Qed.

(** The comparison reads the deadlines and pids of its two tasks. *)
Lemma cmp_deadline_same (ts ts' : gmap Z task) a b :
  (forall x, x = a \/ x = b -> (fun t => (deadline t, pid t)) <$> ts' !! x = (fun t => (deadline t, pid t)) <$> ts !! x) ->
  cmp_deadline ts' a b = cmp_deadline ts a b.
Proof.
  intros H. pose proof (H a (or_introl eq_refl)) as Ha. pose proof (H b (or_intror eq_refl)) as Hb.
  unfold cmp_deadline. destruct (ts !! a), (ts' !! a), (ts !! b), (ts' !! b); simplify_eq/=; try done.
  by repeat match goal with E : _ _ = _ _ |- _ => rewrite E end.
Qed.

Lemma cmp_deadline_nonzero (ts : gmap Z task) a b :
  is_Some (ts !! a) -> is_Some (ts !! b) -> cmp_deadline ts a b <> 0.
Proof. intros [ta Ea] [tb Eb]. unfold cmp_deadline. rewrite Ea, Eb. bools; lia. Qed.

(** The flags and the deadline of a task that enters a queue. *)
Definition queued (tk : task) : task := set_on_rq true (set_deadline (vruntime tk +u EEVDF_MIN_SLICE) tk).

Lemma alter_some {A} (f : A -> A) (i : Z) (m : gmap Z A) x : m !! i = Some x -> alter f i m = <[i := f x]> m.
Proof.
  intros E. apply map_eq. intros j. destruct (decide (i = j)) as [<-|].
  - by rewrite lookup_alter_eq, lookup_insert_eq, E.
  - by rewrite lookup_alter_ne, lookup_insert_ne.
Qed.

Lemma zalter_some_inv {A} (f : A -> A) c (l : list A) c' y :
  zalter f c l !!z c' = Some y ->
  (c' = c /\ exists x, l !!z c = Some x /\ y = f x) \/ (c' <> c /\ l !!z c' = Some y).
Proof.
  destruct (decide (c' = c)) as [->|].
  - rewrite zlookup_zalter. intros (x & E & ->)%fmap_Some. left. split; [done|]. by exists x.
  - rewrite zlookup_zalter_ne by done. by right.
Qed.

Section queue_ops.
Context (s : sys) (qs : Z -> list Z) (Hq : queues s qs).

Lemma q_unique t c c' : t ∈ qs c -> t ∈ qs c' -> c = c'.
Proof.
  intros (tk & E & _ & <- & _)%(q_in _ _ Hq) (tk' & E' & _ & <- & _)%(q_in _ _ Hq). congruence.
Qed.
Lemma q_absent t tk c : tasks s !! t = Some tk -> on_rq tk = false -> t ∉ qs c.
Proof. intros E Hf (tk' & E' & Ht & _)%(q_in _ _ Hq). congruence. Qed.
Lemma q_len c rq : percpu_data s !!z c = Some rq -> zlen (qs c) <= Z.of_nat (size (tasks s)).
Proof.
  intros Hc. unfold zlen. apply Nat2Z.inj_le. apply nodup_size; [by eapply tree_at_nodup, (q_tree _ _ Hq)|].
  intros x (tk & E & _)%(q_in _ _ Hq). by eexists.
Qed.

Lemma enqueue_insert t c tk rq :
  percpu_data s !!z c = Some rq -> tasks s !! t = Some tk -> on_rq tk = false ->
  exists m q, RbTree.rbtree_insert t (cmp_deadline (<[t := queued tk]> (tasks s)))
      (RbTree.mk_mem (run_queue rq) (rb_nodes s)) = Some (0, m) /\
    tree_at (RbTree.nodes m) (RbTree.rb_node m) q /\
    RbTree.ordered (cmp_deadline (<[t := queued tk]> (tasks s))) q /\ q ≡ₚ t :: qs c /\
    (forall p, p ∉ t :: qs c -> RbTree.nodes m !! p = rb_nodes s !! p).
Proof.
  intros Hc Ht Hf. pose proof (q_absent _ _ c Ht Hf) as Hn. destruct (q_task _ _ Hq _ _ Ht) as (Ht0 & Hn0 & _).
  apply tree_insert; try done.
  - apply cmp_deadline_comparator.
  - by apply (q_tree _ _ Hq).
  - apply (ordered_ext (cmp_deadline (tasks s))); [|by eapply (q_ord _ _ Hq)].
    intros a b Ha Hb. apply cmp_deadline_same. intros x [->| ->]; by rewrite lookup_insert_ne by (intros ->; done).
  - intros y Hy. apply cmp_deadline_nonzero; [by rewrite lookup_insert_eq; eexists|].
    rewrite lookup_insert_ne by (by intros ->). destruct (q_in _ _ Hq _ _ Hy) as (? & ? & _). by eexists.
Qed.

(** The queue of CPU [c] becomes [q] while task [t] of that CPU becomes
    [tk']. *)
Lemma queues_change s' t c tk tk' rq q r :
  percpu_data s !!z c = Some rq -> tasks s !! t = Some tk -> cpu tk = c ->
  tasks s' = <[t := tk']> (tasks s) -> percpu_data s' = zalter (set_queue r (zlen q)) c (percpu_data s) ->
  num_cpus s' = num_cpus s ->
  cpu tk' = c -> allowed_cpus tk' = allowed_cpus tk -> (on_rq tk' = true -> state tk' = TASK_RUNNING /\ t <> idle rq) ->
  (forall p, p ∈ q <-> (p = t /\ on_rq tk' = true) \/ (p <> t /\ p ∈ qs c)) -> (forall c', c' <> c -> t ∉ qs c') ->
  tree_at (rb_nodes s') r q -> RbTree.ordered (cmp_deadline (tasks s')) q ->
  (forall p, p ∉ t :: qs c -> rb_nodes s' !! p = rb_nodes s !! p) ->
  (forall p, p ∈ t :: qs c -> is_Some (rb_nodes s' !! p)) ->
  queues s' (qset c q qs).
Proof.
  intros Hc Ht Ecpu Ets Epc Enum Ecpu' Eal Hon Hq' Hnt Htree Hord Hfr Hsome.
  assert (forall c' p, c' <> c -> p ∈ qs c' -> p ∉ t :: qs c) as Hdisj.
  { intros c' p Hne Hp'. rewrite elem_of_cons. intros [->|Hp'']; [by eapply Hnt|]. by eapply Hne, q_unique. }
  split; rewrite ?Ets, ?Epc.
  - intros c' rq' [(-> & x & Ex & ->)|[_ Ex]]%zalter_some_inv; by apply (q_cpu _ _ Hq _ _ Ex).
  - intros c' rq' [(-> & x & Ex & ->)|[Hne Ex]]%zalter_some_inv; [by rewrite qset_eq|].
    rewrite qset_ne by done. eapply tree_at_frame; [|by eapply (q_tree _ _ Hq)]. intros p Hp'. apply Hfr. by eapply Hdisj.
  - intros c' rq' [(-> & x & Ex & ->)|[Hne Ex]]%zalter_some_inv; [by rewrite qset_eq, <- Ets|].
    rewrite qset_ne by done. apply (ordered_ext (cmp_deadline (tasks s))); [|by eapply (q_ord _ _ Hq)].
    intros a b Ha Hb. apply cmp_deadline_same.
    intros x [->| ->]; rewrite lookup_insert_ne; try done; intros ->; by eapply Hnt.
  - intros c' rq' [(-> & x & Ex & ->)|[Hne Ex]]%zalter_some_inv; [by rewrite qset_eq|].
    rewrite qset_ne by done. by apply (q_nr _ _ Hq).
  - intros c' p. unfold qset. case_decide as Hd; [subst c'|].
    + rewrite Hq'. intros [[-> Ho]|[Hne Hp']].
      * exists tk'. rewrite lookup_insert_eq. by destruct (Hon Ho).
      * rewrite lookup_insert_ne by done. by apply (q_in _ _ Hq).
    + intros Hp'. rewrite lookup_insert_ne; [by apply (q_in _ _ Hq)|]. intros ->. by eapply Hnt.
  - intros p pk [[<- <-]|[Hne E]]%lookup_insert_Some Ho.
    + rewrite Ecpu', qset_eq. apply Hq'. by left.
    + pose proof (q_out _ _ Hq _ _ E Ho). unfold qset. case_decide as Hd; [|done]. apply Hq'. right.
      rewrite <- Hd. done.
  - intros p pk Hpk.
    assert (exists pk0, tasks s !! p = Some pk0 /\ cpu pk = cpu pk0 /\ allowed_cpus pk = allowed_cpus pk0) as (pk0 & E0 & E1 & E2).
    { apply lookup_insert_Some in Hpk as [[<- <-]|[Hne E]]; [exists tk|exists pk]; naive_solver. }
    destruct (q_task _ _ Hq _ _ E0) as (? & Hn0 & Hp0 & Hal). split_and!; [done|..].
    + destruct (decide (p ∈ t :: qs c)); [by apply Hsome|]. by rewrite Hfr.
    + rewrite E1. destruct (decide (cpu pk0 = c)) as [->|]; [rewrite zlookup_zalter, Hc; by eexists|].
      by rewrite zlookup_zalter_ne.
    + unfold allows in *. by rewrite E1, E2.
  - intros c' rq' Hc'.
    assert (exists x, percpu_data s !!z c' = Some x /\ idle rq' = idle x) as (x & Ex & ->).
    { apply zalter_some_inv in Hc' as [(-> & x & Ex & ->)|[_ Ex]]; [exists x|exists rq']; done. }
    destruct (q_idle _ _ Hq _ _ Ex) as (ik & Ei & Eic & Eio).
    destruct (decide (idle x = t)) as [Heq|Hne]; [|exists ik; by rewrite lookup_insert_ne].
    rewrite Heq in *. rewrite Ht in Ei. injection Ei as <-. exists tk'. rewrite lookup_insert_eq.
    split_and!; [done|congruence|]. destruct (on_rq tk') eqn:Ho; [|done]. exfalso.
    destruct (Hon eq_refl) as [_ Hni]. apply Hni. rewrite <- Heq. congruence.
  - rewrite map_size_insert_Some by by eexists. apply (q_size _ _ Hq).
  - rewrite Enum, zlen_zalter. apply (q_num _ _ Hq).
Qed.

Lemma enqueue_spec t c tk rq :
  percpu_data s !!z c = Some rq -> tasks s !! t = Some tk -> on_rq tk = false -> cpu tk = c ->
  state tk = TASK_RUNNING -> t <> idle rq ->
  exists s' q r, enqueue_task t c s = Some s' /\ queues s' (qset c q qs) /\ q ≡ₚ t :: qs c /\
    tasks s' = <[t := queued tk]> (tasks s) /\ percpu_data s' = zalter (set_queue r (zlen q)) c (percpu_data s) /\
    same_globals s s' /\ notified s' = notified s.
Proof.
  intros Hc Ht Hf Hcpu Hst Hi. destruct (enqueue_insert t c tk rq Hc Ht Hf) as (m & q & Em & Htree & Hord & Hp & Hfr).
  destruct (q_task _ _ Hq _ _ Ht) as (Ht0 & Hn0 & Hpc & Hal). destruct (q_cpu _ _ Hq _ _ Hc) as [Eid Hlt].
  assert (zlen q = zlen (qs c) + 1) as Hlq by (unfold zlen; rewrite Hp; simpl; lia).
  assert (zlen q <= Z.of_nat (size (tasks s))) as Hle.
  { unfold zlen. apply Nat2Z.inj_le, nodup_size; [by eapply tree_at_nodup|]. intros x. rewrite Hp, elem_of_cons.
    intros [->|(tx & Ex & _)%(q_in _ _ Hq)]; by eexists. }
  pose proof (q_size _ _ Hq) as Hsize.
  set (s' := upd_cpu (set_queue (RbTree.rb_node m) (zlen q)) c
    (upd_nodes (RbTree.nodes m) (upd_task (set_on_rq true) t (upd_task (set_deadline (vruntime tk +u EEVDF_MIN_SLICE)) t s)))).
  assert (tasks s' = <[t := queued tk]> (tasks s)) as Ets.
  { simpl. rewrite (alter_some _ t _ tk Ht), (alter_some _ t _ _ (lookup_insert_eq _ _ _)). by rewrite insert_insert_eq. }
  exists s', q, (RbTree.rb_node m). split_and!; try done.
  - unfold enqueue_task. rewrite Hc. cbn [mbind option_bind]. rewrite Ht. cbn [mbind option_bind].
    rewrite (proj2 (Z.eqb_neq _ _) Hi), Eid. rewrite <- Hcpu at 1 2. rewrite Hal, andb_false_r.
    cbv zeta. change (tasks (upd_task _ t (upd_task _ t s))) with (tasks s'). rewrite Ets.
    change (rb_nodes (upd_task _ t (upd_task _ t s))) with (rb_nodes s). rewrite Em. cbn [mbind option_bind].
    rewrite (q_nr _ _ Hq _ _ Hc), <- Hlq. unfold wrap32. by rewrite Z.mod_small by (unfold zlen in *; lia).
  - eapply (queues_change s' t c tk (queued tk) rq q); try done.
    + intros p. rewrite Hp, elem_of_cons. destruct (decide (p = t)) as [->|]; [|naive_solver].
      pose proof (q_absent _ _ c Ht Hf). naive_solver.
    + intros c' _. by eapply q_absent.
    + by rewrite Ets.
    + intros p Hp'. simpl. apply (tree_at_in _ _ _ _ Htree). by rewrite Hp.
Qed.

Lemma dequeue_spec t c rq :
  percpu_data s !!z c = Some rq -> t ∈ qs c ->
  exists s' pre post r tk, dequeue_task t c s = Some s' /\ qs c = pre ++ t :: post /\
    queues s' (qset c (pre ++ post) qs) /\ tasks s !! t = Some tk /\
    tasks s' = <[t := set_on_rq false tk]> (tasks s) /\
    percpu_data s' = zalter (set_queue r (zlen (pre ++ post))) c (percpu_data s) /\ same_globals s s' /\
    notified s' = notified s.
Proof.
  intros Hc Hin. destruct (q_in _ _ Hq _ _ Hin) as (tk & Ht & Hon & Hcpu & Hst).
  destruct (tree_erase _ _ _ t (q_tree _ _ Hq _ _ Hc) Hin) as (m & pre & post & Em & Eq & Htree & Hfr & Hx).
  pose proof (tree_at_nodup _ _ _ (q_tree _ _ Hq _ _ Hc)) as Hnd. pose proof (q_len c rq Hc) as Hlen.
  pose proof (q_size _ _ Hq) as Hsize.
  assert (zlen (qs c) = zlen (pre ++ post) + 1) as Hlq.
  { unfold zlen. rewrite Eq, !length_app. simpl. lia. }
  set (s' := upd_cpu (set_queue (RbTree.rb_node m) (zlen (pre ++ post))) c
    (upd_task (set_on_rq false) t (upd_nodes (RbTree.nodes m) s))).
  assert (tasks s' = <[t := set_on_rq false tk]> (tasks s)) as Ets by (simpl; by apply alter_some).
  exists s', pre, post, (RbTree.rb_node m), tk. split_and!; try done.
  - unfold dequeue_task. rewrite Hc. cbn [mbind option_bind]. rewrite Em. cbn [mbind option_bind].
    rewrite (q_nr _ _ Hq _ _ Hc), Hlq. unfold wrap32. rewrite Z.mod_small by (unfold zlen in *; lia).
    by replace (zlen (pre ++ post) + 1 - 1) with (zlen (pre ++ post)) by lia.
  - rewrite Eq in Hnd, Hfr. eapply (queues_change s' t c tk (set_on_rq false tk) rq); try done.
    + intros p. rewrite Eq. apply NoDup_app in Hnd as (_ & Hn1 & [Hn2 _]%NoDup_cons). simpl.
      destruct (decide (p = t)) as [->|]; [|set_solver]. split; [|naive_solver]. specialize (Hn1 t). set_solver.
    + intros c' Hne Hin'. by eapply Hne, q_unique.
    + rewrite Ets. eapply (ordered_ext (cmp_deadline (tasks s))).
      * intros a b _ _. apply cmp_deadline_same. intros x _. destruct (decide (x = t)) as [->|];
          [by rewrite lookup_insert_eq, Ht|by rewrite lookup_insert_ne].
      * apply (ordered_remove _ _ t). rewrite <- Eq. by eapply (q_ord _ _ Hq).
    + intros p Hp'. apply Hfr. rewrite <- Eq. set_solver.
    + intros p Hp'. simpl. destruct (decide (p = t)) as [->|Hne]; [done|]. apply (tree_at_in _ _ _ _ Htree).
      rewrite Eq in Hp'. set_solver.
Qed.
End queue_ops.

(** ** Changes that leave the queues alone *)

Lemma queues_upd_task s qs f t tk :
  queues s qs -> tasks s !! t = Some tk -> on_rq (f tk) = on_rq tk ->
  is_Some (percpu_data s !!z cpu (f tk)) -> allows (f tk) (cpu (f tk)) = true ->
  (on_rq tk = true ->
    cpu (f tk) = cpu tk /\ state (f tk) = TASK_RUNNING /\ deadline (f tk) = deadline tk /\ pid (f tk) = pid tk) ->
  (forall rq, percpu_data s !!z cpu tk = Some rq -> t = idle rq -> cpu (f tk) = cpu tk) ->
  queues (upd_task f t s) qs.
Proof.
  intros Hq Ht Eon Hpc Hal Hsame Hid.
  assert (tasks (upd_task f t s) = <[t := f tk]> (tasks s)) as Ets by by apply alter_some.
  split; rewrite ?Ets; try apply Hq.
  - intros c rq Hc. apply (ordered_ext (cmp_deadline (tasks s))); [|by eapply (q_ord _ _ Hq)].
    assert (forall x, x ∈ qs c -> (fun t => (deadline t, pid t)) <$> <[t := f tk]> (tasks s) !! x =
      (fun t => (deadline t, pid t)) <$> tasks s !! x) as Hx.
    { intros x (xk & Ex & Ho & _)%(q_in _ _ Hq). destruct (decide (x = t)) as [->|]; [|by rewrite lookup_insert_ne].
      rewrite lookup_insert_eq, Ht. simpl. rewrite Ht in Ex. injection Ex as <-.
      destruct (Hsame Ho) as (_ & _ & -> & ->). done. }
    intros a b Ha Hb. apply cmp_deadline_same. intros x [->| ->]; auto.
  - intros c x Hx. destruct (q_in _ _ Hq _ _ Hx) as (xk & Ex & Ho & Hc & Hs).
    destruct (decide (x = t)) as [->|]; [|exists xk; by rewrite lookup_insert_ne].
    rewrite Ht in Ex. injection Ex as <-. exists (f tk). rewrite lookup_insert_eq.
    destruct (Hsame Ho) as (E1 & E2 & _). rewrite Eon, E1, E2. done.
  - intros x xk [[<- <-]|[Hne E]]%lookup_insert_Some Ho; [|by eapply (q_out _ _ Hq)].
    rewrite Eon in Ho. destruct (Hsame Ho) as (-> & _). by eapply (q_out _ _ Hq).
  - intros x xk [[<- <-]|[Hne E]]%lookup_insert_Some; [|by apply (q_task _ _ Hq)].
    destruct (q_task _ _ Hq _ _ Ht) as (? & ? & _). done.
  - intros c rq Hc. destruct (q_idle _ _ Hq _ _ Hc) as (ik & Ei & Ec & Eo).
    destruct (decide (idle rq = t)) as [Heq|]; [|exists ik; by rewrite lookup_insert_ne].
    exists (f tk). rewrite Heq in *. rewrite lookup_insert_eq. rewrite Ht in Ei. injection Ei as <-.
    split_and!; [done| |congruence]. rewrite (Hid rq); [done|by rewrite Ec|by rewrite Heq].
  - rewrite map_size_insert_Some by by eexists. apply (q_size _ _ Hq).
Qed.

(** The usual case: neither the CPU nor the mask changes. *)
Lemma queues_set s qs f t tk :
  queues s qs -> tasks s !! t = Some tk -> on_rq (f tk) = on_rq tk -> cpu (f tk) = cpu tk ->
  allowed_cpus (f tk) = allowed_cpus tk ->
  (on_rq tk = true -> state (f tk) = TASK_RUNNING /\ deadline (f tk) = deadline tk /\ pid (f tk) = pid tk) ->
  queues (upd_task f t s) qs.
Proof.
  intros Hq Ht Eo Ec Ea Hs. destruct (q_task _ _ Hq _ _ Ht) as (_ & _ & Hp & Hal).
  apply (queues_upd_task s qs f t tk); try done; [by rewrite Ec|unfold allows in *; by rewrite Ec, Ea|naive_solver].
Qed.

Lemma queues_upd_cpu s qs f c :
  queues s qs -> (forall rq, cpu_id (f rq) = cpu_id rq /\ run_queue (f rq) = run_queue rq /\ idle (f rq) = idle rq /\
    nr_running (f rq) = nr_running rq) -> queues (upd_cpu f c s) qs.
Proof.
  intros Hq Hf.
  assert (forall c' rq', percpu_data (upd_cpu f c s) !!z c' = Some rq' ->
    exists rq, percpu_data s !!z c' = Some rq /\ cpu_id rq' = cpu_id rq /\ run_queue rq' = run_queue rq /\
      idle rq' = idle rq /\ nr_running rq' = nr_running rq) as Hinv.
  { intros c' rq' [(-> & x & Ex & ->)|[_ Ex]]%zalter_some_inv; [exists x|exists rq']; naive_solver. }
  split; try apply Hq.
  - intros c' rq' (rq & E & -> & _)%Hinv. by apply (q_cpu _ _ Hq).
  - intros c' rq' (rq & E & _ & -> & _)%Hinv. by apply (q_tree _ _ Hq).
  - intros c' rq' (rq & E & _)%Hinv. by eapply (q_ord _ _ Hq).
  - intros c' rq' (rq & E & _ & _ & _ & ->)%Hinv. by apply (q_nr _ _ Hq).
  - intros t tk Ht. destruct (q_task _ _ Hq _ _ Ht) as (? & ? & Hp & ?). split_and!; try done. simpl.
    destruct (decide (cpu tk = c)) as [<-|]; [rewrite zlookup_zalter; destruct Hp as [x Hx]; rewrite Hx; by eexists|by rewrite zlookup_zalter_ne].
  - intros c' rq' (rq & E & _ & _ & -> & _)%Hinv. by apply (q_idle _ _ Hq).
  - simpl. rewrite zlen_zalter. apply (q_num _ _ Hq).
Qed.

Lemma queues_notify s qs c : queues s qs -> queues (notify c s) qs.
Proof. intros []. by split. Qed.

(** [pick_eevdf] returns the head of the queue, the task with the earliest
    deadline, or the idle task. *)
Lemma pick_eevdf_spec s qs c rq :
  queues s qs -> percpu_data s !!z c = Some rq ->
  (qs c = [] /\ pick_eevdf c s = Some (idle rq, s)) \/
  (exists t q tk, qs c = t :: q /\ tasks s !! t = Some tk /\
    pick_eevdf c s = Some (t, if min_vruntime rq +u EEVDF_LATENCY <? vruntime tk
                              then upd_cpu (set_min_vruntime (vruntime tk)) c s else s)).
Proof.
  intros Hq Hc. unfold pick_eevdf. rewrite Hc. cbn [mbind option_bind].
  pose proof (q_tree _ _ Hq _ _ Hc) as Ht. rewrite (tree_at_root _ _ _ Ht).
  case_bool_decide as He; [by left|right]. destruct (qs c) as [|t q] eqn:Eq; [done|].
  destruct (q_in _ _ Hq c t) as (tk & Htk & _); [rewrite Eq; set_solver|].
  exists t, q, tk. split_and!; try done. destruct Ht as (tr & m & Hrep & Ei & _).
  unfold RbTree.rbtree_first. rewrite (RbTree.end_spec _ RbTree.L _ _ Hrep), Ei. cbn [mbind option_bind].
  simpl RbTree.nearest. rewrite Htk. done.
Qed.

(** ** The critical sections *)

(** What no critical section changes of a CPU. *)
Definition cpu_sig (rq : percpu) : Z * bool * bool * Z := (cpu_id rq, online rq, scheduler_ok rq, idle rq).
Definition same_cpus (s s' : sys) : Prop :=
  same_globals s s' /\ forall c, cpu_sig <$> percpu_data s' !!z c = cpu_sig <$> percpu_data s !!z c.

#[export] Instance same_cpus_refl : Reflexive same_cpus.
Proof. by intros s. Qed.
#[export] Instance same_cpus_trans : Transitive same_cpus.
Proof. intros s1 s2 s3 [(? & ? & ?) E] [(? & ? & ?) F]. split; [split_and!; congruence|]. intros c. by rewrite F. Qed.

Lemma same_cpus_zalter s s' f c :
  percpu_data s' = zalter f c (percpu_data s) -> same_globals s s' ->
  (forall rq, cpu_sig (f rq) = cpu_sig rq) -> same_cpus s s'.
Proof.
  intros E G Hf. split; [done|]. intros c'. rewrite E. destruct (decide (c' = c)) as [->|].
  - rewrite zlookup_zalter. destruct (percpu_data s !!z c); [|done]. simpl. by rewrite Hf.
  - by rewrite zlookup_zalter_ne.
Qed.
Lemma same_cpus_upd s f c : (forall rq, cpu_sig (f rq) = cpu_sig rq) -> same_cpus s (upd_cpu f c s).
Proof. intros Hf. by eapply same_cpus_zalter. Qed.
Lemma same_cpus_get s s' c rq :
  same_cpus s s' -> percpu_data s !!z c = Some rq ->
  exists rq', percpu_data s' !!z c = Some rq' /\ cpu_id rq' = cpu_id rq /\ idle rq' = idle rq /\
    online rq' = online rq /\ scheduler_ok rq' = scheduler_ok rq.
Proof.
  intros [_ E] H. specialize (E c). rewrite H in E. destruct (percpu_data s' !!z c) as [rq'|]; [|done].
  exists rq'. injection E as -> -> -> ->. done.
Qed.
Lemma same_cpus_back s s' c rq' :
  same_cpus s s' -> percpu_data s' !!z c = Some rq' -> exists rq, percpu_data s !!z c = Some rq /\ idle rq' = idle rq.
Proof.
  intros [_ E] H. specialize (E c). rewrite H in E. destruct (percpu_data s !!z c) as [rq|]; [|done].
  exists rq. split; [done|]. unfold cpu_sig in E. simpl in E. congruence.
Qed.

Lemma notify_spec s qs me c :
  queues s qs -> 0 <= c -> exists s', sched_notify_remote_cpu me c s = Some s' /\ queues s' qs /\ same_cpus s s' /\ tasks s' = tasks s.
Proof.
  intros Hq Hc0. unfold sched_notify_remote_cpu. destruct (_ || _) eqn:Eg; [by exists s|].
  apply orb_false_iff in Eg as [_ Hn%Z.leb_gt]. destruct (c =? me); [by exists s|].
  destruct (zlookup_in_range (percpu_data s) c) as [rq Hrq]; [pose proof (q_num _ _ Hq); lia|].
  rewrite Hrq. cbn [mbind option_bind]. destruct (_ || _); [by exists s|]. eexists. split; [done|].
  split_and!; [|by apply same_cpus_upd|done]. apply queues_notify. by apply queues_upd_cpu.
Qed.

(** [t] is the idle task of its CPU. *)
Definition is_idle (s : sys) (t : Z) : Prop :=
  exists tk rq, tasks s !! t = Some tk /\ percpu_data s !!z cpu tk = Some rq /\ t = idle rq.

Lemma idle_unique s qs c rq tk :
  queues s qs -> percpu_data s !!z c = Some rq -> tasks s !! idle rq = Some tk -> cpu tk = c.
Proof. intros Hq Hc Ht. destruct (q_idle _ _ Hq _ _ Hc) as (ik & Ei & Ec & _). congruence. Qed.

(** The effect of a critical section on a single task. *)
Record touches (s s' : sys) (qs' : Z -> list Z) (t : Z) (tk tk' : task) : Prop := {
  tc_queues : queues s' qs';
  tc_cpus : same_cpus s s';
  tc_tasks : tasks s' = <[t := tk']> (tasks s);
  tc_cpu : cpu tk' = cpu tk;
}.

Lemma upd_task_insert s f t tk : tasks s !! t = Some tk -> tasks (upd_task f t s) = <[t := f tk]> (tasks s).
Proof. apply alter_some. Qed.

Lemma enqueue_touch s qs t tk rq :
  queues s qs -> tasks s !! t = Some tk -> percpu_data s !!z cpu tk = Some rq ->
  on_rq tk = false -> state tk = TASK_RUNNING -> t <> idle rq ->
  exists s' qs', enqueue_task t (cpu tk) s = Some s' /\ touches s s' qs' t tk (queued tk).
Proof.
  intros Hq Ht Hc Ho Hs Hi.
  destruct (enqueue_spec s qs Hq t (cpu tk) tk rq Hc Ht Ho eq_refl Hs Hi) as (s' & q & r & E & Hq' & _ & Ets & Epc & G & _).
  exists s', (qset (cpu tk) q qs). split; [done|]. split; try done. by eapply same_cpus_zalter.
Qed.

(** The task in the state [task_wake] enqueues it in. *)
Lemma wake_prepare s qs t tk wake :
  queues s qs -> tasks s !! t = Some tk -> on_rq tk = false ->
  let s1 := upd_task (set_state TASK_RUNNING) t s in
  let s2 := if vruntime tk <? wake then upd_task (set_vruntime wake) t s1 else s1 in
  exists tk2, queues s2 qs /\ tasks s2 = <[t := tk2]> (tasks s) /\ percpu_data s2 = percpu_data s /\ same_cpus s s2 /\
    on_rq tk2 = false /\ on_cpu tk2 = on_cpu tk /\ cpu tk2 = cpu tk /\ state tk2 = TASK_RUNNING.
Proof.
  intros Hq Ht Ho s1 s2. set (tk1 := set_state TASK_RUNNING tk).
  assert (tasks s1 = <[t := tk1]> (tasks s)) as E1 by by apply upd_task_insert.
  assert (queues s1 qs) as Hq1 by (apply (queues_set s qs _ t tk); by rewrite ?Ho).
  unfold s2. destruct (vruntime tk <? wake); [|by exists tk1].
  assert (tasks s1 !! t = Some tk1) as Ht1 by by rewrite E1, lookup_insert_eq.
  exists (set_vruntime wake tk1). split_and!; try done.
  - by apply (queues_set s1 qs _ t tk1).
  - by rewrite (upd_task_insert _ _ _ _ Ht1), E1, insert_insert_eq.
Qed.

(** [t->cpu = rq->cpu_id] and the notification change no task. *)
Lemma wake_publish me s qs t tk rq :
  queues s qs -> tasks s !! t = Some tk -> percpu_data s !!z cpu tk = Some rq ->
  let s1 := upd_task (set_cpu (cpu tk)) t s in
  exists s', (if negb (cpu tk =? me) then sched_notify_remote_cpu me (cpu tk) s1 else Some s1) = Some s' /\
    queues s' qs /\ same_cpus s s' /\ tasks s' = tasks s.
Proof.
  intros Hq Ht Hc s1. assert (s1 = s) as ->.
  { unfold s1, upd_task. rewrite (alter_some _ _ _ _ Ht). replace (set_cpu (cpu tk) tk) with tk by by destruct tk.
    rewrite insert_id by done. by destruct s. }
  destruct (negb _); [|by exists s]. apply notify_spec; [done|]. apply zlookup_some_range in Hc. lia.
Qed.

(** [task_wake] makes a task runnable and queues it unless it is queued or on
    a CPU already. *)
Lemma task_wake_spec me s qs t tk :
  queues s qs -> tasks s !! t = Some tk ->
  exists s' qs' tk', task_wake me t s = Some s' /\ touches s s' qs' t tk tk' /\ on_cpu tk' = on_cpu tk /\
    (is_idle s t -> tk' = tk) /\
    (~ is_idle s t -> state tk' = TASK_RUNNING /\ on_rq tk' = on_rq tk || negb (on_cpu tk)).
Proof.
  intros Hq Ht. destruct (q_task _ _ Hq _ _ Ht) as (_ & _ & [rq Hc] & _). unfold task_wake.
  rewrite Ht. cbn [mbind option_bind]. rewrite Hc. cbn [mbind option_bind].
  destruct (Z.eqb_spec t (idle rq)) as [Hi|Hi].
  { exists s, qs, tk. split_and!; try done; [|intros Hni; destruct Hni; by exists tk, rq].
    split; try done. by rewrite insert_id. }
  assert (~ is_idle s t) as Hni by (intros (? & ? & ? & ? & ?); congruence).
  assert (touches s (upd_task (set_state TASK_RUNNING) t s) qs t tk (set_state TASK_RUNNING tk)) as Hstop.
  { split; [by apply (queues_set s qs _ t tk)|done|by apply upd_task_insert|done]. }
  destruct (on_rq tk) eqn:Ho; [eexists _, qs, _; split; [done|]; split_and!; try done; intros _; by split|].
  destruct (on_cpu tk) eqn:Hcpu; [eexists _, qs, _; split; [done|]; split_and!; try done; intros _; by split|].
  set (wake := if EEVDF_LATENCY <? _ then _ else _).
  destruct (wake_prepare s qs t tk wake Hq Ht Ho) as (tk2 & Hq2 & E2 & Ep2 & Hs2 & Ho2 & Hc2 & Ec2 & Es2).
  set (s2 := if vruntime tk <? wake then _ else _) in *.
  destruct (enqueue_touch s2 qs t tk2 rq) as (s3 & qs3 & E3 & [Hq3 Hs3 Et3 _]); try done;
    [by rewrite E2, lookup_insert_eq|by rewrite Ep2, Ec2|]. rewrite Ec2 in E3. rewrite E3. cbn [mbind option_bind].
  destruct (q_cpu _ _ Hq _ _ Hc) as [Eid _]. rewrite Eid.
  destruct (same_cpus_get _ _ _ _ (transitivity Hs2 Hs3) Hc) as (rq3 & Hc3 & _).
  assert (tasks s3 !! t = Some (queued tk2)) as Et3' by by rewrite Et3, lookup_insert_eq.
  rewrite <- Ec2 in Hc3 |- *. change (cpu tk2) with (cpu (queued tk2)) in Hc3 |- *.
  destruct (wake_publish me s3 qs3 t (queued tk2) rq3 Hq3 Et3' Hc3) as (s' & E' & Hq' & Hs' & Et').
  exists s', qs3, (queued tk2). rewrite E'. split_and!; try done; [|simpl; congruence].
  split; [done|by etrans; [etrans; [exact Hs2|exact Hs3]|]|by rewrite Et', Et3, E2, insert_insert_eq|done].
Qed.

Lemma touches_upd s qs t tk f :
  queues s qs -> tasks s !! t = Some tk -> cpu (f tk) = cpu tk -> queues (upd_task f t s) qs ->
  touches s (upd_task f t s) qs t tk (f tk).
Proof. intros Hq Ht Hc Hq'. split; try done. by apply upd_task_insert. Qed.

Lemma touches_trans s1 s2 s3 qs2 qs3 t tk1 tk2 tk3 :
  touches s1 s2 qs2 t tk1 tk2 -> touches s2 s3 qs3 t tk2 tk3 -> touches s1 s3 qs3 t tk1 tk3.
Proof.
  intros [_ Hs1 Ht1 Hc1] [Hq2 Hs2 Ht2 Hc2]. split; [done|by etrans| |congruence].
  by rewrite Ht2, Ht1, insert_insert_eq.
Qed.

Lemma touches_id s qs t tk : queues s qs -> tasks s !! t = Some tk -> touches s s qs t tk tk.
Proof. intros Hq Ht. split; try done. by rewrite insert_id. Qed.

Lemma touches_get s s' qs' t tk tk' : touches s s' qs' t tk tk' -> tasks s' !! t = Some tk'.
Proof. intros [_ _ -> _]. by rewrite lookup_insert_eq. Qed.

Lemma touches_cpus s s' s'' qs' t tk tk' :
  touches s s' qs' t tk tk' -> queues s'' qs' -> same_cpus s' s'' -> tasks s'' = tasks s' -> touches s s'' qs' t tk tk'.
Proof. intros [_ Hs Ht Hc] Hq Hs' Ht'. split; try done; [by etrans|by rewrite Ht']. Qed.

Lemma running_queued s qs t tk : queues s qs -> tasks s !! t = Some tk -> on_rq tk = true -> state tk = TASK_RUNNING.
Proof. intros Hq Ht Ho. destruct (q_in _ _ Hq _ _ (q_out _ _ Hq _ _ Ht Ho)) as (tk' & E & _ & _ & Hs). congruence. Qed.

(** [task_finish_switch] queues the outgoing task if it was woken meanwhile
    and then gives up its stack. *)
Lemma finish_switch_spec me s qs prev tk rq :
  queues s qs -> tasks s !! prev = Some tk -> percpu_data s !!z cpu tk = Some rq ->
  exists s' qs' tk', task_finish_switch me prev s = Some s' /\ touches s s' qs' prev tk tk' /\
    on_cpu tk' = false /\ state tk' = state tk /\
    on_rq tk' = on_rq tk || ((state tk =? TASK_RUNNING) && negb (prev =? idle rq)).
Proof.
  intros Hq Ht Hc. unfold task_finish_switch. rewrite Ht. cbn [mbind option_bind]. rewrite Hc. cbn [mbind option_bind].
  destruct (q_cpu _ _ Hq _ _ Hc) as [Eid _]. rewrite Eid. destruct ((state tk =? _) && _ && _) eqn:Eg.
  - apply andb_true_iff in Eg as [[Es%Z.eqb_eq Eo%negb_true_iff]%andb_true_iff Ei%negb_true_iff%Z.eqb_neq].
    destruct (enqueue_touch s qs prev tk rq Hq Ht Hc Eo Es Ei) as (s1 & qs1 & E1 & T1). rewrite E1. cbn [mbind option_bind].
    set (s2 := upd_cpu _ _ s1).
    assert (touches s s2 qs1 prev tk (queued tk)) as T2.
    { eapply touches_cpus; [exact T1|apply queues_upd_cpu; [apply T1|done]|by apply same_cpus_upd|done]. }
    pose proof (touches_upd s2 qs1 prev (queued tk) (set_on_cpu false) (tc_queues _ _ _ _ _ _ T2)
      (touches_get _ _ _ _ _ _ T2) eq_refl) as T3.
    destruct (notify_spec (upd_task (set_on_cpu false) prev s2) qs1 me (cpu tk)) as (s4 & E4 & Hq4 & Hs4 & Et4).
    { apply (queues_set s2 qs1 _ prev (queued tk)); try done; [apply T2|by eapply touches_get]. }
    { apply zlookup_some_range in Hc. lia. }
    assert (touches s (upd_task (set_on_cpu false) prev s2) qs1 prev tk (set_on_cpu false (queued tk))) as T4.
    { eapply touches_trans; [exact T2|]. apply T3. apply (queues_set s2 qs1 _ prev (queued tk)); try done;
        [apply T2|by eapply touches_get]. }
    simpl andb. destruct (negb (cpu tk =? me)).
    + exists s4, qs1, (set_on_cpu false (queued tk)). split_and!; try done; [by eapply touches_cpus|].
      simpl. by rewrite Eo, Es, (proj2 (Z.eqb_neq _ _) Ei).
    + eexists _, qs1, (set_on_cpu false (queued tk)). split; [done|]. split_and!; try done.
      simpl. by rewrite Eo, Es, (proj2 (Z.eqb_neq _ _) Ei).
  - cbn [mbind option_bind]. eexists _, qs, (set_on_cpu false tk). split; [done|]. split_and!; try done.
    + apply touches_upd; try done. apply (queues_set s qs _ prev tk); try done. intros Ho.
      split_and!; try done. exact (running_queued _ _ _ _ Hq Ht Ho).
    + simpl. destruct (on_rq tk); [done|]. rewrite andb_true_r in Eg. by rewrite Eg.
Qed.

(** The requeueing section of [schedule]. *)
Lemma requeue_spec s qs cur c tk rq :
  queues s qs -> tasks s !! cur = Some tk -> cpu tk = c -> percpu_data s !!z c = Some rq ->
  exists s' qs' tk', sched_requeue cur c s = Some s' /\ touches s s' qs' cur tk tk' /\
    on_cpu tk' = on_cpu tk /\ state tk' = state tk /\
    on_rq tk' = (state tk =? TASK_RUNNING) && negb (cur =? idle rq).
Proof.
  intros Hq Ht Ecpu Hc. unfold sched_requeue. rewrite Hc. cbn [mbind option_bind]. rewrite Ht. cbn [mbind option_bind].
  assert (exists s1 qs1 tk1, (if on_rq tk then dequeue_task cur c s else Some s) = Some s1 /\ touches s s1 qs1 cur tk tk1 /\
    on_rq tk1 = false /\ on_cpu tk1 = on_cpu tk /\ state tk1 = state tk) as (s1 & qs1 & tk1 & E1 & T1 & Ho1 & Hc1 & Hs1).
  { destruct (on_rq tk) eqn:Ho; [|exists s, qs, tk; split_and!; try done; by apply touches_id].
    destruct (dequeue_spec s qs Hq cur c rq Hc) as (s1 & pre & post & r & tk1 & E1 & _ & Hq1 & Et & Ets & Epc & G & _).
    { rewrite <- Ecpu. by eapply (q_out _ _ Hq). }
    rewrite Ht in Et. injection Et as <-. exists s1, (qset c (pre ++ post) qs), (set_on_rq false tk).
    split_and!; try done. split; try done. by eapply same_cpus_zalter. }
  rewrite E1. cbn [mbind option_bind]. destruct ((state tk =? _) && _) eqn:Eg.
  - apply andb_true_iff in Eg as [Es%Z.eqb_eq Ei%negb_true_iff%Z.eqb_neq].
    destruct (same_cpus_get _ _ _ _ (tc_cpus _ _ _ _ _ _ T1) Hc) as (rq1 & Hc1' & _ & Eid & _).
    pose proof (tc_cpu _ _ _ _ _ _ T1) as Ec1. rewrite Ecpu in Ec1.
    destruct (enqueue_touch s1 qs1 cur tk1 rq1) as (s2 & qs2 & E2 & T2); try congruence;
      [apply T1|by eapply touches_get|]. rewrite Ec1 in E2.
    exists s2, qs2, (queued tk1). split_and!; try done. by eapply touches_trans.
  - by exists s1, qs1, tk1.
Qed.

(** The choosing section of [schedule]. *)
Lemma sched_pick_spec s qs c rq :
  queues s qs -> percpu_data s !!z c = Some rq ->
  exists next s', sched_pick c s = Some (next, s') /\ same_cpus s s' /\
    ((qs c = [] /\ next = idle rq /\ queues s' qs /\ tasks s' = tasks s) \/
     (exists q tk tk', qs c = next :: q /\ tasks s !! next = Some tk /\ touches s s' (qset c q qs) next tk tk' /\
        on_rq tk' = false /\ on_cpu tk' = true /\ state tk' = state tk /\ next <> idle rq)).
Proof.
  intros Hq Hc. unfold sched_pick. rewrite Hc. cbn [mbind option_bind].
  destruct (pick_eevdf_spec s qs c rq Hq Hc) as [[Eq ->]|(t & q & tk & Eq & Ht & ->)]; cbn [mbind option_bind].
  - rewrite Z.eqb_refl, andb_false_r. cbn [mbind option_bind]. eexists _, _. split; [done|].
    split; [by apply same_cpus_upd|]. left. split_and!; try done. by apply queues_upd_cpu.
  - set (s1 := if _ <? vruntime tk then _ else _).
    assert (queues s1 qs /\ same_cpus s s1 /\ tasks s1 = tasks s) as (Hq1 & Hs1 & E1).
    { unfold s1. destruct (_ <? _); [|done]. split_and!; [by apply queues_upd_cpu|by apply same_cpus_upd|done]. }
    assert (t ∈ qs c) as Hin by (rewrite Eq; set_solver).
    destruct (q_in _ _ Hq _ _ Hin) as (tk0 & Et0 & Eo & Ecpu & _). rewrite Ht in Et0. injection Et0 as <-.
    destruct (same_cpus_get _ _ _ _ Hs1 Hc) as (rq1 & Hc1 & _).
    destruct (dequeue_spec s1 qs Hq1 t c rq1 Hc1 Hin) as (s2 & pre & post & r & tk1 & E2 & Eq2 & Hq2 & Et & Ets & Epc & G & _).
    rewrite E1, Ht in Et. injection Et as <-.
    assert (pre = [] /\ post = q) as [-> ->].
    { apply (RbTree.nodup_pivot t pre post [] q); [rewrite <- Eq2; eapply tree_at_nodup, (q_tree _ _ Hq _ _ Hc)|].
      simpl. congruence. }
    assert (t <> 0 /\ t <> idle rq) as [Ht0%Z.eqb_neq Hti].
    { split; [by apply (q_task _ _ Hq _ _ Ht)|]. intros ->. destruct (q_idle _ _ Hq _ _ Hc) as (? & ? & ? & ?). congruence. }
    rewrite Ht0, (proj2 (Z.eqb_neq _ _) Hti), E2. cbn [mbind option_bind negb andb].
    destruct (q_cpu _ _ Hq _ _ Hc) as [-> _].
    assert (touches s s2 (qset c q qs) t tk (set_on_rq false tk)) as T2.
    { split; [done|etrans; [exact Hs1|by eapply same_cpus_zalter]|by rewrite Ets, E1|done]. }
    set (s3 := upd_task (set_on_cpu true) t s2).
    assert (touches s s3 (qset c q qs) t tk (set_on_cpu true (set_on_rq false tk))) as T3.
    { eapply touches_trans; [exact T2|]. apply touches_upd; try done; [by eapply touches_get|].
      apply (queues_set s2 _ _ t (set_on_rq false tk)); try done. by eapply touches_get. }
    set (tk' := set_on_cpu true (set_on_rq false tk)) in *.
    assert (touches s (upd_task (set_cpu c) t s3) (qset c q qs) t tk tk') as T4.
    { eapply touches_trans; [exact T3|]. replace tk' with (set_cpu c tk') at 2 by (rewrite <- Ecpu; by destruct tk).
      apply touches_upd; [apply T3|by eapply touches_get|done|].
      apply (queues_set s3 _ _ t tk'); try done; [apply T3|by eapply touches_get]. }
    eexists _, _. split; [done|]. split.
    { etrans; [exact (tc_cpus _ _ _ _ _ _ T4)|by apply same_cpus_upd]. }
    right. exists q, tk, tk'. split_and!; try done.
    eapply touches_cpus; [exact T4|apply queues_upd_cpu; [apply T4|done]|by apply same_cpus_upd|done].
Qed.

(** ** Load balancing *)

(** The balancer may move [t] to CPU [c]. *)
Definition movable (s : sys) (c t : Z) : bool :=
  match tasks s !! t with
  | Some tk => negb (pid tk =? user_init_pid s) && negb (on_cpu tk) && allows tk c
  | None => false
  end.

(** The tasks [mv] went from the queue of [src] to the queue of [c]. *)
Record pulled (s s' : sys) (qs qs' : Z -> list Z) (src c : Z) (mv : list Z) : Prop := {
  pl_queues : queues s' qs';
  pl_cpus : same_cpus s s';
  pl_src : qs src ≡ₚ mv ++ qs' src;
  pl_dst : qs' c ≡ₚ mv ++ qs c;
  pl_other : forall c', c' <> src -> c' <> c -> qs' c' = qs c';
  pl_rest : forall t, t ∉ mv -> tasks s' !! t = tasks s !! t;
  pl_moved : forall t, t ∈ mv -> exists tk tk', tasks s !! t = Some tk /\ tasks s' !! t = Some tk' /\
    on_cpu tk = false /\ on_rq tk = true /\ on_cpu tk' = false /\ on_rq tk' = true /\ cpu tk' = c /\
    state tk' = TASK_RUNNING /\ Some (vruntime tk') = Z.max (vruntime tk) <$> (min_vruntime <$> percpu_data s !!z c);
  pl_min : forall c', min_vruntime <$> percpu_data s' !!z c' = min_vruntime <$> percpu_data s !!z c';
}.

Lemma min_zalter_queue l r n c c' :
  min_vruntime <$> zalter (set_queue r n) c l !!z c' = min_vruntime <$> l !!z c'.
Proof.
  destruct (decide (c' = c)) as [->|]; [rewrite zlookup_zalter|by rewrite zlookup_zalter_ne].
  by destruct (l !!z c).
Qed.

(** The migrating task between the two queues, in the state it is enqueued
    in. *)
Lemma migrate_move s qs t tk c rq :
  queues s qs -> tasks s !! t = Some tk -> on_rq tk = false -> state tk = TASK_RUNNING -> allows tk c = true ->
  (forall c' rq', percpu_data s !!z c' = Some rq' -> t <> idle rq') -> percpu_data s !!z c = Some rq ->
  let s1 := upd_task (set_cpu (cpu_id rq)) t s in
  exists tk2, let s2 := (if vruntime tk <? min_vruntime rq then upd_task (set_vruntime (min_vruntime rq)) t s1 else s1) in
    queues s2 qs /\ tasks s2 = <[t := tk2]> (tasks s) /\ percpu_data s2 = percpu_data s /\
    same_globals s s2 /\ on_rq tk2 = false /\ on_cpu tk2 = on_cpu tk /\ cpu tk2 = c /\ state tk2 = TASK_RUNNING /\
    vruntime tk2 = Z.max (vruntime tk) (min_vruntime rq).
Proof.
  intros Hq Ht Ho Hs Ha Hi Hc s1. destruct (q_cpu _ _ Hq _ _ Hc) as [Eid _]. set (tk1 := set_cpu c tk).
  assert (tasks s1 = <[t := tk1]> (tasks s)) as E1 by (unfold s1; rewrite Eid; by apply upd_task_insert).
  assert (queues s1 qs) as Hq1.
  { unfold s1. rewrite Eid. apply (queues_upd_task s qs _ t tk); try done; [by rewrite Ho|].
    intros rq' Hc' ->. by destruct (Hi _ _ Hc'). }
  assert (tasks s1 !! t = Some tk1) as Ht1 by by rewrite E1, lookup_insert_eq.
  destruct (Z.ltb_spec (vruntime tk) (min_vruntime rq)); [|exists tk1; split_and!; try done; simpl; lia].
  exists (set_vruntime (min_vruntime rq) tk1). split_and!; try done; [..|simpl; lia].
  - apply (queues_set s1 qs _ t tk1); try done.
  - by rewrite (upd_task_insert _ _ _ _ Ht1), E1, insert_insert_eq.
Qed.

Lemma migrate_spec s qs t src c rq srq :
  queues s qs -> percpu_data s !!z src = Some srq -> percpu_data s !!z c = Some rq -> src <> c ->
  t ∈ qs src -> movable s c t = true ->
  exists s' qs' pre post, migrate t src c s = Some s' /\ qs src = pre ++ t :: post /\ qs' src = pre ++ post /\
    pulled s s' qs qs' src c [t].
Proof.
  intros Hq Hsrc Hc Hne Hin Hmv. unfold migrate. rewrite Hc. cbn [mbind option_bind].
  destruct (dequeue_spec s qs Hq t src srq Hsrc Hin) as (s1 & pre & post & r & tk & E1 & Eq & Hq1 & Ht & Ets & Epc & G & _).
  destruct (q_in _ _ Hq _ _ Hin) as (tk0 & Et0 & Eo & Ecpu & Est). rewrite Ht in Et0. injection Et0 as <-.
  unfold movable in Hmv. rewrite Ht in Hmv. apply andb_true_iff in Hmv as [[_ Hcpu%negb_true_iff]%andb_true_iff Hal].
  rewrite E1. cbn [mbind option_bind].
  assert (tasks s1 !! t = Some (set_on_rq false tk)) as Ht1 by by rewrite Ets, lookup_insert_eq.
  assert (percpu_data s1 !!z c = Some rq) as Hc1 by by rewrite Epc, zlookup_zalter_ne.
  assert (forall c' rq', percpu_data s1 !!z c' = Some rq' -> t <> idle rq') as Hi.
  { intros c' rq'. rewrite Epc. intros [(-> & x & Ex & ->)|[_ Ex]]%zalter_some_inv ->;
      destruct (q_idle _ _ Hq _ _ Ex) as (ik & Ei & _ & Ef); simpl in *; congruence. }
  destruct (migrate_move s1 _ t _ c rq Hq1 Ht1 eq_refl Est Hal Hi Hc1)
    as (tk2 & Hq2 & Et2 & Ep2 & G2 & Ho2 & Hcpu2 & Ec2 & Es2 & Ev2).
  assert (tasks (upd_task (set_cpu (cpu_id rq)) t s1) !! t = Some (set_cpu (cpu_id rq) (set_on_rq false tk))) as ->
    by by rewrite (upd_task_insert _ _ _ _ Ht1), lookup_insert_eq. cbn [mbind option_bind].
  change (vruntime (set_cpu (cpu_id rq) (set_on_rq false tk))) with (vruntime (set_on_rq false tk)).
  set (s2 := if _ <? _ then _ else _) in *.
  destruct (enqueue_spec s2 _ Hq2 t c tk2 rq) as (s3 & q & r3 & E3 & Hq3 & Hp3 & Et3 & Ep3 & G3 & _); try done;
    [by rewrite Ep2|by rewrite Et2, lookup_insert_eq|by eapply Hi|].
  exists s3, (qset c q (qset src (pre ++ post) qs)), pre, post. rewrite qset_ne in * by done. rewrite qset_eq in *.
  split_and!; try done. split; try done.
  - etrans; [by eapply (same_cpus_zalter s s1)|]. eapply (same_cpus_zalter s1 s3); [by rewrite Ep3, Ep2|by etrans|done].
  - rewrite qset_ne, qset_eq, Eq by done. solve_Permutation.
  - by rewrite qset_eq.
  - intros c' H1 H2. by rewrite !qset_ne.
  - intros x Hx. rewrite Et3, Et2, Ets. rewrite !lookup_insert_ne by set_solver. done.
  - intros x ->%list_elem_of_singleton. exists tk, (queued tk2). rewrite Et3, lookup_insert_eq. split_and!; try done.
    + simpl. by rewrite Hcpu2.
    + rewrite Hc. simpl. by rewrite Ev2.
  - intros c'. by rewrite Ep3, min_zalter_queue, Ep2, Epc, min_zalter_queue.
Qed.

Lemma pulled_refl s qs src c : queues s qs -> pulled s s qs qs src c [].
Proof. intros Hq. split; try done. intros t. set_solver. Qed.

Lemma pulled_trans s1 s2 s3 qs1 qs2 qs3 src c m1 m2 :
  src <> c -> pulled s1 s2 qs1 qs2 src c m1 -> pulled s2 s3 qs2 qs3 src c m2 ->
  pulled s1 s3 qs1 qs3 src c (m1 ++ m2).
Proof.
  intros Hne P1 P2.
  assert (forall t, t ∈ m1 -> t ∉ m2) as Hd.
  { intros t H1 H2. apply Hne. apply (q_unique s2 qs2 (pl_queues _ _ _ _ _ _ _ P1) t).
    - rewrite (pl_src _ _ _ _ _ _ _ P2). set_solver.
    - rewrite (pl_dst _ _ _ _ _ _ _ P1). set_solver. }
  split.
  - apply P2.
  - etrans; [apply (pl_cpus _ _ _ _ _ _ _ P1)|apply (pl_cpus _ _ _ _ _ _ _ P2)].
  - rewrite (pl_src _ _ _ _ _ _ _ P1), (pl_src _ _ _ _ _ _ _ P2). by rewrite app_assoc.
  - rewrite (pl_dst _ _ _ _ _ _ _ P2), (pl_dst _ _ _ _ _ _ _ P1). solve_Permutation.
  - intros c' H1 H2. by rewrite (pl_other _ _ _ _ _ _ _ P2), (pl_other _ _ _ _ _ _ _ P1).
  - intros t [H1 H2]%not_elem_of_app. by rewrite (pl_rest _ _ _ _ _ _ _ P2), (pl_rest _ _ _ _ _ _ _ P1).
  - intros t [H1|H2]%elem_of_app.
    + rewrite (pl_rest _ _ _ _ _ _ _ P2) by auto. by apply (pl_moved _ _ _ _ _ _ _ P1).
    + rewrite <- (pl_rest _ _ _ _ _ _ _ P1); [rewrite <- (pl_min _ _ _ _ _ _ _ P1); by apply (pl_moved _ _ _ _ _ _ _ P2)|]. intros H1. by eapply Hd.
  - intros c'. by rewrite (pl_min _ _ _ _ _ _ _ P2), (pl_min _ _ _ _ _ _ _ P1).
Qed.

Lemma prev_spec s qs src srq pre x post :
  queues s qs -> percpu_data s !!z src = Some srq -> qs src = pre ++ x :: post ->
  exists m, RbTree.rbtree_prev x (RbTree.mk_mem (run_queue srq) (rb_nodes s)) = Some (default 0 (last pre), m).
Proof.
  intros Hq Hc Eq. destruct (q_tree _ _ Hq _ _ Hc) as (t & m & H & Ei & _). rewrite Eq in Ei.
  destruct (RbTree.next_spec _ _ _ _ _ _ H Ei) as [_ ->]. by eexists.
Qed.

Lemma steal_spec src c count : src <> c -> forall pre fuel s qs kept taken rq srq,
  queues s qs -> percpu_data s !!z src = Some srq -> percpu_data s !!z c = Some rq -> qs src = pre ++ kept ->
  (length pre < fuel)%nat ->
  exists s' qs', steal fuel (default 0 (last pre)) src c count taken s = Some s' /\
    pulled s s' qs qs' src c (take (Z.to_nat (count - taken)) (List.filter (movable s c) (rev pre))).
Proof.
  intros Hne. induction pre as [|x pre IH] using rev_ind; intros [|fuel] s qs kept taken rq srq Hq Hsrc Hc Eq Hf; try lia.
  { exists s, qs. simpl. rewrite take_nil. split; [done|by apply pulled_refl]. }
  rewrite length_app in Hf. simpl in Hf. rewrite <- app_assoc in Eq. simpl in Eq.
  rewrite last_snoc, rev_unit. simpl default. simpl steal.
  assert (x ∈ qs src) as Hin by (rewrite Eq; set_solver). destruct (q_in _ _ Hq _ _ Hin) as (tk & Ht & Ho & Hcpu & Hst).
  destruct (q_task _ _ Hq _ _ Ht) as (Hx0 & _). rewrite (proj2 (Z.eqb_neq _ _) Hx0). simpl negb. simpl andb.
  destruct (Z.ltb_spec taken count) as [Hlt|Hge].
  2: { exists s, qs. replace (Z.to_nat (count - taken)) with 0%nat by lia. split; [done|by apply pulled_refl]. }
  rewrite Ht. cbn [mbind option_bind]. rewrite Hsrc. cbn [mbind option_bind]. rewrite Hc. cbn [mbind option_bind].
  destruct (prev_spec _ _ _ _ _ _ _ Hq Hsrc Eq) as [m ->]. cbn [mbind option_bind].
  assert (x <> idle srq) as Hi.
  { intros ->. destruct (q_idle _ _ Hq _ _ Hsrc) as (? & ? & _ & ?). congruence. }
  rewrite (proj2 (Z.eqb_neq _ _) Hi). destruct (q_cpu _ _ Hq _ _ Hc) as [-> _].
  assert (movable s c x = negb (pid tk =? user_init_pid s) && negb (on_cpu tk) && allows tk c) as Em
    by (unfold movable; by rewrite Ht).
  rewrite <- Em. simpl negb. simpl andb. simpl List.filter. destruct (movable s c x) eqn:Emv.
  2: { eapply (IH fuel s qs (x :: kept)); try done. lia. }
  destruct (migrate_spec s qs x src c rq srq) as (s1 & qs1 & pre' & post' & E1 & Eq1 & Eq1' & P1); try done.
  rewrite E1. cbn [mbind option_bind].
  assert (pre' = pre /\ post' = kept) as [-> ->].
  { apply (RbTree.nodup_pivot x); [|congruence]. rewrite <- Eq1. eapply tree_at_nodup, (q_tree _ _ Hq _ _ Hsrc). }
  destruct (same_cpus_get _ _ _ _ (pl_cpus _ _ _ _ _ _ _ P1) Hsrc) as (srq1 & Hsrc1 & _).
  destruct (same_cpus_get _ _ _ _ (pl_cpus _ _ _ _ _ _ _ P1) Hc) as (rq1 & Hc1 & _).
  destruct (IH fuel s1 qs1 kept (taken + 1) rq1 srq1) as (s2 & qs2 & E2 & P2); try done; [apply P1|lia|].
  exists s2, qs2. rewrite E2. split; [done|].
  replace (Z.to_nat (count - taken)) with (S (Z.to_nat (count - (taken + 1)))) by lia. simpl.
  apply (pulled_trans s s1 s2 qs qs1 qs2 src c [x]); [done..|].
  rewrite (List.filter_ext_in _ (movable s1 c)); [done|]. intros y Hy%list_elem_of_In.
  unfold movable. rewrite (pl_rest _ _ _ _ _ _ _ P1).
  - by destruct (pl_cpus _ _ _ _ _ _ _ P1) as [(_ & -> & _) _].
  - rewrite list_elem_of_singleton. intros ->. pose proof (tree_at_nodup _ _ _ (q_tree _ _ Hq _ _ Hsrc)) as Hn.
    rewrite Eq in Hn. apply NoDup_app in Hn as (_ & Hn & _). apply (Hn x); [|set_solver].
    apply list_elem_of_In, in_rev. by apply list_elem_of_In.
Qed.

(** CPU [i] is online and scheduling; its load; its timeline. *)
Definition ready (s : sys) (i : Z) : bool :=
  match percpu_data s !!z i with Some rq => (i <? num_cpus s) && online rq && scheduler_ok rq | None => false end.
Definition load (s : sys) (i : Z) : Z :=
  match percpu_data s !!z i with Some rq => nr_running rq | None => 0 end.
Definition timeline (s : sys) (i : Z) : Z :=
  match percpu_data s !!z i with Some rq => min_vruntime rq | None => 0 end.

Lemma ready_range s i : ready s i = true -> 0 <= i < num_cpus s.
Proof.
  unfold ready. destruct (percpu_data s !!z i) eqn:E; [|done]. apply zlookup_some_range in E.
  intros [[?%Z.ltb_lt _]%andb_true_iff _]%andb_true_iff. lia.
Qed.
Lemma load_spec s qs i rq : queues s qs -> percpu_data s !!z i = Some rq -> load s i = zlen (qs i) /\ nr_running rq = zlen (qs i).
Proof. intros Hq E. unfold load. rewrite E. by rewrite (q_nr _ _ Hq _ _ E). Qed.
Lemma load_nonneg s qs i : queues s qs -> 0 <= load s i.
Proof.
  intros Hq. unfold load. destruct (percpu_data s !!z i) eqn:E; [|done]. rewrite (q_nr _ _ Hq _ _ E). unfold zlen. lia.
Qed.
Lemma load_bound s qs i rq : queues s qs -> percpu_data s !!z i = Some rq -> zlen (qs i) < Z.of_nat (size (tasks s)).
Proof.
  intros Hq E. destruct (q_idle _ _ Hq _ _ E) as (tk & Ht & _ & Ho). unfold zlen. apply Nat2Z.inj_lt.
  apply (nodup_size (tasks s) (idle rq :: qs i)).
  - constructor; [|by eapply tree_at_nodup, (q_tree _ _ Hq)]. intros (tk' & Ht' & ? & _)%(q_in _ _ Hq). congruence.
  - intros x [->|(tx & Hx & _)%(q_in _ _ Hq)]%elem_of_cons; by eexists.
Qed.

(** [busiest] among the other CPUs below [i]: none is loaded, or the result
    has the greatest load, ties going to the furthest timeline. *)
Definition busiest_among (s : sys) (me i src max_nr max_vr : Z) : Prop :=
  (src = -1 /\ max_nr = 0 /\ max_vr = 0 /\ (forall j, j < i -> j <> me -> ready s j = true -> load s j = 0)) \/
  (src < i /\ src <> me /\ ready s src = true /\ max_nr = load s src /\ 0 < max_nr /\ max_vr = timeline s src /\
   forall j, j < i -> j <> me -> ready s j = true ->
     load s j < max_nr \/ load s j = max_nr /\ timeline s j <= max_vr).

Lemma busiest_step s me i src mn mv src' mn' mv' :
  0 <= load s i -> busiest_among s me i src mn mv ->
  ((i = me \/ ready s i = false \/ load s i = 0 \/ load s i < mn \/ load s i = mn /\ timeline s i <= mv) /\
   (src', mn', mv') = (src, mn, mv) \/
   i <> me /\ ready s i = true /\ 0 < load s i /\ (mn < load s i \/ load s i = mn /\ mv < timeline s i) /\
   (src', mn', mv') = (i, load s i, timeline s i)) ->
  busiest_among s me (i + 1) src' mn' mv'.
Proof.
  intros Hl0 Hb [[Hk [= -> -> ->]]|(Hme & Hr & Hl & Hbig & [= -> -> ->])].
  - destruct Hb as [(? & ? & ? & Ha)|(? & ? & ? & ? & ? & ? & Ha)]; [left|right]; split_and!; try done; try lia;
      intros j Hj Hjm Hjr; (destruct (decide (j = i)) as [->|]; [|apply Ha; try done; lia]);
      destruct Hk as [?|[?|[?|[?|[? ?]]]]]; try congruence; lia.
  - right. split_and!; try done; try lia. intros j Hj Hjm Hjr. destruct (decide (j = i)) as [->|]; [lia|].
    destruct Hb as [(? & ? & ? & Ha)|(? & ? & ? & ? & ? & ? & Ha)]; specialize (Ha j ltac:(lia) Hjm Hjr); lia.
Qed.

Lemma busiest_spec s qs me : queues s qs -> forall n i src mn mv,
  0 <= i -> i + Z.of_nat n <= num_cpus s -> busiest_among s me i src mn mv ->
  exists src' mn' mv', busiest n s me i src mn mv = Some (src', mn') /\
    busiest_among s me (i + Z.of_nat n) src' mn' mv'.
Proof.
  intros Hq. induction n as [|n IH]; intros i src mn mv Hi Hn Hb.
  { exists src, mn, mv. replace (i + Z.of_nat 0) with i by lia. done. }
  simpl busiest. destruct (zlookup_in_range (percpu_data s) i) as [rq Hrq]; [pose proof (q_num _ _ Hq); lia|].
  rewrite Hrq. cbn [mbind option_bind]. replace (i + Z.of_nat (S n)) with (i + 1 + Z.of_nat n) by lia.
  assert (ready s i = online rq && scheduler_ok rq) as Er.
  { unfold ready. rewrite Hrq. replace (i <? num_cpus s) with true by (symmetry; apply Z.ltb_lt; lia). done. }
  assert (load s i = nr_running rq) as El by (unfold load; by rewrite Hrq).
  assert (timeline s i = min_vruntime rq) as Ev by (unfold timeline; by rewrite Hrq).
  pose proof (load_nonneg s qs i Hq) as Hl0. rewrite <- El, <- Ev.
  destruct (Z.eqb_spec i me) as [->|Hme]; [simpl orb; apply IH; [lia..|]; eapply busiest_step; [done..|left; auto]|].
  simpl orb. rewrite <- negb_andb, <- Er.
  destruct (ready s i) eqn:Hr; simpl negb; cbn iota; [|apply IH; [lia..|]; eapply busiest_step; [done..|left; auto]].
  destruct (Z.eqb_spec (load s i) 0); [apply IH; [lia..|]; eapply busiest_step; [done..|left; auto 6]|].
  destruct (_ || _) eqn:Eg; (apply IH; [lia..|]; eapply busiest_step; [done..|]); [right|left]; split_and!; try done; bools; lia.
Qed.

(** The tasks a balancing of CPU [c] may take from [src], latest deadline
    first, and how many of them it asks for. *)
Definition stealable (s : sys) (qs : Z -> list Z) (src c : Z) : list Z := List.filter (movable s c) (rev (qs src)).
Definition quota (qs : Z -> list Z) (src c : Z) : Z := Z.max 1 ((zlen (qs src) - zlen (qs c)) / 2).

Lemma quota_code qs src c :
  0 <= zlen (qs src) < 2147483648 -> 0 <= zlen (qs c) ->
  zlen (qs c) = 0 \/ zlen (qs c) + 1 < zlen (qs src) ->
  (let half := Z.quot (sint32 (wrap32 (zlen (qs src) - zlen (qs c)))) 2 in if half <? 1 then 1 else half) = quota qs src c.
Proof.
  intros H1 H2 Hg. unfold quota, sint32, wrap32. rewrite (Z.mod_small (_ - _)) by lia. rewrite Z.mod_small by lia.
  rewrite Z.add_simpl_r, Z.quot_div_nonneg by lia. cbv zeta. destruct (Z.ltb_spec ((zlen (qs src) - zlen (qs c)) / 2) 1); lia.
Qed.

Lemma balance_spec s qs c rq :
  queues s qs -> percpu_data s !!z c = Some rq ->
  (exists src mn mv, busiest_among s c (num_cpus s) src mn mv /\
    (src < 0 \/ 0 < zlen (qs c) /\ mn <= zlen (qs c) + 1) /\ sched_balance c s = Some s) \/
  (exists src srq mv s1 qs', busiest_among s c (num_cpus s) src (zlen (qs src)) mv /\ src <> c /\
    percpu_data s !!z src = Some srq /\ (zlen (qs c) = 0 \/ zlen (qs c) + 1 < zlen (qs src)) /\
    pulled s s1 qs qs' src c (take (Z.to_nat (quota qs src c)) (stealable s qs src c)) /\
    sched_balance c s = Some (if zlen (qs' src) =? 0 then upd_cpu (set_min_vruntime 0) src s1 else s1)).
Proof.
  intros Hq Hc. unfold sched_balance. rewrite Hc. cbn [mbind option_bind]. destruct (q_cpu _ _ Hq _ _ Hc) as [-> _].
  destruct (load_spec _ _ _ _ Hq Hc) as [_ En]. pose proof (load_bound _ _ _ _ Hq Hc) as Hbc. pose proof (q_size _ _ Hq) as Hsz.
  assert (0 <= zlen (qs c)) as Hp by (unfold zlen; lia). rewrite En.
  assert (exists src mn mv, busiest (Z.to_nat (num_cpus s)) s c 0 (-1) 0 0 = Some (src, mn) /\
    busiest_among s c (num_cpus s) src mn mv) as (src & mn & mv & Eb & Hb).
  { destruct (decide (0 <= num_cpus s)).
    - destruct (busiest_spec s qs c Hq (Z.to_nat (num_cpus s)) 0 (-1) 0 0) as (src & mn & mv & Eb & Hb); [lia..| |].
      { left. split_and!; try done. intros j Hj _ Hr%ready_range. lia. }
      exists src, mn, mv. by rewrite Z.add_0_l, Z2Nat.id in Hb by done.
    - replace (Z.to_nat (num_cpus s)) with 0%nat by lia. exists (-1), 0, 0. split; [done|].
      left. split_and!; try done. intros j Hj _ Hr%ready_range. lia. }
  rewrite Eb. cbn [mbind option_bind].
  destruct (Z.ltb_spec src 0) as [Hneg|Hpos]; [left; exists src, mn, mv; auto|].
  destruct Hb as [(-> & _)|(H1 & H2 & Hr & -> & H3 & -> & Ha)]; [done|].
  destruct (percpu_data s !!z src) as [srq|] eqn:Hsrc; [|unfold ready in Hr; by rewrite Hsrc in Hr].
  destruct (load_spec _ _ _ _ Hq Hsrc) as [El _]. pose proof (load_bound _ _ _ _ Hq Hsrc) as Hbs. rewrite El in *.
  assert (wrap32 (zlen (qs c) + 1) = zlen (qs c) + 1) as -> by (unfold wrap32; apply Z.mod_small; lia).
  assert (busiest_among s c (num_cpus s) src (zlen (qs src)) (timeline s src)) as Hb by (right; split_and!; done).
  destruct (_ && _) eqn:Eg.
  { left. exists src, (zlen (qs src)), (timeline s src). split_and!; try done. right. bools; lia. }
  assert (zlen (qs c) = 0 \/ zlen (qs c) + 1 < zlen (qs src)) as Hgate by (bools; lia).
  pose proof (quota_code qs src c ltac:(lia) Hp Hgate) as Ek. cbv zeta in Ek. cbv zeta. rewrite Ek. right.
  destruct (q_tree _ _ Hq _ _ Hsrc) as (tr & m & Hrep & Ei & _).
  cbn [mbind option_bind]. unfold RbTree.rbtree_last. rewrite (RbTree.end_spec _ RbTree.R _ _ Hrep), Ei. cbn [mbind option_bind].
  destruct (steal_spec src c (quota qs src c) H2 (qs src) (S (size (tasks s))) s qs [] 0 rq srq) as (s1 & qs1 & E1 & P1);
    try done; [by rewrite app_nil_r|unfold zlen in Hbs; lia|].
  change (RbTree.nearest RbTree.R (qs src)) with (default 0 (last (qs src))). rewrite E1. cbn [mbind option_bind].
  destruct (same_cpus_get _ _ _ _ (pl_cpus _ _ _ _ _ _ _ P1) Hsrc) as (srq1 & Hs1 & _). rewrite Hs1. cbn [mbind option_bind].
  rewrite (q_nr _ _ (pl_queues _ _ _ _ _ _ _ P1) _ _ Hs1). rewrite Z.sub_0_r in P1.
  exists src, srq, (timeline s src), s1, qs1. split_and!; done.
Qed.

(** ** Placement *)

(** CPU [i] may receive a task with the affinity mask [allowed]. *)
Definition eligible (s : sys) (allowed i : Z) : bool := negb (Z.land (shr64 allowed i) 1 =? 0) && ready s i.

(** [best] is the choice among the CPUs below [i]: least loaded, then the
    caller's own CPU, then the lowest index. *)
Definition best_among (s : sys) (allowed me i best : Z) : Prop :=
  best < i /\ eligible s allowed best = true /\
  forall j, j < i -> eligible s allowed j = true ->
    load s best < load s j \/ load s best = load s j /\ (best = me \/ j <> me /\ best <= j).
Definition none_among (s : sys) (allowed i : Z) : Prop := forall j, j < i -> eligible s allowed j = false.

Lemma pick_cpu_step s allowed me i best :
  eligible s allowed i = true -> best_among s allowed me i best ->
  (load s i < load s best \/ load s i = load s best /\ i = me -> best_among s allowed me (i + 1) i) /\
  (load s best < load s i \/ load s i = load s best /\ i <> me -> best_among s allowed me (i + 1) best).
Proof.
  intros He (Hb & Hbe & Ha). split; intros Hc; (split_and!; [lia|done|]); intros j Hj Hje;
    (destruct (decide (j = i)) as [->|]; [lia|]); destruct (Ha j ltac:(lia) Hje); lia.
Qed.

Lemma best_skip s allowed me i best :
  eligible s allowed i = false -> best_among s allowed me i best -> best_among s allowed me (i + 1) best.
Proof.
  intros He (Hb & Hbe & Ha). split_and!; [lia|done|]. intros j Hj Hje. apply Ha; [|done].
  destruct (decide (j = i)) as [->|]; [congruence|lia].
Qed.
Lemma none_skip s allowed i : eligible s allowed i = false -> none_among s allowed i -> none_among s allowed (i + 1).
Proof. intros He Hn j Hj. destruct (decide (j = i)) as [->|]; [done|apply Hn; lia]. Qed.
Lemma best_first s allowed me i :
  eligible s allowed i = true -> none_among s allowed i -> best_among s allowed me (i + 1) i.
Proof.
  intros He Hn. split_and!; [lia|done|]. intros j Hj Hje. destruct (decide (j = i)) as [->|]; [lia|].
  rewrite Hn in Hje by lia. done.
Qed.

(** What the loop has found below CPU [i]. *)
Definition found (s : sys) (allowed me i best : Z) : Prop :=
  best = NR_CPUS /\ none_among s allowed i \/ best_among s allowed me i best.

Lemma found_skip s allowed me i best :
  eligible s allowed i = false -> found s allowed me i best -> found s allowed me (i + 1) best.
Proof. intros He [[-> Hn]|Hb]; [left; split; [done|by apply none_skip]|right; by apply best_skip]. Qed.
Lemma found_rest s allowed me i best :
  num_cpus s <= i -> found s allowed me i best -> forall j, found s allowed me (i + Z.of_nat j) best.
Proof.
  intros Hn Hf. induction j as [|j IH]; [by rewrite Z.add_0_r|].
  replace (i + Z.of_nat (S j)) with (i + Z.of_nat j + 1) by lia. apply found_skip; [|done].
  unfold eligible. destruct (ready s (i + Z.of_nat j)) eqn:E; [|by rewrite andb_false_r].
  apply ready_range in E. lia.
Qed.

Lemma pick_cpu_spec s qs allowed me : queues s qs -> forall n i best mn,
  0 <= i -> i + Z.of_nat n = NR_CPUS -> found s allowed me i best ->
  mn = (if best =? NR_CPUS then UINT32_MAX else load s best) ->
  exists r, pick_cpu_loop n s allowed me i best mn = Some r /\ found s allowed me NR_CPUS r.
Proof.
  intros Hq. induction n as [|n IH]; intros i best mn Hi Hn Hf Hmn.
  { exists best. replace i with NR_CPUS in Hf by lia. done. }
  simpl pick_cpu_loop. destruct (Z.eqb_spec (Z.land (shr64 allowed i) 1) 0) as [Hz|Hz].
  { apply IH; [lia..| |done]. apply found_skip; [|done]. unfold eligible. by rewrite Hz. }
  destruct (Z.leb_spec (num_cpus s) i) as [Hle|Hlt].
  { exists best. split; [done|]. rewrite <- Hn. by apply found_rest. }
  destruct (zlookup_in_range (percpu_data s) i) as [rq Hrq]; [pose proof (q_num _ _ Hq); lia|].
  rewrite Hrq. cbn [mbind option_bind]. rewrite <- negb_andb.
  assert (eligible s allowed i = online rq && scheduler_ok rq) as Ee.
  { unfold eligible, ready. rewrite Hrq, (proj2 (Z.eqb_neq _ _) Hz), (proj2 (Z.ltb_lt _ _) Hlt). done. }
  rewrite <- Ee. destruct (eligible s allowed i) eqn:He; simpl negb; cbn iota.
  2: { apply IH; [lia..| |done]. by apply found_skip. }
  assert (nr_running rq = load s i) as -> by (unfold load; by rewrite Hrq).
  assert (0 <= load s i < UINT32_MAX) as Hl.
  { destruct (load_spec _ _ _ _ Hq Hrq) as [-> _]. pose proof (load_bound _ _ _ _ Hq Hrq). pose proof (q_size _ _ Hq).
    unfold zlen in *. lia. }
  assert (forall b, b < i + 1 -> (b =? NR_CPUS) = false) as Hb8 by (intros; apply Z.eqb_neq; lia).
  destruct Hf as [[-> Hno]|Hb].
  - rewrite Z.eqb_refl in Hmn. subst mn. rewrite (proj2 (Z.ltb_lt (load s i) UINT32_MAX)) by lia. simpl orb.
    apply IH; [lia..|right; by apply best_first|]. by rewrite Hb8 by lia.
  - pose proof Hb as (Hbi & _). rewrite Hb8 in Hmn by lia. subst mn. rewrite (Hb8 best) by lia. simpl orb.
    destruct (pick_cpu_step s allowed me i best He Hb) as [H1 H2].
    destruct (_ || _) eqn:Eg; (apply IH; [lia..| |by rewrite Hb8 by lia]); right; [apply H1|apply H2]; bools; lia.
Qed.

(** ** Correctness *)

Lemma load_upd s qs c : queues s qs -> is_Some (percpu_data s !!z c) -> load s c = zlen (qs c).
Proof. intros Hq [rq E]. by destruct (load_spec _ _ _ _ Hq E). Qed.

Lemma quota_fair qs qs' src c mv :
  0 < zlen (qs src) -> zlen (qs c) = 0 \/ zlen (qs c) + 1 < zlen (qs src) ->
  qs src ≡ₚ mv ++ qs' src -> qs' c ≡ₚ mv ++ qs c -> zlen mv <= quota qs src c -> zlen (qs' c) <= zlen (qs' src) + 1.
Proof.
  intros H0 Hg H1%Permutation_length H2%Permutation_length. unfold quota, zlen in *. rewrite length_app in H1, H2. dlia.
Qed.


(** [sched_pick_cpu_mask] returns a CPU below [NR_CPUS] that is online,
    scheduling and in the mask, with the least load of all such CPUs, ties
    going first to the caller's own CPU and then to the lowest index; it returns
    [NR_CPUS] exactly when there is no such CPU. *)
Theorem sched_pick_cpu_mask_correct s qs allowed me :
  queues s qs ->
  exists r, sched_pick_cpu_mask allowed me s = Some r /\
    (r = NR_CPUS /\ (forall j, j < NR_CPUS -> eligible s allowed j = false) \/
     0 <= r < NR_CPUS /\ eligible s allowed r = true /\
     forall j, j < NR_CPUS -> eligible s allowed j = true ->
       load s r < load s j \/ load s r = load s j /\ (r = me \/ j <> me /\ r <= j)).
Proof.
  intros Hq. unfold sched_pick_cpu_mask. destruct (Z.eqb_spec allowed 0) as [->|].
  { exists NR_CPUS. split; [done|]. left. split; [done|]. intros j _. unfold eligible, shr64. by rewrite Z.shiftr_0_l. }
  destruct (pick_cpu_spec s qs allowed me Hq (Z.to_nat NR_CPUS) 0 NR_CPUS UINT32_MAX) as (r & -> & Hf); [lia|lia| |done|].
  { left. split; [done|]. intros j Hj. unfold eligible. destruct (ready s j) eqn:E; [|by rewrite andb_false_r].
    apply ready_range in E. lia. }
  exists r. split; [done|]. destruct Hf as [[-> Hn]|(Hr & He & Ha)]; [by left|right]. split_and!; try done; try lia.
  unfold eligible in He. apply andb_true_iff in He as [_ He%ready_range]. lia.
Qed.

Lemma sched_pick_resched c s next s' :
  sched_pick c s = Some (next, s') -> exists s0, s' = upd_cpu (set_need_resched false) c s0.
Proof.
  unfold sched_pick. intros (rq & _ & E)%bind_Some. apply bind_Some in E as ([n s1] & _ & E).
  apply bind_Some in E as (s2 & _ & [= _ <-]). by exists s2.
Qed.

(** C39: the choice of the next task on CPU [c] is the idle task exactly when
    the run queue is empty, and otherwise the queued task with the earliest
    deadline (of the smallest pid among equals), which leaves the queue and is
    marked as on a CPU, while the other queued tasks keep their order and the
    reschedule request is consumed. *)
Theorem sched_pick_correct s qs c rq :
  queues s qs -> percpu_data s !!z c = Some rq ->
  exists next s', sched_pick c s = Some (next, s') /\
    need_resched <$> percpu_data s' !!z c = Some false /\
    ((qs c = [] /\ next = idle rq /\ queues s' qs /\ tasks s' = tasks s) \/
     (exists q tk tk', qs c = next :: q /\ queues s' (qset c q qs) /\ tasks s !! next = Some tk /\
        tasks s' = <[next := tk']> (tasks s) /\ on_rq tk' = false /\ on_cpu tk' = true /\ cpu tk' = c /\
        forall t tk2, t ∈ q -> tasks s !! t = Some tk2 ->
          deadline tk < deadline tk2 \/ deadline tk = deadline tk2 /\ pid tk <= pid tk2)).
Proof.
  intros Hq Hc. destruct (sched_pick_spec s qs c rq Hq Hc) as (next & s' & E & Hsc & Hor). exists next, s'.
  split; [done|]. split.
  { destruct (sched_pick_resched _ _ _ _ E) as [s0 ->]. destruct (same_cpus_get _ _ _ _ Hsc Hc) as (rq' & Hc' & _).
    simpl in *. rewrite zlookup_zalter in *. by destruct (percpu_data s0 !!z c). }
  destruct Hor as [?|(q & tk & tk' & Eq & Ht & [Hq' _ Ets Hcpu] & Ho & Hoc & _)]; [by left|right].
  exists q, tk, tk'. split_and!; try done.
  - rewrite Hcpu. destruct (q_in _ _ Hq c next) as (? & ? & _ & ? & _); [rewrite Eq; set_solver|congruence].
  - intros t tk2 Hin Ht2. pose proof (q_ord _ _ Hq _ _ Hc) as Hs. rewrite Eq in Hs. apply StronglySorted_inv in Hs as [_ Hs].
    rewrite Forall_forall in Hs. specialize (Hs t Hin). unfold cmp_deadline in Hs. rewrite Ht, Ht2 in Hs.
    repeat case_match; bools; lia.
Qed.

(** ** A concrete system

    Two CPUs with the idle tasks 101 and 102, and three tasks that may run
    anywhere; 201 and 202 wait on CPU 1. *)

Definition demo_task (p c v st : Z) : task :=
  mk_task st p 0 0 v 0 false c UINT64_MAX 0 false false false false 0 0.
Definition demo_cpu (c i : Z) : percpu := mk_percpu false c true true 0 i 0 0.
Definition demo_idle : sys :=
  mk_sys [demo_cpu 0 101; demo_cpu 1 102]
    (<[101 := demo_task 0 0 0 TASK_RUNNING]> (<[102 := demo_task 0 1 0 TASK_RUNNING]>
      (<[201 := demo_task 2 1 5 TASK_RUNNING]> (<[202 := demo_task 3 1 7 TASK_RUNNING]>
        (<[203 := demo_task 4 0 9 TASK_INTERRUPTIBLE]> ∅)))))
    (<[101 := RbTree.mk_node 0 0 0 0]> (<[102 := RbTree.mk_node 0 0 0 0]> (<[201 := RbTree.mk_node 0 0 0 0]>
      (<[202 := RbTree.mk_node 0 0 0 0]> (<[203 := RbTree.mk_node 0 0 0 0]> ∅)))))
    2 1 [201; 202; 203] [].
Definition demo : sys := default demo_idle (enqueue_task 201 1 demo_idle ≫= enqueue_task 202 1).

Lemma demo_cpu_cases (P : Z -> percpu -> Prop) :
  P 0 (demo_cpu 0 101) -> P 1 (demo_cpu 1 102) -> forall c rq, percpu_data demo_idle !!z c = Some rq -> P c rq.
Proof.
  intros H0 H1 c rq [[-> ->]|[Hc E]]%zlookup_cons_inv; [done|].
  apply zlookup_cons_inv in E as [[Ec ->]|[_ E]].
  - by replace c with 1 by lia.
  - apply zlookup_some_range in E. unfold zlen in E. simpl in E. lia.
Qed.

Lemma demo_task_cases (P : Z -> task -> Prop) :
  Forall (fun t => match tasks demo_idle !! t with Some tk => P t tk | None => False end) [101; 102; 201; 202; 203] ->
  forall t tk, tasks demo_idle !! t = Some tk -> P t tk.
Proof.
  intros Hf t tk Ht. assert (t ∈ [101; 102; 201; 202; 203]) as Hin.
  { simpl in Ht. rewrite !lookup_insert in Ht. repeat case_decide; set_solver. }
  rewrite Forall_forall in Hf. specialize (Hf t Hin). by rewrite Ht in Hf.
Qed.

Lemma demo_idle_queues : queues demo_idle (fun _ => []).
Proof.
  split.
  - by apply demo_cpu_cases.
  - intros c rq H. exists RbTree.E, 0%nat. split_and!; [|done|constructor]. revert c rq H. apply demo_cpu_cases; (split; [done|done|constructor|apply not_elem_of_nil|done]).
  - intros. constructor.
  - by apply demo_cpu_cases.
  - intros c t. set_solver.
  - refine (demo_task_cases (fun t tk => on_rq tk = true -> t ∈ []) _). repeat constructor; vm_compute; done.
  - apply demo_task_cases. repeat first [apply Forall_nil_2|apply Forall_cons_2; [vm_compute; split_and!; by eauto|]].
  - apply demo_cpu_cases; eexists; (split_and!; [vm_compute; reflexivity|vm_compute; reflexivity..]).
  - vm_compute. done.
  - vm_compute. done.
Qed.

Lemma demo_queues : exists qs, queues demo qs.
Proof.
  pose proof demo_idle_queues as Hq.
  destruct (enqueue_touch demo_idle _ 201 (demo_task 2 1 5 TASK_RUNNING) (demo_cpu 1 102) Hq) as (s1 & qs1 & E1 & [Hq1 _ Et1 _]);
    try done; [vm_compute; reflexivity..|].
  assert (exists rq, percpu_data s1 !!z 1 = Some rq /\ idle rq = 102) as (rq & Hc & Hi).
  { simpl cpu in E1. revert E1. vm_compute. intros [= <-]. by eexists. }
  destruct (enqueue_touch s1 qs1 202 (demo_task 3 1 7 TASK_RUNNING) rq Hq1) as (s2 & qs2 & E2 & [Hq2 _ _ _]); try done.
  - rewrite Et1. vm_compute. reflexivity.
  - by rewrite Hi.
  - exists qs2. replace demo with s2; [done|]. unfold demo. simpl cpu in E1, E2. rewrite E1. cbn [mbind option_bind]. by rewrite E2.
Qed.


Lemma sched_pick_cpu_mask_witness :
  exists qs, queues demo qs /\ sched_pick_cpu_mask 3 1 demo = Some 0 /\
    exists r, sched_pick_cpu_mask 3 1 demo = Some r /\
      forall j, j < NR_CPUS -> eligible demo 3 j = true -> load demo r <= load demo j.
Proof.
  destruct demo_queues as [qs Hq]. exists qs. split; [exact Hq|]. split; [vm_compute; reflexivity|].
  destruct (sched_pick_cpu_mask_correct demo qs 3 1 Hq) as (r & E & H).
  exists r. split; [exact E|]. intros j Hj He. destruct H as [[_ H]|(_ & _ & H)]; [rewrite H in He by exact Hj; discriminate|].
  destruct (H j Hj He) as [Hl|[Hl _]]; revert Hl; generalize (load demo r) (load demo j); intros; lia.
Defined.

Lemma sched_pick_witness :
  exists qs next s', queues demo qs /\ sched_pick 1 demo = Some (next, s') /\ next = 201 /\ need_resched <$> percpu_data s' !!z 1 = Some false.
Proof.
  destruct demo_queues as [qs Hq]. destruct (percpu_data demo !!z 1) as [rq|] eqn:Hc; [|by vm_compute in Hc].
  destruct (sched_pick_correct demo qs 1 rq Hq Hc) as (next & s' & E & Hn & _). exists qs, next, s'.
  split; [exact Hq|]. split; [exact E|]. split; [|exact Hn]. revert E. vm_compute. by intros [= <- _].
Defined.

End Sched.
