(* ===== verification/SchedSafe.v ===== *)
(** The scheduler on several CPUs.  Every CPU runs [schedule] section by
    section, and between any two sections other CPUs may run theirs, wake
    tasks, balance queues, and block or end their own tasks.  The sections are
    those of core.c that hold a run-queue lock (or only write fields of the
    CPU's own current task), so that an execution is a sequence of them. *)

From stdpp Require Import base tactics numbers option gmap sets sorting list.
From Stdlib Require Import ZArith Lia.
From S2P Require Import Prelude RbTree Sched.

Module SchedSafe.
Import Sched.

(** ** Executions *)

(** Where a CPU is in [schedule]: not in it, past its entry, past the
    requeueing, past the choice of the next task, on the stack of the incoming
    task with [task_finish_switch prev] ahead, and before its tail. *)
Inductive pc := Run | Entered | Requeued | Picked (next : Z) | Switched (prev : Z) | Resuming.

Record core := mk_core { cur : Z; at_ : pc }.
Record world := mk_world { kernel : sys; cores : list core }.

(** What a CPU can do next.  [Sleep] and [Awake] are the two halves of
    [blocker_wait] around its call of [schedule]; [ready] and the booleans are
    the answers of blocker callbacks. *)
Inductive event :=
| Enter
| Requeue
| Scan (ready : Z -> bool)
| Balance
| Pick
| Commit
| Finish
| Resume
| Wake (t : Z)
| BlockerWake (ready : Z -> bool) (t : Z)
| SignalParent (ready : Z -> bool) (child signals : Z)
| WakeParent (child : Z)
| Sleep (ty : Z) (fn can_wake check1 check2 : bool)
| Awake (can_wake check3 : bool)
| Exit.

(** The step of CPU [c], whose [schedule] is at [k], in kernel [s]: [None] is a
    failed check or a bad pointer.  An event that is out of place changes
    nothing. *)
Definition act (e : event) (c : Z) (k : core) (s : sys) : option (sys * core) :=
  match e, at_ k with
  | Enter, Run => '(go, s) ← sched_enter (cur k) c s; Some (s, mk_core (cur k) (if go : bool then Entered else Run))
  | Requeue, Entered => s ← sched_requeue (cur k) c s; Some (s, mk_core (cur k) Requeued)
  | Scan ready, Requeued => s ← sched_unblock_blocked ready c s; Some (s, k)
  | Balance, Requeued => s ← sched_balance c s; Some (s, k)
  | Pick, Requeued => '(next, s) ← sched_pick c s; Some (s, mk_core (cur k) (Picked next))
  | Commit, Picked next =>
    '(next, s) ← sched_commit (cur k) next c s;
    Some (s, if next =? cur k then mk_core next Run else mk_core next (Switched (cur k)))
  | Finish, Switched prev => s ← task_finish_switch c prev s; Some (s, mk_core (cur k) Resuming)
  | Resume, Resuming => s ← sched_resume (cur k) s; Some (s, mk_core (cur k) Run)
  | Wake t, _ => s ← task_wake c t s; Some (s, k)
  | BlockerWake ready t, _ => s ← blocker_wake ready c t s; Some (s, k)
  | SignalParent ready child signals, _ => s ← task_signal_parent ready c child signals s; Some (s, k)
  | WakeParent child, _ => s ← task_wake_parent c child s; Some (s, k)
  | Sleep ty fn w c1 c2, Run => '(_, s) ← blocker_wait_begin (cur k) ty fn w c1 c2 s; Some (s, k)
  | Awake w c3, Run => '(_, s) ← blocker_wait_end (cur k) w c3 s; Some (s, k)
  | Exit, Run => s ← task_exit_zombie (cur k) s; Some (s, k)
  | _, _ => Some (s, k)
  end.

(** The callers' obligation: a task that is woken, or whose parent is, exists. *)
Definition valid (e : event) (s : sys) : Prop :=
  match e with
  | Wake t => is_Some (tasks s !! t)
  | BlockerWake _ t => t = 0 \/ is_Some (tasks s !! t)
  | SignalParent _ child _ | WakeParent child =>
    exists ck, tasks s !! child = Some ck /\ (parent ck = 0 \/ is_Some (tasks s !! parent ck))
  | _ => True
  end.

Definition step (ce : Z * event) (w : world) : option world :=
  k ← cores w !!z ce.1;
  '(s, k') ← act ce.2 ce.1 k (kernel w);
  Some (mk_world s (zalter (fun _ => k') ce.1 (cores w))).

(** The worlds a sequence of events leads to. *)
Inductive steps : world -> list (Z * event) -> world -> Prop :=
| steps_nil w : steps w [] w
| steps_snoc w es w1 c e w2 :
    steps w es w1 -> is_Some (cores w1 !!z c) -> valid e (kernel w1) -> step (c, e) w1 = Some w2 -> steps w (es ++ [(c, e)]) w2.

(** ** The invariant *)

Definition idle_task (s : sys) (t : Z) : Prop := exists c rq, percpu_data s !!z c = Some rq /\ idle rq = t.

(** The tasks whose stacks CPU [k] uses or is about to, and those of them that
    cannot be queued. *)
Definition owned (k : core) : list Z :=
  cur k :: match at_ k with Picked n => [n] | Switched p => [p] | _ => [] end.
Definition unqueued (k : core) : list Z :=
  match at_ k with Requeued => [] | Picked n => [n] | _ => [cur k] end.

Definition owner (ks : list core) (t c : Z) : Prop := exists k, ks !!z c = Some k /\ t ∈ owned k.

Record good_core (s : sys) (c : Z) (k : core) : Prop := {
  gc_owned : forall t, t ∈ owned k -> exists tk, tasks s !! t = Some tk /\ cpu tk = c /\ (on_cpu tk = true \/ idle_task s t);
  gc_unqueued : forall t tk, t ∈ unqueued k -> tasks s !! t = Some tk -> on_rq tk = false;
  gc_pick : forall n tk, at_ k = Picked n -> tasks s !! n = Some tk -> idle_task s n \/ state tk = TASK_RUNNING;
  gc_switch : forall p, at_ k = Switched p -> p <> cur k;
}.

Record good_task (s : sys) (ks : list core) (t : Z) (tk : task) : Prop := {
  gt_cpu : on_cpu tk = true -> idle_task s t \/ owner ks t (cpu tk);
  gt_run : state tk = TASK_RUNNING -> idle_task s t \/ on_rq tk = true \/ owner ks t (cpu tk);
}.

Record inv (s : sys) (ks : list core) : Prop := {
  inv_queues : exists qs, queues s qs;
  inv_list : forall t, t ∈ task_list s -> is_Some (tasks s !! t);
  inv_cpus : forall c, is_Some (ks !!z c) -> is_Some (percpu_data s !!z c);
  inv_core : forall c k, ks !!z c = Some k -> good_core s c k;
  inv_task : forall t tk, tasks s !! t = Some tk -> good_task s ks t tk;
}.

(** ** Preservation *)

Lemma idle_task_same s s' t : same_cpus s s' -> idle_task s' t <-> idle_task s t.
Proof.
  intros Hs. split; intros (c & rq & Hc & <-).
  - destruct (same_cpus_back _ _ _ _ Hs Hc) as (rq' & Hc' & ->). by exists c, rq'.
  - destruct (same_cpus_get _ _ _ _ Hs Hc) as (rq' & Hc' & _ & Hi & _). by exists c, rq'.
Qed.
Lemma idle_task_is_idle s qs t : queues s qs -> idle_task s t <-> is_idle s t.
Proof.
  intros Hq. split.
  - intros (c & rq & Hc & <-). destruct (q_idle _ _ Hq _ _ Hc) as (tk & Ht & <- & _). by exists tk, rq.
  - intros (tk & rq & _ & Hc & ->). by exists (cpu tk), rq.
Qed.
Lemma idle_task_cur s qs c rq t tk :
  queues s qs -> percpu_data s !!z c = Some rq -> tasks s !! t = Some tk -> cpu tk = c -> idle_task s t <-> t = idle rq.
Proof.
  intros Hq Hc Ht Hcpu. rewrite idle_task_is_idle by done. split.
  - intros (tk' & rq' & Ht' & Hc' & ->). congruence.
  - intros ->. exists tk, rq. split_and!; congruence.
Qed.

Lemma unqueued_owned k t : t ∈ unqueued k -> t ∈ owned k.
Proof. unfold unqueued, owned. destruct (at_ k); set_solver. Qed.

Lemma owner_zalter ks c k k' t c' :
  ks !!z c = Some k -> owner (zalter (fun _ => k') c ks) t c' <-> (c' = c /\ t ∈ owned k') \/ (c' <> c /\ owner ks t c').
Proof.
  intros Hk. unfold owner. destruct (decide (c' = c)) as [->|Hne].
  - rewrite zlookup_zalter, Hk. simpl. naive_solver.
  - rewrite zlookup_zalter_ne by done. naive_solver.
Qed.

Lemma owner_cpu s ks t c tk : inv s ks -> owner ks t c -> tasks s !! t = Some tk -> cpu tk = c.
Proof. intros H (k & Hk & Hin) Ht. destruct (gc_owned _ _ _ (inv_core _ _ H _ _ Hk) _ Hin) as (? & ? & ? & _). congruence. Qed.

Lemma touches_is_some s s' qs' t tk tk' x :
  touches s s' qs' t tk tk' -> tasks s !! t = Some tk -> is_Some (tasks s !! x) -> is_Some (tasks s' !! x).
Proof. intros [_ _ -> _] Ht Hx. rewrite lookup_insert_is_Some. destruct (decide (t = x)); auto. Qed.

(** A CPU keeps its tasks if the changed one stays on the CPU, off the queue
    and runnable as required. *)
Lemma good_core_touch s s' qs' c k t tk tk' :
  touches s s' qs' t tk tk' -> tasks s !! t = Some tk -> good_core s c k ->
  (t ∈ owned k -> (on_cpu tk = true -> on_cpu tk' = true) /\ (t ∈ unqueued k -> on_rq tk = false -> on_rq tk' = false) /\
     (state tk = TASK_RUNNING -> state tk' = TASK_RUNNING \/ idle_task s t)) ->
  good_core s' c k.
Proof.
  intros [_ Hs Ets Hcpu] Ht [H1 H2 H3 H4] Hc. split.
  - intros x Hx. destruct (H1 x Hx) as (xk & Ex & Ec & Ho). rewrite Ets. rewrite <- (idle_task_same s s' x Hs) in Ho.
    destruct (decide (x = t)) as [->|]; [|rewrite lookup_insert_ne by done; by exists xk].
    rewrite lookup_insert_eq. exists tk'. assert (xk = tk) as -> by congruence. split_and!; [done|congruence|naive_solver].
  - intros x xk Hx. rewrite Ets. destruct (decide (x = t)) as [->|]; [|rewrite lookup_insert_ne by done; by apply H2].
    rewrite lookup_insert_eq. intros [= <-]. apply Hc; [by apply unqueued_owned|done|by eapply H2].
  - intros n nk Hn. rewrite idle_task_same by done. rewrite Ets.
    destruct (decide (n = t)) as [->|]; [|rewrite lookup_insert_ne by done; by eapply H3].
    rewrite lookup_insert_eq. intros [= <-]. destruct (H3 _ _ Hn Ht) as [?|Hr]; [by left|].
    destruct Hc as (_ & _ & Hs'); [unfold owned; rewrite Hn; set_solver|]. destruct (Hs' Hr); auto.
  - done.
Qed.

Lemma good_task_same s s' ks ks' t tk :
  same_cpus s s' -> (owner ks t (cpu tk) -> owner ks' t (cpu tk)) -> good_task s ks t tk -> good_task s' ks' t tk.
Proof. intros Hs Ho [H1 H2]. split; rewrite idle_task_same by done; naive_solver. Qed.

(** A step of CPU [c] that changes one task [t] of that CPU. *)
Lemma inv_own s s' qs' ks c k k' t tk tk' :
  inv s ks -> ks !!z c = Some k -> tasks s !! t = Some tk -> cpu tk = c -> touches s s' qs' t tk tk' ->
  good_core s' c k' -> (forall x, x ∈ owned k -> x ∈ owned k' \/ x = t) ->
  (on_cpu tk' = true -> idle_task s t \/ t ∈ owned k') ->
  (state tk' = TASK_RUNNING -> idle_task s t \/ on_rq tk' = true \/ t ∈ owned k') ->
  inv s' (zalter (fun _ => k') c ks).
Proof.
  intros H Hk Ht Hcpu T Hgc Hown H1 H2. pose proof (tc_cpus _ _ _ _ _ _ T) as Hs. split.
  - by exists qs'; apply T.
  - destruct Hs as [(_ & _ & ->) _]. intros x Hx. by eapply touches_is_some, (inv_list _ _ H).
  - intros c' Hc'. assert (is_Some (ks !!z c')) as Hi.
    { destruct (decide (c' = c)) as [->|]; [by rewrite Hk|]. by rewrite zlookup_zalter_ne in Hc'. }
    destruct (inv_cpus _ _ H _ Hi) as [rq Hrq]. destruct (same_cpus_get _ _ _ _ Hs Hrq) as (? & -> & _). by eexists.
  - intros c' k2 Hk2. destruct (decide (c' = c)) as [->|Hne].
    + rewrite zlookup_zalter, Hk in Hk2. by injection Hk2 as <-.
    + rewrite zlookup_zalter_ne in Hk2 by done. eapply good_core_touch; [done..|by apply (inv_core _ _ H)|].
      intros Ho. destruct Hne. rewrite <- Hcpu. symmetry. eapply owner_cpu; [done|by exists k2|done].
  - intros x xk. rewrite (tc_tasks _ _ _ _ _ _ T). destruct (decide (x = t)) as [->|Hx].
    + rewrite lookup_insert_eq. intros [= <-]. assert (cpu tk' = c) as Ec by (rewrite (tc_cpu _ _ _ _ _ _ T); done).
      split; rewrite idle_task_same by done; rewrite (owner_zalter ks c k) by done; naive_solver.
    + rewrite lookup_insert_ne by done. intros Hxk. eapply good_task_same; [done| |by apply (inv_task _ _ H)].
      rewrite (owner_zalter ks c k) by done. intros Ho. destruct (decide (cpu xk = c)) as [Hc|]; [left|by right].
      split; [done|]. rewrite Hc in Ho. destruct Ho as (k2 & Hk2 & Hin). assert (k2 = k) as -> by congruence. destruct (Hown x Hin); [done|congruence].
Qed.

(** A step that leaves the CPUs where they are and changes one task, which
    stays on its CPU if it was, and off the queue if it was on a CPU. *)
Lemma inv_other s s' qs' ks t tk tk' :
  inv s ks -> tasks s !! t = Some tk -> touches s s' qs' t tk tk' -> on_cpu tk' = on_cpu tk ->
  (on_cpu tk = true \/ idle_task s t -> on_rq tk' = on_rq tk) -> (state tk = TASK_RUNNING -> state tk' = TASK_RUNNING) ->
  (state tk' = TASK_RUNNING -> idle_task s t \/ on_rq tk' = true \/ on_cpu tk = true \/ tk' = tk \/
     state tk = TASK_RUNNING /\ on_rq tk' = on_rq tk) ->
  inv s' ks.
Proof.
  intros H Ht T Eo Erq Hst Hrun. pose proof (tc_cpus _ _ _ _ _ _ T) as Hs. split.
  - by exists qs'; apply T.
  - destruct Hs as [(_ & _ & ->) _]. intros x Hx. by eapply touches_is_some, (inv_list _ _ H).
  - intros c' Hc'. destruct (inv_cpus _ _ H _ Hc') as [rq Hrq]. destruct (same_cpus_get _ _ _ _ Hs Hrq) as (? & -> & _). by eexists.
  - intros c' k2 Hk2. pose proof (inv_core _ _ H _ _ Hk2) as Hgc. eapply good_core_touch; [done..|].
    intros Ho. split_and!; [congruence| |auto]. intros Hu Hf. rewrite Erq; [done|].
    destruct (gc_owned _ _ _ Hgc t Ho) as (tk0 & Ht0 & _ & Hor). assert (tk0 = tk) as -> by congruence. done.
  - intros x xk. rewrite (tc_tasks _ _ _ _ _ _ T). destruct (decide (x = t)) as [->|Hx].
    + rewrite lookup_insert_eq. intros [= <-]. destruct (inv_task _ _ H _ _ Ht) as [G1 G2].
      split; rewrite idle_task_same by done; rewrite (tc_cpu _ _ _ _ _ _ T).
      * rewrite Eo. exact G1.
      * intros Hr. destruct (Hrun Hr) as [?|[?|[Ho|[->|[Hr' ->]]]]]; auto. destruct (G1 Ho); auto.
    + rewrite lookup_insert_ne by done. intros Hxk. eapply good_task_same; [done|done|by apply (inv_task _ _ H)].
Qed.

(** A write to a task that keeps what the queues depend on. *)
Lemma set_touch s qs f t tk :
  queues s qs -> tasks s !! t = Some tk -> on_rq (f tk) = on_rq tk -> cpu (f tk) = cpu tk ->
  allowed_cpus (f tk) = allowed_cpus tk ->
  (on_rq tk = true -> state (f tk) = TASK_RUNNING /\ deadline (f tk) = deadline tk /\ pid (f tk) = pid tk) ->
  touches s (upd_task f t s) qs t tk (f tk).
Proof. intros Hq Ht Ho Hc Ha Hr. apply touches_upd; try done. by apply (queues_set s qs f t tk). Qed.

Lemma inv_quiet s ks f t tk :
  inv s ks -> tasks s !! t = Some tk ->
  (on_rq (f tk), cpu (f tk), allowed_cpus (f tk), state (f tk), deadline (f tk), pid (f tk), on_cpu (f tk)) =
  (on_rq tk, cpu tk, allowed_cpus tk, state tk, deadline tk, pid tk, on_cpu tk) ->
  inv (upd_task f t s) ks /\ tasks (upd_task f t s) !! t = Some (f tk).
Proof.
  intros H Ht [= E1 E2 E3 E4 E5 E6 E7]. destruct (inv_queues _ _ H) as [qs Hq].
  assert (touches s (upd_task f t s) qs t tk (f tk)) as T.
  { apply set_touch; try done. intros Ho. rewrite E4. split_and!; try done. by eapply running_queued. }
  split; [|by eapply touches_get]. eapply inv_other; try done; rewrite ?E4; auto 6.
Qed.

Lemma inv_wake s ks me t :
  inv s ks -> is_Some (tasks s !! t) ->
  exists s', task_wake me t s = Some s' /\ inv s' ks /\ (forall x, is_Some (tasks s !! x) -> is_Some (tasks s' !! x)).
Proof.
  intros H [tk Ht]. destruct (inv_queues _ _ H) as [qs Hq].
  destruct (task_wake_spec me s qs t tk Hq Ht) as (s' & qs' & tk' & E & T & Eo & Hid & Hni). exists s'. split; [done|].
  split; [|intros x; by eapply touches_is_some]. rewrite <- idle_task_is_idle in Hid, Hni by done.
  assert (idle_task s t \/ ~ idle_task s t) as [Hi|Hi].
  { destruct (q_task _ _ Hq _ _ Ht) as (_ & _ & [rq Hc] & _). rewrite (idle_task_cur s qs (cpu tk) rq t tk) by done. lia. }
  - rewrite (Hid Hi) in *. eapply inv_other; try done; auto.
  - destruct (Hni Hi) as [Hr Hq']. eapply inv_other; try done.
    + intros [Ho|?]; [|done]. rewrite Hq', Ho. by rewrite orb_false_r.
    + intros _. rewrite Hq'. destruct (on_cpu tk), (on_rq tk); auto.
Qed.

Lemma inv_blocker_wake s ks ready me t :
  inv s ks -> is_Some (tasks s !! t) ->
  exists s', blocker_wake_locked ready me t s = Some s' /\ inv s' ks /\ (forall x, is_Some (tasks s !! x) -> is_Some (tasks s' !! x)).
Proof.
  intros H [tk Ht]. unfold blocker_wake_locked. rewrite Ht. cbn [mbind option_bind].
  destruct (_ && _); [by exists s|]. destruct (type tk =? _); [by exists s|].
  cbv zeta. destruct (negb (check tk && ready t) && _); [by exists s|].
  destruct (inv_quiet s ks (set_blocker BLOCKER_NONE false (signal_can_wake tk)) t tk H Ht eq_refl) as [H1 Ht1].
  destruct (inv_wake _ _ me t H1) as (s' & E & H' & Hdom); [by eexists|]. exists s'. split_and!; try done.
  intros x Hx. apply Hdom. simpl. by rewrite lookup_alter_is_Some.
Qed.

Lemma inv_scan ready me ts : forall s ks,
  inv s ks -> (forall t, t ∈ ts -> is_Some (tasks s !! t)) ->
  exists s', unblock_scan ready me ts s = Some s' /\ inv s' ks.
Proof.
  induction ts as [|t ts IH]; intros s ks H Hts; [by exists s|]. simpl.
  destruct (Hts t) as [tk Ht]; [set_solver|]. rewrite Ht. cbn [mbind option_bind].
  assert (forall x, x ∈ ts -> is_Some (tasks s !! x)) as Hts' by set_solver.
  destruct (negb _); [by apply IH|]. destruct (type tk =? _); [by apply IH|]. destruct (_ || _); [|by apply IH].
  destruct (inv_blocker_wake s ks ready me t H) as (s1 & -> & H1 & Hdom); [by eexists|]. cbn [mbind option_bind].
  apply IH; auto.
Qed.

Lemma inv_same s s' qs' ks : inv s ks -> queues s' qs' -> same_cpus s s' -> tasks s' = tasks s -> inv s' ks.
Proof.
  intros H Hq Hs Et. split.
  - by exists qs'.
  - rewrite Et. destruct Hs as [(_ & _ & ->) _]. apply H.
  - intros c' Hc'. destruct (inv_cpus _ _ H _ Hc') as [rq Hrq]. destruct (same_cpus_get _ _ _ _ Hs Hrq) as (? & -> & _). by eexists.
  - intros c k Hk. destruct (inv_core _ _ H _ _ Hk) as [H1 H2 H3 H4]. split; rewrite ?Et; try done.
    + intros t Ht. destruct (H1 t Ht) as (tk & ? & ? & Ho). exists tk. by rewrite (idle_task_same s s') by done.
    + intros n tk. rewrite (idle_task_same s s') by done. apply H3.
  - rewrite Et. intros t tk Ht. eapply good_task_same; [done|done|by apply (inv_task _ _ H)].
Qed.

Lemma inv_pulled s s' qs qs' src c mv ks :
  inv s ks -> queues s qs -> pulled s s' qs qs' src c mv -> inv s' ks.
Proof.
  intros H Hq P. pose proof (pl_cpus _ _ _ _ _ _ _ P) as Hs.
  assert (forall c' k t, ks !!z c' = Some k -> t ∈ owned k -> t ∉ mv) as Hout.
  { intros c' k t Hk Ho Hin. destruct (pl_moved _ _ _ _ _ _ _ P _ Hin) as (tk & _ & Ht & _ & Hoc & Hrq & _).
    destruct (gc_owned _ _ _ (inv_core _ _ H _ _ Hk) _ Ho) as (tk0 & Ht0 & _ & [Hoc'|(c0 & rq & Hc & <-)]); [congruence|].
    destruct (q_idle _ _ Hq _ _ Hc) as (ik & Hik & _ & Hf). congruence. }
  split.
  - exists qs'. apply P.
  - destruct Hs as [(_ & _ & ->) _]. intros t Ht. destruct (decide (t ∈ mv)) as [Hin|Hin].
    + destruct (pl_moved _ _ _ _ _ _ _ P _ Hin) as (? & tk' & _ & -> & _). by eexists.
    + rewrite (pl_rest _ _ _ _ _ _ _ P) by done. by apply (inv_list _ _ H).
  - intros c' Hc'. destruct (inv_cpus _ _ H _ Hc') as [rq Hrq]. destruct (same_cpus_get _ _ _ _ Hs Hrq) as (? & -> & _). by eexists.
  - intros c' k Hk. destruct (inv_core _ _ H _ _ Hk) as [H1 H2 H3 H4]. specialize (Hout c' k). split; try done.
    + intros t Ht. destruct (H1 t Ht) as (tk & ? & ? & Ho). exists tk. rewrite (idle_task_same s s') by done.
      by rewrite (pl_rest _ _ _ _ _ _ _ P) by auto.
    + intros t tk Ht. rewrite (pl_rest _ _ _ _ _ _ _ P); [by apply H2|]. apply Hout; [done|]. by apply unqueued_owned.
    + intros n tk Hn. rewrite (idle_task_same s s') by done. rewrite (pl_rest _ _ _ _ _ _ _ P); [by apply H3|].
      apply Hout; [done|]. unfold owned. rewrite Hn. set_solver.
  - intros t tk Ht. destruct (decide (t ∈ mv)) as [Hin|Hin].
    + destruct (pl_moved _ _ _ _ _ _ _ P _ Hin) as (? & tk' & _ & Ht' & _ & _ & Hoc & Hrq & _).
      assert (tk' = tk) as -> by congruence. split; [congruence|auto].
    + rewrite (pl_rest _ _ _ _ _ _ _ P) in Ht by done. eapply good_task_same; [done|done|by apply (inv_task _ _ H)].
Qed.

Lemma inv_balance s ks c : inv s ks -> is_Some (ks !!z c) -> exists s', sched_balance c s = Some s' /\ inv s' ks.
Proof.
  intros H Hk. destruct (inv_queues _ _ H) as [qs Hq]. destruct (inv_cpus _ _ H _ Hk) as [rq Hc].
  destruct (balance_spec s qs c rq Hq Hc) as [(_ & _ & _ & _ & _ & E)|(src & srq & mv & s1 & qs' & _ & _ & _ & _ & P & E)].
  { by exists s. }
  eexists. split; [exact E|]. pose proof (inv_pulled _ _ _ _ _ _ _ _ H Hq P) as H1. destruct (_ =? _); [|done].
  eapply inv_same; [done|apply queues_upd_cpu; [apply P|done]|by apply same_cpus_upd|done].
Qed.

(** ** The sections of [schedule] *)

(** CPU [c], at [k], can take the step [f], which keeps the invariant. *)
Definition safe (s : sys) (ks : list core) (c : Z) (f : option (sys * core)) : Prop :=
  exists s' k', f = Some (s', k') /\ inv s' (zalter (fun _ => k') c ks).

Lemma zalter_same (ks : list core) c k : ks !!z c = Some k -> zalter (fun _ => k) c ks = ks.
Proof.
  intros Hk. apply zlookup_ext. intros i. destruct (decide (i = c)) as [->|].
  - rewrite zlookup_zalter, Hk. done.
  - by rewrite zlookup_zalter_ne.
Qed.

Lemma safe_stay s ks c k f :
  ks !!z c = Some k -> (exists s', f = Some s' /\ inv s' ks) -> safe s ks c (s ← f; Some (s, k)).
Proof. intros Hk (s' & -> & H). exists s', k. split; [done|]. by rewrite (zalter_same _ _ _ Hk). Qed.

Lemma at_core s ks c k t :
  inv s ks -> ks !!z c = Some k -> t ∈ owned k ->
  exists qs rq tk, queues s qs /\ percpu_data s !!z c = Some rq /\ tasks s !! t = Some tk /\ cpu tk = c /\
    (on_cpu tk = true \/ idle_task s t) /\ (idle_task s t <-> t = idle rq).
Proof.
  intros H Hk Ht. destruct (inv_queues _ _ H) as [qs Hq]. destruct (inv_cpus _ _ H c) as [rq Hc]; [by eexists|].
  destruct (gc_owned _ _ _ (inv_core _ _ H _ _ Hk) t Ht) as (tk & Htk & Hcpu & Ho). exists qs, rq, tk.
  split_and!; try done. by eapply idle_task_cur.
Qed.

(** A step that changes nothing but the current task, which stays on the CPU. *)
Lemma safe_cur s s' qs' ks c k k' tk tk' :
  inv s ks -> ks !!z c = Some k -> tasks s !! cur k = Some tk -> touches s s' qs' (cur k) tk tk' ->
  on_cpu tk' = true \/ on_cpu tk' = on_cpu tk ->
  at_ k = Run \/ at_ k = Entered \/ at_ k = Resuming -> cur k' = cur k ->
  (at_ k' = Run \/ at_ k' = Entered) /\ on_rq tk' = false \/ at_ k' = Requeued ->
  inv s' (zalter (fun _ => k') c ks).
Proof.
  intros H Hk Ht T Hoc Hat Hcur Hat'. destruct (at_core s ks c k (cur k) H Hk) as (qs & rq & tk0 & Hq & Hc & Ht0 & Hcpu & Hor & _); [left|].
  assert (tk0 = tk) as -> by congruence.
  assert (owned k = [cur k] /\ owned k' = [cur k]) as [Eo Eo'].
  { unfold owned. rewrite Hcur. split; [by destruct Hat as [-> |[-> | ->]]|by destruct Hat' as [[[-> | ->] _]| ->]]. }
  eapply (inv_own s s' qs' ks c k k'); try done; rewrite ?Eo'; [|rewrite Eo; auto|by right; left|by right; right; left].
  split.
  - rewrite Eo'. intros t ->%list_elem_of_singleton. exists tk'. rewrite (idle_task_same s s') by apply T.
    split_and!; [by eapply touches_get|by rewrite (tc_cpu _ _ _ _ _ _ T)|]. destruct Hor as [Ho|]; [|by right].
    left. destruct Hoc; congruence.
  - intros t tk1 Hu. assert (t = cur k) as -> by (apply unqueued_owned in Hu; rewrite Eo' in Hu; set_solver).
    rewrite (touches_get _ _ _ _ _ _ T). intros [= <-]. unfold unqueued in Hu.
    destruct Hat' as [[_ ?]|E]; [done|]. rewrite E in Hu. set_solver.
  - intros n tk1 E. destruct Hat' as [[[?|?] _]|?]; congruence.
  - intros p E. destruct Hat' as [[[?|?] _]|?]; congruence.
Qed.

Lemma enter_spec s qs cur c tk rq :
  queues s qs -> percpu_data s !!z c = Some rq -> tasks s !! cur = Some tk ->
  exists go s' tk', sched_enter cur c s = Some (go, s') /\ touches s s' qs cur tk tk' /\
    on_rq tk' = on_rq tk /\ (on_cpu tk' = true \/ on_cpu tk' = on_cpu tk).
Proof.
  intros Hq Hc Ht. unfold sched_enter. rewrite Hc. cbn [mbind option_bind].
  destruct (negb _); [exists false, s, tk; split_and!; auto; by apply touches_id|]. rewrite Ht. cbn [mbind option_bind].
  destruct (in_schedule tk); [exists false, s, tk; split_and!; auto; by apply touches_id|]. cbv zeta.
  pose proof (fun Ho => running_queued _ _ _ _ Hq Ht Ho) as Hr.
  assert (touches s (upd_task (set_in_schedule true) cur s) qs cur tk (set_in_schedule true tk)) as T1 by by apply set_touch; auto.
  assert (touches s (upd_task (set_on_cpu true) cur (upd_task (set_in_schedule true) cur s)) qs cur tk
    (set_on_cpu true (set_in_schedule true tk))) as T2.
  { eapply touches_trans; [exact T1|]. apply set_touch; try done; [apply T1|by eapply touches_get|]. simpl. auto. }
  unfold update_curr. simpl percpu_data. rewrite Hc. cbn [mbind option_bind].
  destruct (_ || _); [eexists true, _, _; split_and!; [done|exact T2|done|by left]|].
  rewrite (touches_get _ _ _ _ _ _ T2). cbn [mbind option_bind]. set (s2 := upd_task (set_on_cpu true) _ _) in *.
  set (v := vruntime _ +u 1). assert (touches s (upd_task (set_vruntime v) cur s2) qs cur tk
    (set_vruntime v (set_on_cpu true (set_in_schedule true tk)))) as T3.
  { eapply touches_trans; [exact T2|]. apply set_touch; try done; [apply T2|by eapply touches_get|]. simpl. auto. }
  eexists true, _, (set_vruntime v (set_on_cpu true (set_in_schedule true tk))).
  split_and!; [done| |done|by left]. destruct (_ <=? v); [|exact T3].
  eapply touches_cpus; [exact T3|apply queues_upd_cpu; [apply T3|done]|by apply same_cpus_upd|done].
Qed.

Lemma safe_enter s ks c k : inv s ks -> ks !!z c = Some k -> safe s ks c (act Enter c k s).
Proof.
  intros H Hk. destruct (at_ k) eqn:Ea; unfold act; rewrite Ea;
    try (exists s, k; split; [done|]; by rewrite (zalter_same _ _ _ Hk)).
  destruct (at_core s ks c k (cur k) H Hk) as (qs & rq & tk & Hq & Hc & Ht & Hcpu & _); [left|].
  destruct (enter_spec s qs (cur k) c tk rq Hq Hc Ht) as (go & s' & tk' & -> & T & Erq & Hoc). cbn [mbind option_bind].
  exists s', (mk_core (cur k) (if go then Entered else Run)). split; [done|]. eapply safe_cur; try done; [by left|].
  left. split; [destruct go; auto|]. rewrite Erq. eapply (gc_unqueued _ _ _ (inv_core _ _ H _ _ Hk)); [|done].
  unfold unqueued. rewrite Ea. left.
Qed.

Lemma safe_requeue s ks c k : inv s ks -> ks !!z c = Some k -> safe s ks c (act Requeue c k s).
Proof.
  intros H Hk. destruct (at_ k) eqn:Ea; unfold act; rewrite Ea;
    try (exists s, k; split; [done|]; by rewrite (zalter_same _ _ _ Hk)).
  destruct (at_core s ks c k (cur k) H Hk) as (qs & rq & tk & Hq & Hc & Ht & Hcpu & _); [left|].
  destruct (requeue_spec s qs (cur k) c tk rq Hq Ht Hcpu Hc) as (s' & qs' & tk' & -> & T & Eo & _). cbn [mbind option_bind].
  exists s', (mk_core (cur k) Requeued). split; [done|]. eapply safe_cur; try done; auto.
Qed.

Lemma safe_skip s ks c k : inv s ks -> ks !!z c = Some k -> safe s ks c (Some (s, k)).
Proof. intros H Hk. exists s, k. split; [done|]. by rewrite (zalter_same _ _ _ Hk). Qed.

Lemma good_picked s s' qs' ks c k n nk nk' :
  inv s ks -> ks !!z c = Some k -> tasks s !! n = Some nk -> cpu nk = c -> touches s s' qs' n nk nk' ->
  on_cpu nk' = true \/ idle_task s n -> on_rq nk' = false -> idle_task s n \/ state nk' = TASK_RUNNING ->
  good_core s' c (mk_core (cur k) (Picked n)).
Proof.
  intros H Hk Hn Hcpu T Ho Hrq Hr. pose proof (touches_get _ _ _ _ _ _ T) as Hn'. split.
  - intros t Ht. assert (t = n \/ t <> n /\ t = cur k) as [->|[Hne ->]].
    { unfold owned in Ht. simpl in Ht. rewrite !elem_of_cons, elem_of_nil in Ht. lia. }
    + exists nk'. by rewrite (tc_cpu _ _ _ _ _ _ T), (idle_task_same s s') by apply T.
    + rewrite (tc_tasks _ _ _ _ _ _ T), lookup_insert_ne by done.
      destruct (gc_owned _ _ _ (inv_core _ _ H _ _ Hk) (cur k)) as (ck & Hck & ? & ?); [left|].
      exists ck. by rewrite (idle_task_same s s') by apply T.
  - intros t tk ->%list_elem_of_singleton. congruence.
  - intros n' tk [= <-]. rewrite (idle_task_same s s') by apply T. rewrite Hn'. by intros [= <-].
  - done.
Qed.

Lemma safe_pick s ks c k : inv s ks -> ks !!z c = Some k -> safe s ks c (act Pick c k s).
Proof.
  intros H Hk. unfold act. destruct (at_ k) eqn:Ea; try by apply safe_skip.
  destruct (at_core s ks c k (cur k) H Hk) as (qs & rq & tk & Hq & Hc & _); [left|].
  destruct (sched_pick_spec s qs c rq Hq Hc) as (n & s' & -> & Hs & Hor). cbn [mbind option_bind].
  assert (exists qs' nk nk', tasks s !! n = Some nk /\ cpu nk = c /\ touches s s' qs' n nk nk' /\ on_rq nk' = false /\
    (on_cpu nk' = true \/ idle_task s n) /\ (idle_task s n \/ state nk' = TASK_RUNNING)) as
    (qs' & nk & nk' & Hn & Hcpu & T & Hrq & Ho & Hr).
  { destruct Hor as [(_ & -> & Hq' & Et)|(q & nk & nk' & Eq & Hn & T & Hrq & Ho & Est & _)].
    - destruct (q_idle _ _ Hq _ _ Hc) as (ik & Hi & Hic & Hir). assert (idle_task s (idle rq)) as Hit by by exists c, rq.
      exists qs, ik, ik. split_and!; auto. split; try done. by rewrite Et, insert_id.
    - destruct (q_in _ _ Hq c n) as (nk0 & Hn0 & _ & Hc0 & Hs0); [rewrite Eq; left|]. assert (nk0 = nk) as -> by congruence.
      exists (qset c q qs), nk, nk'. split_and!; auto. right. congruence. }
  exists s', (mk_core (cur k) (Picked n)). split; [done|].
  assert (owned (mk_core (cur k) (Picked n)) = [cur k; n]) as Eo by done.
  eapply (inv_own s s' qs' ks c k _ n nk nk'); try done; rewrite ?Eo.
  - by eapply good_picked.
  - intros x. unfold owned. rewrite Ea. set_solver.
  - set_solver.
  - set_solver.
Qed.

Lemma good_core_mono s c k k' :
  good_core s c k -> (forall t, t ∈ owned k' -> t ∈ owned k) -> (forall t, t ∈ unqueued k' -> t ∈ unqueued k) ->
  (forall n, at_ k' <> Picked n) -> (forall p, at_ k' = Switched p -> p <> cur k') -> good_core s c k'.
Proof.
  intros [H1 H2 _ _] Ho Hu Hp Hs. split; auto.
  - intros t tk Ht. by apply H2, Hu.
  - intros n tk E. by destruct (Hp n).
Qed.

Lemma commit_spec s qs cur c rq n nk :
  queues s qs -> percpu_data s !!z c = Some rq -> tasks s !! n = Some nk -> n = idle rq \/ state nk = TASK_RUNNING ->
  exists s' nk', sched_commit cur n c s = Some (n, s') /\ touches s s' qs n nk nk' /\
    on_rq nk' = on_rq nk /\ on_cpu nk' = on_cpu nk /\ state nk' = state nk.
Proof.
  intros Hq Hc Hn Hr. unfold sched_commit. rewrite Hc. cbn [mbind option_bind]. destruct (q_task _ _ Hq _ _ Hn) as (Hn0 & _).
  rewrite (proj2 (Z.eqb_neq n 0) Hn0), Hn. cbn [mbind option_bind].
  assert ((if state nk =? TASK_RUNNING then n else idle rq) = n) as -> by (destruct (Z.eqb_spec (state nk) TASK_RUNNING); intuition).
  rewrite (proj2 (Z.eqb_neq n 0) Hn0), Hn. cbn [mbind option_bind].
  assert (forall b : bool, touches s (if b then upd_cpu (set_min_vruntime (vruntime nk)) c s else s) qs n nk nk) as Hm.
  { intros []; [|by apply touches_id]. eapply touches_cpus; [by apply touches_id|by apply queues_upd_cpu|by apply same_cpus_upd|done]. }
  destruct (Z.eqb_spec n cur) as [<-|Hne]; cbv zeta; [|eexists _, nk; split; [done|]; split_and!; [apply Hm|done..]].
  eexists _, (set_in_schedule false nk). split; [done|]. split_and!; try done. eapply touches_trans; [apply Hm|].
  apply set_touch; try done; [apply Hm|by eapply touches_get, Hm|]. intros Ho. split_and!; try done. exact (running_queued s qs n nk Hq Hn Ho).
Qed.

Lemma safe_commit s ks c k : inv s ks -> ks !!z c = Some k -> safe s ks c (act Commit c k s).
Proof.
  intros H Hk. unfold act. destruct (at_ k) as [| | |n| |] eqn:Ea; try by apply safe_skip.
  assert (owned k = [cur k; n] /\ unqueued k = [n]) as [Eo Eu] by (unfold owned, unqueued; by rewrite Ea).
  destruct (at_core s ks c k n H Hk) as (qs & rq & nk & Hq & Hc & Hn & Hcpu & Ho & Hi); [rewrite Eo; set_solver|].
  pose proof (inv_core _ _ H _ _ Hk) as G. pose proof (gc_pick _ _ _ G n nk Ea Hn) as Hr. rewrite Hi in Hr.
  destruct (commit_spec s qs (cur k) c rq n nk Hq Hc Hn Hr) as (s' & nk' & -> & T & Erq & Eoc & Est). cbn [mbind option_bind].
  set (k' := if n =? cur k then _ else _).
  assert (forall t, t ∈ owned k' <-> t ∈ owned k) as Eow.
  { rewrite Eo. unfold k', owned. destruct (Z.eqb_spec n (cur k)) as [->|]; simpl; set_solver. }
  exists s', k'. split; [done|]. eapply (inv_own s s' qs ks c k k' n nk nk'); try done.
  - eapply good_core_touch; [done..| |rewrite Eow, Erq, Eoc, Est; auto]. eapply good_core_mono; [done|naive_solver|..].
    + rewrite Eu. unfold k', unqueued. by destruct (_ =? _).
    + intros n'. unfold k'. by destruct (_ =? _).
    + intros p. unfold k'. destruct (Z.eqb_spec n (cur k)); simpl; [done|]. by intros [= <-].
  - intros x Hx. left. by rewrite Eow.
  - intros _. right. rewrite Eow, Eo. set_solver.
  - intros _. right. right. rewrite Eow, Eo. set_solver.
Qed.

Lemma safe_finish s ks c k : inv s ks -> ks !!z c = Some k -> safe s ks c (act Finish c k s).
Proof.
  intros H Hk. unfold act. destruct (at_ k) as [| | | |p|] eqn:Ea; try by apply safe_skip.
  assert (owned k = [cur k; p] /\ unqueued k = [cur k]) as [Eo Eu] by (unfold owned, unqueued; by rewrite Ea).
  destruct (at_core s ks c k p H Hk) as (qs & rq & tk & Hq & Hc & Ht & Hcpu & Ho & Hi); [rewrite Eo; set_solver|].
  pose proof (inv_core _ _ H _ _ Hk) as G. pose proof (gc_switch _ _ _ G p Ea) as Hne.
  destruct (finish_switch_spec c s qs p tk rq Hq Ht) as (s' & qs' & tk' & -> & T & Eoc & Est & Erq); [by rewrite Hcpu|].
  cbn [mbind option_bind]. exists s', (mk_core (cur k) Resuming). split; [done|].
  eapply (inv_own s s' qs' ks c k _ p tk tk'); try done.
  - eapply good_core_touch; [done..| |unfold owned; simpl; set_solver]. eapply good_core_mono; [done|..]; try done.
    + rewrite Eo. unfold owned. simpl. set_solver.
    + by rewrite Eu.
  - intros x. rewrite Eo. unfold owned. simpl. set_solver.
  - congruence.
  - intros Hr. rewrite Est in Hr. rewrite Hi, Erq, Hr. simpl. destruct (Z.eqb_spec p (idle rq)); [by left|right; left].
    by rewrite orb_true_r.
Qed.

(** ** Blocking, resuming and exiting *)

(** A chain of writes to the current task, which is not queued. *)
Lemma chain_touch s qs s1 t tk tk1 f :
  touches s s1 qs t tk tk1 -> on_rq tk = false -> on_rq tk1 = false -> on_rq (f tk1) = false -> cpu (f tk1) = cpu tk1 ->
  allowed_cpus (f tk1) = allowed_cpus tk1 -> touches s (upd_task f t s1) qs t tk (f tk1).
Proof.
  intros T H0 H1 H2 Hc Ha. eapply touches_trans; [exact T|]. apply set_touch; try done; [apply T|by eapply touches_get|congruence|congruence].
Qed.

Lemma sleep_spec s qs t tk ty fn w c1 c2 :
  queues s qs -> tasks s !! t = Some tk -> on_rq tk = false ->
  exists r s' tk', blocker_wait_begin t ty fn w c1 c2 s = Some (r, s') /\ touches s s' qs t tk tk' /\
    on_rq tk' = false /\ on_cpu tk' = on_cpu tk.
Proof.
  intros Hq Ht Ho. pose proof (touches_id s qs t tk Hq Ht) as T0. unfold blocker_wait_begin.
  destruct (negb fn); [by eexists _, s, tk|]. destruct c1; [by eexists _, s, tk|]. rewrite Ht. cbn [mbind option_bind]. cbv zeta.
  pose proof (chain_touch _ _ _ _ _ _ (set_blocker ty true w) T0 Ho Ho Ho eq_refl eq_refl) as T1.
  pose proof (chain_touch _ _ _ _ _ _ (set_state TASK_INTERRUPTIBLE) T1 Ho Ho Ho eq_refl eq_refl) as T2.
  destruct c2; [|eexists _, _, _; split_and!; [done|exact T2|done..]].
  pose proof (chain_touch _ _ _ _ _ _ (set_blocker BLOCKER_NONE false w) T2 Ho Ho Ho eq_refl eq_refl) as T3.
  pose proof (chain_touch _ _ _ _ _ _ (set_state TASK_RUNNING) T3 Ho Ho Ho eq_refl eq_refl) as T4.
  eexists _, _, _. split_and!; [done|exact T4|done..].
Qed.

Lemma awake_spec s qs t tk w c3 :
  queues s qs -> tasks s !! t = Some tk -> on_rq tk = false ->
  exists r s' tk', blocker_wait_end t w c3 s = Some (r, s') /\ touches s s' qs t tk tk' /\
    on_rq tk' = false /\ on_cpu tk' = on_cpu tk.
Proof.
  intros Hq Ht Ho. pose proof (touches_id s qs t tk Hq Ht) as T0. unfold blocker_wait_end. rewrite Ht. cbn [mbind option_bind]. cbv zeta.
  pose proof (chain_touch _ _ _ _ _ _ (set_blocker BLOCKER_NONE false (signal_can_wake tk)) T0 Ho Ho Ho eq_refl eq_refl) as T1.
  pose proof (chain_touch _ _ _ _ _ _ (set_state TASK_RUNNING) T1 Ho Ho Ho eq_refl eq_refl) as T2.
  eexists _, _, _. split_and!; [done|exact T2|done..].
Qed.

(** An event outside [schedule] that changes only the current task. *)
Lemma safe_run {R} s ks c k (f : sys -> option (R * sys)) :
  inv s ks -> ks !!z c = Some k -> at_ k = Run \/ at_ k = Resuming ->
  (forall qs tk, queues s qs -> tasks s !! cur k = Some tk -> on_rq tk = false ->
     exists r s' tk', f s = Some (r, s') /\ touches s s' qs (cur k) tk tk' /\ on_rq tk' = false /\
       (on_cpu tk' = true \/ on_cpu tk' = on_cpu tk)) ->
  safe s ks c ('(_, s) ← f s; Some (s, mk_core (cur k) Run)).
Proof.
  intros H Hk Ha Hf. destruct (at_core s ks c k (cur k) H Hk) as (qs & rq & tk & Hq & Hc & Ht & _); [left|].
  assert (on_rq tk = false) as Ho.
  { eapply (gc_unqueued _ _ _ (inv_core _ _ H _ _ Hk)); [|done]. unfold unqueued. destruct Ha as [-> | ->]; left. }
  destruct (Hf qs tk Hq Ht Ho) as (r & s' & tk' & -> & T & Ho' & Hc'). cbn [mbind option_bind].
  exists s', (mk_core (cur k) Run). split; [done|]. eapply safe_cur; try done; [tauto|by left; auto].
Qed.

Lemma safe_sleep s ks c k ty fn w c1 c2 : inv s ks -> ks !!z c = Some k -> safe s ks c (act (Sleep ty fn w c1 c2) c k s).
Proof.
  intros H Hk. unfold act. destruct (at_ k) eqn:Ea; try by apply safe_skip.
  destruct k as [cu a]. simpl in Ea. subst a. apply (safe_run s ks c (mk_core cu Run) (blocker_wait_begin cu ty fn w c1 c2)); auto.
  intros qs tk Hq Ht Ho. destruct (sleep_spec s qs cu tk ty fn w c1 c2 Hq Ht Ho) as (r & s' & tk' & ? & ? & ? & ?).
  exists r, s', tk'. auto.
Qed.
Lemma safe_awake s ks c k w c3 : inv s ks -> ks !!z c = Some k -> safe s ks c (act (Awake w c3) c k s).
Proof.
  intros H Hk. unfold act. destruct (at_ k) eqn:Ea; try by apply safe_skip.
  destruct k as [cu a]. simpl in Ea. subst a. apply (safe_run s ks c (mk_core cu Run) (blocker_wait_end cu w c3)); auto.
  intros qs tk Hq Ht Ho. destruct (awake_spec s qs cu tk w c3 Hq Ht Ho) as (r & s' & tk' & ? & ? & ? & ?).
  exists r, s', tk'. auto.
Qed.
Lemma safe_exit s ks c k : inv s ks -> ks !!z c = Some k -> safe s ks c (act Exit c k s).
Proof.
  intros H Hk. unfold act. destruct (at_ k) eqn:Ea; try by apply safe_skip.
  destruct k as [cu a]. simpl in Ea. subst a.
  destruct (safe_run s ks c (mk_core cu Run) (fun s => s ← task_exit_zombie cu s; Some (tt, s))) as (s' & k' & E & Hi); auto.
  - intros qs tk Hq Ht Ho. unfold task_exit_zombie. simpl in Ht. rewrite Ht. cbn [mbind option_bind]. pose proof (touches_id s qs _ tk Hq Ht) as T0.
    pose proof (chain_touch _ _ _ _ _ _ (set_state TASK_ZOMBIE) T0 Ho Ho Ho eq_refl eq_refl) as T1.
    eexists _, _, _. split_and!; [done|exact T1|done|by right].
  - exists s', k'. split; [|done]. simpl in E |- *. rewrite <- E. by destruct (task_exit_zombie cu s).
Qed.
Lemma safe_resume s ks c k : inv s ks -> ks !!z c = Some k -> safe s ks c (act Resume c k s).
Proof.
  intros H Hk. unfold act. destruct (at_ k) eqn:Ea; try by apply safe_skip.
  destruct (safe_run s ks c k (fun s => s ← sched_resume (cur k) s; Some (tt, s))) as (s' & k' & E & Hi); auto.
  - intros qs tk Hq Ht Ho. unfold sched_resume. rewrite Ht. cbn [mbind option_bind]. pose proof (touches_id s qs _ tk Hq Ht) as T0.
    pose proof (chain_touch _ _ _ _ _ _ (set_on_cpu true) T0 Ho Ho Ho eq_refl eq_refl) as T1.
    pose proof (chain_touch _ _ _ _ _ _ (set_in_schedule false) T1 Ho Ho Ho eq_refl eq_refl) as T2.
    eexists _, _, _. split_and!; [done|exact T2|done|by left].
  - exists s', k'. split; [|done]. rewrite <- E. by destruct (sched_resume (cur k) s).
Qed.

(** ** Wake-ups by other tasks *)

Lemma inv_signal_parent s ks ready me child signals :
  inv s ks -> valid (SignalParent ready child signals) s ->
  exists s', task_signal_parent ready me child signals s = Some s' /\ inv s' ks.
Proof.
  intros H (ck & Hck & Hp). unfold task_signal_parent. rewrite Hck. cbn [mbind option_bind].
  destruct (Z.eqb_spec (parent ck) 0) as [|Hp0]; [by exists s|]. destruct Hp as [?|[pk Hpk]]; [done|].
  rewrite Hpk. cbn [mbind option_bind]. destruct (_ =? 0); [|by exists s].
  destruct (inv_quiet s ks (set_signal (Z.lor (signal pk) signals)) (parent ck) pk H Hpk eq_refl) as [H1 Ht1].
  destruct (inv_blocker_wake _ _ ready me (parent ck) H1) as (s' & E & H' & _); [by eexists|]. by exists s'.
Qed.

Lemma inv_wake_parent s ks me child :
  inv s ks -> valid (WakeParent child) s -> exists s', task_wake_parent me child s = Some s' /\ inv s' ks.
Proof.
  intros H (ck & Hck & Hp). unfold task_wake_parent. rewrite Hck. cbn [mbind option_bind].
  destruct (Z.eqb_spec (parent ck) 0) as [|Hp0]; [by exists s|]. destruct Hp as [?|[pk Hpk]]; [done|].
  rewrite Hpk. cbn [mbind option_bind]. destruct (_ || _); [|by exists s].
  destruct (inv_wake s ks me (parent ck) H) as (s' & E & H' & _); [by eexists|]. by exists s'.
Qed.

(** Every valid step is safe. *)
Lemma safe_act e s ks c k : inv s ks -> ks !!z c = Some k -> valid e s -> safe s ks c (act e c k s).
Proof.
  intros H Hk Hv. destruct e as [| |rd| | | | | |t|rd t|rd child signals|child|ty fn w c1 c2|w c3|];
    [by apply safe_enter|by apply safe_requeue| | |by apply safe_pick|by apply safe_commit|by apply safe_finish|by apply safe_resume
    | | | | |by apply safe_sleep|by apply safe_awake|by apply safe_exit].
  - unfold act. destruct (at_ k) eqn:Ea; try by apply safe_skip. apply safe_stay; [done|]. apply inv_scan; [done|apply H].
  - unfold act. destruct (at_ k) eqn:Ea; try by apply safe_skip. apply safe_stay; [done|]. apply inv_balance; [done|by eexists].
  - destruct (inv_wake s ks c t H Hv) as (s' & E & H' & _). apply (safe_stay s ks c k (task_wake c t s)); eauto.
  - apply (safe_stay s ks c k (blocker_wake rd c t s)); [done|]. unfold blocker_wake.
    destruct (Z.eqb_spec t 0); [by exists s|]. destruct Hv as [?|Hv]; [done|].
    destruct (inv_blocker_wake s ks rd c t H Hv) as (s' & E & H' & _). by exists s'.
  - apply (safe_stay s ks c k (task_signal_parent rd c child signals s)); [done|]. by apply inv_signal_parent.
  - apply (safe_stay s ks c k (task_wake_parent c child s)); [done|]. by apply inv_wake_parent.
Qed.

Lemma step_safe w c e :
  inv (kernel w) (cores w) -> is_Some (cores w !!z c) -> valid e (kernel w) ->
  exists w', step (c, e) w = Some w' /\ inv (kernel w') (cores w').
Proof.
  intros H [k Hk] Hv. destruct (safe_act e _ _ c k H Hk Hv) as (s' & k' & E & H'). unfold step. simpl. rewrite Hk.
  cbn [mbind option_bind]. rewrite E. cbn [mbind option_bind]. by eexists.
Qed.

Lemma steps_inv w es w' : steps w es w' -> inv (kernel w) (cores w) -> inv (kernel w') (cores w').
Proof.
  induction 1 as [w|w es w1 c e w2 _ IH Hc Hv E]; [done|]. intros H. destruct (step_safe w1 c e (IH H) Hc Hv) as (w' & E' & H').
  by assert (w' = w2) as <- by congruence.
Qed.

(** ** Correctness *)

(** C8: whatever the order in which the CPUs run the sections of [schedule],
    wake tasks, balance the queues, and block or end their tasks, no check of
    the scheduler fails and no bad pointer is followed: the next event of any
    CPU always has a result. *)
Theorem sched_never_fails w es w' c e :
  inv (kernel w) (cores w) -> steps w es w' -> is_Some (cores w' !!z c) -> valid e (kernel w') ->
  exists w'', step (c, e) w' = Some w''.
Proof.
  intros H Hs Hc Hv. destruct (step_safe w' c e (steps_inv _ _ _ Hs H) Hc Hv) as (w'' & E & _). by exists w''.
Qed.

(** C6: in every execution no task is ever on two CPUs (as the current task, the
    chosen next task, or the outgoing task whose stack is still in use), and a
    task that another CPU uses is on no run queue of this CPU. *)
Theorem sched_exclusive w es w' :
  inv (kernel w) (cores w) -> steps w es w' ->
  exists qs, queues (kernel w') qs /\
    (forall c1 c2 k1 k2 t, cores w' !!z c1 = Some k1 -> cores w' !!z c2 = Some k2 ->
       t ∈ owned k1 -> t ∈ owned k2 \/ t ∈ qs c2 -> c1 = c2) /\
    (forall c k, cores w' !!z c = Some k -> at_ k = Run -> cur k ∉ qs c).
Proof.
  intros H0 Hs. pose proof (steps_inv _ _ _ Hs H0) as H. destruct (inv_queues _ _ H) as [qs Hq]. exists qs. split; [done|]. split.
  - intros c1 c2 k1 k2 t Hk1 Hk2 Ht [Ht2|Ht2]; destruct (gc_owned _ _ _ (inv_core _ _ H _ _ Hk1) t Ht) as (tk & E & <- & _).
    + by eapply owner_cpu; [done|exists k2|].
    + destruct (q_in _ _ Hq _ _ Ht2) as (tk2 & E2 & _ & <- & _). congruence.
  - intros c k Hk Ha Hin. destruct (q_in _ _ Hq _ _ Hin) as (tk & Ht & Ho & _).
    rewrite (gc_unqueued _ _ _ (inv_core _ _ H _ _ Hk) (cur k) tk) in Ho; [done| |done]. unfold unqueued. rewrite Ha. left.
Qed.

(** C7: in every execution no runnable task is lost: a task in state
    [TASK_RUNNING] other than an idle task is on the run queue of its CPU, or
    that CPU runs it, has chosen it, or is switching away from it (and then
    requeues it). *)
Theorem sched_no_lost_task w es w' :
  inv (kernel w) (cores w) -> steps w es w' ->
  exists qs, queues (kernel w') qs /\
    forall t tk, tasks (kernel w') !! t = Some tk -> state tk = TASK_RUNNING -> ~ idle_task (kernel w') t ->
      t ∈ qs (cpu tk) \/ owner (cores w') t (cpu tk).
Proof.
  intros H0 Hs. pose proof (steps_inv _ _ _ Hs H0) as H. destruct (inv_queues _ _ H) as [qs Hq]. exists qs. split; [done|].
  intros t tk Ht Hr Hi. destruct (gt_run _ _ _ _ (inv_task _ _ H _ _ Ht) Hr) as [?|[Ho|?]]; [done|left|by right].
  by apply (q_out _ _ Hq).
Qed.

(** The fallback for a chosen task that is not runnable is never taken:
    a task that was chosen is still runnable when [schedule] commits to it, even
    if other CPUs ran in between, and it is the task that runs next. *)
Theorem sched_pick_committed w es w' c k n :
  inv (kernel w) (cores w) -> steps w es w' -> cores w' !!z c = Some k -> at_ k = Picked n ->
  exists s' w'' k'', sched_commit (cur k) n c (kernel w') = Some (n, s') /\ step (c, Commit) w' = Some w'' /\
    cores w'' !!z c = Some k'' /\ cur k'' = n.
Proof.
  intros H0 Hs Hk Ha. pose proof (steps_inv _ _ _ Hs H0) as H. pose proof (inv_core _ _ H _ _ Hk) as G.
  destruct (at_core _ _ c k n H Hk) as (qs & rq & nk & Hq & Hc & Hn & _ & _ & Hi); [unfold owned; rewrite Ha; set_solver|].
  pose proof (gc_pick _ _ _ G n nk Ha Hn) as Hr. rewrite Hi in Hr.
  destruct (commit_spec _ qs (cur k) c rq n nk Hq Hc Hn Hr) as (s' & nk' & E & _). exists s'.
  unfold step. simpl. rewrite Hk. cbn [mbind option_bind]. unfold act. rewrite Ha, E. cbn [mbind option_bind].
  eexists _, (if n =? cur k then mk_core n Run else mk_core n (Switched (cur k))). split; [done|]. split; [done|].
  simpl. rewrite zlookup_zalter, Hk. split; [done|]. by destruct (_ =? _).
Qed.

(** One more section of CPU [c]. *)
Lemma act_inv w c k e :
  inv (kernel w) (cores w) -> cores w !!z c = Some k -> valid e (kernel w) ->
  exists k' w', act e c k (kernel w) = Some (kernel w', k') /\ cores w' !!z c = Some k' /\ inv (kernel w') (cores w').
Proof.
  intros H Hk Hv. destruct (safe_act e _ _ c k H Hk Hv) as (s' & k' & Ea & _).
  set (w' := mk_world s' (zalter (fun _ => k') c (cores w))). exists k', w'. split; [done|].
  assert (step (c, e) w = Some w') as E by (unfold step; simpl; rewrite Hk; cbn [mbind option_bind]; by rewrite Ea).
  split; [simpl; by rewrite zlookup_zalter, Hk|]. destruct (step_safe w c e H) as (w2 & E2 & H2); [by eexists|done|].
  by assert (w2 = w') as <- by congruence.
Qed.

(** An uninterrupted call of [schedule] on CPU [c].  It returns at once if the
    CPU does not schedule yet or the call is nested.  Otherwise it has a result,
    the invariant of all CPUs holds again, and CPU [c] either runs its current
    task, outside [schedule], or is switching away from it to the result. *)
Theorem schedule_correct w c k rq tk ready scan :
  inv (kernel w) (cores w) -> cores w !!z c = Some k -> at_ k = Run ->
  percpu_data (kernel w) !!z c = Some rq -> tasks (kernel w) !! cur k = Some tk ->
  if negb (scheduler_ok rq) || in_schedule tk then schedule ready scan (cur k) c (kernel w) = Some (cur k, kernel w)
  else exists n w', schedule ready scan (cur k) c (kernel w) = Some (n, kernel w') /\ inv (kernel w') (cores w') /\
    cores w' !!z c = Some (if n =? cur k then mk_core n Run else mk_core n (Switched (cur k))).
Proof.
  intros H Hk Ha Hrq Htk. destruct (_ || _) eqn:Hg.
  { unfold schedule, sched_enter. rewrite Hrq, Htk. cbn [mbind option_bind].
    destruct (scheduler_ok rq); [simpl in Hg; by rewrite Hg|done]. }
  unfold schedule. destruct (act_inv w c k Enter H Hk I) as (k1 & w1 & E1 & Hk1 & H1).
  unfold act in E1. rewrite Ha in E1. apply bind_Some in E1 as ([go s1] & Ee & [= -> <-]). rewrite Ee. cbn [mbind option_bind].
  assert (go = true) as ->.
  { unfold sched_enter in Ee. rewrite Hrq, Htk in Ee. cbn [mbind option_bind] in Ee. apply orb_false_iff in Hg as [Hok%negb_false_iff Hg].
    rewrite Hok, Hg in Ee. by apply bind_Some in Ee as (? & _ & [= <- _]). }
  simpl negb. cbn iota. destruct (act_inv w1 c _ Requeue H1 Hk1 I) as (k2 & w2 & E2 & Hk2 & H2).
  apply bind_Some in E2 as (s2 & Er & [= -> <-]). simpl in Er. rewrite Er. cbn [mbind option_bind].
  assert (exists w3, (if scan then sched_unblock_blocked ready c (kernel w2) else Some (kernel w2)) = Some (kernel w3) /\
    cores w3 !!z c = Some (mk_core (cur k) Requeued) /\ inv (kernel w3) (cores w3)) as (w3 & E3 & Hk3 & H3).
  { destruct scan; [|by exists w2]. destruct (act_inv w2 c _ (Scan ready) H2 Hk2 I) as (k3 & w3 & E3 & Hk3 & H3).
    apply bind_Some in E3 as (s3 & Er3 & [= -> <-]). by exists w3. }
  rewrite E3. cbn [mbind option_bind]. destruct (act_inv w3 c _ Balance H3 Hk3 I) as (k4 & w4 & E4 & Hk4 & H4).
  apply bind_Some in E4 as (s4 & Er4 & [= -> <-]). rewrite Er4. cbn [mbind option_bind].
  destruct (act_inv w4 c _ Pick H4 Hk4 I) as (k5 & w5 & E5 & Hk5 & H5).
  apply bind_Some in E5 as ([n5 s5] & Er5 & [= -> <-]). rewrite Er5. cbn [mbind option_bind].
  destruct (act_inv w5 c _ Commit H5 Hk5 I) as (k6 & w6 & E6 & Hk6 & H6).
  apply bind_Some in E6 as ([n6 s6] & Er6 & [= -> <-]). simpl in Er6. rewrite Er6. by exists n6, w6.
Qed.

(** ** A concrete execution

    Both CPUs of the system [demo] run their idle tasks; CPU 0 then schedules. *)

Definition demo_world : world := mk_world demo [mk_core 101 Run; mk_core 102 Run].
Definition demo_trace : list (Z * event) :=
  [(0, Enter); (0, Requeue); (1, Wake 203); (0, Balance); (0, Pick); (0, Commit)].

Lemma demo_tasks :
  tasks demo = <[202 := queued (demo_task 3 1 7 TASK_RUNNING)]> (<[201 := queued (demo_task 2 1 5 TASK_RUNNING)]> (tasks demo_idle)).
Proof. vm_compute. reflexivity. Qed.

Lemma demo_inv : inv (kernel demo_world) (cores demo_world).
Proof.
  destruct demo_queues as [qs Hq].
  assert (forall i, i = 101 \/ i = 102 -> idle_task demo i) as Hidle.
  { intros i [-> | ->]; [exists 0|exists 1]; eexists; (split; [vm_compute; reflexivity|reflexivity]). }
  assert (forall c k, cores demo_world !!z c = Some k -> (c = 0 /\ k = mk_core 101 Run) \/ (c = 1 /\ k = mk_core 102 Run)) as Hk.
  { intros c k [[-> ->]|[Hc E]]%zlookup_cons_inv; [by left|right]. apply zlookup_cons_inv in E as [[Ec ->]|[Hc2 E]].
    - split; [lia|done].
    - apply zlookup_some_range in E. unfold zlen in E. simpl in E. lia. }
  split.
  - by exists qs.
  - simpl kernel. assert (task_list demo = [201; 202; 203]) as -> by (vm_compute; reflexivity). rewrite demo_tasks. intros t Ht.
    rewrite !elem_of_cons, elem_of_nil in Ht. destruct Ht as [->|[->|[->|[]]]]; vm_compute; by eexists.
  - intros c [k [[-> _]|[-> _]]%Hk]; vm_compute; by eexists.
  - intros c k [[-> ->]|[-> ->]]%Hk.
    all: split; [|intros t tk ->%list_elem_of_singleton; simpl kernel; rewrite demo_tasks; vm_compute; by intros [= <-]|done..].
    all: intros t ->%list_elem_of_singleton; eexists; (split; [simpl kernel; rewrite demo_tasks; vm_compute; reflexivity|]).
    all: split; [reflexivity|right; apply Hidle; auto].
  - intros t tk. simpl kernel. rewrite demo_tasks, !lookup_insert. intros Ht. repeat case_decide; simplify_eq/=.
    1,2: split; simpl; auto; congruence.
    destruct (demo_task_cases (fun t tk => on_cpu tk = false /\ (t = 101 \/ t = 102 \/ t = 201 \/ t = 202 \/ state tk = 2))
      ltac:(repeat first [apply Forall_nil_2|apply Forall_cons_2; [vm_compute; by auto 10|]]) t tk Ht) as [Ho Hor].
    split; [congruence|]. intros Hr. left. apply Hidle. destruct Hor as [?|[?|[?|[?|?]]]]; auto; congruence.
Qed.

#[export] Instance valid_dec e s : Decision (valid e s).
Proof.
  destruct e; simpl; try apply _.
  all: destruct (tasks s !! child) as [ck|]; [|right; naive_solver].
  all: destruct (decide (parent ck = 0 \/ is_Some (tasks s !! parent ck))); [left; eauto|right; naive_solver].
Defined.

Fixpoint exec (es : list (Z * event)) (w : world) : option world :=
  match es with
  | [] => Some w
  | (c, e) :: es => if decide (is_Some (cores w !!z c) /\ valid e (kernel w)) then w ← step (c, e) w; exec es w else None
  end.

Lemma exec_steps es : forall w0 es0 w w', steps w0 es0 w -> exec es w = Some w' -> steps w0 (es0 ++ es) w'.
Proof.
  induction es as [|[c e] es IH]; intros w0 es0 w w' Hs; simpl.
  - intros [= <-]. by rewrite app_nil_r.
  - case_decide as Hv; [|done]. intros (w1 & E & Ee)%bind_Some.
    replace (es0 ++ (c, e) :: es) with ((es0 ++ [(c, e)]) ++ es) by by rewrite <- app_assoc.
    eapply IH; [|done]. eapply steps_snoc; [done|apply Hv..|done].
Qed.

(** After the trace CPU 0 is switching from its idle task to task 203, which
    CPU 1 woke meanwhile. *)
Definition demo_picked : world := default demo_world (exec (take 5 demo_trace) demo_world).
Definition demo_end : world := default demo_world (exec demo_trace demo_world).

Lemma demo_steps : steps demo_world (take 5 demo_trace) demo_picked /\ steps demo_world demo_trace demo_end.
Proof. split; (apply (exec_steps _ demo_world [] demo_world); [apply steps_nil|vm_compute; reflexivity]). Qed.

Lemma sched_never_fails_witness : exists w, step (0, Finish) demo_end = Some w.
Proof.
  apply (sched_never_fails demo_world demo_trace demo_end 0 Finish demo_inv (proj2 demo_steps)); [vm_compute; by eexists|exact I].
Defined.

Lemma sched_exclusive_witness :
  cores demo_end = [mk_core 203 (Switched 101); mk_core 102 Run] /\ exists qs, queues (kernel demo_end) qs /\ 203 ∉ qs 1.
Proof.
  split; [vm_compute; reflexivity|].
  destruct (sched_exclusive demo_world demo_trace demo_end demo_inv (proj2 demo_steps)) as (qs & Hq & Hex & _).
  exists qs. split; [exact Hq|]. intros Hin.
  assert (cores demo_end = [mk_core 203 (Switched 101); mk_core 102 Run]) as E by (vm_compute; reflexivity). rewrite E in Hex.
  discriminate (Hex 0 1 _ _ 203 eq_refl eq_refl (list_elem_of_here _ _) (or_intror Hin)).
Defined.

Lemma idle_pair c : [101; 102] !!z c = Some 202 -> False.
Proof.
  intros [[_ E]|[_ E]]%zlookup_cons_inv; [done|]. apply zlookup_cons_inv in E as [[_ E]|[_ E]]; [done|].
  apply zlookup_some_range in E. unfold zlen in E. simpl in E. lia.
Qed.

Lemma sched_no_lost_task_witness : exists qs, queues (kernel demo_end) qs /\ (202 ∈ qs 1 \/ owner (cores demo_end) 202 1).
Proof.
  destruct (sched_no_lost_task demo_world demo_trace demo_end demo_inv (proj2 demo_steps)) as (qs & Hq & Hl).
  exists qs. split; [exact Hq|]. destruct (tasks (kernel demo_end) !! 202) as [tk|] eqn:Et; [|by vm_compute in Et].
  specialize (Hl 202 tk Et). assert (state tk = TASK_RUNNING /\ cpu tk = 1) as [Hs Hc] by (revert Et; vm_compute; by intros [= <-]).
  rewrite Hc in Hl. apply Hl; [exact Hs|]. intros (c & rq & Hrq & Hi).
  assert ((idle <$> percpu_data (kernel demo_end)) !!z c = Some 202) as E by (by rewrite zlookup_fmap, Hrq, <- Hi).
  assert (idle <$> percpu_data (kernel demo_end) = [101; 102]) as El by (vm_compute; reflexivity). rewrite El in E.
  exact (idle_pair c E).
Defined.

Lemma sched_pick_committed_witness :
  exists s w k, sched_commit 101 203 0 (kernel demo_picked) = Some (203, s) /\ step (0, Commit) demo_picked = Some w /\ cores w !!z 0 = Some k /\ cur k = 203.
Proof.
  apply (sched_pick_committed demo_world (take 5 demo_trace) demo_picked 0 (mk_core 101 (Picked 203)) 203 demo_inv (proj1 demo_steps));
    [vm_compute; reflexivity|reflexivity].
Defined.

Lemma schedule_correct_witness :
  exists n w', schedule (fun _ => false) true 101 0 (kernel demo_world) = Some (n, kernel w') /\ inv (kernel w') (cores w') /\ n <> 101.
Proof.
  destruct (percpu_data (kernel demo_world) !!z 0) as [rq|] eqn:Hrq; [|by vm_compute in Hrq].
  destruct (tasks (kernel demo_world) !! 101) as [tk|] eqn:Htk; [|by vm_compute in Htk].
  pose proof (schedule_correct demo_world 0 (mk_core 101 Run) rq tk (fun _ => false) true demo_inv eq_refl eq_refl Hrq Htk) as H.
  replace (negb (scheduler_ok rq) || in_schedule tk) with false in H
    by (revert Hrq Htk; vm_compute; by intros [= <-] [= <-]).
  destruct H as (n & w' & E & Hi & _). exists n, w'. split; [exact E|]. split; [exact Hi|].
  intros ->. apply (f_equal (fmap fst)) in E. vm_compute in E. discriminate.
Defined.

End SchedSafe.
