(* ===== verification/ElfLayout.v ===== *)
(** The ELF load-layout validator (src/kernel/fs/elf_layout.c), against a
    specification that says which images are loadable. *)

From stdpp Require Import base tactics numbers option sets list.
From Stdlib Require Import ZArith Lia.
From S2P Require Import Prelude.

Module ElfLayout.

(** ** The code *)

Abbreviation USER_CODE_ADDR := 4194304 (only parsing).
(** 0x203ff000 *)
Abbreviation HEAP_LIMIT := 541061120 (only parsing).
Abbreviation PT_LOAD := 1 (only parsing).
Abbreviation PF_X := 1 (only parsing).
Abbreviation ET_EXEC := 2 (only parsing).
Abbreviation EM_X86_64 := 62 (only parsing).
Abbreviation sizeof_phdr := 56 (only parsing).
Abbreviation MAX_LOAD_SEGMENTS := 32 (only parsing).

(** The fields of [elf64_ehdr_t] the validator reads; [e_ident] is the
    identification array. *)
Record elf64_ehdr_t := mk_ehdr {
  e_ident : list Z;
  e_type : Z;
  e_machine : Z;
  e_entry : Z;
  e_phoff : Z;
  e_phentsize : Z;
  e_phnum : Z;
}.

Record elf64_phdr_t := mk_phdr {
  p_type : Z;
  p_flags : Z;
  p_offset : Z;
  p_vaddr : Z;
  p_filesz : Z;
  p_memsz : Z;
}.

Record elf_layout_t := mk_layout { elf_end : Z; heap_base : Z }.

Definition align_up_4k (v : Z) : Z := (v +u 4095) &~ 4095.

Definition intervals_intersect (a_lo a_hi b_lo b_hi : Z) : bool := (a_lo <? b_hi) && (b_lo <? a_hi).

(** [None] when the sum wraps. *)
Definition add_overflows (a b : Z) : option Z :=
  if UINT64_MAX - b <? a then None else Some (a +u b).

(** [e_ident[i] == v] *)
Definition ident (h : elf64_ehdr_t) (i v : Z) : bool := bool_decide (e_ident h !!z i = Some v).

Definition ident_ok (h : elf64_ehdr_t) : bool :=
  ident h 0 127 && ident h 1 69 && ident h 2 76 && ident h 3 70 && ident h 4 2 && ident h 5 1 &&
  (e_machine h =? EM_X86_64) && (e_type h =? ET_EXEC).

Definition header_ok (h : elf64_ehdr_t) (file_size : Z) : bool :=
  negb (e_phnum h =? 0) && (e_phentsize h =? sizeof_phdr) &&
  match add_overflows (e_phnum h) (e_phentsize h) with
  | None => false
  | Some phdr_table_size =>
    match add_overflows (e_phoff h) phdr_table_size with
    | None => false
    | Some phdr_table_end => phdr_table_end <=? file_size
    end
  end.

(** The checks of one PT_LOAD before the overlap scan; the result is
    [vaddr_end]. *)
Definition segment_end (ph : elf64_phdr_t) (file_size : Z) : option Z :=
  if p_memsz ph =? 0 then None else
  if p_memsz ph <? p_filesz ph then None else
  if p_vaddr ph <? USER_CODE_ADDR then None else
  match add_overflows (p_vaddr ph) (p_memsz ph) with
  | None => None
  | Some vaddr_end =>
    if HEAP_LIMIT <? vaddr_end then None else
    if 0 <? p_filesz ph then
      match add_overflows (p_offset ph) (p_filesz ph) with
      | None => None
      | Some file_end => if file_size <? file_end then None else Some vaddr_end
      end
    else Some vaddr_end
  end.

(** [for (j = 0; j < i; j++)]: an overlap with an earlier PT_LOAD. *)
Definition overlaps (ph : elf64_phdr_t) (vaddr_end : Z) (prev : list elf64_phdr_t) : bool :=
  existsb (fun q => (p_type q =? PT_LOAD) && negb (p_memsz q =? 0) &&
    intervals_intersect (p_vaddr ph) vaddr_end (p_vaddr q) (p_vaddr q +u p_memsz q)) prev.

Record walk_state := mk_walk { found_load : bool; entry_in_exec : bool; w_end : Z; load_count : Z }.

(** The walk over [n] program headers from [rest] on, [prev] being the ones
    already seen.  [NoExec] is [-ENOEXEC]; [Fault] is a read behind the last
    header the caller gave. *)
Inductive walk_result := Fault | NoExec | Done (w : walk_state).

Fixpoint walk (entry file_size : Z) (n : nat) (prev rest : list elf64_phdr_t) (w : walk_state) : walk_result :=
  match n, rest with
  | O, _ => Done w
  | S _, [] => Fault
  | S n, ph :: rest =>
    if negb (p_type ph =? PT_LOAD) then walk entry file_size n (prev ++ [ph]) rest w else
    if MAX_LOAD_SEGMENTS <=? load_count w then NoExec else
    match segment_end ph file_size with
    | None => NoExec
    | Some vaddr_end =>
      let e := if negb (found_load w) || (w_end w <? vaddr_end) then vaddr_end else w_end w in
      let x := if negb (Z.land (p_flags ph) PF_X =? 0) && (p_vaddr ph <=? entry) && (entry <? vaddr_end)
               then true else entry_in_exec w in
      if overlaps ph vaddr_end prev then NoExec
      else walk entry file_size n (prev ++ [ph]) rest (mk_walk true x e (load_count w + 1))
    end
  end.

(** The return code and [*out] if it was written; [None] is a fault. *)
Definition elf_layout_validate (h : elf64_ehdr_t) (phdrs : list elf64_phdr_t) (file_size : Z)
  : option (Z * option elf_layout_t) :=
  if negb (ident_ok h) then Some (- ENOEXEC, None) else
  if negb (header_ok h file_size) then Some (- ENOEXEC, None) else
  match walk (e_entry h) file_size (Z.to_nat (e_phnum h)) [] phdrs (mk_walk false false 0 0) with
  | Fault => None
  | NoExec => Some (- ENOEXEC, None)
  | Done w =>
    if negb (found_load w) then Some (- ENOEXEC, None) else
    let hb := align_up_4k (w_end w) in
    if HEAP_LIMIT <? hb then Some (- ENOEXEC, None) else
    if negb (entry_in_exec w) then Some (- ENOEXEC, None) else
    Some (0, Some (mk_layout (w_end w) hb))
  end.

(** ** Which images are loadable *)

Definition is_load (ph : elf64_phdr_t) : bool := p_type ph =? PT_LOAD.
Definition loads (l : list elf64_phdr_t) : list elf64_phdr_t := List.filter is_load l.
Definition seg_end (ph : elf64_phdr_t) : Z := p_vaddr ph + p_memsz ph.

(** One loadable segment: non-empty, inside the user window, its file part
    inside the file. *)
Definition seg_ok (file_size : Z) (ph : elf64_phdr_t) : Prop :=
  0 < p_memsz ph /\ p_filesz ph <= p_memsz ph /\ USER_CODE_ADDR <= p_vaddr ph /\
  seg_end ph <= HEAP_LIMIT /\ (p_filesz ph = 0 \/ p_offset ph + p_filesz ph <= file_size).

Definition apart (p q : elf64_phdr_t) : Prop := seg_end p <= p_vaddr q \/ seg_end q <= p_vaddr p.

(** No two segments of the list share a byte. *)
Fixpoint pairwise_apart (l : list elf64_phdr_t) : Prop :=
  match l with
  | [] => True
  | p :: l => Forall (apart p) l /\ pairwise_apart l
  end.

Definition enters (entry : Z) (ph : elf64_phdr_t) : Prop :=
  Z.land (p_flags ph) PF_X <> 0 /\ p_vaddr ph <= entry < seg_end ph.

(** The unsigned fields of a header are in range. *)
Definition fields_ok (ph : elf64_phdr_t) : Prop :=
  is_u64 (p_offset ph) /\ is_u64 (p_vaddr ph) /\ is_u64 (p_filesz ph) /\ is_u64 (p_memsz ph).

Fixpoint max_end (l : list elf64_phdr_t) : Z :=
  match l with [] => 0 | p :: l => Z.max (seg_end p) (max_end l) end.

Record loadable (entry file_size : Z) (l : list elf64_phdr_t) : Prop := {
  lo_some : l <> [];
  lo_cap : zlen l <= MAX_LOAD_SEGMENTS;
  lo_segs : Forall (seg_ok file_size) l;
  lo_apart : pairwise_apart l;
  lo_entry : Exists (enters entry) l;
}.

(** The identification and the header: a 64-bit little-endian executable for
    x86-64 with program headers of the right size.  The last condition is the
    bound the code computes, in which the size of the table is the number of
    headers plus the size of one. *)
Record header_spec (h : elf64_ehdr_t) (file_size : Z) : Prop := {
  hs_ident : take 6 (e_ident h) = [127; 69; 76; 70; 2; 1];
  hs_machine : e_machine h = EM_X86_64;
  hs_type : e_type h = ET_EXEC;
  hs_phnum : e_phnum h <> 0;
  hs_phentsize : e_phentsize h = sizeof_phdr;
  hs_table : e_phoff h + (e_phnum h + e_phentsize h) <= file_size;
}.

(** Which images are accepted. *)
Definition acceptable (h : elf64_ehdr_t) (phdrs : list elf64_phdr_t) (file_size : Z) : Prop :=
  header_spec h file_size /\ loadable (e_entry h) file_size (loads (take (Z.to_nat (e_phnum h)) phdrs)).

Lemma header_checks h file_size :
  is_u64 (e_phoff h) -> 0 <= e_phnum h < 65536 -> is_u64 file_size ->
  ident_ok h && header_ok h file_size = true <-> header_spec h file_size.
Proof.
  intros Ho Hn Hf. unfold is_u64 in *.
  assert (ident h 0 127 && ident h 1 69 && ident h 2 76 && ident h 3 70 && ident h 4 2 && ident h 5 1 = true <->
    take 6 (e_ident h) = [127; 69; 76; 70; 2; 1]) as Hi.
  { unfold ident. rewrite !andb_true_iff, !bool_decide_eq_true. split.
    - intros [[[[[E0 E1] E2] E3] E4] E5]. destruct (e_ident h) as [|x0 [|x1 [|x2 [|x3 [|x4 [|x5 l]]]]]]; cbv in E0, E1, E2, E3, E4, E5; first [discriminate | by simplify_eq/=].
    - intros E. destruct (e_ident h) as [|x0 [|x1 [|x2 [|x3 [|x4 [|x5 l]]]]]]; try discriminate E. by injection E as -> -> -> -> -> ->. }
  unfold ident_ok, header_ok, add_overflows. rewrite !andb_true_iff, negb_true_iff, Z.eqb_neq, !Z.eqb_eq.
  rewrite !andb_true_iff in Hi. split.
  - intros [[[Hid Hm] Ht] [[Hnz He] Hb]]. rewrite He in Hb. destruct (Z.ltb_spec (UINT64_MAX - sizeof_phdr) (e_phnum h)); [lia|].
    rewrite wrap64_small in Hb by lia. destruct (Z.ltb_spec (UINT64_MAX - (e_phnum h + sizeof_phdr)) (e_phoff h)); [done|].
    rewrite wrap64_small, Z.leb_le in Hb by lia. constructor; try done; [by apply Hi|lia].
  - intros [Hid Hm Ht Hnz He Hb]. apply Hi in Hid. split_and!; try tauto. rewrite He in *.
    destruct (Z.ltb_spec (UINT64_MAX - sizeof_phdr) (e_phnum h)); [lia|]. rewrite (wrap64_small (e_phnum h + _)) by lia.
    destruct (Z.ltb_spec (UINT64_MAX - (e_phnum h + sizeof_phdr)) (e_phoff h)); [lia|]. rewrite wrap64_small by lia. apply Z.leb_le. lia.
Qed.

(** ** The walk decides loadability *)

Lemma segment_end_spec ph file_size :
  fields_ok ph -> is_u64 file_size ->
  match segment_end ph file_size with
  | Some e => seg_ok file_size ph /\ e = seg_end ph
  | None => ~ seg_ok file_size ph
  end.
Proof.
  intros (H1 & H2 & H3 & H4) Hf. unfold is_u64 in *. unfold segment_end, add_overflows, seg_ok, seg_end.
  destruct (Z.eqb_spec (p_memsz ph) 0); [lia|]. destruct (Z.ltb_spec (p_memsz ph) (p_filesz ph)); [lia|].
  destruct (Z.ltb_spec (p_vaddr ph) USER_CODE_ADDR); [lia|].
  destruct (Z.ltb_spec (UINT64_MAX - p_memsz ph) (p_vaddr ph)); [lia|]. unwrap.
  destruct (Z.ltb_spec HEAP_LIMIT (p_vaddr ph + p_memsz ph)); [lia|].
  destruct (Z.ltb_spec 0 (p_filesz ph)); [|lia].
  destruct (Z.ltb_spec (UINT64_MAX - p_filesz ph) (p_offset ph)); [lia|]. unwrap.
  destruct (Z.ltb_spec file_size (p_offset ph + p_filesz ph)); lia.
Qed.

Lemma overlaps_spec file_size ph prev :
  Forall (seg_ok file_size) (loads prev) -> overlaps ph (seg_end ph) prev = false <-> Forall (apart ph) (loads prev).
Proof.
  intros Hp. unfold overlaps, loads, is_load in *. induction prev as [|q prev IH]; simpl in *; [done|].
  destruct (Z.eqb_spec (p_type q) 1); simpl in *; [|by apply IH].
  apply Forall_cons in Hp as [Hq Hp]. specialize (IH Hp). rewrite orb_false_iff, Forall_cons, IH.
  unfold seg_ok, apart, seg_end, intervals_intersect in *. rewrite wrap64_small by lia.
  destruct (Z.eqb_spec (p_memsz q) 0); [lia|]. simpl. rewrite andb_false_iff, !Z.ltb_ge. tauto.
Qed.

Lemma loads_app l1 l2 : loads (l1 ++ l2) = loads l1 ++ loads l2.
Proof. apply List.filter_app. Qed.

Lemma apart_sym p q : apart p q <-> apart q p.
Proof. unfold apart. tauto. Qed.

(** The headers [rest] can follow [prev] in a loadable image. *)
Definition good (file_size : Z) (prev rest : list elf64_phdr_t) : Prop :=
  zlen (loads (prev ++ rest)) <= MAX_LOAD_SEGMENTS /\ Forall (seg_ok file_size) (loads rest) /\
  (forall p q, p ∈ loads prev -> q ∈ loads rest -> apart p q) /\ pairwise_apart (loads rest).

Lemma good_skip fs prev ph rest :
  is_load ph = false -> good fs prev (ph :: rest) <-> good fs (prev ++ [ph]) rest.
Proof.
  intros E. unfold good. rewrite !loads_app. assert (loads (ph :: rest) = loads rest) as ->.
  { unfold loads. simpl. by rewrite E. }
  assert (loads [ph] = []) as -> by (unfold loads; simpl; by rewrite E). by rewrite app_nil_r.
Qed.

Lemma good_load fs prev ph rest :
  is_load ph = true -> good fs prev (ph :: rest) <->
    seg_ok fs ph /\ Forall (apart ph) (loads prev) /\ good fs (prev ++ [ph]) rest.
Proof.
  intros E. unfold good. rewrite !loads_app. assert (loads (ph :: rest) = ph :: loads rest) as ->.
  { unfold loads. simpl. by rewrite E. }
  assert (loads [ph] = [ph]) as -> by (unfold loads; simpl; by rewrite E).
  rewrite <- app_assoc. cbn [app pairwise_apart]. rewrite Forall_cons, !Forall_forall. split.
  - intros (H1 & (H2 & H3) & H4 & H5 & H6). split_and!; try done.
    + intros q Hq. apply apart_sym, H4; [done|apply elem_of_cons; auto].
    + intros p q [Hp|Hp%list_elem_of_singleton]%elem_of_app Hq; [apply H4; [done|apply elem_of_cons; auto]|].
      subst p. by apply H5.
  - intros (H1 & H2 & H3 & H4 & H5 & H6). split_and!; try done.
    + intros p q Hp [->|Hq]%elem_of_cons; [by apply apart_sym, H2|]. apply H5; [|done]. apply elem_of_app; auto.
    + intros q Hq. apply H5; [|done]. apply elem_of_app. right. by apply list_elem_of_singleton.
Qed.

(** The walk's state summarises the headers seen. *)
Record summary (entry : Z) (l : list elf64_phdr_t) (w : walk_state) : Prop := {
  su_found : found_load w = bool_decide (loads l <> []);
  su_count : load_count w = zlen (loads l);
  su_end : w_end w = max_end (loads l);
  su_exec : entry_in_exec w = true <-> Exists (enters entry) (loads l);
}.

Lemma max_end_snoc l p : max_end (l ++ [p]) = Z.max (max_end l) (seg_end p).
Proof. induction l as [|q l IH]; simpl; [lia|]. rewrite IH. lia. Qed.

Lemma summary_snoc entry fs l ph w :
  is_load ph = true -> seg_ok fs ph -> Forall (seg_ok fs) (loads l) -> summary entry l w ->
  summary entry (l ++ [ph])
    (mk_walk true
      (if negb (Z.land (p_flags ph) PF_X =? 0) && (p_vaddr ph <=? entry) && (entry <? seg_end ph)
       then true else entry_in_exec w)
      (if negb (found_load w) || (w_end w <? seg_end ph) then seg_end ph else w_end w) (load_count w + 1)).
Proof.
  intros E Hph Hl [S1 S2 S3 S4].
  assert (loads (l ++ [ph]) = loads l ++ [ph]) as EL.
  { rewrite loads_app. f_equal. unfold loads. simpl. by rewrite E. }
  constructor; simpl; rewrite EL.
  - rewrite bool_decide_eq_true_2; [done|]. by destruct (loads l).
  - rewrite S2. unfold zlen. rewrite length_app. simpl. lia.
  - rewrite max_end_snoc, S1, S3. unfold seg_ok in Hph. destruct (loads l) as [|q l']; simpl.
    + unfold seg_end in *. bools; lia.
    + bools; lia.
  - rewrite Exists_app, Exists_cons, Exists_nil, <- S4.
    assert (negb (Z.land (p_flags ph) 1 =? 0) && (p_vaddr ph <=? entry) && (entry <? seg_end ph) = true <->
      enters entry ph) as He.
    { unfold enters. rewrite !andb_true_iff, negb_true_iff, Z.eqb_neq, Z.leb_le, Z.ltb_lt. tauto. }
    destruct (_ && _); rewrite <- He; split; intros; auto. by destruct H as [?|[?|[]]].
Qed.

Lemma walk_spec entry fs n prev all w (rest := take n all) :
  is_u64 fs -> (n <= length all)%nat -> Forall fields_ok all -> Forall (seg_ok fs) (loads prev) ->
  zlen (loads prev) <= MAX_LOAD_SEGMENTS -> summary entry prev w ->
  match walk entry fs n prev all w with
  | Done w' => good fs prev rest /\ summary entry (prev ++ rest) w'
  | NoExec => ~ good fs prev rest
  | Fault => False
  end.
Proof.
  intros Hfs. unfold rest. clear rest. revert prev all w. induction n as [|n IH]; intros prev all w Hlen Hr Hp Hc Hs.
  { cbn [walk take]. rewrite app_nil_r. split; [|done]. split_and!; try done; [by rewrite app_nil_r|].
    by intros p q _ ?%elem_of_nil. }
  destruct all as [|ph rest]; [cbn in Hlen; lia|]. cbn [take] in *. cbn [length] in Hlen. apply le_S_n in Hlen.
  apply Forall_cons in Hr as [Hph Hr]. cbn [walk].
  assert (forall l, (prev ++ [ph]) ++ l = prev ++ ph :: l) as Happ by (intros; by rewrite <- app_assoc).
  destruct (p_type ph =? 1) eqn:E; cbn [negb].
  2: { specialize (IH (prev ++ [ph]) rest w Hlen Hr). rewrite Happ in IH. pose proof (good_skip fs prev ph (take n rest) E) as Hg.
       assert (loads (prev ++ [ph]) = loads prev) as EL.
       { rewrite loads_app. unfold loads at 2. simpl. unfold is_load. rewrite E. by rewrite app_nil_r. }
       rewrite EL in IH. assert (summary entry (prev ++ [ph]) w) as Hs'.
       { destruct Hs as [S1 S2 S3 S4]. constructor; by rewrite EL. }
       specialize (IH Hp Hc Hs'). destruct (walk entry fs n (prev ++ [ph]) rest w); tauto. }
  assert (loads (prev ++ [ph]) = loads prev ++ [ph]) as EL.
  { rewrite loads_app. f_equal. unfold loads. simpl. unfold is_load. by rewrite E. }
  pose proof (good_load fs prev ph (take n rest) E) as Hgl. rewrite (su_count _ _ _ Hs).
  destruct (Z.leb_spec 32 (zlen (loads prev))).
  { rewrite Hgl. intros (_ & _ & Hg & _). rewrite loads_app, EL in Hg. unfold zlen in *. rewrite !length_app in Hg. simpl in Hg. lia. }
  pose proof (segment_end_spec ph fs Hph Hfs) as Hse. destruct (segment_end ph fs) as [e|]; [|tauto].
  destruct Hse as [Hok ->]. pose proof (overlaps_spec fs ph prev Hp) as Hov.
  destruct (overlaps ph (seg_end ph) prev); [rewrite Hgl; intros (_ & Ha & _); by apply Hov in Ha|].
  pose proof (proj1 Hov eq_refl) as Ha. set (w' := mk_walk _ _ _ _).
  specialize (IH (prev ++ [ph]) rest w' Hlen Hr). rewrite Happ in IH.
  assert (match walk entry fs n (prev ++ [ph]) rest w' with
    | Done w'' => good fs (prev ++ [ph]) (take n rest) /\ summary entry (prev ++ ph :: take n rest) w''
    | NoExec => ~ good fs (prev ++ [ph]) (take n rest)
    | Fault => False end) as Hrec.
  { apply IH.
    - rewrite EL. apply Forall_app. split; [done|]. by constructor.
    - rewrite EL. unfold zlen in *. rewrite length_app. simpl. lia.
    - unfold w'. rewrite <- (su_count _ _ _ Hs). by apply (summary_snoc entry fs). }
  destruct (walk entry fs n (prev ++ [ph]) rest w'); tauto.
Qed.

Lemma heap_base_spec l fs :
  l <> [] -> Forall (seg_ok fs) l -> align_up_4k (max_end l) = align_up (max_end l) 4096 /\
  align_up (max_end l) 4096 <= HEAP_LIMIT.
Proof.
  intros Hne Hl. assert (0 <= max_end l <= HEAP_LIMIT) as Hm.
  { clear Hne. induction Hl as [|p l Hp Hl IH]; simpl; [lia|]. unfold seg_ok in Hp. lia. }
  split; [|unfold align_up; dlia]. unfold align_up_4k. change 4095 with (2 ^ 12 - 1). apply round_up_mask; lia.
Qed.


(** A one-segment image. *)
Definition demo_ehdr : elf64_ehdr_t := mk_ehdr [127; 69; 76; 70; 2; 1] 2 62 4198400 64 56 1.
Definition demo_phdr : elf64_phdr_t := mk_phdr 1 5 0 4194304 8192 10000.


(** The program-header bounds check adds the number of headers to their
    size instead of multiplying, so a table that extends past the end of the
    file passes it (128 headers of 56 bytes at offset 64 need 7232 bytes; the
    file has 248). *)
Theorem header_ok_table_past_file :
  let h := mk_ehdr [127; 69; 76; 70; 2; 1] 2 62 4198400 64 56 128 in
  header_ok h 248 = true /\ e_phoff h + e_phnum h * e_phentsize h = 7232.
Proof. split; reflexivity. Qed.

End ElfLayout.
