(* ===== verification/Bytes.v ===== *)
(** Byte buffers: blocks read from a disk and the packed structures the code
    overlays on them.  A buffer is a list of byte values; structures are read
    and written at offsets, in little-endian order, as the C code does through
    a cast pointer. *)

From stdpp Require Import base tactics numbers option list.
From Stdlib Require Import ZArith Lia.
From S2P Require Import Prelude.

Module Bytes.

Definition is_byte (x : Z) : Prop := 0 <= x < 256.
Definition bytes (b : list Z) : Prop := Forall is_byte b.

(** [b[i]], 0 past the end. *)
Definition byte (b : list Z) (i : Z) : Z := default 0 (b !!z i).
(** The [n] bytes at [o], and [memcpy(b + o, v, len)]. *)
Definition slice (o n : Z) (b : list Z) : list Z := take (Z.to_nat n) (drop (Z.to_nat o) b).
Definition splice (o : Z) (v b : list Z) : list Z :=
  take (Z.to_nat o) b ++ v ++ drop (Z.to_nat o + length v) b.
Definition zeros (n : Z) : list Z := replicate (Z.to_nat n) 0.

(** An unsigned integer of [n] bytes, as stored. *)
Fixpoint le (n : nat) (v : Z) : list Z :=
  match n with O => [] | S n => v mod 256 :: le n (v / 256) end.
Fixpoint of_le (l : list Z) : Z :=
  match l with [] => 0 | x :: l => x + 256 * of_le l end.
Definition ld (n : nat) (o : Z) (b : list Z) : Z := of_le (slice o (Z.of_nat n) b).
Definition st (n : nat) (o v : Z) (b : list Z) : list Z := splice o (le n v) b.

Arguments ld : simpl never.
Arguments st : simpl never.
Arguments splice : simpl never.
Arguments slice : simpl never.

(** ** Lengths *)

Lemma zlen_le n v : zlen (le n v) = Z.of_nat n.
Proof. revert v; induction n as [|n IH]; intros v; [done|]. cbn. specialize (IH (v / 256)). unfold zlen in *. cbn. lia. Qed.

Lemma zlen_zeros n : 0 <= n -> zlen (zeros n) = n.
Proof. intros. unfold zlen, zeros. rewrite length_replicate. lia. Qed.

Lemma zlen_nonneg {A} (l : list A) : 0 <= zlen l.
Proof. unfold zlen. lia. Qed.

Lemma zlen_splice o v b : 0 <= o -> o + zlen v <= zlen b -> zlen (splice o v b) = zlen b.
Proof. unfold zlen, splice. intros. rewrite !length_app, length_take, length_drop. lia. Qed.

Lemma zlen_slice o n b : 0 <= o -> 0 <= n -> o + n <= zlen b -> zlen (slice o n b) = n.
Proof. unfold zlen, slice. intros. rewrite length_take, length_drop. lia. Qed.

Lemma zlen_st n o v b : 0 <= o -> o + Z.of_nat n <= zlen b -> zlen (st n o v b) = zlen b.
Proof. intros. apply zlen_splice; [done|]. by rewrite zlen_le. Qed.

(** ** Bytes of a buffer *)

Lemma zlookup_slice o n b i :
  0 <= o -> slice o n b !!z i = if (0 <=? i) && (i <? n) then b !!z (o + i) else None.
Proof.
  intros. unfold slice, zlookup. bools; try done; try lia.
  - rewrite lookup_take_lt, lookup_drop by lia. f_equal. lia.
  - apply lookup_take_ge. lia.
Qed.

Lemma zlookup_splice o v b i :
  0 <= o -> o + zlen v <= zlen b ->
  splice o v b !!z i = if (o <=? i) && (i <? o + zlen v) then v !!z (i - o) else b !!z i.
Proof.
  intros Ho Hl. unfold splice, zlookup, zlen in *.
  destruct (Z.leb_spec 0 i); cycle 1.
  { bools; try done; lia. }
  destruct (Z.leb_spec o i); cbn.
  - rewrite lookup_app_r by (rewrite length_take; lia). rewrite length_take.
    destruct (Z.ltb_spec i (o + Z.of_nat (length v))); cbn.
    + rewrite lookup_app_l by lia. destruct (Z.leb_spec 0 (i - o)); [|lia]. f_equal. lia.
    + rewrite lookup_app_r by lia. rewrite lookup_drop. f_equal. lia.
  - rewrite lookup_app_l by (rewrite length_take; lia). apply lookup_take_lt. lia.
Qed.

Lemma byte_splice o v b i :
  0 <= o -> o + zlen v <= zlen b ->
  byte (splice o v b) i = if (o <=? i) && (i <? o + zlen v) then byte v (i - o) else byte b i.
Proof. intros. unfold byte. rewrite zlookup_splice by done. by destruct (_ && _). Qed.

Lemma byte_slice o n b i : 0 <= o -> 0 <= i < n -> byte (slice o n b) i = byte b (o + i).
Proof. intros. unfold byte. rewrite zlookup_slice by done. by bools; try lia. Qed.

Lemma byte_zeros n i : byte (zeros n) i = 0.
Proof.
  unfold byte, zeros. destruct (_ !!z i) eqn:E; [|done].
  by apply zlookup_replicate in E.
Qed.

Lemma byte_out b i : ~ (0 <= i < zlen b) -> byte b i = 0.
Proof. intros. unfold byte. by rewrite zlookup_none. Qed.

Lemma byte_in b i : 0 <= i < zlen b -> b !!z i = Some (byte b i).
Proof. intros [x E]%zlookup_in_range. unfold byte. by rewrite E. Qed.

Lemma byte_ext b c : zlen b = zlen c -> (forall i, 0 <= i < zlen b -> byte b i = byte c i) -> b = c.
Proof.
  intros Hl He. apply zlookup_ext. intros i. destruct (decide (0 <= i < zlen b)).
  - rewrite !byte_in by lia. by rewrite He.
  - rewrite !zlookup_none by lia. done.
Qed.

Lemma slice_ext o n b c :
  zlen c = zlen b -> 0 <= o -> (forall i, o <= i < o + n -> i < zlen b -> byte c i = byte b i) -> slice o n c = slice o n b.
Proof.
  intros Hl Ho He. apply zlookup_ext. intros i. rewrite !zlookup_slice by done. bools; try done.
  destruct (decide (o + i < zlen b)); [|by rewrite !zlookup_none by lia].
  rewrite !byte_in by lia. rewrite He by lia. done.
Qed.

(** ** Slices of updated buffers *)

Lemma slice_splice_eq o v b : 0 <= o -> o + zlen v <= zlen b -> slice o (zlen v) (splice o v b) = v.
Proof.
  intros. apply zlookup_ext. intros i. rewrite zlookup_slice, zlookup_splice by done.
  pose proof (zlen_nonneg v). bools; try lia.
  - f_equal. lia.
  - symmetry. apply zlookup_none. lia.
  - symmetry. apply zlookup_none. lia.
Qed.

Lemma slice_splice_ne o v b o' n :
  0 <= o -> o + zlen v <= zlen b -> 0 <= o' -> o' + n <= o \/ o + zlen v <= o' ->
  slice o' n (splice o v b) = slice o' n b.
Proof.
  intros. apply zlookup_ext. intros i. rewrite !zlookup_slice, zlookup_splice by done.
  bools; try lia; done.
Qed.

Lemma slice_splice_in o v b o' n :
  0 <= o -> o + zlen v <= zlen b -> o <= o' -> o' + n <= o + zlen v ->
  slice o' n (splice o v b) = slice (o' - o) n v.
Proof.
  intros. apply zlookup_ext. intros i. rewrite !zlookup_slice, zlookup_splice by lia.
  bools; try lia; try done. f_equal. lia.
Qed.

Lemma slice_slice o n o' m b :
  0 <= o -> 0 <= o' -> o' + m <= n -> slice o' m (slice o n b) = slice (o + o') m b.
Proof.
  intros. apply zlookup_ext. intros i. rewrite !zlookup_slice by lia.
  bools; try lia; try done. f_equal. lia.
Qed.

Lemma slice_all b n : zlen b = n -> slice 0 n b = b.
Proof. intros <-. unfold slice, zlen. rewrite Nat2Z.id. cbn. by rewrite drop_0, firstn_all. Qed.

Lemma splice_splice_same o v w b :
  0 <= o -> zlen v = zlen w -> o + zlen v <= zlen b -> splice o w (splice o v b) = splice o w b.
Proof.
  intros. apply zlookup_ext. intros i.
  rewrite !zlookup_splice by (rewrite ?zlen_splice; lia). bools; try lia; done.
Qed.

Lemma splice_slice o n b : 0 <= o -> 0 <= n -> o + n <= zlen b -> splice o (slice o n b) b = b.
Proof.
  intros. assert (zlen (slice o n b) = n) as Hl by (apply zlen_slice; lia).
  apply zlookup_ext. intros i. rewrite zlookup_splice, zlookup_slice by lia. rewrite Hl.
  bools; try lia; try done. f_equal. lia.
Qed.

(** ** Bytes stay bytes *)

Lemma bytes_byte b i : bytes b -> is_byte (byte b i).
Proof.
  intros Hb. unfold byte. destruct (b !!z i) eqn:E; [|unfold is_byte; cbn; lia].
  unfold zlookup in E. destruct (0 <=? i); [|done]. by eapply Forall_lookup_1 in E.
Qed.

Lemma bytes_slice o n b : bytes b -> bytes (slice o n b).
Proof. intros. by apply Forall_take, Forall_drop. Qed.

Lemma bytes_splice o v b : bytes v -> bytes b -> bytes (splice o v b).
Proof. intros. repeat apply Forall_app_2; try done; [by apply Forall_take|by apply Forall_drop]. Qed.

Lemma bytes_le n v : bytes (le n v).
Proof.
  revert v; induction n as [|n IH]; intros v; constructor; [|apply IH].
  apply Z.mod_pos_bound. lia.
Qed.

Lemma bytes_st n o v b : bytes b -> bytes (st n o v b).
Proof. apply bytes_splice, bytes_le. Qed.

Lemma bytes_zeros n : bytes (zeros n).
Proof. apply Forall_replicate. unfold is_byte. lia. Qed.

Lemma of_le_range l : bytes l -> 0 <= of_le l < 256 ^ zlen l.
Proof.
  induction 1 as [|x l Hx Hl IH]; [done|]. unfold is_byte in Hx. cbn [of_le].
  replace (zlen (x :: l)) with (Z.succ (zlen l)) by (unfold zlen; cbn; lia).
  rewrite Z.pow_succ_r by apply zlen_nonneg. lia.
Qed.

Lemma pow256_mono a b : a <= b -> 256 ^ a <= 256 ^ b.
Proof. intros. apply Z.pow_le_mono_r; lia. Qed.

Lemma ld_range n o b : bytes b -> 0 <= ld n o b < 256 ^ Z.of_nat n.
Proof.
  intros Hb. unfold ld. pose proof (of_le_range (slice o (Z.of_nat n) b) (bytes_slice _ _ _ Hb)).
  assert (zlen (slice o (Z.of_nat n) b) <= Z.of_nat n).
  { unfold zlen, slice. rewrite length_take. lia. }
  pose proof (pow256_mono _ _ H0). lia.
Qed.

(** ** Structure fields *)

Lemma of_le_le n v : of_le (le n v) = v mod 256 ^ Z.of_nat n.
Proof.
  revert v; induction n as [|n IH]; intros v; cbn [le of_le]; [by rewrite Z.mod_1_r|].
  rewrite IH. rewrite Nat2Z.inj_succ, Z.pow_succ_r by lia.
  rewrite (Z.rem_mul_r v 256) by lia. done.
Qed.

Lemma ld_bytes_ext n o b c :
  zlen c = zlen b -> 0 <= o -> (forall i, o <= i < o + Z.of_nat n -> byte c i = byte b i) -> ld n o c = ld n o b.
Proof. intros ?? He. unfold ld. f_equal. apply slice_ext; [done..|]. intros i Hi _. by apply He. Qed.

Lemma ld_st_eq n o v b :
  0 <= o -> o + Z.of_nat n <= zlen b -> ld n o (st n o v b) = v mod 256 ^ Z.of_nat n.
Proof.
  intros. unfold ld, st. rewrite <- (zlen_le n v) at 1.
  rewrite slice_splice_eq by (rewrite ?zlen_le; lia). apply of_le_le.
Qed.

Lemma ld_splice_ne n o' o v b :
  0 <= o -> o + zlen v <= zlen b -> 0 <= o' -> o' + Z.of_nat n <= o \/ o + zlen v <= o' ->
  ld n o' (splice o v b) = ld n o' b.
Proof. intros. unfold ld. by rewrite slice_splice_ne. Qed.

Lemma ld_splice_in n o' o v b :
  0 <= o -> o + zlen v <= zlen b -> o <= o' -> o' + Z.of_nat n <= o + zlen v ->
  ld n o' (splice o v b) = ld n (o' - o) v.
Proof. intros. unfold ld. by rewrite slice_splice_in. Qed.

Lemma ld_st_apart n m o' o v b :
  0 <= o -> o + Z.of_nat m <= zlen b -> 0 <= o' -> o' + Z.of_nat n <= o \/ o + Z.of_nat m <= o' ->
  ld n o' (st m o v b) = ld n o' b.
Proof. intros. apply ld_splice_ne; rewrite ?zlen_le; lia. Qed.

Lemma ld_slice n o' o m b :
  0 <= o -> 0 <= o' -> o' + Z.of_nat n <= m -> ld n o' (slice o m b) = ld n (o + o') b.
Proof. intros. unfold ld. by rewrite slice_slice. Qed.

Lemma ld_zeros n o m : 0 <= o -> ld n o (zeros m) = 0.
Proof.
  intros. unfold ld, slice, zeros. rewrite drop_replicate, take_replicate.
  generalize (Z.to_nat (Z.of_nat n) `min` (Z.to_nat m - Z.to_nat o))%nat as k.
  induction k as [|k IH]; [done|]. cbn [replicate of_le]. lia.
Qed.

Lemma le_of_le l n : bytes l -> length l = n -> le n (of_le l) = l.
Proof.
  intros Hb <-. induction Hb as [|x l Hx Hl IH]; [done|]. unfold is_byte in Hx. cbn [length le of_le].
  assert ((x + 256 * of_le l) mod 256 = x) as -> by dlia.
  assert ((x + 256 * of_le l) / 256 = of_le l) as -> by dlia. by rewrite IH.
Qed.

Lemma ld1_byte o b : 0 <= o -> ld 1 o b = byte b o.
Proof.
  intros. unfold ld, slice, byte, zlookup. destruct (Z.leb_spec 0 o); [|lia].
  replace (b !! Z.to_nat o) with (drop (Z.to_nat o) b !! 0%nat) by (rewrite lookup_drop; f_equal; lia).
  change (Z.to_nat (Z.of_nat 1)) with 1%nat.
  destruct (drop (Z.to_nat o) b) as [|x l]; cbn [take lookup list_lookup default of_le]; [done|]. destruct l; cbn; lia.
Qed.

End Bytes.
