(* ===== verification/Ext2.v ===== *)
(** The block layer and the on-disk structures of the ext2 driver
    (src/kernel/fs/ext2.c, src/kernel/include/fs/ext2.h) and the checked
    transfers of src/kernel/block/blockdev.c below it.

    Blocks and packed structures are byte buffers; every driver transfer and
    every [kmalloc] takes its outcome from a stream that the caller of the
    model chooses, so each error branch of the code can be run. *)

From stdpp Require Import base tactics numbers option gmap list.
From Stdlib Require Import ZArith Lia.
From S2P Require Import Prelude Bytes.

Module Ext2.
Export Bytes.

(** ** State *)

(** [block_device_t]: the published object and the medium behind it, as
    512-byte sectors.  [writable] is [ops->write != NULL]; a registered device
    always has [ops->read]. *)
Record block_device := mk_dev {
  present : bool;
  sector_count : Z;
  writable : bool;
  last_error : Z;
  sectors : Z -> list Z;
}.

(** A [vfs_node_t], as far as the driver uses it, and the mount's registry of
    live nodes: the nodes by address, and the addresses of the active ones. *)
Record vfs_node := mk_node {
  n_ino : Z; n_size : Z; n_mode : Z; n_uid : Z; n_gid : Z; n_nlink : Z; n_atime : Z; n_mtime : Z; n_ctime : Z;
  n_type : Z; n_flags : Z; n_fs_data : Z; n_parent : Z; n_refcount : Z;
}.
Record vfs_mount := mk_mount { nodes : gmap Z vfs_node; active_nodes : list Z; root : Z }.

(** The fields of [ext2_fs_t] that mounting fixes. *)
Record geometry := mk_geo {
  block_size : Z;
  sectors_per_block : Z;
  inodes_per_group : Z;
  blocks_per_group : Z;
  num_block_groups : Z;
  inode_size : Z;
  bgdesc_block : Z;
  bgdesc_table_blocks : Z;
}.

(** [ext2_fs_t] with its device and mount.  The cached descriptor table and
    superblock are the bytes the C structures overlay; [orphans] holds (ino,
    state) slots; [outcomes] are the results of the coming allocations and
    driver calls, 0 for success. *)
Record ext2_fs := mk_fs {
  geo :> geometry;
  bgdesc_table : list Z;
  sb_raw : list Z;
  orphans : list (Z * Z);
  dev : block_device;
  mount : vfs_mount;
  outcomes : nat -> Z;
}.

Definition set_table (v : list Z) (s : ext2_fs) : ext2_fs := mk_fs (geo s) v (sb_raw s) (orphans s) (dev s) (mount s) (outcomes s).
Definition set_sb (v : list Z) (s : ext2_fs) : ext2_fs := mk_fs (geo s) (bgdesc_table s) v (orphans s) (dev s) (mount s) (outcomes s).
Definition set_orphans (v : list (Z * Z)) (s : ext2_fs) : ext2_fs := mk_fs (geo s) (bgdesc_table s) (sb_raw s) v (dev s) (mount s) (outcomes s).
Definition set_dev (v : block_device) (s : ext2_fs) : ext2_fs := mk_fs (geo s) (bgdesc_table s) (sb_raw s) (orphans s) v (mount s) (outcomes s).
Definition set_mount (v : vfs_mount) (s : ext2_fs) : ext2_fs := mk_fs (geo s) (bgdesc_table s) (sb_raw s) (orphans s) (dev s) v (outcomes s).
Definition set_outcomes (v : nat -> Z) (s : ext2_fs) : ext2_fs := mk_fs (geo s) (bgdesc_table s) (sb_raw s) (orphans s) (dev s) (mount s) v.

(** ** Computations

    [None] is a division by zero or an access outside a buffer. *)
Definition M (A : Type) : Type := ext2_fs -> option (A * ext2_fs).
Definition ret {A} (x : A) : M A := fun s => Some (x, s).
Definition bind {A B} (m : M A) (f : A -> M B) : M B := fun s => '(x, s') ← m s; f x s'.
Definition stuck {A} : M A := fun _ => None.
Definition get : M ext2_fs := fun s => Some (s, s).
Definition modify (f : ext2_fs -> ext2_fs) : M unit := fun s => Some (tt, f s).
Declare Scope ext2_scope.
Delimit Scope ext2_scope with ext2.
Notation "x <- m ;; k" := (bind m (fun x => k)) (at level 100, m at next level, right associativity) : ext2_scope.
Notation "x & y <- m ;; k" := (bind m (fun '(x, y) => k)) (at level 100, y name, m at next level, right associativity) : ext2_scope.
Notation "m ;;; k" := (bind m (fun _ => k)) (at level 100, right associativity) : ext2_scope.
#[global] Open Scope ext2_scope.

Definition outcome : M Z := fun s => Some (outcomes s 0%nat, set_outcomes (fun i => outcomes s (S i)) s).
(** Whether [kmalloc] returned a buffer; each buffer is freed on every path
    out of the function that allocated it. *)
Definition kmalloc : M bool := rc <- outcome;; ret (rc =? 0).

(** [memcpy] from and to a buffer at an offset. *)
Definition ldbuf (o n : Z) (b : list Z) : M (list Z) :=
  if (0 <=? o) && (o + n <=? zlen b) then ret (slice o n b) else stuck.
Definition stbuf (o : Z) (v b : list Z) : M (list Z) :=
  if (0 <=? o) && (o + zlen v <=? zlen b) then ret (splice o v b) else stuck.

(** ** Structures *)

Abbreviation EIO := 5 (only parsing).
Abbreviation ENOTDIR := 20 (only parsing).
Abbreviation EISDIR := 21 (only parsing).
Abbreviation ENOSPC := 28 (only parsing).
Abbreviation EROFS := 30 (only parsing).
Abbreviation ENOTEMPTY := 39 (only parsing).
Abbreviation EOPNOTSUPP := 95 (only parsing).

Abbreviation EXT2_MAGIC := 61267 (only parsing).       (* 0xEF53 *)
Abbreviation EXT2_ROOT_INO := 2 (only parsing).
Abbreviation EXT2_S_IFMT := 61440 (only parsing).      (* 0xF000 *)
Abbreviation EXT2_S_IFREG := 32768 (only parsing).     (* 0x8000 *)
Abbreviation EXT2_S_IFDIR := 16384 (only parsing).     (* 0x4000 *)
Abbreviation EXT2_S_IFLNK := 40960 (only parsing).     (* 0xA000 *)
(** [sizeof] of the packed structures. *)
Abbreviation SB_SIZE := 204 (only parsing).
Abbreviation BGDESC_SIZE := 32 (only parsing).
Abbreviation INODE_SIZE := 116 (only parsing).
Abbreviation DIRENT_SIZE := 8 (only parsing).

(** [ext2_superblock_t] *)
Definition s_blocks_count (b : list Z) : Z := ld 4 4 b.
Definition s_free_blocks_count (b : list Z) : Z := ld 4 12 b.
Definition s_free_inodes_count (b : list Z) : Z := ld 4 16 b.
Definition s_first_data_block (b : list Z) : Z := ld 4 20 b.
Definition s_log_block_size (b : list Z) : Z := ld 4 24 b.
Definition s_blocks_per_group (b : list Z) : Z := ld 4 32 b.
Definition s_inodes_per_group (b : list Z) : Z := ld 4 40 b.
Definition s_magic (b : list Z) : Z := ld 2 56 b.
Definition s_inode_size (b : list Z) : Z := ld 2 88 b.
Definition s_feature_incompat (b : list Z) : Z := ld 4 96 b.

(** The fields computed from the superblock, for a block size that is not 0
    and [s_blocks_per_group] not 0. *)
Definition geometry_of (block_size : Z) (sb : list Z) : geometry :=
  let blocks_per_group := s_blocks_per_group sb in
  let num_block_groups := wrap32 (s_blocks_count sb + blocks_per_group - 1) / blocks_per_group in
  let sb_block := if block_size =? 1024 then 1 else 0 in
  let table_size := wrap32 (num_block_groups * BGDESC_SIZE) in
  mk_geo block_size (block_size / 512) (s_inodes_per_group sb) blocks_per_group num_block_groups
    (if negb (s_inode_size sb =? 0) then s_inode_size sb else 128)
    (sb_block + 1) (wrap32 (table_size + block_size - 1) / block_size).

(** A superblock the driver mounts, and the geometry that goes with it. *)
Definition mounted (s : ext2_fs) : Prop :=
  let sb := sb_raw s in
  geo s = geometry_of (block_size s) sb /\ block_size s = wrap32 (Z.shiftl 1024 (s_log_block_size sb)) /\
  s_log_block_size sb < 32 /\ s_magic sb = EXT2_MAGIC /\ Z.land (s_feature_incompat sb) 64 = 0 /\ s_blocks_per_group sb <> 0.

(** [ext2_bgdesc_t]: the fields of [bgdesc_table[g]]. *)
Definition bg_block_bitmap (t : list Z) (g : Z) : Z := ld 4 (32 * g) t.
Definition bg_inode_bitmap (t : list Z) (g : Z) : Z := ld 4 (32 * g + 4) t.
Definition bg_inode_table (t : list Z) (g : Z) : Z := ld 4 (32 * g + 8) t.
Definition bg_free_blocks_count (t : list Z) (g : Z) : Z := ld 2 (32 * g + 12) t.
Definition bg_free_inodes_count (t : list Z) (g : Z) : Z := ld 2 (32 * g + 14) t.
Definition bg_used_dirs_count (t : list Z) (g : Z) : Z := ld 2 (32 * g + 16) t.

(** [ext2_inode_t] *)
Definition i_mode (b : list Z) : Z := ld 2 0 b.
Definition i_uid (b : list Z) : Z := ld 2 2 b.
Definition i_size (b : list Z) : Z := ld 4 4 b.
Definition i_mtime (b : list Z) : Z := ld 4 16 b.
Definition i_gid (b : list Z) : Z := ld 2 24 b.
Definition i_links_count (b : list Z) : Z := ld 2 26 b.
Definition i_blocks (b : list Z) : Z := ld 4 28 b.
Definition i_flags (b : list Z) : Z := ld 4 32 b.
Definition i_block (b : list Z) (k : Z) : Z := ld 4 (40 + 4 * k) b.
Definition set_i_mode (v : Z) : list Z -> list Z := st 2 0 v.
Definition set_i_size (v : Z) : list Z -> list Z := st 4 4 v.
Definition set_i_ctime (v : Z) : list Z -> list Z := st 4 12 v.
Definition set_i_mtime (v : Z) : list Z -> list Z := st 4 16 v.
Definition set_i_links_count (v : Z) : list Z -> list Z := st 2 26 v.
Definition set_i_blocks (v : Z) : list Z -> list Z := st 4 28 v.
Definition set_i_block (k v : Z) : list Z -> list Z := st 4 (40 + 4 * k) v.

Arguments outcome : simpl never.
Arguments kmalloc : simpl never.
Arguments bind : simpl never.

(** ** Block device *)

Fixpoint rd_sectors (m : Z -> list Z) (lba : Z) (n : nat) : list Z :=
  match n with O => [] | S n => m lba ++ rd_sectors m (lba + 1) n end.
Definition wr_sectors (m : Z -> list Z) (lba count : Z) (buf : list Z) : Z -> list Z :=
  fun x => if (lba <=? x) && (x <? lba + count) then slice (512 * (x - lba)) 512 buf else m x.

Definition set_last_error (rc : Z) (d : block_device) : block_device :=
  mk_dev (present d) (sector_count d) (writable d) rc (sectors d).
Definition set_sectors (m : Z -> list Z) (d : block_device) : block_device :=
  mk_dev (present d) (sector_count d) (writable d) (last_error d) m.

(** The result code and, when it is 0, the bytes read. *)
Definition block_device_read (lba count : Z) : M (Z * list Z) :=
  s <- get;;
  let d := dev s in
  if negb (present d) then ret (- EINVAL, [])
  else if lba +u count <? lba then ret (- EINVAL, [])
  else if count =? 0 then (if lba <=? sector_count d then ret (0, []) else ret (- EINVAL, []))
  else if sector_count d <? lba +u count then ret (- EINVAL, [])
  else
    rc <- outcome;;
    if rc =? 0 then ret (0, rd_sectors (sectors d) lba (Z.to_nat count))
    else modify (fun s => set_dev (set_last_error rc (dev s)) s);;; ret (rc, []).

Definition block_device_write (lba count : Z) (buf : list Z) : M Z :=
  s <- get;;
  let d := dev s in
  if negb (present d) then ret (- EINVAL)
  else if negb (writable d) then ret (- EROFS)
  else if lba +u count <? lba then ret (- EINVAL)
  else if count =? 0 then (if lba <=? sector_count d then ret 0 else ret (- EINVAL))
  else if sector_count d <? lba +u count then ret (- EINVAL)
  else
    rc <- outcome;;
    if rc =? 0
    then modify (fun s => set_dev (set_sectors (wr_sectors (sectors (dev s)) lba count buf) (dev s)) s);;; ret 0
    else modify (fun s => set_dev (set_last_error rc (dev s)) s);;; ret rc.

(** ** Blocks and inodes *)

Definition ext2_read_block (block : Z) : M (Z * list Z) :=
  s <- get;; block_device_read (block * sectors_per_block s) (sectors_per_block s).
Definition ext2_write_block (block : Z) (buf : list Z) : M Z :=
  s <- get;; block_device_write (block * sectors_per_block s) (sectors_per_block s) buf.

(** The common prologue of [ext2_read_inode] and [ext2_write_inode]: the block
    of the inode table that holds the inode and its offset there. *)
Definition inode_slot (ino : Z) : M (option (Z * Z)) :=
  if ino =? 0 then ret None
  else
    s <- get;;
    if inodes_per_group s =? 0 then stuck
    else
      let group := (ino - 1) / inodes_per_group s in
      let index := (ino - 1) mod inodes_per_group s in
      if num_block_groups s <=? group then ret None
      else if inode_size s =? 0 then stuck
      else
        let table_start := bg_inode_table (bgdesc_table s) group in
        let inodes_per_blk := block_size s / inode_size s in
        if inodes_per_blk =? 0 then stuck
        else ret (Some (wrap32 (table_start + index / inodes_per_blk), index mod inodes_per_blk * inode_size s)).

Definition ext2_read_inode (ino : Z) : M (Z * list Z) :=
  slot <- inode_slot ino;;
  match slot with
  | None => ret (-1, [])
  | Some (block, inode_off) =>
    ok <- kmalloc;;
    if negb ok then ret (- ENOMEM, [])
    else
      rc & buf <- ext2_read_block block;;
      if negb (rc =? 0) then ret (-1, [])
      else out <- ldbuf inode_off INODE_SIZE buf;; ret (0, out)
  end.

Definition ext2_write_inode (ino : Z) (inode : list Z) : M Z :=
  slot <- inode_slot ino;;
  match slot with
  | None => ret (-1)
  | Some (block, inode_off) =>
    ok <- kmalloc;;
    if negb ok then ret (- ENOMEM)
    else
      rc & buf <- ext2_read_block block;;
      if negb (rc =? 0) then ret (-1)
      else buf <- stbuf inode_off inode buf;; ext2_write_block block buf
  end.

(** The loop of [ext2_write_superblock] over the descriptor table. *)
Fixpoint write_bgdesc (n : nat) (i : Z) : M Z :=
  match n with
  | O => ret 0
  | S n =>
    s <- get;;
    rc <- ext2_write_block (wrap32 (bgdesc_block s + i)) (slice (i * block_size s) (block_size s) (bgdesc_table s));;
    if negb (rc =? 0) then ret (-1) else write_bgdesc n (i + 1)
  end.

Definition ext2_write_superblock : M Z :=
  ok <- kmalloc;;
  if negb ok then ret (- ENOMEM)
  else
    s <- get;;
    rc <- block_device_write 2 2 (splice 0 (sb_raw s) (zeros 1024));;
    if negb (rc =? 0) then ret (-1)
    else write_bgdesc (Z.to_nat (bgdesc_table_blocks s)) 0.

Create HintDb ext2.

(** ** Running computations *)

Lemma run_bind {A B} (m : M A) (f : A -> M B) s x s' : m s = Some (x, s') -> bind m f s = f x s'.
Proof. intros E. unfold bind. by rewrite E. Qed.

Lemma bind_inv {A B} (m : M A) (f : A -> M B) s r :
  bind m f s = Some r -> exists x s', m s = Some (x, s') /\ f x s' = Some r.
Proof. unfold bind. destruct (m s) as [[x s']|]; [|done]. cbn. eauto. Qed.

(** Run one computation of a sequence whose result is known. *)
Tactic Notation "run" open_constr(H) := rewrite (run_bind _ _ _ _ _ H); cbn beta iota.
Ltac run_get :=
  match goal with
  | |- context [bind get ?f ?s] => change (bind get f s) with (f s s); cbn beta iota
  | |- context [bind (modify ?g) ?f ?s] => change (bind (modify g) f s) with (f tt (g s)); cbn beta iota
  | |- context [bind (ret ?x) ?f ?s] => change (bind (ret x) f s) with (f x s); cbn beta iota
  end.

(** ** Sectors *)

Lemma rd_sectors_app m lba n k : rd_sectors m lba (n + k) = rd_sectors m lba n ++ rd_sectors m (lba + Z.of_nat n) k.
Proof.
  revert lba; induction n as [|n IH]; intros lba; cbn [rd_sectors Nat.add app].
  - f_equal. lia.
  - rewrite IH, <- app_assoc. do 3 f_equal. lia.
Qed.

Lemma rd_sectors_ext m m' lba n :
  (forall x, lba <= x < lba + Z.of_nat n -> m' x = m x) -> rd_sectors m' lba n = rd_sectors m lba n.
Proof.
  revert lba; induction n as [|n IH]; intros lba He; [done|]. cbn [rd_sectors].
  rewrite He by lia. f_equal. apply IH. intros. apply He. lia.
Qed.

Definition sector_ok (b : list Z) : Prop := zlen b = 512 /\ bytes b.

Lemma rd_sectors_ok m lba n :
  (forall x, sector_ok (m x)) -> zlen (rd_sectors m lba n) = 512 * Z.of_nat n /\ bytes (rd_sectors m lba n).
Proof.
  intros Hm. revert lba; induction n as [|n IH]; intros lba; cbn [rd_sectors].
  - by split; [|constructor].
  - destruct (Hm lba) as [Hl Hb], (IH (lba + 1)) as [Hl' Hb']. split; [|by apply Forall_app_2].
    unfold zlen in *. rewrite length_app. lia.
Qed.

(** Reading back the sectors a buffer was written to. *)
Lemma rd_wr_sectors m lba count buf :
  0 <= count -> zlen buf = 512 * count ->
  rd_sectors (wr_sectors m lba count buf) lba (Z.to_nat count) = buf.
Proof.
  intros Hc Hl.
  cut (forall n k, 0 <= k -> k + Z.of_nat n = count ->
    rd_sectors (wr_sectors m lba count buf) (lba + k) n = slice (512 * k) (512 * Z.of_nat n) buf).
  { intros H. specialize (H (Z.to_nat count) 0). rewrite Z.add_0_r in H. rewrite H by lia.
    apply slice_all. lia. }
  induction n as [|n IH]; intros k Hk He; [done|]. cbn [rd_sectors].
  replace (lba + k + 1) with (lba + (k + 1)) by lia. rewrite IH by lia.
  unfold wr_sectors. bools; try lia. replace (lba + k - lba) with k by lia.
  unfold slice. replace (Z.to_nat (512 * (k + 1))) with (Z.to_nat (512 * k) + 512)%nat by lia.
  rewrite <- drop_drop.
  replace (Z.to_nat (512 * Z.of_nat (S n))) with (512 + Z.to_nat (512 * Z.of_nat n))%nat by lia.
  by rewrite take_take_drop.
Qed.

Lemma wr_sectors_ok m lba count buf :
  (forall x, sector_ok (m x)) -> zlen buf = 512 * count -> bytes buf ->
  forall x, sector_ok (wr_sectors m lba count buf x).
Proof.
  intros Hm Hl Hb x. unfold wr_sectors. bools; try done; [|apply Hm..].
  split; [apply zlen_slice; lia|by apply bytes_slice].
Qed.

(** ** A device on which every operation succeeds *)

(** No allocation and no transfer fails from now on, and the state in which
    none does. *)
Definition no_failure (s : ext2_fs) : Prop := outcomes s = fun _ => 0.
Definition calm (s : ext2_fs) : ext2_fs := set_outcomes (fun _ => 0) s.
Lemma calm_id s : no_failure s -> calm s = s.
Proof. intros H. destruct s. cbv in *. by subst. Qed.

(** The device is there and accepts writes, nothing fails, and the block size
    is one that [ext2_init] accepts. *)
Record ready (s : ext2_fs) : Prop := {
  ready_outcomes : no_failure s;
  ready_present : present (dev s) = true;
  ready_writable : writable (dev s) = true;
  ready_sectors : forall x, sector_ok (sectors (dev s) x);
  ready_count : 4 <= sector_count (dev s) < U64;
  ready_bs : block_size s = 1024 \/ block_size s = 2048 \/ block_size s = 4096;
  ready_spb : sectors_per_block s = block_size s / 512;
}.

(** The contents of block [b]; [b] lies on the device; the state after the
    block is written. *)
Definition blk (s : ext2_fs) (b : Z) : list Z :=
  rd_sectors (sectors (dev s)) (b * sectors_per_block s) (Z.to_nat (sectors_per_block s)).
Definition in_dev (s : ext2_fs) (b : Z) : Prop := 0 <= b /\ (b + 1) * sectors_per_block s <= sector_count (dev s).
Definition put (b : Z) (v : list Z) (s : ext2_fs) : ext2_fs :=
  set_dev (set_sectors (wr_sectors (sectors (dev s)) (b * sectors_per_block s) (sectors_per_block s) v) (dev s)) s.

Lemma ready_sizes s : ready s -> 512 * sectors_per_block s = block_size s /\ 2 <= sectors_per_block s <= 8.
Proof. intros [_ _ _ _ _ [H|[H|H]] ->]; rewrite H; split; try done; lia. Qed.

Lemma outcome_ok s : ready s -> outcome s = Some (0, s).
Proof.
  intros H. unfold outcome. pose proof (ready_outcomes s H : outcomes s = _) as E. rewrite E. do 2 f_equal.
  destruct s; cbn in *. by subst.
Qed.

Lemma kmalloc_ok s : ready s -> kmalloc s = Some (true, s).
Proof. intros H. unfold kmalloc. by run (outcome_ok s H). Qed.

Lemma read_ok s lba count :
  ready s -> 0 <= lba -> 0 < count -> lba + count <= sector_count (dev s) ->
  block_device_read lba count s = Some ((0, rd_sectors (sectors (dev s)) lba (Z.to_nat count)), s).
Proof.
  intros H ???. pose proof (ready_count s H). unfold block_device_read. run_get.
  rewrite (ready_present s H). cbn. unwrap. bools; try lia. by run (outcome_ok s H).
Qed.

Lemma write_ok s lba count buf :
  ready s -> 0 <= lba -> 0 < count -> lba + count <= sector_count (dev s) ->
  block_device_write lba count buf s =
    Some (0, set_dev (set_sectors (wr_sectors (sectors (dev s)) lba count buf) (dev s)) s).
Proof.
  intros H ???. pose proof (ready_count s H). unfold block_device_write. run_get.
  rewrite (ready_present s H), (ready_writable s H). cbn. unwrap. bools; try lia. by run (outcome_ok s H).
Qed.

Lemma read_block_ok s b : ready s -> in_dev s b -> ext2_read_block b s = Some ((0, blk s b), s).
Proof.
  intros H [Hb Hd]. pose proof (ready_sizes s H). unfold ext2_read_block. run_get.
  rewrite read_ok; [done|done|nia..].
Qed.

Lemma write_block_ok s b v : ready s -> in_dev s b -> ext2_write_block b v s = Some (0, put b v s).
Proof.
  intros H [Hb Hd]. pose proof (ready_sizes s H). unfold ext2_write_block. run_get.
  rewrite write_ok; [done|done|nia..].
Qed.

Lemma blk_ok s b : ready s -> zlen (blk s b) = block_size s /\ bytes (blk s b).
Proof.
  intros H. pose proof (ready_sizes s H). destruct (rd_sectors_ok (sectors (dev s)) (b * sectors_per_block s)
    (Z.to_nat (sectors_per_block s)) (ready_sectors s H)). split; [|done]. unfold blk. lia.
Qed.

Lemma ready_put s b v : ready s -> zlen v = block_size s -> bytes v -> ready (put b v s).
Proof.
  intros H Hl Hb. pose proof (ready_sizes s H). destruct H. constructor; try done.
  cbn. apply wr_sectors_ok; [done|lia|done].
Qed.

Lemma blk_put_eq s b v : ready s -> zlen v = block_size s -> blk (put b v s) b = v.
Proof. intros H Hl. pose proof (ready_sizes s H). unfold blk. cbn. apply rd_wr_sectors; lia. Qed.

Lemma blk_put_ne s b v b' : ready s -> b' <> b -> blk (put b v s) b' = blk s b'.
Proof.
  intros H Hn. pose proof (ready_sizes s H). unfold blk. cbn. apply rd_sectors_ext. intros x Hx.
  unfold wr_sectors. bools; try done. nia.
Qed.

Lemma in_dev_put s b v b' : in_dev (put b v s) b' <-> in_dev s b'.
Proof. done. Qed.

Lemma rd_sectors_slice m lba n j k :
  (forall x, sector_ok (m x)) -> (j + k <= n)%nat ->
  slice (512 * Z.of_nat j) (512 * Z.of_nat k) (rd_sectors m lba n) = rd_sectors m (lba + Z.of_nat j) k.
Proof.
  intros Hm Hn. replace n with (j + (k + (n - j - k)))%nat by lia. rewrite !rd_sectors_app.
  destruct (rd_sectors_ok m lba j Hm) as [Hl _], (rd_sectors_ok m (lba + Z.of_nat j) k Hm) as [Hl' _].
  unfold slice, zlen in *. rewrite drop_app_length' by lia. by rewrite take_app_length' by lia.
Qed.

(** ** The superblock and the descriptor table *)

(** The block that holds the superblock, and the superblock's sectors. *)
Definition sb_block (s : ext2_fs) : Z := if block_size s =? 1024 then 1 else 0.
Definition sb_disk (s : ext2_fs) : list Z := rd_sectors (sectors (dev s)) 2 2.

Lemma sb_disk_blk s : ready s -> sb_disk s = slice (1024 mod block_size s) 1024 (blk s (sb_block s)).
Proof.
  intros H. unfold sb_disk, blk, sb_block. pose proof (ready_sectors s H) as Hm.
  pose proof (ready_spb s H) as ->.
  destruct (ready_bs s H) as [->|[->| ->]].
  - symmetry. apply (rd_sectors_slice _ 2 2 0 2 Hm). lia.
  - symmetry. apply (rd_sectors_slice _ 0 4 2 2 Hm). lia.
  - symmetry. apply (rd_sectors_slice _ 0 8 2 2 Hm). lia.
Qed.

(** The superblock's sectors lie in its block. *)
Lemma sb_sectors s b x :
  ready s -> 2 <= x < 4 -> b * sectors_per_block s <= x < b * sectors_per_block s + sectors_per_block s -> b = sb_block s.
Proof.
  intros Hr Hx Hb. destruct (ready_sizes s Hr) as [E _]. unfold sb_block.
  destruct (ready_bs s Hr) as [E'|[E'|E']]; rewrite E' in *; cbn [Z.eqb Pos.eqb];
    [replace (sectors_per_block s) with 2 in * by lia|replace (sectors_per_block s) with 4 in * by lia
    |replace (sectors_per_block s) with 8 in * by lia]; lia.
Qed.

(** What an operation that only touches blocks leaves alone. *)
Record same (s s' : ext2_fs) : Prop := {
  same_geo : geo s' = geo s;
  same_orphans : orphans s' = orphans s;
  same_mount : mount s' = mount s;
  same_count : sector_count (dev s') = sector_count (dev s);
}.
#[export] Instance same_refl : Reflexive same.
Proof. by intros s. Qed.
#[export] Instance same_trans : Transitive same.
Proof. intros s1 s2 s3 [] []. constructor; congruence. Qed.

Lemma same_put b v s : same s (put b v s).
Proof. done. Qed.
Lemma same_table v s : same s (set_table v s).
Proof. done. Qed.
Lemma same_sb v s : same s (set_sb v s).
Proof. done. Qed.
#[export] Hint Resolve same_put same_table same_sb : ext2.

Lemma same_in_dev s s' b : same s s' -> in_dev s' b <-> in_dev s b.
Proof. intros [Hg _ _ Hc]. unfold in_dev. by rewrite Hg, Hc. Qed.

(** The cached superblock and descriptor table, and where they live. *)
Record cached (s : ext2_fs) : Prop := {
  cached_ready : ready s;
  cached_sb : zlen (sb_raw s) = SB_SIZE /\ bytes (sb_raw s);
  cached_table : zlen (bgdesc_table s) = bgdesc_table_blocks s * block_size s /\ bytes (bgdesc_table s);
  cached_at : bgdesc_block s = sb_block s + 1;
  cached_blocks : 0 <= bgdesc_table_blocks s /\ bgdesc_block s + bgdesc_table_blocks s <= U32;
  cached_in_dev : forall i, 0 <= i < bgdesc_table_blocks s -> in_dev s (bgdesc_block s + i);
}.

(** The disk holds the cached copies. *)
Definition synced (s : ext2_fs) : Prop :=
  slice 0 SB_SIZE (sb_disk s) = sb_raw s /\
  forall i, 0 <= i < bgdesc_table_blocks s ->
    blk s (bgdesc_block s + i) = slice (i * block_size s) (block_size s) (bgdesc_table s).

Definition sb_area (s : ext2_fs) (b : Z) : Prop :=
  b = sb_block s \/ bgdesc_block s <= b < bgdesc_block s + bgdesc_table_blocks s.

Lemma cached_put s b v : cached s -> zlen v = block_size s -> bytes v -> cached (put b v s).
Proof. intros [] ??. constructor; try done. by apply ready_put. Qed.

Lemma write_bgdesc_ok n i s :
  cached s -> 0 <= i -> i + Z.of_nat n = bgdesc_table_blocks s ->
  exists s', write_bgdesc n i s = Some (0, s') /\ same s s' /\ cached s' /\
    bgdesc_table s' = bgdesc_table s /\ sb_raw s' = sb_raw s /\
    forall b, blk s' b =
      if (bgdesc_block s + i <=? b) && (b <? bgdesc_block s + bgdesc_table_blocks s)
      then slice ((b - bgdesc_block s) * block_size s) (block_size s) (bgdesc_table s) else blk s b.
Proof.
  revert i s; induction n as [|n IH]; intros i s Hc Hi He; cbn [write_bgdesc].
  - exists s. split_and!; [done..|]. intros b. bools; try done. lia.
  - pose proof (cached_blocks s Hc). pose proof (cached_in_dev s Hc i ltac:(lia)) as Hd.
    destruct (cached_table s Hc) as [Hl Hb]. pose proof (cached_ready s Hc) as Hr.
    assert (0 < block_size s) by (destruct (ready_bs s Hr) as [->|[->| ->]]; lia).
    assert (zlen (slice (i * block_size s) (block_size s) (bgdesc_table s)) = block_size s) as Hv
      by (apply zlen_slice; nia).
    assert (0 <= bgdesc_block s) by (rewrite (cached_at s Hc); unfold sb_block; destruct (_ =? _); lia).
    run_get. unfold wrap32. rewrite (Z.mod_small (bgdesc_block s + i)) by lia.
    run (write_block_ok s (bgdesc_block s + i) _ Hr Hd). cbn [Z.eqb negb].
    destruct (IH (i + 1) (put (bgdesc_block s + i) (slice (i * block_size s) (block_size s) (bgdesc_table s)) s))
      as (s' & -> & Hs & Hc' & Ht & Hsb & Hblk); [|lia|cbn; lia|].
    { apply cached_put; [done|done|by apply bytes_slice]. }
    exists s'. split_and!; [done| |done..|]; [etrans; [apply same_put|done]|].
    intros b. rewrite Hblk. cbn. destruct (decide (b = bgdesc_block s + i)) as [->|Hn].
    + rewrite blk_put_eq by done. bools; try lia. do 2 f_equal; lia.
    + rewrite blk_put_ne by done. bools; try lia; done.
Qed.

(** Writing the superblock's two sectors touches only the block that holds it. *)
Definition put_sb (buf : list Z) (s : ext2_fs) : ext2_fs :=
  set_dev (set_sectors (wr_sectors (sectors (dev s)) 2 2 buf) (dev s)) s.

Lemma put_sb_ok s buf :
  cached s -> zlen buf = 1024 -> bytes buf ->
  cached (put_sb buf s) /\ sb_disk (put_sb buf s) = buf /\
  forall b, b <> sb_block s -> blk (put_sb buf s) b = blk s b.
Proof.
  intros Hc Hl Hb. pose proof (cached_ready s Hc) as Hr. split_and!.
  - destruct Hc. constructor; try done. destruct Hr. constructor; try done.
    cbn. by apply wr_sectors_ok.
  - by apply (rd_wr_sectors _ 2 2).
  - intros b Hn. unfold blk, put_sb. cbn. apply rd_sectors_ext. intros x Hx.
    destruct (ready_sizes s Hr). unfold wr_sectors. bools; try done.
    exfalso. apply Hn, (sb_sectors s b x); [done|lia..].
Qed.

Lemma write_superblock_ok s :
  cached s ->
  exists s', ext2_write_superblock s = Some (0, s') /\ same s s' /\ cached s' /\ synced s' /\
    bgdesc_table s' = bgdesc_table s /\ sb_raw s' = sb_raw s /\
    forall b, ~ sb_area s b -> blk s' b = blk s b.
Proof.
  intros Hc. pose proof (cached_ready s Hc) as Hr. destruct (cached_sb s Hc) as [Hl Hb].
  set (buf := splice 0 (sb_raw s) (zeros 1024)).
  assert (zlen buf = 1024) as Hbl
    by (unfold buf; rewrite zlen_splice; rewrite ?zlen_zeros, ?Hl; lia).
  assert (bytes buf) as Hbb by (apply bytes_splice; [done|apply bytes_zeros]).
  destruct (put_sb_ok s buf Hc Hbl Hbb) as (Hc1 & Hd1 & Hk1).
  unfold ext2_write_superblock. run (kmalloc_ok s Hr). cbn [negb]. run_get.
  pose proof (ready_count s Hr). run (write_ok s 2 2 buf Hr ltac:(lia) ltac:(lia) ltac:(lia)). cbn [Z.eqb negb].
  fold (put_sb buf s). pose proof (cached_blocks s Hc).
  destruct (write_bgdesc_ok (Z.to_nat (bgdesc_table_blocks s)) 0 (put_sb buf s) Hc1) as
    (s' & -> & Hs & Hc' & Ht & Hsb & Hblk); [lia|cbn; lia|].
  pose proof (cached_at s Hc) as Hat.
  assert (same s s') as Hss by (etrans; [|done]; done).
  assert (blk s' (sb_block s) = blk (put_sb buf s) (sb_block s)) as Hsbb.
  { rewrite Hblk. cbn. bools; try done. lia. }
  exists s'. split_and!; [done|done|done| |done|done|].
  - split.
    + assert (sb_block s' = sb_block s) as E by (unfold sb_block; by rewrite (same_geo _ _ Hss)).
      rewrite (sb_disk_blk _ (cached_ready _ Hc')), E, Hsbb, (same_geo _ _ Hss).
      change (sb_block s) with (sb_block (put_sb buf s)). change (geo s) with (geo (put_sb buf s)).
      rewrite <- (sb_disk_blk _ (cached_ready _ Hc1)), Hd1, Hsb. cbn [sb_raw put_sb set_dev].
      unfold buf. rewrite <- Hl at 1. apply slice_splice_eq; [lia|]. rewrite Hl, zlen_zeros; lia.
    + intros i Hi. rewrite (same_geo _ _ Hss) in *. rewrite Hblk, Ht. cbn. bools; try lia. do 2 f_equal. lia.
  - intros b Hn. unfold sb_area in Hn. rewrite Hblk. cbn. rewrite Hk1 by lia. bools; try done. lia.
Qed.

(** ** Metadata blocks *)

(** The blocks that belong to the file system itself: the superblock, the
    descriptor table, and of each group the two bitmaps and the inode table. *)
Inductive meta := MSb | MDesc (i : Z) | MBitmap (g : Z) | MIBitmap (g : Z) | MITable (g k : Z).

Definition inodes_per_blk (s : ext2_fs) : Z := block_size s / inode_size s.
Definition meta_ok (s : ext2_fs) (m : meta) : Prop :=
  match m with
  | MSb => True
  | MDesc i => 0 <= i < bgdesc_table_blocks s
  | MBitmap g | MIBitmap g => 0 <= g < num_block_groups s
  | MITable g k => 0 <= g < num_block_groups s /\ 0 <= k <= (inodes_per_group s - 1) / inodes_per_blk s
  end.
Definition meta_at (s : ext2_fs) (m : meta) : Z :=
  match m with
  | MSb => sb_block s
  | MDesc i => bgdesc_block s + i
  | MBitmap g => bg_block_bitmap (bgdesc_table s) g
  | MIBitmap g => bg_inode_bitmap (bgdesc_table s) g
  | MITable g k => bg_inode_table (bgdesc_table s) g + k
  end.

(** A consistent geometry whose metadata blocks are pairwise different. *)
Record layout (s : ext2_fs) : Prop := {
  lay_cached : cached s;
  lay_groups : 0 < num_block_groups s /\ BGDESC_SIZE * num_block_groups s <= zlen (bgdesc_table s);
  lay_bpg : 0 < blocks_per_group s <= 8 * block_size s /\ blocks_per_group s mod 8 = 0 /\
            num_block_groups s * blocks_per_group s < U32;
  lay_ipg : 0 < inodes_per_group s <= 8 * block_size s /\ inodes_per_group s mod 8 = 0 /\
            num_block_groups s * inodes_per_group s < U32;
  lay_inode : INODE_SIZE <= inode_size s <= block_size s;
  lay_meta : forall m, meta_ok s m -> in_dev s (meta_at s m) /\ meta_at s m < U32;
  lay_inj : forall m m', meta_ok s m -> meta_ok s m' -> meta_at s m = meta_at s m' -> m = m';
}.

Definition same_addrs (s : ext2_fs) (t : list Z) : Prop :=
  forall g, 0 <= g < num_block_groups s ->
    bg_block_bitmap t g = bg_block_bitmap (bgdesc_table s) g /\
    bg_inode_bitmap t g = bg_inode_bitmap (bgdesc_table s) g /\
    bg_inode_table t g = bg_inode_table (bgdesc_table s) g.

Lemma same_meta s s' m :
  same s s' -> same_addrs s (bgdesc_table s') -> meta_ok s m -> meta_at s' m = meta_at s m.
Proof.
  intros Hs Ha Hm. destruct m as [|i|g|g|g k]; cbn in *; unfold sb_block; rewrite ?(same_geo _ _ Hs); try done;
    [apply Ha; lia..|]. f_equal. apply Ha. lia.
Qed.

Lemma layout_step s s' :
  layout s -> same s s' -> cached s' -> same_addrs s (bgdesc_table s') -> layout s'.
Proof.
  intros [Hc Hg Hb Hi Hn Hm Hj] Hs Hc' Ha. pose proof (same_geo _ _ Hs) as E.
  assert (forall m, meta_ok s' m -> meta_ok s m) as Hk.
  { intros []; cbn; unfold inodes_per_blk; by rewrite ?E. }
  constructor; rewrite ?E; try done.
  - split; [lia|]. rewrite (proj1 (cached_table s' Hc')), E, <- (proj1 (cached_table s Hc)). lia.
  - intros m Hmk%Hk. rewrite (same_meta s s' m Hs Ha Hmk), (same_in_dev s s' _ Hs). by apply Hm.
  - intros m m' Hmk%Hk Hmk'%Hk. rewrite !(same_meta s s' _ Hs Ha) by done. by apply Hj.
Qed.

Lemma lay_ready s : layout s -> ready s.
Proof. intros []. by apply cached_ready. Qed.

(** ** Inodes *)

Definition valid_ino (s : ext2_fs) (ino : Z) : Prop := 1 <= ino <= num_block_groups s * inodes_per_group s.
Definition ino_group (s : ext2_fs) (ino : Z) : Z := (ino - 1) / inodes_per_group s.
Definition ino_index (s : ext2_fs) (ino : Z) : Z := (ino - 1) mod inodes_per_group s.
Definition ino_meta (s : ext2_fs) (ino : Z) : meta := MITable (ino_group s ino) (ino_index s ino / inodes_per_blk s).
Definition ino_block (s : ext2_fs) (ino : Z) : Z := meta_at s (ino_meta s ino).
Definition ino_off (s : ext2_fs) (ino : Z) : Z := ino_index s ino mod inodes_per_blk s * inode_size s.
Definition inode (s : ext2_fs) (ino : Z) : list Z := slice (ino_off s ino) INODE_SIZE (blk s (ino_block s ino)).
Definition put_inode (ino : Z) (v : list Z) (s : ext2_fs) : ext2_fs :=
  put (ino_block s ino) (splice (ino_off s ino) v (blk s (ino_block s ino))) s.

Lemma ino_bounds s ino :
  layout s -> valid_ino s ino ->
  0 <= ino_group s ino < num_block_groups s /\ 0 <= ino_index s ino < inodes_per_group s /\
  meta_ok s (ino_meta s ino) /\ 0 < inodes_per_blk s /\
  0 <= ino_off s ino /\ ino_off s ino + INODE_SIZE <= block_size s.
Proof.
  intros H [H1 H2]. destruct (lay_ipg s H) as (Hi & _ & _). pose proof (lay_inode s H) as Hn.
  assert (0 <= ino_group s ino < num_block_groups s) as Hg.
  { unfold ino_group. split; [apply Z.div_pos; lia|]. apply Z.div_lt_upper_bound; lia. }
  assert (0 <= ino_index s ino < inodes_per_group s) as Hx by (apply Z.mod_pos_bound; lia).
  assert (0 < inodes_per_blk s) as Hp by (apply Z.div_str_pos; lia).
  assert (0 <= ino_index s ino / inodes_per_blk s <= (inodes_per_group s - 1) / inodes_per_blk s)
    by (split; [apply Z.div_pos|apply Z.div_le_mono]; lia).
  assert (0 <= ino_index s ino mod inodes_per_blk s < inodes_per_blk s) by (apply Z.mod_pos_bound; lia).
  assert (inodes_per_blk s * inode_size s <= block_size s)
    by (unfold inodes_per_blk; rewrite Z.mul_comm; apply Z.mul_div_le; lia).
  unfold ino_off. split_and!; try lia; [by split|nia..].
Qed.

Lemma inode_slot_any s s1 ino :
  layout s -> geo s1 = geo s -> bgdesc_table s1 = bgdesc_table s -> valid_ino s ino ->
  inode_slot ino s1 = Some (Some (ino_block s ino, ino_off s ino), s1).
Proof.
  intros H Eg Et Hv. destruct (ino_bounds s ino H Hv) as (Hg & Hx & Hm & Hp & _).
  destruct (lay_meta s H _ Hm) as [[Hd _] Hu]. pose proof (lay_inode s H). destruct Hv.
  destruct (lay_ipg s H) as (Hi & _ & _).
  unfold inode_slot. destruct (Z.eqb_spec ino 0); [lia|]. run_get. rewrite Eg, Et.
  destruct (Z.eqb_spec (inodes_per_group s) 0); [lia|].
  fold (ino_group s ino) (ino_index s ino) (inodes_per_blk s). bools; try lia.
  unfold wrap32. rewrite Z.mod_small by done. done.
Qed.
Lemma inode_slot_ok s ino :
  layout s -> valid_ino s ino -> inode_slot ino s = Some (Some (ino_block s ino, ino_off s ino), s).
Proof. intros H. by apply inode_slot_any. Qed.

Lemma inode_ok s ino : layout s -> valid_ino s ino -> zlen (inode s ino) = INODE_SIZE /\ bytes (inode s ino).
Proof.
  intros H Hv. destruct (ino_bounds s ino H Hv) as (_ & _ & _ & _ & ? & ?).
  destruct (blk_ok s (ino_block s ino) (lay_ready s H)) as [? ?].
  split; [apply zlen_slice; lia|by apply bytes_slice].
Qed.

Lemma read_inode_ok s ino :
  layout s -> valid_ino s ino -> ext2_read_inode ino s = Some ((0, inode s ino), s).
Proof.
  intros H Hv. pose proof (lay_ready s H) as Hr. destruct (ino_bounds s ino H Hv) as (_ & _ & Hm & _ & ? & ?).
  destruct (lay_meta s H _ Hm) as [Hd _]. fold (ino_block s ino) in Hd. unfold ext2_read_inode.
  run (inode_slot_ok s ino H Hv). run (kmalloc_ok s Hr). cbn [negb].
  run (read_block_ok s _ Hr Hd). cbn [Z.eqb negb]. unfold ldbuf.
  rewrite (proj1 (blk_ok s (ino_block s ino) Hr)). destruct (Z.leb_spec 0 (ino_off s ino)); [|lia].
  destruct (Z.leb_spec (ino_off s ino + INODE_SIZE) (block_size s)); [|lia]. done.
Qed.

Lemma write_inode_ok s ino v :
  layout s -> valid_ino s ino -> zlen v = INODE_SIZE -> ext2_write_inode ino v s = Some (0, put_inode ino v s).
Proof.
  intros H Hv Hl. pose proof (lay_ready s H) as Hr. destruct (ino_bounds s ino H Hv) as (_ & _ & Hm & _ & ? & ?).
  destruct (lay_meta s H _ Hm) as [Hd _]. fold (ino_block s ino) in Hd. unfold ext2_write_inode.
  run (inode_slot_ok s ino H Hv). run (kmalloc_ok s Hr). cbn [negb].
  run (read_block_ok s _ Hr Hd). cbn [Z.eqb negb]. unfold stbuf.
  rewrite (proj1 (blk_ok s (ino_block s ino) Hr)), Hl. destruct (Z.leb_spec 0 (ino_off s ino)); [|lia].
  destruct (Z.leb_spec (ino_off s ino + INODE_SIZE) (block_size s)); [|lia]. cbn [andb]. run_get.
  by apply write_block_ok.
Qed.

Lemma layout_put s b v : layout s -> zlen v = block_size s -> bytes v -> layout (put b v s).
Proof. intros H ??. apply (layout_step s); [done..| |done]. apply cached_put; [by apply lay_cached|done..]. Qed.

Lemma synced_put s b v : layout s -> synced s -> ~ sb_area s b -> synced (put b v s).
Proof.
  intros H [Hsb Ht] Hn. pose proof (lay_ready s H) as Hr. split.
  - transitivity (slice 0 SB_SIZE (sb_disk s)); [|done]. f_equal.
    apply (rd_sectors_ext (sectors (dev s)) _ 2 2). intros x Hx. change (Z.of_nat 2) with 2 in Hx.
    unfold put. cbn [dev set_dev set_sectors sectors]. unfold wr_sectors. bools; try done.
    exfalso. apply Hn. left. apply (sb_sectors s b x); [done|lia..].
  - intros i Hi. rewrite blk_put_ne; [by apply Ht|done|].
    intros E. apply Hn. right. rewrite <- E. change (geo (put b v s)) with (geo s) in *. lia.
Qed.

(** Different inodes occupy different bytes of the inode tables. *)
Lemma ino_apart s ino ino' :
  layout s -> valid_ino s ino -> valid_ino s ino' -> ino <> ino' -> ino_block s ino = ino_block s ino' ->
  ino_off s ino + INODE_SIZE <= ino_off s ino' \/ ino_off s ino' + INODE_SIZE <= ino_off s ino.
Proof.
  intros H Hv Hv' Hn Hb. destruct (ino_bounds s ino H Hv) as (_ & _ & Hm & Hp & _).
  destruct (ino_bounds s ino' H Hv') as (_ & _ & Hm' & _).
  apply (lay_inj s H) in Hb; [|done..]. unfold ino_meta in Hb. injection Hb as Hg Hk.
  pose proof (lay_inode s H). destruct (lay_ipg s H) as (Hi & _ & _).
  assert (ino_index s ino <> ino_index s ino') as Hx.
  { intros Hx. apply Hn. unfold ino_group, ino_index in *.
    pose proof (Z.div_mod (ino - 1) (inodes_per_group s)). pose proof (Z.div_mod (ino' - 1) (inodes_per_group s)). nia. }
  pose proof (Z.div_mod (ino_index s ino) (inodes_per_blk s)).
  pose proof (Z.div_mod (ino_index s ino') (inodes_per_blk s)). unfold ino_off.
  assert (ino_index s ino mod inodes_per_blk s <> ino_index s ino' mod inodes_per_blk s) by nia.
  nia.
Qed.

Lemma put_inode_block s ino v :
  layout s -> valid_ino s ino -> zlen v = INODE_SIZE -> bytes v ->
  zlen (splice (ino_off s ino) v (blk s (ino_block s ino))) = block_size s /\
  bytes (splice (ino_off s ino) v (blk s (ino_block s ino))).
Proof.
  intros H Hv Hl Hb. destruct (ino_bounds s ino H Hv) as (_ & _ & _ & _ & ? & ?).
  destruct (blk_ok s (ino_block s ino) (lay_ready s H)) as [Hz ?].
  split; [|by apply bytes_splice]. rewrite zlen_splice; lia.
Qed.

Lemma layout_put_inode s ino v :
  layout s -> valid_ino s ino -> zlen v = INODE_SIZE -> bytes v -> layout (put_inode ino v s).
Proof. intros H ???. by apply layout_put; [|apply put_inode_block..]. Qed.

Lemma inode_put_ne s b v ino : ready s -> ino_block s ino <> b -> inode (put b v s) ino = inode s ino.
Proof.
  intros Hr Hn. unfold inode. change (ino_off (put b v s) ino) with (ino_off s ino).
  change (ino_block (put b v s) ino) with (ino_block s ino). by rewrite blk_put_ne.
Qed.

Lemma inode_put_inode s ino v ino' :
  layout s -> valid_ino s ino -> valid_ino s ino' -> zlen v = INODE_SIZE -> bytes v ->
  inode (put_inode ino v s) ino' = if ino' =? ino then v else inode s ino'.
Proof.
  intros H Hv Hv' Hl Hb. pose proof (lay_ready s H) as Hr.
  destruct (put_inode_block s ino v H Hv Hl Hb) as [Hbl _].
  destruct (ino_bounds s ino H Hv) as (_ & _ & _ & _ & ? & ?).
  destruct (ino_bounds s ino' H Hv') as (_ & _ & _ & _ & ? & ?).
  destruct (blk_ok s (ino_block s ino) Hr) as [Hz _].
  destruct (decide (ino_block s ino' = ino_block s ino)) as [E|E].
  - unfold inode, put_inode. change (ino_off (put _ _ s) ino') with (ino_off s ino').
    change (ino_block (put _ _ s) ino') with (ino_block s ino'). rewrite E, blk_put_eq by done.
    destruct (Z.eqb_spec ino' ino) as [->|Hn].
    + rewrite <- Hl. apply slice_splice_eq; lia.
    + destruct (ino_apart s ino' ino H Hv' Hv Hn E); rewrite slice_splice_ne; lia || done.
  - destruct (Z.eqb_spec ino' ino) as [->|Hn]; [done|]. by apply inode_put_ne.
Qed.

(** ** When calls fail *)

(** [s'] is [s] but for the calls that were made and the device's last error. *)
Definition unharmed (s s' : ext2_fs) : Prop :=
  exists rc o, s' = set_outcomes o (set_dev (set_last_error rc (dev s)) s).
#[export] Instance unharmed_refl : Reflexive unharmed.
Proof. intros s. exists (last_error (dev s)), (outcomes s). by destruct s as [? ? ? ? []]. Qed.
#[export] Instance unharmed_trans : Transitive unharmed.
Proof. intros s1 s2 s3 (rc & o & ->) (rc' & o' & ->). by exists rc', o'. Qed.

(** [s'] is a state of the same volume in which only blocks in [P] changed. *)
Record framed (P : Z -> Prop) (s s' : ext2_fs) : Prop := {
  fr_geo : geo s' = geo s;
  fr_table : bgdesc_table s' = bgdesc_table s;
  fr_sb : sb_raw s' = sb_raw s;
  fr_blk : forall b, ~ P b -> blk s' b = blk s b;
}.
Lemma framed_trans P s1 s2 s3 : framed P s1 s2 -> framed P s2 s3 -> framed P s1 s3.
Proof. intros [] []. constructor; try congruence. intros b Hb. rewrite fr_blk1, fr_blk0; done. Qed.
Lemma framed_unharmed P s s' : unharmed s s' -> framed P s s'.
Proof. by intros (rc & o & ->). Qed.
Lemma framed_weaken (P Q : Z -> Prop) s s' : (forall b, P b -> Q b) -> framed P s s' -> framed Q s s'.
Proof. intros Hpq []. constructor; try done. intros b Hb. apply fr_blk0. by intros ?%Hpq. Qed.

Lemma outcome_any s : exists rc s1, outcome s = Some (rc, s1) /\ unharmed s s1.
Proof. eexists _, _. split; [done|]. exists (last_error (dev s)). eexists. by destruct s as [? ? ? ? []]. Qed.
Lemma kmalloc_any s : exists ok s1, kmalloc s = Some (ok, s1) /\ unharmed s s1.
Proof. unfold kmalloc. destruct (outcome_any s) as (rc & s1 & E & H). run E. by eexists _, _. Qed.

Lemma read_any s lba count :
  count <> 0 -> exists rc buf s1, block_device_read lba count s = Some ((rc, buf), s1) /\ unharmed s s1 /\
    (rc = 0 -> buf = rd_sectors (sectors (dev s)) lba (Z.to_nat count)).
Proof.
  intros Hc. unfold block_device_read. run_get. destruct (present _); cbn [negb]; [|eexists _, _, _; by split_and!].
  destruct (_ <? lba); [eexists _, _, _; by split_and!|]. rewrite (proj2 (Z.eqb_neq _ _) Hc).
  destruct (_ <? _); [eexists _, _, _; by split_and!|]. destruct (outcome_any s) as (rc & s1 & E & Hu). run E.
  destruct (Z.eqb_spec rc 0); [by eexists _, _, _|]. eexists _, _, _. split_and!; [done| |done].
  etrans; [exact Hu|]. exists rc, (outcomes s1). by destruct s1.
Qed.

Lemma write_any s lba count buf :
  exists rc s1, block_device_write lba count buf s = Some (rc, s1) /\
    (unharmed s s1 \/ unharmed (set_dev (set_sectors (wr_sectors (sectors (dev s)) lba count buf) (dev s)) s) s1).
Proof.
  unfold block_device_write. run_get.
  assert (forall rc : Z, exists rc1 s1, ret rc s = Some (rc1, s1) /\
    (unharmed s s1 \/ unharmed (set_dev (set_sectors (wr_sectors (sectors (dev s)) lba count buf) (dev s)) s) s1)) as Hr
    by (intros rc; exists rc, s; split; [done|by left]).
  destruct (present _); cbn [negb]; [|apply Hr]. destruct (writable _); cbn [negb]; [|apply Hr]. destruct (_ <? lba); [apply Hr|].
  destruct (count =? 0); [destruct (_ <=? _); apply Hr|]. destruct (_ <? _); [apply Hr|].
  destruct (outcome_any s) as (rc & s1 & E & Hu). run E. destruct (rc =? 0); (eexists _, _; split; [done|]).
  - right. destruct Hu as (rc1 & o & ->). by exists rc1, o.
  - left. etrans; [exact Hu|]. exists rc, (outcomes s1). by destruct s1.
Qed.

Lemma unharmed_calm s : unharmed (calm s) s.
Proof. exists (last_error (dev s)), (outcomes s). by destruct s as [? ? ? ? []]. Qed.

Section failures.
Context (s0 : ext2_fs) (H0 : ready s0).

Lemma read_block_any s b : geo s = geo s0 ->
  exists rc buf s1, ext2_read_block b s = Some ((rc, buf), s1) /\ unharmed s s1 /\ (rc = 0 -> buf = blk s b).
Proof using H0.
  intros E. pose proof (ready_sizes s0 H0). unfold ext2_read_block. run_get. apply read_any. rewrite E. lia.
Qed.

Lemma framed_put s b v : geo s = geo s0 -> framed (eq b) s (put b v s).
Proof using H0.
  intros E. constructor; try done. intros b' Hne. pose proof (ready_sizes s0 H0). unfold blk. cbn. rewrite E. apply rd_sectors_ext.
  intros x Hx. unfold wr_sectors. bools; try done. nia.
Qed.

Lemma write_block_any s b v : geo s = geo s0 -> exists rc s1, ext2_write_block b v s = Some (rc, s1) /\ framed (eq b) s s1.
Proof using H0.
  intros E. unfold ext2_write_block. run_get. destruct (write_any s (b * sectors_per_block s) (sectors_per_block s) v) as (rc & s1 & Ew & Hu).
  exists rc, s1. split; [done|]. destruct Hu as [Hu|Hu]; [by apply framed_unharmed|].
  eapply framed_trans; [by apply framed_put|by apply framed_unharmed].
Qed.

Lemma write_bgdesc_any n : forall i s, geo s = geo s0 -> 0 <= i -> i + Z.of_nat n = bgdesc_table_blocks s0 ->
  0 <= bgdesc_block s0 -> bgdesc_block s0 + bgdesc_table_blocks s0 <= U32 ->
  exists rc s1, write_bgdesc n i s = Some (rc, s1) /\ framed (sb_area s0) s s1.
Proof using H0.
  induction n as [|n IH]; intros i s E Hi Hn Hb Hu; cbn [write_bgdesc]; [by eexists _, _|]. run_get.
  destruct (write_block_any s (wrap32 (bgdesc_block s + i)) (slice (i * block_size s) (block_size s) (bgdesc_table s)) E)
    as (rc & s1 & Ew & Hf). run Ew.
  assert (framed (sb_area s0) s s1) as Hf'.
  { eapply framed_weaken; [|exact Hf]. intros b <-. right. rewrite E. unfold wrap32. rewrite Z.mod_small; lia. }
  destruct (negb (rc =? 0)); [by eexists _, _|].
  destruct (IH (i + 1) s1) as (rc2 & s2 & E2 & Hf2); [by rewrite (fr_geo _ _ _ Hf)|lia..|].
  exists rc2, s2. split; [done|]. by eapply framed_trans.
Qed.

Lemma write_superblock_any s : cached s0 -> geo s = geo s0 ->
  exists rc s1, ext2_write_superblock s = Some (rc, s1) /\ framed (sb_area s0) s s1.
Proof using H0.
  intros Hc E. unfold ext2_write_superblock. destruct (kmalloc_any s) as (ok & s1 & Ek & Hu). run Ek.
  pose proof (framed_unharmed (sb_area s0) _ _ Hu) as Hf1. destruct ok; cbn [negb]; [|by eexists _, _]. run_get.
  destruct (write_any s1 2 2 (splice 0 (sb_raw s1) (zeros 1024))) as (rc & s2 & Ew & Hw). run Ew.
  assert (geo s1 = geo s0) as E1 by (by rewrite (fr_geo _ _ _ Hf1)).
  assert (framed (sb_area s0) s1 s2) as Hf2.
  { destruct Hw as [Hw|Hw]; [by apply framed_unharmed|]. eapply framed_trans; [|by apply framed_unharmed]. constructor; try done.
    intros b Hb. unfold blk. cbn. apply rd_sectors_ext. intros x Hx. rewrite E1 in Hx. pose proof (ready_sizes s0 H0). unfold wr_sectors.
    bools; try done. exfalso. apply Hb. left. apply (sb_sectors s0 b x H0); lia. }
  pose proof (framed_trans _ _ _ _ Hf1 Hf2) as Hf. destruct (negb (rc =? 0)); [by eexists _, _|].
  pose proof (cached_blocks s0 Hc). pose proof (cached_at s0 Hc) as Hat.
  destruct (write_bgdesc_any (Z.to_nat (bgdesc_table_blocks s1)) 0 s2) as (rc3 & s3 & E3 & Hf3).
  - by rewrite (fr_geo _ _ _ Hf2).
  - lia.
  - rewrite E1. lia.
  - rewrite Hat. unfold sb_block. destruct (_ =? _); lia.
  - lia.
  - exists rc3, s3. split; [done|]. by eapply framed_trans.
Qed.

Lemma read_inode_any s ino : layout s0 -> unharmed s0 s -> valid_ino s0 ino ->
  exists rc v s1, ext2_read_inode ino s = Some ((rc, v), s1) /\ unharmed s0 s1 /\ (rc = 0 -> v = inode s0 ino).
Proof using H0.
  intros Hl U Hv. assert (geo s = geo s0 /\ bgdesc_table s = bgdesc_table s0) as [Eg Et] by (by destruct U as (? & ? & ->)).
  unfold ext2_read_inode. run (inode_slot_any s0 s ino Hl Eg Et Hv).
  destruct (kmalloc_any s) as (ok & s1 & E1 & U1). run E1. assert (unharmed s0 s1) as U1' by (by etrans).
  destruct ok; cbn [negb]; [|by eexists _, _, _].
  destruct (read_block_any s1 (ino_block s0 ino)) as (rc & buf & s2 & E2 & U2 & Hb); [by destruct U1' as (? & ? & ->)|].
  run E2. assert (unharmed s0 s2) as U2' by (by etrans). destruct (Z.eqb_spec rc 0) as [->|]; cbn [negb]; [|by eexists _, _, _].
  rewrite Hb by done. replace (blk s1 (ino_block s0 ino)) with (blk s0 (ino_block s0 ino)) by (by destruct U1' as (? & ? & ->)).
  destruct (ino_bounds s0 ino Hl Hv) as (_ & _ & _ & _ & ? & ?). unfold ldbuf. rewrite (proj1 (blk_ok s0 (ino_block s0 ino) H0)).
  rewrite (proj2 (Z.leb_le 0 _)), (proj2 (Z.leb_le _ (block_size s0))) by lia. by eexists _, _, _.
Qed.
End failures.

End Ext2.
