(* ===== verification/Ext2Alloc.v ===== *)
(** Block and inode allocation of the ext2 driver: the bitmaps, the free
    counters of the group descriptors and of the superblock, and their
    write-back (src/kernel/fs/ext2.c: [alloc_block], [free_block],
    [alloc_inode], [free_inode]). *)

From stdpp Require Import base tactics numbers option gmap list.
From Stdlib Require Import ZArith Lia.
From S2P Require Import Prelude Bytes Ext2.

Module Ext2Alloc.
Export Ext2.

(** ** The code *)

(** The first clear bit of a byte, and the first byte of a bitmap that has one. *)
Fixpoint find_bit (v : Z) (n : nat) (bit : Z) : option Z :=
  match n with
  | O => None
  | S n => if Z.land v (Z.shiftl 1 bit) =? 0 then Some bit else find_bit v n (bit + 1)
  end.
Fixpoint find_free (buf : list Z) (n : nat) (byte_idx : Z) : option (Z * Z) :=
  match n with
  | O => None
  | S n =>
    if byte buf byte_idx =? 255 then find_free buf n (byte_idx + 1)
    else match find_bit (byte buf byte_idx) 8 0 with
         | Some bit => Some (byte_idx, bit)
         | None => find_free buf n (byte_idx + 1)
         end
  end.

(** [buf[i] |= 1u << bit] and [buf[i] &= ~(1u << bit)]. *)
Definition set_bit (i bit : Z) (buf : list Z) : list Z := st 1 i (Z.lor (byte buf i) (Z.shiftl 1 bit)) buf.
Definition clear_bit (i bit : Z) (buf : list Z) : list Z :=
  st 1 i (Z.land (byte buf i) (UINT32_MAX - Z.shiftl 1 bit)) buf.

(** [bgdesc_table[g].bg_free_blocks_count += d] and the like. *)
Definition add_free_blocks (g d : Z) (s : ext2_fs) : ext2_fs :=
  set_sb (st 4 12 (s_free_blocks_count (sb_raw s) + d) (sb_raw s))
    (set_table (st 2 (32 * g + 12) (bg_free_blocks_count (bgdesc_table s) g + d) (bgdesc_table s)) s).
Definition add_free_inodes (g d : Z) (s : ext2_fs) : ext2_fs :=
  set_sb (st 4 16 (s_free_inodes_count (sb_raw s) + d) (sb_raw s))
    (set_table (st 2 (32 * g + 14) (bg_free_inodes_count (bgdesc_table s) g + d) (bgdesc_table s)) s).

(** The loop of [alloc_block] over the groups from [g]. *)
Fixpoint alloc_block_from (n : nat) (g : Z) : M Z :=
  match n with
  | O => ret 0
  | S n =>
    s <- get;;
    if bg_free_blocks_count (bgdesc_table s) g =? 0 then alloc_block_from n (g + 1)
    else
      let bitmap_block := bg_block_bitmap (bgdesc_table s) g in
      ok <- kmalloc;;
      if negb ok then ret 0
      else
        rc & buf <- ext2_read_block bitmap_block;;
        if negb (rc =? 0) then alloc_block_from n (g + 1)
        else
          let blocks_in_group := blocks_per_group s in
          let bit_count := if block_size s * 8 <? blocks_in_group then block_size s * 8 else blocks_in_group in
          match find_free buf (Z.to_nat (bit_count / 8)) 0 with
          | None => alloc_block_from n (g + 1)
          | Some (byte_idx, bit) =>
            let block := wrap32 (g * blocks_in_group + byte_idx * 8 + bit) in
            ext2_write_block bitmap_block (set_bit byte_idx bit buf);;;
            modify (add_free_blocks g (-1));;;
            ext2_write_superblock;;;
            ext2_write_block block (zeros (block_size s));;;
            ret block
          end
  end.
Definition alloc_block : M Z := s <- get;; alloc_block_from (Z.to_nat (num_block_groups s)) 0.

Definition free_block (block : Z) : M unit :=
  if block =? 0 then ret tt
  else
    s <- get;;
    if blocks_per_group s =? 0 then stuck
    else
      let group := block / blocks_per_group s in
      if num_block_groups s <=? group then ret tt
      else
        let index := block mod blocks_per_group s in
        let byte_idx := index / 8 in
        let bit := index mod 8 in
        let bitmap_block := bg_block_bitmap (bgdesc_table s) group in
        ok <- kmalloc;;
        if negb ok then ret tt
        else
          rc & buf <- ext2_read_block bitmap_block;;
          if negb (rc =? 0) then ret tt
          else if zlen buf <=? byte_idx then stuck
          else
            ext2_write_block bitmap_block (clear_bit byte_idx bit buf);;;
            modify (add_free_blocks group 1);;;
            ext2_write_superblock;;;
            ret tt.

(** [alloc_inode]; the fields it stores after the [memset] that are 0 are not
    written again. *)
Definition new_inode (mode : Z) : list Z := set_i_links_count 1 (set_i_mode mode (zeros INODE_SIZE)).
Fixpoint alloc_inode_from (mode : Z) (n : nat) (g : Z) : M Z :=
  match n with
  | O => ret 0
  | S n =>
    s <- get;;
    if bg_free_inodes_count (bgdesc_table s) g =? 0 then alloc_inode_from mode n (g + 1)
    else
      let bitmap_block := bg_inode_bitmap (bgdesc_table s) g in
      ok <- kmalloc;;
      if negb ok then ret 0
      else
        rc & buf <- ext2_read_block bitmap_block;;
        if negb (rc =? 0) then alloc_inode_from mode n (g + 1)
        else
          let inodes_in_group := inodes_per_group s in
          let bit_count := if block_size s * 8 <? inodes_in_group then block_size s * 8 else inodes_in_group in
          match find_free buf (Z.to_nat (bit_count / 8)) 0 with
          | None => alloc_inode_from mode n (g + 1)
          | Some (byte_idx, bit) =>
            let ino := wrap32 (g * inodes_in_group + byte_idx * 8 + bit + 1) in
            ext2_write_block bitmap_block (set_bit byte_idx bit buf);;;
            modify (add_free_inodes g (-1));;;
            ext2_write_superblock;;;
            ext2_write_inode ino (new_inode mode);;;
            ret ino
          end
  end.
Definition alloc_inode (mode : Z) : M Z := s <- get;; alloc_inode_from mode (Z.to_nat (num_block_groups s)) 0.

Definition free_inode (ino : Z) : M unit :=
  if ino =? 0 then ret tt
  else
    s <- get;;
    if inodes_per_group s =? 0 then stuck
    else
      let group := (ino - 1) / inodes_per_group s in
      if num_block_groups s <=? group then ret tt
      else
        let index := (ino - 1) mod inodes_per_group s in
        let byte_idx := index / 8 in
        let bit := index mod 8 in
        let bitmap_block := bg_inode_bitmap (bgdesc_table s) group in
        ok <- kmalloc;;
        if negb ok then ret tt
        else
          rc & buf <- ext2_read_block bitmap_block;;
          if negb (rc =? 0) then ret tt
          else if zlen buf <=? byte_idx then stuck
          else
            ext2_write_block bitmap_block (clear_bit byte_idx bit buf);;;
            modify (add_free_inodes group 1);;;
            ext2_write_superblock;;;
            ret tt.

(** ** Bitmaps *)

Definition bmbit (buf : list Z) (i : Z) : bool := Z.testbit (byte buf (i / 8)) (i mod 8).

Lemma find_bit_spec v n bit :
  0 <= bit ->
  match find_bit v n bit with
  | Some b => bit <= b < bit + Z.of_nat n /\ Z.testbit v b = false /\ forall i, bit <= i < b -> Z.testbit v i = true
  | None => forall i, bit <= i < bit + Z.of_nat n -> Z.testbit v i = true
  end.
Proof.
  revert bit; induction n as [|n IH]; intros bit Hb; cbn [find_bit]; [lia|].
  assert (Z.land v (Z.shiftl 1 bit) = 0 <-> Z.testbit v bit = false) as Ht.
  { rewrite Z.shiftl_1_l. split; intros E.
    - apply (f_equal (fun w => Z.testbit w bit)) in E.
      rewrite Z.land_spec, testbit_pow2, Z.eqb_refl, andb_true_r, Z.testbit_0_l in E by done. done.
    - apply Z.bits_inj'. intros i Hi. rewrite Z.land_spec, testbit_pow2, Z.testbit_0_l by done.
      destruct (Z.eqb_spec bit i) as [->|]; [by rewrite E|apply andb_false_r]. }
  destruct (Z.eqb_spec (Z.land v (Z.shiftl 1 bit)) 0) as [E|E].
  - rewrite Ht in E. split_and!; [lia..|done|lia].
  - assert (Z.testbit v bit = true) as E' by (destruct (Z.testbit v bit) eqn:?; [done|tauto]).
    specialize (IH (bit + 1) ltac:(lia)). destruct (find_bit v n (bit + 1)) as [b|].
    + destruct IH as (? & ? & IH). split_and!; [lia..|done|]. intros i Hi.
      destruct (decide (i = bit)) as [->|]; [done|apply IH; lia].
    + intros i Hi. destruct (decide (i = bit)) as [->|]; [done|apply IH; lia].
Qed.

Lemma bmbit_byte buf y b : 0 <= b < 8 -> bmbit buf (8 * y + b) = Z.testbit (byte buf y) b.
Proof. intros. unfold bmbit. f_equal; [f_equal; dlia|dlia]. Qed.

Lemma find_free_spec buf n k :
  bytes buf ->
  match find_free buf n k with
  | Some (y, b) => k <= y < k + Z.of_nat n /\ 0 <= b < 8 /\ bmbit buf (8 * y + b) = false /\
      forall i, 8 * k <= i < 8 * y + b -> bmbit buf i = true
  | None => forall i, 8 * k <= i < 8 * (k + Z.of_nat n) -> bmbit buf i = true
  end.
Proof.
  intros Hb. revert k; induction n as [|n IH]; intros k; cbn [find_free]; [lia|].
  assert (forall i, 8 * k <= i < 8 * (k + 1) -> exists b, 0 <= b < 8 /\ i = 8 * k + b) as Hd.
  { intros i Hi. exists (i - 8 * k). lia. }
  specialize (IH (k + 1)).
  assert ((forall b, 0 <= b < 8 -> Z.testbit (byte buf k) b = true) ->
    match find_free buf n (k + 1) with
    | Some (y, b) => k <= y < k + Z.of_nat (S n) /\ 0 <= b < 8 /\ bmbit buf (8 * y + b) = false /\
        forall i, 8 * k <= i < 8 * y + b -> bmbit buf i = true
    | None => forall i, 8 * k <= i < 8 * (k + Z.of_nat (S n)) -> bmbit buf i = true
    end) as Hskip.
  { intros Hall. assert (forall i, 8 * k <= i < 8 * (k + 1) -> bmbit buf i = true) as Hk.
    { intros i (b & Hb8 & ->)%Hd. rewrite bmbit_byte by done. by apply Hall. }
    destruct (find_free buf n (k + 1)) as [[y b]|].
    - destruct IH as (? & ? & ? & IH). split_and!; [lia..|done|].
      intros i Hi. destruct (decide (i < 8 * (k + 1))); [apply Hk|apply IH]; lia.
    - intros i Hi. destruct (decide (i < 8 * (k + 1))); [apply Hk|apply IH]; lia. }
  destruct (Z.eqb_spec (byte buf k) 255) as [E|E].
  { apply Hskip. rewrite E. intros b Hb8. change 255 with (Z.ones 8). apply Z.ones_spec_low. lia. }
  pose proof (find_bit_spec (byte buf k) 8 0 ltac:(lia)) as Hf.
  destruct (find_bit (byte buf k) 8 0) as [b|]; [|by apply Hskip].
  destruct Hf as (? & ? & Hf). split_and!; [lia..| |].
  - by rewrite bmbit_byte by lia.
  - intros i Hi. destruct (Hd i) as (b' & Hb8 & ->); [lia|]. rewrite bmbit_byte by done. apply Hf. lia.
Qed.

(** Storing one byte of a bitmap whose bits are those of a given test. *)
Lemma bmbit_st buf y v w b i :
  0 <= y < zlen buf -> 0 <= b < 8 -> 0 <= i ->
  (forall j, 0 <= j < 8 -> Z.testbit w j = if j =? b then v else Z.testbit (byte buf y) j) ->
  bmbit (st 1 y w buf) i = if i =? 8 * y + b then v else bmbit buf i.
Proof.
  intros Hy Hb Hi Hw. unfold bmbit.
  assert (0 <= i mod 8 < 8) by (apply Z.mod_pos_bound; lia). pose proof (Z.div_mod i 8).
  destruct (decide (i / 8 = y)) as [E|E].
  - rewrite <- ld1_byte, E, ld_st_eq by lia.
    change (256 ^ Z.of_nat 1) with (2 ^ 8). rewrite Z.mod_pow2_bits_low by lia. rewrite Hw by done.
    destruct (Z.eqb_spec i (8 * y + b)), (Z.eqb_spec (i mod 8) b); try done; lia.
  - rewrite <- !ld1_byte, ld_st_apart by (try apply Z.div_pos; lia).
    destruct (Z.eqb_spec i (8 * y + b)); [dlia|]. done.
Qed.

Lemma bmbit_set buf y b i :
  0 <= y < zlen buf -> 0 <= b < 8 -> 0 <= i ->
  bmbit (set_bit y b buf) i = if i =? 8 * y + b then true else bmbit buf i.
Proof.
  intros. apply bmbit_st; [done..|]. intros j Hj.
  rewrite Z.shiftl_1_l, Z.lor_spec, testbit_pow2, (Z.eqb_sym b j) by lia.
  destruct (j =? b); [apply orb_true_r|apply orb_false_r].
Qed.

Lemma testbit_not32 b j : 0 <= b < 32 -> 0 <= j < 32 -> Z.testbit (UINT32_MAX - Z.shiftl 1 b) j = negb (j =? b).
Proof.
  intros Hb Hj. rewrite Z.shiftl_1_l.
  replace (UINT32_MAX - 2 ^ b) with (Z.lnot (2 ^ b) + 1 * 2 ^ 32) by (unfold Z.lnot; lia).
  rewrite <- (Z.mod_pow2_bits_low _ 32 j), Z.mod_add, Z.mod_pow2_bits_low by lia.
  by rewrite Z.lnot_spec, testbit_pow2, (Z.eqb_sym b j) by lia.
Qed.

Lemma bmbit_clear buf y b i :
  0 <= y < zlen buf -> 0 <= b < 8 -> 0 <= i ->
  bmbit (clear_bit y b buf) i = if i =? 8 * y + b then false else bmbit buf i.
Proof.
  intros. apply bmbit_st; [done..|]. intros j Hj. rewrite Z.land_spec, testbit_not32 by lia.
  destruct (j =? b); [apply andb_false_r|apply andb_true_r].
Qed.

(** ** The allocation state of blocks and inodes

    Both kinds of object have one bitmap per group and two counters. *)
Inductive kind := KBlock | KInode.
#[export] Instance kind_eq_dec : EqDecision kind.
Proof. solve_decision. Defined.
Definition kmeta (k : kind) (g : Z) : meta := match k with KBlock => MBitmap g | KInode => MIBitmap g end.
Definition per (k : kind) (s : ext2_fs) : Z := match k with KBlock => blocks_per_group s | KInode => inodes_per_group s end.
Definition bg_off (k : kind) : Z := match k with KBlock => 12 | KInode => 14 end.
Definition sb_off (k : kind) : Z := match k with KBlock => 12 | KInode => 16 end.
Definition total (k : kind) (s : ext2_fs) : Z := num_block_groups s * per k s.

(** The bit of object [i]; inode number [ino] is object [ino - 1]. *)
Definition kbit (k : kind) (s : ext2_fs) (i : Z) : bool :=
  bmbit (blk s (meta_at s (kmeta k (i / per k s)))) (i mod per k s).
Definition kclear (k : kind) (s : ext2_fs) (i : Z) : bool := negb (kbit k s i).
Definition counted (k : kind) (s : ext2_fs) (t sb : list Z) : Prop :=
  (forall g, 0 <= g < num_block_groups s ->
    ld 2 (32 * g + bg_off k) t = zcount (kclear k s) (g * per k s) (Z.to_nat (per k s))) /\
  ld 4 (sb_off k) sb = zcount (kclear k s) 0 (Z.to_nat (total k s)).

(** The invariant of the allocator: metadata is in use, a free block lies on
    the device, and every counter holds the number of clear bits. *)
Record alloc_inv (s : ext2_fs) : Prop := {
  al_layout : layout s;
  al_synced : synced s;
  al_meta : forall m, meta_ok s m -> meta_at s m < total KBlock s /\ kbit KBlock s (meta_at s m) = true;
  al_zero : kbit KBlock s 0 = true;
  al_dev : forall b, 0 <= b < total KBlock s -> kbit KBlock s b = false -> in_dev s b;
  al_counted : forall k, counted k s (bgdesc_table s) (sb_raw s);
  al_mounted : mounted s;
}.

(** The blocks that hold allocation state. *)
Definition book (s : ext2_fs) (b : Z) : Prop :=
  sb_area s b \/ exists k g, 0 <= g < num_block_groups s /\ b = meta_at s (kmeta k g).

(** An operation that changes only the allocation state and the blocks in [P]. *)
Record keeps (P : Z -> Prop) (s s' : ext2_fs) : Prop := {
  keeps_same : same s s';
  keeps_addrs : same_addrs s (bgdesc_table s');
  keeps_blk : forall b, ~ book s b -> ~ P b -> blk s' b = blk s b;
  keeps_sb : forall n o, 0 <= o -> o + Z.of_nat n <= 12 \/ 20 <= o -> ld n o (sb_raw s') = ld n o (sb_raw s);
}.

Lemma per_pos k s : layout s -> 0 < per k s <= 8 * block_size s /\ per k s mod 8 = 0 /\ 0 < total k s < U32.
Proof.
  intros H. destruct (lay_bpg s H) as (? & ? & ?), (lay_ipg s H) as (? & ? & ?), (lay_groups s H). unfold total.
  destruct k; cbn; nia.
Qed.

Lemma obj_group k s i :
  layout s -> 0 <= i < total k s ->
  0 <= i / per k s < num_block_groups s /\ 0 <= i mod per k s < per k s /\
  i = (i / per k s) * per k s + i mod per k s.
Proof.
  intros H Hi. destruct (per_pos k s H) as (? & _ & _). unfold total in Hi.
  pose proof (Z.div_mod i (per k s)). split_and!; try (apply Z.mod_pos_bound; lia).
  - apply Z.div_pos; lia.
  - apply Z.div_lt_upper_bound; lia.
  - lia.
Qed.

Lemma kmeta_ok k (s : ext2_fs) g : 0 <= g < num_block_groups s -> meta_ok s (kmeta k g).
Proof. by destruct k. Qed.

Lemma kmeta_inj k k' g g' : kmeta k g = kmeta k' g' -> k = k' /\ g = g'.
Proof. destruct k, k'; cbn; intros [=]; done. Qed.

Lemma kmeta_not_sb k s g : layout s -> 0 <= g < num_block_groups s -> ~ sb_area s (meta_at s (kmeta k g)).
Proof.
  intros H Hg [E|E].
  - apply (lay_inj s H (kmeta k g) MSb) in E; [by destruct k|by apply kmeta_ok|done].
  - set (b := meta_at s (kmeta k g)) in *.
    assert (b = meta_at s (MDesc (b - bgdesc_block s))) as E' by (cbn; lia).
    apply (lay_inj s H) in E'; [by destruct k|by apply kmeta_ok|cbn; lia].
Qed.

(** Two states with the same bitmap blocks have the same bits. *)
Lemma kbit_same k s s' i :
  layout s -> 0 <= i < total k s -> same s s' -> same_addrs s (bgdesc_table s') ->
  (forall g, 0 <= g < num_block_groups s -> blk s' (meta_at s (kmeta k g)) = blk s (meta_at s (kmeta k g))) ->
  kbit k s' i = kbit k s i.
Proof.
  intros H Hi Hs Ha Hb. destruct (obj_group k s i H Hi) as (Hg & _).
  assert (per k s' = per k s) as Hp by (destruct k; cbn; by rewrite (same_geo _ _ Hs)).
  unfold kbit. rewrite Hp, (same_meta s s') by (done || by apply kmeta_ok). by rewrite Hb.
Qed.

(** ** Changing one bit *)

Definition bump (k : kind) (g d : Z) (s : ext2_fs) : ext2_fs :=
  set_sb (st 4 (sb_off k) (ld 4 (sb_off k) (sb_raw s) + d) (sb_raw s))
    (set_table (st 2 (32 * g + bg_off k) (ld 2 (32 * g + bg_off k) (bgdesc_table s) + d) (bgdesc_table s)) s).

Lemma bump_cached k g d s : layout s -> 0 <= g < num_block_groups s -> cached (bump k g d s).
Proof.
  intros H Hg. destruct (lay_groups s H) as [_ Ht]. destruct (lay_cached s H) as [Hr [Hsl ?] [Htl ?] ? ? ?].
  assert (ready (bump k g d s)) by (destruct Hr; by constructor).
  constructor; try done; cbn.
  - split; [|by apply bytes_st]. rewrite zlen_st; [done| |rewrite Hsl]; destruct k; cbn; lia.
  - split; [|by apply bytes_st]. rewrite zlen_st; [done|destruct k; cbn; lia..].
Qed.

Lemma bump_addrs k g d s :
  layout s -> 0 <= g < num_block_groups s -> same_addrs s (bgdesc_table (bump k g d s)).
Proof.
  intros H Hg g' Hg'. destruct (lay_groups s H) as [_ Ht]. cbn.
  unfold bg_block_bitmap, bg_inode_bitmap, bg_inode_table.
  rewrite !ld_st_apart; [done|destruct k; cbn; lia..].
Qed.

(** Writing a bitmap back with its counters. *)
Lemma book_ok k g d s buf :
  layout s -> 0 <= g < num_block_groups s -> zlen buf = block_size s -> bytes buf ->
  exists s', ext2_write_superblock (bump k g d (put (meta_at s (kmeta k g)) buf s)) = Some (0, s') /\
    same s s' /\ layout s' /\ synced s' /\ same_addrs s (bgdesc_table s') /\
    bgdesc_table s' = bgdesc_table (bump k g d s) /\ sb_raw s' = sb_raw (bump k g d s) /\
    blk s' (meta_at s (kmeta k g)) = buf /\
    forall b, ~ sb_area s b -> b <> meta_at s (kmeta k g) -> blk s' b = blk s b.
Proof.
  intros H Hg Hl Hb. set (b0 := meta_at s (kmeta k g)). set (s1 := bump k g d (put b0 buf s)).
  assert (layout (put b0 buf s)) as H1 by by apply layout_put.
  destruct (write_superblock_ok s1) as (s' & E & Hs & Hc' & Hsy & Ht & Hsb & Hblk); [by apply bump_cached|].
  assert (same_addrs s (bgdesc_table s')) as Ha by (rewrite Ht; by apply (bump_addrs k g d (put b0 buf s))).
  assert (same s s') as Hss by (etrans; [|done]; done).
  exists s'. split_and!; try done.
  - by apply (layout_step s).
  - rewrite Hblk by by apply (kmeta_not_sb k s g). apply (blk_put_eq s); [by apply lay_ready|done].
  - intros b Hn Hne. rewrite Hblk by done. apply (blk_put_ne s); [by apply lay_ready|done].
Qed.

Lemma bump_ld k g d s k' g' :
  layout s -> 0 <= g < num_block_groups s -> 0 <= g' < num_block_groups s ->
  ld 2 (32 * g' + bg_off k') (bgdesc_table (bump k g d s)) =
    (if bool_decide (k' = k /\ g' = g)
     then (ld 2 (32 * g' + bg_off k') (bgdesc_table s) + d) mod 65536
     else ld 2 (32 * g' + bg_off k') (bgdesc_table s)) /\
  ld 4 (sb_off k') (sb_raw (bump k g d s)) =
    (if bool_decide (k' = k) then (ld 4 (sb_off k') (sb_raw s) + d) mod U32 else ld 4 (sb_off k') (sb_raw s)).
Proof.
  intros H Hg Hg'. destruct (lay_groups s H) as [_ Ht]. destruct (cached_sb s (lay_cached s H)) as [Hsl _].
  cbn. split.
  - case_bool_decide as E.
    + destruct E as [-> ->]. apply ld_st_eq; destruct k; cbn; lia.
    + apply ld_st_apart; [destruct k; cbn; lia..|destruct k'; cbn; lia|].
      destruct (decide (g' = g)) as [->|]; [|destruct k, k'; cbn; lia].
      destruct k, k'; cbn; try lia; exfalso; by apply E.
  - case_bool_decide as E.
    + subst. apply ld_st_eq; [destruct k; done|rewrite Hsl; destruct k; cbn; lia].
    + apply ld_st_apart; [destruct k; done|rewrite Hsl; destruct k; cbn; lia|destruct k'; done|].
      destruct k, k'; cbn; try lia; by exfalso; apply E.
Qed.

(** [s'] has the bits of [s] with object [i] of kind [k] set to [v]. *)
Definition flipped (k : kind) (i : Z) (v : bool) (s s' : ext2_fs) : Prop :=
  forall k' j, 0 <= j < total k' s ->
    kbit k' s' j = if bool_decide (k' = k /\ j = i) then v else kbit k' s j.

Lemma flip_bits k g idx v s s' :
  layout s -> 0 <= g < num_block_groups s -> 0 <= idx < per k s ->
  same s s' -> same_addrs s (bgdesc_table s') ->
  (forall j, 0 <= j < per k s -> bmbit (blk s' (meta_at s (kmeta k g))) j =
    if j =? idx then v else bmbit (blk s (meta_at s (kmeta k g))) j) ->
  (forall b, ~ sb_area s b -> b <> meta_at s (kmeta k g) -> blk s' b = blk s b) ->
  flipped k (g * per k s + idx) v s s'.
Proof.
  intros H Hg Hx Hs Ha Hb Ho k' j Hj. destruct (obj_group k' s j H Hj) as (Hjg & Hjm & Hjd).
  assert (per k' s' = per k' s) as Hp by (destruct k'; cbn; by rewrite (same_geo _ _ Hs)).
  destruct (decide (k' = k /\ j / per k' s = g)) as [[-> <-]|Hn].
  - unfold kbit. rewrite Hp, (same_meta s s') by (done || by apply kmeta_ok). rewrite Hb by done.
    case_bool_decide as E; destruct (Z.eqb_spec (j mod per k s) idx) as [E'|E']; try done; exfalso.
    + destruct E as [_ E]. lia.
    + apply E. split; [done|]. rewrite <- E'. done.
  - rewrite bool_decide_eq_false_2; cycle 1.
    { intros [-> ->]. apply Hn. split; [done|]. rewrite Z.div_add_l, Z.div_small by lia. lia. }
    unfold kbit. rewrite Hp, (same_meta s s') by (done || by apply kmeta_ok). rewrite Ho; [done|by apply kmeta_not_sb|].
    intros E. apply (lay_inj s H) in E; [|by apply kmeta_ok..]. by apply kmeta_inj in E.
Qed.

Lemma flip_counted k g idx v s s' :
  layout s -> 0 <= g < num_block_groups s -> 0 <= idx < per k s -> same s s' ->
  (forall k', counted k' s (bgdesc_table s) (sb_raw s)) ->
  kbit k s (g * per k s + idx) = negb v -> flipped k (g * per k s + idx) v s s' ->
  let d := if v then -1 else 1 in
  forall k', counted k' s' (bgdesc_table (bump k g d s)) (sb_raw (bump k g d s)).
Proof.
  intros H Hg Hx Hs Hc Hold Hf d k'. destruct (Hc k') as [Hcg Hcs]. set (i := g * per k s + idx) in *.
  assert (per k' s' = per k' s) as Hp by (destruct k'; cbn; by rewrite (same_geo _ _ Hs)).
  assert (total k' s' = total k' s) as Ht by (unfold total; by rewrite Hp, (same_geo _ _ Hs)).
  destruct (per_pos k' s H) as (Hpp & _ & Htt). pose proof (ready_bs s (lay_ready s H)) as Hbs.
  assert (0 <= i < total k s) as Hi by (unfold total, i; nia).
  assert (forall a n, 0 <= a -> a + Z.of_nat n <= total k' s -> zcount (kclear k' s') a n = zcount (kclear k' s) a n +
    if bool_decide (k' = k /\ a <= i < a + Z.of_nat n) then d else 0) as Hz.
  { intros a n Ha Hn. case_bool_decide as E.
    - destruct E as [-> Hr]. rewrite (zcount_flip (kclear k s) (kclear k s') a n i); [|done|].
      + unfold kclear. rewrite (Hf k i), bool_decide_eq_true_2, Hold by done. destruct v; cbn; lia.
      + intros j Hj Hne. unfold kclear. rewrite Hf, bool_decide_eq_false_2; [done|naive_solver|lia].
    - rewrite Z.add_0_r. apply zcount_ext. intros j Hj. unfold kclear. rewrite Hf, bool_decide_eq_false_2; [done| |lia].
      intros [-> ->]. by apply E. }
  split.
  - intros g' Hg'. rewrite (same_geo _ _ Hs) in Hg'. rewrite Hp.
    destruct (bump_ld k g d s k' g' H Hg Hg') as [-> _]. rewrite Hcg by done.
    rewrite Hz; [|nia|unfold total; nia]. unfold i.
    pose proof (zcount_bounds (kclear k' s') (g' * per k' s) (Z.to_nat (per k' s))) as Hb. rewrite Hz in Hb by (unfold total; nia).
    unfold i in Hb.
    destruct (decide (k' = k)) as [->|]; [|by rewrite !bool_decide_eq_false_2 by tauto; lia].
    destruct (decide (g' = g)) as [->|]; [|rewrite !bool_decide_eq_false_2 by nia; lia].
    rewrite (bool_decide_eq_true_2 (k = k /\ g = g)) by done.
    rewrite (bool_decide_eq_true_2 (k = k /\ _)) in Hb |- * by (split; [done|lia]). apply Z.mod_small. lia.
  - rewrite Ht. destruct (bump_ld k g d s k' g H Hg Hg) as [_ ->]. rewrite Hcs.
    rewrite Hz by lia. pose proof (zcount_bounds (kclear k' s') 0 (Z.to_nat (total k' s))) as Hb. rewrite Hz in Hb by lia.
    destruct (decide (k' = k)) as [->|]; [|by rewrite !bool_decide_eq_false_2 by tauto; lia].
    rewrite (bool_decide_eq_true_2 (k = k)) by done.
    rewrite (bool_decide_eq_true_2 (k = k /\ _)) in Hb |- * by (split; [done|lia]). apply Z.mod_small. lia.
Qed.

Lemma kbit_at k s g j :
  layout s -> 0 <= j < per k s -> kbit k s (g * per k s + j) = bmbit (blk s (meta_at s (kmeta k g))) j.
Proof.
  intros H Hj. unfold kbit. rewrite Z.div_add_l, Z.div_small, Z.add_0_r by lia.
  by rewrite Z.add_comm, Z.mod_add, Z.mod_small by lia.
Qed.

Lemma flip_ok k g idx v s buf :
  alloc_inv s -> 0 <= g < num_block_groups s -> 0 <= idx < per k s ->
  kbit k s (g * per k s + idx) = negb v -> zlen buf = block_size s -> bytes buf ->
  (forall j, 0 <= j < per k s ->
    bmbit buf j = if j =? idx then v else bmbit (blk s (meta_at s (kmeta k g))) j) ->
  exists s', ext2_write_superblock (bump k g (if v then -1 else 1) (put (meta_at s (kmeta k g)) buf s)) = Some (0, s') /\
    keeps (fun _ => False) s s' /\ layout s' /\ synced s' /\
    (forall k', counted k' s' (bgdesc_table s') (sb_raw s')) /\ flipped k (g * per k s + idx) v s s'.
Proof.
  intros [H Hsy Hm Hz Hd Hc _] Hg Hx Hold Hl Hb Hbits.
  destruct (book_ok k g (if v then -1 else 1) s buf H Hg Hl Hb) as
    (s' & E & Hs & H' & Hsy' & Ha & Ht & Hsb & Hbuf & Ho).
  assert (flipped k (g * per k s + idx) v s s') as Hf.
  { apply flip_bits; [done..| |done]. intros j Hj. rewrite Hbuf. by apply Hbits. }
  exists s'. split_and!; [done| |done|done| |done].
  - constructor; [done..| |].
    + intros b Hn _. apply Ho; [contradict Hn; by left|]. contradict Hn. right. by exists k, g.
    + intros n o Hno Hr. rewrite Hsb. destruct (cached_sb s (lay_cached s H)) as [Hsl _].
      apply ld_st_apart; [destruct k; done|rewrite Hsl; destruct k; cbn; lia|done|destruct k; cbn; lia].
  - intros k'. rewrite Ht, Hsb. by apply (flip_counted k g idx v s s').
Qed.

(** Clearing a bit is harmless for data blocks and for inodes. *)
Definition releasable (k : kind) (i : Z) (s : ext2_fs) : Prop :=
  match k with
  | KBlock => i <> 0 /\ in_dev s i /\ forall m, meta_ok s m -> meta_at s m <> i
  | KInode => True
  end.

Lemma alloc_inv_flip P k i v s s' :
  alloc_inv s -> keeps P s s' -> layout s' -> synced s' ->
  (forall k', counted k' s' (bgdesc_table s') (sb_raw s')) -> flipped k i v s s' ->
  v = true \/ releasable k i s -> alloc_inv s'.
Proof.
  intros [H Hsy Hm Hz Hd Hc Hmt] [Hs Ha _ Hsb] H' Hsy' Hc' Hf Hv.
  pose proof (same_geo _ _ Hs) as E. destruct (per_pos KBlock s H) as (_ & _ & Htp).
  assert (forall b, 0 <= b < total KBlock s -> kbit KBlock s b = true -> (v = true \/ (k = KBlock -> b <> i)) ->
    kbit KBlock s' b = true) as Hkeep.
  { intros b Hb Hbit Hor. rewrite Hf by done. case_bool_decide as Eq; [|done].
    destruct Eq as [<- ->]. destruct Hor as [->|Hor]; [done|]. by destruct (Hor eq_refl). }
  assert (total KBlock s' = total KBlock s) as Ht by (unfold total; cbn; by rewrite E).
  assert (forall m, meta_ok s' m -> meta_ok s m) as Hk.
  { intros []; cbn; unfold inodes_per_blk; by rewrite ?E. }
  constructor; try done; rewrite ?Ht.
  - intros m Hmk%Hk. rewrite (same_meta s s' m Hs Ha Hmk). destruct (Hm m Hmk) as [Hlt Hbit]. split; [done|].
    apply Hkeep; [|done|]; [pose proof (lay_meta s H m Hmk) as [[??] _]; lia|].
    destruct Hv as [->|Hv]; [by left|right]. intros ->. by apply Hv.
  - apply Hkeep; [lia|done|]. destruct Hv as [->|Hv]; [by left|right]. intros ->. destruct Hv. lia.
  - intros b Hb Hbit. rewrite (same_in_dev s s' b Hs). rewrite Hf in Hbit by done. case_bool_decide as Eq.
    + destruct Eq as [<- ->]. destruct Hv as [->|Hv]; [done|apply Hv].
    + by apply Hd.
  - revert Hmt. unfold mounted, geometry_of, s_blocks_per_group, s_blocks_count, s_inodes_per_group, s_inode_size,
      s_log_block_size, s_magic, s_feature_incompat. by rewrite !Hsb, E by lia.
Qed.

(** The search of one group. *)
Lemma scan_ok k g s :
  layout s -> 0 <= g < num_block_groups s ->
  let bit_count := if block_size s * 8 <? per k s then block_size s * 8 else per k s in
  match find_free (blk s (meta_at s (kmeta k g))) (Z.to_nat (bit_count / 8)) 0 with
  | Some (y, b) => 0 <= y < block_size s /\ 0 <= b < 8 /\ 0 <= 8 * y + b < per k s /\
      kbit k s (g * per k s + (8 * y + b)) = false /\
      forall j, 0 <= j < 8 * y + b -> kbit k s (g * per k s + j) = true
  | None => forall j, 0 <= j < per k s -> kbit k s (g * per k s + j) = true
  end.
Proof.
  intros H Hg bc. destruct (per_pos k s H) as (Hp & Hp8 & _).
  assert (bc = per k s) as -> by (unfold bc; bools; lia).
  destruct (blk_ok s (meta_at s (kmeta k g)) (lay_ready s H)) as [Hl Hb].
  pose proof (find_free_spec _ (Z.to_nat (per k s / 8)) 0 Hb) as Hf.
  assert (8 * (per k s / 8) = per k s) by (pose proof (Z.div_mod (per k s) 8); lia).
  destruct (find_free _ _ _) as [[y b]|].
  - destruct Hf as (? & ? & Hclear & Hset). split_and!; [lia..| |].
    + by rewrite kbit_at by (done || lia).
    + intros j Hj. rewrite kbit_at by (done || lia). apply Hset. lia.
  - intros j Hj. rewrite kbit_at by (done || lia). apply Hf. lia.
Qed.

(** A group whose counter is 0 has no clear bit. *)
Lemma empty_group k g s :
  alloc_inv s -> 0 <= g < num_block_groups s -> ld 2 (32 * g + bg_off k) (bgdesc_table s) = 0 ->
  forall j, 0 <= j < per k s -> kbit k s (g * per k s + j) = true.
Proof.
  intros H Hg E j Hj. destruct (al_counted s H k) as [Hc _]. rewrite Hc in E by done.
  destruct (kbit k s (g * per k s + j)) eqn:Eb; [done|].
  pose proof (zcount_pos (kclear k s) (g * per k s) (Z.to_nat (per k s)) (g * per k s + j) ltac:(lia)) as Hp.
  unfold kclear in Hp at 1. rewrite Eb in Hp. specialize (Hp eq_refl). lia.
Qed.

(** ** Writing other blocks *)

#[export] Instance keeps_refl P : Reflexive (keeps P).
Proof. intros s. by constructor. Qed.

Lemma keeps_book P s s' b : keeps P s s' -> book s' b <-> book s b.
Proof.
  intros [Hs Ha _ _]. pose proof (same_geo _ _ Hs) as E. unfold book, sb_area, sb_block. rewrite E.
  split; (intros [Hb|(k & g & Hg & Hb)]; [by left|right; exists k, g; split; [done|]]);
    [rewrite <- (same_meta s s' (kmeta k g) Hs Ha)|rewrite (same_meta s s' (kmeta k g) Hs Ha)];
    (done || by apply kmeta_ok).
Qed.

Lemma keeps_trans P Q s1 s2 s3 : keeps P s1 s2 -> keeps Q s2 s3 -> keeps (fun b => P b \/ Q b) s1 s3.
Proof.
  intros H12 H23. pose proof (fun b => keeps_book P s1 s2 b H12) as Hbk.
  destruct H12 as [Hs Ha Hb Hsb], H23 as [Hs' Ha' Hb' Hsb']. constructor.
  - by etrans.
  - intros g Hg. rewrite <- (same_geo _ _ Hs) in Hg. destruct (Ha' g Hg) as (-> & -> & ->). apply Ha.
    by rewrite (same_geo _ _ Hs) in Hg.
  - intros b Hn Hp. rewrite Hb', Hb; [done|done|tauto|by rewrite Hbk|tauto].
  - intros n o Ho Hr. by rewrite Hsb', Hsb.
Qed.

Lemma keeps_weaken (P Q : Z -> Prop) s s' : (forall b, P b -> Q b) -> keeps P s s' -> keeps Q s s'.
Proof. intros Hpq [Hs Ha Hb Hsb]. constructor; [done..| |done]. intros b Hn Hq. apply Hb; [done|]. by intros ?%Hpq. Qed.

Lemma keeps_put b v s : ready s -> keeps (eq b) s (put b v s).
Proof. intros H. constructor; [done|done| |done]. intros b' _ Hne. apply blk_put_ne; [done|congruence]. Qed.

Lemma kbit_put k s b v i :
  layout s -> 0 <= i < total k s -> ~ book s b -> kbit k (put b v s) i = kbit k s i.
Proof.
  intros H Hi Hn. apply kbit_same; [done..|]. intros g Hg. apply blk_put_ne; [by apply lay_ready|].
  intros E. apply Hn. right. by exists k, g.
Qed.

Lemma counted_same k s s' t sb :
  layout s -> same s s' -> (forall i, 0 <= i < total k s -> kbit k s' i = kbit k s i) ->
  counted k s t sb -> counted k s' t sb.
Proof.
  intros H Hs Hb [Hg Ht]. pose proof (same_geo _ _ Hs) as E.
  assert (per k s' = per k s) as Hp by (destruct k; cbn; by rewrite E).
  assert (total k s' = total k s) as Htt by (unfold total; by rewrite Hp, E).
  destruct (per_pos k s H) as (? & _ & ?).
  split; rewrite ?E, ?Hp, ?Htt.
  - intros g Hgg. rewrite Hg by done. apply zcount_ext. intros i Hi. unfold kclear. rewrite Hb; [done|]. unfold total. nia.
  - rewrite Ht. apply zcount_ext. intros i Hi. unfold kclear. rewrite Hb; [done|lia].
Qed.

Lemma alloc_inv_put s b v :
  alloc_inv s -> ~ book s b -> zlen v = block_size s -> bytes v -> alloc_inv (put b v s).
Proof.
  intros [H Hsy Hm Hz Hd Hc Hmt] Hn Hl Hb. destruct (per_pos KBlock s H) as (_ & _ & ?).
  constructor; try done.
  - by apply layout_put.
  - apply synced_put; [done..|]. contradict Hn. by left.
  - intros m Hk. destruct (Hm m Hk). split; [done|]. rewrite kbit_put; [done|done| |done].
    pose proof (lay_meta s H m Hk) as [[??] _]. change (meta_at (put b v s) m) with (meta_at s m). lia.
  - rewrite kbit_put; [done|done|lia|done].
  - intros i Hi Hbit. rewrite kbit_put in Hbit by done. by apply Hd.
  - intros k. apply (counted_same k s); [done..| |done]. intros i Hi. by apply kbit_put.
Qed.

Lemma meta_book_not_table s g k : layout s -> meta_ok s (MITable g k) -> ~ book s (meta_at s (MITable g k)).
Proof.
  intros H Hm [[E|E]|(k' & g' & Hg & E)].
  - by apply (lay_inj s H _ MSb) in E.
  - set (b := meta_at s (MITable g k)) in *.
    assert (b = meta_at s (MDesc (b - bgdesc_block s))) as E' by (cbn; lia).
    assert (meta_ok s (MDesc (b - bgdesc_block s))) as Hd by (unfold meta_ok; lia).
    by apply (lay_inj s H _ _ Hm Hd) in E'.
  - apply (lay_inj s H) in E; [by destruct k'|done|by apply kmeta_ok].
Qed.

(** A block whose bit is clear is no metadata block. *)
Lemma free_not_meta s b m : alloc_inv s -> kbit KBlock s b = false -> meta_ok s m -> meta_at s m <> b.
Proof. intros H Hb Hm <-. destruct (al_meta s H m Hm). congruence. Qed.

Lemma free_not_book s b : alloc_inv s -> kbit KBlock s b = false -> ~ book s b.
Proof.
  intros H Hb [[E|E]|(k & g & Hg & E)].
  - by apply (free_not_meta s b MSb H).
  - apply (free_not_meta s b (MDesc (b - bgdesc_block s)) H Hb); cbn; lia.
  - by apply (free_not_meta s b (kmeta k g) H Hb); [apply kmeta_ok|].
Qed.

(** ** The operations *)

(** [s'] is [s] with object [i] of kind [k] marked [v], and the blocks in [P]
    rewritten. *)
Record moved (P : Z -> Prop) (k : kind) (i : Z) (v : bool) (s s' : ext2_fs) : Prop := {
  moved_inv : alloc_inv s';
  moved_keeps : keeps P s s';
  moved_bits : flipped k i v s s';
}.

(** The common effect of the four operations: one bit, its two counters, and
    the write-back. *)
Lemma mark_ok k g y b v s :
  alloc_inv s -> 0 <= g < num_block_groups s -> 0 <= y < block_size s -> 0 <= b < 8 -> 8 * y + b < per k s ->
  kbit k s (g * per k s + (8 * y + b)) = negb v ->
  v = true \/ releasable k (g * per k s + (8 * y + b)) s ->
  let buf := blk s (meta_at s (kmeta k g)) in
  exists s', ext2_write_superblock (bump k g (if v then -1 else 1)
      (put (meta_at s (kmeta k g)) ((if v then set_bit else clear_bit) y b buf) s)) = Some (0, s') /\
    moved (fun _ => False) k (g * per k s + (8 * y + b)) v s s'.
Proof.
  intros H Hg Hy Hb Hp Hold Hv buf. pose proof (al_layout s H) as Hl.
  destruct (blk_ok s (meta_at s (kmeta k g)) (lay_ready s Hl)) as [Hz Hby]. fold buf in Hz, Hby.
  destruct (flip_ok k g (8 * y + b) v s ((if v then set_bit else clear_bit) y b buf)) as
    (s' & E & Hk & H' & Hsy & Hc & Hf); [done|done|lia|done| | | |].
  - destruct v; unfold set_bit, clear_bit; rewrite zlen_st; try done; lia.
  - destruct v; by apply bytes_st.
  - intros j Hj. unfold buf in *. destruct v; [apply bmbit_set|apply bmbit_clear]; lia.
  - exists s'. split; [done|]. constructor; [|done..]. by eapply (alloc_inv_flip _ k _ v s s' H Hk).
Qed.

Definition all_used (k : kind) (s : ext2_fs) : Prop := forall i, 0 <= i < total k s -> kbit k s i = true.
Definition lowest_free (k : kind) (i : Z) (s : ext2_fs) : Prop :=
  0 <= i < total k s /\ kbit k s i = false /\ forall j, 0 <= j < i -> kbit k s j = true.

Lemma group_below k s g i :
  layout s -> (forall j, 0 <= j < g * per k s -> kbit k s j = true) ->
  (forall j, 0 <= j < i -> kbit k s (g * per k s + j) = true) ->
  forall j, 0 <= j < g * per k s + i -> kbit k s j = true.
Proof.
  intros H Hlow Hg j Hj. destruct (decide (j < g * per k s)); [apply Hlow; lia|].
  replace j with (g * per k s + (j - g * per k s)) by lia. apply Hg. lia.
Qed.

(** Zeroing a block that was just marked. *)
Lemma zeroed_ok s s1 b :
  alloc_inv s -> 0 <= b < total KBlock s -> kbit KBlock s b = false -> moved (fun _ => False) KBlock b true s s1 ->
  exists s', ext2_write_block b (zeros (block_size s)) s1 = Some (0, s') /\
    moved (eq b) KBlock b true s s' /\ blk s' b = zeros (block_size s).
Proof.
  intros H Hb Hfree [Hi1 Hk1 Hf1]. pose proof (al_layout s1 Hi1) as Hl1. pose proof (lay_ready s1 Hl1) as Hr1.
  pose proof (keeps_same _ _ _ Hk1) as Hs1.
  assert (in_dev s1 b) as Hd1 by (rewrite (same_in_dev s s1 b Hs1); by apply (al_dev s H)).
  assert (~ book s1 b) as Hnb by (rewrite (keeps_book _ s s1 b Hk1); by apply free_not_book).
  assert (zlen (zeros (block_size s)) = block_size s1) as Hzl.
  { rewrite (same_geo _ _ Hs1), zlen_zeros; [done|].
    destruct (ready_bs s (lay_ready s (al_layout s H))) as [->|[->| ->]]; lia. }
  exists (put b (zeros (block_size s)) s1). split_and!; [by apply write_block_ok| |by apply blk_put_eq].
  constructor.
  - apply alloc_inv_put; [done..|apply bytes_zeros].
  - apply (keeps_weaken (fun j => False \/ b = j)); [naive_solver|].
    apply (keeps_trans (fun _ => False) (eq b) s s1 _ Hk1). by apply keeps_put.
  - intros k j Hj. rewrite kbit_put; [by apply Hf1|done| |done].
    unfold total in *. destruct k; cbn in *; by rewrite (same_geo _ _ Hs1).
Qed.

Lemma alloc_block_from_ok n g s :
  alloc_inv s -> 0 <= g -> g + Z.of_nat n = num_block_groups s ->
  (forall j, 0 <= j < g * per KBlock s -> kbit KBlock s j = true) ->
  (alloc_block_from n g s = Some (0, s) /\ all_used KBlock s) \/
  (exists b s', alloc_block_from n g s = Some (b, s') /\ lowest_free KBlock b s /\
     moved (eq b) KBlock b true s s' /\ blk s' b = zeros (block_size s)).
Proof.
  intros H. pose proof (al_layout s H) as Hl. pose proof (lay_ready s Hl) as Hr.
  revert g; induction n as [|n IH]; intros g Hg Hn Hlow; cbn [alloc_block_from].
  { left. split; [done|]. intros i Hi. apply Hlow. unfold total in Hi. nia. }
  assert ((forall j, 0 <= j < per KBlock s -> kbit KBlock s (g * per KBlock s + j) = true) ->
    forall j, 0 <= j < (g + 1) * per KBlock s -> kbit KBlock s j = true) as Hnext.
  { intros Ha j Hj. apply (group_below KBlock s g (per KBlock s) Hl Hlow Ha). lia. }
  run_get. destruct (Z.eqb_spec (bg_free_blocks_count (bgdesc_table s) g) 0) as [E|E].
  { apply IH; [lia..|]. apply Hnext. apply (empty_group KBlock g s H); [lia|done]. }
  run (kmalloc_ok s Hr). cbn [negb].
  destruct (lay_meta s Hl (MBitmap g) ltac:(cbn; lia)) as [Hd _]. cbn [meta_at] in Hd.
  run (read_block_ok s _ Hr Hd). cbn [Z.eqb negb].
  pose proof (scan_ok KBlock g s Hl ltac:(lia)) as Hscan. cbn [per kmeta meta_at] in Hscan.
  destruct (find_free _ _ 0) as [[y b]|]; cycle 1.
  { apply IH; [lia..|]. by apply Hnext. }
  destruct Hscan as (Hy & Hb & Hp & Hfree & Hbelow). right.
  destruct (per_pos KBlock s Hl) as (_ & _ & Htot).
  assert (0 <= g * blocks_per_group s + (8 * y + b) < total KBlock s) as Hlt by (unfold total; cbn [per]; nia).
  run (write_block_ok s _ _ Hr Hd). run_get.
  destruct (mark_ok KBlock g y b true s H ltac:(lia) Hy Hb ltac:(cbn; lia) Hfree ltac:(by left)) as (s1 & E1 & Hm1).
  run E1. cbn [per] in Hm1. set (i := g * blocks_per_group s + (8 * y + b)) in *.
  assert (wrap32 (g * blocks_per_group s + y * 8 + b) = i) as ->.
  { unfold wrap32, i in *. rewrite Z.mod_small; lia. }
  destruct (zeroed_ok s s1 i H Hlt Hfree Hm1) as (s' & E' & Hm & Hz).
  run E'. exists i, s'. split_and!; [done| |done..].
  split; [done|]. split; [done|]. by apply (group_below KBlock s g (8 * y + b) Hl Hlow Hbelow).
Qed.

Lemma alloc_block_spec s :
  alloc_inv s ->
  (alloc_block s = Some (0, s) /\ all_used KBlock s) \/
  (exists b s', alloc_block s = Some (b, s') /\ 0 < b /\ lowest_free KBlock b s /\
     moved (eq b) KBlock b true s s' /\ blk s' b = zeros (block_size s)).
Proof.
  intros H. pose proof (al_layout s H) as Hl. destruct (lay_groups s Hl) as [Hn _].
  unfold alloc_block. run_get.
  destruct (alloc_block_from_ok (Z.to_nat (num_block_groups s)) 0 s H) as [?|(b & s' & E & Hlow & Hm & Hz)];
    [lia..|by left|].
  right. exists b, s'. split_and!; try done. destruct Hlow as (? & Hb & _).
  destruct (decide (b = 0)) as [->|]; [|lia]. by rewrite (al_zero s H) in Hb.
Qed.

Lemma free_block_spec s b :
  alloc_inv s -> 0 <= b ->
  (b = 0 \/ total KBlock s <= b -> free_block b s = Some (tt, s)) /\
  (b < total KBlock s -> kbit KBlock s b = true -> releasable KBlock b s ->
   exists s', free_block b s = Some (tt, s') /\ moved (fun _ => False) KBlock b false s s').
Proof.
  intros H Hb. pose proof (al_layout s H) as Hl. pose proof (lay_ready s Hl) as Hr.
  destruct (per_pos KBlock s Hl) as (Hp & _ & _). cbn [per] in Hp. unfold free_block. split.
  - intros [->|Ht]; [done|]. destruct (Z.eqb_spec b 0); [done|]. run_get.
    destruct (Z.eqb_spec (blocks_per_group s) 0); [lia|].
    assert (num_block_groups s <= b / blocks_per_group s) by (apply Z.div_le_lower_bound; unfold total in Ht; cbn in Ht; lia).
    by destruct (Z.leb_spec (num_block_groups s) (b / blocks_per_group s)); [|lia].
  - intros Ht Hbit Hrel. destruct (Z.eqb_spec b 0); [by destruct Hrel|]. run_get.
    destruct (obj_group KBlock s b Hl ltac:(lia)) as (Hg & Hm & Hd). cbn [per] in *.
    destruct (Z.eqb_spec (blocks_per_group s) 0); [lia|].
    destruct (Z.leb_spec (num_block_groups s) (b / blocks_per_group s)); [lia|].
    run (kmalloc_ok s Hr). cbn [negb].
    set (g := b / blocks_per_group s) in *. set (x := b mod blocks_per_group s) in *.
    destruct (lay_meta s Hl (MBitmap g) ltac:(done)) as [Hdv _]. cbn [meta_at] in Hdv.
    run (read_block_ok s _ Hr Hdv). cbn [Z.eqb negb].
    destruct (blk_ok s (bg_block_bitmap (bgdesc_table s) g) Hr) as [-> _].
    assert (8 * (x / 8) + x mod 8 = x) as Hx by (pose proof (Z.div_mod x 8); lia).
    assert (0 <= x mod 8 < 8) by (apply Z.mod_pos_bound; lia).
    assert (0 <= x / 8) by (apply Z.div_pos; lia).
    destruct (Z.leb_spec (block_size s) (x / 8)); [lia|].
    run (write_block_ok s _ _ Hr Hdv). run_get.
    destruct (mark_ok KBlock g (x / 8) (x mod 8) false s H Hg) as (s' & E & Hmv); cbn [per negb]; rewrite ?Hx;
      rewrite <- ?Hd; try lia; [done|by right|].
    run E. exists s'. split; [done|]. cbn [per] in Hmv. by rewrite Hx, <- Hd in Hmv.
Qed.

(** The inodes survive whatever leaves the blocks of the inode tables alone. *)
Lemma inode_keeps P s s' ino :
  layout s -> keeps P s s' -> valid_ino s ino -> ~ P (ino_block s ino) -> inode s' ino = inode s ino.
Proof.
  intros H [Hs Ha Hb _] Hv Hp. destruct (ino_bounds s ino H Hv) as (_ & _ & Hm & _).
  assert (ino_meta s' ino = ino_meta s ino) as Em.
  { unfold ino_meta, ino_group, ino_index, inodes_per_blk. by rewrite (same_geo _ _ Hs). }
  assert (ino_block s' ino = ino_block s ino) as Eb.
  { unfold ino_block. rewrite Em. by apply same_meta. }
  unfold inode. rewrite Eb, Hb; [|by apply meta_book_not_table|done].
  unfold ino_off, ino_index, inodes_per_blk. by rewrite (same_geo _ _ Hs).
Qed.

Lemma alloc_inv_put_inode s ino v :
  alloc_inv s -> valid_ino s ino -> zlen v = INODE_SIZE -> bytes v -> alloc_inv (put_inode ino v s).
Proof.
  intros H Hv Hl Hb. pose proof (al_layout s H) as Hy. destruct (ino_bounds s ino Hy Hv) as (_ & _ & Hm & _).
  destruct (put_inode_block s ino v Hy Hv Hl Hb). apply alloc_inv_put; [done| |done..]. by apply meta_book_not_table.
Qed.

Lemma zlen_new_inode mode : zlen (new_inode mode) = INODE_SIZE /\ bytes (new_inode mode).
Proof.
  split; [|by repeat apply bytes_st; apply bytes_zeros].
  unfold new_inode, set_i_links_count, set_i_mode. by rewrite !zlen_st.
Qed.

Lemma valid_same s s' ino : same s s' -> valid_ino s' ino <-> valid_ino s ino.
Proof. intros Hs. unfold valid_ino. by rewrite (same_geo _ _ Hs). Qed.

(** Marking an inode and writing its first contents. *)
Definition born (mode ino : Z) (s s' : ext2_fs) : Prop :=
  moved (eq (ino_block s ino)) KInode (ino - 1) true s s' /\ inode s' ino = new_inode mode /\
  forall ino', valid_ino s ino' -> ino' <> ino -> inode s' ino' = inode s ino'.

Lemma born_ok mode s s1 ino :
  alloc_inv s -> valid_ino s ino -> moved (fun _ => False) KInode (ino - 1) true s s1 ->
  exists s', ext2_write_inode ino (new_inode mode) s1 = Some (0, s') /\ born mode ino s s'.
Proof.
  intros H Hv [Hi1 Hk1 Hf1]. pose proof (al_layout s H) as Hl. pose proof (al_layout s1 Hi1) as Hl1.
  pose proof (keeps_same _ _ _ Hk1) as Hs1. destruct (zlen_new_inode mode) as [Hz Hb].
  assert (valid_ino s1 ino) as Hv1 by by rewrite (valid_same s s1).
  exists (put_inode ino (new_inode mode) s1). split; [by apply write_inode_ok|].
  assert (ino_block s1 ino = ino_block s ino) as Eb.
  { destruct (ino_bounds s ino Hl Hv) as (_ & _ & Hm & _). unfold ino_block, ino_meta, ino_group, ino_index, inodes_per_blk.
    rewrite (same_geo _ _ Hs1). apply (same_meta s s1); [done|by apply keeps_addrs in Hk1|done]. }
  destruct (ino_bounds s1 ino Hl1 Hv1) as (_ & _ & Hm1 & _).
  split_and!.
  - constructor.
    + by apply alloc_inv_put_inode.
    + apply (keeps_weaken (fun j => False \/ ino_block s ino = j)); [naive_solver|].
      apply (keeps_trans (fun _ => False) (eq (ino_block s ino)) s s1 _ Hk1). rewrite <- Eb.
      apply keeps_put. by apply lay_ready.
    + intros k j Hj. unfold put_inode. rewrite kbit_put; [by apply Hf1|done| |by apply meta_book_not_table].
      unfold total in *. destruct k; cbn in *; by rewrite (same_geo _ _ Hs1).
  - rewrite inode_put_inode by done. by rewrite Z.eqb_refl.
  - intros ino' Hv' Hn. rewrite inode_put_inode by (done || by rewrite (valid_same s s1)).
    destruct (Z.eqb_spec ino' ino); [done|]. by apply (inode_keeps (fun _ => False) s); [..|tauto].
Qed.

Lemma alloc_inode_from_ok mode n g s :
  alloc_inv s -> 0 <= g -> g + Z.of_nat n = num_block_groups s ->
  (forall j, 0 <= j < g * per KInode s -> kbit KInode s j = true) ->
  (alloc_inode_from mode n g s = Some (0, s) /\ all_used KInode s) \/
  (exists ino s', alloc_inode_from mode n g s = Some (ino, s') /\ valid_ino s ino /\
     lowest_free KInode (ino - 1) s /\ born mode ino s s').
Proof.
  intros H. pose proof (al_layout s H) as Hl. pose proof (lay_ready s Hl) as Hr.
  revert g; induction n as [|n IH]; intros g Hg Hn Hlow; cbn [alloc_inode_from].
  { left. split; [done|]. intros i Hi. apply Hlow. unfold total in Hi. nia. }
  assert ((forall j, 0 <= j < per KInode s -> kbit KInode s (g * per KInode s + j) = true) ->
    forall j, 0 <= j < (g + 1) * per KInode s -> kbit KInode s j = true) as Hnext.
  { intros Ha j Hj. apply (group_below KInode s g (per KInode s) Hl Hlow Ha). lia. }
  run_get. destruct (Z.eqb_spec (bg_free_inodes_count (bgdesc_table s) g) 0) as [E|E].
  { apply IH; [lia..|]. apply Hnext. apply (empty_group KInode g s H); [lia|done]. }
  run (kmalloc_ok s Hr). cbn [negb].
  destruct (lay_meta s Hl (MIBitmap g) ltac:(cbn; lia)) as [Hd _]. cbn [meta_at] in Hd.
  run (read_block_ok s _ Hr Hd). cbn [Z.eqb negb].
  pose proof (scan_ok KInode g s Hl ltac:(lia)) as Hscan. cbn [per kmeta meta_at] in Hscan.
  destruct (find_free _ _ 0) as [[y b]|]; cycle 1.
  { apply IH; [lia..|]. by apply Hnext. }
  destruct Hscan as (Hy & Hb & Hp & Hfree & Hbelow). right.
  destruct (per_pos KInode s Hl) as (_ & _ & Htot).
  assert (0 <= g * inodes_per_group s + (8 * y + b) < total KInode s) as Hlt by (unfold total; cbn [per]; nia).
  run (write_block_ok s _ _ Hr Hd). run_get.
  destruct (mark_ok KInode g y b true s H ltac:(lia) Hy Hb ltac:(cbn; lia) Hfree ltac:(by left)) as (s1 & E1 & Hm1).
  run E1. cbn [per] in Hm1. set (i := g * inodes_per_group s + (8 * y + b)) in *.
  assert (wrap32 (g * inodes_per_group s + y * 8 + b + 1) = i + 1) as ->.
  { unfold wrap32, i in *. rewrite Z.mod_small; lia. }
  assert (valid_ino s (i + 1)) as Hv by (unfold valid_ino; unfold total in Hlt; cbn in Hlt; lia).
  destruct (born_ok mode s s1 (i + 1) H Hv) as (s' & E' & Hborn); [by replace (i + 1 - 1) with i by lia|].
  run E'. exists (i + 1), s'. split_and!; [done|done| |done]. replace (i + 1 - 1) with i by lia.
  split; [done|]. split; [done|]. by apply (group_below KInode s g (8 * y + b) Hl Hlow Hbelow).
Qed.

Lemma alloc_inode_spec mode s :
  alloc_inv s ->
  (alloc_inode mode s = Some (0, s) /\ all_used KInode s) \/
  (exists ino s', alloc_inode mode s = Some (ino, s') /\ valid_ino s ino /\
     lowest_free KInode (ino - 1) s /\ born mode ino s s').
Proof.
  intros H. destruct (lay_groups s (al_layout s H)) as [Hn _].
  unfold alloc_inode. run_get. apply alloc_inode_from_ok; [done|lia..].
Qed.

Lemma free_inode_spec s ino :
  alloc_inv s -> valid_ino s ino -> kbit KInode s (ino - 1) = true ->
  exists s', free_inode ino s = Some (tt, s') /\ moved (fun _ => False) KInode (ino - 1) false s s'.
Proof.
  intros H Hv Hbit. pose proof (al_layout s H) as Hl. pose proof (lay_ready s Hl) as Hr.
  destruct (per_pos KInode s Hl) as (Hp & _ & _). cbn [per] in Hp. unfold free_inode. destruct Hv as [Hv1 Hv2].
  destruct (Z.eqb_spec ino 0); [lia|]. run_get.
  destruct (obj_group KInode s (ino - 1) Hl ltac:(unfold total; cbn; lia)) as (Hg & Hm & Hd). cbn [per] in *.
  destruct (Z.eqb_spec (inodes_per_group s) 0); [lia|].
  destruct (Z.leb_spec (num_block_groups s) ((ino - 1) / inodes_per_group s)); [lia|].
  run (kmalloc_ok s Hr). cbn [negb].
  set (g := (ino - 1) / inodes_per_group s) in *. set (x := (ino - 1) mod inodes_per_group s) in *.
  destruct (lay_meta s Hl (MIBitmap g) ltac:(done)) as [Hdv _]. cbn [meta_at] in Hdv.
  run (read_block_ok s _ Hr Hdv). cbn [Z.eqb negb].
  destruct (blk_ok s (bg_inode_bitmap (bgdesc_table s) g) Hr) as [-> _].
  assert (8 * (x / 8) + x mod 8 = x) as Hx by (pose proof (Z.div_mod x 8); lia).
  assert (0 <= x mod 8 < 8) by (apply Z.mod_pos_bound; lia).
  assert (0 <= x / 8) by (apply Z.div_pos; lia).
  destruct (Z.leb_spec (block_size s) (x / 8)); [lia|].
  run (write_block_ok s _ _ Hr Hdv). run_get.
  destruct (mark_ok KInode g (x / 8) (x mod 8) false s H Hg) as (s' & E & Hmv); cbn [per negb]; rewrite ?Hx;
    rewrite <- ?Hd; try lia; [done|by right|].
  run E. exists s'. split; [done|]. cbn [per] in Hmv. by rewrite Hx, <- Hd in Hmv.
Qed.

(** ** What the allocator promises *)

(** What holds of [alloc_block] whatever calls fail: [b] was free, the cached
    counters are charged, and nothing but [b] and the allocation state was
    written. *)
Record taken (b : Z) (s s' : ext2_fs) : Prop := {
  tk_free : 0 < b < total KBlock s /\ kbit KBlock s b = false;
  tk_geo : geo s' = geo s;
  tk_table : bgdesc_table s' = bgdesc_table (add_free_blocks (b / blocks_per_group s) (-1) s);
  tk_sb : sb_raw s' = sb_raw (add_free_blocks (b / blocks_per_group s) (-1) s);
  tk_blk : forall x, x <> b -> ~ book s x -> blk s' x = blk s x;
}.

(** The writes of [alloc_block]. *)
Lemma take_any s0 s g bm b w :
  alloc_inv (calm s0) -> unharmed s0 s -> book s0 bm -> g = b / blocks_per_group s0 ->
  0 <= b < total KBlock s0 -> kbit KBlock s0 b = false ->
  exists s', (ext2_write_block bm w;;; modify (add_free_blocks g (-1));;; ext2_write_superblock;;;
    ext2_write_block b (zeros (block_size s));;; ret b) s = Some (b, s') /\ taken b s0 s'.
Proof.
  intros H (rc & o & ->) Hbm Hg Hb Hfree. pose proof (al_layout _ H) as Hl. pose proof (lay_cached _ Hl) as Hc. pose proof (lay_ready _ Hl) as Hr.
  set (s := set_outcomes o (set_dev (set_last_error rc (dev s0)) s0)).
  destruct (write_block_any _ Hr s bm w eq_refl) as (rc1 & s1 & E1 & F1). run E1. run_get.
  set (s1' := add_free_blocks g (-1) s1). assert (geo s1' = geo (calm s0)) as G1 by apply F1.
  destruct (write_superblock_any _ Hr s1' Hc G1) as (rc2 & s2 & E2 & F2). run E2.
  destruct (write_block_any _ Hr s2 b (zeros (block_size s)) ltac:(by rewrite (fr_geo _ _ _ F2))) as (rc3 & s3 & E3 & F3). run E3.
  exists s3. split; [done|]. destruct F1 as [A1 A2 A3 A4], F2 as [B1 B2 B3 B4], F3 as [C1 C2 C3 C4]. constructor.
  - split; [|done]. destruct (decide (b = 0)) as [->|]; [|lia]. pose proof (al_zero _ H) as Hz. change (kbit KBlock s0 0 = true) in Hz. congruence.
  - by rewrite C1, B1.
  - rewrite C2, B2. cbn. by rewrite A2, <- Hg.
  - rewrite C3, B3. cbn. by rewrite A3.
  - intros x Hx Hn. rewrite C4, B4 by (try congruence; contradict Hn; by left). change (blk s1' x) with (blk s1 x). apply A4. by intros ->.
Qed.

Lemma alloc_block_from_any s0 n : alloc_inv (calm s0) -> forall g s, unharmed s0 s -> 0 <= g -> g + Z.of_nat n = num_block_groups s0 ->
  exists b s', alloc_block_from n g s = Some (b, s') /\ (b = 0 /\ unharmed s0 s' \/ taken b s0 s').
Proof.
  intros H. pose proof (al_layout _ H) as Hl. pose proof (lay_ready _ Hl) as Hr.
  induction n as [|n IH]; intros g s Hu Hg Hn; cbn [alloc_block_from]; [eexists _, _; split; [done|by left]|]. run_get.
  assert (geo s = geo s0 /\ bgdesc_table s = bgdesc_table s0) as [Eg Et] by (by destruct Hu as (rc & o & ->)).
  destruct (_ =? 0); [apply IH; done || lia|]. destruct (kmalloc_any s) as (ok & s1 & E1 & U1). run E1.
  assert (unharmed s0 s1) as U1' by (by etrans). destruct ok; cbn [negb]; [|eexists _, _; split; [done|by left]].
  destruct (read_block_any _ Hr s1 (bg_block_bitmap (bgdesc_table s) g)) as (rc & buf & s2 & E2 & U2 & Hbuf).
  { destruct U1 as (? & ? & ->). exact Eg. }
  run E2. assert (unharmed s0 s2) as U2' by (by etrans). destruct (Z.eqb_spec rc 0) as [->|]; cbn [negb]; [|apply IH; done || lia].
  rewrite Hbuf by done. rewrite Eg, Et.
  replace (blk s1 (bg_block_bitmap (bgdesc_table s0) g)) with (blk s0 (bg_block_bitmap (bgdesc_table s0) g)) by (by destruct U1' as (? & ? & ->)).
  pose proof (scan_ok KBlock g _ Hl ltac:(cbn; lia)) as Hscan. cbn [per kmeta meta_at] in Hscan. cbv zeta.
  change (find_free (blk s0 (bg_block_bitmap (bgdesc_table s0) g))) with (find_free (blk (calm s0) (bg_block_bitmap (bgdesc_table (calm s0)) g))).
  destruct (find_free _ _ 0) as [[y b]|]; [|apply IH; done || lia]. destruct Hscan as (Hy & Hb & Hp & Hfree & _).
  set (i := g * blocks_per_group s0 + (8 * y + b)) in *.
  destruct (per_pos KBlock _ Hl) as (Hpp & _ & Htot). cbn [per calm set_outcomes geo] in Hp, Hpp.
  assert (0 <= i < total KBlock s0) as Hlt by (unfold total, i in *; cbn [per] in *; nia).
  change (total KBlock (calm s0)) with (total KBlock s0) in Htot.
  assert (wrap32 (g * blocks_per_group s0 + y * 8 + b) = i) as -> by (unfold wrap32, i in *; rewrite Z.mod_small; lia).
  destruct (take_any s0 s2 g (bg_block_bitmap (bgdesc_table s0) g) i
    (set_bit y b (blk (calm s0) (bg_block_bitmap (bgdesc_table (calm s0)) g))) H U2') as (s' & E' & Ht); [..|done|done|].
  - right. exists KBlock, g. split; [lia|done].
  - unfold i. rewrite Z.div_add_l by lia. rewrite Z.div_small; lia.
  - exists i, s'. split; [|by right]. rewrite <- E'. destruct U2' as (? & ? & ->). done.
Qed.

(** C26: On a volume whose allocation state is consistent.  When no [kmalloc]
    and no transfer fails, [alloc_block] returns 0 and changes nothing if every
    bit of every block bitmap is set; otherwise it returns the lowest free
    block, zeroed, having set that bit and no other, with both copies of both
    counters exact and every other block outside the allocation state as it was.
    Whatever calls fail, it returns: either 0 with the volume and the cached
    tables as they were, or a block that was free, with one free block less in
    the cached counters and no block written but that one and those of the
    allocation state. *)
Theorem ext2_alloc_block_correct s :
  alloc_inv (calm s) ->
  (no_failure s ->
    (alloc_block s = Some (0, s) /\ all_used KBlock s) \/
    (exists b s', alloc_block s = Some (b, s') /\ 0 < b /\ lowest_free KBlock b s /\
       moved (eq b) KBlock b true s s' /\ blk s' b = zeros (block_size s))) /\
  (exists b s', alloc_block s = Some (b, s') /\ (b = 0 /\ unharmed s s' \/ taken b s s')).
Proof.
  intros H. split.
  - intros Hn. rewrite (calm_id s Hn) in H. by apply alloc_block_spec.
  - unfold alloc_block. run_get. destruct (lay_groups _ (al_layout _ H)) as [Hg _]. cbn in Hg. apply alloc_block_from_any; done || lia.
Qed.

(** [alloc_inode] returns 0 and changes nothing when every inode is in use;
    otherwise it returns the lowest free inode number, marked, counted, and
    initialised on disk with the mode and one link, and no other inode
    changes. *)
Theorem ext2_alloc_inode_correct mode s :
  alloc_inv s ->
  (alloc_inode mode s = Some (0, s) /\ all_used KInode s) \/
  (exists ino s', alloc_inode mode s = Some (ino, s') /\ valid_ino s ino /\
     lowest_free KInode (ino - 1) s /\ born mode ino s s').
Proof. exact (alloc_inode_spec mode s). Qed.

End Ext2Alloc.
