(* ===== verification/Ext2File.v ===== *)
(** Files of the ext2 driver: the block map with its single indirect block,
    reading, writing, truncation and the release of an inode's blocks
    (src/kernel/fs/ext2.c), with the registry of live nodes they keep in step
    (src/kernel/fs/vfs.c). *)

From stdpp Require Import base tactics numbers option gmap list.
From Stdlib Require Import ZArith Lia.
From S2P Require Import Prelude Bytes Ext2 Ext2Alloc.

Module Ext2File.
Export Ext2Alloc.

(** ** VFS nodes *)

Abbreviation VFS_FILE := 1 (only parsing).
Abbreviation VFS_DIR := 2 (only parsing).
Abbreviation VFS_CHRDEV := 3 (only parsing).
Abbreviation VFS_BLKDEV := 4 (only parsing).
Abbreviation VFS_SYMLINK := 5 (only parsing).
Abbreviation VFS_NODE_ORPHANED := 4 (only parsing).

Definition ld_node (a : Z) : M vfs_node :=
  fun s => n ← nodes (mount s) !! a; Some (n, s).
Definition on_nodes (f : gmap Z vfs_node -> gmap Z vfs_node) (s : ext2_fs) : ext2_fs :=
  set_mount (mk_mount (f (nodes (mount s))) (active_nodes (mount s)) (root (mount s))) s.
Definition st_node (a : Z) (f : vfs_node -> vfs_node) : M unit := modify (on_nodes (alter f a)).
Definition node_set_size (v : Z) (n : vfs_node) : vfs_node :=
  mk_node (n_ino n) v (n_mode n) (n_uid n) (n_gid n) (n_nlink n)
    (n_atime n) (n_mtime n) (n_ctime n) (n_type n) (n_flags n) (n_fs_data n) (n_parent n) (n_refcount n).
Definition node_set_mtime (v : Z) (n : vfs_node) : vfs_node :=
  mk_node (n_ino n) (n_size n) (n_mode n) (n_uid n) (n_gid n) (n_nlink n)
    (n_atime n) v (n_ctime n) (n_type n) (n_flags n) (n_fs_data n) (n_parent n) (n_refcount n).

Definition vfs_node_stable_ino (m : vfs_mount) (a : Z) (n : vfs_node) : Z :=
  if negb (n_ino n =? 0) then n_ino n
  else if a =? root m then 1
  else n_fs_data n.

Definition sync_node (ino new_size new_mtime a : Z) (s : ext2_fs) : ext2_fs :=
  match nodes (mount s) !! a with
  | None => s
  | Some n =>
    if vfs_node_stable_ino (mount s) a n =? ino
    then on_nodes (<[a := (if new_mtime =? 0 then id else node_set_mtime new_mtime) (node_set_size new_size n)]>) s
    else s
  end.
(** The root first, then the active nodes in list order. *)
Definition vfs_active_nodes_sync_size_locked (ino new_size new_mtime : Z) (s : ext2_fs) : ext2_fs :=
  if ino =? 0 then s
  else fold_left (fun s a => sync_node ino new_size new_mtime a s) (root (mount s) :: active_nodes (mount s)) s.

Definition ext2_node_ino (n : vfs_node) : Z :=
  if n_fs_data n =? 0 then EXT2_ROOT_INO else wrap32 (n_fs_data n).

(** ** The block map *)

Definition ptrs_per_block (s : ext2_fs) : Z := block_size s / 4.

Definition ext2_bmap (inode : list Z) (logical_block : Z) : M Z :=
  if logical_block <? 12 then ret (i_block inode logical_block)
  else
    s <- get;;
    if logical_block <? 12 + ptrs_per_block s then
      let indirect_blk := i_block inode 12 in
      if indirect_blk =? 0 then ret 0
      else
        ok <- kmalloc;;
        if negb ok then ret 0
        else
          rc & indirect <- ext2_read_block indirect_blk;;
          ret (if rc =? 0 then ld 4 (4 * (logical_block - 12)) indirect else 0)
    else ret 0.

(** The allocating variant returns the block and the changed inode. *)
Definition add_i_blocks (d : Z) (inode : list Z) : list Z := set_i_blocks (i_blocks inode + d) inode.
(** The two halves of its indirect case: the indirect block is allocated when
    it is missing (false if that failed), then its entry. *)
Definition bmap_alloc_indirect (inode : list Z) : M (bool * list Z) :=
  s <- get;;
  if i_block inode 12 =? 0 then
    indirect_blk <- alloc_block;;
    if indirect_blk =? 0 then ret (false, inode)
    else ret (true, add_i_blocks (block_size s / 512) (set_i_block 12 indirect_blk inode))
  else ret (true, inode).
Definition bmap_alloc_entry (inode : list Z) (logical_block : Z) : M (Z * list Z) :=
  s <- get;;
  ok <- kmalloc;;
  if negb ok then ret (0, inode)
  else
    rc & indirect <- ext2_read_block (i_block inode 12);;
    if negb (rc =? 0) then ret (0, inode)
    else
      let idx := logical_block - 12 in
      if ld 4 (4 * idx) indirect =? 0 then
        phys <- alloc_block;;
        if phys =? 0 then ret (0, inode)
        else
          ext2_write_block (i_block inode 12) (st 4 (4 * idx) phys indirect);;;
          ret (phys, add_i_blocks (block_size s / 512) inode)
      else ret (ld 4 (4 * idx) indirect, inode).

Definition ext2_bmap_alloc (inode : list Z) (logical_block : Z) : M (Z * list Z) :=
  s <- get;;
  if logical_block <? 12 then
    if negb (i_block inode logical_block =? 0) then ret (i_block inode logical_block, inode)
    else
      phys <- alloc_block;;
      if phys =? 0 then ret (0, inode)
      else ret (phys, add_i_blocks (block_size s / 512) (set_i_block logical_block phys inode))
  else if logical_block <? 12 + ptrs_per_block s then
    go & inode <- bmap_alloc_indirect inode;;
    if negb go then ret (0, inode) else bmap_alloc_entry inode logical_block
  else ret (0, inode).

(** ** Reading *)

(** The loop of [ext2_vfs_read]: the result code and the bytes stored at
    [out].  Every round but the last, which only tests the condition, consumes
    the rest of a block, so three more rounds than full blocks are enough. *)
Definition rounds (s : ext2_fs) (remaining : Z) : nat := Z.to_nat (remaining / block_size s) + 3.
Definition chunk_at (s : ext2_fs) (file_off remaining : Z) : Z :=
  let chunk := block_size s - file_off mod block_size s in if remaining <? chunk then remaining else chunk.
Fixpoint read_loop (fuel : nat) (inode : list Z) (remaining file_off : Z) (out : list Z) : M (Z * list Z) :=
  match fuel with
  | O => stuck
  | S fuel =>
    if negb (0 <? remaining) then ret (0, out)
    else
      s <- get;;
      let logical_block := wrap32 (file_off / block_size s) in
      let block_off := file_off mod block_size s in
      phys <- ext2_bmap inode logical_block;;
      let chunk := chunk_at s file_off remaining in
      if phys =? 0 then read_loop fuel inode (remaining - chunk) (file_off +u chunk) (out ++ zeros chunk)
      else
        rc & block_buf <- ext2_read_block phys;;
        if negb (rc =? 0) then ret (-1, out)
        else
          data <- ldbuf block_off chunk block_buf;;
          read_loop fuel inode (remaining - chunk) (file_off +u chunk) (out ++ data)
  end.

(** The return value and the bytes stored in [buffer]. *)
Definition ext2_vfs_read (node offset size : Z) : M (Z * list Z) :=
  if (node =? 0) || (size =? 0) then ret (0, [])
  else
    n <- ld_node node;;
    rc & inode <- ext2_read_inode (ext2_node_ino n);;
    if negb (rc =? 0) then ret (-1, [])
    else if i_size inode <=? offset then ret (0, [])
    else
      let size := if i_size inode - offset <? size then i_size inode - offset else size in
      ok <- kmalloc;;
      if negb ok then ret (- ENOMEM, [])
      else
        s <- get;;
        rc & out <- read_loop (rounds s size) inode size offset [];;
        if negb (rc =? 0) then ret (-1, out) else ret (sint32 size, out).

(** ** Writing *)

(** The loop that allocates the blocks [lb], [lb + 1], ... of a range. *)
Fixpoint ensure (n : nat) (inode : list Z) (lb : Z) : M (bool * list Z) :=
  match n with
  | O => ret (true, inode)
  | S n =>
    phys & inode <- ext2_bmap_alloc inode lb;;
    if phys =? 0 then ret (false, inode) else ensure n inode (lb + 1)
  end.
(** The number of rounds of the loop over [first .. last]: [ext2_bmap_alloc]
    returns 0 from logical block [12 + ptrs_per_block] on, so the loop ends by
    then even when the range is longer. *)
Definition range_rounds (s : ext2_fs) (first last1 : Z) : nat :=
  Z.to_nat (Z.min (last1 - first) (13 + ptrs_per_block s)).

(** The read-modify-write loop: the error and the offset it got to. *)
Fixpoint write_loop (fuel : nat) (inode src : list Z) (file_off : Z) : M (Z * Z) :=
  match fuel with
  | O => stuck
  | S fuel =>
    if zlen src =? 0 then ret (0, file_off)
    else
      s <- get;;
      let logical_block := wrap32 (file_off / block_size s) in
      let block_off := file_off mod block_size s in
      phys <- ext2_bmap inode logical_block;;
      if phys =? 0 then ret (- EIO, file_off)
      else
        rc & block_buf <- ext2_read_block phys;;
        if negb (rc =? 0) then ret (- EIO, file_off)
        else
          let chunk := chunk_at s file_off (zlen src) in
          block_buf <- stbuf block_off (slice 0 chunk src) block_buf;;
          rc <- ext2_write_block phys block_buf;;
          if negb (rc =? 0) then ret (- EIO, file_off)
          else write_loop fuel inode (drop (Z.to_nat chunk) src) (file_off +u chunk)
  end.

(** Recording that the file now reaches [end_off]: the inode, the node's
    cached size, and the nodes of the same inode. *)
Definition commit_size (node ino end_off : Z) (inode : list Z) : M unit :=
  let inode := if i_size inode <? end_off then set_i_size end_off inode else inode in
  n <- ld_node node;;
  (if n_size n <? i_size inode then st_node node (node_set_size (i_size inode)) else ret tt);;;
  let inode := set_i_mtime 0 inode in
  ext2_write_inode ino inode;;;
  modify (vfs_active_nodes_sync_size_locked ino (i_size inode) (i_mtime inode)).

Definition EXTENTS_FL (inode : list Z) : bool := negb (Z.land (i_flags inode) 524288 =? 0).
Definition ext2_vfs_write (node offset : Z) (buffer : list Z) : M Z :=
  let size := zlen buffer in
  if (node =? 0) || (size =? 0) then ret 0
  else
    n <- ld_node node;;
    let ino := ext2_node_ino n in
    rc & inode <- ext2_read_inode ino;;
    if negb (rc =? 0) then ret (- EIO)
    else if EXTENTS_FL inode then ret (- EOPNOTSUPP)
    else
      s <- get;;
      let first_blk := wrap32 (offset / block_size s) in
      let last_blk := wrap32 ((offset +u size -u 1) / block_size s) in
      ok & inode <- ensure (range_rounds s first_blk (last_blk + 1)) inode first_blk;;
      if negb ok then ret (- ENOSPC)
      else
        ext2_write_inode ino inode;;;
        ok <- kmalloc;;
        if negb ok then ret (- ENOMEM)
        else
          write_err & file_off <- write_loop (rounds s size) inode buffer offset;;
          if negb (write_err =? 0) then
            (if offset <? file_off then commit_size node ino file_off inode else ret tt);;; ret write_err
          else
            commit_size node ino (offset +u size) inode;;; ret (sint32 size).

(** ** Truncating *)

Fixpoint all_zero (n : nat) (k : Z) (indirect : list Z) : bool :=
  match n with
  | O => true
  | S n => if negb (ld 4 (4 * k) indirect =? 0) then false else all_zero n (k + 1) indirect
  end.

(** Clearing the pointer of logical block [lb] after its block was freed: the
    error, or 0, and the inode. *)
Definition clear_ptr (inode : list Z) (lb : Z) : M (Z * list Z) :=
  s <- get;;
  if lb <? 12 then ret (0, set_i_block lb 0 inode)
  else if i_block inode 12 =? 0 then ret (0, inode)
  else
    ok <- kmalloc;;
    if negb ok then ret (- ENOMEM, inode)
    else
      rc & indirect <- ext2_read_block (i_block inode 12);;
      if negb (rc =? 0) then ret (- EIO, inode)
      else
        let indirect := st 4 (4 * (lb - 12)) 0 indirect in
        ext2_write_block (i_block inode 12) indirect;;;
        if all_zero (Z.to_nat (ptrs_per_block s)) 0 indirect then
          free_block (i_block inode 12);;;
          ret (0, add_i_blocks (- (block_size s / 512)) (set_i_block 12 0 inode))
        else ret (0, inode).

(** The loop over the blocks to release. *)
Fixpoint shrink (n : nat) (inode : list Z) (lb : Z) : M (Z * list Z) :=
  match n with
  | O => ret (0, inode)
  | S n =>
    s <- get;;
    phys <- ext2_bmap inode lb;;
    if phys =? 0 then shrink n inode (lb + 1)
    else
      free_block phys;;;
      rc & inode <- clear_ptr inode lb;;
      if negb (rc =? 0) then ret (rc, inode)
      else shrink n (add_i_blocks (- (block_size s / 512)) inode) (lb + 1)
  end.

(** Allocating or releasing blocks for the new size: the error, or 0, and the
    inode. *)
Definition resize_blocks (inode : list Z) (new_size : Z) : M (Z * list Z) :=
  s <- get;;
  let old_blocks := wrap32 (i_size inode + block_size s - 1) / block_size s in
  let new_blocks := wrap32 ((new_size +u block_size s -u 1) / block_size s) in
  if i_size inode <? new_size then
    ok & inode <- ensure (range_rounds s old_blocks new_blocks) inode old_blocks;;
    ret (if ok then 0 else - ENOSPC, inode)
  else if new_size <? i_size inode then
    shrink (Z.to_nat (old_blocks - new_blocks)) inode new_blocks
  else ret (0, inode).
(** The new size in the inode and in the nodes. *)
Definition set_size (node ino new_size : Z) (inode : list Z) : M Z :=
  let inode := set_i_mtime 0 (set_i_size new_size inode) in
  ext2_write_inode ino inode;;;
  st_node node (node_set_size new_size);;;
  modify (vfs_active_nodes_sync_size_locked ino new_size (i_mtime inode));;;
  ret 0.
Definition ext2_vfs_truncate (node new_size : Z) : M Z :=
  if node =? 0 then ret (- EINVAL)
  else
    n <- ld_node node;;
    if negb (n_type n =? VFS_FILE) then ret (- EISDIR)
    else
      let ino := ext2_node_ino n in
      rc & inode <- ext2_read_inode ino;;
      if negb (rc =? 0) then ret (- EIO)
      else if EXTENTS_FL inode then ret (- EOPNOTSUPP)
      else
        rc & inode <- resize_blocks inode new_size;;
        if negb (rc =? 0) then ret rc else set_size node ino new_size inode.

(** ** Orphans *)

(** The table of unlinked inodes that are still open: (ino, state) with state
    0 unused, 1 pending, 2 being reclaimed.  The loops return at the first
    slot that matches. *)
Fixpoint upd_first (p : Z * Z -> bool) (f : Z * Z -> Z * Z) (l : list (Z * Z)) : list (Z * Z) :=
  match l with
  | [] => []
  | x :: l => if p x then f x :: l else x :: upd_first p f l
  end.
Definition ext2_mark_orphan_locked (ino : Z) (s : ext2_fs) : ext2_fs :=
  if ino =? 0 then s
  else if existsb (fun '(i, st) => (i =? ino) && negb (st =? 0)) (orphans s) then s
  else set_orphans (upd_first (fun '(_, st) => st =? 0) (fun _ => (ino, 1)) (orphans s)) s.
Definition ext2_is_orphan_locked (ino : Z) (s : ext2_fs) : bool :=
  negb (ino =? 0) && existsb (fun '(i, st) => (i =? ino) && (st =? 1)) (orphans s).
Definition ext2_claim_orphan_reclaim_locked (ino : Z) (s : ext2_fs) : bool * ext2_fs :=
  if ino =? 0 then (false, s)
  else match List.find (fun '(i, _) => i =? ino) (orphans s) with
       | Some (_, st) =>
         if st =? 1
         then (true, set_orphans (upd_first (fun '(i, _) => i =? ino) (fun '(i, _) => (i, 2)) (orphans s)) s)
         else (false, s)
       | None => (false, s)
       end.
Definition ext2_clear_orphan_locked (ino : Z) (s : ext2_fs) : ext2_fs :=
  if ino =? 0 then s
  else set_orphans (upd_first (fun '(i, _) => i =? ino) (fun _ => (0, 0)) (orphans s)) s.
(** Back to pending after a failed reclaim. *)
Definition unclaim (ino : Z) (s : ext2_fs) : ext2_fs :=
  set_orphans (upd_first (fun '(i, st) => (i =? ino) && (st =? 2)) (fun '(i, _) => (i, 1)) (orphans s)) s.

(** Freeing the direct blocks from [k] on, and the entries of an indirect
    block from [k] on. *)
Fixpoint free_direct (n : nat) (inode : list Z) (k : Z) : M (list Z) :=
  match n with
  | O => ret inode
  | S n =>
    if i_block inode k =? 0 then free_direct n inode (k + 1)
    else free_block (i_block inode k);;; free_direct n (set_i_block k 0 inode) (k + 1)
  end.
Fixpoint free_entries (n : nat) (indirect : list Z) (k : Z) : M unit :=
  match n with
  | O => ret tt
  | S n =>
    (if ld 4 (4 * k) indirect =? 0 then ret tt else free_block (ld 4 (4 * k) indirect));;;
    free_entries n indirect (k + 1)
  end.

(** Freeing everything the inode points to: the error, or 0, and the inode. *)
Definition free_contents (inode : list Z) : M (Z * list Z) :=
  s <- get;;
  if Z.land (i_mode inode) EXT2_S_IFMT =? EXT2_S_IFLNK then
    if (0 <? i_blocks inode) && negb (i_block inode 0 =? 0) then
      free_block (i_block inode 0);;; ret (0, set_i_block 0 0 inode)
    else ret (0, inode)
  else
    inode <- free_direct 12 inode 0;;
    if i_block inode 12 =? 0 then ret (0, inode)
    else
      ok <- kmalloc;;
      if negb ok then ret (- ENOMEM, inode)
      else
        rc & indirect <- ext2_read_block (i_block inode 12);;
        if negb (rc =? 0) then ret (- EIO, inode)
        else
          free_entries (Z.to_nat (ptrs_per_block s)) indirect 0;;;
          free_block (i_block inode 12);;;
          ret (0, set_i_block 12 0 inode).

Definition ext2_reclaim_orphan_inode_locked (target_ino : Z) : M Z :=
  if target_ino =? 0 then ret (- EINVAL)
  else
    rc & inode <- ext2_read_inode target_ino;;
    if negb (rc =? 0) then modify (unclaim target_ino);;; ret (- EIO)
    else
      rc & inode <- free_contents inode;;
      if negb (rc =? 0) then
        modify (unclaim target_ino);;; ext2_write_inode target_ino inode;;; ret rc
      else
        ext2_write_inode target_ino (set_i_size 0 (set_i_blocks 0 inode));;;
        free_inode target_ino;;;
        modify (ext2_clear_orphan_locked target_ino);;;
        ret 0.

(** ** Inode fields *)

Definition inode_bytes (v : list Z) : Prop := zlen v = INODE_SIZE /\ bytes v.

Lemma inode_bytes_st n o x v : inode_bytes v -> 0 <= o -> o + Z.of_nat n <= INODE_SIZE -> inode_bytes (st n o x v).
Proof. intros [Hl Hb] ??. split; [rewrite zlen_st; lia|by apply bytes_st]. Qed.

Lemma i_block_range v k : inode_bytes v -> 0 <= i_block v k < U32.
Proof. intros [_ Hb]. apply (ld_range 4 _ _ Hb). Qed.

Lemma i_block_set v k j x :
  inode_bytes v -> 0 <= k < 15 -> 0 <= j < 15 -> 0 <= x < U32 ->
  i_block (set_i_block k x v) j = if j =? k then x else i_block v j.
Proof.
  intros [Hl _] Hk Hj Hx. unfold i_block, set_i_block. destruct (Z.eqb_spec j k) as [->|].
  - rewrite ld_st_eq by lia. apply Z.mod_small. done.
  - rewrite ld_st_apart by lia. done.
Qed.

Lemma i_block_st n o x v j :
  inode_bytes v -> 0 <= o -> o + Z.of_nat n <= 40 -> 0 <= j -> i_block (st n o x v) j = i_block v j.
Proof. intros [Hl _] ???. unfold i_block. apply ld_st_apart; lia. Qed.

Lemma i_block_add_blocks d v j : inode_bytes v -> 0 <= j -> i_block (add_i_blocks d v) j = i_block v j.
Proof. intros. by apply i_block_st. Qed.

Lemma inode_bytes_set_block k x v : inode_bytes v -> 0 <= k < 15 -> inode_bytes (set_i_block k x v).
Proof. intros. apply inode_bytes_st; [done|lia..]. Qed.

Lemma inode_bytes_add_blocks d v : inode_bytes v -> inode_bytes (add_i_blocks d v).
Proof. intros. by apply inode_bytes_st. Qed.
#[export] Hint Resolve inode_bytes_set_block inode_bytes_add_blocks : ext2.

(** [v'] differs from [v] in the block pointers and in [i_blocks] only. *)
Definition same_attrs (v v' : list Z) : Prop :=
  forall n o, 0 <= o -> o + Z.of_nat n <= 28 \/ 32 <= o /\ o + Z.of_nat n <= 40 \/ 100 <= o -> ld n o v' = ld n o v.
#[export] Instance same_attrs_refl : Reflexive same_attrs.
Proof. done. Qed.
#[export] Instance same_attrs_trans : Transitive same_attrs.
Proof. intros v1 v2 v3 H12 H23 n o Ho Hr. by rewrite H23, H12. Qed.

Lemma same_attrs_block v k x : inode_bytes v -> 0 <= k < 15 -> same_attrs v (set_i_block k x v).
Proof. intros [Hl _] Hk n o Ho Hr. apply ld_st_apart; lia. Qed.
Lemma same_attrs_blocks v d : inode_bytes v -> same_attrs v (add_i_blocks d v).
Proof. intros [Hl _] n o Ho Hr. apply ld_st_apart; lia. Qed.

(** ** The blocks of a file *)

Definition ptr (s : ext2_fs) (v : list Z) (lb : Z) : Z :=
  if lb <? 12 then i_block v lb
  else if lb <? 12 + ptrs_per_block s then
    if i_block v 12 =? 0 then 0 else ld 4 (4 * (lb - 12)) (blk s (i_block v 12))
  else 0.
(** The pointers by position: the indirect block is at -1, logical block [k]
    at [k]. *)
Definition nslots (s : ext2_fs) : Z := 12 + ptrs_per_block s.
Definition slot (s : ext2_fs) (v : list Z) (k : Z) : Z := if k =? -1 then i_block v 12 else ptr s v k.
Definition is_slot (s : ext2_fs) (k : Z) : Prop := -1 <= k < nslots s.

(** A data block in use. *)
Definition usable (s : ext2_fs) (b : Z) : Prop :=
  0 < b < total KBlock s /\ kbit KBlock s b = true /\ releasable KBlock b s.

(** The files [L] with the inodes [I]: every pointer leads to a data block in
    use, and no two pointers of any two files lead to the same block. *)
Record files (s : ext2_fs) (I : Z -> list Z) (L : Z -> Prop) : Prop := {
  f_alloc : alloc_inv s;
  f_valid : forall ino, L ino -> valid_ino s ino;
  f_inode : forall ino, L ino -> inode_bytes (I ino);
  f_usable : forall ino k, L ino -> is_slot s k -> slot s (I ino) k <> 0 -> usable s (slot s (I ino) k);
  f_inj : forall ino k ino' k', L ino -> L ino' -> is_slot s k -> is_slot s k' ->
    slot s (I ino) k <> 0 -> slot s (I ino) k = slot s (I ino') k' -> ino = ino' /\ k = k';
}.
Definition unowned (s : ext2_fs) (I : Z -> list Z) (L : Z -> Prop) (b : Z) : Prop :=
  forall ino k, L ino -> is_slot s k -> slot s (I ino) k <> b.

(** The byte of the file at offset [x]; a hole reads as 0. *)
Definition fbyte (s : ext2_fs) (v : list Z) (x : Z) : Z :=
  let p := ptr s v (x / block_size s) in if p =? 0 then 0 else byte (blk s p) (x mod block_size s).

Lemma bs_pos s : ready s -> 1024 <= block_size s <= 4096 /\ block_size s mod 512 = 0 /\ 4 * ptrs_per_block s = block_size s.
Proof. intros H. unfold ptrs_per_block. destruct (ready_bs s H) as [->|[->| ->]]; split_and!; try done; lia. Qed.

Lemma bmap_ok s I L ino lb :
  files s I L -> L ino -> 0 <= lb -> ext2_bmap (I ino) lb s = Some (ptr s (I ino) lb, s).
Proof.
  intros H Hi Hlb. pose proof (lay_ready s (al_layout s (f_alloc _ _ _ H))) as Hr. destruct (bs_pos s Hr) as (? & _ & ?).
  unfold ext2_bmap, ptr. destruct (Z.ltb_spec lb 12); [done|]. run_get.
  destruct (Z.ltb_spec lb (12 + ptrs_per_block s)); [|done].
  destruct (Z.eqb_spec (i_block (I ino) 12) 0) as [E|E]; [done|].
  assert (is_slot s (-1)) as Hs by (unfold is_slot, nslots; lia).
  destruct (f_usable _ _ _ H ino (-1) Hi Hs E) as (_ & _ & _ & Hd & _).
  run (kmalloc_ok s Hr). cbn [negb]. by run (read_block_ok s _ Hr Hd).
Qed.

(** ** Preservation *)

Lemma book_meta s b : book s b -> exists m, meta_ok s m /\ meta_at s m = b.
Proof.
  intros [[->|Hb]|(k & g & Hg & ->)].
  - by exists MSb.
  - exists (MDesc (b - bgdesc_block s)). unfold meta_ok, meta_at. lia.
  - exists (kmeta k g). split; [by apply kmeta_ok|done].
Qed.

Lemma usable_not_book s b : usable s b -> ~ book s b.
Proof. intros (_ & _ & _ & _ & Hm) (m & Hk & E)%book_meta. by apply (Hm m). Qed.

Lemma usable_range s b : usable s b -> b <> 0.
Proof. intros (? & _). lia. Qed.

Lemma meta_ok_same s s' m : same s s' -> meta_ok s' m <-> meta_ok s m.
Proof. intros Hs. destruct m; cbn; unfold inodes_per_blk; by rewrite ?(same_geo _ _ Hs). Qed.

Lemma total_same k s s' : same s s' -> total k s' = total k s.
Proof. intros Hs. unfold total. destruct k; cbn; by rewrite (same_geo _ _ Hs). Qed.

Lemma usable_keeps P s s' b :
  alloc_inv s -> keeps P s s' -> kbit KBlock s' b = true -> usable s b -> usable s' b.
Proof.
  intros H [Hs Ha _ _] Hb (Ht & _ & Hz & Hd & Hm).
  split; [by rewrite (total_same _ s s' Hs)|]. split; [done|].
  split_and!; [done|by rewrite (same_in_dev s s')|].
  intros m Hk. rewrite (meta_ok_same s s' m Hs) in Hk. rewrite (same_meta s s' m Hs Ha Hk). by apply Hm.
Qed.

Lemma is_slot_same s s' k : same s s' -> is_slot s' k <-> is_slot s k.
Proof. intros Hs. unfold is_slot, nslots, ptrs_per_block. by rewrite (same_geo _ _ Hs). Qed.

Lemma ptr_same s s' v lb :
  same s s' -> (i_block v 12 <> 0 -> blk s' (i_block v 12) = blk s (i_block v 12)) -> ptr s' v lb = ptr s v lb.
Proof.
  intros Hs Hb. unfold ptr, ptrs_per_block. rewrite (same_geo _ _ Hs).
  destruct (lb <? 12); [done|]. destruct (lb <? _); [|done].
  destruct (Z.eqb_spec (i_block v 12) 0); [done|]. by rewrite Hb.
Qed.

Lemma slot_same s s' v k :
  same s s' -> (i_block v 12 <> 0 -> blk s' (i_block v 12) = blk s (i_block v 12)) -> slot s' v k = slot s v k.
Proof. intros Hs Hb. unfold slot. destruct (k =? -1); [done|]. by apply ptr_same. Qed.

Lemma slot_ptr s v k : 0 <= k -> slot s v k = ptr s v k.
Proof. intros. unfold slot. by destruct (Z.eqb_spec k (-1)); [lia|]. Qed.

Lemma ptr_range s v lb : ready s -> ptr s v lb <> 0 -> lb < nslots s.
Proof. intros H. destruct (bs_pos s H). unfold ptr, nslots. intros Hp. bools; lia. Qed.

Lemma slot_m1 s : ready s -> is_slot s (-1).
Proof. intros H. destruct (bs_pos s H). unfold is_slot, nslots. lia. Qed.

Lemma files_ready s I L : files s I L -> ready s.
Proof. intros H. apply lay_ready, al_layout, (f_alloc _ _ _ H). Qed.

(** A state with the same pointers in which their blocks are still in use. *)
Lemma files_step s s' I L :
  files s I L -> same s s' -> alloc_inv s' ->
  (forall ino, L ino -> i_block (I ino) 12 <> 0 -> blk s' (i_block (I ino) 12) = blk s (i_block (I ino) 12)) ->
  (forall ino k, L ino -> is_slot s k -> slot s (I ino) k <> 0 -> usable s' (slot s (I ino) k)) ->
  files s' I L.
Proof.
  intros H Hs Ha Hb Hu. pose proof (fun ino k Hi => slot_same s s' (I ino) k Hs (Hb ino Hi)) as Hsl.
  constructor; try done.
  - intros ino Hi. rewrite (valid_same s s') by done. by apply (f_valid _ _ _ H).
  - apply (f_inode _ _ _ H).
  - intros ino k Hi Hk. rewrite (is_slot_same s s' k Hs) in Hk. rewrite Hsl by done. by apply Hu.
  - intros ino k ino' k' Hi Hi' Hk Hk'. rewrite (is_slot_same s s') in Hk, Hk' by done. rewrite !Hsl by done.
    by apply (f_inj _ _ _ H).
Qed.

(** Allocating a block. *)
Lemma files_alloc s s' I L b :
  files s I L -> moved (eq b) KBlock b true s s' -> 0 < b < total KBlock s -> kbit KBlock s b = false ->
  files s' I L /\ unowned s I L b /\ usable s' b /\
  (forall ino k, L ino -> is_slot s k -> slot s (I ino) k <> 0 -> blk s' (slot s (I ino) k) = blk s (slot s (I ino) k)).
Proof.
  intros H [Ha Hk Hf] Hb Hfree. pose proof (f_alloc _ _ _ H) as Ha0. pose proof (files_ready _ _ _ H) as Hr.
  assert (unowned s I L b) as Hun.
  { intros ino k Hi Hks E. destruct (f_usable _ _ _ H ino k Hi Hks) as (_ & Hbit & _); [lia|]. congruence. }
  assert (forall ino k, L ino -> is_slot s k -> slot s (I ino) k <> 0 ->
    blk s' (slot s (I ino) k) = blk s (slot s (I ino) k)) as Hblk.
  { intros ino k Hi Hks Hn. apply (keeps_blk _ _ _ Hk); [by apply usable_not_book, (f_usable _ _ _ H)|].
    intros E. by apply (Hun ino k). }
  assert (usable s' b) as Hub.
  { assert (same s s') as Hs by apply Hk. split; [by rewrite (total_same _ s s' Hs)|]. split.
    - rewrite Hf by lia. by rewrite bool_decide_eq_true_2.
    - split_and!; [lia|rewrite (same_in_dev s s') by done; apply (al_dev s Ha0); [lia|done]|].
      intros m Hm E. rewrite (meta_ok_same s s' m Hs) in Hm.
      rewrite (same_meta s s' m Hs (keeps_addrs _ _ _ Hk) Hm) in E. by apply (free_not_meta s b m). }
  split_and!; [|done..]. apply (files_step s); [done|apply Hk|done| |].
  - intros ino Hi. apply (Hblk ino (-1) Hi (slot_m1 s Hr)).
  - intros ino k Hi Hks Hn. pose proof (f_usable _ _ _ H ino k Hi Hks Hn) as Hu.
    apply (usable_keeps (eq b) s); [done..| |done]. destruct Hu as (? & ? & _). rewrite Hf by lia.
    by case_bool_decide.
Qed.

(** Rewriting a block that is nobody's indirect block. *)
Lemma usable_put s q w b : alloc_inv s -> ~ book s q -> usable s b -> usable (put q w s) b.
Proof.
  intros Ha Hq Hu. pose proof (al_layout s Ha) as Hl.
  apply (usable_keeps (eq q) s); [done|by apply keeps_put, lay_ready| |done].
  destruct Hu as (? & ? & _). rewrite kbit_put by (done || lia). done.
Qed.

Lemma files_put s I L q w :
  files s I L -> ~ book s q -> zlen w = block_size s -> bytes w ->
  (forall ino, L ino -> i_block (I ino) 12 <> 0 -> i_block (I ino) 12 <> q) -> files (put q w s) I L.
Proof.
  intros H Hq Hl Hb Hni. pose proof (f_alloc _ _ _ H) as Ha. apply (files_step s); [done|done|by apply alloc_inv_put| |].
  - intros ino Hi Hn. apply blk_put_ne; [by eapply files_ready|by apply Hni].
  - intros ino k Hi Hk Hn. apply usable_put; [done..|by apply (f_usable _ _ _ H)].
Qed.

(** Changing one pointer, to 0 or to a block nobody owns. *)
Definition iupd (I : Z -> list Z) (ino : Z) (v : list Z) : Z -> list Z := fun i => if i =? ino then v else I i.

Lemma iupd_eq I ino v : iupd I ino v ino = v.
Proof. unfold iupd. by rewrite Z.eqb_refl. Qed.
Lemma iupd_ne I ino v i : i <> ino -> iupd I ino v i = I i.
Proof. intros. unfold iupd. by destruct (Z.eqb_spec i ino). Qed.

Lemma files_slot s s' I I' L ino kk b :
  files s I L -> L ino -> is_slot s kk -> same s s' -> alloc_inv s' -> (forall i, L i -> inode_bytes (I' i)) ->
  (forall i k, L i -> is_slot s k ->
    slot s' (I' i) k = if bool_decide (i = ino /\ k = kk) then b else slot s (I i) k) ->
  (forall i k, L i -> is_slot s k -> slot s (I i) k <> 0 -> ~ (i = ino /\ k = kk) -> usable s' (slot s (I i) k)) ->
  b = 0 \/ usable s' b /\ unowned s I L b -> files s' I' L.
Proof.
  intros H Hino Hkk Hs Ha Hb Hsl Hu Hor. constructor; try done.
  - intros i Hi. rewrite (valid_same s s') by done. by apply (f_valid _ _ _ H).
  - intros i k Hi Hk. rewrite (is_slot_same s s') in Hk by done. rewrite Hsl by done.
    case_bool_decide as E; [|intros; by apply Hu]. destruct Hor as [->|[? _]]; [done|done].
  - intros i k i' k' Hi Hi' Hk Hk'. rewrite (is_slot_same s s') in Hk, Hk' by done. rewrite !Hsl by done.
    case_bool_decide as E; case_bool_decide as E'; intros Hn Heq.
    + destruct E as [-> ->], E' as [-> ->]. done.
    + destruct Hor as [->|[_ Hun]]; [done|]. by destruct (Hun i' k').
    + destruct Hor as [->|[_ Hun]]; [done|]. by destruct (Hun i k).
    + by apply (f_inj _ _ _ H).
Qed.

(** The position that pointer [k] of the inode is at. *)
Definition slot_of (k : Z) : Z := if k =? 12 then -1 else k.

Lemma install_slots s v v' k b :
  ready s -> 0 <= k <= 12 -> inode_bytes v -> inode_bytes v' -> i_block v k = 0 ->
  (forall j, 0 <= j <= 12 -> i_block v' j = if j =? k then b else i_block v j) ->
  (k = 12 -> blk s b = zeros (block_size s)) ->
  (forall j, is_slot s j -> slot s v' j = if bool_decide (j = slot_of k) then b else slot s v j) /\
  (forall lb, 0 <= lb -> ptr s v' lb = if (k <? 12) && (lb =? k) then b else ptr s v lb).
Proof.
  intros Hr Hk Hv Hv' H0 Hset Hz. destruct (bs_pos s Hr) as (_ & _ & HP).
  assert (forall lb, 0 <= lb -> ptr s v' lb = if (k <? 12) && (lb =? k) then b else ptr s v lb) as Hp.
  { intros lb Hlb. unfold ptr. destruct (Z.ltb_spec lb 12) as [Hl|Hl].
    - rewrite Hset by lia. destruct (Z.eqb_spec lb k), (Z.ltb_spec k 12); try done. lia.
    - destruct (Z.ltb_spec lb (12 + ptrs_per_block s)); cycle 1.
      { destruct (Z.eqb_spec lb k), (Z.ltb_spec k 12); try done. lia. }
      rewrite Hset by lia. destruct (Z.eqb_spec 12 k) as [<-|Hne].
      + rewrite H0. cbn. destruct (Z.eqb_spec b 0); [done|]. by rewrite Hz, ld_zeros by lia.
      + destruct (Z.eqb_spec lb k), (Z.ltb_spec k 12); try done. lia. }
  split; [|done]. intros j Hj. unfold is_slot in Hj. unfold slot, slot_of.
  destruct (Z.eqb_spec j (-1)) as [->|].
  - rewrite Hset by lia. rewrite (Z.eqb_sym k 12). destruct (Z.eqb_spec 12 k); case_bool_decide; try done; lia.
  - rewrite Hp by lia. destruct (Z.eqb_spec k 12), (Z.ltb_spec k 12), (Z.eqb_spec j k); case_bool_decide; try done; lia.
Qed.

Lemma install_inode s I L ino v' k b :
  files s I L -> L ino -> 0 <= k <= 12 -> inode_bytes v' -> i_block (I ino) k = 0 ->
  (forall j, 0 <= j <= 12 -> i_block v' j = if j =? k then b else i_block (I ino) j) ->
  (k = 12 -> blk s b = zeros (block_size s)) -> usable s b -> unowned s I L b -> files s (iupd I ino v') L.
Proof.
  intros H Hi Hk Hv H0 Hset Hz Hu Hun. pose proof (files_ready _ _ _ H) as Hr. destruct (bs_pos s Hr) as (? & _ & ?).
  destruct (install_slots s (I ino) v' k b Hr Hk (f_inode _ _ _ H ino Hi) Hv H0 Hset Hz) as [Hs _].
  apply (files_slot s s I _ L ino (slot_of k) b); [done|done| |done|apply (f_alloc _ _ _ H)| | | |by right].
  - unfold is_slot, nslots, slot_of. bools; lia.
  - intros i Hii. unfold iupd. destruct (i =? ino); [done|by apply (f_inode _ _ _ H)].
  - intros i j Hii Hj. unfold iupd. destruct (Z.eqb_spec i ino) as [->|Hne].
    + rewrite Hs by done. do 2 case_bool_decide; try done; tauto.
    + rewrite bool_decide_eq_false_2; [done|tauto].
  - intros i j Hii Hj Hn _. by apply (f_usable _ _ _ H).
Qed.

(** Storing a pointer in the indirect block of [ino]. *)
Lemma install_slots_indirect s v idx b :
  ready s -> inode_bytes v -> i_block v 12 <> 0 -> 0 <= idx < ptrs_per_block s -> 0 <= b < U32 ->
  let s' := put (i_block v 12) (st 4 (4 * idx) b (blk s (i_block v 12))) s in
  (forall lb, 0 <= lb -> ptr s' v lb = if lb =? 12 + idx then b else ptr s v lb) /\
  (forall j, is_slot s j -> slot s' v j = if bool_decide (j = 12 + idx) then b else slot s v j).
Proof.
  intros Hr Hv H0 Hx Hb s'. destruct (bs_pos s Hr) as (_ & _ & HP). destruct (blk_ok s (i_block v 12) Hr) as [Hl _].
  assert (forall lb, 0 <= lb -> ptr s' v lb = if lb =? 12 + idx then b else ptr s v lb) as Hp.
  { intros lb Hlb. unfold ptr. change (ptrs_per_block s') with (ptrs_per_block s).
    destruct (Z.ltb_spec lb 12); [destruct (Z.eqb_spec lb (12 + idx)); [lia|done]|].
    destruct (Z.ltb_spec lb (12 + ptrs_per_block s)); [|destruct (Z.eqb_spec lb (12 + idx)); [lia|done]].
    destruct (Z.eqb_spec (i_block v 12) 0); [done|].
    unfold s'. rewrite blk_put_eq; [|done|rewrite zlen_st; lia].
    destruct (Z.eqb_spec lb (12 + idx)) as [->|].
    - replace (12 + idx - 12) with idx by lia. rewrite ld_st_eq by lia. by apply Z.mod_small.
    - apply ld_st_apart; lia. }
  split; [done|]. intros j Hj. unfold is_slot in Hj. unfold slot. destruct (Z.eqb_spec j (-1)).
  - rewrite bool_decide_eq_false_2 by lia. done.
  - rewrite Hp by lia. destruct (Z.eqb_spec j (12 + idx)); case_bool_decide; done.
Qed.

Lemma install_indirect s I L ino idx b :
  files s I L -> L ino -> i_block (I ino) 12 <> 0 -> 0 <= idx < ptrs_per_block s ->
  0 <= b < U32 -> b = 0 \/ usable s b /\ unowned s I L b ->
  files (put (i_block (I ino) 12) (st 4 (4 * idx) b (blk s (i_block (I ino) 12))) s) I L.
Proof.
  intros H Hi H0 Hx Hb Hor. pose proof (files_ready _ _ _ H) as Hr. pose proof (f_alloc _ _ _ H) as Ha.
  destruct (bs_pos s Hr) as (? & _ & ?). pose proof (slot_m1 s Hr) as Hm1.
  pose proof (f_usable _ _ _ H ino (-1) Hi Hm1 H0) as Hu.
  destruct (blk_ok s (i_block (I ino) 12) Hr) as [Hl Hby].
  assert (~ book s (i_block (I ino) 12)) as Hq by by apply usable_not_book.
  destruct (install_slots_indirect s (I ino) idx b Hr (f_inode _ _ _ H ino Hi) H0 Hx Hb) as [_ Hs].
  apply (files_slot s _ I I L ino (12 + idx) b); [done|done| |done| |apply (f_inode _ _ _ H)| | |].
  - unfold is_slot, nslots. lia.
  - apply alloc_inv_put; [done|done|rewrite zlen_st; lia|by apply bytes_st].
  - intros i k Hii Hk. destruct (decide (i = ino)) as [->|Hne].
    + rewrite Hs by done. do 2 case_bool_decide; try done; tauto.
    + rewrite bool_decide_eq_false_2 by tauto. apply slot_same; [done|]. intros Hn. apply blk_put_ne; [done|].
      intros E. destruct (f_inj _ _ _ H i (-1) ino (-1)); done.
  - intros i k Hii Hk Hn _. apply usable_put; [done..|by apply (f_usable _ _ _ H)].
  - destruct Hor as [->|[??]]; [by left|right]. split; [by apply usable_put|done].
Qed.

(** ** Growing a file *)

Lemma fbyte_step s s' v v' x :
  same s s' -> let lb := x / block_size s in
  (ptr s' v' lb = ptr s v lb /\ (ptr s v lb <> 0 -> blk s' (ptr s v lb) = blk s (ptr s v lb))) \/
  (ptr s v lb = 0 /\ blk s' (ptr s' v' lb) = zeros (block_size s)) ->
  fbyte s' v' x = fbyte s v x.
Proof.
  intros Hs lb Hor. unfold fbyte. rewrite (same_geo _ _ Hs). fold lb. destruct Hor as [[-> Hb]|[-> Hb]].
  - destruct (Z.eqb_spec (ptr s v lb) 0); [done|]. by rewrite Hb.
  - cbn. destruct (ptr s' v' lb =? 0); [done|]. by rewrite Hb, byte_zeros.
Qed.

(** The file system while the driver works on a copy [v] of inode [ino]: the
    files are in order both with the copy and with the inodes on disk. *)
Record view (L : Z -> Prop) (I : Z -> list Z) (ino : Z) (s : ext2_fs) (v : list Z) : Prop := {
  vw_mem : files s (iupd I ino v) L;
  vw_disk : files s I L;
  vw_ptrs : forall k, 0 <= k <= 12 -> i_block (I ino) k <> 0 -> i_block v k = i_block (I ino) k;
}.

(** A step that adds blocks to the file and changes no byte of any file. *)
Record grew (L : Z -> Prop) (I : Z -> list Z) (ino : Z) (s : ext2_fs) (v : list Z) (s' : ext2_fs) (v' : list Z) : Prop := {
  g_view : view L I ino s' v';
  g_same : same s s';
  g_inode : forall i, valid_ino s i -> inode s' i = inode s i;
  g_attrs : same_attrs v v';
  g_mem : forall i x, L i -> 0 <= x -> fbyte s' (iupd I ino v' i) x = fbyte s (iupd I ino v i) x;
  g_disk : forall i x, L i -> 0 <= x -> fbyte s' (I i) x = fbyte s (I i) x;
  g_ptr : forall lb, 0 <= lb -> ptr s v lb <> 0 -> ptr s' v' lb = ptr s v lb;
  g_ibit : forall i, 0 <= i < total KInode s -> kbit KInode s' i = kbit KInode s i;
}.

Section grow.
Context (L : Z -> Prop) (I : Z -> list Z) (ino : Z) (Hino : L ino).

Lemma grew_refl s v : view L I ino s v -> grew L I ino s v s v.
Proof. intros H. by constructor. Qed.

Lemma grew_trans s1 v1 s2 v2 s3 v3 :
  grew L I ino s1 v1 s2 v2 -> grew L I ino s2 v2 s3 v3 -> grew L I ino s1 v1 s3 v3.
Proof.
  intros [_ Hs Hi Ha Hm Hd Hp Hb] [Hv Hs' Hi' Ha' Hm' Hd' Hp' Hb']. constructor; try done.
  - by etrans.
  - intros i Hv'. rewrite Hi', Hi; [done..|]. by rewrite (valid_same s1 s2).
  - by etrans.
  - intros i x Hl Hx. by rewrite Hm', Hm.
  - intros i x Hl Hx. by rewrite Hd', Hd.
  - intros lb Hlb Hn. rewrite Hp'; [by apply Hp|done|]. by rewrite Hp.
  - intros i Hr. rewrite Hb'; [by apply Hb|]. by rewrite (total_same _ s1 s2 Hs).
Qed.

Lemma files_fbyte_keep s s' J i x :
  files s J L -> L i -> 0 <= x -> same s s' ->
  (forall k, is_slot s k -> slot s (J i) k <> 0 -> blk s' (slot s (J i) k) = blk s (slot s (J i) k)) ->
  fbyte s' (J i) x = fbyte s (J i) x.
Proof.
  intros H Hi Hx Hs Hb. pose proof (files_ready _ _ _ H) as Hr. destruct (bs_pos s Hr) as (Hbs & _).
  assert (0 <= x / block_size s) as Hlb by (apply Z.div_pos; lia).
  apply fbyte_step; [done|]. left. split.
  - apply ptr_same; [done|]. intros Hn. by apply (Hb (-1) (slot_m1 s Hr)).
  - intros Hn. rewrite <- (slot_ptr s (J i)) in * by done. apply Hb; [|done].
    rewrite slot_ptr in Hn by done. pose proof (ptr_range s (J i) _ Hr Hn). split; lia.
Qed.

(** Allocating a block that is not attached yet. *)
Lemma grew_alloc s v s' b :
  view L I ino s v -> moved (eq b) KBlock b true s s' -> 0 < b < total KBlock s -> kbit KBlock s b = false ->
  grew L I ino s v s' v /\ unowned s' (iupd I ino v) L b /\ unowned s' I L b /\ usable s' b /\
  (i_block v 12 <> 0 -> blk s' (i_block v 12) = blk s (i_block v 12)).
Proof.
  intros [Hm Hd Hp] Hmv Hb Hfree. assert (same s s') as Hs by apply Hmv.
  destruct (files_alloc s s' _ L b Hm Hmv Hb Hfree) as (Hm' & Hum & Hub & Hbm).
  destruct (files_alloc s s' _ L b Hd Hmv Hb Hfree) as (Hd' & Hud & _ & Hbd).
  pose proof (files_ready _ _ _ Hm) as Hr.
  assert (forall J, files s J L -> unowned s J L b ->
    (forall i k, L i -> is_slot s k -> slot s (J i) k <> 0 -> blk s' (slot s (J i) k) = blk s (slot s (J i) k)) ->
    unowned s' J L b) as Hun.
  { intros J HJ Hu Hbk i k Hi Hk. rewrite (is_slot_same s s') in Hk by done.
    rewrite (slot_same s s'); [by apply Hu|done|]. intros Hn. by apply (Hbk i (-1) Hi (slot_m1 s Hr)). }
  assert (i_block v 12 <> 0 -> blk s' (i_block v 12) = blk s (i_block v 12)) as H12.
  { pose proof (Hbm ino (-1) Hino (slot_m1 s Hr)) as Hk. by rewrite iupd_eq in Hk. }
  split_and!; [|by apply Hun..|done|done]. constructor; try done.
  - intros i Hv. apply (inode_keeps (eq b)); [apply al_layout, (f_alloc _ _ _ Hm)|apply Hmv|done|].
    intros ->. pose proof (al_layout s (f_alloc _ _ _ Hm)) as Hl. destruct (ino_bounds s i Hl Hv) as (_ & _ & Hmk & _).
    by apply (free_not_meta s (ino_block s i) (ino_meta s i) (f_alloc _ _ _ Hm)).
  - intros i x Hi Hx. apply (files_fbyte_keep s s' (iupd I ino v)); try done. intros k. by apply Hbm.
  - intros i x Hi Hx. apply (files_fbyte_keep s s' I); try done. intros k. by apply Hbd.
  - intros lb Hlb Hn. by apply ptr_same.
  - intros i Hi. rewrite (moved_bits _ _ _ _ _ _ Hmv) by done. by rewrite bool_decide_eq_false_2 by naive_solver.
Qed.

(** Attaching a fresh block to the inode. *)
Lemma grew_attach s v k b d :
  view L I ino s v -> 0 <= k <= 12 -> i_block v k = 0 -> usable s b -> 0 <= b < U32 ->
  unowned s (iupd I ino v) L b -> blk s b = zeros (block_size s) ->
  let v' := add_i_blocks d (set_i_block k b v) in
  grew L I ino s v s v' /\ i_block v' k = b /\ (k < 12 -> ptr s v' k = b).
Proof.
  intros [Hm Hd Hp] Hk H0 Hu Hb Hun Hz v'. pose proof (files_ready _ _ _ Hm) as Hr.
  pose proof (f_inode _ _ _ Hm ino Hino) as Hv. rewrite iupd_eq in Hv.
  assert (inode_bytes v') as Hv' by (apply inode_bytes_add_blocks, inode_bytes_set_block; [done|lia]).
  assert (forall j, 0 <= j <= 12 -> i_block v' j = if j =? k then b else i_block v j) as Hset.
  { intros j Hj. unfold v'. rewrite i_block_add_blocks; [|apply inode_bytes_set_block; [done|lia]|lia].
    apply i_block_set; [done|lia..]. }
  destruct (install_slots s v v' k b Hr Hk Hv Hv' H0 Hset ltac:(done)) as [_ Hptr].
  assert (files s (iupd I ino v') L) as Hm'.
  { pose proof (install_inode s (iupd I ino v) L ino v' k b Hm Hino Hk Hv') as Hf. rewrite iupd_eq in Hf.
    specialize (Hf H0 Hset ltac:(done) Hu Hun).
    assert (forall i, iupd (iupd I ino v) ino v' i = iupd I ino v' i) as He by (intros i; unfold iupd; by destruct (i =? ino)).
    destruct Hf as [Ha Hvd Hib Hus Hinj]. constructor; [done|done|..].
    - intros i Hi. rewrite <- He. by apply Hib.
    - intros i j. rewrite <- He. by apply Hus.
    - intros i j i' j'. rewrite <- !He. by apply Hinj. }
  assert (forall lb, 0 <= lb -> ptr s v lb <> 0 -> ptr s v' lb = ptr s v lb) as Hold.
  { intros lb Hlb Hn. rewrite Hptr by done. destruct (Z.ltb_spec k 12), (Z.eqb_spec lb k) as [->|]; try done.
    exfalso. apply Hn. unfold ptr. by destruct (Z.ltb_spec k 12); [|lia]. }
  split_and!.
  - constructor; try done.
    + constructor; [done|done|]. intros j Hj Hn. rewrite Hset by done. destruct (Z.eqb_spec j k) as [->|]; [|by apply Hp].
      rewrite <- Hp in Hn by done. done.
    + etrans; [apply (same_attrs_block v k b); [done|lia]|apply same_attrs_blocks, inode_bytes_set_block; [done|lia]].
    + intros i x Hi Hx. unfold iupd. destruct (Z.eqb_spec i ino) as [->|]; [|done].
      apply fbyte_step; [done|]. cbn zeta. destruct (bs_pos s Hr) as (Hbs & _).
      assert (0 <= x / block_size s) by (apply Z.div_pos; lia).
      destruct (decide (ptr s v (x / block_size s) = 0)) as [E|E]; [|left; split; [by apply Hold|done]].
      rewrite Hptr by done. destruct (_ && _); [by right|by left].
  - rewrite Hset by lia. by rewrite Z.eqb_refl.
  - intros Hk12. rewrite Hptr by lia. rewrite Z.eqb_refl. by destruct (Z.ltb_spec k 12); [|lia].
Qed.

(** The disk's indirect block, when it has one, is that of the copy. *)
Lemma view_indirect s v :
  view L I ino s v -> i_block v 12 <> 0 ->
  i_block (I ino) 12 = i_block v 12 \/ i_block (I ino) 12 = 0 /\ unowned s I L (i_block v 12).
Proof.
  intros [Hm Hd Hp] Hn. destruct (decide (i_block (I ino) 12 = 0)) as [E|E]; [|left; symmetry; apply Hp; [lia|done]].
  right. split; [done|]. intros i k Hi Hk Hs. pose proof (files_ready _ _ _ Hm) as Hr.
  pose proof (f_inj _ _ _ Hm ino (-1) i k Hino Hi (slot_m1 s Hr) Hk) as Hinj. rewrite iupd_eq in Hinj.
  destruct (decide (i = ino)) as [->|Hne].
  - rewrite iupd_eq in Hinj. unfold slot in Hs. destruct (Z.eqb_spec k (-1)) as [->|Hk1]; [congruence|].
    unfold ptr in Hs. destruct (Z.ltb_spec k 12) as [Hk12|].
    + unfold is_slot in Hk. assert (i_block v k = i_block (I ino) k) as Ek by (apply Hp; [lia|congruence]).
      destruct Hinj as [_ ?]; [done| |lia]. rewrite (slot_ptr s v k) by lia. unfold ptr.
      destruct (Z.ltb_spec k 12); [|lia]. cbn. congruence.
    + rewrite E in Hs. cbn in Hs. destruct (k <? _) in Hs; congruence.
  - rewrite iupd_ne in Hinj by done. destruct Hinj; done.
Qed.

Lemma files_ext s J J' : (forall i, L i -> J' i = J i) -> files s J L -> files s J' L.
Proof.
  intros He [Ha Hv Hb Hu Hinj]. constructor; [done|done|..].
  - intros i Hi. rewrite He by done. by apply Hb.
  - intros i k Hi. rewrite He by done. by apply Hu.
  - intros i k i' k' Hi Hi'. rewrite !He by done. by apply Hinj.
Qed.

Lemma slots_add_blocks s v d k : inode_bytes v -> -1 <= k -> slot s (add_i_blocks d v) k = slot s v k.
Proof.
  intros Hv Hk. unfold slot, ptr. destruct (Z.eqb_spec k (-1)); [by rewrite i_block_add_blocks by (done || lia)|].
  destruct (k <? 12); [by rewrite i_block_add_blocks by (done || lia)|]. by rewrite i_block_add_blocks by (done || lia).
Qed.

Lemma files_add_blocks s J d v :
  files s (iupd J ino v) L -> files s (iupd J ino (add_i_blocks d v)) L.
Proof.
  intros H. pose proof (f_inode _ _ _ H ino Hino) as Hv. rewrite iupd_eq in Hv.
  assert (forall i k, L i -> is_slot s k -> slot s (iupd J ino (add_i_blocks d v) i) k = slot s (iupd J ino v i) k) as Hs.
  { intros i k Hi Hk. unfold iupd. destruct (i =? ino); [|done]. apply slots_add_blocks; [done|apply Hk]. }
  destruct H as [Ha Hvd Hb Hu Hinj]. constructor; [done|done|..].
  - intros i Hi. specialize (Hb i Hi). unfold iupd in *. destruct (i =? ino); [by apply inode_bytes_add_blocks|done].
  - intros i k Hi Hk. rewrite Hs by done. by apply Hu.
  - intros i k i' k' Hi Hi' Hk Hk'. rewrite !Hs by done. by apply Hinj.
Qed.

(** Writing a pointer to a fresh block into an indirect block leaves every byte
    of every file alone. *)
Lemma indirect_bytes s J i0 idx b i x :
  files s J L -> L i0 -> L i -> 0 <= x -> i_block (J i0) 12 <> 0 -> 0 <= idx < ptrs_per_block s ->
  ptr s (J i0) (12 + idx) = 0 -> 0 <= b < U32 -> unowned s J L b -> b <> 0 -> blk s b = zeros (block_size s) ->
  fbyte (put (i_block (J i0) 12) (st 4 (4 * idx) b (blk s (i_block (J i0) 12))) s) (J i) x = fbyte s (J i) x.
Proof.
  intros H Hi0 Hi Hx H12 Hidx H0 Hb Hun Hnz Hz. pose proof (files_ready _ _ _ H) as Hr.
  destruct (bs_pos s Hr) as (Hbs & _). assert (0 <= x / block_size s) as Hlb by (apply Z.div_pos; lia).
  set (q := i_block (J i0) 12) in *. pose proof (slot_m1 s Hr) as Hm1.
  assert (forall j k, L j -> 0 <= k -> ptr s (J j) k <> 0 -> ptr s (J j) k <> q) as Hdata.
  { intros j k Hj Hk Hn E. pose proof (ptr_range s (J j) k Hr Hn). rewrite <- (slot_ptr s (J j) k Hk) in *.
    destruct (f_inj _ _ _ H j k i0 (-1) Hj Hi0) as [_ ?]; [split; lia|done..|lia]. }
  apply fbyte_step; [done|]. cbn zeta.
  destruct (install_slots_indirect s (J i0) idx b Hr (f_inode _ _ _ H i0 Hi0) H12 Hidx Hb) as [Hp _]. fold q in Hp.
  destruct (decide (i = i0)) as [->|Hne].
  - rewrite Hp by done. destruct (Z.eqb_spec (x / block_size s) (12 + idx)) as [->|].
    + right. split; [done|]. rewrite blk_put_ne; [done|done|]. intros ->. by apply (Hun i0 (-1)).
    + left. split; [done|]. intros Hn. apply blk_put_ne; [done|]. by apply Hdata.
  - left. split.
    + apply ptr_same; [done|]. intros Hn. apply blk_put_ne; [done|]. intros E.
      destruct (f_inj _ _ _ H i (-1) i0 (-1)); done.
    + intros Hn. apply blk_put_ne; [done|]. by apply Hdata.
Qed.

(** Storing a fresh block in the indirect block. *)
Lemma grew_indirect s v idx b d :
  view L I ino s v -> i_block v 12 <> 0 -> 0 <= idx < ptrs_per_block s -> ptr s v (12 + idx) = 0 ->
  usable s b -> 0 <= b < U32 -> unowned s (iupd I ino v) L b -> unowned s I L b -> blk s b = zeros (block_size s) ->
  let s' := put (i_block v 12) (st 4 (4 * idx) b (blk s (i_block v 12))) s in
  grew L I ino s v s' (add_i_blocks d v) /\ ptr s' (add_i_blocks d v) (12 + idx) = b.
Proof.
  intros Hview H12 Hx H0 Hu Hb Hum Hud Hz s'. pose proof (view_indirect s v Hview H12) as Hcase.
  destruct Hview as [Hm Hd Hp]. pose proof (files_ready _ _ _ Hm) as Hr. pose proof (usable_range _ _ Hu) as Hnz.
  pose proof (f_inode _ _ _ Hm ino Hino) as Hv. rewrite iupd_eq in Hv.
  assert (forall lb, 0 <= lb -> ptr s' (add_i_blocks d v) lb = if lb =? 12 + idx then b else ptr s v lb) as Hptr.
  { intros lb Hlb. rewrite <- slot_ptr, slots_add_blocks, slot_ptr by (done || lia).
    by apply (install_slots_indirect s v idx b). }
  destruct (bs_pos s Hr) as (Hbs & _ & HP).
  pose proof (f_usable _ _ _ Hm ino (-1) Hino (slot_m1 s Hr)) as Hq. rewrite iupd_eq in Hq. specialize (Hq H12).
  change (slot s v (-1)) with (i_block v 12) in Hq.
  pose proof (install_indirect s _ L ino idx b Hm Hino) as Hm'. rewrite iupd_eq in Hm'.
  specialize (Hm' H12 Hx Hb (or_intror (conj Hu Hum))). fold s' in Hm'.
  assert (files s' I L /\ forall i x, L i -> 0 <= x -> fbyte s' (I i) x = fbyte s (I i) x) as [Hd' Hbd].
  { destruct Hcase as [E|[E Hun]].
    - unfold s'. rewrite <- E in *. split; [apply install_indirect; [done..|by right]|]. intros i x Hi Hxx.
      apply indirect_bytes; try done. rewrite <- H0. unfold ptr. rewrite E. destruct (Z.ltb_spec (12 + idx) 12); [lia|done].
    - destruct (blk_ok s (i_block v 12) Hr). split.
      + apply files_put; [done|by apply usable_not_book|rewrite zlen_st; lia|by apply bytes_st|].
        intros i Hi _. apply (Hun i (-1) Hi (slot_m1 s Hr)).
      + intros i x Hi Hxx. apply (files_fbyte_keep s s' I); [done..|]. intros k Hk Hn. apply blk_put_ne; [done|].
        by apply Hun. }
  split; [|rewrite Hptr by lia; by rewrite Z.eqb_refl]. constructor; try done.
  - constructor; [by apply files_add_blocks|done|]. intros k Hk Hn. rewrite i_block_add_blocks by (done || lia). by apply Hp.
  - intros i Hi. apply inode_put_ne; [done|]. intros E. pose proof (al_layout s (f_alloc _ _ _ Hm)) as Hl.
    destruct (ino_bounds s i Hl Hi) as (_ & _ & Hmk & _). destruct Hq as (_ & _ & _ & _ & Hq). by apply (Hq _ Hmk).
  - by apply same_attrs_blocks.
  - intros i x Hi Hxx. transitivity (fbyte s' (iupd I ino v i) x).
    + unfold iupd. destruct (i =? ino); [|done]. apply fbyte_step; [done|]. left. split; [|done].
      assert (0 <= x / block_size s') by (apply Z.div_pos; cbn; lia).
      rewrite <- !slot_ptr by done. apply slots_add_blocks; [done|lia].
    + pose proof (indirect_bytes s (iupd I ino v) ino idx b i x Hm Hino Hi Hxx) as Hf. rewrite iupd_eq in Hf. by apply Hf.
  - intros lb Hlb Hn. rewrite Hptr by done. destruct (Z.eqb_spec lb (12 + idx)) as [->|]; [done|done].
  - intros i Hi. apply kbit_put; [apply al_layout, (f_alloc _ _ _ Hm)|done|by apply usable_not_book].
Qed.

(** ** [ext2_bmap_alloc] *)

Lemma alloc_grew s v :
  view L I ino s v ->
  (alloc_block s = Some (0, s) /\ all_used KBlock s) \/
  exists b s', alloc_block s = Some (b, s') /\ 0 < b < U32 /\ grew L I ino s v s' v /\ usable s' b /\
    unowned s' (iupd I ino v) L b /\ unowned s' I L b /\ blk s' b = zeros (block_size s') /\
    (i_block v 12 <> 0 -> blk s' (i_block v 12) = blk s (i_block v 12)).
Proof.
  intros Hv. pose proof (f_alloc _ _ _ (vw_disk _ _ _ _ _ Hv)) as Ha.
  destruct (per_pos KBlock s (al_layout s Ha)) as (_ & _ & Ht).
  destruct (alloc_block_spec s Ha) as [?|(b & s' & E & Hb & (Hr & Hfree & _) & Hm & Hz)]; [by left|right].
  destruct (grew_alloc s v s' b Hv Hm ltac:(lia) Hfree) as (Hg & Hum & Hud & Hu & Hi).
  exists b, s'. split_and!; try done; [lia|]. by rewrite (same_geo _ _ (g_same _ _ _ _ _ _ _ Hg)).
Qed.

Lemma view_inode s v : view L I ino s v -> inode_bytes v.
Proof. intros [Hm _ _]. pose proof (f_inode _ _ _ Hm ino Hino) as Hv. by rewrite iupd_eq in Hv. Qed.

(** The outcome of a call: the file has grown, and the block asked for is
    there unless the device is full. *)
Definition mapped (lb : Z) (r : Z) (s : ext2_fs) (v : list Z) (s' : ext2_fs) (v' : list Z) : Prop :=
  grew L I ino s v s' v' /\ ptr s' v' lb = r /\ (r = 0 -> all_used KBlock s').

Lemma bmap_alloc_entry_ok s v lb :
  view L I ino s v -> 12 <= lb < nslots s -> i_block v 12 <> 0 ->
  exists r v' s', bmap_alloc_entry v lb s = Some ((r, v'), s') /\ mapped lb r s v s' v'.
Proof.
  intros Hview Hlb H12. pose proof (vw_mem _ _ _ _ _ Hview) as Hm. pose proof (files_ready _ _ _ Hm) as Hr.
  pose proof (f_usable _ _ _ Hm ino (-1) Hino (slot_m1 s Hr)) as Hq. rewrite iupd_eq in Hq. specialize (Hq H12).
  destruct Hq as (_ & _ & _ & Hqd & _). change (slot s v (-1)) with (i_block v 12) in Hqd.
  assert (ptr s v lb = ld 4 (4 * (lb - 12)) (blk s (i_block v 12))) as Hp.
  { unfold ptr, nslots in *. bools; try lia; done. }
  unfold bmap_alloc_entry. run_get. run (kmalloc_ok s Hr). cbn [negb].
  run (read_block_ok s _ Hr Hqd). cbn [Z.eqb negb]. rewrite <- Hp.
  destruct (Z.eqb_spec (ptr s v lb) 0) as [E|E]; cycle 1.
  { exists (ptr s v lb), v, s. split; [done|]. split_and!; [by apply grew_refl|done..]. }
  destruct (alloc_grew s v Hview) as [[Ea Hfull]|(b & s1 & Ea & Hb & Hg & Hu & Hum & Hud & Hz & Hi)].
  { run Ea. exists 0, v, s. split; [done|]. split_and!; [by apply grew_refl|done..]. }
  run Ea. destruct (Z.eqb_spec b 0); [lia|].
  pose proof (g_view _ _ _ _ _ _ _ Hg) as Hview1. pose proof (g_same _ _ _ _ _ _ _ Hg) as Hs1.
  pose proof (files_ready _ _ _ (vw_mem _ _ _ _ _ Hview1)) as Hr1.
  run (write_block_ok s1 (i_block v 12) _ Hr1 (proj2 (same_in_dev s s1 _ Hs1) Hqd)). rewrite <- (Hi H12).
  assert (ptrs_per_block s1 = ptrs_per_block s) as HP by (unfold ptrs_per_block; by rewrite (same_geo _ _ Hs1)).
  destruct (grew_indirect s1 v (lb - 12) b (block_size s / 512) Hview1 H12) as [Hg2 Hp2];
    [rewrite HP; unfold nslots in Hlb; lia| |done|lia|done..|].
  { replace (12 + (lb - 12)) with lb by lia. rewrite (ptr_same s s1); [done|done|]. by intros ?; rewrite Hi. }
  replace (12 + (lb - 12)) with lb in Hp2 by lia.
  eexists b, _, _. split; [done|]. split_and!; [by eapply grew_trans|done|lia].
Qed.

Lemma bmap_alloc_indirect_ok s v :
  view L I ino s v ->
  exists go v' s', bmap_alloc_indirect v s = Some ((go, v'), s') /\ grew L I ino s v s' v' /\
    if go then i_block v' 12 <> 0 else i_block v' 12 = 0 /\ all_used KBlock s'.
Proof.
  intros Hview. unfold bmap_alloc_indirect. run_get.
  destruct (Z.eqb_spec (i_block v 12) 0) as [E|E]; cycle 1.
  { exists true, v, s. split_and!; [done|by apply grew_refl|done]. }
  destruct (alloc_grew s v Hview) as [[Ea Hfull]|(b & s1 & Ea & Hb & Hg & Hu & Hum & Hud & Hz & Hi)].
  { run Ea. exists false, v, s. split_and!; [done|by apply grew_refl|done..]. }
  run Ea. destruct (Z.eqb_spec b 0); [lia|]. pose proof (g_view _ _ _ _ _ _ _ Hg) as Hview1.
  destruct (grew_attach s1 v 12 b (block_size s / 512) Hview1 ltac:(lia) E Hu ltac:(lia) Hum Hz) as (Hg2 & Hp2 & _).
  eexists true, _, s1. split_and!; [done|by eapply grew_trans|]. by rewrite Hp2.
Qed.

Lemma bmap_alloc_ok s v lb :
  view L I ino s v -> 0 <= lb ->
  exists r v' s', ext2_bmap_alloc v lb s = Some ((r, v'), s') /\ grew L I ino s v s' v' /\ ptr s' v' lb = r /\
    (r = 0 -> nslots s <= lb \/ all_used KBlock s').
Proof.
  intros Hview Hlb. unfold ext2_bmap_alloc. run_get.
  destruct (Z.ltb_spec lb 12) as [Hl|Hl].
  - assert (ptr s v lb = i_block v lb) as Hp by (unfold ptr; destruct (Z.ltb_spec lb 12); [done|lia]).
    destruct (Z.eqb_spec (i_block v lb) 0) as [E|E]; cbn [negb]; cycle 1.
    { exists (i_block v lb), v, s. split_and!; [done|by apply grew_refl|done..]. }
    destruct (alloc_grew s v Hview) as [[Ea Hfull]|(b & s1 & Ea & Hb & Hg & Hu & Hum & Hud & Hz & Hi)].
    { run Ea. exists 0, v, s. split_and!; [done|by apply grew_refl|congruence|by right]. }
    run Ea. destruct (Z.eqb_spec b 0); [lia|].
    pose proof (g_view _ _ _ _ _ _ _ Hg) as Hview1.
    destruct (grew_attach s1 v lb b (block_size s / 512) Hview1 ltac:(lia) E Hu ltac:(lia) Hum Hz) as (Hg2 & _ & Hp2).
    eexists b, _, s1. split_and!; [done|by eapply grew_trans|by apply Hp2|lia].
  - destruct (Z.ltb_spec lb (12 + ptrs_per_block s)) as [Hn|Hn]; cycle 1.
    { exists 0, v, s. split_and!; [done|by apply grew_refl| |by left].
      unfold ptr. destruct (Z.ltb_spec lb 12); [lia|]. by destruct (Z.ltb_spec lb (12 + ptrs_per_block s)); [lia|]. }
    destruct (bmap_alloc_indirect_ok s v Hview) as (go & v1 & s1 & E1 & Hg1 & Hgo). run E1.
    pose proof (g_same _ _ _ _ _ _ _ Hg1) as Hs1.
    assert (nslots s1 = nslots s) as Hns by (unfold nslots, ptrs_per_block; by rewrite (same_geo _ _ Hs1)).
    destruct go; cbn [negb].
    + destruct (bmap_alloc_entry_ok s1 v1 lb (g_view _ _ _ _ _ _ _ Hg1) ltac:(rewrite Hns; unfold nslots; lia) Hgo)
        as (r & v' & s' & Er & Hg & Hp & Hf).
      exists r, v', s'. split_and!; [done|by eapply grew_trans|done|intros; right; by apply Hf].
    + destruct Hgo as [H12 Hfull]. exists 0, v1, s1. split_and!; [done|done| |by right].
      unfold ptr. destruct (Z.ltb_spec lb 12); [lia|]. rewrite H12. by destruct (_ <? _).
Qed.

Lemma ensure_ok n s v lb :
  view L I ino s v -> 0 <= lb ->
  exists ok v' s', ensure n v lb s = Some ((ok, v'), s') /\ grew L I ino s v s' v' /\
    if ok then forall k, lb <= k < lb + Z.of_nat n -> ptr s' v' k <> 0
    else nslots s < lb + Z.of_nat n \/ all_used KBlock s'.
Proof.
  revert s v lb; induction n as [|n IH]; intros s v lb Hview Hlb; cbn [ensure].
  { exists true, v, s. split_and!; [done|by apply grew_refl|lia]. }
  destruct (bmap_alloc_ok s v lb Hview Hlb) as (r & v1 & s1 & E1 & Hg1 & Hp1 & Hf1). run E1.
  pose proof (g_same _ _ _ _ _ _ _ Hg1) as Hs1.
  assert (nslots s1 = nslots s) as Hns by (unfold nslots, ptrs_per_block; by rewrite (same_geo _ _ Hs1)).
  destruct (Z.eqb_spec r 0) as [->|Hr].
  { exists false, v1, s1. split_and!; [done|done|]. destruct (Hf1 eq_refl); [left; lia|by right]. }
  destruct (IH s1 v1 (lb + 1) (g_view _ _ _ _ _ _ _ Hg1) ltac:(lia)) as (ok & v' & s' & E & Hg & Hok).
  exists ok, v', s'. split_and!; [done|by eapply grew_trans|]. destruct ok.
  - intros k Hk. destruct (decide (k = lb)) as [->|]; [|apply Hok; lia].
    by rewrite (g_ptr _ _ _ _ _ _ _ Hg) by congruence; rewrite Hp1.
  - destruct Hok; [left; lia|by right].
Qed.

End grow.

(** ** Contents *)

Definition content (s : ext2_fs) (v : list Z) (off n : Z) : list Z := fbyte s v <$> seqZ off n.

Lemma zlen_content s v off n : 0 <= n -> zlen (content s v off n) = n.
Proof. intros. unfold zlen, content. rewrite length_fmap, length_seqZ. lia. Qed.

Lemma byte_content s v off n i : 0 <= i < n -> byte (content s v off n) i = fbyte s v (off + i).
Proof.
  intros. unfold byte, content. rewrite zlookup_fmap. unfold zlookup. destruct (Z.leb_spec 0 i); [|lia].
  by rewrite lookup_seqZ_lt, Z2Nat.id by lia.
Qed.

Lemma content_app s v off a n : 0 <= a <= n -> content s v off n = content s v off a ++ content s v (off + a) (n - a).
Proof. intros. unfold content. rewrite <- fmap_app, <- seqZ_app by lia. do 2 f_equal. lia. Qed.

Lemma block_pos s off i :
  ready s -> 0 <= off -> 0 <= i -> off mod block_size s + i < block_size s ->
  (off + i) / block_size s = off / block_size s /\ (off + i) mod block_size s = off mod block_size s + i.
Proof.
  intros Hr Ho Hi Hlt. destruct (bs_pos s Hr) as (? & _). pose proof (Z.div_mod off (block_size s)).
  assert (0 <= off mod block_size s) by (apply Z.mod_pos_bound; lia).
  replace (off + i) with (off / block_size s * block_size s + (off mod block_size s + i)) by lia.
  rewrite Z.div_add_l, (Z.div_small (off mod block_size s + i)) by lia. split; [lia|].
  by rewrite Z.add_comm, Z.mod_add, Z.mod_small by lia.
Qed.

(** The bytes of a file inside one block. *)
Lemma content_block s v off c :
  ready s -> 0 <= off -> 0 <= c -> off mod block_size s + c <= block_size s ->
  content s v off c =
    let p := ptr s v (off / block_size s) in if p =? 0 then zeros c else slice (off mod block_size s) c (blk s p).
Proof.
  intros Hr Ho Hc Hle. destruct (bs_pos s Hr) as (? & _). destruct (blk_ok s (ptr s v (off / block_size s)) Hr) as [Hl _].
  assert (0 <= off mod block_size s) by (apply Z.mod_pos_bound; lia). cbn zeta.
  apply byte_ext; [rewrite zlen_content by done; destruct (_ =? 0); [by rewrite zlen_zeros|by rewrite zlen_slice by lia]|].
  rewrite zlen_content by done. intros i Hi. rewrite byte_content by done. unfold fbyte.
  destruct (block_pos s off i Hr) as [-> ->]; [lia..|].
  destruct (_ =? 0); [by rewrite byte_zeros|by rewrite byte_slice by lia].
Qed.

Lemma chunk_bounds s off rem :
  ready s -> 0 <= off -> 0 < rem ->
  0 < chunk_at s off rem <= rem /\ off mod block_size s + chunk_at s off rem <= block_size s /\
  (chunk_at s off rem = rem \/ (off + chunk_at s off rem) mod block_size s = 0).
Proof.
  intros Hr Ho Hrem. destruct (bs_pos s Hr) as (? & _). unfold chunk_at. set (b := block_size s) in *.
  assert (0 <= off mod b < b) by (apply Z.mod_pos_bound; lia). pose proof (Z.div_mod off b).
  destruct (Z.ltb_spec rem (b - off mod b)); [lia|]. split_and!; [lia..|]. right.
  replace (off + (b - off mod b)) with ((off / b + 1) * b) by lia. apply Z.mod_mul. lia.
Qed.

(** Enough rounds for the rest of the transfer. *)
Definition enough (s : ext2_fs) (fuel : nat) (off rem : Z) : Prop :=
  if rem =? 0 then (1 <= fuel)%nat else off mod block_size s + rem <= (Z.of_nat fuel - 1) * block_size s.

Lemma enough_rounds s off rem : ready s -> 0 <= rem -> enough s (rounds s rem) off rem.
Proof.
  intros Hr Hrem. destruct (bs_pos s Hr) as (? & _). unfold enough, rounds.
  assert (0 <= off mod block_size s < block_size s) by (apply Z.mod_pos_bound; lia).
  pose proof (Z.div_mod rem (block_size s)). assert (0 <= rem mod block_size s < block_size s) by (apply Z.mod_pos_bound; lia).
  assert (0 <= rem / block_size s) by (apply Z.div_pos; lia).
  destruct (Z.eqb_spec rem 0); [lia|]. rewrite Nat2Z.inj_add, Z2Nat.id by lia. nia.
Qed.

Lemma enough_step s fuel off rem :
  ready s -> 0 <= off -> 0 < rem -> enough s (S fuel) off rem ->
  enough s fuel (off + chunk_at s off rem) (rem - chunk_at s off rem).
Proof.
  intros Hr Ho Hrem. destruct (bs_pos s Hr) as (? & _). destruct (chunk_bounds s off rem Hr Ho Hrem) as (Hc & Hb & Hor).
  unfold enough. destruct (Z.eqb_spec rem 0); [lia|]. intros He.
  assert (0 <= off mod block_size s) by (apply Z.mod_pos_bound; lia).
  destruct (Z.eqb_spec (rem - chunk_at s off rem) 0); [nia|]. destruct Hor as [?|Hm]; [lia|]. rewrite Hm.
  assert (off mod block_size s + chunk_at s off rem = block_size s); [|nia].
  unfold chunk_at in *. destruct (Z.ltb_spec rem (block_size s - off mod block_size s)); lia.
Qed.

Lemma read_loop_ok s I L ino fuel off rem out :
  files s I L -> L ino -> 0 <= off -> 0 <= rem -> off + rem <= U32 -> enough s fuel off rem ->
  read_loop fuel (I ino) rem off out s = Some ((0, out ++ content s (I ino) off rem), s).
Proof.
  intros H Hi. pose proof (files_ready _ _ _ H) as Hr. destruct (bs_pos s Hr) as (Hbs & _).
  revert off rem out; induction fuel as [|fuel IH]; intros off rem out Ho Hrem Hu He.
  { unfold enough in He. destruct (Z.eqb_spec rem 0); [lia|].
    assert (0 <= off mod block_size s) by (apply Z.mod_pos_bound; lia). nia. }
  cbn [read_loop]. destruct (Z.ltb_spec 0 rem) as [Hpos|]; cbn [negb]; cycle 1.
  { replace rem with 0 by lia. unfold content. by rewrite app_nil_r. }
  run_get. destruct (chunk_bounds s off rem Hr Ho Hpos) as (Hc & Hb & _).
  pose proof (enough_step s fuel off rem Hr Ho Hpos He) as He'. set (c := chunk_at s off rem) in *.
  assert (0 <= off mod block_size s) by (apply Z.mod_pos_bound; lia).
  assert (0 <= off / block_size s < U32) as Hlb by (split; [apply Z.div_pos|apply Z.div_lt_upper_bound]; lia).
  unfold wrap32. rewrite Z.mod_small by done. run (bmap_ok s I L ino _ H Hi (proj1 Hlb)).
  unwrap. rewrite (content_app s (I ino) off c rem), app_assoc by lia.
  rewrite (content_block s (I ino) off c Hr Ho) by lia. cbn zeta. set (p := ptr s (I ino) (off / block_size s)) in *.
  destruct (Z.eqb_spec p 0) as [E|E]; [apply IH; [lia..|done]|].
  assert (usable s p) as Hup.
  { pose proof (ptr_range s (I ino) _ Hr E). unfold p in *. rewrite <- slot_ptr in * by lia.
    apply (f_usable _ _ _ H); [done|split; lia|done]. }
  destruct Hup as (_ & _ & _ & Hd & _). run (read_block_ok s p Hr Hd). cbn [Z.eqb negb].
  unfold ldbuf. destruct (blk_ok s p Hr) as [-> _]. destruct (Z.leb_spec 0 (off mod block_size s)); [|lia].
  destruct (Z.leb_spec (off mod block_size s + c) (block_size s)); [|lia]. cbn [andb]. run_get. apply IH; [lia..|done].
Qed.

(** Rewriting a data block changes that block of that file and nothing else. *)
Lemma put_data s I L ino lb w :
  files s I L -> L ino -> 0 <= lb -> ptr s (I ino) lb <> 0 -> zlen w = block_size s -> bytes w ->
  let s' := put (ptr s (I ino) lb) w s in
  files s' I L /\ (forall i k, L i -> 0 <= k -> ptr s' (I i) k = ptr s (I i) k) /\
  (forall i, valid_ino s i -> inode s' i = inode s i) /\
  (forall i x, L i -> 0 <= x -> fbyte s' (I i) x =
    if bool_decide (i = ino /\ x / block_size s = lb) then byte w (x mod block_size s) else fbyte s (I i) x).
Proof.
  intros H Hi Hlb Hn Hl Hb s'. pose proof (files_ready _ _ _ H) as Hr. pose proof (slot_m1 s Hr) as Hm1.
  set (p := ptr s (I ino) lb) in *. destruct (bs_pos s Hr) as (Hbs & _).
  assert (is_slot s lb) as Hsl by (pose proof (ptr_range s (I ino) lb Hr Hn); split; lia).
  assert (slot s (I ino) lb = p) as Esl by by apply slot_ptr.
  assert (usable s p) as Hu by (rewrite <- Esl; apply (f_usable _ _ _ H); [done..|by rewrite Esl]).
  assert (forall i k, L i -> is_slot s k -> slot s (I i) k = p -> i = ino /\ k = lb) as Hinj.
  { intros i k Hii Hk E. apply (f_inj _ _ _ H); try done; [by rewrite E|]. by rewrite E, Esl. }
  assert (forall i, L i -> i_block (I i) 12 <> 0 -> i_block (I i) 12 <> p) as Hni.
  { intros i Hii _ E. destruct (Hinj i (-1) Hii Hm1 E). lia. }
  assert (forall i k, L i -> 0 <= k -> ptr s' (I i) k = ptr s (I i) k) as Hptr.
  { intros i k Hii Hk. apply ptr_same; [done|]. intros Hn'. apply blk_put_ne; [done|by apply Hni]. }
  split_and!; [|done| |].
  - apply files_put; [done|by apply usable_not_book|done..].
  - intros i Hv. apply inode_put_ne; [done|]. intros E. pose proof (al_layout s (f_alloc _ _ _ H)) as Hy.
    destruct (ino_bounds s i Hy Hv) as (_ & _ & Hmk & _). destruct Hu as (_ & _ & _ & _ & Hq). by apply (Hq _ Hmk).
  - intros i x Hii Hx. assert (0 <= x / block_size s) by (apply Z.div_pos; lia).
    unfold fbyte. change (block_size s') with (block_size s). rewrite Hptr by done.
    case_bool_decide as E.
    + destruct E as [-> ->]. fold p. destruct (Z.eqb_spec p 0); [done|]. unfold s'. by rewrite blk_put_eq.
    + destruct (Z.eqb_spec (ptr s (I i) (x / block_size s)) 0); [done|]. unfold s'. rewrite blk_put_ne; [done|done|].
      intros E'. apply E. pose proof (ptr_range s (I i) (x / block_size s) Hr ltac:(done)). apply Hinj; [done|split; lia|].
      by rewrite slot_ptr.
Qed.

(** The data of [src] lies in file [ino] from [off] on; the rest is as before. *)
Record wrote (L : Z -> Prop) (I : Z -> list Z) (ino off : Z) (src : list Z) (s s' : ext2_fs) : Prop := {
  wr_files : files s' I L;
  wr_same : same s s';
  wr_inode : forall i, valid_ino s i -> inode s' i = inode s i;
  wr_ptr : forall i k, L i -> 0 <= k -> ptr s' (I i) k = ptr s (I i) k;
  wr_bytes : forall i x, L i -> 0 <= x -> fbyte s' (I i) x =
    if bool_decide (i = ino /\ off <= x < off + zlen src) then byte src (x - off) else fbyte s (I i) x;
  wr_ibit : forall i, 0 <= i < total KInode s -> kbit KInode s' i = kbit KInode s i;
}.

Lemma wrote_chunk s I L ino off c src :
  files s I L -> L ino -> bytes src -> 0 <= off -> 0 < c <= zlen src -> off mod block_size s + c <= block_size s ->
  let p := ptr s (I ino) (off / block_size s) in
  p <> 0 -> wrote L I ino off (slice 0 c src) s (put p (splice (off mod block_size s) (slice 0 c src) (blk s p)) s).
Proof.
  intros H Hi Hsrc Ho Hc Hb p Hp. pose proof (files_ready _ _ _ H) as Hr. destruct (bs_pos s Hr) as (Hbs & _).
  set (bs := block_size s) in *. assert (0 <= off mod bs) as Hm by (apply Z.mod_pos_bound; lia).
  assert (0 <= off / bs) as Hd by (apply Z.div_pos; lia). destruct (blk_ok s p Hr) as [Hl Hby].
  assert (zlen (slice 0 c src) = c) as Hsl by (apply zlen_slice; lia).
  destruct (put_data s I L ino (off / bs) (splice (off mod bs) (slice 0 c src) (blk s p)) H Hi Hd Hp) as (Hf & Hptr & Hin & Hby');
    [rewrite zlen_splice; lia|apply bytes_splice; [by apply bytes_slice|done]|].
  fold p in Hf, Hptr, Hin, Hby'. constructor; try done; cycle 1.
  { intros i Hir. apply kbit_put; [apply al_layout, (f_alloc _ _ _ H)|done|]. apply usable_not_book. unfold p in *.
    pose proof (ptr_range s (I ino) _ Hr Hp). rewrite <- slot_ptr in * by done. apply (f_usable _ _ _ H); [done|split; lia|done]. }
  intros i x Hii Hx. rewrite Hby' by done. rewrite Hsl. fold bs. case_bool_decide as E.
  - destruct E as [-> E]. rewrite byte_splice, Hsl by lia.
    pose proof (Z.div_mod off bs ltac:(lia)). pose proof (Z.div_mod x bs ltac:(lia)) as Hxd. rewrite E in Hxd.
    destruct (Z.leb_spec (off mod bs) (x mod bs)), (Z.ltb_spec (x mod bs) (off mod bs + c)); cbn [andb];
      first [rewrite bool_decide_eq_true_2 by (split; [done|lia])|rewrite bool_decide_eq_false_2 by lia].
    + f_equal. lia.
    + unfold fbyte. fold bs. rewrite E. fold p. by destruct (Z.eqb_spec p 0).
    + unfold fbyte. fold bs. rewrite E. fold p. by destruct (Z.eqb_spec p 0).
    + lia.
  - rewrite bool_decide_eq_false_2; [done|]. intros [-> Hin']. apply E. split; [done|].
    replace x with (off + (x - off)) by lia. apply (block_pos s off (x - off)); fold bs; lia || done.
Qed.

Lemma wrote_app s1 s2 s3 I L ino off c src :
  0 <= c <= zlen src -> 0 <= off ->
  wrote L I ino off (slice 0 c src) s1 s2 -> wrote L I ino (off + c) (drop (Z.to_nat c) src) s2 s3 ->
  wrote L I ino off src s1 s3.
Proof.
  intros Hc Ho [_ Hs Hi Hp Hb Hkb] [Hf Hs' Hi' Hp' Hb' Hkb']. constructor; try done.
  - by etrans.
  - intros i Hv. rewrite Hi', Hi; [done..|]. by rewrite (valid_same s1 s2).
  - intros i k Hl Hk. by rewrite Hp', Hp.
  - intros i x Hl Hx. rewrite Hb', Hb by done.
    assert (zlen (drop (Z.to_nat c) src) = zlen src - c) as -> by (unfold zlen in *; rewrite length_drop; lia).
    rewrite (zlen_slice 0 c src) by lia. repeat case_bool_decide; try lia; try done.
    + unfold byte, zlookup. destruct (Z.leb_spec 0 (x - (off + c))); [|lia]. destruct (Z.leb_spec 0 (x - off)); [|lia].
      rewrite lookup_drop. do 2 f_equal; lia.
    + by rewrite byte_slice by lia.
  - intros i Hir. rewrite Hkb'; [by apply Hkb|]. by rewrite (total_same _ s1 s2 Hs).
Qed.

Lemma wrote_nil s I L ino off : files s I L -> wrote L I ino off [] s s.
Proof.
  intros H. constructor; try done. intros i x Hi Hx. rewrite bool_decide_eq_false_2; [done|].
  unfold zlen. cbn. lia.
Qed.

Lemma write_loop_ok fuel s I L ino off src :
  files s I L -> L ino -> bytes src -> 0 <= off -> off + zlen src <= U32 -> enough s fuel off (zlen src) ->
  (forall lb, off / block_size s <= lb <= (off + zlen src - 1) / block_size s -> ptr s (I ino) lb <> 0) ->
  exists s', write_loop fuel (I ino) src off s = Some ((0, off + zlen src), s') /\ wrote L I ino off src s s'.
Proof.
  revert s off src; induction fuel as [|fuel IH]; intros s off src H Hi Hsrc Ho Hu He Hp;
    pose proof (files_ready _ _ _ H) as Hr; destruct (bs_pos s Hr) as (Hbs & _); pose proof (zlen_nonneg src);
    assert (0 <= off mod block_size s) as Hm by (apply Z.mod_pos_bound; lia).
  { unfold enough in He. destruct (Z.eqb_spec (zlen src) 0); [lia|]. nia. }
  cbn [write_loop]. destruct (Z.eqb_spec (zlen src) 0) as [E|E].
  { exists s. split; [by rewrite E, Z.add_0_r|]. destruct src; [by apply wrote_nil|unfold zlen in E; cbn in E; lia]. }
  run_get. destruct (chunk_bounds s off (zlen src) Hr Ho ltac:(lia)) as (Hc & Hb & _).
  pose proof (enough_step s fuel off (zlen src) Hr Ho ltac:(lia) He) as He'. set (c := chunk_at s off (zlen src)) in *.
  assert (0 <= off / block_size s < U32) as Hlb by (split; [apply Z.div_pos|apply Z.div_lt_upper_bound]; lia).
  unfold wrap32. rewrite Z.mod_small by done. run (bmap_ok s I L ino _ H Hi (proj1 Hlb)).
  assert (ptr s (I ino) (off / block_size s) <> 0) as Hn.
  { apply Hp. split; [lia|]. apply Z.div_le_mono; lia. }
  pose proof (wrote_chunk s I L ino off c src H Hi Hsrc Ho Hc Hb Hn) as Hw.
  set (p := ptr s (I ino) (off / block_size s)) in *. destruct (Z.eqb_spec p 0); [done|].
  assert (in_dev s p) as Hd.
  { pose proof (ptr_range s (I ino) _ Hr Hn). unfold p in *. rewrite <- slot_ptr in * by lia.
    destruct (f_usable _ _ _ H ino (off / block_size s)) as (_ & _ & _ & ? & _); [done|split; lia|done|done]. }
  run (read_block_ok s p Hr Hd). cbn [Z.eqb negb]. unfold stbuf. destruct (blk_ok s p Hr) as [-> _].
  assert (zlen (slice 0 c src) = c) as Hsl by (apply zlen_slice; lia). rewrite Hsl.
  destruct (Z.leb_spec 0 (off mod block_size s)); [|lia].
  destruct (Z.leb_spec (off mod block_size s + c) (block_size s)); [|lia]. cbn [andb]. run_get.
  run (write_block_ok s p _ Hr Hd). cbn [Z.eqb negb]. unwrap.
  set (s1 := put p _ s) in *.
  assert (zlen (drop (Z.to_nat c) src) = zlen src - c) as Hdl by (unfold zlen in *; rewrite length_drop; lia).
  destruct (IH s1 (off + c) (drop (Z.to_nat c) src)) as (s' & E' & Hw').
  - apply Hw.
  - done.
  - by apply Forall_drop.
  - lia.
  - lia.
  - rewrite Hdl. exact He'.
  - intros lb Hlbr. rewrite (wr_ptr _ _ _ _ _ _ _ Hw); [|done|].
    + apply Hp. rewrite Hdl in Hlbr. change (block_size s1) with (block_size s) in Hlbr.
      split; [etrans; [|apply Hlbr]; apply Z.div_le_mono; lia|]. replace (off + zlen src - 1) with (off + c + (zlen src - c) - 1) by lia. apply Hlbr.
    + etrans; [|apply Hlbr]. apply Z.div_pos; cbn; lia.
  - exists s'. split; [rewrite E', Hdl; by replace (off + c + (zlen src - c)) with (off + zlen src) by lia|]. by apply (wrote_app s s1 s' I L ino off c src); [lia|..].
Qed.

(** ** Inodes and nodes *)

Lemma files_change_inode s I L ino v :
  files s I L -> L ino -> inode_bytes v -> (forall k, 0 <= k <= 12 -> i_block v k = i_block (I ino) k) ->
  files s (iupd I ino v) L /\ (forall lb, 0 <= lb -> ptr s v lb = ptr s (I ino) lb).
Proof.
  intros H Hi Hv Hb.
  assert (forall lb, 0 <= lb -> ptr s v lb = ptr s (I ino) lb) as Hp.
  { intros lb Hlb. unfold ptr. rewrite (Hb 12) by lia. destruct (Z.ltb_spec lb 12); [apply Hb; lia|done]. }
  assert (forall i k, is_slot s k -> slot s (iupd I ino v i) k = slot s (I i) k) as Hs.
  { intros i k [Hk _]. unfold iupd. destruct (Z.eqb_spec i ino) as [->|]; [|done]. unfold slot.
    destruct (Z.eqb_spec k (-1)); [apply Hb; lia|apply Hp; lia]. }
  split; [|done]. destruct H as [Ha Hvd Hib Hu Hinj]. constructor; [done|done|..].
  - intros i Hii. unfold iupd. destruct (i =? ino); [done|by apply Hib].
  - intros i k Hii Hk. rewrite Hs by done. by apply Hu.
  - intros i k i' k' Hii Hii' Hk Hk'. rewrite !Hs by done. by apply Hinj.
Qed.

(** Writing an inode back. *)
Lemma put_inode_files s I L ino v :
  files s (iupd I ino v) L -> L ino ->
  let s' := put_inode ino v s in
  ext2_write_inode ino v s = Some (0, s') /\ files s' (iupd I ino v) L /\ same s s' /\
  (forall i, valid_ino s i -> inode s' i = if i =? ino then v else inode s i) /\
  (forall i x, L i -> 0 <= x -> fbyte s' (iupd I ino v i) x = fbyte s (iupd I ino v i) x) /\
  (forall i k, L i -> ptr s' (iupd I ino v i) k = ptr s (iupd I ino v i) k) /\
  (forall k i, 0 <= i < total k s -> kbit k s' i = kbit k s i).
Proof.
  intros H Hi s'. pose proof (f_alloc _ _ _ H) as Ha. pose proof (al_layout s Ha) as Hl. pose proof (lay_ready s Hl) as Hr.
  pose proof (f_valid _ _ _ H ino Hi) as Hv. pose proof (f_inode _ _ _ H ino Hi) as Hb. rewrite iupd_eq in Hb.
  destruct Hb as [Hz Hby]. destruct (ino_bounds s ino Hl Hv) as (_ & _ & Hm & _).
  destruct (put_inode_block s ino v Hl Hv Hz Hby) as [Hbl Hbb].
  assert (forall i k, L i -> is_slot s k -> slot s (iupd I ino v i) k <> 0 -> slot s (iupd I ino v i) k <> ino_block s ino) as Hne.
  { intros i k Hii Hk Hn E. destruct (f_usable _ _ _ H i k Hii Hk Hn) as (_ & _ & _ & _ & Hq). by apply (Hq _ Hm). }
  assert (forall i k, L i -> ptr s' (iupd I ino v i) k = ptr s (iupd I ino v i) k) as Hptr.
  { intros i k Hii. apply ptr_same; [done|]. intros Hn. apply blk_put_ne; [done|]. by apply (Hne i (-1) Hii (slot_m1 s Hr)). }
  split_and!; [by apply write_inode_ok| |done| | |done|].
  - apply files_put; [done|by apply meta_book_not_table|done..|]. intros i Hii. by apply (Hne i (-1) Hii (slot_m1 s Hr)).
  - intros i Hvi. by apply inode_put_inode.
  - intros i x Hii Hx. apply (files_fbyte_keep L s s' (iupd I ino v)); [done..|].
    intros k Hk Hn. apply blk_put_ne; [done|by apply Hne].
  - intros k i Hir. by apply kbit_put; [..|apply meta_book_not_table].
Qed.

(** The registry of nodes is no part of the file system's state. *)
Lemma alloc_inv_mount s m : alloc_inv s -> alloc_inv (set_mount m s).
Proof.
  intros [[[Hr ? ? ? ? ?] ? ? ? ? ? ?] ? ? ? ? ? ?].
  assert (ready (set_mount m s)) by (destruct Hr; by constructor).
  assert (cached (set_mount m s)) by by constructor.
  assert (layout (set_mount m s)) by by constructor.
  by constructor.
Qed.

Lemma files_mount s m I L : files s I L -> files (set_mount m s) I L.
Proof. intros [Ha Hv Hb Hu Hinj]. constructor; try done. by apply alloc_inv_mount. Qed.

Lemma sync_size_mount ino sz mt s : exists m, vfs_active_nodes_sync_size_locked ino sz mt s = set_mount m s.
Proof.
  unfold vfs_active_nodes_sync_size_locked. destruct (ino =? 0); [exists (mount s); by destruct s|].
  generalize (root (mount s) :: active_nodes (mount s)) as l. intros l. revert s; induction l as [|a l IH]; intros s; cbn [fold_left].
  - exists (mount s). by destruct s.
  - destruct (IH (sync_node ino sz mt a s)) as [m ->]. unfold sync_node. destruct (nodes (mount s) !! a); [|by exists m].
    destruct (_ =? ino); by exists m.
Qed.

Lemma upd_upd I ino v v' i : iupd (iupd I ino v) ino v' i = iupd I ino v' i.
Proof. unfold iupd. by destruct (i =? ino). Qed.

(** The nodes are the same up to their cached sizes and times. *)
Record nodes_kept (m m' : vfs_mount) : Prop := {
  nk_root : root m' = root m;
  nk_active : active_nodes m' = active_nodes m;
  nk_nodes : forall a n, nodes m !! a = Some n -> exists sz mt, nodes m' !! a = Some (node_set_mtime mt (node_set_size sz n));
}.
#[export] Instance nodes_kept_refl : Reflexive nodes_kept.
Proof. intros m. constructor; [done..|]. intros a n E. exists (n_size n), (n_mtime n). rewrite E. by destruct n. Qed.
#[export] Instance nodes_kept_trans : Transitive nodes_kept.
Proof.
  intros m1 m2 m3 [Hr Ha Hn] [Hr' Ha' Hn']. constructor; [congruence..|]. intros a n E.
  destruct (Hn a n E) as (sz & mt & E'). destruct (Hn' a _ E') as (sz' & mt' & E''). by exists sz', mt'.
Qed.

Lemma nodes_kept_alter s f a :
  (forall n, exists sz mt, f n = node_set_mtime mt (node_set_size sz n)) -> nodes_kept (mount s) (mount (on_nodes (alter f a) s)).
Proof.
  intros Hf. constructor; [done..|]. intros b n E. cbn. destruct (decide (a = b)) as [->|Hne].
  - rewrite lookup_alter_eq, E. cbn. destruct (Hf n) as (sz & mt & ->). by exists sz, mt.
  - rewrite lookup_alter_ne by done. by apply nodes_kept_refl.
Qed.

Lemma nodes_kept_sync ino sz mt a s : nodes_kept (mount s) (mount (sync_node ino sz mt a s)).
Proof.
  unfold sync_node. destruct (nodes (mount s) !! a) as [n|] eqn:E; [|done]. destruct (_ =? ino); [|done].
  constructor; [done..|]. intros b n' E'. cbn. destruct (decide (a = b)) as [->|Hne].
  - rewrite lookup_insert_eq. replace n' with n by congruence. exists sz, (if mt =? 0 then n_mtime n else mt).
    destruct (mt =? 0), n; done.
  - rewrite lookup_insert_ne by done. by apply nodes_kept_refl.
Qed.

Lemma nodes_kept_sync_all ino sz mt s : nodes_kept (mount s) (mount (vfs_active_nodes_sync_size_locked ino sz mt s)).
Proof.
  unfold vfs_active_nodes_sync_size_locked. destruct (ino =? 0); [done|]. generalize (root (mount s) :: active_nodes (mount s)) as l.
  intros l. revert s; induction l as [|a l IH]; intros s; cbn [fold_left]; [done|]. etrans; [apply (nodes_kept_sync ino sz mt a)|apply IH].
Qed.

(** Changing fields of an inode other than its pointers, and writing it back. *)
Lemma rewrite_inode_ok s I L ino v v' :
  files s (iupd I ino v) L -> L ino -> inode_bytes v' -> (forall k, 0 <= k <= 12 -> i_block v' k = i_block v k) ->
  exists s', ext2_write_inode ino v' s = Some (0, s') /\ files s' (iupd I ino v') L /\ same s s' /\
    (forall i, valid_ino s i -> inode s' i = if i =? ino then v' else inode s i) /\
    (forall i x, L i -> 0 <= x -> fbyte s' (iupd I ino v' i) x = fbyte s (iupd I ino v i) x) /\
    (forall i k, L i -> 0 <= k -> ptr s' (iupd I ino v' i) k = ptr s (iupd I ino v i) k) /\
    (forall k i, 0 <= i < total k s -> kbit k s' i = kbit k s i).
Proof.
  intros H Hi Hv Hb. pose proof (files_change_inode s (iupd I ino v) L ino v' H Hi Hv) as Hc.
  rewrite iupd_eq in Hc. destruct (Hc Hb) as [Hf Hp].
  apply (files_ext L s _ (iupd I ino v')) in Hf; [|intros; by rewrite upd_upd].
  destruct (put_inode_files s I L ino v' Hf Hi) as (E & Hf' & Hs & Hin & Hby & Hpt & Hkb).
  pose proof (files_ready _ _ _ H) as Hr. destruct (bs_pos s Hr) as (Hbs & _).
  exists (put_inode ino v' s). split_and!; try done.
  - intros i x Hii Hx. rewrite Hby by done. unfold iupd. destruct (i =? ino); [|done]. unfold fbyte.
    by rewrite Hp by (apply Z.div_pos; lia).
  - intros i k Hii Hk. rewrite Hpt by done. unfold iupd. destruct (i =? ino); [by apply Hp|done].
Qed.

Lemma commit_size_ok s I L ino v node n e :
  files s (iupd I ino v) L -> L ino -> nodes (mount s) !! node = Some n -> 0 <= e < U32 ->
  exists s' v', commit_size node ino e v s = Some (tt, s') /\ files s' (iupd I ino v') L /\ geo s' = geo s /\
    (forall i, valid_ino s i -> inode s' i = if i =? ino then v' else inode s i) /\
    i_size v' = Z.max (i_size v) e /\
    (forall i x, L i -> 0 <= x -> fbyte s' (iupd I ino v' i) x = fbyte s (iupd I ino v i) x) /\
    nodes_kept (mount s) (mount s') /\ (forall i, 0 <= i < total KInode s -> kbit KInode s' i = kbit KInode s i).
Proof.
  intros H Hi Hn He. pose proof (f_inode _ _ _ H ino Hi) as Hv. rewrite iupd_eq in Hv.
  set (w := if i_size v <? e then set_i_size e v else v).
  assert (inode_bytes w) as Hw by (unfold w; destruct (_ <? _); [by apply inode_bytes_st|done]).
  assert (i_size w = Z.max (i_size v) e) as Hsz.
  { unfold w. destruct (Z.ltb_spec (i_size v) e); [|lia]. unfold i_size, set_i_size.
    rewrite ld_st_eq by (try rewrite (proj1 Hv); lia). rewrite Z.mod_small by done. unfold i_size in *. lia. }
  assert (forall k, 0 <= k <= 12 -> i_block w k = i_block v k) as Hwb.
  { intros k Hk. unfold w. destruct (_ <? _); [|done]. apply i_block_st; [done|lia..]. }
  unfold commit_size. fold w. assert (ld_node node s = Some (n, s)) as El by (unfold ld_node; by rewrite Hn).
  run El.
  set (s1 := if n_size n <? i_size w then on_nodes (alter (node_set_size (i_size w)) node) s else s).
  assert (exists m, s1 = set_mount m s /\ nodes_kept (mount s) m) as (m & Hs1 & Hkm).
  { unfold s1. clearbody w. destruct (n_size n <? i_size w); [|exists (mount s); by destruct s]. eexists. split; [done|].
    apply (nodes_kept_alter s). intros n'. exists (i_size w), (n_mtime n'). by destruct n'. }
  assert ((if n_size n <? i_size w then st_node node (node_set_size (i_size w)) else ret tt) s = Some (tt, s1)) as E1
    by (unfold s1; by destruct (n_size n <? i_size w)).
  run E1. rewrite Hs1 in *. clear s1 Hs1 E1.
  destruct (rewrite_inode_ok (set_mount m s) I L ino v (set_i_mtime 0 w)) as (s2 & E2 & Hf2 & Hs2 & Hin2 & Hby2 & _ & Hkb2).
  - by apply files_mount.
  - done.
  - by apply inode_bytes_st.
  - intros k Hk. rewrite <- Hwb by done. apply i_block_st; [done|lia..].
  - run E2. destruct (sync_size_mount ino (i_size (set_i_mtime 0 w)) (i_mtime (set_i_mtime 0 w)) s2) as [m' Em].
    exists (set_mount m' s2), (set_i_mtime 0 w). split_and!.
    + unfold modify. by rewrite Em.
    + by apply files_mount.
    + apply Hs2.
    + apply Hin2.
    + rewrite <- Hsz. unfold i_size, set_i_mtime. apply ld_st_apart; try rewrite (proj1 Hw); lia.
    + apply Hby2.
    + etrans; [exact Hkm|]. change m with (mount (set_mount m s)). rewrite <- (same_mount _ _ Hs2).
      change m' with (mount (set_mount m' s2)). rewrite <- Em. apply nodes_kept_sync_all.
    + intros i Hir. change (kbit KInode s2 i = kbit KInode s i). by rewrite Hkb2.
Qed.

(** ** [ext2_vfs_read] and [ext2_vfs_write] *)

(** The files [L] are in order on disk. *)
Definition consistent (s : ext2_fs) (L : Z -> Prop) : Prop := files s (inode s) L.
(** No file but [ino] has changed. *)
Definition others_kept (L : Z -> Prop) (ino : Z) (s s' : ext2_fs) : Prop :=
  forall i, L i -> i <> ino -> inode s' i = inode s i /\ forall x, 0 <= x -> fbyte s' (inode s' i) x = fbyte s (inode s i) x.

Lemma consistent_upd s I L ino v :
  files s (iupd I ino v) L -> (forall i, valid_ino s i -> inode s i = if i =? ino then v else I i) -> consistent s L.
Proof.
  intros H He. apply (files_ext L s (iupd I ino v)); [|done]. intros i Hi. rewrite He by by apply (f_valid _ _ _ H).
  done.
Qed.

Lemma nslots_same s s' : same s s' -> nslots s' = nslots s.
Proof. intros Hs. unfold nslots, ptrs_per_block. by rewrite (same_geo _ _ Hs). Qed.

(** Allocating the logical blocks [first, last1). *)
Lemma ensure_range_ok L I ino s v first last1 :
  L ino -> view L I ino s v -> 0 <= first <= last1 ->
  exists ok v' s', ensure (range_rounds s first last1) v first s = Some ((ok, v'), s') /\ grew L I ino s v s' v' /\
    if ok then (forall k, first <= k < last1 -> ptr s' v' k <> 0) /\ (first < last1 -> last1 <= nslots s)
    else nslots s < last1 \/ all_used KBlock s'.
Proof.
  intros Hi Hv Hf. destruct (ensure_ok L I ino Hi (range_rounds s first last1) s v first Hv ltac:(lia)) as
    (ok & v' & s' & E & Hg & Hok).
  exists ok, v', s'. split_and!; [done|done|]. pose proof (g_same _ _ _ _ _ _ _ Hg) as Hs.
  pose proof (files_ready _ _ _ (vw_mem _ _ _ _ _ (g_view _ _ _ _ _ _ _ Hg))) as Hr.
  pose proof (nslots_same s s' Hs) as Hns. destruct (bs_pos s' Hr) as (? & _ & HP).
  assert (12 + ptrs_per_block s = nslots s) as HN by done. unfold nslots in Hns at 1.
  unfold range_rounds in Hok. destruct ok.
  - assert (first < last1 -> last1 <= nslots s) as Hl.
    { intros Hlt. destruct (decide (last1 <= nslots s)); [done|]. exfalso.
      set (k := Z.max first (nslots s)). pose proof (ptr_range s' v' k Hr (Hok k ltac:(lia))) as Hp.
      rewrite (nslots_same s s' Hs) in Hp. lia. }
    split; [|done]. intros k Hk. apply Hok. lia.
  - destruct Hok; [left; lia|by right].
Qed.

Lemma last_block s off n :
  ready s -> 0 <= off -> 0 < n -> (off + n - 1) / block_size s + 1 <= nslots s -> off + n <= nslots s * block_size s.
Proof.
  intros Hr Ho Hn Hl. destruct (bs_pos s Hr) as (? & _). pose proof (Z.div_mod (off + n - 1) (block_size s)).
  assert (0 <= (off + n - 1) mod block_size s < block_size s) by (apply Z.mod_pos_bound; lia). nia.
Qed.

(** The state after the inode and its blocks are in place: the data loop and
    the final commit. *)
Lemma write_data_ok s I L ino v node n off src :
  files s (iupd I ino v) L -> (forall i, valid_ino s i -> inode s i = iupd I ino v i) -> L ino ->
  nodes (mount s) !! node = Some n ->
  bytes src -> src <> [] -> 0 <= off -> off + zlen src < U32 ->
  (forall lb, off / block_size s <= lb <= (off + zlen src - 1) / block_size s -> ptr s v lb <> 0) ->
  exists s1 s', write_loop (rounds s (zlen src)) v src off s = Some ((0, off + zlen src), s1) /\
    commit_size node ino (off + zlen src) v s1 = Some (tt, s') /\ consistent s' L /\ geo s' = geo s /\
    i_size (inode s' ino) = Z.max (i_size v) (off + zlen src) /\
    (forall i x, L i -> 0 <= x -> fbyte s' (inode s' i) x =
       if bool_decide (i = ino /\ off <= x < off + zlen src) then byte src (x - off) else fbyte s (iupd I ino v i) x) /\
    (forall i, L i -> i <> ino -> inode s' i = I i) /\
    nodes_kept (mount s) (mount s') /\ (forall i, 0 <= i < total KInode s -> kbit KInode s' i = kbit KInode s i).
Proof.
  intros H Hin Hi Hn Hb Hne Ho Hu Hp. pose proof (files_ready _ _ _ H) as Hr. pose proof (zlen_nonneg src).
  destruct (write_loop_ok (rounds s (zlen src)) s (iupd I ino v) L ino off src) as (s1 & E1 & [Hf1 Hs1 Hi1 Hp1 Hb1 Hk1]);
    [done|done|done|done|lia|by apply enough_rounds|by rewrite iupd_eq|].
  rewrite iupd_eq in E1.
  destruct (commit_size_ok s1 I L ino v node n (off + zlen src) Hf1 Hi) as (s' & v' & E' & Hf' & Hg & Hi' & Hsz & Hb' & Hnk & Hk');
    [by rewrite (same_mount _ _ Hs1)|lia|].
  assert (forall i, valid_ino s i -> inode s' i = iupd I ino v' i) as Hino.
  { intros i Hv. rewrite Hi' by by rewrite (valid_same s s1). rewrite Hi1, Hin by done. unfold iupd.
    by destruct (i =? ino). }
  pose proof (f_valid _ _ _ H) as Hvalid.
  exists s1, s'. split_and!; [done|done| |by rewrite Hg, (same_geo _ _ Hs1)| | | |by rewrite <- (same_mount _ _ Hs1)|].
  - apply (files_ext L s' (iupd I ino v')); [|done]. intros i Hii. by apply Hino, Hvalid.
  - rewrite Hino by by apply Hvalid. by rewrite iupd_eq.
  - intros i x Hii Hx. rewrite Hino, Hb', Hb1 by (done || by apply Hvalid). done.
  - intros i Hii Hne'. rewrite Hino by by apply Hvalid. by apply iupd_ne.
  - intros i Hir. rewrite Hk' by by rewrite (total_same _ s s1 Hs1). by apply Hk1.
Qed.

Lemma ld_node_ok s node n : nodes (mount s) !! node = Some n -> ld_node node s = Some (n, s).
Proof. intros E. unfold ld_node. by rewrite E. Qed.

Lemma consistent_view s L ino : consistent s L -> L ino -> view L (inode s) ino s (inode s ino).
Proof.
  intros H Hi. constructor; [|done..]. apply (files_ext L s (inode s)); [|done]. intros i Hii. unfold iupd.
  by destruct (Z.eqb_spec i ino) as [->|].
Qed.

(** Blocks allocated for a write that fails are not attached to any inode on
    disk, so the files are as they were. *)
Lemma grew_disk s L ino s' v' :
  consistent s L -> grew L (inode s) ino s (inode s ino) s' v' ->
  consistent s' L /\ forall i, L i -> inode s' i = inode s i /\ forall x, 0 <= x -> fbyte s' (inode s' i) x = fbyte s (inode s i) x.
Proof.
  intros H [Hv Hs Hi _ _ Hd _ _]. pose proof (f_valid _ _ _ H) as Hvalid.
  split.
  - apply (files_ext L s' (inode s)); [intros i Hii; by apply Hi, Hvalid|apply Hv].
  - intros i Hii. assert (inode s' i = inode s i) as E by by apply Hi, Hvalid. split; [done|]. intros x Hx.
    rewrite E. by apply Hd.
Qed.

Lemma sint32_small x : 0 <= x < 2147483648 -> sint32 x = x.
Proof. intros. unfold sint32. rewrite Z.mod_small; lia. Qed.

Lemma vfs_write_spec s L node n offset buffer :
  consistent s L -> node <> 0 -> nodes (mount s) !! node = Some n -> L (ext2_node_ino n) ->
  EXTENTS_FL (inode s (ext2_node_ino n)) = false ->
  bytes buffer -> buffer <> [] -> 0 <= offset -> offset + zlen buffer < U32 ->
  let ino := ext2_node_ino n in
  exists r s', ext2_vfs_write node offset buffer s = Some (r, s') /\ consistent s' L /\ geo s' = geo s /\
    nodes_kept (mount s) (mount s') /\ (forall i, 0 <= i < total KInode s -> kbit KInode s' i = kbit KInode s i) /\
    ((r = - ENOSPC /\ (nslots s * block_size s < offset + zlen buffer \/ all_used KBlock s') /\
      forall i, L i -> inode s' i = inode s i /\ forall x, 0 <= x -> fbyte s' (inode s' i) x = fbyte s (inode s i) x) \/
     (r = zlen buffer /\ offset + zlen buffer <= nslots s * block_size s /\
      i_size (inode s' ino) = Z.max (i_size (inode s ino)) (offset + zlen buffer) /\
      (forall x, 0 <= x -> fbyte s' (inode s' ino) x =
         if (offset <=? x) && (x <? offset + zlen buffer) then byte buffer (x - offset) else fbyte s (inode s ino) x) /\
      others_kept L ino s s')).
Proof.
  intros H Hnode Hn Hi Hx Hb Hne Ho Hu ino. fold ino in Hi, Hx.
  pose proof (files_ready _ _ _ H) as Hr. destruct (bs_pos s Hr) as (Hbs & _ & HP). pose proof (zlen_nonneg buffer).
  assert (0 < zlen buffer) as Hz by (destruct buffer; [done|unfold zlen; cbn; lia]).
  assert (0 <= offset / block_size s <= (offset + zlen buffer - 1) / block_size s) as Hfl
    by (split; [apply Z.div_pos|apply Z.div_le_mono]; lia).
  assert ((offset + zlen buffer - 1) / block_size s < U32) as Hll by (apply Z.div_lt_upper_bound; lia).
  unfold ext2_vfs_write. destruct (Z.eqb_spec node 0); [done|]. destruct (Z.eqb_spec (zlen buffer) 0); [lia|]. cbn [orb].
  run (ld_node_ok s node n Hn). fold ino.
  run (read_inode_ok s ino (al_layout s (f_alloc _ _ _ H)) (f_valid _ _ _ H ino Hi)). cbn [Z.eqb negb]. rewrite Hx. run_get.
  unwrap. unfold wrap32. rewrite !Z.mod_small by lia.
  destruct (ensure_range_ok L (inode s) ino s (inode s ino) (offset / block_size s)
    ((offset + zlen buffer - 1) / block_size s + 1)) as (ok & v1 & s1 & E1 & Hg & Hok);
    [done|by apply consistent_view|lia|].
  run E1. destruct ok; cbn [negb]; cycle 1.
  { destruct (grew_disk s L ino s1 v1 H Hg) as [Hc Hsame]. exists (- ENOSPC), s1.
    split_and!; [done|done|apply Hg|by rewrite (same_mount _ _ (g_same _ _ _ _ _ _ _ Hg))|apply Hg|]. left.
    split_and!; [done| |done]. destruct Hok as [Hlen|?]; [left|by right].
    pose proof (Z.div_mod (offset + zlen buffer - 1) (block_size s)).
    assert (0 <= (offset + zlen buffer - 1) mod block_size s) by (apply Z.mod_pos_bound; lia). nia. }
  destruct Hok as [Hp Hlast]. specialize (Hlast ltac:(lia)). destruct Hg as [[Hm1 _ _] Hs1 Hin1 Hat Hmem _ _ Hkb1].
  destruct (put_inode_files s1 (inode s) L ino v1 Hm1 Hi) as (E2 & Hf2 & Hs2 & Hin2 & Hby2 & Hpt2 & Hkb2).
  run E2. set (s2 := put_inode ino v1 s1) in *. pose proof (files_ready _ _ _ Hf2) as Hr2. run (kmalloc_ok s2 Hr2). cbn [negb].
  assert (block_size s2 = block_size s) as Hb2 by by rewrite (same_geo _ _ Hs2), (same_geo _ _ Hs1).
  assert (rounds s (zlen buffer) = rounds s2 (zlen buffer)) as -> by (unfold rounds; by rewrite Hb2).
  destruct (write_data_ok s2 (inode s) L ino v1 node n offset buffer Hf2) as
    (s3 & s' & E3 & E4 & Hc & Hg4 & Hsz & Hbytes & Hoth & Hnk & Hkb); try done.
  - intros i Hv. rewrite (valid_same s1 s2) in Hv by done. rewrite Hin2 by done. rewrite (valid_same s s1) in Hv by done.
    rewrite Hin1 by done. done.
  - by rewrite (same_mount _ _ Hs2), (same_mount _ _ Hs1).
  - intros lb Hlb. rewrite Hb2 in Hlb. rewrite <- (iupd_eq (inode s) ino v1), Hpt2, iupd_eq by done. apply Hp. lia.
  - run E3. cbn [Z.eqb negb]. run E4. pose proof (last_block s offset (zlen buffer) Hr Ho Hz ltac:(lia)) as Hmax.
    assert (nslots s * block_size s < 2147483648) by (unfold nslots; nia).
    rewrite sint32_small by lia. exists (zlen buffer), s'.
    split_and!; [done|done|by rewrite Hg4, (same_geo _ _ Hs2), (same_geo _ _ Hs1)| | |right; split_and!; [done|done| | |]].
    + by rewrite (same_mount _ _ Hs2), (same_mount _ _ Hs1) in Hnk.
    + intros i Hir. assert (0 <= i < total KInode s1) as Hir1 by by rewrite (total_same _ s s1 Hs1).
      rewrite Hkb, Hkb2, Hkb1; [done|done|done|]. by rewrite (total_same _ s1 s2 Hs2).
    + rewrite Hsz. unfold i_size. by rewrite Hat by lia.
    + intros x Hx'. rewrite Hbytes by done. rewrite Hby2, Hmem by done.
      rewrite iupd_eq. repeat case_bool_decide; bools; try lia; done.
    + intros i Hii Hne'. rewrite Hoth by done. split; [done|]. intros x Hx'.
      pose proof (Hbytes i x Hii Hx') as E. rewrite Hoth in E by done. rewrite E, bool_decide_eq_false_2 by tauto.
      by rewrite Hby2, Hmem, iupd_ne by done.
Qed.

(** Reading a file that is in order returns its bytes, up to its size. *)
Lemma vfs_read_spec s L node n offset size :
  consistent s L -> node <> 0 -> nodes (mount s) !! node = Some n -> L (ext2_node_ino n) -> 0 <= offset -> 0 < size ->
  let v := inode s (ext2_node_ino n) in
  ext2_vfs_read node offset size s =
    Some (if offset <? i_size v
          then let k := Z.min size (i_size v - offset) in (sint32 k, content s v offset k) else (0, []), s).
Proof.
  intros H Hnode Hn Hi Ho Hs v. pose proof (files_ready _ _ _ H) as Hr. pose proof (f_inode _ _ _ H _ Hi) as [_ Hb].
  assert (i_size v < U32) as Hsz by apply (ld_range 4 4 v Hb).
  unfold ext2_vfs_read. destruct (Z.eqb_spec node 0); [done|]. destruct (Z.eqb_spec size 0); [lia|]. cbn [orb].
  run (ld_node_ok s node n Hn).
  run (read_inode_ok s _ (al_layout s (f_alloc _ _ _ H)) (f_valid _ _ _ H _ Hi)). cbn [Z.eqb negb]. fold v.
  destruct (Z.leb_spec (i_size v) offset), (Z.ltb_spec offset (i_size v)); try lia; [done|].
  run (kmalloc_ok s Hr). cbn [negb]. run_get.
  assert ((if i_size v - offset <? size then i_size v - offset else size) = Z.min size (i_size v - offset)) as -> by (bools; lia).
  set (k := Z.min size (i_size v - offset)).
  run (read_loop_ok s (inode s) L (ext2_node_ino n) (rounds s k) offset k [] H Hi Ho ltac:(lia) ltac:(lia)
    (enough_rounds s offset k Hr ltac:(lia))). done.
Qed.

(** ** Releasing blocks *)

(** Freeing the block of one pointer: the other pointers keep theirs. *)
Lemma files_free s J L ino kk :
  files s J L -> L ino -> is_slot s kk -> slot s (J ino) kk <> 0 ->
  exists s1, free_block (slot s (J ino) kk) s = Some (tt, s1) /\ moved (fun _ => False) KBlock (slot s (J ino) kk) false s s1 /\
    (forall i k, L i -> is_slot s k -> slot s (J i) k <> 0 -> ~ (i = ino /\ k = kk) -> usable s1 (slot s (J i) k)) /\
    (forall i k, L i -> is_slot s k -> slot s (J i) k <> 0 -> blk s1 (slot s (J i) k) = blk s (slot s (J i) k)).
Proof.
  intros H Hi Hk Hn. pose proof (f_alloc _ _ _ H) as Ha. destruct (f_usable _ _ _ H ino kk Hi Hk Hn) as (Hb & Hbit & Hrel).
  destruct (free_block_spec s (slot s (J ino) kk) Ha ltac:(lia)) as [_ Hf].
  destruct (Hf ltac:(lia) Hbit Hrel) as (s1 & E & Hm). exists s1. split_and!; [done|done| |].
  - intros i k Hii Hkk Hnn Hne. pose proof (f_usable _ _ _ H i k Hii Hkk Hnn) as Hu.
    apply (usable_keeps (fun _ => False) s); [done|apply Hm| |done]. destruct Hu as (? & ? & _).
    rewrite (moved_bits _ _ _ _ _ _ Hm) by lia. rewrite bool_decide_eq_false_2; [done|]. intros [_ E']. apply Hne.
    by apply (f_inj _ _ _ H).
  - intros i k Hii Hkk Hnn. apply (keeps_blk _ _ _ (moved_keeps _ _ _ _ _ _ Hm)); [|tauto].
    by apply usable_not_book, (f_usable _ _ _ H).
Qed.

(** The logical blocks [lo, hi) of file [ino] have been released. *)
Record shrunk (L : Z -> Prop) (I : Z -> list Z) (ino lo hi : Z) (s : ext2_fs) (v : list Z) (s' : ext2_fs) (v' : list Z) : Prop := {
  sh_files : files s' (iupd I ino v') L;
  sh_same : same s s';
  sh_attrs : same_attrs v v';
  sh_inode : forall i, valid_ino s i -> inode s' i = inode s i;
  sh_ptr : forall lb, 0 <= lb -> ptr s' v' lb = if (lo <=? lb) && (lb <? hi) then 0 else ptr s v lb;
  sh_other : forall i k, L i -> i <> ino -> 0 <= k -> ptr s' (I i) k = ptr s (I i) k;
  sh_blk : forall i k, L i -> 0 <= k -> ptr s' (iupd I ino v' i) k <> 0 ->
    blk s' (ptr s' (iupd I ino v' i) k) = blk s (ptr s' (iupd I ino v' i) k);
  sh_free : forall lb, lo <= lb < hi -> 0 <= lb -> ptr s v lb <> 0 -> kbit KBlock s' (ptr s v lb) = false;
  sh_mono : forall b, 0 <= b < total KBlock s -> kbit KBlock s b = false -> kbit KBlock s' b = false;
}.

(** A released pointer and the bits: only the freed block's bit is cleared. *)
Lemma freed_mono s s1 b : moved (fun _ => False) KBlock b false s s1 ->
  forall j, 0 <= j < total KBlock s -> kbit KBlock s j = false -> kbit KBlock s1 j = false.
Proof. intros Hm j Hj Hk. rewrite (moved_bits _ _ _ _ _ _ Hm) by done. by case_bool_decide. Qed.

Lemma freed_bit s s1 b : moved (fun _ => False) KBlock b false s s1 -> 0 <= b < total KBlock s -> kbit KBlock s1 b = false.
Proof. intros Hm Hb. rewrite (moved_bits _ _ _ _ _ _ Hm) by done. by rewrite bool_decide_eq_true_2. Qed.

Lemma freed_inodes s s1 b i : layout s -> moved (fun _ => False) KBlock b false s s1 -> valid_ino s i -> inode s1 i = inode s i.
Proof. intros Hl Hm Hv. apply (inode_keeps (fun _ => False)); [done|apply Hm|done|tauto]. Qed.

Lemma clear_inode_ptr s s1 v lb :
  same s s1 -> inode_bytes v -> 0 <= lb < 12 -> (i_block v 12 <> 0 -> blk s1 (i_block v 12) = blk s (i_block v 12)) ->
  forall k, 0 <= k -> ptr s1 (set_i_block lb 0 v) k = if k =? lb then 0 else ptr s v k.
Proof.
  intros Hs Hv Hlb Hb k Hk. rewrite <- (ptr_same s s1 v k Hs Hb). unfold ptr.
  rewrite (i_block_set v lb 12) by (done || lia). destruct (Z.eqb_spec 12 lb); [lia|].
  destruct (Z.ltb_spec k 12); [rewrite i_block_set by (done || lia)|]; destruct (Z.eqb_spec k lb); try done; lia.
Qed.

Section release.
Context (L : Z -> Prop) (I : Z -> list Z) (ino : Z) (Hino : L ino).
Implicit Types (s : ext2_fs) (v : list Z).

Lemma ptr_usable s J i k : files s J L -> L i -> 0 <= k -> ptr s (J i) k <> 0 -> is_slot s k /\ usable s (ptr s (J i) k).
Proof.
  intros H Hi Hk Hn. pose proof (ptr_range s (J i) k (files_ready _ _ _ H) Hn).
  assert (is_slot s k) as Hs by (split; lia). split; [done|]. rewrite <- slot_ptr in * by done. by apply (f_usable _ _ _ H).
Qed.

Lemma shrunk_refl s v lo : files s (iupd I ino v) L -> shrunk L I ino lo lo s v s v.
Proof.
  intros H. constructor; try done.
  - intros lb Hlb. destruct (Z.leb_spec lo lb), (Z.ltb_spec lb lo); try done; lia.
  - lia.
Qed.

Lemma shrunk_hole s v lb : files s (iupd I ino v) L -> ptr s v lb = 0 -> shrunk L I ino lb (lb + 1) s v s v.
Proof.
  intros H Hp. constructor; try done.
  - intros k Hk. destruct (Z.leb_spec lb k), (Z.ltb_spec k (lb + 1)); try done. cbn. by replace k with lb by lia.
  - intros k Hk _ Hn. replace k with lb in Hn by lia. done.
Qed.

Lemma shrunk_trans lo mid hi s1 v1 s2 v2 s3 v3 :
  lo <= mid <= hi -> files s1 (iupd I ino v1) L ->
  shrunk L I ino lo mid s1 v1 s2 v2 -> shrunk L I ino mid hi s2 v2 s3 v3 -> shrunk L I ino lo hi s1 v1 s3 v3.
Proof.
  intros Hle H1 [Hf Hs Ha Hi Hp Ho Hb Hfr Hm] [Hf' Hs' Ha' Hi' Hp' Ho' Hb' Hfr' Hm'].
  assert (forall lb, 0 <= lb -> ptr s1 v1 lb <> 0 -> 0 <= ptr s1 v1 lb < total KBlock s1) as Hrange.
  { intros lb Hlb Hn. pose proof (ptr_usable s1 (iupd I ino v1) ino lb H1 Hino Hlb) as Hu. rewrite iupd_eq in Hu.
    destruct (Hu Hn) as (_ & ? & _). lia. }
  constructor; try done.
  - by etrans.
  - by etrans.
  - intros i Hv. rewrite Hi', Hi; [done..|]. by rewrite (valid_same s1 s2).
  - intros lb Hlb. rewrite Hp', Hp by done. bools; try lia; done.
  - intros i k Hl Hne Hk. by rewrite Ho', Ho.
  - intros i k Hl Hk Hn. rewrite Hb' by done.
    assert (ptr s3 (iupd I ino v3 i) k = ptr s2 (iupd I ino v2 i) k) as E; [|rewrite E in *; by apply Hb].
    unfold iupd in *. destruct (Z.eqb_spec i ino) as [->|]; [|by apply Ho'].
    rewrite Hp' in * by done. by destruct (_ && _).
  - intros lb Hlb Hlb0 Hn. destruct (decide (lb < mid)).
    + apply Hm'; [rewrite (total_same _ s1 s2 Hs); by apply Hrange|]. by apply Hfr; [lia|..].
    + assert (ptr s2 v2 lb = ptr s1 v1 lb) as E by (rewrite Hp by done; bools; lia || done).
      rewrite <- E in *. by apply Hfr'; [lia|..].
  - intros b Hbt Hk. apply Hm'; [by rewrite (total_same _ s1 s2 Hs)|]. by apply Hm.
Qed.

(** The bytes of the files once blocks are released. *)
Lemma shrunk_bytes lo hi s v s' v' i x :
  files s (iupd I ino v) L -> shrunk L I ino lo hi s v s' v' -> L i -> 0 <= x ->
  fbyte s' (iupd I ino v' i) x =
    if bool_decide (i = ino /\ lo <= x / block_size s < hi) then 0 else fbyte s (iupd I ino v i) x.
Proof.
  intros H [Hf Hs Ha Hi Hp Ho Hb Hfr Hm] Hl Hx. pose proof (files_ready _ _ _ H) as Hr.
  destruct (bs_pos s Hr) as (Hbs & _). assert (0 <= x / block_size s) as Hlb by (apply Z.div_pos; lia).
  case_bool_decide as E.
  - destruct E as [-> E]. rewrite iupd_eq. unfold fbyte. rewrite (same_geo _ _ Hs), Hp by done. by bools; lia || done.
  - apply fbyte_step; [done|]. cbn zeta. left.
    assert (ptr s' (iupd I ino v' i) (x / block_size s) = ptr s (iupd I ino v i) (x / block_size s)) as Ep.
    { unfold iupd. destruct (Z.eqb_spec i ino) as [->|]; [|by apply Ho]. rewrite Hp by done.
      destruct (Z.leb_spec lo (x / block_size s)), (Z.ltb_spec (x / block_size s) hi); try done. exfalso. by apply E. }
    split; [done|]. rewrite <- Ep. by apply Hb.
Qed.

Lemma shrunk_add_blocks lo hi d s v s' v' :
  shrunk L I ino lo hi s v s' v' -> shrunk L I ino lo hi s v s' (add_i_blocks d v').
Proof.
  intros [Hf Hs Ha Hi Hp Ho Hb Hfr Hm]. pose proof (f_inode _ _ _ Hf ino Hino) as Hv. rewrite iupd_eq in Hv.
  assert (forall k, 0 <= k -> ptr s' (add_i_blocks d v') k = ptr s' v' k) as Hk.
  { intros k Hk. rewrite <- !slot_ptr by done. apply slots_add_blocks; [done|lia]. }
  constructor; try done.
  - by apply files_add_blocks.
  - etrans; [done|]. by apply same_attrs_blocks.
  - intros lb Hlb. rewrite Hk by done. by apply Hp.
  - intros i k Hl Hk0. specialize (Hb i k Hl Hk0). unfold iupd in *. destruct (i =? ino); [by rewrite Hk|done].
Qed.

Lemma release_direct s v lb :
  files s (iupd I ino v) L -> 0 <= lb < 12 -> ptr s v lb <> 0 ->
  exists s1, free_block (ptr s v lb) s = Some (tt, s1) /\ clear_ptr v lb s1 = Some ((0, set_i_block lb 0 v), s1) /\
    shrunk L I ino lb (lb + 1) s v s1 (set_i_block lb 0 v).
Proof.
  intros H Hlb Hp. pose proof (files_ready _ _ _ H) as Hr. pose proof (slot_m1 s Hr) as Hm1.
  pose proof (f_inode _ _ _ H ino Hino) as Hv. rewrite iupd_eq in Hv.
  assert (is_slot s lb) as Hsl by (destruct (bs_pos s Hr); unfold is_slot, nslots; lia).
  assert (slot s (iupd I ino v ino) lb = ptr s v lb) as Esl by (rewrite iupd_eq; apply slot_ptr; lia).
  pose proof (files_free s (iupd I ino v) L ino lb H Hino Hsl) as Hfree. rewrite Esl in Hfree.
  destruct (Hfree Hp) as (s1 & E & Hm & Hu & Hblk). assert (same s s1) as Hs by apply Hm.
  pose proof (Hblk ino (-1) Hino Hm1) as H12. rewrite iupd_eq in H12. change (slot s v (-1)) with (i_block v 12) in H12.
  pose proof (clear_inode_ptr s s1 v lb Hs Hv Hlb H12) as Hptr.
  assert (forall i k, L i -> i <> ino -> ptr s1 (I i) k = ptr s (I i) k) as Hoth.
  { intros i k Hi Hne. apply ptr_same; [done|]. intros Hn. pose proof (Hblk i (-1) Hi Hm1) as Hb.
    rewrite iupd_ne in Hb by done. by apply Hb. }
  assert (inode_bytes (set_i_block lb 0 v)) as Hv' by (apply inode_bytes_set_block; [done|lia]).
  exists s1. split_and!; [done|unfold clear_ptr; run_get; by destruct (Z.ltb_spec lb 12); [|lia]|]. constructor; try done.
  - apply (files_slot s s1 (iupd I ino v) _ L ino lb 0); [done..|apply Hm| | |done|by left].
    + intros i Hi. pose proof (f_inode _ _ _ H i Hi) as Hb. unfold iupd in *. by destruct (i =? ino).
    + intros i k Hi [Hk _]. unfold iupd. destruct (Z.eqb_spec i ino) as [->|Hne]; cycle 1.
      { rewrite bool_decide_eq_false_2 by tauto. unfold slot. destruct (k =? -1); [done|by apply Hoth]. }
      unfold slot. destruct (Z.eqb_spec k (-1)) as [->|].
      * rewrite i_block_set by (done || lia). rewrite bool_decide_eq_false_2 by lia. destruct (Z.eqb_spec 12 lb); [lia|done].
      * rewrite Hptr by lia. destruct (Z.eqb_spec k lb) as [->|]; case_bool_decide; tauto.
  - apply same_attrs_block; [done|lia].
  - intros i Hvi. apply (freed_inodes s s1 (ptr s v lb)); [apply al_layout, (f_alloc _ _ _ H)|done..].
  - intros k Hk. rewrite Hptr by done. destruct (Z.eqb_spec k lb), (Z.leb_spec lb k), (Z.ltb_spec k (lb + 1)); try done; lia.
  - intros i k Hi Hne _. by apply Hoth.
  - intros i k Hi Hk Hn. assert (ptr s1 (iupd I ino (set_i_block lb 0 v) i) k = ptr s (iupd I ino v i) k) as Ep.
    { unfold iupd in *. destruct (Z.eqb_spec i ino); [|by apply Hoth]. rewrite Hptr in * by done. by destruct (k =? lb). }
    rewrite Ep in *. destruct (ptr_usable s (iupd I ino v) i k H Hi Hk Hn) as [Hks _].
    rewrite <- slot_ptr in * by done. by apply Hblk.
  - intros k Hk Hk0 Hn. replace k with lb by lia. apply (freed_bit s s1 (ptr s v lb) Hm).
    pose proof (ptr_usable s (iupd I ino v) ino lb H Hino ltac:(lia)) as Hus. rewrite iupd_eq in Hus. destruct (Hus Hp) as (_ & ? & _). lia.
  - by apply (freed_mono s s1 (ptr s v lb)).
Qed.

(** Freeing a block named in the indirect block [q]. *)
Lemma free_entry s v lb :
  files s (iupd I ino v) L -> 12 <= lb -> ptr s v lb <> 0 ->
  let q := i_block v 12 in
  exists s1, free_block (ptr s v lb) s = Some (tt, s1) /\ moved (fun _ => False) KBlock (ptr s v lb) false s s1 /\
    q <> 0 /\ 0 <= lb - 12 < ptrs_per_block s /\ usable s1 q /\
    (forall i k, L i -> is_slot s k -> slot s (iupd I ino v i) k <> 0 -> ~ (i = ino /\ k = lb) ->
       usable s1 (slot s (iupd I ino v i) k)) /\
    (forall i k, L i -> is_slot s k -> slot s (iupd I ino v i) k <> 0 ->
       blk s1 (slot s (iupd I ino v i) k) = blk s (slot s (iupd I ino v i) k)) /\
    (forall i k, L i -> is_slot s k -> slot s (iupd I ino v i) k = q -> i = ino /\ k = -1).
Proof.
  intros H Hlb Hp q. pose proof (files_ready _ _ _ H) as Hr. pose proof (slot_m1 s Hr) as Hm1.
  pose proof (ptr_usable s (iupd I ino v) ino lb H Hino ltac:(lia)) as Hus. rewrite iupd_eq in Hus. destruct (Hus Hp) as [Hsl _].
  assert (q <> 0) as Hq0.
  { intros E. apply Hp. unfold ptr. fold q. rewrite E. destruct (Z.ltb_spec lb 12); [lia|]. by destruct (_ <? _). }
  assert (slot s (iupd I ino v ino) lb = ptr s v lb) as Esl by (rewrite iupd_eq; apply slot_ptr; lia).
  pose proof (files_free s (iupd I ino v) L ino lb H Hino Hsl) as Hfree. rewrite Esl in Hfree.
  destruct (Hfree Hp) as (s1 & E & Hm & Hu & Hblk). exists s1. split_and!; try done.
  - lia.
  - unfold is_slot, nslots in Hsl. lia.
  - pose proof (Hu ino (-1) Hino Hm1) as Hq. rewrite iupd_eq in Hq. apply Hq; [done|lia].
  - intros i k Hi Hk Eq. apply (f_inj _ _ _ H); try done; [by rewrite Eq|]. by rewrite Eq, iupd_eq.
Qed.

(** ... and clearing its entry. *)
Lemma release_entry s v lb :
  files s (iupd I ino v) L -> 12 <= lb -> ptr s v lb <> 0 ->
  let q := i_block v 12 in
  exists s1, free_block (ptr s v lb) s = Some (tt, s1) /\ q <> 0 /\ ready s1 /\ in_dev s1 q /\
    shrunk L I ino lb (lb + 1) s v (put q (st 4 (4 * (lb - 12)) 0 (blk s1 q)) s1) v.
Proof.
  intros H Hlb Hp q. pose proof (files_ready _ _ _ H) as Hr. pose proof (slot_m1 s Hr) as Hm1. destruct (bs_pos s Hr) as (Hbs & _ & HP).
  pose proof (f_inode _ _ _ H ino Hino) as Hv. rewrite iupd_eq in Hv.
  destruct (free_entry s v lb H Hlb Hp) as (s1 & E & Hm & Hq0 & Hidx & Hq1 & Hu & Hblk & Hqinj). fold q in Hq0, Hq1, Hqinj.
  assert (same s s1) as Hs by apply Hm. pose proof (moved_inv _ _ _ _ _ _ Hm) as Ha1. pose proof (lay_ready s1 (al_layout s1 Ha1)) as Hr1.
  pose proof (Hblk ino (-1) Hino Hm1) as H12. rewrite iupd_eq in H12. specialize (H12 Hq0). change (slot s v (-1)) with q in H12.
  set (s2 := put q (st 4 (4 * (lb - 12)) 0 (blk s1 q)) s1). assert (same s s2) as Hs2 by (etrans; [exact Hs|apply same_put]).
  destruct (install_slots_indirect s1 v (lb - 12) 0 Hr1 Hv Hq0) as [Hpt _];
    [unfold ptrs_per_block; by rewrite (same_geo _ _ Hs)|lia|]. fold q s2 in Hpt.
  assert (forall k, 0 <= k -> ptr s2 v k = if k =? lb then 0 else ptr s v k) as Hptr.
  { intros k Hk. rewrite Hpt by done. replace (12 + (lb - 12)) with lb by lia. destruct (k =? lb); [done|].
    apply ptr_same; [done|]. intros _. exact H12. }
  assert (forall i k, L i -> is_slot s k -> slot s (iupd I ino v i) k <> 0 -> ~ (i = ino /\ k = -1) ->
    blk s2 (slot s (iupd I ino v i) k) = blk s (slot s (iupd I ino v i) k)) as Hb2.
  { intros i k Hi Hk Hn Hne. unfold s2. rewrite blk_put_ne; [by apply Hblk|done|]. intros Eq. by apply Hne, Hqinj. }
  assert (forall i k, L i -> i <> ino -> ptr s2 (I i) k = ptr s (I i) k) as Hoth.
  { intros i k Hi Hne. apply ptr_same; [done|]. intros Hn. pose proof (Hb2 i (-1) Hi Hm1) as Hb. rewrite iupd_ne in Hb by done.
    apply Hb; [done|tauto]. }
  assert (~ book s1 q) as Hnb by by apply usable_not_book.
  destruct (blk_ok s1 q Hr1) as [Hl1 Hb1]. assert (block_size s1 = block_size s) as Hbse by by rewrite (same_geo _ _ Hs).
  exists s1. split_and!; [done|done|done|apply Hq1|]. fold s2. constructor; try done.
  - apply (files_slot s s2 (iupd I ino v) _ L ino lb 0); [done|done|unfold is_slot, nslots; lia|done| |apply (f_inode _ _ _ H)| | |by left].
    + apply alloc_inv_put; [done..|rewrite zlen_st; lia|by apply bytes_st].
    + intros i k Hi [Hk _]. unfold iupd. destruct (Z.eqb_spec i ino) as [->|Hne]; cycle 1.
      { rewrite bool_decide_eq_false_2 by tauto. unfold slot. destruct (k =? -1); [done|by apply Hoth]. }
      unfold slot. destruct (Z.eqb_spec k (-1)) as [->|]; [by rewrite bool_decide_eq_false_2 by lia|].
      rewrite Hptr by lia. destruct (Z.eqb_spec k lb) as [->|]; case_bool_decide; tauto.
    + intros i k Hi Hk Hn Hne. apply usable_put; [done..|by apply Hu].
  - intros i Hvi. transitivity (inode s1 i).
    + apply inode_put_ne; [done|]. intros Eb. assert (valid_ino s1 i) as Hv1 by by rewrite (valid_same s s1).
      destruct (ino_bounds s1 i (al_layout s1 Ha1) Hv1) as (_ & _ & Hmk & _). destruct Hq1 as (_ & _ & _ & _ & Hq1). by apply (Hq1 _ Hmk).
    + apply (freed_inodes s s1 (ptr s v lb)); [apply al_layout, (f_alloc _ _ _ H)|done..].
  - intros k Hk. rewrite Hptr by done. destruct (Z.eqb_spec k lb), (Z.leb_spec lb k), (Z.ltb_spec k (lb + 1)); try done; lia.
  - intros i k Hi Hne _. by apply Hoth.
  - intros i k Hi Hk Hn. assert (ptr s2 (iupd I ino v i) k = ptr s (iupd I ino v i) k) as Ep.
    { unfold iupd in *. destruct (Z.eqb_spec i ino); [|by apply Hoth]. rewrite Hptr in * by done. by destruct (k =? lb). }
    rewrite Ep in *. destruct (ptr_usable s (iupd I ino v) i k H Hi Hk Hn) as [Hks _].
    rewrite <- slot_ptr in * by done. apply Hb2; [done..|lia].
  - intros k Hk Hk0 Hn. replace k with lb by lia.
    pose proof (ptr_usable s (iupd I ino v) ino lb H Hino ltac:(lia)) as Hus. rewrite iupd_eq in Hus. destruct (Hus Hp) as (_ & ? & _).
    unfold s2. rewrite kbit_put; [|by apply al_layout|rewrite (total_same _ s s1 Hs); lia|done].
    apply (freed_bit s s1 (ptr s v lb) Hm). lia.
  - intros b Hbt Hk. unfold s2. rewrite kbit_put; [|by apply al_layout|by rewrite (total_same _ s s1 Hs)|done].
    by apply (freed_mono s s1 (ptr s v lb)).
Qed.

Lemma all_zero_spec n k b : all_zero n k b = true -> forall j, k <= j < k + Z.of_nat n -> ld 4 (4 * j) b = 0.
Proof.
  revert k; induction n as [|n IH]; intros k Hz j Hj; [lia|]. cbn [all_zero] in Hz.
  destruct (Z.eqb_spec (ld 4 (4 * k) b) 0) as [E|]; [|done]. cbn in Hz.
  destruct (decide (j = k)) as [->|]; [done|]. by apply (IH (k + 1)); [|lia].
Qed.

(** Freeing an indirect block without entries. *)
Lemma drop_indirect s v lb :
  files s (iupd I ino v) L -> i_block v 12 <> 0 ->
  all_zero (Z.to_nat (ptrs_per_block s)) 0 (blk s (i_block v 12)) = true ->
  exists s1, free_block (i_block v 12) s = Some (tt, s1) /\ shrunk L I ino lb lb s v s1 (set_i_block 12 0 v).
Proof.
  intros H Hq0 Hz. set (q := i_block v 12) in *. pose proof (files_ready _ _ _ H) as Hr. pose proof (slot_m1 s Hr) as Hm1.
  pose proof (f_inode _ _ _ H ino Hino) as Hv. rewrite iupd_eq in Hv.
  pose proof (files_free s (iupd I ino v) L ino (-1) H Hino Hm1) as Hfree. rewrite iupd_eq in Hfree.
  change (slot s v (-1)) with q in Hfree. destruct (Hfree Hq0) as (s1 & E & Hm & Hu & Hblk). assert (same s s1) as Hs by apply Hm.
  assert (inode_bytes (set_i_block 12 0 v)) as Hv' by by apply inode_bytes_set_block.
  assert (forall k, 0 <= k -> ptr s1 (set_i_block 12 0 v) k = ptr s v k) as Hptr.
  { intros k Hk. unfold ptr, ptrs_per_block. rewrite (same_geo _ _ Hs). rewrite (i_block_set v 12 12) by (done || lia). cbn [Z.eqb Pos.eqb].
    destruct (Z.ltb_spec k 12); [rewrite i_block_set by (done || lia); by destruct (Z.eqb_spec k 12); [lia|]|].
    destruct (Z.ltb_spec k (12 + block_size s / 4)); [|done]. fold q. destruct (Z.eqb_spec q 0); [done|].
    symmetry. apply (all_zero_spec _ _ _ Hz). unfold ptrs_per_block. lia. }
  assert (forall i k, L i -> i <> ino -> ptr s1 (I i) k = ptr s (I i) k) as Hoth.
  { intros i k Hi Hne. apply ptr_same; [done|]. intros Hn. pose proof (Hblk i (-1) Hi Hm1) as Hb.
    rewrite iupd_ne in Hb by done. by apply Hb. }
  exists s1. split; [done|]. constructor; try done.
  - apply (files_slot s s1 (iupd I ino v) _ L ino (-1) 0); [done..|apply Hm| | |done|by left].
    + intros i Hi. pose proof (f_inode _ _ _ H i Hi) as Hb. unfold iupd in *. by destruct (i =? ino).
    + intros i k Hi [Hk _]. unfold iupd. destruct (Z.eqb_spec i ino) as [->|Hne]; cycle 1.
      { rewrite bool_decide_eq_false_2 by tauto. unfold slot. destruct (k =? -1); [done|by apply Hoth]. }
      unfold slot. destruct (Z.eqb_spec k (-1)) as [->|].
      * rewrite i_block_set by (done || lia). by rewrite bool_decide_eq_true_2.
      * rewrite bool_decide_eq_false_2 by tauto. apply Hptr. lia.
  - by apply same_attrs_block.
  - intros i Hvi. apply (freed_inodes s s1 q); [apply al_layout, (f_alloc _ _ _ H)|done..].
  - intros k Hk. rewrite Hptr by done. destruct (Z.leb_spec lb k), (Z.ltb_spec k lb); try done; lia.
  - intros i k Hi Hne _. by apply Hoth.
  - intros i k Hi Hk Hn. assert (ptr s1 (iupd I ino (set_i_block 12 0 v) i) k = ptr s (iupd I ino v i) k) as Ep.
    { unfold iupd in *. destruct (Z.eqb_spec i ino); [by apply Hptr|by apply Hoth]. }
    rewrite Ep in *. destruct (ptr_usable s (iupd I ino v) i k H Hi Hk Hn) as [Hks _].
    rewrite <- slot_ptr in * by done. by apply Hblk.
  - lia.
  - by apply (freed_mono s s1 q).
Qed.

Lemma release_ok s v lb :
  files s (iupd I ino v) L -> 0 <= lb -> ptr s v lb <> 0 ->
  exists s1 v' s', free_block (ptr s v lb) s = Some (tt, s1) /\ clear_ptr v lb s1 = Some ((0, v'), s') /\
    shrunk L I ino lb (lb + 1) s v s' v'.
Proof.
  intros H Hlb Hp. destruct (decide (lb < 12)).
  { destruct (release_direct s v lb H ltac:(lia) Hp) as (s1 & E1 & E2 & Hsh). eauto 10. }
  destruct (release_entry s v lb H ltac:(lia) Hp) as (s1 & E & Hq & Hr1 & Hd & Hsh).
  set (q := i_block v 12) in *. set (s2 := put q (st 4 (4 * (lb - 12)) 0 (blk s1 q)) s1) in *.
  pose proof (sh_same _ _ _ _ _ _ _ _ _ Hsh) as Hs2. pose proof (sh_files _ _ _ _ _ _ _ _ _ Hsh) as Hf2.
  pose proof (files_ready _ _ _ H) as Hr. destruct (bs_pos s1 Hr1) as (? & _ & HP). destruct (blk_ok s1 q Hr1) as [Hl1 _].
  assert (blk s2 q = st 4 (4 * (lb - 12)) 0 (blk s1 q)) as Hb2.
  { apply blk_put_eq; [done|]. pose proof (ptr_range s v lb Hr Hp) as Hn. rewrite <- (nslots_same s s2 Hs2) in Hn.
    change (nslots s2) with (nslots s1) in Hn. unfold nslots in Hn. rewrite zlen_st; lia. }
  exists s1. unfold clear_ptr. destruct (Z.ltb_spec lb 12); [lia|].
  fold q. run_get. destruct (Z.eqb_spec q 0); [done|]. run (kmalloc_ok s1 Hr1). cbn [negb].
  run (read_block_ok s1 q Hr1 Hd). cbn [Z.eqb negb]. run (write_block_ok s1 q _ Hr1 Hd). fold s2. rewrite <- Hb2.
  destruct (all_zero _ _ _) eqn:Ez; [|eauto 10].
  destruct (drop_indirect s2 v (lb + 1) Hf2 Hq Ez) as (s3 & E3 & Hsh3). fold q in E3. run E3.
  eexists _, s3. split_and!; [done|done|]. apply shrunk_add_blocks. by apply (shrunk_trans lb (lb + 1) (lb + 1) s v s2 v); [lia|..].
Qed.

Lemma shrink_ok n s v lb :
  files s (iupd I ino v) L -> 0 <= lb ->
  exists v' s', shrink n v lb s = Some ((0, v'), s') /\ shrunk L I ino lb (lb + Z.of_nat n) s v s' v'.
Proof.
  revert s v lb; induction n as [|n IH]; intros s v lb H Hlb; cbn [shrink].
  { exists v, s. split; [done|]. rewrite Z.add_0_r. by apply shrunk_refl. }
  run_get. pose proof (bmap_ok s (iupd I ino v) L ino lb H Hino Hlb) as Eb. rewrite iupd_eq in Eb. run Eb.
  destruct (Z.eqb_spec (ptr s v lb) 0) as [E|E].
  - destruct (IH s v (lb + 1) H ltac:(lia)) as (v' & s' & E' & Hsh). exists v', s'. split; [done|].
    apply (shrunk_trans lb (lb + 1) _ s v s v); [lia|done|by apply shrunk_hole|].
    by replace (lb + Z.of_nat (S n)) with (lb + 1 + Z.of_nat n) by lia.
  - destruct (release_ok s v lb H Hlb E) as (s1 & v1 & s2 & E1 & E2 & Hsh1). run E1. run E2. cbn [Z.eqb negb].
    apply (shrunk_add_blocks _ _ (- (block_size s / 512))) in Hsh1.
    destruct (IH s2 _ (lb + 1) (sh_files _ _ _ _ _ _ _ _ _ Hsh1) ltac:(lia)) as (v' & s' & E' & Hsh).
    exists v', s'. split; [done|]. eapply (shrunk_trans lb (lb + 1)); [lia|exact H|exact Hsh1|].
    by replace (lb + Z.of_nat (S n)) with (lb + 1 + Z.of_nat n) by lia.
Qed.

End release.
(** ** [ext2_vfs_truncate] *)

Lemma set_size_ok s I L ino v node sz :
  files s (iupd I ino v) L -> (forall i, valid_ino s i -> i <> ino -> inode s i = I i) -> L ino -> 0 <= sz < U32 ->
  exists s', set_size node ino sz v s = Some (0, s') /\ consistent s' L /\ i_size (inode s' ino) = sz /\
    (forall i, L i -> i <> ino -> inode s' i = I i) /\
    (forall i x, L i -> 0 <= x -> fbyte s' (inode s' i) x = fbyte s (iupd I ino v i) x) /\
    (forall b, 0 <= b < total KBlock s -> kbit KBlock s' b = kbit KBlock s b).
Proof.
  intros H Hin Hi Hsz. pose proof (f_inode _ _ _ H ino Hi) as Hv. rewrite iupd_eq in Hv. pose proof (f_valid _ _ _ H) as Hvalid.
  set (w := set_i_mtime 0 (set_i_size sz v)).
  assert (inode_bytes w) as Hw by (by apply inode_bytes_st; [apply inode_bytes_st|..]).
  destruct (rewrite_inode_ok s I L ino v w H Hi Hw) as (s1 & E1 & Hf1 & Hs1 & Hin1 & Hb1 & _).
  { intros k Hk. unfold w, set_i_mtime, set_i_size. rewrite !i_block_st; try done; try lia. by apply inode_bytes_st. }
  unfold set_size. fold w. run E1. unfold st_node. run_get.
  destruct (sync_size_mount ino sz (i_mtime w) (on_nodes (alter (node_set_size sz) node) s1)) as [m Em]. run_get. rewrite Em.
  exists (set_mount m s1). assert (forall i, valid_ino s i -> inode (set_mount m s1) i = iupd I ino w i) as Hino.
  { intros i Hvi. transitivity (inode s1 i); [done|]. rewrite Hin1 by done. unfold iupd.
    destruct (Z.eqb_spec i ino); [done|by apply Hin]. }
  split_and!; [done| | | | |].
  - apply (files_ext L _ (iupd I ino w)); [intros i Hii; by apply Hino, Hvalid|by apply files_mount].
  - rewrite Hino, iupd_eq by by apply Hvalid. unfold i_size, w, set_i_mtime, set_i_size. destruct Hv as [Hl _].
    rewrite ld_st_apart, ld_st_eq by (rewrite ?zlen_st, ?Hl; lia). by apply Z.mod_small.
  - intros i Hii Hne. rewrite Hino by by apply Hvalid. by apply iupd_ne.
  - intros i x Hii Hx. rewrite Hino by by apply Hvalid. by apply Hb1.
  - intros b Hb. pose proof (write_inode_ok s ino w (al_layout s (f_alloc _ _ _ H)) (Hvalid ino Hi) (proj1 Hw)) as Ew.
    rewrite E1 in Ew. injection Ew as ->. change (kbit KBlock (put_inode ino w s) b = kbit KBlock s b).
    pose proof (al_layout s (f_alloc _ _ _ H)) as Hl. destruct (ino_bounds s ino Hl (Hvalid ino Hi)) as (_ & _ & Hmk & _).
    apply kbit_put; [done|done|by apply meta_book_not_table].
Qed.

(** The blocks a file of [sz] bytes reaches into. *)
Definition blocks_of (s : ext2_fs) (sz : Z) : Z := (sz + block_size s - 1) / block_size s.

Lemma resize_ok s L ino new_size :
  consistent s L -> L ino -> let v := inode s ino in
  0 <= new_size -> new_size + block_size s <= U32 -> i_size v + block_size s <= U32 ->
  let gone x := bool_decide (blocks_of s new_size <= x < blocks_of s (i_size v)) in
  exists rc v' s', resize_blocks v new_size s = Some ((rc, v'), s') /\
    ((rc = - ENOSPC /\ i_size v < new_size /\ (nslots s < blocks_of s new_size \/ all_used KBlock s') /\
      grew L (inode s) ino s v s' v') \/
     (rc = 0 /\ files s' (iupd (inode s) ino v') L /\ same s s' /\ (forall i, valid_ino s i -> inode s' i = inode s i) /\
      (forall i x, L i -> 0 <= x -> fbyte s' (iupd (inode s) ino v' i) x =
         if (i =? ino) && gone (x / block_size s) then 0 else fbyte s (inode s i) x) /\
      (forall lb, gone lb -> ptr s v lb <> 0 -> kbit KBlock s' (ptr s v lb) = false))).
Proof.
  intros H Hi v Hsz Hu Hu' gone. pose proof (files_ready _ _ _ H) as Hr. destruct (bs_pos s Hr) as (Hbs & _ & HP).
  pose proof (consistent_view s L ino H Hi) as Hview. pose proof (vw_mem _ _ _ _ _ Hview) as Hm. fold v in Hview, Hm.
  pose proof (f_inode _ _ _ H ino Hi) as [_ Hby]. assert (0 <= i_size v) as Hsv by apply (ld_range 4 4 v Hby).
  assert (forall sz, 0 <= sz -> sz + block_size s <= U32 -> 0 <= blocks_of s sz < U32) as Hbr.
  { intros sz ??. split; [apply Z.div_pos; lia|apply Z.div_lt_upper_bound; lia]. }
  pose proof (Hbr _ Hsz Hu) as Hnb. pose proof (Hbr _ Hsv Hu') as Hob.
  assert (forall i, iupd (inode s) ino v i = inode s i) as Hupd by (intros i; unfold iupd; by destruct (Z.eqb_spec i ino) as [->|]).
  unfold resize_blocks. run_get. unwrap. unfold wrap32. rewrite (Z.mod_small (i_size v + block_size s - 1)) by lia.
  fold (blocks_of s (i_size v)) (blocks_of s new_size). rewrite (Z.mod_small (blocks_of s new_size)) by done.
  destruct (Z.ltb_spec (i_size v) new_size) as [Hlt|Hge].
  - assert (blocks_of s (i_size v) <= blocks_of s new_size) by (apply Z.div_le_mono; lia).
    destruct (ensure_range_ok L (inode s) ino s v (blocks_of s (i_size v)) (blocks_of s new_size) Hi Hview ltac:(lia))
      as (ok & v' & s' & E & Hg & Hok).
    run E. exists (if ok then 0 else - ENOSPC), v', s'. split; [done|]. destruct ok; [right|by left; destruct Hok; auto].
    destruct Hg as [[Hm' _ _] Hs Hin Hat Hmem _ _]. split_and!; [done..| |].
    + intros i x Hii Hx. rewrite Hmem, Hupd by done. unfold gone. rewrite bool_decide_eq_false_2 by lia. by rewrite andb_false_r.
    + intros lb Hg%bool_decide_unpack. lia.
  - assert (blocks_of s new_size <= blocks_of s (i_size v)) by (apply Z.div_le_mono; lia).
    assert (exists n, blocks_of s new_size + Z.of_nat n = blocks_of s (i_size v) /\
      (if new_size <? i_size v then shrink (Z.to_nat (blocks_of s (i_size v) - blocks_of s new_size)) v (blocks_of s new_size)
       else ret (0, v)) s = shrink n v (blocks_of s new_size) s) as (n & En & ->).
    { destruct (Z.ltb_spec new_size (i_size v)); [eexists; split; [|done]; lia|].
      exists 0%nat. split; [|done]. replace new_size with (i_size v) by lia. lia. }
    destruct (shrink_ok L (inode s) ino Hi n s v (blocks_of s new_size) Hm ltac:(lia)) as (v' & s' & E & Hsh). rewrite En in Hsh.
    exists 0, v', s'. split; [done|]. right. split_and!; [done|apply Hsh..| |].
    + intros i x Hii Hx. rewrite (shrunk_bytes L (inode s) ino _ _ s v s' v' i x Hm Hsh Hii Hx), Hupd. unfold gone.
      destruct (Z.eqb_spec i ino); repeat case_bool_decide; try done; tauto.
    + intros lb Hg%bool_decide_unpack Hn. apply (sh_free _ _ _ _ _ _ _ _ _ Hsh); [done|lia|done].
Qed.

Lemma vfs_truncate_spec s L node n new_size :
  consistent s L -> node <> 0 -> nodes (mount s) !! node = Some n -> n_type n = VFS_FILE -> L (ext2_node_ino n) ->
  let ino := ext2_node_ino n in
  let v := inode s ino in
  EXTENTS_FL v = false -> 0 <= new_size -> new_size + block_size s <= U32 -> i_size v + block_size s <= U32 ->
  let gone x := bool_decide (blocks_of s new_size <= x < blocks_of s (i_size v)) in
  exists r s', ext2_vfs_truncate node new_size s = Some (r, s') /\ consistent s' L /\ others_kept L ino s s' /\
    ((r = - ENOSPC /\ i_size v < new_size /\ (nslots s < blocks_of s new_size \/ all_used KBlock s') /\ inode s' ino = v /\
      forall x, 0 <= x -> fbyte s' (inode s' ino) x = fbyte s v x) \/
     (r = 0 /\ i_size (inode s' ino) = new_size /\
      (forall x, 0 <= x -> fbyte s' (inode s' ino) x = if gone (x / block_size s) then 0 else fbyte s v x) /\
      (forall lb, gone lb -> ptr s v lb <> 0 -> kbit KBlock s' (ptr s v lb) = false))).
Proof.
  intros H Hnode Hn Hty Hi ino v Hx Hsz Hu Hu' gone. fold ino in Hi. pose proof (f_valid _ _ _ H) as Hvalid.
  unfold ext2_vfs_truncate. destruct (Z.eqb_spec node 0); [done|]. run (ld_node_ok s node n Hn). rewrite Hty. cbn [Z.eqb Pos.eqb negb].
  fold ino. run (read_inode_ok s ino (al_layout s (f_alloc _ _ _ H)) (Hvalid ino Hi)). cbn [Z.eqb negb]. fold v. rewrite Hx.
  destruct (resize_ok s L ino new_size H Hi Hsz Hu Hu') as (rc & v' & s1 & E & Hor). fold v in E, Hor. run E.
  destruct Hor as [(-> & Hlt & Hfull & Hg)|(-> & Hf & Hs & Hin & Hby & Hfree)]; cbn [Z.eqb negb].
  - destruct (grew_disk s L ino s1 v' H Hg) as [Hc Hsame]. exists (- ENOSPC), s1. split_and!; [done|done| |].
    + intros i Hii _. by apply Hsame.
    + left. destruct (Hsame ino Hi). auto.
  - pose proof (files_ready _ _ _ H) as Hr. destruct (bs_pos s Hr) as (? & _).
    destruct (set_size_ok s1 (inode s) L ino v' node new_size Hf) as (s' & E' & Hc & Hsz' & Hoth & Hby' & Hbit); [|done|lia|].
    { intros i Hv _. apply Hin. by rewrite (valid_same s s1) in Hv. }
    exists 0, s'. split_and!; [done|done| |right; split_and!; [done|done| |]].
    + intros i Hii Hne. rewrite Hoth by done. split; [done|]. intros x Hxx. pose proof (Hby' i x Hii Hxx) as Eb.
      rewrite Hoth in Eb by done. rewrite Eb, Hby by done. by destruct (Z.eqb_spec i ino).
    + intros x Hxx. rewrite Hby', Hby by done. by rewrite Z.eqb_refl.
    + intros lb Hg Hnz. rewrite Hbit; [by apply Hfree|]. rewrite (total_same _ s s1 Hs).
      assert (0 <= lb) by (apply bool_decide_unpack in Hg; unfold blocks_of in Hg; pose proof (Z.div_pos (new_size + block_size s - 1) (block_size s)); lia).
      destruct (ptr_usable L s (inode s) ino lb H Hi ltac:(lia) Hnz) as (_ & ? & _). unfold v. lia.
Qed.

(** ** Reclaiming an inode *)

(** The files other than the one being reclaimed, and the blocks [B k], for
    the positions [k] in [P], that are still to be freed. *)
Record pending (I : Z -> list Z) (L : Z -> Prop) (B : Z -> Z) (P : Z -> Prop) (s : ext2_fs) : Prop := {
  pd_files : files s I L;
  pd_usable : forall k, P k -> B k <> 0 -> usable s (B k) /\ unowned s I L (B k);
  pd_inj : forall k k', P k -> P k' -> B k <> 0 -> B k = B k' -> k = k';
}.
(** What freeing some of them leaves in place. *)
Record freed (I : Z -> list Z) (L : Z -> Prop) (s s' : ext2_fs) : Prop := {
  fr_same : same s s';
  fr_inode : forall i, valid_ino s i -> inode s' i = inode s i;
  fr_bytes : forall i x, L i -> 0 <= x -> fbyte s' (I i) x = fbyte s (I i) x;
  fr_blk : forall b, ~ book s b -> blk s' b = blk s b;
  fr_book : forall b, book s' b <-> book s b;
  fr_mono : forall b, 0 <= b < total KBlock s -> kbit KBlock s b = false -> kbit KBlock s' b = false;
  fr_ibit : forall i, 0 <= i < total KInode s -> kbit KInode s' i = kbit KInode s i;
}.

Section reclaim.
Context (I : Z -> list Z) (L : Z -> Prop) (B : Z -> Z).
Implicit Types (s : ext2_fs) (P : Z -> Prop).

Lemma freed_refl s : freed I L s s.
Proof. by constructor. Qed.

Lemma freed_trans s1 s2 s3 : freed I L s1 s2 -> freed I L s2 s3 -> freed I L s1 s3.
Proof.
  intros [Hs Hi Hby Hb Hk Hm Hib] [Hs' Hi' Hby' Hb' Hk' Hm' Hib']. constructor.
  - by etrans.
  - intros i Hv. rewrite Hi', Hi; [done..|]. by rewrite (valid_same s1 s2).
  - intros i x Hl Hx. by rewrite Hby', Hby.
  - intros b Hn. rewrite Hb', Hb; [done|done|]. by rewrite Hk.
  - intros b. by rewrite Hk', Hk.
  - intros b Hbt Hbit. apply Hm'; [by rewrite (total_same _ s1 s2 Hs)|]. by apply Hm.
  - intros i Ht. rewrite Hib', Hib; [done..|]. by rewrite (total_same _ s1 s2 Hs).
Qed.

Lemma free_pending s P k :
  pending I L B P s -> P k -> B k <> 0 ->
  exists s', free_block (B k) s = Some (tt, s') /\ pending I L B (fun j => P j /\ j <> k) s' /\ freed I L s s' /\
    kbit KBlock s' (B k) = false.
Proof.
  intros [H Hu Hinj] Hk Hn. pose proof (f_alloc _ _ _ H) as Ha. pose proof (files_ready _ _ _ H) as Hr.
  destruct (Hu k Hk Hn) as [(Hb & Hbit & Hrel) Hun].
  destruct (free_block_spec s (B k) Ha ltac:(lia)) as [_ Hf]. destruct (Hf ltac:(lia) Hbit Hrel) as (s' & E & Hm).
  assert (same s s') as Hs by apply Hm.
  assert (forall b, ~ book s b -> blk s' b = blk s b) as Hblk.
  { intros b Hnb. apply (keeps_blk _ _ _ (moved_keeps _ _ _ _ _ _ Hm)); [done|tauto]. }
  assert (forall b, usable s b -> b <> B k -> usable s' b) as Hkeep.
  { intros b Hub Hne. apply (usable_keeps (fun _ => False) s); [done|apply Hm| |done]. destruct Hub as (? & ? & _).
    rewrite (moved_bits _ _ _ _ _ _ Hm) by lia. rewrite bool_decide_eq_false_2; [done|tauto]. }
  assert (forall i, L i -> i_block (I i) 12 <> 0 -> blk s' (i_block (I i) 12) = blk s (i_block (I i) 12)) as H12.
  { intros i Hi Hnz. apply Hblk, usable_not_book. apply (f_usable _ _ _ H i (-1) Hi (slot_m1 s Hr) Hnz). }
  exists s'. split_and!; [done| | |].
  - constructor.
    + apply (files_step s); [done|done|apply Hm|done|]. intros i j Hi Hj Hnz. apply Hkeep; [by apply (f_usable _ _ _ H)|].
      by apply Hun.
    + intros j [Hj Hne] Hnz. destruct (Hu j Hj Hnz) as [Huj Hunj]. split; [apply Hkeep; [done|]|].
      * intros Eq. apply Hne. by apply Hinj.
      * intros i x Hi Hx. rewrite (is_slot_same s s' x Hs) in Hx. rewrite (slot_same s s'); [by apply Hunj|done|by apply H12].
    + intros j j' [Hj _] [Hj' _]. by apply Hinj.
  - constructor; try done.
    + intros i Hv. by apply (freed_inodes s s' (B k)); [apply al_layout|..].
    + intros i x Hi Hx. apply (files_fbyte_keep L s s' I); [done..|]. intros j Hj Hnz.
      by apply Hblk, usable_not_book, (f_usable _ _ _ H).
    + intros b. by apply (keeps_book (fun _ => False)), Hm.
    + by apply (freed_mono s s' (B k)).
    + intros i Hi. rewrite (moved_bits _ _ _ _ _ _ Hm) by done. by rewrite bool_decide_eq_false_2 by naive_solver.
  - apply (freed_bit s s' (B k) Hm). lia.
Qed.

Lemma pending_weaken s P Q : (forall k, Q k -> P k) -> pending I L B P s -> pending I L B Q s.
Proof. intros Hq [H Hu Hi]. constructor; [done|..]; eauto. Qed.

(** The direct blocks [k, k + n). *)
Lemma free_direct_ok n s P v k :
  pending I L B P s -> inode_bytes v -> 0 <= k -> k + Z.of_nat n <= 12 ->
  (forall j, k <= j < k + Z.of_nat n -> P j /\ B j = i_block v j) ->
  exists v' s', free_direct n v k s = Some (v', s') /\ inode_bytes v' /\
    pending I L B (fun j => P j /\ ~ (k <= j < k + Z.of_nat n)) s' /\ freed I L s s' /\
    (forall j, 0 <= j < 15 -> i_block v' j = if bool_decide (k <= j < k + Z.of_nat n) then 0 else i_block v j) /\
    (forall j, k <= j < k + Z.of_nat n -> B j <> 0 -> kbit KBlock s' (B j) = false).
Proof.
  revert s P v k; induction n as [|n IH]; intros s P v k Hp Hv Hk Hn Hb; cbn [free_direct].
  { exists v, s. split_and!; [done|done| |apply freed_refl| |lia].
    - apply (pending_weaken s P); [tauto|done].
    - intros j Hj. rewrite bool_decide_eq_false_2; [done|lia]. }
  destruct (Hb k ltac:(lia)) as [HPk HBk]. destruct (Z.eqb_spec (i_block v k) 0) as [E|E].
  - destruct (IH s P v (k + 1) Hp Hv ltac:(lia) ltac:(lia)) as (v' & s' & Er & Hv' & Hp' & Hf & Hi & Hfr).
    { intros j Hj. apply Hb. lia. }
    exists v', s'. split_and!; [done|done| |done| |].
    + destruct Hp' as [? Hu Hinj]. constructor; [done|..].
      * intros j [Hj Hnj] Hnz. apply Hu; [|done]. split; [done|lia].
      * intros j j' [Hj ?] [Hj' ?]. apply Hinj; split; done || lia.
    + intros j Hj. rewrite Hi by done. repeat case_bool_decide; try done; try lia. by replace j with k by lia.
    + intros j Hj Hnz. apply Hfr; [|done]. destruct (decide (j = k)) as [->|]; [congruence|lia].
  - rewrite <- HBk in E |- *. destruct (free_pending s P k Hp HPk E) as (s1 & E1 & Hp1 & Hf1 & Hbit1). run E1.
    assert (inode_bytes (set_i_block k 0 v)) as Hv1 by (apply inode_bytes_set_block; [done|lia]).
    destruct (IH s1 (fun j => P j /\ j <> k) (set_i_block k 0 v) (k + 1) Hp1 Hv1 ltac:(lia) ltac:(lia)) as
      (v' & s' & Er & Hv' & Hp' & Hf & Hi & Hfr).
    { intros j Hj. destruct (Hb j ltac:(lia)). rewrite i_block_set by (done || lia). destruct (Z.eqb_spec j k); [lia|].
      split; [split; [done|lia]|done]. }
    exists v', s'. split_and!; [done|done| |by eapply freed_trans| |].
    + apply (pending_weaken s' (fun j => (P j /\ j <> k) /\ ~ (k + 1 <= j < k + 1 + Z.of_nat n))); [|done].
      intros j [Hj Hnj]. split; [split; [done|]|]; lia.
    + intros j Hj. rewrite Hi by done. rewrite i_block_set by (done || lia).
      repeat case_bool_decide; destruct (Z.eqb_spec j k); try done; lia.
    + intros j Hj Hnz. destruct (decide (j = k)) as [->|]; [|apply Hfr; [lia|done]].
      apply (fr_mono _ _ _ _ Hf); [|done]. destruct (pd_usable _ _ _ _ _ Hp k HPk E) as [(? & _) _].
      rewrite (total_same _ s s1 (fr_same _ _ _ _ Hf1)). lia.
Qed.

(** The blocks named by the entries [k, k + n) of an indirect block. *)
Lemma free_entries_ok n s P indirect k :
  pending I L B P s -> (forall j, k <= j < k + Z.of_nat n -> P (12 + j) /\ B (12 + j) = ld 4 (4 * j) indirect) ->
  exists s', free_entries n indirect k s = Some (tt, s') /\
    pending I L B (fun j => P j /\ ~ (12 + k <= j < 12 + k + Z.of_nat n)) s' /\ freed I L s s' /\
    (forall j, 12 + k <= j < 12 + k + Z.of_nat n -> B j <> 0 -> kbit KBlock s' (B j) = false).
Proof.
  revert s P k; induction n as [|n IH]; intros s P k Hp Hb; cbn [free_entries].
  { exists s. split_and!; [done| |apply freed_refl|lia]. apply (pending_weaken s P); [tauto|done]. }
  destruct (Hb k ltac:(lia)) as [HPk HBk].
  assert (exists s1, (if ld 4 (4 * k) indirect =? 0 then ret tt else free_block (ld 4 (4 * k) indirect)) s = Some (tt, s1) /\
    pending I L B (fun j => P j /\ j <> 12 + k) s1 /\ freed I L s s1 /\ (B (12 + k) <> 0 -> kbit KBlock s1 (B (12 + k)) = false))
    as (s1 & E1 & Hp1 & Hf1 & Hbit1).
  { rewrite <- HBk. destruct (Z.eqb_spec (B (12 + k)) 0) as [E|E].
    - exists s. split_and!; [done| |apply freed_refl|done]. apply (pending_weaken s P); [tauto|done].
    - destruct (free_pending s P (12 + k) Hp HPk E) as (s1 & ? & ? & ? & ?). eauto 10. }
  run E1. destruct (IH s1 (fun j => P j /\ j <> 12 + k) (k + 1) Hp1) as (s' & E & Hp' & Hf & Hfr).
  { intros j Hj. destruct (Hb j ltac:(lia)). split; [split; [done|lia]|done]. }
  exists s'. split_and!; [done| |by eapply freed_trans|].
  - apply (pending_weaken s' (fun j => (P j /\ j <> 12 + k) /\ ~ (12 + (k + 1) <= j < 12 + (k + 1) + Z.of_nat n))); [|done].
    intros j [Hj Hnj]. split; [split; [done|]|]; lia.
  - intros j Hj Hnz. destruct (decide (j = 12 + k)) as [->|]; [|apply Hfr; [lia|done]].
    apply (fr_mono _ _ _ _ Hf); [|by apply Hbit1]. destruct (pd_usable _ _ _ _ _ Hp (12 + k) HPk Hnz) as [(? & _) _].
    rewrite (total_same _ s s1 (fr_same _ _ _ _ Hf1)). lia.
Qed.

Definition is_symlink (v : list Z) : bool := Z.land (i_mode v) EXT2_S_IFMT =? EXT2_S_IFLNK.

Lemma free_contents_ok s v :
  inode_bytes v -> is_symlink v = false -> pending I L B (is_slot s) s -> (forall k, is_slot s k -> B k = slot s v k) ->
  exists v' s', free_contents v s = Some ((0, v'), s') /\ inode_bytes v' /\ files s' I L /\ freed I L s s' /\
    (forall j, 0 <= j <= 12 -> i_block v' j = 0) /\
    (forall k, is_slot s k -> B k <> 0 -> kbit KBlock s' (B k) = false).
Proof.
  intros Hv Hsym Hp HB. pose proof (files_ready _ _ _ (pd_files _ _ _ _ _ Hp)) as Hr. destruct (bs_pos s Hr) as (? & _ & HP).
  pose proof (slot_m1 s Hr) as Hm1. unfold free_contents. run_get. unfold is_symlink in Hsym. rewrite Hsym.
  destruct (free_direct_ok 12 s (is_slot s) v 0 Hp Hv ltac:(lia) ltac:(lia)) as (v1 & s1 & E1 & Hv1 & Hp1 & Hf1 & Hi1 & Hfr1).
  { intros j Hj. assert (is_slot s j) as Hsl by (unfold is_slot, nslots; lia). split; [done|]. rewrite HB, slot_ptr by (done || lia).
    unfold ptr. by destruct (Z.ltb_spec j 12); [|lia]. }
  run E1. change (Z.of_nat 12) with 12 in *.
  assert (i_block v1 12 = i_block v 12) as Eq by (rewrite Hi1 by lia; by rewrite bool_decide_eq_false_2 by lia).
  rewrite Eq. destruct (Z.eqb_spec (i_block v 12) 0) as [E|E].
  { exists v1, s1. split_and!; [done|done|apply Hp1|done| |].
    - intros j Hj. rewrite Hi1 by lia. case_bool_decide; [done|]. by replace j with 12 by lia.
    - intros k Hk Hn. destruct (decide (0 <= k < 12)); [by apply Hfr1|]. exfalso. apply Hn. rewrite HB by done. unfold slot, ptr.
      destruct (Z.eqb_spec k (-1)); [done|]. destruct Hk. destruct (Z.ltb_spec k 12); [lia|]. rewrite E. by destruct (_ <? _). }
  assert (slot s v (-1) = i_block v 12) as Esl by done. pose proof (HB (-1) Hm1) as EB. rewrite Esl in EB.
  destruct (pd_usable _ _ _ _ _ Hp (-1) Hm1) as [Huq _]; [congruence|].
  destruct (pd_usable _ _ _ _ _ Hp1 (-1)) as [Huq1 _]; [split; [done|lia]|congruence|]. rewrite EB in Huq, Huq1.
  pose proof (files_ready _ _ _ (pd_files _ _ _ _ _ Hp1)) as Hr1. pose proof (fr_same _ _ _ _ Hf1) as Hs1.
  destruct Huq1 as (_ & _ & _ & Hd1 & _). run (kmalloc_ok s1 Hr1). cbn [negb]. run (read_block_ok s1 _ Hr1 Hd1). cbn [Z.eqb negb].
  rewrite (fr_blk _ _ _ _ Hf1) by by apply usable_not_book.
  set (P1 := fun j => is_slot s j /\ ~ (0 <= j < 0 + 12)) in *.
  destruct (free_entries_ok (Z.to_nat (ptrs_per_block s)) s1 P1 (blk s (i_block v 12)) 0 Hp1) as (s2 & E2 & Hp2 & Hf2 & Hfr2).
  { intros j Hj. assert (is_slot s (12 + j)) as Hsl by (unfold is_slot, nslots; lia). split; [split; [done|lia]|].
    rewrite HB, slot_ptr by (done || lia). unfold ptr. destruct (Z.ltb_spec (12 + j) 12); [lia|].
    destruct (Z.ltb_spec (12 + j) (12 + ptrs_per_block s)); [|lia]. destruct (Z.eqb_spec (i_block v 12) 0); [done|].
    by replace (12 + j - 12) with j by lia. }
  run E2. set (P2 := fun j => P1 j /\ _) in *.
  destruct (free_pending s2 P2 (-1) Hp2) as (s3 & E3 & Hp3 & Hf3 & Hb3); [unfold P2, P1; split; [split; [done|lia]|lia]|congruence|].
  rewrite EB in E3. run E3. exists (set_i_block 12 0 v1), s3.
  split_and!; [done|by apply inode_bytes_set_block|apply Hp3|by eapply freed_trans; [|eapply freed_trans]| |].
  - intros j Hj. rewrite i_block_set by (done || lia). destruct (Z.eqb_spec j 12); [done|]. rewrite Hi1 by lia.
    by rewrite bool_decide_eq_true_2 by lia.
  - intros k Hk Hn. assert (freed I L s1 s3) as Hf13 by (by eapply freed_trans).
    destruct (pd_usable _ _ _ _ _ Hp k Hk Hn) as [(Hrange & _) _].
    pose proof (total_same KBlock s s1 Hs1) as Ht1. pose proof (total_same KBlock s1 s2 (fr_same _ _ _ _ Hf2)) as Ht2.
    destruct (decide (0 <= k < 12)) as [|Hk1]; [apply (fr_mono _ _ _ _ Hf13); [lia|by apply Hfr1]|].
    destruct (decide (k = -1)) as [->|]; [done|]. apply (fr_mono _ _ _ _ Hf3); [lia|]. apply Hfr2; [|done].
    unfold is_slot, nslots in Hk. lia.
Qed.

End reclaim.
Lemma alloc_inv_orphans s o : alloc_inv s -> alloc_inv (set_orphans o s).
Proof.
  intros [[[Hr ? ? ? ? ?] ? ? ? ? ? ?] ? ? ? ? ? ?].
  assert (ready (set_orphans o s)) by (destruct Hr; by constructor).
  assert (cached (set_orphans o s)) by by constructor.
  assert (layout (set_orphans o s)) by by constructor.
  by constructor.
Qed.

Lemma files_orphans s o I L : files s I L -> files (set_orphans o s) I L.
Proof. intros [Ha Hv Hb Hu Hinj]. constructor; try done. by apply alloc_inv_orphans. Qed.

(** Changing the bit of an inode leaves the files alone. *)
Lemma files_ibit s s' I L i v :
  files s I L -> moved (fun _ => False) KInode i v s s' ->
  files s' I L /\ (forall j, valid_ino s j -> inode s' j = inode s j) /\
  (forall j x, L j -> 0 <= x -> fbyte s' (I j) x = fbyte s (I j) x) /\
  (forall b, 0 <= b < total KBlock s -> kbit KBlock s' b = kbit KBlock s b).
Proof.
  intros H Hm. pose proof (files_ready _ _ _ H) as Hr. assert (same s s') as Hs by apply Hm. pose proof (f_alloc _ _ _ H) as Ha.
  assert (forall b, 0 <= b < total KBlock s -> kbit KBlock s' b = kbit KBlock s b) as Hb.
  { intros b Hb. rewrite (moved_bits _ _ _ _ _ _ Hm) by done. by rewrite bool_decide_eq_false_2 by naive_solver. }
  assert (forall j k, L j -> is_slot s k -> slot s (I j) k <> 0 -> blk s' (slot s (I j) k) = blk s (slot s (I j) k)) as Hblk.
  { intros j k Hj Hk Hn. apply (keeps_blk _ _ _ (moved_keeps _ _ _ _ _ _ Hm)); [|tauto].
    by apply usable_not_book, (f_usable _ _ _ H). }
  split_and!; [| | |done].
  - apply (files_step s); [done|done|apply Hm| |].
    + intros j Hj Hn. by apply (Hblk j (-1) Hj (slot_m1 s Hr)).
    + intros j k Hj Hk Hn. pose proof (f_usable _ _ _ H j k Hj Hk Hn) as Hu.
      apply (usable_keeps (fun _ => False) s); [done|apply Hm| |done]. destruct Hu as (? & ? & _). rewrite Hb by lia. done.
  - intros j Hv. apply (inode_keeps (fun _ => False)); [by apply al_layout|apply Hm|done|tauto].
  - intros j x Hj Hx. apply (files_fbyte_keep L s s' I); [done..|]. intros k Hk Hn. by apply Hblk.
Qed.

(** Writing the emptied inode, freeing its number and forgetting it. *)
Lemma retire_ok s I L ino w :
  files s I L -> ~ L ino -> valid_ino s ino -> inode_bytes w -> kbit KInode s (ino - 1) = true ->
  exists s', (ext2_write_inode ino w;;; free_inode ino;;; modify (ext2_clear_orphan_locked ino);;; ret 0) s = Some (0, s') /\
    files s' I L /\ kbit KInode s' (ino - 1) = false /\ orphans s' = orphans (ext2_clear_orphan_locked ino s) /\
    (forall i, valid_ino s i -> i <> ino -> inode s' i = inode s i) /\
    (forall i x, L i -> 0 <= x -> fbyte s' (I i) x = fbyte s (I i) x) /\
    (forall b, 0 <= b < total KBlock s -> kbit KBlock s' b = kbit KBlock s b) /\
    (forall j, 0 <= j < total KInode s -> j <> ino - 1 -> kbit KInode s' j = kbit KInode s j) /\
    geo s' = geo s /\ mount s' = mount s.
Proof.
  intros H HnL Hv [Hwl Hwb] Hbit. pose proof (f_alloc _ _ _ H) as Ha. pose proof (al_layout s Ha) as Hl. pose proof (lay_ready s Hl) as Hr.
  run (write_inode_ok s ino w Hl Hv Hwl). set (s2 := put_inode ino w s).
  destruct (ino_bounds s ino Hl Hv) as (_ & _ & Hm & _). destruct (put_inode_block s ino w Hl Hv Hwl Hwb) as [Hbl Hbb].
  assert (forall i k, L i -> is_slot s k -> slot s (I i) k <> 0 -> slot s (I i) k <> ino_block s ino) as Hne.
  { intros i k Hii Hk Hn Eq. destruct (f_usable _ _ _ H i k Hii Hk Hn) as (_ & _ & _ & _ & Hq). by apply (Hq _ Hm). }
  assert (files s2 I L) as Hf2.
  { apply files_put; [done|by apply meta_book_not_table|done..|]. intros i Hii. by apply (Hne i (-1) Hii (slot_m1 s Hr)). }
  assert (forall k j, 0 <= j < total k s -> kbit k s2 j = kbit k s j) as Hk2.
  { intros k j Hj. by apply kbit_put; [|done|apply meta_book_not_table]. }
  assert (0 <= ino - 1 < total KInode s) as Hin by (unfold total; cbn; destruct Hv; lia).
  destruct (free_inode_spec s2 ino) as (s3 & E3 & Hm3); [apply (f_alloc _ _ _ Hf2)|done|by rewrite Hk2|].
  destruct (files_ibit s2 s3 I L (ino - 1) false Hf2 Hm3) as (Hf3 & Hi3 & Hb3 & Hk3).
  run E3. run_get. exists (ext2_clear_orphan_locked ino s3). unfold ext2_clear_orphan_locked.
  assert (orphans s3 = orphans s) as Ho by (by rewrite (same_orphans _ _ (keeps_same _ _ _ (moved_keeps _ _ _ _ _ _ Hm3)))).
  destruct (Z.eqb_spec ino 0); [destruct Hv; lia|]. split_and!; [done|by apply files_orphans| |by cbn; rewrite Ho|..].
  - change (kbit KInode s3 (ino - 1) = false). rewrite (moved_bits _ _ _ _ _ _ Hm3) by done. by rewrite bool_decide_eq_true_2.
  - intros i Hvi Hni. change (inode s3 i = inode s i). rewrite Hi3 by done. unfold s2. rewrite inode_put_inode by done.
    by destruct (Z.eqb_spec i ino).
  - intros i x Hii Hx. change (fbyte s3 (I i) x = fbyte s (I i) x). rewrite Hb3 by done.
    apply (files_fbyte_keep L s s2 I); [done..|]. intros k Hk Hn. apply blk_put_ne; [done|by apply Hne].
  - intros b Hb. change (kbit KBlock s3 b = kbit KBlock s b). by rewrite Hk3, Hk2.
  - intros j Hj Hne'. change (kbit KInode s3 j = kbit KInode s j). rewrite (moved_bits _ _ _ _ _ _ Hm3) by done.
    rewrite bool_decide_eq_false_2 by tauto. by apply Hk2.
  - apply (same_geo _ _ (keeps_same _ _ _ (moved_keeps _ _ _ _ _ _ Hm3))).
  - apply (same_mount _ _ (keeps_same _ _ _ (moved_keeps _ _ _ _ _ _ Hm3))).
Qed.

Lemma reclaim_pending s L ino :
  consistent s L -> L ino ->
  pending (inode s) (fun i => L i /\ i <> ino) (slot s (inode s ino)) (is_slot s) s.
Proof.
  intros H Hi. constructor.
  - destruct H as [? Hvd Hib Hus Hinj]. constructor; [done|intros i [? _]; auto..| |].
    + intros i k [? _]. by apply Hus.
    + intros i k i' k' [? _] [? _]. by apply Hinj.
  - intros k Hk Hn. split; [by apply (f_usable _ _ _ H)|]. intros i j [Hii Hne] Hj Eq. apply Hne.
    apply (f_inj _ _ _ H i j ino k); try done. by rewrite Eq.
  - intros k k' Hk Hk' Hn Eq. by apply (f_inj _ _ _ H ino k ino k').
Qed.

Lemma reclaim_spec s L ino :
  consistent s L -> L ino -> is_symlink (inode s ino) = false -> kbit KInode s (ino - 1) = true ->
  let rest i := L i /\ i <> ino in
  exists s', ext2_reclaim_orphan_inode_locked ino s = Some (0, s') /\ consistent s' rest /\ others_kept L ino s s' /\
    kbit KInode s' (ino - 1) = false /\ orphans s' = orphans (ext2_clear_orphan_locked ino s) /\
    (forall k, is_slot s k -> slot s (inode s ino) k <> 0 -> kbit KBlock s' (slot s (inode s ino) k) = false) /\
    (forall j, 0 <= j < total KInode s -> j <> ino - 1 -> kbit KInode s' j = kbit KInode s j) /\
    geo s' = geo s /\ mount s' = mount s.
Proof.
  intros H Hi Hsym Hbit rest. pose proof (al_layout s (f_alloc _ _ _ H)) as Hl. pose proof (f_valid _ _ _ H) as Hvalid.
  pose proof (f_inode _ _ _ H ino Hi) as Hv. set (v := inode s ino) in *.
  destruct (free_contents_ok (inode s) rest (slot s v) s v Hv Hsym (reclaim_pending s L ino H Hi) ltac:(done))
    as (v1 & s1 & E1 & Hv1 & Hf1 & Hfr1 & Hz1 & Hb1).
  unfold ext2_reclaim_orphan_inode_locked. destruct (Z.eqb_spec ino 0) as [->|Hn0]; [destruct (Hvalid 0 Hi); lia|].
  run (read_inode_ok s ino Hl (Hvalid ino Hi)). cbn [Z.eqb negb]. fold v. run E1. cbn [Z.eqb negb].
  pose proof (fr_same _ _ _ _ Hfr1) as Hs1. assert (0 <= ino - 1 < total KInode s) as Hin by (destruct (Hvalid ino Hi); unfold total; cbn; lia).
  destruct (retire_ok s1 (inode s) rest ino (set_i_size 0 (set_i_blocks 0 v1)) Hf1) as (s' & E2 & Hf2 & Hbit2 & Ho2 & Hi2 & Hby2 & Hk2 & Hib2 & Hg2 & Hm2).
  - by intros [_ ?].
  - rewrite (valid_same s s1) by done. by apply Hvalid.
  - by apply inode_bytes_st; [apply inode_bytes_st|..].
  - by rewrite (fr_ibit _ _ _ _ Hfr1).
  - assert (forall i, L i -> i <> ino -> inode s' i = inode s i) as Hkeep.
    { intros i Hii Hne. rewrite Hi2; [apply (fr_inode _ _ _ _ Hfr1); by apply Hvalid| |done].
      rewrite (valid_same s s1) by done. by apply Hvalid. }
    exists s'. split_and!; [exact E2| | |done| | | | |].
    + apply (files_ext rest s' (inode s)); [|done]. intros i [Hii Hne]. by apply Hkeep.
    + intros i Hii Hne. rewrite Hkeep by done. split; [done|]. intros x Hx. rewrite Hby2 by done.
      by apply (fr_bytes _ _ _ _ Hfr1).
    + rewrite Ho2. unfold ext2_clear_orphan_locked. destruct (ino =? 0); cbn; by rewrite (same_orphans _ _ Hs1).
    + intros k Hk Hn. rewrite Hk2; [by apply Hb1|]. rewrite (total_same _ s s1 Hs1).
      destruct (f_usable _ _ _ H ino k Hi Hk Hn) as (? & _). fold v in H0. lia.
    + intros j Hj Hne. rewrite Hib2; [by apply (fr_ibit _ _ _ _ Hfr1)| |done]. by rewrite (total_same _ s s1 Hs1).
    + by rewrite Hg2, (same_geo _ _ Hs1).
    + by rewrite Hm2, (same_mount _ _ Hs1).
Qed.

(** ** What file input and output promise *)

(** Reading through a node returns the bytes of the file from [offset] on,
    at most [size] of them and none past the end of the file, with holes as
    zeros, and changes nothing, when no [kmalloc] and no transfer fails. *)
Theorem ext2_read_correct s L node n offset size :
  consistent s L -> node <> 0 -> nodes (mount s) !! node = Some n -> L (ext2_node_ino n) -> 0 <= offset -> 0 < size ->
  let v := inode s (ext2_node_ino n) in
  ext2_vfs_read node offset size s =
    Some (if offset <? i_size v
          then let k := Z.min size (i_size v - offset) in (sint32 k, content s v offset k) else (0, []), s).
Proof. exact (vfs_read_spec s L node n offset size). Qed.

(** C20: Writing, when no [kmalloc] and no transfer fails, at least one byte in a
    range that ends below 4 GiB through a node of a file on a consistent volume.
    An inode with extents is refused with -EOPNOTSUPP and nothing changes.
    Otherwise either exactly the given bytes are stored at [offset], the size is
    extended when needed and every other byte of every file stays, or -ENOSPC is
    returned with every byte and inode of every file as it was, because the
    range passes the last block an inode can map or because no block is free;
    either way no block belongs to two files. *)
Theorem ext2_write_correct s L node n offset buffer :
  consistent (calm s) L -> no_failure s -> node <> 0 -> nodes (mount s) !! node = Some n -> L (ext2_node_ino n) ->
  bytes buffer -> buffer <> [] -> 0 <= offset -> offset + zlen buffer < U32 ->
  let ino := ext2_node_ino n in
  if EXTENTS_FL (inode s ino) then ext2_vfs_write node offset buffer s = Some (- EOPNOTSUPP, s)
  else exists r s', ext2_vfs_write node offset buffer s = Some (r, s') /\ consistent s' L /\
    ((r = - ENOSPC /\ (nslots s * block_size s < offset + zlen buffer \/ all_used KBlock s') /\
      forall i, L i -> inode s' i = inode s i /\ forall x, 0 <= x -> fbyte s' (inode s' i) x = fbyte s (inode s i) x) \/
     (r = zlen buffer /\ offset + zlen buffer <= nslots s * block_size s /\
      i_size (inode s' ino) = Z.max (i_size (inode s ino)) (offset + zlen buffer) /\
      (forall x, 0 <= x -> fbyte s' (inode s' ino) x =
         if (offset <=? x) && (x <? offset + zlen buffer) then byte buffer (x - offset) else fbyte s (inode s ino) x) /\
      others_kept L ino s s')).
Proof.
  intros H Hf Hnode Hn Hi Hb Hne Ho Hu ino. rewrite (calm_id s Hf) in H. destruct (EXTENTS_FL _) eqn:Hx.
  - unfold ext2_vfs_write. rewrite (proj2 (Z.eqb_neq _ _) Hnode), (proj2 (Z.eqb_neq (zlen buffer) 0)) by (destruct buffer; done).
    cbn [orb]. run (ld_node_ok s node n Hn). fold ino.
    run (read_inode_ok s ino (al_layout s (f_alloc _ _ _ H)) (f_valid _ _ _ H ino Hi)). cbn [Z.eqb negb]. by rewrite Hx.
  - destruct (vfs_write_spec s L node n offset buffer H Hnode Hn Hi Hx Hb Hne Ho Hu) as (r & s' & E & Hc & _ & _ & _ & Hor).
    by exists r, s'.
Qed.

(** C25: Truncating, when no [kmalloc] and no transfer fails, through a node on a
    consistent volume.  A node that is not a regular file is refused with
    -EISDIR and an inode with extents with -EOPNOTSUPP, and nothing changes.
    Otherwise, for an old and a new size that are each at least one block below
    4 GiB, the size is set; the bytes of the whole blocks past the new end
    become zero and their blocks are free again, and all other bytes of all
    files stay; growing a file without room returns -ENOSPC and leaves every
    byte as it was.  (The block count of a larger size wraps around, and blocks
    are lost, see [truncate_near_4gib_leaks].) *)
Theorem ext2_truncate_correct s L node n new_size :
  consistent (calm s) L -> no_failure s -> node <> 0 -> nodes (mount s) !! node = Some n -> L (ext2_node_ino n) ->
  let ino := ext2_node_ino n in
  let v := inode s ino in
  0 <= new_size -> new_size + block_size s <= U32 -> i_size v + block_size s <= U32 ->
  let gone x := bool_decide (blocks_of s new_size <= x < blocks_of s (i_size v)) in
  if negb (n_type n =? VFS_FILE) then ext2_vfs_truncate node new_size s = Some (- EISDIR, s)
  else if EXTENTS_FL v then ext2_vfs_truncate node new_size s = Some (- EOPNOTSUPP, s)
  else exists r s', ext2_vfs_truncate node new_size s = Some (r, s') /\ consistent s' L /\ others_kept L ino s s' /\
    ((r = - ENOSPC /\ i_size v < new_size /\ (nslots s < blocks_of s new_size \/ all_used KBlock s') /\ inode s' ino = v /\
      forall x, 0 <= x -> fbyte s' (inode s' ino) x = fbyte s v x) \/
     (r = 0 /\ i_size (inode s' ino) = new_size /\
      (forall x, 0 <= x -> fbyte s' (inode s' ino) x = if gone (x / block_size s) then 0 else fbyte s v x) /\
      (forall lb, gone lb -> ptr s v lb <> 0 -> kbit KBlock s' (ptr s v lb) = false))).
Proof.
  intros H Hf Hnode Hn Hi ino v Hsz Hu Hu' gone. rewrite (calm_id s Hf) in H.
  destruct (Z.eqb_spec (n_type n) VFS_FILE) as [Hty|Hty]; cbn [negb]; [destruct (EXTENTS_FL v) eqn:Hx|].
  - unfold ext2_vfs_truncate. rewrite (proj2 (Z.eqb_neq _ _) Hnode). run (ld_node_ok s node n Hn). rewrite Hty. cbn [Z.eqb Pos.eqb negb].
    fold ino. run (read_inode_ok s ino (al_layout s (f_alloc _ _ _ H)) (f_valid _ _ _ H ino Hi)). cbn [Z.eqb negb]. fold v. by rewrite Hx.
  - by apply (vfs_truncate_spec s L node n new_size).
  - unfold ext2_vfs_truncate. rewrite (proj2 (Z.eqb_neq _ _) Hnode). run (ld_node_ok s node n Hn). by rewrite (proj2 (Z.eqb_neq _ _) Hty).
Qed.

End Ext2File.
