(* ===== verification/Ext2Mount.v ===== *)
(** Mounting an ext2 volume (src/kernel/fs/ext2.c: [ext2_init]): the superblock
    checks, the geometry and the descriptor table, and that a volume the driver
    has worked on mounts again as it was. *)

From stdpp Require Import base tactics numbers option gmap list.
From Stdlib Require Import ZArith Lia.
From S2P Require Import Prelude Bytes Ext2 Ext2Alloc Ext2File.

Module Ext2Mount.
Export Ext2File.

(** ** The code *)

(** [calloc]: an [ext2_fs_t] of zeros on the device. *)
Definition blank_fs (s : ext2_fs) : ext2_fs :=
  mk_fs (mk_geo 0 0 0 0 0 0 0 0) [] (zeros SB_SIZE) (replicate 64 (0, 0)) (dev s) (mount s) (outcomes s).
Definition set_geo (g : geometry) (s : ext2_fs) : ext2_fs :=
  mk_fs g (bgdesc_table s) (sb_raw s) (orphans s) (dev s) (mount s) (outcomes s).

Fixpoint read_bgdesc (n : nat) (i : Z) : M Z :=
  match n with
  | O => ret 0
  | S n =>
    s <- get;;
    rc & b <- ext2_read_block (wrap32 (bgdesc_block s + i));;
    if negb (rc =? 0) then ret (-1)
    else modify (fun s => set_table (bgdesc_table s ++ b) s);;; read_bgdesc n (i + 1)
  end.

(** A shift by 32 or more is undefined; dividing by a zero [blocks_per_group]
    or block size traps. *)
Definition ext2_init : M Z :=
  s <- get;;
  if negb (present (dev s)) then ret (-1)
  else
    ok <- kmalloc;;
    if negb ok then ret (-1)
    else
      modify blank_fs;;;
      ok <- kmalloc;;
      if negb ok then ret (- ENOMEM)
      else
        rc & sb_buf <- block_device_read 2 2;;
        if negb (rc =? 0) then ret (-1)
        else if negb (s_magic sb_buf =? EXT2_MAGIC) then ret (-1)
        else if negb (Z.land (s_feature_incompat sb_buf) 64 =? 0) then ret (-1)
        else
          let sb := slice 0 SB_SIZE sb_buf in
          modify (set_sb sb);;;
          if 32 <=? s_log_block_size sb then stuck
          else
            let block_size := wrap32 (Z.shiftl 1024 (s_log_block_size sb)) in
            if 4096 <? block_size then ret (-1)
            else if (s_blocks_per_group sb =? 0) || (block_size =? 0) then stuck
            else
              modify (set_geo (geometry_of block_size sb));;;
              ok <- kmalloc;;
              if negb ok then ret (-1)
              else read_bgdesc (Z.to_nat (bgdesc_table_blocks (geometry_of block_size sb))) 0.

(** ** A working device *)

Record working (s : ext2_fs) : Prop := {
  wk_outcomes : outcomes s = fun _ => 0;
  wk_present : present (dev s) = true;
  wk_count : 4 <= sector_count (dev s) < U64;
}.

Lemma working_outcome s : working s -> outcome s = Some (0, s).
Proof.
  intros [E _ _]. unfold outcome. rewrite E. do 2 f_equal. destruct s; cbn in *. by subst.
Qed.

Lemma working_kmalloc s : working s -> kmalloc s = Some (true, s).
Proof. intros H. unfold kmalloc. by run (working_outcome s H). Qed.

Lemma working_read s lba count :
  working s -> 0 <= lba -> 0 < count -> lba + count <= sector_count (dev s) ->
  block_device_read lba count s = Some ((0, rd_sectors (sectors (dev s)) lba (Z.to_nat count)), s).
Proof.
  intros H ???. pose proof (wk_count s H). unfold block_device_read. run_get.
  rewrite (wk_present s H). cbn. unwrap. bools; try lia. by run (working_outcome s H).
Qed.

(** ** Mounting again *)

(** The driver's state for the same volume after a fresh mount. *)
Definition remounted (s s0 : ext2_fs) : ext2_fs :=
  mk_fs (geo s) (bgdesc_table s) (sb_raw s) (replicate 64 (0, 0)) (dev s) (mount s0) (fun _ => 0).

Lemma slice_grow b n m : 0 <= n -> 0 <= m -> n + m <= zlen b -> slice 0 n b ++ slice n m b = slice 0 (n + m) b.
Proof.
  intros. unfold slice, zlen in *. replace (Z.to_nat (n + m)) with (Z.to_nat n + Z.to_nat m)%nat by lia.
  cbn [drop Z.to_nat]. by rewrite drop_0, take_take_drop.
Qed.

Lemma read_bgdesc_ok s s0 n i :
  cached s -> synced s -> 0 <= i -> i + Z.of_nat n = bgdesc_table_blocks s ->
  read_bgdesc n i (set_table (slice 0 (i * block_size s) (bgdesc_table s)) (remounted s s0)) = Some (0, remounted s s0).
Proof.
  intros Hc [_ Hsy]. pose proof (cached_ready s Hc) as Hr. pose proof (ready_sizes s Hr).
  assert (0 < block_size s) as Hbs by lia. destruct (cached_table s Hc) as [Htl _].
  revert i; induction n as [|n IH]; intros i Hi He; cbn [read_bgdesc].
  - replace (i * block_size s) with (zlen (bgdesc_table s)) by (rewrite Htl; f_equal; lia). by rewrite slice_all.
  - run_get. set (t := slice 0 (i * block_size s) (bgdesc_table s)).
    change (bgdesc_block (set_table t (remounted s s0))) with (bgdesc_block s).
    pose proof (cached_blocks s Hc) as Hb. pose proof (cached_in_dev s Hc i ltac:(lia)) as [Hd0 Hd].
    unfold wrap32. rewrite Z.mod_small by lia.
    assert (working (set_table t (remounted s s0))) as Hw by (destruct Hr; by constructor).
    assert (ext2_read_block (bgdesc_block s + i) (set_table t (remounted s s0)) =
      Some ((0, slice (i * block_size s) (block_size s) (bgdesc_table s)), set_table t (remounted s s0))) as E.
    { unfold ext2_read_block. run_get. rewrite working_read; [|done|cbn; nia..]. do 3 f_equal. apply (Hsy i). lia. }
    run E. cbn [Z.eqb negb]. run_get. cbn [bgdesc_table set_table]. unfold t. rewrite slice_grow by nia.
    replace (i * block_size s + block_size s) with ((i + 1) * block_size s) by lia. apply IH; lia.
Qed.

Lemma init_spec s s0 :
  cached s -> synced s -> mounted s -> dev s0 = dev s -> outcomes s0 = (fun _ => 0) ->
  ext2_init s0 = Some (0, remounted s s0).
Proof.
  intros Hc Hsy (Hg & Hbs & Hlog & Hmag & Hinc & Hbpg) Hd Ho. pose proof (cached_ready s Hc) as Hr. pose proof (ready_sizes s Hr) as [Hsz _].
  assert (working s0) as Hw by (destruct Hr; constructor; by rewrite ?Hd).
  unfold ext2_init. run_get. rewrite (wk_present s0 Hw). cbn [negb]. run (working_kmalloc s0 Hw). cbn [negb]. run_get.
  assert (working (blank_fs s0)) as Hw1 by (destruct Hw; by constructor). run (working_kmalloc _ Hw1). cbn [negb].
  run (working_read (blank_fs s0) 2 2 Hw1 ltac:(lia) ltac:(lia) ltac:(destruct Hw; cbn; lia)). cbn [Z.eqb negb].
  change (dev (blank_fs s0)) with (dev s0). rewrite Hd. change (rd_sectors (sectors (dev s)) 2 (Z.to_nat 2)) with (sb_disk s). destruct Hsy as [Hsb Ht].
  assert (forall n o, 0 <= o -> o + Z.of_nat n <= SB_SIZE -> ld n o (sb_disk s) = ld n o (sb_raw s)) as Hld.
  { intros n o ??. rewrite <- Hsb. by rewrite ld_slice by lia. }
  unfold s_magic, s_feature_incompat in *. rewrite !Hld, Hmag, Hinc by lia. cbn [Z.eqb Pos.eqb negb]. rewrite Hsb. run_get.
  destruct (Z.leb_spec 32 (s_log_block_size (sb_raw s))); [lia|]. rewrite <- Hbs.
  assert (1024 <= block_size s <= 4096) as Hb4 by (destruct (ready_bs s Hr) as [->|[->| ->]]; lia).
  destruct (Z.ltb_spec 4096 (block_size s)); [lia|]. destruct (Z.eqb_spec (s_blocks_per_group (sb_raw s)) 0); [done|].
  destruct (Z.eqb_spec (block_size s) 0); [lia|]. cbn [orb]. rewrite <- Hg. run_get.
  set (s1 := set_geo _ _). assert (working s1) as Hw2 by (destruct Hw; by constructor). run (working_kmalloc s1 Hw2). cbn [negb].
  pose proof (cached_blocks s Hc). replace s1 with (set_table (slice 0 (0 * block_size s) (bgdesc_table s)) (remounted s s0)).
  - apply read_bgdesc_ok; [done|by split|lia..].
  - unfold s1, set_geo, set_table, set_sb, blank_fs, remounted. cbn. by rewrite Hd, Ho.
Qed.

(** Files and their contents survive. *)
Lemma remounted_files s s0 L :
  consistent s L -> consistent (remounted s s0) L /\
  (forall i, inode (remounted s s0) i = inode s i) /\ forall v x, fbyte (remounted s s0) v x = fbyte s v x.
Proof.
  intros H. pose proof (ready_outcomes s (files_ready _ _ _ H)) as Ho.
  assert (remounted s s0 = set_orphans (replicate 64 (0, 0)) (set_mount (mount s0) s)) as ->.
  { unfold remounted, set_orphans, set_mount. cbn. by rewrite Ho. }
  split; [|done]. by apply files_orphans, files_mount.
Qed.

(** C27: When no [kmalloc] and no transfer fails, mounting the device of a
    consistent file system again succeeds and gives the same geometry,
    superblock and descriptor table, and every file has its inode and its
    bytes. *)
Theorem ext2_remount_correct s s0 L :
  consistent s L -> dev s0 = dev s -> outcomes s0 = (fun _ => 0) ->
  exists s', ext2_init s0 = Some (0, s') /\ consistent s' L /\ geo s' = geo s /\ bgdesc_table s' = bgdesc_table s /\
    sb_raw s' = sb_raw s /\ (forall i, inode s' i = inode s i) /\ forall v x, fbyte s' v x = fbyte s v x.
Proof.
  intros H Hd Ho. pose proof (f_alloc _ _ _ H) as Ha. destruct (remounted_files s s0 L H) as (Hc & Hi & Hx).
  exists (remounted s s0). split_and!; try done.
  apply init_spec; [apply (lay_cached _ (al_layout _ Ha))|apply Ha|apply Ha|done|done].
Qed.

End Ext2Mount.
