(* ===== verification/Ext2Dir.v ===== *)
(** Directories of the ext2 driver: finding, adding and removing entries and
    enumerating them (src/kernel/fs/ext2.c: [ext2_find_dirent], [dirent_add],
    [dirent_del], [ext2_vfs_readdir]), refined to a finite map from names to
    inode numbers and types. *)

From stdpp Require Import base tactics numbers option gmap list.
From Stdlib Require Import ZArith Lia.
From S2P Require Import Prelude Bytes Ext2 Ext2Alloc Ext2File.

Module Ext2Dir.
Export Ext2File.

(** ** The code *)

Abbreviation ENOENT := 2 (only parsing).
Abbreviation EEXIST := 17 (only parsing).
Abbreviation VFS_NAME_MAX := 256 (only parsing).

Definition lift {A} (o : option A) : M A := fun s => x ← o; Some (x, s).

(** A field of [*(ext2_dirent_t * )(block_data + off)], inside the buffer. *)
Definition fld (n : nat) (o : Z) (b : list Z) : option Z :=
  if (0 <=? o) && (o + Z.of_nat n <=? zlen b) then Some (ld n o b) else None.
Definition de_inode (b : list Z) (off : Z) : option Z := fld 4 off b.
Definition de_rec_len (b : list Z) (off : Z) : option Z := fld 2 (off + 4) b.
Definition de_name_len (b : list Z) (off : Z) : option Z := fld 1 (off + 6) b.
Definition de_file_type (b : list Z) (off : Z) : option Z := fld 1 (off + 7) b.
Definition de_name (b : list Z) (off n : Z) : option (list Z) :=
  if (0 <=? off) && (off + 8 + n <=? zlen b) then Some (slice (off + 8) n b) else None.

(** The four header fields and the name, stored at [off]. *)
Definition dirent_bytes (ino rec_len ft : Z) (name : list Z) : list Z :=
  le 4 ino ++ le 2 rec_len ++ le 1 (zlen name) ++ le 1 ft ++ name.
Definition put_dirent (off ino rec_len ft : Z) (name b : list Z) : option (list Z) :=
  if (0 <=? off) && (off + 8 + zlen name <=? zlen b)
  then Some (splice off (dirent_bytes ino rec_len ft name) b) else None.

(** [while (off < block_size) { if (rec_len == 0) break; body; off += rec_len; }]:
    the body goes on with a new accumulator or leaves with a result.  Every
    round adds at least 1 to [off]. *)
Fixpoint walk {A B} (fuel : nat) (bs : Z) (b : list Z) (body : Z -> A -> option (A + B)) (off : Z) (a : A) : option (A + B) :=
  match fuel with
  | O => None
  | S fuel =>
    if negb (off <? bs) then Some (inl a)
    else
      rec_len ← de_rec_len b off;
      if rec_len =? 0 then Some (inl a)
      else
        r ← body off a;
        match r with
        | inl a => walk fuel bs b body (off + rec_len) a
        | inr x => Some (inr x)
        end
  end.
Definition walk_block {A B} (bs : Z) (b : list Z) (body : Z -> A -> option (A + B)) (a : A) : option (A + B) :=
  walk (Z.to_nat bs + 1) bs b body 0 a.

(** The loop over the blocks of a directory that ends at the first hole or at
    a block that cannot be read; the body gets the block's number and bytes. *)
Fixpoint walk_dir {A B} (fuel : nat) (inode : list Z) (body : Z -> list Z -> Z -> A -> option (A + B)) (blk_idx : Z) (a : A) : M (A + B) :=
  match fuel with
  | O => stuck
  | S fuel =>
    phys <- ext2_bmap inode blk_idx;;
    if phys =? 0 then ret (inl a)
    else
      rc & b <- ext2_read_block phys;;
      if negb (rc =? 0) then ret (inl a)
      else
        s <- get;;
        r <- lift (walk_block (block_size s) b (body phys b) a);;
        match r with
        | inl a => walk_dir fuel inode body (blk_idx + 1) a
        | inr x => ret (inr x)
        end
  end.
(** [ext2_bmap] maps nothing from [nslots] on. *)
Definition dir_rounds (s : ext2_fs) : nat := Z.to_nat (nslots s) + 1.

Record found := mk_found { f_ino : Z; f_type : Z; f_block : Z; f_off : Z }.
Definition match_at (name : list Z) (phys : Z) (b : list Z) (off : Z) (_ : unit) : option (unit + found) :=
  ino ← de_inode b off;
  name_len ← de_name_len b off;
  if negb (ino =? 0) && (name_len =? zlen name) then
    nm ← de_name b off (zlen name);
    if bool_decide (nm = name)
    then ft ← de_file_type b off; Some (inr (mk_found ino ft phys off))
    else Some (inl tt)
  else Some (inl tt).

(** The result code and, when it is 0, what was found. *)
Definition ext2_find_dirent (dir_ino : Z) (name : list Z) : M (Z * option found) :=
  rc & inode <- ext2_read_inode dir_ino;;
  if negb (rc =? 0) then ret (- EIO, None)
  else if Z.land (i_mode inode) EXT2_S_IFDIR =? 0 then ret (- ENOTDIR, None)
  else
    ok <- kmalloc;;
    if negb ok then ret (- ENOMEM, None)
    else
      s <- get;;
      r <- walk_dir (dir_rounds s) inode (match_at name) 0 tt;;
      match r with
      | inr f => ret (0, Some f)
      | inl _ => ret (- ENOENT, None)
      end.

Definition ALIGN4 (x : Z) : Z := Z.land (x + 3) 4294967292.

(** One entry of a block in [dirent_add]: the block with the new entry in it
    when there is room here.  A free entry too small to be split keeps its
    [rec_len]. *)
Definition add_at (name : list Z) (new_ino file_type : Z) (_ : Z) (b : list Z) (off : Z) (_ : unit) : option (unit + list Z) :=
  let new_len := wrap32 (ALIGN4 (DIRENT_SIZE + zlen name)) in
  rec_len ← de_rec_len b off;
  name_len ← de_name_len b off;
  ino ← de_inode b off;
  let occupied := wrap32 (ALIGN4 (DIRENT_SIZE + name_len)) in
  if ino =? 0 then
    if new_len <=? rec_len then
      if DIRENT_SIZE + 4 <=? rec_len - new_len then
        b ← put_dirent (off + new_len) 0 (rec_len - new_len) 0 [] b;
        b ← put_dirent off new_ino new_len file_type name b;
        Some (inr b)
      else
        b ← put_dirent off new_ino rec_len file_type name b;
        Some (inr b)
    else Some (inl tt)
  else if new_len <=? wrap32 (rec_len - occupied) then
    b ← put_dirent (off + occupied) new_ino (rec_len - occupied) file_type name (st 2 (off + 4) occupied b);
    Some (inr b)
  else Some (inl tt).

(** A directory that is full gets a new block, whose single entry is the new
    one; only the twelve direct blocks are used. *)
Definition add_block (dir_ino : Z) (dir_inode name : list Z) (new_ino file_type logical_block : Z) : M Z :=
  s <- get;;
  new_blk <- alloc_block;;
  if new_blk =? 0 then ret (- ENOSPC)
  else if logical_block <? 12 then
    let dir_inode := add_i_blocks (block_size s / 512) (set_i_block logical_block new_blk dir_inode) in
    let dir_inode := set_i_size (i_size dir_inode + block_size s) dir_inode in
    b <- lift (put_dirent 0 new_ino (block_size s) file_type name (zeros (block_size s)));;
    ext2_write_block new_blk b;;;
    ext2_write_inode dir_ino (set_i_mtime 0 dir_inode);;;
    ret 0
  else free_block new_blk;;; ret (- ENOSPC).

Fixpoint add_loop (fuel : nat) (dir_ino : Z) (dir_inode name : list Z) (new_ino file_type logical_block : Z) : M Z :=
  match fuel with
  | O => stuck
  | S fuel =>
    phys <- ext2_bmap dir_inode logical_block;;
    if phys =? 0 then add_block dir_ino dir_inode name new_ino file_type logical_block
    else
      rc & b <- ext2_read_block phys;;
      if negb (rc =? 0) then ret (- EIO)
      else
        s <- get;;
        r <- lift (walk_block (block_size s) b (add_at name new_ino file_type phys b) tt);;
        match r with
        | inl _ => add_loop fuel dir_ino dir_inode name new_ino file_type (logical_block + 1)
        | inr b =>
          ext2_write_block phys b;;;
          ext2_write_inode dir_ino (set_i_mtime 0 dir_inode);;;
          ret 0
        end
  end.
Definition dirent_add (dir_ino : Z) (name : list Z) (new_ino file_type : Z) : M Z :=
  rc & dir_inode <- ext2_read_inode dir_ino;;
  if negb (rc =? 0) then ret (- EIO)
  else
    ok <- kmalloc;;
    if negb ok then ret (- ENOMEM)
    else
      s <- get;;
      add_loop (dir_rounds s) dir_ino dir_inode name new_ino file_type 0.

(** The entry before [off], if any. *)
Fixpoint find_prev_dirent (fuel : nat) (b : list Z) (off cur : Z) (prev : option Z) : option (option Z) :=
  match fuel with
  | O => None
  | S fuel =>
    if negb (cur <? off) then Some prev
    else
      rec_len ← de_rec_len b cur;
      if rec_len =? 0 then Some prev else find_prev_dirent fuel b off (cur + rec_len) (Some cur)
  end.
(** [de->inode = 0] and the merge of its [rec_len] into the previous entry. *)
Definition del_at (b : list Z) (off : Z) : option (list Z) :=
  _ ← de_inode b off;
  let b := st 4 off 0 b in
  prev ← find_prev_dirent (Z.to_nat off + 1) b off 0 None;
  match prev with
  | None => Some b
  | Some p =>
    prev_len ← de_rec_len b p;
    rec_len ← de_rec_len b off;
    Some (st 2 (p + 4) (prev_len + rec_len) b)
  end.
Definition dirent_del (dir_ino : Z) (name : list Z) : M Z :=
  rc & f <- ext2_find_dirent dir_ino name;;
  match f with
  | None => ret rc
  | Some f =>
    ok <- kmalloc;;
    if negb ok then ret (- ENOMEM)
    else
      rc & b <- ext2_read_block (f_block f);;
      if negb (rc =? 0) then ret (- EIO)
      else
        b <- lift (del_at b (f_off f));;
        ext2_write_block (f_block f) b;;;
        rc & dir_inode <- ext2_read_inode dir_ino;;
        (if rc =? 0 then ext2_write_inode dir_ino (set_i_mtime 0 dir_inode) else ret 0);;;
        ret 0
  end.

(** [ext2_vfs_readdir]: the result code and the entry; without one, only the
    terminator of an empty name is stored. *)
Record vfs_dirent := mk_vdirent { vd_name : list Z; vd_size : Z; vd_type : Z; vd_ino : Z }.
Definition nth_at (index : Z) (_ : Z) (b : list Z) (off entry_idx : Z) : option (Z + (Z * Z * list Z)) :=
  ino ← de_inode b off;
  if ino =? 0 then Some (inl entry_idx)
  else if entry_idx =? index then
    nlen ← de_name_len b off;
    nm ← de_name b off (if VFS_NAME_MAX <=? nlen then VFS_NAME_MAX - 1 else nlen);
    ft ← de_file_type b off;
    Some (inr (ino, ft, nm))
  else Some (inl (entry_idx + 1)).
Definition vfs_type_of (file_type : Z) : Z :=
  if file_type =? 2 then VFS_DIR else if file_type =? 7 then VFS_SYMLINK else VFS_FILE.
Definition ext2_vfs_readdir (node index : Z) : M (Z * option vfs_dirent) :=
  if node =? 0 then ret (-1, None)
  else
    n <- ld_node node;;
    if negb (n_type n =? VFS_DIR) then ret (-1, None)
    else
      rc & dir_inode <- ext2_read_inode (ext2_node_ino n);;
      if negb (rc =? 0) then ret (-1, None)
      else if Z.land (i_mode dir_inode) EXT2_S_IFDIR =? 0 then ret (-1, None)
      else
        ok <- kmalloc;;
        if negb ok then ret (- ENOMEM, None)
        else
          s <- get;;
          r <- walk_dir (dir_rounds s) dir_inode (nth_at index) 0 0;;
          match r with
          | inl _ => ret (0, None)
          | inr (ino, ft, nm) =>
            let type := vfs_type_of ft in
            if (type =? VFS_FILE) || (type =? VFS_SYMLINK) then
              rc & v <- ext2_read_inode ino;;
              ret (0, Some (mk_vdirent nm (if rc =? 0 then i_size v else 0) type ino))
            else ret (0, Some (mk_vdirent nm 0 type ino))
          end.

(** ** Entries of a block *)

Record dent := mk_dent { d_rec : Z; d_ino : Z; d_type : Z; d_nlen : Z; d_name : list Z }.
Definition free_dent (rec_len : Z) : dent := mk_dent rec_len 0 0 0 [].
Definition new_dent (rec_len ino ft : Z) (name : list Z) : dent := mk_dent rec_len ino ft (zlen name) name.
(** The entry at [off]; of a free one only the length means something. *)
Definition dent_at (b : list Z) (off : Z) : dent :=
  let ino := ld 4 off b in
  if ino =? 0 then free_dent (ld 2 (off + 4) b)
  else mk_dent (ld 2 (off + 4) b) ino (ld 1 (off + 7) b) (ld 1 (off + 6) b) (slice (off + 8) (ld 1 (off + 6) b) b).
Definition fits (e : dent) : Prop := 8 + d_nlen e <= d_rec e /\ 0 <= d_nlen e /\ d_rec e mod 4 = 0.

(** The entries [es] fill the bytes [lo, hi) of a block. *)
Fixpoint seg (b : list Z) (lo : Z) (es : list dent) (hi : Z) : Prop :=
  match es with
  | [] => lo = hi
  | e :: es => dent_at b lo = e /\ fits e /\ lo + d_rec e <= hi /\ seg b (lo + d_rec e) es hi
  end.
Fixpoint offs (lo : Z) (es : list dent) : list (Z * dent) :=
  match es with [] => [] | e :: es => (lo, e) :: offs (lo + d_rec e) es end.
Definition live (e : dent) : option (list Z * (Z * Z)) :=
  if d_ino e =? 0 then None else Some (d_name e, (d_ino e, d_type e)).
Definition lives (es : list dent) : list (list Z * (Z * Z)) := omap live es.

Lemma d_rec_at b off : d_rec (dent_at b off) = ld 2 (off + 4) b.
Proof. unfold dent_at. by destruct (_ =? 0). Qed.

Lemma fits_rec e : fits e -> 8 <= d_rec e.
Proof. intros (? & ? & _). lia. Qed.

Lemma seg_le b lo es hi : seg b lo es hi -> lo <= hi.
Proof.
  revert lo; induction es as [|e es IH]; intros lo; cbn; [lia|].
  intros (_ & Hf%fits_rec & ? & _). lia.
Qed.

Lemma dseg_app b lo es es' hi : seg b lo (es ++ es') hi <-> exists mid, seg b lo es mid /\ seg b mid es' hi.
Proof.
  revert lo; induction es as [|e es IH]; intros lo; cbn [app seg].
  - split; [by exists lo|]. by intros (mid & <- & ?).
  - rewrite IH. split.
    + intros (? & ? & ? & mid & Hs & Hs'). exists mid. split_and!; try done. by apply seg_le in Hs.
    + intros (mid & (? & ? & ? & Hs) & Hs'). split_and!; try done; [|by exists mid].
      apply seg_le in Hs'. lia.
Qed.

Lemma dent_at_ext b b' off :
  zlen b' = zlen b -> 0 <= off -> fits (dent_at b off) ->
  (forall i, off <= i < off + d_rec (dent_at b off) -> byte b' i = byte b i) -> dent_at b' off = dent_at b off.
Proof.
  intros Hl Ho Hf He. pose proof (fits_rec _ Hf) as H8.
  assert (forall n o, off <= o -> o + Z.of_nat n <= off + 8 -> ld n o b' = ld n o b) as Hld.
  { intros n o ??. apply ld_bytes_ext; [done|lia..|]. intros i Hi. apply He. lia. }
  revert Hf He. unfold dent_at. rewrite !Hld by lia.
  destruct (Z.eqb_spec (ld 4 off b) 0) as [|E]; [done|]. cbn. intros [Hn _] He. cbn in Hn. f_equal.
  apply slice_ext; [done|lia..|]. intros i Hi _. apply He. lia.
Qed.

Lemma dseg_ext b b' lo es hi :
  zlen b' = zlen b -> 0 <= lo -> (forall i, lo <= i < hi -> byte b' i = byte b i) -> seg b lo es hi -> seg b' lo es hi.
Proof.
  intros Hl. revert lo; induction es as [|e es IH]; intros lo Hlo He; cbn; [done|].
  intros (<- & Hf & Hle & Hs). pose proof (fits_rec _ Hf). pose proof (seg_le _ _ _ _ Hs). split_and!; try done.
  - apply dent_at_ext; [done..|]. intros i Hi. apply He. lia.
  - apply IH; [lia| |done]. intros i Hi. apply He. lia.
Qed.

(** *** Walking a block *)

Section walk.
Context {A B : Type} (body : Z -> A -> option (A + B)).

Fixpoint scan (l : list (Z * dent)) (a : A) : option (A + B) :=
  match l with
  | [] => Some (inl a)
  | (off, _) :: l =>
    r ← body off a;
    match r with inl a => scan l a | inr x => Some (inr x) end
  end.

Lemma walk_seg b es off a fuel :
  seg b off es (zlen b) -> 0 <= off -> (Z.to_nat (zlen b - off) + 1 <= fuel)%nat ->
  walk fuel (zlen b) b body off a = scan (offs off es) a.
Proof.
  revert off a fuel; induction es as [|e es IH]; intros off a fuel Hs Ho Hf; destruct fuel as [|fuel]; try lia; cbn [walk offs scan].
  - cbn in Hs. destruct (Z.ltb_spec off (zlen b)); [lia|done].
  - destruct Hs as (He & Hfit & Hle & Hs). pose proof (fits_rec _ Hfit).
    destruct (Z.ltb_spec off (zlen b)); [|lia]. cbn [negb].
    assert (de_rec_len b off = Some (d_rec e)) as ->.
    { unfold de_rec_len, fld. rewrite <- He, d_rec_at. destruct (Z.leb_spec 0 (off + 4)); [|lia].
      destruct (Z.leb_spec (off + 4 + Z.of_nat 2) (zlen b)); [done|lia]. }
    cbn. destruct (Z.eqb_spec (d_rec e) 0); [lia|].
    destruct (body off a) as [[a'|x]|]; cbn; [|done..]. apply IH; [done|lia..].
Qed.
End walk.

(** *** Reading an entry *)

Lemma fld_in n o b : 0 <= o -> o + Z.of_nat n <= zlen b -> fld n o b = Some (ld n o b).
Proof. intros. unfold fld. bools; try lia. done. Qed.

Record entry_at (b : list Z) (off : Z) (e : dent) : Prop := {
  en_off : 0 <= off;
  en_at : dent_at b off = e;
  en_fits : fits e;
  en_in : off + d_rec e <= zlen b;
}.

Lemma entry_rec b off e : entry_at b off e -> de_rec_len b off = Some (d_rec e) /\ 8 <= d_rec e.
Proof.
  intros [Ho <- Hf Hi]. pose proof (fits_rec _ Hf). split; [|done]. unfold de_rec_len. rewrite d_rec_at. apply fld_in; lia.
Qed.

Lemma entry_inode b off e : entry_at b off e -> de_inode b off = Some (d_ino e).
Proof.
  intros [Ho <- Hf Hi]. pose proof (fits_rec _ Hf). unfold de_inode. rewrite fld_in by lia. f_equal. unfold dent_at.
  by destruct (Z.eqb_spec (ld 4 off b) 0) as [->|].
Qed.

Lemma entry_nlen b off e : entry_at b off e -> exists n, de_name_len b off = Some n /\ n = ld 1 (off + 6) b /\ (d_ino e <> 0 -> n = d_nlen e).
Proof.
  intros [Ho <- Hf Hi]. pose proof (fits_rec _ Hf). unfold de_name_len. rewrite fld_in by lia.
  eexists. split_and!; [done..|]. unfold dent_at. by destruct (Z.eqb_spec (ld 4 off b) 0).
Qed.

Lemma entry_live b off e :
  entry_at b off e -> d_ino e <> 0 ->
  de_file_type b off = Some (d_type e) /\ de_name b off (d_nlen e) = Some (d_name e) /\ zlen (d_name e) = d_nlen e.
Proof.
  intros [Ho <- Hf Hi]. pose proof (fits_rec _ Hf). destruct Hf as (Hn & Hn0 & _). unfold de_file_type, de_name.
  rewrite fld_in by lia. revert Hn Hn0 Hi. unfold dent_at. destruct (Z.eqb_spec (ld 4 off b) 0); [done|]. cbn. intros Hn Hn0 Hi _.
  split_and!; [done| |apply zlen_slice; lia]. bools; try lia. done.
Qed.

Lemma seg_entry b lo e es hi : seg b lo (e :: es) hi -> 0 <= lo -> hi <= zlen b -> entry_at b lo e.
Proof. intros (? & ? & ? & _) ??. constructor; [done..|lia]. Qed.

(** *** Finding an entry *)

Definition matches (name : list Z) (e : dent) : bool := negb (d_ino e =? 0) && bool_decide (d_name e = name).

Lemma match_at_ok name p b off e :
  entry_at b off e ->
  match_at name p b off tt = Some (if matches name e then inr (mk_found (d_ino e) (d_type e) p off) else inl tt).
Proof.
  intros He. unfold match_at, matches. rewrite (entry_inode _ _ _ He). cbn.
  destruct (entry_nlen _ _ _ He) as (n & -> & _ & Hn). cbn.
  destruct (Z.eqb_spec (d_ino e) 0) as [|E]; [done|]. cbn. specialize (Hn E) as ->.
  destruct (entry_live _ _ _ He E) as (Ht & Hnm & Hz).
  destruct (Z.eqb_spec (d_nlen e) (zlen name)) as [En|En].
  - rewrite <- En, Hnm. cbn. case_bool_decide; [by rewrite Ht|done].
  - rewrite bool_decide_eq_false_2; [done|]. intros <-. by apply En.
Qed.

Lemma scan_match name p b es off :
  seg b off es (zlen b) -> 0 <= off ->
  scan (match_at name p b) (offs off es) tt =
    Some (match List.find (fun '(_, e) => matches name e) (offs off es) with
          | Some (o, e) => inr (mk_found (d_ino e) (d_type e) p o) | None => inl tt end).
Proof.
  revert off; induction es as [|e es IH]; intros off Hs Ho; [done|]. cbn [offs scan List.find].
  pose proof (seg_entry _ _ _ _ _ Hs Ho ltac:(lia)) as He. rewrite (match_at_ok _ _ _ _ _ He). cbn.
  destruct (matches name e); [done|]. cbn. destruct Hs as (_ & Hf%fits_rec & _ & Hs). apply IH; [done|lia].
Qed.

(** *** Storing an entry *)

Lemma zlen_dirent_bytes ino rec_len ft name : zlen (dirent_bytes ino rec_len ft name) = 8 + zlen name.
Proof. unfold zlen, dirent_bytes. rewrite !length_app. cbn. lia. Qed.

Lemma bytes_dirent ino rec_len ft name : bytes name -> bytes (dirent_bytes ino rec_len ft name).
Proof. intros. repeat (apply Forall_app_2; [apply bytes_le|]). done. Qed.

Lemma dirent_bytes_fields ino rec_len ft name :
  0 <= ino < U32 -> 0 <= rec_len < 65536 -> 0 <= ft < 256 -> zlen name < 256 ->
  let d := dirent_bytes ino rec_len ft name in
  ld 4 0 d = ino /\ ld 2 4 d = rec_len /\ ld 1 6 d = zlen name /\ ld 1 7 d = ft /\ slice 8 (zlen name) d = name.
Proof.
  intros Hi Hr Hf Hn d. pose proof (zlen_nonneg name).
  change (ld 4 0 d) with (of_le (le 4 ino)). change (ld 2 4 d) with (of_le (le 2 rec_len)).
  change (ld 1 6 d) with (of_le (le 1 (zlen name))). change (ld 1 7 d) with (of_le (le 1 ft)).
  change (slice 8 (zlen name) d) with (take (Z.to_nat (zlen name)) name). rewrite !of_le_le.
  split_and!; [by apply Z.mod_small; cbn..|]. unfold zlen. rewrite Nat2Z.id. apply firstn_all.
Qed.

Record stored (b b' : list Z) (lo hi : Z) : Prop := {
  sd_len : zlen b' = zlen b;
  sd_bytes : bytes b -> bytes b';
  sd_out : forall i, i < lo \/ hi <= i -> byte b' i = byte b i;
}.

Lemma stored_splice b lo v : 0 <= lo -> lo + zlen v <= zlen b -> bytes v -> stored b (splice lo v b) lo (lo + zlen v).
Proof.
  intros. constructor; [by apply zlen_splice|by apply bytes_splice|].
  intros i Hi. rewrite byte_splice by done. bools; try lia; done.
Qed.

Lemma stored_trans b1 b2 b3 lo hi : stored b1 b2 lo hi -> stored b2 b3 lo hi -> stored b1 b3 lo hi.
Proof. intros [Hl Hb Ho] [Hl' Hb' Ho']. constructor; [congruence|auto|]. intros i Hi. by rewrite Ho', Ho. Qed.

Lemma stored_weaken b b' lo hi lo' hi' : lo' <= lo -> hi <= hi' -> stored b b' lo hi -> stored b b' lo' hi'.
Proof. intros ?? [Hl Hb Ho]. constructor; [done..|]. intros i Hi. apply Ho. lia. Qed.

Lemma stored_st b n o v : 0 <= o -> o + Z.of_nat n <= zlen b -> stored b (st n o v b) o (o + Z.of_nat n).
Proof. intros. rewrite <- (zlen_le n v). apply stored_splice; [done|by rewrite zlen_le|apply bytes_le]. Qed.

Lemma put_dirent_ok b off ino rec_len ft name :
  0 <= off -> off + 8 + zlen name <= zlen b -> 0 <= ino < U32 -> 0 <= rec_len < 65536 -> 0 <= ft < 256 ->
  zlen name < 256 -> bytes name ->
  exists b', put_dirent off ino rec_len ft name b = Some b' /\ stored b b' off (off + 8 + zlen name) /\
    dent_at b' off = if ino =? 0 then free_dent rec_len else new_dent rec_len ino ft name.
Proof.
  intros Ho Hl Hi Hr Hf Hn Hb. pose proof (zlen_dirent_bytes ino rec_len ft name) as Hz.
  exists (splice off (dirent_bytes ino rec_len ft name) b). split_and!.
  - unfold put_dirent. bools; try lia. done.
  - replace (off + 8 + zlen name) with (off + zlen (dirent_bytes ino rec_len ft name)) by lia.
    apply stored_splice; [done|lia|by apply bytes_dirent].
  - destruct (dirent_bytes_fields ino rec_len ft name Hi Hr Hf Hn) as (E1 & E2 & E3 & E4 & E5).
    pose proof (zlen_nonneg name). unfold dent_at.
    rewrite !ld_splice_in by lia. replace (off - off) with 0 by lia. replace (off + 4 - off) with 4 by lia.
    replace (off + 6 - off) with 6 by lia. replace (off + 7 - off) with 7 by lia.
    rewrite E1, E2, E3, E4. destruct (ino =? 0); [done|]. rewrite slice_splice_in by lia.
    replace (off + 8 - off) with 8 by lia. by rewrite E5.
Qed.

(** Changing only the length of an entry. *)
Definition set_rec (r : Z) (e : dent) : dent := mk_dent r (d_ino e) (d_type e) (d_nlen e) (d_name e).

Lemma dent_at_set_rec b off r :
  0 <= off -> off + 8 <= zlen b -> 0 <= r < 65536 -> dent_at (st 2 (off + 4) r b) off = set_rec r (dent_at b off).
Proof.
  intros Ho Hl Hr. assert (ld 2 (off + 4) (st 2 (off + 4) r b) = r) as E.
  { rewrite ld_st_eq by lia. by apply Z.mod_small. }
  unfold dent_at. rewrite E, !(ld_st_apart _ 2) by lia. destruct (ld 4 off b =? 0); [done|].
  unfold set_rec; cbn. f_equal. apply slice_splice_ne; rewrite ?zlen_le; lia.
Qed.

Lemma align4 x : 0 <= x < 65536 -> wrap32 (ALIGN4 x) = 4 * ((x + 3) / 4).
Proof.
  intros Hx. unfold wrap32, ALIGN4.
  assert (Z.land (x + 3) 4294967292 = 4 * ((x + 3) / 4)) as ->; [|apply Z.mod_small; dlia].
  replace (4 * ((x + 3) / 4)) with (Z.shiftl (Z.shiftr (x + 3) 2) 2)
    by (rewrite Z.shiftl_mul_pow2, Z.shiftr_div_pow2 by lia; change (2 ^ 2) with 4; lia).
  apply Z.bits_inj'. intros i Hi. rewrite Z.land_spec. change 4294967292 with (Z.shiftl (Z.ones 30) 2).
  rewrite !Z.shiftl_spec by done. destruct (decide (i < 2)).
  - rewrite !(Z.testbit_neg_r _ (i - 2)) by lia. apply andb_false_r.
  - rewrite Z.shiftr_spec by lia. replace (i - 2 + 2) with i by lia. rewrite Z.testbit_ones_nonneg by lia.
    destruct (Z.ltb_spec (i - 2) 30); [apply andb_true_r|]. rewrite andb_false_r. symmetry.
    apply Z.bits_above_log2; [lia|]. apply Z.log2_lt_pow2; [lia|]. apply (Z.lt_le_trans _ (2 ^ 32)); [lia|].
    apply Z.pow_le_mono_r; lia.
Qed.

(** *** Adding an entry *)

Section add.
Context (name : list Z) (ino ft : Z).
Context (Hino : 0 < ino < U32) (Hft : 0 <= ft < 256) (Hname : zlen name < 256) (Hbytes : bytes name).
Local Abbreviation new_entry := (name, (ino, ft)).

Lemma add_at_ok p b off e :
  entry_at b off e -> zlen b <= 4096 -> 0 <= d_nlen e < 256 ->
  add_at name ino ft p b off tt = Some (inl tt) \/
  exists b' es', add_at name ino ft p b off tt = Some (inr b') /\ stored b b' off (off + d_rec e) /\
    seg b' off es' (off + d_rec e) /\ lives es' = lives [e] ++ [new_entry].
Proof.
  intros He Hb Hne. destruct (entry_rec _ _ _ He) as [Er Hr8]. pose proof (zlen_nonneg name).
  destruct (entry_nlen _ _ _ He) as (n & En & _ & Hn). destruct He as [Ho Hat (Hfit & Hn0 & Hmod) Hin] eqn:Eq. clear Eq.
  unfold add_at. rewrite Er, En, (entry_inode _ _ _ He). cbn [mbind option_bind]. rewrite (align4 (8 + zlen name)) by lia.
  set (nl := 4 * ((8 + zlen name + 3) / 4)). assert (8 + zlen name <= nl <= 8 + zlen name + 3) as Hnl by (unfold nl; dlia).
  assert (nl mod 4 = 0) as Hnm by (unfold nl; rewrite Z.mul_comm; apply Z.mod_mul; lia). clearbody nl.
  destruct (Z.eqb_spec (d_ino e) 0) as [E0|E0].
  - destruct (Z.leb_spec nl (d_rec e)) as [Hle|]; [right|by left].
    assert (lives [e] = []) as -> by (unfold lives, live; cbn; by rewrite E0).
    destruct (Z.leb_spec (DIRENT_SIZE + 4) (d_rec e - nl)) as [Hsplit|Hfull].
    + destruct (put_dirent_ok b (off + nl) 0 (d_rec e - nl) 0 []) as (b1 & -> & Hs1 & Hd1); [lia|change (zlen (@nil Z)) with 0; lia|lia..|done|constructor|].
      cbn [mbind option_bind]. change (zlen (@nil Z)) with 0 in Hs1. pose proof (sd_len _ _ _ _ Hs1) as Hl1.
      destruct (put_dirent_ok b1 off ino nl ft name) as (b2 & -> & Hs2 & Hd2); [lia..|done|lia|done|].
      pose proof (sd_len _ _ _ _ Hs2) as Hl2. destruct (Z.eqb_spec ino 0); [lia|].
      eexists b2, [new_dent nl ino ft name; free_dent (d_rec e - nl)]. split_and!; [done| | |].
      * eapply stored_trans; (eapply stored_weaken; [| |done]); lia.
      * cbn. unfold fits. cbn. split_and!; try done; try lia.
        { rewrite (dent_at_ext b1); [done|done|lia|rewrite Hd1; unfold fits; cbn; split_and!; try lia; dlia|].
          rewrite Hd1. intros i Hi. apply (sd_out _ _ _ _ Hs2). lia. }
        dlia.
      * unfold lives, live. cbn. by destruct (Z.eqb_spec ino 0).
    + destruct (put_dirent_ok b off ino (d_rec e) ft name) as (b1 & -> & Hs1 & Hd1); [lia..|done|lia|done|].
      destruct (Z.eqb_spec ino 0); [lia|].
      eexists b1, [new_dent (d_rec e) ino ft name]. split_and!; [done| | |].
      * eapply stored_weaken; [| |done]; lia.
      * cbn. unfold fits. cbn. split_and!; try done; lia.
      * unfold lives, live. cbn. by destruct (Z.eqb_spec ino 0).
  - specialize (Hn E0) as ->. rewrite (align4 (8 + d_nlen e)) by lia.
    set (oc := 4 * ((8 + d_nlen e + 3) / 4)). assert (8 + d_nlen e <= oc <= d_rec e) as Hoc by (unfold oc; dlia).
    assert (oc mod 4 = 0) as Hom by (unfold oc; rewrite Z.mul_comm; apply Z.mod_mul; lia). clearbody oc.
    unfold wrap32. rewrite (Z.mod_small (d_rec e - oc)) by lia.
    destruct (Z.leb_spec nl (d_rec e - oc)) as [Hle|]; [right|by left].
    pose proof (stored_st b 2 (off + 4) oc ltac:(lia) ltac:(lia)) as Hs1. set (b1 := st 2 (off + 4) oc b) in *.
    pose proof (sd_len _ _ _ _ Hs1) as Hl1.
    assert (dent_at b1 off = set_rec oc e) as Hd1 by (unfold b1; rewrite dent_at_set_rec by lia; by rewrite Hat).
    destruct (put_dirent_ok b1 (off + oc) ino (d_rec e - oc) ft name) as (b2 & -> & Hs2 & Hd2); [lia..|done|lia|done|].
    pose proof (sd_len _ _ _ _ Hs2) as Hl2. destruct (Z.eqb_spec ino 0); [lia|].
    eexists b2, [set_rec oc e; new_dent (d_rec e - oc) ino ft name]. split_and!; [done| | |].
    + eapply stored_trans; (eapply stored_weaken; [| |done]); lia.
    + cbn. unfold fits. cbn. split_and!; try done; try lia; [|dlia].
      rewrite (dent_at_ext b1); [done|done|lia|rewrite Hd1; unfold fits; cbn; split_and!; lia|].
      rewrite Hd1. cbn. intros i Hi. apply (sd_out _ _ _ _ Hs2). lia.
    + unfold lives, live. cbn. destruct (Z.eqb_spec (d_ino e) 0), (Z.eqb_spec ino 0); done || lia.
Qed.

Lemma nlen_range b off : bytes b -> 0 <= d_nlen (dent_at b off) < 256.
Proof. intros Hb. pose proof (ld_range 1 (off + 6) b Hb). unfold dent_at. by destruct (_ =? 0). Qed.

Lemma scan_add p b es off :
  seg b off es (zlen b) -> 0 <= off -> bytes b -> zlen b <= 4096 ->
  scan (add_at name ino ft p b) (offs off es) tt = Some (inl tt) \/
  exists b' es' pre post, scan (add_at name ino ft p b) (offs off es) tt = Some (inr b') /\ stored b b' off (zlen b) /\
    seg b' off es' (zlen b) /\ lives es = pre ++ post /\ lives es' = pre ++ new_entry :: post.
Proof.
  revert off; induction es as [|e es IH]; intros off Hs Ho Hb Hl; [by left|]. cbn [offs scan].
  pose proof (seg_entry _ _ _ _ _ Hs Ho ltac:(lia)) as He. destruct Hs as (Hat & Hfit & Hle & Hs).
  pose proof (nlen_range b off Hb) as Hn. rewrite Hat in Hn. pose proof (fits_rec _ Hfit).
  destruct (add_at_ok p b off e He Hl Hn) as [->|(b' & es' & -> & Hst & Hs' & Hlv)]; cbn [mbind option_bind].
  - destruct (IH (off + d_rec e) Hs ltac:(lia) Hb Hl) as [->|(b' & es' & pre & post & -> & Hst & Hs' & Hpre & Hlv)]; [by left|right].
    exists b', (e :: es'), (lives [e] ++ pre), post. split_and!; [done| | | |].
    + eapply stored_weaken; [| |done]; lia.
    + cbn. split_and!; try done. rewrite (dent_at_ext b); [done|apply Hst|done|by rewrite Hat|].
      rewrite Hat. intros i Hi. apply (sd_out _ _ _ _ Hst). lia.
    + change (lives (e :: es)) with (lives ([e] ++ es)). unfold lives in *. rewrite omap_app, Hpre. by rewrite <- app_assoc.
    + change (lives (e :: es')) with (lives ([e] ++ es')). unfold lives in *. rewrite omap_app, Hlv. by rewrite <- app_assoc.
  - right. exists b', (es' ++ es), (lives [e]), (lives es). split_and!; [done| | | |].
    + eapply stored_weaken; [| |done]; lia.
    + rewrite dseg_app. exists (off + d_rec e). split; [done|]. apply (dseg_ext b); [apply Hst|lia| |done].
      intros i Hi. apply (sd_out _ _ _ _ Hst). lia.
    + apply (omap_app live [e] es).
    + unfold lives in *. rewrite omap_app, Hlv. by rewrite <- app_assoc.
Qed.

End add.

(** *** Removing an entry *)

Lemma find_prev_ok b es off cur prev fuel :
  seg b cur es off -> 0 <= cur -> off <= zlen b -> (Z.to_nat (off - cur) + 1 <= fuel)%nat ->
  find_prev_dirent fuel b off cur prev = Some (match last (offs cur es) with Some (o, _) => Some o | None => prev end).
Proof.
  revert cur prev fuel; induction es as [|e es IH]; intros cur prev fuel Hs Hc Hl Hf; destruct fuel as [|fuel]; try lia;
    cbn [find_prev_dirent].
  - cbn in Hs. destruct (Z.ltb_spec cur off); [lia|done].
  - pose proof (seg_entry _ _ _ _ _ Hs Hc Hl) as He. destruct (entry_rec _ _ _ He) as [-> Hr]. destruct Hs as (_ & _ & Hle & Hs).
    destruct (Z.ltb_spec cur off); [|lia]. cbn [negb mbind option_bind]. destruct (Z.eqb_spec (d_rec e) 0); [lia|].
    rewrite (IH _ (Some cur)) by (done || lia). cbn [offs]. rewrite last_cons.
    by destruct (last (offs (cur + d_rec e) es)) as [[]|].
Qed.

Lemma offs_snoc lo es p : offs lo (es ++ [p]) = offs lo es ++ [(foldl (fun o e => o + d_rec e) lo es, p)].
Proof. revert lo; induction es as [|e es IH]; intros lo; [done|]. cbn. by rewrite IH. Qed.

Lemma seg_end b lo es hi : seg b lo es hi -> hi = foldl (fun o e => o + d_rec e) lo es.
Proof. revert lo; induction es as [|e es IH]; intros lo; cbn; [done|]. intros (_ & _ & _ & Hs). by apply IH. Qed.

Lemma dent_at_clear b off : 0 <= off -> off + 8 <= zlen b -> dent_at (st 4 off 0 b) off = free_dent (d_rec (dent_at b off)).
Proof. intros. rewrite d_rec_at. unfold dent_at. rewrite ld_st_eq by lia. cbn. by rewrite ld_st_apart by lia. Qed.

Lemma del_at_ok b es1 e es2 off :
  seg b 0 es1 off -> seg b off (e :: es2) (zlen b) -> zlen b <= 4096 ->
  exists b' es', del_at b off = Some b' /\ stored b b' 0 (zlen b) /\ seg b' 0 es' (zlen b) /\
    lives es' = lives es1 ++ lives es2.
Proof.
  intros Hs1 Hs2 Hl. pose proof (seg_le _ _ _ _ Hs1) as Ho. pose proof (seg_entry _ _ _ _ _ Hs2 Ho ltac:(lia)) as He.
  destruct (entry_rec _ _ _ He) as [_ Hr]. unfold del_at. rewrite (entry_inode _ _ _ He). cbn [mbind option_bind].
  destruct Hs2 as (Hat & Hfit & Hle & Hs2).
  pose proof (stored_st b 4 off 0 Ho ltac:(lia)) as Hst. set (b1 := st 4 off 0 b) in *. pose proof (sd_len _ _ _ _ Hst) as Hl1.
  assert (seg b1 0 es1 off) as Hs1'.
  { apply (dseg_ext b); [done..| |done]. intros i Hi. apply (sd_out _ _ _ _ Hst). lia. }
  assert (seg b1 (off + d_rec e) es2 (zlen b)) as Hs2'.
  { apply (dseg_ext b); [done|lia| |done]. intros i Hi. apply (sd_out _ _ _ _ Hst). lia. }
  assert (dent_at b1 off = free_dent (d_rec e)) as Hd1 by (unfold b1; rewrite dent_at_clear by lia; by rewrite Hat).
  rewrite (find_prev_ok b1 es1) by (done || lia). cbn [mbind option_bind].
  destruct es1 as [|p es0 _] using rev_ind; cbn in Hs1'.
  - subst off. exists b1, (free_dent (d_rec e) :: es2). split_and!; [done|eapply stored_weaken; [| |done]; lia| |].
    + cbn. split_and!; try done. destruct Hfit as (? & ? & ?). unfold fits; cbn; split_and!; lia.
    + unfold lives. cbn. done.
  - rewrite offs_snoc, last_snoc. apply dseg_app in Hs1' as (po & Hs0 & Hp). rewrite <- (seg_end _ _ _ _ Hs0).
    destruct Hp as (Hpat & Hpfit & Hple & Hpo). cbn in Hpo. pose proof (seg_le _ _ _ _ Hs0) as Hpo0. pose proof (fits_rec _ Hpfit).
    assert (entry_at b1 po p) as Hpe by (constructor; [done..|lia]). destruct (entry_rec _ _ _ Hpe) as [-> _].
    assert (de_rec_len b1 off = Some (d_rec e)) as ->.
    { unfold de_rec_len. rewrite fld_in by lia. rewrite <- d_rec_at, Hd1. done. }
    cbn [mbind option_bind]. set (r := d_rec p + d_rec e).
    pose proof (stored_st b1 2 (po + 4) r ltac:(lia) ltac:(lia)) as Hst2. set (b2 := st 2 (po + 4) r b1) in *.
    exists b2, (es0 ++ set_rec r p :: es2). split_and!; [done| | |].
    + eapply stored_trans; (eapply stored_weaken; [| |done]); lia.
    + rewrite dseg_app. exists po. destruct Hpfit as (? & ? & ?), Hfit as (? & ? & ?). split.
      * apply (dseg_ext b1); [apply Hst2|done| |done]. intros i Hi. apply (sd_out _ _ _ _ Hst2). lia.
      * cbn. split_and!.
        { unfold b2. rewrite dent_at_set_rec by (unfold r; lia). by rewrite Hpat. }
        { unfold fits, r; cbn. split_and!; [lia..|]. dlia. }
        { unfold r. apply seg_le in Hs2. lia. }
        apply (dseg_ext b1); [apply Hst2|unfold r; lia| |].
        { unfold r. intros i Hi. apply (sd_out _ _ _ _ Hst2). lia. }
        unfold r. by replace (po + (d_rec p + d_rec e)) with (off + d_rec e) by lia.
    + unfold lives. rewrite !omap_app. cbn. unfold live; cbn. by destruct (d_ino p =? 0); cbn; rewrite <- ?app_assoc.
Qed.

(** ** Directories *)

(** Block [k] of a file, and the directory whose blocks from [k] on hold the
    entries [D]; the driver only gives a directory direct blocks. *)
Definition dblock (s : ext2_fs) (v : list Z) (k : Z) : list Z := content s v (k * block_size s) (block_size s).
Fixpoint drep (s : ext2_fs) (v : list Z) (D : list (list dent)) (k : Z) : Prop :=
  match D with
  | [] => k <= 12 /\ forall j, k <= j <= 12 -> i_block v j = 0
  | es :: D => k < 12 /\ i_block v k <> 0 /\ seg (dblock s v k) 0 es (block_size s) /\ drep s v D (k + 1)
  end.
Definition entries (D : list (list dent)) : list (list Z * (Z * Z)) := lives (concat D).

(** What the directory [ino] is to its users: a map from names to inode
    numbers and types. *)
Definition directory (s : ext2_fs) (ino : Z) (m : gmap (list Z) (Z * Z)) : Prop :=
  exists D, drep s (inode s ino) D 0 /\ NoDup (entries D).*1 /\ m = list_to_map (entries D) /\
    Z.land (i_mode (inode s ino)) EXT2_S_IFDIR <> 0.

Lemma zlen_dblock s v k : ready s -> zlen (dblock s v k) = block_size s.
Proof. intros Hr. destruct (bs_pos s Hr) as (? & _). apply zlen_content. lia. Qed.

Lemma dblock_blk s v k : ready s -> 0 <= k < 12 -> i_block v k <> 0 -> dblock s v k = blk s (i_block v k).
Proof.
  intros Hr Hk Hn. destruct (bs_pos s Hr) as (? & _). unfold dblock.
  rewrite content_block; [|done|lia|lia|rewrite Z.mod_mul by lia; lia].
  rewrite Z.div_mul, Z.mod_mul by lia. cbn zeta. unfold ptr. destruct (Z.ltb_spec k 12); [|lia].
  destruct (Z.eqb_spec (i_block v k) 0); [done|]. apply slice_all. by apply blk_ok.
Qed.

Lemma dblock_ext s s' v v' k :
  ready s -> geo s' = geo s -> 0 <= k -> (forall x, k * block_size s <= x < (k + 1) * block_size s -> fbyte s' v' x = fbyte s v x) ->
  dblock s' v' k = dblock s v k.
Proof.
  intros Hr Hg Hk He. destruct (bs_pos s Hr) as (? & _). unfold dblock. rewrite Hg. unfold content. apply list_fmap_ext.
  intros i x Hx%list_elem_of_lookup_2. apply elem_of_seqZ in Hx. apply He. lia.
Qed.

Lemma drep_bound s v D k : drep s v D k -> k + zlen D <= 12.
Proof.
  revert k; induction D as [|es D IH]; intros k; cbn; [unfold zlen; cbn; lia|].
  intros (_ & _ & _ & Hd%IH). unfold zlen in *. cbn. lia.
Qed.

Lemma drep_ptr s v D k j : drep s v D k -> 0 <= k <= j -> j <= 12 -> (i_block v j <> 0 <-> j < k + zlen D).
Proof.
  revert k; induction D as [|es D IH]; intros k; cbn.
  - intros [? H0] ??. rewrite H0 by lia. unfold zlen; cbn. lia.
  - intros (? & Hn & _ & Hd) ??. unfold zlen in *. cbn. destruct (decide (j = k)) as [->|]; [split; [lia|done]|].
    rewrite (IH _ Hd) by lia. lia.
Qed.

Lemma drep_app s v D1 D2 k : drep s v (D1 ++ D2) k -> drep s v D2 (k + zlen D1).
Proof.
  revert k; induction D1 as [|x D1 IH]; intros k; cbn.
  - unfold zlen. cbn. by rewrite Z.add_0_r.
  - intros (_ & _ & _ & Hd%IH). unfold zlen in *. cbn [length].
    by replace (k + Z.of_nat (S (length D1))) with (k + 1 + Z.of_nat (length D1)) by lia.
Qed.

Lemma drep_block s v D1 es D2 k : drep s v (D1 ++ es :: D2) k -> seg (dblock s v (k + zlen D1)) 0 es (block_size s).
Proof. intros Hd%drep_app. apply Hd. Qed.

(** Replacing the entries of one block. *)
Lemma drep_upd s s' v v' D1 es es' D2 k :
  ready s -> geo s' = geo s -> 0 <= k -> (forall j, 0 <= j <= 12 -> i_block v' j = i_block v j) ->
  (forall j, k <= j -> j <> k + zlen D1 -> dblock s' v' j = dblock s v j) ->
  seg (dblock s' v' (k + zlen D1)) 0 es' (block_size s) ->
  drep s v (D1 ++ es :: D2) k -> drep s' v' (D1 ++ es' :: D2) k.
Proof.
  intros Hr Hg Hk Hb. revert k Hk; induction D1 as [|e D1 IH]; intros k Hk Hd Hs; cbn [app drep].
  - unfold zlen in Hd, Hs. cbn in Hd, Hs. rewrite Z.add_0_r in Hs. intros (? & ? & _ & Hrest). rewrite Hb, Hg by lia.
    split_and!; try done. assert (forall j, k < j -> dblock s' v' j = dblock s v j) as Hd' by (intros; apply Hd; lia).
    assert (k < k + 1) as Hlt by lia. revert Hlt Hrest. generalize (k + 1) as k'. induction D2 as [|e D2 IH2]; intros k' Hlt; cbn.
    + intros [? Hz]. split; [done|]. intros j Hj. rewrite Hb by lia. by apply Hz.
    + intros (? & ? & ? & ?). rewrite Hb, Hg, Hd' by lia. split_and!; try done. apply IH2; [lia|done].
  - intros (? & ? & ? & Hrest). unfold zlen in Hd, Hs. cbn [length] in Hd, Hs. rewrite Hb, Hg, Hd by lia. split_and!; try done.
    apply IH; [lia| | |done].
    + intros j Hj Hn. apply Hd; [lia|]. unfold zlen in Hn. lia.
    + unfold zlen. by replace (k + 1 + Z.of_nat (length D1)) with (k + Z.of_nat (S (length D1))) by lia.
Qed.

Lemma drep_ext s s' v v' D k :
  ready s -> geo s' = geo s -> 0 <= k -> (forall j, 0 <= j <= 12 -> i_block v' j = i_block v j) ->
  (forall x, 0 <= x -> fbyte s' v' x = fbyte s v x) -> drep s v D k -> drep s' v' D k.
Proof.
  intros Hr Hg Hk Hb Hx. destruct (bs_pos s Hr) as (? & _). revert k Hk; induction D as [|es D IH]; intros k Hk; cbn.
  - intros [? Hz]. split; [done|]. intros j Hj. rewrite Hb by lia. by apply Hz.
  - intros (? & ? & ? & ?). rewrite Hb, Hg by lia. split_and!; try done; [|apply IH; [lia|done]].
    rewrite (dblock_ext s s' v v'); [done|done|done|lia|]. intros x Hxx. apply Hx. nia.
Qed.

(** A directory whose inode and bytes are as they were is the same map. *)
Lemma directory_kept s s' i m :
  ready s -> geo s' = geo s -> inode s' i = inode s i ->
  (forall x, 0 <= x -> fbyte s' (inode s' i) x = fbyte s (inode s i) x) -> directory s i m -> directory s' i m.
Proof.
  intros Hr Hg Hi Hx (D & Hd & Hnd & Hm & Hmode). exists D. rewrite Hi in *. split_and!; try done.
  by apply (drep_ext s s' (inode s i)).
Qed.

(** ** Walking a directory *)

Section walk_dir.
Context {A B : Type} (body : Z -> list Z -> Z -> A -> option (A + B)).

Fixpoint scan_dir (s : ext2_fs) (v : list Z) (D : list (list dent)) (k : Z) (a : A) : option (A + B) :=
  match D with
  | [] => Some (inl a)
  | es :: D =>
    r ← scan (body (i_block v k) (dblock s v k)) (offs 0 es) a;
    match r with inl a => scan_dir s v D (k + 1) a | inr x => Some (inr x) end
  end.

Lemma walk_dir_ok s I L ino D k a fuel :
  files s I L -> L ino -> drep s (I ino) D k -> 0 <= k -> (length D + 1 <= fuel)%nat ->
  walk_dir fuel (I ino) body k a s = r ← scan_dir s (I ino) D k a; Some (r, s).
Proof.
  intros H Hi. pose proof (files_ready _ _ _ H) as Hr. destruct (bs_pos s Hr) as (? & _).
  revert k a fuel; induction D as [|es D IH]; intros k a fuel Hd Hk Hf; destruct fuel as [|fuel]; try (cbn in Hf; lia); cbn [walk_dir].
  - destruct Hd as [Hk12 Hz]. run (bmap_ok s I L ino k H Hi Hk).
    assert (ptr s (I ino) k = 0) as ->; [|done]. unfold ptr. destruct (Z.ltb_spec k 12); [apply Hz; lia|].
    replace k with 12 by lia. rewrite (Hz 12) by lia. by destruct (_ <? _).
  - destruct Hd as (Hk12 & Hn & Hs & Hd). run (bmap_ok s I L ino k H Hi Hk).
    assert (ptr s (I ino) k = i_block (I ino) k) as Ep by (unfold ptr; destruct (Z.ltb_spec k 12); [done|lia]). rewrite Ep.
    destruct (Z.eqb_spec (i_block (I ino) k) 0); [done|].
    assert (in_dev s (i_block (I ino) k)) as Hdev.
    { destruct (f_usable _ _ _ H ino k Hi) as (_ & _ & _ & Hdv & _).
      - unfold is_slot, nslots. destruct (bs_pos s Hr) as (_ & _ & ?). lia.
      - by rewrite slot_ptr, Ep by done.
      - by rewrite slot_ptr, Ep in Hdv by done. }
    run (read_block_ok s _ Hr Hdev). cbn [Z.eqb negb]. run_get. rewrite <- (dblock_blk s (I ino) k) by (done || lia).
    assert (walk_block (block_size s) (dblock s (I ino) k) (body (i_block (I ino) k) (dblock s (I ino) k)) a =
      scan (body (i_block (I ino) k) (dblock s (I ino) k)) (offs 0 es) a) as E.
    { unfold walk_block. rewrite <- (zlen_dblock s (I ino) k Hr) at 1 2. apply walk_seg; [|done|].
      - by rewrite zlen_dblock.
      - rewrite zlen_dblock by done. lia. }
    cbn [scan_dir]. unfold bind at 1, lift. rewrite E. destruct (scan _ (offs 0 es) a) as [[a'|x]|]; cbn; [|done..].
    apply IH; [done|lia|cbn in Hf; lia].
Qed.

(** Whatever calls fail, the walk stops early or with what the scan finds. *)
Lemma walk_dir_any s0 v : ready s0 -> forall D k a fuel s r0,
  drep s0 v D k -> 0 <= k -> (length D + 1 <= fuel)%nat -> unharmed s0 s -> scan_dir s0 v D k a = Some r0 ->
  exists r s', walk_dir fuel v body k a s = Some (r, s') /\ unharmed s0 s' /\ forall x, r = inr x -> r0 = inr x.
Proof.
  intros Hr. destruct (bs_pos s0 Hr) as (? & _ & ?).
  induction D as [|es D IH]; intros k a fuel s r0 Hd Hk Hf U Es; destruct fuel as [|fuel]; try (cbn in Hf; lia); cbn [walk_dir];
    (assert (geo s = geo s0) as Eg by (by destruct U as (? & ? & ->))).
  - destruct Hd as [Hk12 Hz]. assert (ext2_bmap v k s = Some (0, s)) as Eb.
    { unfold ext2_bmap. destruct (Z.ltb_spec k 12); [unfold ret; by rewrite Hz by lia|]. run_get. rewrite Hz by lia. by destruct (_ <? _). }
    run Eb. by eexists _, _.
  - destruct Hd as (Hk12 & Hn & Hs & Hd). assert (ext2_bmap v k s = Some (i_block v k, s)) as Eb.
    { unfold ext2_bmap. by rewrite (proj2 (Z.ltb_lt _ _) Hk12). }
    run Eb. rewrite (proj2 (Z.eqb_neq _ _) Hn). destruct (read_block_any s0 Hr s (i_block v k) Eg) as (rc & buf & s1 & E1 & U1 & Hb).
    run E1. assert (unharmed s0 s1) as U1' by (by etrans). destruct (Z.eqb_spec rc 0) as [->|]; cbn [negb]; [|by eexists _, _]. run_get.
    rewrite Hb by done. replace (blk s (i_block v k)) with (dblock s0 v k) by (rewrite dblock_blk by (done || lia); by destruct U as (? & ? & ->)).
    replace (block_size s1) with (block_size s0) by (by destruct U1' as (? & ? & ->)).
    assert (walk_block (block_size s0) (dblock s0 v k) (body (i_block v k) (dblock s0 v k)) a =
      scan (body (i_block v k) (dblock s0 v k)) (offs 0 es) a) as E.
    { unfold walk_block. rewrite <- (zlen_dblock s0 v k Hr) at 1 2. apply walk_seg; rewrite ?zlen_dblock; done || lia. }
    cbn [scan_dir] in Es. unfold bind at 1, lift. rewrite E. destruct (scan _ (offs 0 es) a) as [[a'|x]|]; cbn in Es |- *; [|by simplify_eq; eexists _, _|done].
    apply (IH (k + 1) a'); try done; [lia|cbn in Hf; lia].
Qed.
End walk_dir.

Lemma dir_rounds_ok s v D : ready s -> drep s v D 0 -> (length D + 1 <= dir_rounds s)%nat.
Proof.
  intros Hr Hd%drep_bound. destruct (bs_pos s Hr) as (? & _ & ?). unfold dir_rounds, nslots. unfold zlen in Hd. lia.
Qed.

(** Where an entry is. *)
Definition dir_end (es : list dent) : Z := foldl (fun o e => o + d_rec e) 0 es.
Fixpoint locate (v name : list Z) (D : list (list dent)) (k : Z) : option found :=
  match D with
  | [] => None
  | es :: D =>
    match List.find (fun '(_, e) => matches name e) (offs 0 es) with
    | Some (o, e) => Some (mk_found (d_ino e) (d_type e) (i_block v k) o)
    | None => locate v name D (k + 1)
    end
  end.

Lemma scan_dir_match s v name D k :
  ready s -> drep s v D k ->
  scan_dir (match_at name) s v D k tt = Some (match locate v name D k with Some f => inr f | None => inl tt end).
Proof.
  intros Hr. revert k; induction D as [|es D IH]; intros k; cbn; [done|]. intros (_ & _ & Hs & Hd).
  rewrite scan_match; [|by rewrite zlen_dblock|done]. cbn. destruct (List.find _ _) as [[o e]|]; [done|]. by apply IH.
Qed.

Lemma find_offs (p : dent -> bool) lo es :
  match List.find (fun '(_, e) => p e) (offs lo es) with
  | Some (o, e) => exists es1 es2, es = es1 ++ e :: es2 /\ o = foldl (fun o e => o + d_rec e) lo es1 /\ p e = true
  | None => Forall (fun e => p e = false) es
  end.
Proof.
  revert lo; induction es as [|e es IH]; intros lo; cbn; [done|]. destruct (p e) eqn:E; [by exists [], es|].
  specialize (IH (lo + d_rec e)). destruct (List.find _ _) as [[o e']|].
  - destruct IH as (es1 & es2 & -> & -> & Hp). by exists (e :: es1), es2.
  - by constructor.
Qed.

Lemma locate_ok v name D k :
  match locate v name D k with
  | Some f => exists D1 es1 e es2 D2, D = D1 ++ (es1 ++ e :: es2) :: D2 /\ matches name e = true /\
      f = mk_found (d_ino e) (d_type e) (i_block v (k + zlen D1)) (dir_end es1)
  | None => Forall (fun e => matches name e = false) (concat D)
  end.
Proof.
  revert k; induction D as [|es D IH]; intros k; cbn; [done|]. pose proof (find_offs (matches name) 0 es) as Hf.
  destruct (List.find _ _) as [[o e]|].
  - destruct Hf as (es1 & es2 & -> & -> & Hp). exists [], es1, e, es2, D. split_and!; [done..|].
    unfold zlen. cbn. by rewrite Z.add_0_r.
  - specialize (IH (k + 1)). destruct (locate v name D (k + 1)).
    + destruct IH as (D1 & es1 & e & es2 & D2 & -> & Hp & ->). exists (es :: D1), es1, e, es2, D2. split_and!; [done..|].
      unfold zlen. cbn. do 2 f_equal. lia.
    + by apply Forall_app_2.
Qed.

Lemma matches_live name e : matches name e = true <-> live e = Some (name, (d_ino e, d_type e)).
Proof.
  unfold matches, live. destruct (d_ino e =? 0); cbn; [done|]. rewrite bool_decide_eq_true. naive_solver.
Qed.

Lemma entries_split D1 es1 e es2 D2 :
  entries (D1 ++ (es1 ++ e :: es2) :: D2) = (entries D1 ++ lives es1) ++ (lives [e] ++ (lives es2 ++ entries D2)).
Proof.
  unfold entries, lives. rewrite concat_app, omap_app. cbn. rewrite !omap_app. cbn.
  destruct (live e); cbn; by rewrite <- ?app_assoc.
Qed.

Lemma locate_lookup v name D :
  NoDup (entries D).*1 ->
  match locate v name D 0 with
  | Some f => (list_to_map (entries D) : gmap (list Z) (Z * Z)) !! name = Some (f_ino f, f_type f)
  | None => (list_to_map (entries D) : gmap (list Z) (Z * Z)) !! name = None
  end.
Proof.
  intros Hnd. pose proof (locate_ok v name D 0) as Hl. destruct (locate v name D 0).
  - destruct Hl as (D1 & es1 & e & es2 & D2 & -> & Hm & ->). apply elem_of_list_to_map; [done|]. rewrite entries_split.
    apply elem_of_app. right. apply elem_of_app. left. unfold lives. cbn. rewrite (proj1 (matches_live name e) Hm). by left.
  - apply not_elem_of_list_to_map. intros ([n [i t]] & -> & Hin)%list_elem_of_fmap. unfold entries, lives in Hin.
    apply list_elem_of_omap in Hin as (e & Hin & He). rewrite Forall_forall in Hl. specialize (Hl e Hin).
    assert (matches n e = true) as Hm; [|cbn in Hl; congruence]. unfold live, matches in *.
    destruct (d_ino e =? 0); [done|]. injection He as <- _ _. by rewrite bool_decide_eq_true_2.
Qed.

(** [ext2_find_dirent] looks the name up. *)
Lemma find_dirent_loc s L ino D name :
  consistent s L -> L ino -> drep s (inode s ino) D 0 -> Z.land (i_mode (inode s ino)) EXT2_S_IFDIR <> 0 ->
  ext2_find_dirent ino name s =
    Some (match locate (inode s ino) name D 0 with Some f => (0, Some f) | None => (- ENOENT, None) end, s).
Proof.
  intros H Hi Hd Hm. pose proof (files_ready _ _ _ H) as Hr. unfold ext2_find_dirent.
  run (read_inode_ok s ino (al_layout s (f_alloc _ _ _ H)) (f_valid _ _ _ H ino Hi)). cbn [Z.eqb negb].
  destruct (Z.eqb_spec (Z.land (i_mode (inode s ino)) EXT2_S_IFDIR) 0); [done|].
  run (kmalloc_ok s Hr). cbn [negb]. run_get.
  pose proof (walk_dir_ok (match_at name) s (inode s) L ino D 0 tt (dir_rounds s) H Hi Hd ltac:(lia)
    (dir_rounds_ok s _ D Hr Hd)) as E. rewrite (scan_dir_match s _ name D 0 Hr Hd) in E. cbn in E. run E.
  by destruct (locate _ _ _ _).
Qed.

Lemma find_dirent_spec s L ino m name :
  consistent s L -> L ino -> directory s ino m ->
  exists r, ext2_find_dirent ino name s = Some (r, s) /\
    match m !! name with
    | None => r = (- ENOENT, None)
    | Some (i, t) => exists f, r = (0, Some f) /\ f_ino f = i /\ f_type f = t
    end.
Proof.
  intros H Hi (D & Hd & Hnd & -> & Hm). eexists. split; [by apply (find_dirent_loc s L ino D name)|].
  pose proof (locate_lookup (inode s ino) name D Hnd) as Hl. destruct (locate _ _ _ _) as [f|]; rewrite Hl; [by exists f|done].
Qed.

(** Whatever calls fail, it changes nothing and finds no entry that is not
    there. *)
Lemma find_dirent_any s L ino m name :
  consistent (calm s) L -> L ino -> directory (calm s) ino m ->
  exists r s', ext2_find_dirent ino name s = Some (r, s') /\ unharmed s s' /\
    ((exists f, r = (0, Some f) /\ m !! name = Some (f_ino f, f_type f)) \/ exists rc, r = (rc, None) /\ rc < 0).
Proof.
  intros H Hi (D & Hd & Hnd & -> & Hm). pose proof (files_ready _ _ _ H) as Hr. pose proof (al_layout _ (f_alloc _ _ _ H)) as Hl.
  set (v := inode (calm s) ino) in *. unfold ext2_find_dirent.
  assert (forall s', unharmed (calm s) s' -> unharmed s s') as Hcalm by (intros s' (rc & o & ->); by exists rc, o).
  destruct (read_inode_any _ Hr s ino Hl (unharmed_calm s) (f_valid _ _ _ H ino Hi)) as (rc & v1 & s1 & E1 & U1 & Hv1). run E1.
  destruct (Z.eqb_spec rc 0) as [->|]; cbn [negb]; [rewrite Hv1 by done; fold v|eexists _, _; split_and!; [done|auto|right; by eexists]].
  rewrite (proj2 (Z.eqb_neq _ _) Hm). destruct (kmalloc_any s1) as (ok & s2 & E2 & U2). run E2.
  assert (unharmed (calm s) s2) as U2' by (by etrans). destruct ok; cbn [negb]; [|eexists _, _; split_and!; [done|auto|right; by eexists]]. run_get.
  destruct (walk_dir_any (match_at name) _ v Hr D 0 tt (dir_rounds s2) s2
    (match locate v name D 0 with Some f => inr f | None => inl tt end) Hd ltac:(lia)) as (r & s3 & E3 & U3 & Hx); [|done|by apply scan_dir_match|].
  { pose proof (dir_rounds_ok _ _ D Hr Hd) as Hdr. by destruct U2' as (? & ? & ->). }
  run E3. destruct r as [[]|f]; (eexists _, _; split_and!; [done|auto|]); [right; by eexists|left; exists f; split; [done|]].
  pose proof (locate_lookup v name D Hnd) as Hll. specialize (Hx f eq_refl). destruct (locate v name D 0); [|done]. by injection Hx as ->.
Qed.

(** ** Changing a directory *)

(** The inode fields a change of the entries leaves alone: all but the size,
    the modification time, the block count and the pointers. *)
Definition dir_attrs (v v' : list Z) : Prop :=
  forall n o, 0 <= o ->
    o + Z.of_nat n <= 4 \/ 8 <= o /\ o + Z.of_nat n <= 16 \/ 20 <= o /\ o + Z.of_nat n <= 28 \/
    32 <= o /\ o + Z.of_nat n <= 40 \/ 100 <= o -> ld n o v' = ld n o v.
#[export] Instance dir_attrs_refl : Reflexive dir_attrs.
Proof. done. Qed.
#[export] Instance dir_attrs_trans : Transitive dir_attrs.
Proof. intros v1 v2 v3 H12 H23 n o Ho Hr. by rewrite H23, H12. Qed.

Lemma dir_attrs_st n o x v :
  inode_bytes v -> 0 <= o -> 4 <= o /\ o + Z.of_nat n <= 8 \/ 16 <= o /\ o + Z.of_nat n <= 20 \/
    28 <= o /\ o + Z.of_nat n <= 32 \/ 40 <= o /\ o + Z.of_nat n <= 100 -> dir_attrs v (st n o x v).
Proof. intros [Hl _] Ho Hc m o' Ho' Hr. apply ld_st_apart; lia. Qed.

Record dstep (L : Z -> Prop) (dir : Z) (s s' : ext2_fs) : Prop := {
  ds_files : consistent s' L;
  ds_same : same s s';
  ds_others : others_kept L dir s s';
  ds_inodes : forall i, valid_ino s i -> i <> dir -> inode s' i = inode s i;
  ds_attrs : dir_attrs (inode s dir) (inode s' dir);
  ds_ibits : forall i, 0 <= i < total KInode s -> kbit KInode s' i = kbit KInode s i;
}.

(** The other files keep their blocks. *)
Definition slots_kept (L : Z -> Prop) (dir : Z) (s s' : ext2_fs) : Prop :=
  forall i k, L i -> i <> dir -> is_slot s k -> slot s' (inode s' i) k = slot s (inode s i) k.

Lemma files_iupd_self s L ino : consistent s L -> files s (iupd (inode s) ino (inode s ino)) L.
Proof. intros H. apply (files_ext L s (inode s)); [|done]. intros i _. unfold iupd. by destruct (Z.eqb_spec i ino) as [->|]. Qed.

Lemma dblock_put s s' v v' kk w :
  ready s -> geo s' = geo s -> 0 <= kk -> zlen w = block_size s ->
  (forall x, 0 <= x -> fbyte s' v' x = if bool_decide (x / block_size s = kk) then byte w (x mod block_size s) else fbyte s v x) ->
  forall j, 0 <= j -> dblock s' v' j = if j =? kk then w else dblock s v j.
Proof.
  intros Hr Hg Hkk Hl Hx j Hj. destruct (bs_pos s Hr) as (? & _).
  assert (forall i, 0 <= i < block_size s -> (j * block_size s + i) / block_size s = j /\ (j * block_size s + i) mod block_size s = i) as Hd.
  { intros i Hi. split; [rewrite Z.div_add_l, Z.div_small by lia; lia|]. by rewrite Z.add_comm, Z.mod_add, Z.mod_small by lia. }
  apply byte_ext; unfold dblock; rewrite zlen_content, Hg by (rewrite ?Hg; lia).
  - destruct (j =? kk); [done|]. by rewrite zlen_content by lia.
  - intros i Hi. rewrite byte_content by lia. rewrite Hx by nia. destruct (Hd i Hi) as [-> ->].
    destruct (Z.eqb_spec j kk); case_bool_decide; try done. by rewrite byte_content by lia.
Qed.

Lemma dir_block_at s L dir D1 es D2 :
  consistent s L -> L dir -> drep s (inode s dir) (D1 ++ es :: D2) 0 ->
  let v := inode s dir in let k := zlen D1 in let p := i_block v k in
  0 <= k < 12 /\ p <> 0 /\ ptr s v k = p /\ usable s p /\ dblock s v k = blk s p /\ seg (dblock s v k) 0 es (block_size s).
Proof.
  intros H Hi Hd v k p. pose proof (files_ready _ _ _ H) as Hr. destruct (bs_pos s Hr) as (Hbs & _ & HP).
  pose proof (drep_bound _ _ _ _ Hd) as Hk. pose proof (drep_block _ _ _ _ _ _ Hd) as Hs.
  assert (zlen (D1 ++ es :: D2) = k + 1 + zlen D2) as El by (unfold k, zlen; rewrite length_app; cbn; lia).
  pose proof (zlen_nonneg D1) as H1. fold k in H1. pose proof (zlen_nonneg D2). rewrite El in Hk. assert (0 <= k < 12) as Hk12 by lia.
  assert (p <> 0) as Hn by (apply (drep_ptr s v _ 0 k Hd); lia).
  assert (ptr s v k = p) as Ep by (unfold ptr; by destruct (Z.ltb_spec k 12); [|lia]).
  split_and!; try done; [lia..| |by apply dblock_blk].
  rewrite <- Ep, <- slot_ptr by lia. apply (f_usable _ _ _ H); [done|unfold is_slot, nslots; lia|].
  fold v. by rewrite slot_ptr, Ep by lia.
Qed.

Lemma dir_rewrite_ok s L dir D1 es D2 b' es' :
  consistent s L -> L dir -> drep s (inode s dir) (D1 ++ es :: D2) 0 ->
  zlen b' = block_size s -> bytes b' -> seg b' 0 es' (block_size s) ->
  let v := inode s dir in
  exists s1 s', ext2_write_block (i_block v (zlen D1)) b' s = Some (0, s1) /\ ext2_read_inode dir s1 = Some ((0, v), s1) /\
    ext2_write_inode dir (set_i_mtime 0 v) s1 = Some (0, s') /\ dstep L dir s s' /\ drep s' (inode s' dir) (D1 ++ es' :: D2) 0 /\ slots_kept L dir s s'.
Proof.
  intros H Hi Hd Hl Hb Hs v. pose proof (files_ready _ _ _ H) as Hr. destruct (bs_pos s Hr) as (Hbs & _ & HP).
  pose proof (f_valid _ _ _ H) as Hvalid. pose proof (f_inode _ _ _ H dir Hi) as Hv. fold v in Hv, Hd.
  destruct (dir_block_at s L dir D1 es D2 H Hi Hd) as (Hk12 & Hn & Ep & Hu & _ & _). fold v in Hn, Ep, Hu.
  pose proof Hu as (_ & _ & _ & Hdev & _).
  assert (ptr s v (zlen D1) <> 0) as Hpn by by rewrite Ep.
  destruct (put_data s (inode s) L dir (zlen D1) b' H Hi ltac:(lia) Hpn Hl Hb) as (Hf1 & Hp1 & Hi1 & Hx1).
  fold v in Hf1, Hp1, Hi1, Hx1. rewrite Ep in Hf1, Hp1, Hi1, Hx1. set (s1 := put (i_block v (zlen D1)) b' s) in *.
  assert (files s1 (iupd (inode s) dir v) L) as Hf1'.
  { apply (files_ext L s1 (inode s)); [|done]. intros i _. unfold iupd. by destruct (Z.eqb_spec i dir) as [->|]. }
  destruct (rewrite_inode_ok s1 (inode s) L dir v (set_i_mtime 0 v) Hf1' Hi) as (s' & E2 & Hf2 & Hs2 & Hi2 & Hx2 & Hp2 & Hk2).
  { by apply inode_bytes_st. } { intros k Hkk. apply i_block_st; [done|lia..]. }
  assert (forall i, valid_ino s i -> inode s' i = iupd (inode s) dir (set_i_mtime 0 v) i) as Hi'.
  { intros i Hvi. rewrite Hi2 by done. unfold iupd. destruct (i =? dir); [done|]. by apply Hi1. }
  assert (same s s') as Hss by (etrans; [apply same_put|apply Hs2]).
  assert (forall i x, L i -> 0 <= x -> fbyte s' (inode s' i) x =
    if bool_decide (i = dir /\ x / block_size s = zlen D1) then byte b' (x mod block_size s) else fbyte s (inode s i) x) as Hx'.
  { intros i x Hii Hxx. rewrite Hi' by by apply Hvalid. rewrite Hx2 by done. rewrite <- Hx1 by done. f_equal. unfold iupd.
    by destruct (Z.eqb_spec i dir) as [->|]. }
  exists s1, s'. split_and!; [by apply write_block_ok| |done| | |].
  - rewrite read_inode_ok; [by rewrite Hi1 by by apply Hvalid|apply al_layout, (f_alloc _ _ _ Hf1)|by apply Hvalid].
  - constructor; [| done | | | |].
    + apply (files_ext L s' (iupd (inode s) dir (set_i_mtime 0 v))); [|done]. intros i Hii. by apply Hi', Hvalid.
    + intros i Hii Hne. split; [rewrite Hi' by (by apply Hvalid); by apply iupd_ne|]. intros x Hxx.
      rewrite Hx' by done. by rewrite bool_decide_eq_false_2 by tauto.
    + intros i Hvi Hne. rewrite Hi' by done. by apply iupd_ne.
    + rewrite Hi', iupd_eq by by apply Hvalid. apply dir_attrs_st; [done|lia..].
    + intros i Hb0. rewrite Hk2 by done. unfold s1. apply kbit_put; [|done|by apply usable_not_book].
      apply al_layout, (f_alloc _ _ _ H).
  - rewrite Hi', iupd_eq by by apply Hvalid.
    assert (forall j, 0 <= j -> dblock s' (set_i_mtime 0 v) j = if j =? zlen D1 then b' else dblock s v j) as Hdb.
    { apply dblock_put; [done|apply Hss|lia|done|]. intros x Hxx. specialize (Hx' dir x Hi Hxx).
      rewrite Hi', iupd_eq in Hx' by by apply Hvalid. rewrite Hx'. repeat case_bool_decide; tauto || done. }
    apply (drep_upd s s' v _ D1 es es' D2 0); [done|apply Hss|done| | | |done].
    + intros j Hj. apply i_block_st; [done|lia..].
    + intros j Hj Hne. rewrite Hdb by done. by destruct (Z.eqb_spec j (zlen D1)); [lia|].
    + rewrite Hdb by lia. by destruct (Z.eqb_spec (0 + zlen D1) (zlen D1)); [|lia].
  - intros i k Hii Hne [Hk _]. rewrite Hi' by by apply Hvalid. unfold slot. destruct (Z.eqb_spec k (-1)); [by rewrite iupd_ne|].
    rewrite Hp2 by (done || lia). rewrite !iupd_ne by done. apply Hp1; [done|lia].
Qed.

Lemma dstep_refl L dir s : consistent s L -> dstep L dir s s.
Proof. intros H. by constructor. Qed.

(** *** Names and maps *)

Lemma dirmap_del (l1 l2 : list (list Z * (Z * Z))) name x :
  NoDup (l1 ++ (name, x) :: l2).*1 ->
  NoDup (l1 ++ l2).*1 /\
  list_to_map (l1 ++ l2) = delete name (list_to_map (l1 ++ (name, x) :: l2) : gmap (list Z) (Z * Z)).
Proof.
  intros Hnd. pose proof (Permutation_middle l1 l2 (name, x)) as Hp.
  assert (NoDup ((name, x) :: l1 ++ l2).*1) as Hnd' by (by rewrite Hp). cbn in Hnd'. apply NoDup_cons in Hnd' as [Hni Hnd'].
  split; [done|]. rewrite (list_to_map_proper _ _ Hnd (symmetry Hp)). cbn. rewrite delete_insert_id; [done|].
  by apply not_elem_of_list_to_map.
Qed.

Lemma dirmap_add (l1 l2 : list (list Z * (Z * Z))) name x :
  NoDup (l1 ++ l2).*1 -> (list_to_map (l1 ++ l2) : gmap (list Z) (Z * Z)) !! name = None ->
  NoDup (l1 ++ (name, x) :: l2).*1 /\
  list_to_map (l1 ++ (name, x) :: l2) = <[name := x]> (list_to_map (l1 ++ l2) : gmap (list Z) (Z * Z)).
Proof.
  intros Hnd Hno%not_elem_of_list_to_map. pose proof (Permutation_middle l1 l2 (name, x)) as Hp.
  assert (NoDup ((name, x) :: l1 ++ l2).*1) as Hnd' by by apply NoDup_cons.
  split; [by rewrite <- Hp|]. by rewrite <- (list_to_map_proper _ _ Hnd' Hp).
Qed.

(** *** [dirent_del] *)

Lemma dirent_del_spec s L dir m name :
  consistent s L -> L dir -> directory s dir m ->
  exists s', dirent_del dir name s = Some (match m !! name with Some _ => 0 | None => - ENOENT end, s') /\ dstep L dir s s' /\
    directory s' dir (delete name m) /\ slots_kept L dir s s'.
Proof.
  intros H Hi (D & Hd & Hnd & -> & Hm). pose proof (files_ready _ _ _ H) as Hr. destruct (bs_pos s Hr) as (Hbs & _ & HP).
  unfold dirent_del. run (find_dirent_loc s L dir D name H Hi Hd Hm).
  pose proof (locate_lookup (inode s dir) name D Hnd) as Hlk. pose proof (locate_ok (inode s dir) name D 0) as Hloc.
  destruct (locate _ _ _ _) as [f|]; rewrite Hlk; cycle 1.
  { exists s. split_and!; [done|by apply dstep_refl| |done]. exists D. by rewrite delete_id. }
  destruct Hloc as (D1 & es1 & e & es2 & D2 & -> & He & ->). cbn [f_block f_off]. rewrite Z.add_0_l.
  run (kmalloc_ok s Hr). cbn [negb]. set (v := inode s dir) in *.
  destruct (dir_block_at s L dir D1 (es1 ++ e :: es2) D2 H Hi Hd) as (Hk & Hn & _ & Hu & Hblk & Hseg). fold v in Hn, Hu, Hblk, Hseg.
  destruct Hu as (_ & _ & _ & Hdev & _). run (read_block_ok s _ Hr Hdev). cbn [Z.eqb negb]. rewrite <- Hblk.
  pose proof Hseg as Hseg'. apply dseg_app in Hseg' as (o & Hs1 & Hs2). pose proof (seg_end _ _ _ _ Hs1) as Eo. fold (dir_end es1) in Eo.
  rewrite <- Eo. pose proof (zlen_dblock s v (zlen D1) Hr) as Hzl. rewrite <- Hzl in Hs2.
  destruct (del_at_ok _ es1 e es2 o Hs1 Hs2 ltac:(lia)) as (b' & es' & E & Hst & Hs' & Hlv).
  assert (lift (del_at (dblock s v (zlen D1)) o) s = Some (b', s)) as El by (unfold lift; by rewrite E). run El.
  destruct (dir_rewrite_ok s L dir D1 (es1 ++ e :: es2) D2 b' es' H Hi Hd) as (s1 & s' & E1 & E2 & E3 & Hstep & Hd' & Hsl).
  { by rewrite (sd_len _ _ _ _ Hst). }
  { apply (sd_bytes _ _ _ _ Hst). rewrite Hblk. by apply blk_ok. }
  { by rewrite Hzl in Hs'. }
  fold v in E1, E2, E3. run E1. run E2. cbn [Z.eqb]. run E3. exists s'. split_and!; [done|done| |done].
  assert (entries (D1 ++ es' :: D2) = (entries D1 ++ lives es1) ++ (lives es2 ++ entries D2)) as Ee.
  { unfold entries, lives in *. rewrite concat_app, omap_app. cbn. rewrite omap_app, Hlv. by rewrite <- !app_assoc. }
  rewrite entries_split in *. assert (lives [e] = [(name, (d_ino e, d_type e))]) as El1.
  { unfold lives. cbn. by rewrite (proj1 (matches_live name e) He). }
  rewrite El1 in *. cbn [app] in *. destruct (dirmap_del _ _ _ _ Hnd) as [Hnd' Hmap].
  exists (D1 ++ es' :: D2). rewrite Ee. split_and!; try done.
  pose proof (ds_attrs _ _ _ _ Hstep) as Ha. unfold i_mode. by rewrite (Ha 2%nat 0) by lia.
Qed.

(** *** [dirent_add] *)

Lemma drep_snoc s s' v v' D k es :
  geo s' = geo s -> 0 <= k -> k + zlen D < 12 -> i_block v' (k + zlen D) <> 0 ->
  (forall j, 0 <= j <= 12 -> j <> k + zlen D -> i_block v' j = i_block v j) ->
  (forall j, 0 <= j < k + zlen D -> dblock s' v' j = dblock s v j) ->
  seg (dblock s' v' (k + zlen D)) 0 es (block_size s) -> drep s v D k -> drep s' v' (D ++ [es]) k.
Proof.
  intros Hg. revert k; induction D as [|x D IH]; intros k Hk; cbn [app drep].
  - unfold zlen. cbn [length]. rewrite Z.add_0_r. intros Hk12 Hn Hb _ Hs [_ Hz]. rewrite Hg. split_and!; try done; [lia|].
    intros j Hj. rewrite Hb by lia. apply Hz. lia.
  - replace (k + zlen (x :: D)) with (k + 1 + zlen D) by (unfold zlen; cbn [length]; lia). pose proof (zlen_nonneg D).
    intros Hk12 Hn Hb Hd Hs (? & ? & ? & ?). rewrite Hg, Hb, Hd by lia. split_and!; try done. apply IH; try done. lia.
Qed.

Section dir_add.
Context (name : list Z) (ino ft : Z).
Context (Hino : 0 < ino < U32) (Hft : 0 <= ft < 256) (Hname : zlen name < 256) (Hbytes : bytes name).
Local Abbreviation new_entry := (name, (ino, ft)).

Definition new_block (s : ext2_fs) : list dent := [new_dent (block_size s) ino ft name].

Lemma new_block_ok s :
  ready s -> exists b, put_dirent 0 ino (block_size s) ft name (zeros (block_size s)) = Some b /\
    zlen b = block_size s /\ bytes b /\ seg b 0 (new_block s) (block_size s).
Proof.
  intros Hr. destruct (bs_pos s Hr) as (? & ? & _). pose proof (zlen_zeros (block_size s) ltac:(lia)) as Hz. pose proof (zlen_nonneg name).
  destruct (put_dirent_ok (zeros (block_size s)) 0 ino (block_size s) ft name) as (b & E & Hst & Hd); [lia..|done|lia|done|].
  exists b. split_and!; [done|rewrite (sd_len _ _ _ _ Hst); lia|apply (sd_bytes _ _ _ _ Hst), bytes_zeros|].
  destruct (Z.eqb_spec ino 0); [lia|]. cbn. unfold fits; cbn. split_and!; try done; try lia.
  destruct (ready_bs s Hr) as [->|[->| ->]]; done.
Qed.

(** The inode of a directory that got block [b] at position [k]. *)
Definition grown_inode (s : ext2_fs) (k b : Z) (v : list Z) : list Z :=
  let v := add_i_blocks (block_size s / 512) (set_i_block k b v) in
  set_i_mtime 0 (set_i_size (i_size v + block_size s) v).

Lemma grown_inode_ok s k b v :
  inode_bytes v -> 0 <= k < 12 -> 0 <= b < U32 -> inode_bytes (grown_inode s k b v) /\ dir_attrs v (grown_inode s k b v) /\
  forall j, 0 <= j <= 12 -> i_block (grown_inode s k b v) j = if j =? k then b else i_block v j.
Proof.
  intros Hv Hk Hb. assert (inode_bytes (set_i_block k b v)) as H1 by (apply inode_bytes_set_block; [done|lia]).
  set (w := add_i_blocks (block_size s / 512) (set_i_block k b v)). assert (inode_bytes w) as H2 by by apply inode_bytes_add_blocks.
  assert (inode_bytes (set_i_size (i_size w + block_size s) w)) as H3 by by apply inode_bytes_st.
  split_and!; [by apply inode_bytes_st| |].
  - etrans; [apply (dir_attrs_st 4 (40 + 4 * k) b); [done|lia..]|]. etrans; [apply (dir_attrs_st 4 28); [done|lia..]|].
    etrans; [apply (dir_attrs_st 4 4); [done|lia..]|]. apply (dir_attrs_st 4 16); [done|lia..].
  - intros j Hj. unfold grown_inode. fold w. unfold set_i_mtime, set_i_size. rewrite !i_block_st by (done || lia).
    unfold w. rewrite i_block_add_blocks by (done || lia). apply i_block_set; [done|lia..].
Qed.

Lemma add_block_full s L dir D :
  consistent s L -> L dir -> drep s (inode s dir) D 0 -> zlen D = 12 ->
  exists s', add_block dir (inode s dir) name ino ft 12 s = Some (- ENOSPC, s') /\ dstep L dir s s' /\ drep s' (inode s' dir) D 0.
Proof.
  intros H Hi Hd Hk. pose proof (files_ready _ _ _ H) as Hr. pose proof (f_valid _ _ _ H) as Hvalid. unfold add_block. run_get.
  destruct (alloc_grew L (inode s) dir Hi s _ (consistent_view s L dir H Hi)) as
    [[Ea _]|(b & s1 & Ea & Hb & Hg & Hu & _ & Hud & _ & _)].
  { run Ea. exists s. split_and!; [done|by apply dstep_refl|done]. }
  run Ea. destruct (Z.eqb_spec b 0); [lia|]. cbn [Z.ltb Z.compare Pos.compare Pos.compare_cont].
  destruct (free_pending (inode s) L (fun _ => b) s1 (eq 0) 0) as (s2 & E2 & Hp2 & Hf2 & _); [|done|lia|].
  { constructor; [apply (vw_disk _ _ _ _ _ (g_view _ _ _ _ _ _ _ Hg))|done|congruence]. }
  run E2. pose proof (g_same _ _ _ _ _ _ _ Hg) as Hs1. pose proof (fr_same _ _ _ _ Hf2) as Hs2.
  assert (forall i, valid_ino s i -> inode s2 i = inode s i) as Hin.
  { intros i Hv. rewrite (fr_inode _ _ _ _ Hf2) by by rewrite (valid_same s s1). by apply (g_inode _ _ _ _ _ _ _ Hg). }
  assert (same s s2) as Hss by by etrans.
  assert (forall i x, L i -> 0 <= x -> fbyte s2 (inode s2 i) x = fbyte s (inode s i) x) as Hx.
  { intros i x Hii Hxx. rewrite Hin by by apply Hvalid. rewrite (fr_bytes _ _ _ _ Hf2) by done. by apply (g_disk _ _ _ _ _ _ _ Hg). }
  exists s2. split_and!; [done| |].
  - constructor; try done.
    + apply (files_ext L s2 (inode s)); [intros i Hii; by apply Hin, Hvalid|apply Hp2].
    + intros i Hii _. split; [by apply Hin, Hvalid|]. intros x Hxx. by apply Hx.
    + intros i Hv _. by apply Hin.
    + by rewrite Hin by by apply Hvalid.
    + intros i Hb0. rewrite (fr_ibit _ _ _ _ Hf2) by by rewrite (total_same _ s s1 Hs1). by apply (g_ibit _ _ _ _ _ _ _ Hg).
  - apply (drep_ext s s2 (inode s dir)); [done|apply Hss|done| |intros x Hxx; by apply Hx|done].
    intros j Hj. by rewrite Hin by by apply Hvalid.
Qed.

(** The data of a fresh block that was attached to the inode, then the inode. *)
Lemma attach_ok s L dir k b s1 w :
  consistent s L -> L dir -> let v := inode s dir in
  grew L (inode s) dir s v s1 v -> 0 <= k < 12 -> i_block v k = 0 -> 0 < b < U32 -> usable s1 b ->
  unowned s1 (iupd (inode s) dir v) L b -> blk s1 b = zeros (block_size s1) -> zlen w = block_size s -> bytes w ->
  let v' := grown_inode s k b v in
  exists s2 s', ext2_write_block b w s1 = Some (0, s2) /\ ext2_write_inode dir v' s2 = Some (0, s') /\ dstep L dir s s' /\
    inode s' dir = v' /\ forall j, 0 <= j -> dblock s' v' j = if j =? k then w else dblock s v j.
Proof.
  intros H Hi v Hg Hk H0 Hb Hu Hum Hz Hl Hw v'. pose proof (files_ready _ _ _ H) as Hr. pose proof (f_valid _ _ _ H) as Hvalid.
  pose proof (g_same _ _ _ _ _ _ _ Hg) as Hs1. assert (block_size s1 = block_size s) as Ebs by by rewrite (same_geo _ _ Hs1).
  destruct (grew_attach L (inode s) dir Hi s1 v k b (block_size s / 512) (g_view _ _ _ _ _ _ _ Hg) ltac:(lia) H0 Hu ltac:(lia) Hum Hz)
    as (Hg2 & _ & Hp1). specialize (Hp1 ltac:(lia)). set (v1 := add_i_blocks _ _) in *.
  pose proof (f_inode _ _ _ H dir Hi) as Hv. destruct (grown_inode_ok s k b v Hv Hk ltac:(lia)) as (Hv' & Hat & Hib). fold v' in Hv', Hat, Hib.
  pose proof (vw_mem _ _ _ _ _ (g_view _ _ _ _ _ _ _ Hg2)) as Hm1. pose proof (files_ready _ _ _ Hm1) as Hr1.
  assert (inode_bytes v1) as Hv1 by (by eapply (view_inode L (inode s) dir Hi s1), Hg2).
  assert (ptr s1 v1 k <> 0) as Hpn by lia. pose proof Hu as (_ & _ & _ & Hdev & _).
  destruct (put_data s1 (iupd (inode s) dir v1) L dir k w Hm1 Hi ltac:(lia)) as (Hf2 & _ & Hi2 & Hx2);
    [by rewrite iupd_eq|by rewrite Ebs|done|]. rewrite iupd_eq, Hp1 in *. set (s2 := put b w s1) in *.
  destruct (rewrite_inode_ok s2 (inode s) L dir v1 v' Hf2 Hi Hv') as (s' & E3 & Hf3 & Hs3 & Hi3 & Hx3 & _ & Hk3).
  { intros j Hj. unfold v', grown_inode. fold v1. unfold set_i_mtime, set_i_size.
    rewrite !i_block_st by (done || lia || by apply inode_bytes_st). done. }
  assert (same s s') as Hss by (etrans; [apply Hs1|]; etrans; [apply same_put|apply Hs3]).
  assert (forall i, valid_ino s i -> inode s' i = iupd (inode s) dir v' i) as Hi'.
  { intros i Hvi. assert (valid_ino s1 i) as Hvi1 by by rewrite (valid_same s s1). rewrite Hi3, Hi2 by done. rewrite (g_inode _ _ _ _ _ _ _ Hg) by done. done. }
  assert (forall i x, L i -> 0 <= x -> fbyte s' (inode s' i) x =
    if bool_decide (i = dir /\ x / block_size s = k) then byte w (x mod block_size s) else fbyte s (inode s i) x) as Hx'.
  { intros i x Hii Hxx. rewrite Hi' by by apply Hvalid. rewrite Hx3, Hx2, Ebs by done.
    rewrite (g_mem _ _ _ _ _ _ _ Hg2), (g_mem _ _ _ _ _ _ _ Hg) by done. unfold iupd.
    by destruct (Z.eqb_spec i dir) as [->|]. }
  assert (inode s' dir = v') as Ev by (rewrite Hi' by (by apply Hvalid); apply iupd_eq).
  exists s2, s'. split_and!; [by apply write_block_ok|done| |done|].
  - constructor; try done.
    + apply (files_ext L s' (iupd (inode s) dir v')); [|done]. intros i Hii. by apply Hi', Hvalid.
    + intros i Hii Hne. split; [rewrite Hi' by (by apply Hvalid); by apply iupd_ne|]. intros x Hxx.
      rewrite Hx' by done. by rewrite bool_decide_eq_false_2 by tauto.
    + intros i Hvi Hne. rewrite Hi' by done. by apply iupd_ne.
    + by rewrite Ev.
    + intros i Hb0. rewrite <- (total_same KInode s s1 Hs1) in Hb0. rewrite Hk3 by done.
      unfold s2. rewrite kbit_put; [|apply al_layout, (f_alloc _ _ _ Hm1)|done|by apply usable_not_book].
      rewrite (total_same KInode s s1 Hs1) in Hb0. by apply (g_ibit _ _ _ _ _ _ _ Hg).
  - apply dblock_put; [done|apply Hss|lia|done|]. intros x Hxx. rewrite <- Ev, Hx' by done.
    repeat case_bool_decide; tauto || done.
Qed.

Lemma add_block_ok s L dir D :
  consistent s L -> L dir -> drep s (inode s dir) D 0 ->
  exists r s', add_block dir (inode s dir) name ino ft (zlen D) s = Some (r, s') /\ dstep L dir s s' /\
    ((r = 0 /\ drep s' (inode s' dir) (D ++ [new_block s]) 0) \/
     (r = - ENOSPC /\ drep s' (inode s' dir) D 0 /\ (all_used KBlock s \/ zlen D = 12))).
Proof.
  intros H Hi Hd. pose proof (files_ready _ _ _ H) as Hr. pose proof (drep_bound _ _ _ _ Hd) as Hk. pose proof (zlen_nonneg D) as Hk0.
  destruct (decide (zlen D = 12)) as [E|Hne].
  { destruct (add_block_full s L dir D H Hi Hd E) as (s' & Ea & Hst & Hd'). rewrite E. exists (- ENOSPC), s'.
    split_and!; [done..|]. right. auto. }
  unfold add_block. run_get.
  destruct (alloc_grew L (inode s) dir Hi s _ (consistent_view s L dir H Hi)) as
    [[Ea Hfull]|(b & s1 & Ea & Hb & Hg & Hu & Hum & _ & Hz & _)].
  { run Ea. exists (- ENOSPC), s. split_and!; [done|by apply dstep_refl|]. right. auto. }
  run Ea. destruct (Z.eqb_spec b 0); [lia|]. destruct (Z.ltb_spec (zlen D) 12); [|lia].
  destruct (new_block_ok s Hr) as (w & Ew & Hl & Hw & Hs). unfold bind at 1, lift. rewrite Ew. cbn [mbind option_bind].
  assert (i_block (inode s dir) (zlen D) = 0) as Hb0.
  { destruct (decide (i_block (inode s dir) (zlen D) = 0)) as [|Hn]; [done|]. apply (drep_ptr s _ D 0) in Hn; [lia|done|lia..]. }
  destruct (attach_ok s L dir (zlen D) b s1 w H Hi Hg ltac:(lia) Hb0 Hb Hu Hum Hz Hl Hw) as (s2 & s' & E2 & E3 & Hst & Ev & Hdb).
  run E2. fold (grown_inode s (zlen D) b (inode s dir)). run E3. exists 0, s'. split_and!; [done..|]. left. split; [done|].
  destruct (grown_inode_ok s (zlen D) b (inode s dir) (f_inode _ _ _ H dir Hi) ltac:(lia) ltac:(lia)) as (_ & _ & Hib).
  rewrite Ev. apply (drep_snoc s s' (inode s dir)); [apply Hst|done|lia|..].
  - rewrite Hib by lia. destruct (Z.eqb_spec (0 + zlen D) (zlen D)); lia.
  - intros j Hj Hn. rewrite Hib by lia. by destruct (Z.eqb_spec j (zlen D)); [lia|].
  - intros j Hj. rewrite Hdb by lia. by destruct (Z.eqb_spec j (zlen D)); [lia|].
  - rewrite Hdb by lia. by destruct (Z.eqb_spec (0 + zlen D) (zlen D)); [|lia].
  - done.
Qed.

Lemma add_loop_ok s L dir D2 D1 fuel :
  consistent s L -> L dir -> drep s (inode s dir) (D1 ++ D2) 0 -> (length D2 + 1 <= fuel)%nat ->
  exists r s', add_loop fuel dir (inode s dir) name ino ft (zlen D1) s = Some (r, s') /\ dstep L dir s s' /\
    ((r = 0 /\ exists D' pre post, drep s' (inode s' dir) D' 0 /\ entries (D1 ++ D2) = pre ++ post /\ entries D' = pre ++ new_entry :: post) \/
     (r = - ENOSPC /\ drep s' (inode s' dir) (D1 ++ D2) 0 /\ (all_used KBlock s \/ zlen (D1 ++ D2) = 12))).
Proof.
  intros H Hi. pose proof (files_ready _ _ _ H) as Hr. destruct (bs_pos s Hr) as (Hbs & _ & HP). set (v := inode s dir).
  revert D1 fuel; induction D2 as [|es D2 IH]; intros D1 fuel Hd Hf; destruct fuel as [|fuel]; try (cbn in Hf; lia); cbn [add_loop].
  - rewrite app_nil_r in *. run (bmap_ok s (inode s) L dir (zlen D1) H Hi (zlen_nonneg D1)). fold v.
    assert (ptr s v (zlen D1) = 0) as ->.
    { pose proof (drep_bound _ _ _ _ Hd). unfold ptr. pose proof (zlen_nonneg D1). destruct (Z.ltb_spec (zlen D1) 12).
      - destruct (decide (i_block v (zlen D1) = 0)) as [|Hn]; [done|]. apply (drep_ptr s _ D1 0) in Hn; [lia|done|lia..].
      - destruct (decide (i_block v 12 = 0)) as [->|Hn]; [by destruct (_ <? _)|]. apply (drep_ptr s _ D1 0) in Hn; [lia|done|lia..]. }
    cbn [Z.eqb]. destruct (add_block_ok s L dir D1 H Hi Hd) as (r & s' & E & Hst & Hor). exists r, s'. split_and!; [done..|].
    destruct Hor as [[-> Hd']|Hor]; [left|by right]. split; [done|]. eexists _, (entries D1), []. split_and!; [done|by rewrite app_nil_r|].
    unfold entries, lives. rewrite concat_app, omap_app. cbn. unfold live. cbn. by destruct (Z.eqb_spec ino 0); [lia|].
  - destruct (dir_block_at s L dir D1 es D2 H Hi Hd) as (Hk & Hn & Ep & Hu & Hblk & Hseg). fold v in Hn, Ep, Hu, Hblk, Hseg.
    run (bmap_ok s (inode s) L dir (zlen D1) H Hi (zlen_nonneg D1)). fold v. rewrite Ep. destruct (Z.eqb_spec (i_block v (zlen D1)) 0); [done|].
    destruct Hu as (_ & _ & _ & Hdev & _). run (read_block_ok s _ Hr Hdev). cbn [Z.eqb negb]. run_get. rewrite <- Hblk.
    pose proof (zlen_dblock s v (zlen D1) Hr) as Hzl. set (b := dblock s v (zlen D1)) in *.
    assert (bytes b) as Hb by (rewrite Hblk; by apply blk_ok). rewrite <- Hzl in Hseg.
    assert (walk_block (block_size s) b (add_at name ino ft (i_block v (zlen D1)) b) tt =
      scan (add_at name ino ft (i_block v (zlen D1)) b) (offs 0 es) tt) as Ew.
    { unfold walk_block. rewrite <- Hzl at 1 2. apply walk_seg; [done|done|lia]. }
    destruct (scan_add name ino ft Hino Hft Hname Hbytes (i_block v (zlen D1)) b es 0 Hseg ltac:(lia) Hb ltac:(lia)) as
      [Es|(b' & es' & pre & post & Es & Hst & Hs' & Hpre & Hlv)]; unfold bind at 1, lift; rewrite Ew, Es; cbn [mbind option_bind].
    + destruct (IH (D1 ++ [es]) fuel) as (r & s' & E & Hst & Hor); [by rewrite <- app_assoc|cbn in Hf; lia|].
      rewrite <- app_assoc in Hor. cbn in Hor. replace (zlen (D1 ++ [es])) with (zlen D1 + 1) in E by (unfold zlen; rewrite length_app; cbn; lia).
      by exists r, s'.
    + destruct (dir_rewrite_ok s L dir D1 es D2 b' es' H Hi Hd) as (s1 & s' & E1 & _ & E3 & Hstep & Hd' & _).
      { by rewrite (sd_len _ _ _ _ Hst). } { by apply (sd_bytes _ _ _ _ Hst). } { by rewrite Hzl in Hs'. }
      fold v in E1, E3. run E1. run E3. exists 0, s'. split_and!; [done..|]. left. split; [done|].
      exists (D1 ++ es' :: D2), (entries D1 ++ pre), (post ++ entries D2). split_and!; [done|..];
        unfold entries, lives in *; rewrite concat_app, omap_app; cbn; rewrite omap_app, ?Hpre, ?Hlv; by rewrite <- !app_assoc.
Qed.

Lemma dirent_add_spec s L dir m :
  consistent s L -> L dir -> directory s dir m -> m !! name = None ->
  exists r s', dirent_add dir name ino ft s = Some (r, s') /\ dstep L dir s s' /\
    ((r = 0 /\ directory s' dir (<[name := (ino, ft)]> m)) \/
     (r = - ENOSPC /\ directory s' dir m /\ (all_used KBlock s \/ i_block (inode s dir) 11 <> 0))).
Proof.
  intros H Hi (D & Hd & Hnd & -> & Hm) Hno. pose proof (files_ready _ _ _ H) as Hr. unfold dirent_add.
  run (read_inode_ok s dir (al_layout s (f_alloc _ _ _ H)) (f_valid _ _ _ H dir Hi)). cbn [Z.eqb negb].
  run (kmalloc_ok s Hr). cbn [negb]. run_get.
  destruct (add_loop_ok s L dir D [] (dir_rounds s) H Hi Hd (dir_rounds_ok s _ D Hr Hd)) as (r & s' & E & Hst & Hor).
  exists r, s'. split_and!; [exact E|done|]. assert (Z.land (i_mode (inode s' dir)) EXT2_S_IFDIR <> 0) as Hm'.
  { pose proof (ds_attrs _ _ _ _ Hst) as Ha. unfold i_mode. by rewrite (Ha 2%nat 0) by lia. }
  destruct Hor as [(-> & D' & pre & post & Hd' & Epre & Enew)|(-> & Hd' & Hor)]; cbn [app] in *.
  - left. split; [done|]. rewrite Epre in *. destruct (dirmap_add _ _ _ (ino, ft) Hnd Hno) as [Hnd' Hmap].
    exists D'. rewrite Enew. auto.
  - right. split_and!; [done|by exists D|]. destruct Hor as [?|E12]; [by left|right].
    apply (drep_ptr s _ D 0); [done|lia..].
Qed.

End dir_add.

(** ** Enumerating a directory *)

Definition nth_result (l : list (list Z * (Z * Z))) (index c : Z) : Z + (Z * Z * list Z) :=
  match l !!z (index - c) with
  | Some (nm, (i, t)) => inr (i, t, nm)
  | None => inl (c + zlen l)
  end.

Lemma nth_result_app l l' index c :
  0 <= c <= index ->
  nth_result (l ++ l') index c = match nth_result l index c with inl c' => nth_result l' index c' | inr x => inr x end.
Proof.
  intros Hc. unfold nth_result. destruct (decide (index - c < zlen l)).
  - destruct (zlookup_in_range l (index - c) ltac:(lia)) as [[nm [i t]] E]. rewrite E.
    assert ((l ++ l') !!z (index - c) = Some (nm, (i, t))) as ->; [|done]. unfold zlookup in *.
    destruct (0 <=? index - c); [|done]. by apply lookup_app_l_Some.
  - rewrite (zlookup_none l) by lia.
    assert ((l ++ l') !!z (index - c) = l' !!z (index - (c + zlen l))) as ->.
    { unfold zlookup, zlen in *. destruct (Z.leb_spec 0 (index - c)); [|lia].
      destruct (Z.leb_spec 0 (index - (c + Z.of_nat (length l)))); [|lia]. rewrite lookup_app_r by lia. f_equal. lia. }
    destruct (l' !!z _) as [[? []]|]; [done|]. f_equal. unfold zlen. rewrite length_app. lia.
Qed.

Lemma nth_result_le l index c c' : 0 <= c <= index -> nth_result l index c = inl c' -> 0 <= c' <= index.
Proof.
  intros Hc. unfold nth_result. destruct (_ !!z _) as [[? []]|] eqn:E; [done|]. intros [= <-].
  destruct (decide (index - c < zlen l)); [|pose proof (zlen_nonneg l); lia].
  destruct (zlookup_in_range l (index - c) ltac:(lia)). congruence.
Qed.

Lemma nth_at_ok index p b off e c :
  entry_at b off e -> d_nlen e < 256 -> nth_at index p b off c = Some (nth_result (lives [e]) index c).
Proof.
  intros He Hn. unfold nth_at. rewrite (entry_inode _ _ _ He). cbn [mbind option_bind].
  destruct (Z.eqb_spec (d_ino e) 0) as [E|E].
  { unfold lives, live, nth_result. cbn. rewrite E. cbn. unfold zlookup, zlen. destruct (_ <=? _); cbn; by rewrite ?Z.add_0_r. }
  destruct (entry_live _ _ _ He E) as (Ht & Hnm & Hz). destruct (entry_nlen _ _ _ He) as (n & En & _ & Hn'). specialize (Hn' E) as ->.
  unfold lives, live, nth_result. cbn. destruct (Z.eqb_spec (d_ino e) 0); [done|]. cbn.
  destruct (Z.eqb_spec c index) as [->|].
  - rewrite En, Ht. cbn. destruct (Z.leb_spec VFS_NAME_MAX (d_nlen e)); [lia|]. rewrite Hnm. cbn.
    by replace (index - index) with 0 by lia.
  - rewrite zlookup_none; [done|]. unfold zlen; cbn. lia.
Qed.

Lemma scan_nth index p b es off c :
  seg b off es (zlen b) -> 0 <= off -> bytes b -> 0 <= c <= index ->
  scan (nth_at index p b) (offs off es) c = Some (nth_result (lives es) index c).
Proof.
  revert off c; induction es as [|e es IH]; intros off c Hs Ho Hb Hc; cbn [offs scan].
  { unfold nth_result, lives, zlookup, zlen; cbn. destruct (_ <=? _); cbn; by rewrite ?Z.add_0_r. }
  pose proof (seg_entry _ _ _ _ _ Hs Ho ltac:(lia)) as He. destruct Hs as (Hat & Hf%fits_rec & _ & Hs).
  rewrite (nth_at_ok index p b off e c He) by (rewrite <- Hat; by apply nlen_range). cbn [mbind option_bind].
  rewrite (omap_app live [e] es : lives (e :: es) = lives [e] ++ lives es), nth_result_app by done.
  destruct (nth_result (lives [e]) index c) as [c'|] eqn:E; [|done]. apply IH; [done|lia|done|]. by apply nth_result_le in E.
Qed.

Lemma scan_dir_nth index s I L ino D k c :
  files s I L -> L ino -> drep s (I ino) D k -> 0 <= k -> 0 <= c <= index ->
  scan_dir (nth_at index) s (I ino) D k c = Some (nth_result (entries D) index c).
Proof.
  intros H Hi. pose proof (files_ready _ _ _ H) as Hr. revert k c; induction D as [|es D IH]; intros k c Hd Hk Hc; cbn.
  { unfold nth_result, entries, lives, zlookup, zlen; cbn. destruct (_ <=? _); cbn; by rewrite ?Z.add_0_r. }
  destruct Hd as (Hk12 & Hn & Hs & Hd). rewrite scan_nth; [|by rewrite zlen_dblock|lia| |done]; cycle 1.
  { rewrite dblock_blk by (done || lia). by apply blk_ok. }
  cbn. unfold entries, lives. cbn. rewrite omap_app, nth_result_app by done.
  destruct (nth_result (omap live es) index c) as [c'|] eqn:E; [|done]. apply IH; [done|lia|]. by apply nth_result_le in E.
Qed.

Definition shown (s : ext2_fs) (x : list Z * (Z * Z)) : vfs_dirent :=
  let '(nm, (i, t)) := x in
  let type := vfs_type_of t in
  mk_vdirent nm (if (type =? VFS_FILE) || (type =? VFS_SYMLINK) then i_size (inode s i) else 0) type i.

Lemma readdir_spec s L node n m :
  consistent s L -> node <> 0 -> nodes (mount s) !! node = Some n -> n_type n = VFS_DIR -> L (ext2_node_ino n) ->
  directory s (ext2_node_ino n) m -> (forall nm i t, m !! nm = Some (i, t) -> valid_ino s i) ->
  exists l, l ≡ₚ map_to_list m /\
    forall index, 0 <= index -> ext2_vfs_readdir node index s = Some ((0, shown s <$> l !!z index), s).
Proof.
  intros H Hn0 Hn Hty Hi (D & Hd & Hnd & -> & Hm) Hval. pose proof (files_ready _ _ _ H) as Hr. exists (entries D).
  split; [symmetry; by apply map_to_list_to_map|]. intros index Hx. unfold ext2_vfs_readdir.
  destruct (Z.eqb_spec node 0); [done|]. run (ld_node_ok s node n Hn). rewrite Hty. cbn [Z.eqb Pos.eqb negb].
  set (ino := ext2_node_ino n) in *.
  run (read_inode_ok s ino (al_layout s (f_alloc _ _ _ H)) (f_valid _ _ _ H ino Hi)). cbn [Z.eqb negb].
  destruct (Z.eqb_spec (Z.land (i_mode (inode s ino)) EXT2_S_IFDIR) 0); [done|]. run (kmalloc_ok s Hr). cbn [negb]. run_get.
  pose proof (walk_dir_ok (nth_at index) s (inode s) L ino D 0 0 (dir_rounds s) H Hi Hd ltac:(lia) (dir_rounds_ok s _ D Hr Hd)) as E.
  rewrite (scan_dir_nth index s (inode s) L ino D 0 0 H Hi Hd) in E by lia. cbn [mbind option_bind] in E. run E.
  unfold nth_result. rewrite Z.sub_0_r. destruct (entries D !!z index) as [[nm [i t]]|] eqn:El; [|done]. cbn [fmap option_fmap option_map shown].
  assert (valid_ino s i) as Hv.
  { apply (Hval nm i t). apply elem_of_list_to_map; [done|]. unfold zlookup in El. destruct (0 <=? index); [|done].
    by eapply list_elem_of_lookup_2. }
  destruct (_ || _); [|done]. by run (read_inode_ok s i (al_layout s (f_alloc _ _ _ H)) Hv).
Qed.

(** [ext2_vfs_readdir] enumerates the directory: the names at the indices
    from 0 on are the entries of the directory's map, each once, with the inode
    and the type of each, and past the last one nothing. *)
Theorem ext2_readdir_correct s L node n m :
  consistent s L -> node <> 0 -> nodes (mount s) !! node = Some n -> n_type n = VFS_DIR -> L (ext2_node_ino n) ->
  directory s (ext2_node_ino n) m -> (forall nm i t, m !! nm = Some (i, t) -> valid_ino s i) ->
  exists l, l ≡ₚ map_to_list m /\
    forall index, 0 <= index -> ext2_vfs_readdir node index s = Some ((0, shown s <$> l !!z index), s).
Proof. exact (readdir_spec s L node n m). Qed.

(** C22: The three operations on directory entries implement a finite map from
    names, on a consistent volume and when no [kmalloc] and no transfer fails:
    [ext2_find_dirent] looks a name up, [dirent_del] deletes it, and
    [dirent_add] inserts a new name or, with no block free or the twelfth block
    of the directory in use, returns -ENOSPC and leaves the map alone; no other
    file changes.  Whatever calls fail, [ext2_find_dirent] returns, leaves the
    volume as it was, and gives either an entry that is in the directory or an
    error.  (The error may then be -ENOENT for a name that is there, see
    [find_read_error_is_absence].) *)
Theorem ext2_dirent_refines s L dir m name :
  consistent (calm s) L -> L dir -> directory (calm s) dir m ->
  (exists r s', ext2_find_dirent dir name s = Some (r, s') /\ unharmed s s' /\
    ((exists f, r = (0, Some f) /\ m !! name = Some (f_ino f, f_type f)) \/ exists rc, r = (rc, None) /\ rc < 0)) /\
  (no_failure s ->
    (exists r, ext2_find_dirent dir name s = Some (r, s) /\
      match m !! name with
      | None => r = (- ENOENT, None)
      | Some (i, t) => exists f, r = (0, Some f) /\ f_ino f = i /\ f_type f = t
      end) /\
    (exists s', dirent_del dir name s = Some (match m !! name with Some _ => 0 | None => - ENOENT end, s') /\
      dstep L dir s s' /\ directory s' dir (delete name m)) /\
    (forall ino ft, 0 < ino < U32 -> 0 <= ft < 256 -> zlen name < 256 -> bytes name -> m !! name = None ->
      exists r s', dirent_add dir name ino ft s = Some (r, s') /\ dstep L dir s s' /\
        ((r = 0 /\ directory s' dir (<[name := (ino, ft)]> m)) \/
         (r = - ENOSPC /\ directory s' dir m /\ (all_used KBlock s \/ i_block (inode s dir) 11 <> 0))))).
Proof.
  intros H Hi Hd. split; [exact (find_dirent_any s L dir m name H Hi Hd)|]. intros Hf. rewrite (calm_id s Hf) in H, Hd. split_and!.
  - by apply (find_dirent_spec s L dir m name).
  - destruct (dirent_del_spec s L dir m name H Hi Hd) as (s' & E & Hst & Hd' & _). by exists s'.
  - intros ino ft Hino Hft Hl Hb Hno. by apply (dirent_add_spec name ino ft Hino Hft Hl Hb s L dir m).
Qed.

End Ext2Dir.
