(* ===== verification/Ext2Name.v ===== *)
(** The name operations of the ext2 driver (src/kernel/fs/ext2.c: lookup,
    create, symlink, readlink, unlink, mkdir, rmdir, rename, node eviction,
    mounting) with the registry of live nodes they consult
    (src/kernel/fs/vfs.c). *)

From stdpp Require Import base tactics numbers option gmap list.
From Stdlib Require Import ZArith Lia.
From S2P Require Import Prelude Bytes Ext2 Ext2Alloc Ext2File Ext2Mount Ext2Dir.

Module Ext2Name.
Export Ext2Mount Ext2Dir.

(** ** The registry of live nodes *)

Definition set_active (l : list Z) (s : ext2_fs) : ext2_fs := set_mount (mk_mount (nodes (mount s)) l (root (mount s))) s.

Definition vfs_active_node_register (node : Z) (s : ext2_fs) : ext2_fs :=
  if (node =? root (mount s)) || existsb (Z.eqb node) (active_nodes (mount s)) then s
  else set_active (node :: active_nodes (mount s)) s.

Fixpoint remove_first (x : Z) (l : list Z) : list Z :=
  match l with [] => [] | y :: l => if y =? x then l else y :: remove_first x l end.
Definition vfs_active_node_unregister_locked (node : Z) (s : ext2_fs) : ext2_fs :=
  set_active (remove_first node (active_nodes (mount s))) s.

Definition has_ino (s : ext2_fs) (ino a : Z) : bool :=
  match nodes (mount s) !! a with Some n => vfs_node_stable_ino (mount s) a n =? ino | None => false end.
Definition vfs_active_nodes_has_ino_locked (ino : Z) (s : ext2_fs) : bool :=
  negb (ino =? 0) && existsb (has_ino s ino) (active_nodes (mount s)).

Definition node_set_orphaned (n : vfs_node) : vfs_node :=
  mk_node (n_ino n) (n_size n) (n_mode n) (n_uid n) (n_gid n) 0 (n_atime n) (n_mtime n) (n_ctime n)
    (n_type n) (Z.lor (n_flags n) VFS_NODE_ORPHANED) (n_fs_data n) (n_parent n) (n_refcount n).
Definition mark_node (ino : Z) (s : ext2_fs) (a : Z) : ext2_fs :=
  if has_ino s ino a then on_nodes (alter node_set_orphaned a) s else s.
Definition vfs_active_nodes_mark_orphaned_locked (ino : Z) (s : ext2_fs) : ext2_fs :=
  if ino =? 0 then s else fold_left (mark_node ino) (active_nodes (mount s)) s.

Definition node_get_ref (n : vfs_node) : vfs_node :=
  mk_node (n_ino n) (n_size n) (n_mode n) (n_uid n) (n_gid n) (n_nlink n) (n_atime n) (n_mtime n) (n_ctime n)
    (n_type n) (n_flags n) (n_fs_data n) (n_parent n) (wrap32 (n_refcount n + 1)).
Definition vfs_node_get (node : Z) : M unit := st_node node node_get_ref.

Definition orphaned (n : vfs_node) : bool := negb (Z.land (n_flags n) VFS_NODE_ORPHANED =? 0).

(** ** Releasing an inode without links *)

(** The nodes of the inode are marked; the inode stays until the last of them
    goes, or is reclaimed now. *)
Definition drop_inode (ino : Z) : M unit :=
  modify (vfs_active_nodes_mark_orphaned_locked ino);;;
  s <- get;;
  if vfs_active_nodes_has_ino_locked ino s then modify (ext2_mark_orphan_locked ino)
  else ext2_reclaim_orphan_inode_locked ino;;; ret tt.

(** ** Lookup *)

Definition ext2_fill_vfs_node (ino : Z) (disk_ino : list Z) (n : vfs_node) : vfs_node :=
  mk_node ino (i_size disk_ino) (i_mode disk_ino) (i_uid disk_ino) (i_gid disk_ino) (i_links_count disk_ino)
    (ld 4 8 disk_ino) (i_mtime disk_ino) (ld 4 12 disk_ino) (n_type n) (n_flags n) (n_fs_data n) (n_parent n) (n_refcount n).

Definition node_type (ft : Z) (disk_ino : list Z) : Z :=
  if ft =? 2 then VFS_DIR
  else if ft =? 7 then VFS_SYMLINK
  else if ft =? 3 then VFS_CHRDEV
  else if ft =? 4 then VFS_BLKDEV
  else if Z.land (i_mode disk_ino) EXT2_S_IFMT =? EXT2_S_IFDIR then VFS_DIR
  else if Z.land (i_mode disk_ino) EXT2_S_IFMT =? EXT2_S_IFLNK then VFS_SYMLINK
  else VFS_FILE.

(** A node as [calloc] returns it, with the fields every operation sets. *)
Definition blank_node (type ino dir : Z) : vfs_node := mk_node 0 0 0 0 0 0 0 0 0 type 0 ino dir 1.
Definition add_node (a : Z) (n : vfs_node) : M unit := modify (on_nodes (insert a n)).

(** [child] is the address [calloc] returned, 0 on failure; the result is the
    code and the node stored in [*out]. *)
Definition ext2_iop_lookup (dir : Z) (name : list Z) (child : Z) : M (Z * Z) :=
  if dir =? 0 then ret (- EINVAL, 0)
  else
    d <- ld_node dir;;
    if negb (n_type d =? VFS_DIR) then ret (- ENOTDIR, 0)
    else if child =? 0 then ret (- ENOMEM, 0)
    else
      ok <- kmalloc;;
      if negb ok then ret (- ENOMEM, 0)
      else
        rc & f <- ext2_find_dirent (ext2_node_ino d) name;;
        match f with
        | None => ret (rc, 0)
        | Some f =>
          rc & disk_ino <- ext2_read_inode (f_ino f);;
          if negb (rc =? 0) then ret (- EIO, 0)
          else
            vfs_node_get dir;;;
            add_node child (ext2_fill_vfs_node (f_ino f) disk_ino (blank_node (node_type (f_type f) disk_ino) (f_ino f) dir));;;
            modify (vfs_active_node_register child);;;
            ret (0, child)
        end.

(** ** Creating files and links *)

(** [node] is the address [calloc] returned, 0 on failure; the result is the
    node or 0. *)
Definition ext2_vfs_create (dir : Z) (name : list Z) (node : Z) : M Z :=
  if dir =? 0 then ret 0
  else
    d <- ld_node dir;;
    if orphaned d || (node =? 0) then ret 0
    else
      ok <- kmalloc;;
      if negb ok then ret 0
      else
        let dir_ino := ext2_node_ino d in
        rc & _ <- ext2_find_dirent dir_ino name;;
        if rc =? 0 then ret 0
        else
          new_ino <- alloc_inode (Z.lor EXT2_S_IFREG 420);;
          if new_ino =? 0 then ret 0
          else
            rc <- dirent_add dir_ino name new_ino 1;;
            if negb (rc =? 0) then free_inode new_ino;;; ret 0
            else
              vfs_node_get dir;;;
              add_node node (mk_node new_ino 0 (Z.lor EXT2_S_IFREG 420) 0 0 1 0 0 0 VFS_FILE 0 new_ino dir 1);;;
              modify (vfs_active_node_register node);;;
              ret node.

(** The contents of a new symlink: inline, or in a block of its own, whose
    number is returned; the error, or 0, and the inode. *)
Definition symlink_fast (inode target : list Z) : list Z :=
  splice 40 (target ++ zeros (60 - zlen target)) (set_i_blocks 0 inode).
Definition symlink_data (ino : Z) (inode target : list Z) : M (Z * Z * list Z) :=
  s <- get;;
  let tlen := zlen target in
  let inode := set_i_size tlen inode in
  if tlen <=? 60 then ret (0, 0, symlink_fast inode target)
  else
    target_blk <- alloc_block;;
    if target_blk =? 0 then free_inode ino;;; ret (- ENOSPC, 0, inode)
    else
      let inode := set_i_block 0 target_blk (set_i_blocks (block_size s / 512) inode) in
      ok <- kmalloc;;
      if negb ok then free_block target_blk;;; free_inode ino;;; ret (- ENOMEM, 0, inode)
      else if block_size s <? tlen then stuck
      else
        rc <- ext2_write_block target_blk (target ++ zeros (block_size s - tlen));;
        if negb (rc =? 0) then free_block target_blk;;; free_inode ino;;; ret (- EIO, 0, inode)
        else ret (0, target_blk, inode).
Definition symlink_undo (ino target_blk : Z) (inode : list Z) : M unit :=
  (if 0 <? i_blocks inode then free_block target_blk else ret tt);;; free_inode ino.

Definition ext2_vfs_symlink (parent : Z) (name target : list Z) : M Z :=
  if parent =? 0 then ret (- EINVAL)
  else
    p <- ld_node parent;;
    if orphaned p then ret (- ENOENT)
    else if zlen target =? 0 then ret (- EINVAL)
    else
      let parent_ino := ext2_node_ino p in
      rc & _ <- ext2_find_dirent parent_ino name;;
      if rc =? 0 then ret (- EEXIST)
      else if negb (rc =? - ENOENT) then ret rc
      else
        ino <- alloc_inode (Z.lor EXT2_S_IFLNK 511);;
        if ino =? 0 then ret (- ENOSPC)
        else
          rc & inode <- ext2_read_inode ino;;
          if negb (rc =? 0) then free_inode ino;;; ret (- EIO)
          else
            r <- symlink_data ino inode target;;
            let '(rc, target_blk, inode) := r in
            if negb (rc =? 0) then ret rc
            else
              rc <- ext2_write_inode ino inode;;
              if negb (rc =? 0) then symlink_undo ino target_blk inode;;; ret (- EIO)
              else
                rc <- dirent_add parent_ino name ino 7;;
                if negb (rc =? 0) then symlink_undo ino target_blk inode;;; ret rc
                else ret 0.

(** The result and the bytes stored in [buf]. *)
Definition ext2_vfs_readlink (node size : Z) : M (Z * list Z) :=
  if (node =? 0) || (size =? 0) then ret (- EINVAL, [])
  else
    n <- ld_node node;;
    rc & inode <- ext2_read_inode (ext2_node_ino n);;
    if negb (rc =? 0) then ret (- EIO, [])
    else if i_blocks inode =? 0 then
      let tlen := if 60 <? i_size inode then 60 else i_size inode in
      let tlen := if size <? tlen then size else tlen in
      ret (sint32 tlen, slice 40 tlen inode)
    else if i_block inode 0 =? 0 then ret (- EIO, [])
    else
      s <- get;;
      ok <- kmalloc;;
      if negb ok then ret (- ENOMEM, [])
      else
        rc & block_buf <- ext2_read_block (i_block inode 0);;
        if negb (rc =? 0) then ret (- EIO, [])
        else
          let tlen := if block_size s <? i_size inode then block_size s else i_size inode in
          let tlen := if size <? tlen then size else tlen in
          ret (sint32 tlen, slice 0 tlen block_buf).

(** ** Removing names *)

Definition ext2_vfs_unlink (dir : Z) (name : list Z) : M Z :=
  if dir =? 0 then ret (- EINVAL)
  else
    d <- ld_node dir;;
    let dir_ino := ext2_node_ino d in
    rc & f <- ext2_find_dirent dir_ino name;;
    match f with
    | None => ret rc
    | Some f =>
      dirent_del dir_ino name;;;
      rc & inode <- ext2_read_inode (f_ino f);;
      if negb (rc =? 0) then ret (- EIO)
      else
        let inode := set_i_links_count (i_links_count inode - 1) inode in
        ext2_write_inode (f_ino f) inode;;;
        (if i_links_count inode =? 0 then drop_inode (f_ino f) else ret tt);;;
        ret 0
    end.

(** ** Directories *)

Definition add_used_dirs (g d : Z) (s : ext2_fs) : ext2_fs :=
  set_table (st 2 (32 * g + 16) (bg_used_dirs_count (bgdesc_table s) g + d) (bgdesc_table s)) s.
(** The descriptor of the group that holds inode [ino], inside the table. *)
Definition inode_group (ino : Z) : M Z :=
  s <- get;;
  if inodes_per_group s =? 0 then stuck
  else
    let g := wrap32 (ino - 1) / inodes_per_group s in
    if zlen (bgdesc_table s) <? 32 * (g + 1) then stuck else ret g.
(** An inode that the code reads without testing the result: on failure it
    would go on with uninitialised memory. *)
Definition must_read_inode (ino : Z) : M (list Z) :=
  rc & v <- ext2_read_inode ino;; if rc =? 0 then ret v else stuck.
Definition add_links (ino d : Z) : M (list Z) :=
  v <- must_read_inode ino;;
  let v := set_i_links_count (i_links_count v + d) v in
  ext2_write_inode ino v;;; ret v.

(** The first block of a new directory. *)
Definition dot_block (bs ino parent : Z) : option (list Z) :=
  b ← put_dirent 0 ino 12 2 [46] (zeros bs);
  put_dirent 12 parent (bs - 12) 2 [46; 46] b.

Definition mkdir_inode (bs blk : Z) (v : list Z) : list Z :=
  set_i_links_count 2 (set_i_size bs (set_i_blocks (bs / 512) (set_i_block 0 blk v))).

(** The new directory's inode and block; whether it succeeded. *)
Definition mkdir_body (dir_ino new_ino : Z) : M (option Z) :=
  s <- get;;
  dir_blk <- alloc_block;;
  if dir_blk =? 0 then free_inode new_ino;;; ret None
  else
    rc & new_inode <- ext2_read_inode new_ino;;
    if negb (rc =? 0) then free_block dir_blk;;; free_inode new_ino;;; ret None
    else
      ext2_write_inode new_ino (mkdir_inode (block_size s) dir_blk new_inode);;;
      ok <- kmalloc;;
      if negb ok then free_block dir_blk;;; free_inode new_ino;;; ret None
      else
        b <- lift (dot_block (block_size s) new_ino dir_ino);;
        ext2_write_block dir_blk b;;;
        ret (Some dir_blk).

Definition ext2_vfs_mkdir (dir : Z) (name : list Z) (node : Z) : M Z :=
  if dir =? 0 then ret 0
  else
    d <- ld_node dir;;
    if orphaned d || (node =? 0) then ret 0
    else
      ok <- kmalloc;;
      if negb ok then ret 0
      else
        let dir_ino := ext2_node_ino d in
        rc & _ <- ext2_find_dirent dir_ino name;;
        if rc =? 0 then ret 0
        else
          new_ino <- alloc_inode (Z.lor EXT2_S_IFDIR 493);;
          if new_ino =? 0 then ret 0
          else
            dir_blk <- mkdir_body dir_ino new_ino;;
            match dir_blk with
            | None => ret 0
            | Some dir_blk =>
              parent_group <- inode_group dir_ino;;
              modify (add_used_dirs parent_group 1);;;
              dir_inode <- add_links dir_ino 1;;
              ext2_write_superblock;;;
              rc <- dirent_add dir_ino name new_ino 2;;
              if negb (rc =? 0) then
                free_block dir_blk;;;
                free_inode new_ino;;;
                modify (add_used_dirs parent_group (-1));;;
                ext2_write_inode dir_ino (set_i_links_count (i_links_count dir_inode - 1) dir_inode);;;
                ext2_write_superblock;;;
                ret 0
              else
                s <- get;;
                vfs_node_get dir;;;
                add_node node (mk_node new_ino (block_size s) (Z.lor EXT2_S_IFDIR 493) 0 0 2 0 0 0 VFS_DIR 0 new_ino dir 1);;;
                modify (vfs_active_node_register node);;;
                ret node
            end.

(** An entry other than those of the directory itself and of its parent. *)
Definition other_at (target_ino dir_ino : Z) (_ : Z) (b : list Z) (off : Z) (_ : unit) : option (unit + unit) :=
  ino ← de_inode b off;
  Some (if negb (ino =? 0) && negb (ino =? target_ino) && negb (ino =? dir_ino) then inr tt else inl tt).

Definition ext2_vfs_rmdir (dir : Z) (name : list Z) : M Z :=
  if dir =? 0 then ret (- EINVAL)
  else
    d <- ld_node dir;;
    let dir_ino := ext2_node_ino d in
    rc & f <- ext2_find_dirent dir_ino name;;
    match f with
    | None => ret rc
    | Some f =>
      let target_ino := f_ino f in
      if negb (f_type f =? 2) then ret (- ENOTDIR)
      else
        rc & target_inode <- ext2_read_inode target_ino;;
        if negb (rc =? 0) then ret (- EIO)
        else
          ok <- kmalloc;;
          if negb ok then ret (- ENOMEM)
          else
            s <- get;;
            r <- walk_dir (dir_rounds s) target_inode (other_at target_ino dir_ino) 0 tt;;
            match r with
            | inr _ => ret (- ENOTEMPTY)
            | inl _ =>
              dirent_del dir_ino name;;;
              add_links dir_ino (-1);;;
              parent_group <- inode_group dir_ino;;
              modify (add_used_dirs parent_group (-1));;;
              ext2_write_superblock;;;
              ext2_write_inode target_ino (set_i_links_count 0 target_inode);;;
              drop_inode target_ino;;;
              ret 0
            end
    end.

(** ** Rename *)

(** The inode buffer [ino_a]: a read whose result is ignored leaves the buffer
    as it was, and [None] is a buffer nothing was read into yet. *)
Definition reload (ino : Z) (buf : option (list Z)) : M (option (list Z)) :=
  rc & v <- ext2_read_inode ino;; ret (if rc =? 0 then Some v else buf).
Definition use (buf : option (list Z)) : M (list Z) := lift buf.

(** The emptiness test of rename ignores read errors the same way. *)
Fixpoint walk_dir_blind (fuel : nat) (inode : list Z) (body : Z -> list Z -> Z -> unit -> option (unit + unit)) (bi : Z) (bd : option (list Z)) : M (unit + unit) :=
  match fuel with
  | O => stuck
  | S fuel =>
    p <- ext2_bmap inode bi;;
    if p =? 0 then ret (inl tt)
    else
      rc & b <- ext2_read_block p;;
      let bd := if rc =? 0 then Some b else bd in
      b <- use bd;;
      s <- get;;
      r <- lift (walk_block (block_size s) b (body p b) tt);;
      match r with
      | inl _ => walk_dir_blind fuel inode body (bi + 1) bd
      | inr x => ret (inr x)
      end
  end.

(** Removing what the new name stands for: 0 to go on, or the error, and the
    inode buffer. *)
Definition rename_replace (exist : found) (new_ino_dir : Z) (newname : list Z) : M (Z * option (list Z)) :=
  let exist_ino := f_ino exist in
  if f_type exist =? 2 then
    ino_a <- reload exist_ino None;;
    ok <- kmalloc;;
    if negb ok then ret (- ENOMEM, ino_a)
    else
      s <- get;;
      v <- use ino_a;;
      r <- walk_dir_blind (dir_rounds s) v (other_at exist_ino new_ino_dir) 0 None;;
      match r with
      | inr _ => ret (- ENOTEMPTY, ino_a)
      | inl _ =>
        dirent_del new_ino_dir newname;;;
        ino_a <- reload exist_ino ino_a;;
        v <- use ino_a;;
        let v := set_i_links_count 0 v in
        ext2_write_inode exist_ino v;;;
        drop_inode exist_ino;;;
        ret (0, Some v)
      end
  else
    dirent_del new_ino_dir newname;;;
    ino_a <- reload exist_ino None;;
    v <- use ino_a;;
    let v := set_i_links_count (i_links_count v - 1) v in
    ext2_write_inode exist_ino v;;;
    (if i_links_count v =? 0 then drop_inode exist_ino else ret tt);;;
    ret (0, Some v).

(** A directory that moved to another parent: its dot-dot entry, the link
    counts and the directory counts. *)
Definition rename_reparent (target_ino old_ino new_ino_dir : Z) (ino_a : option (list Z)) : M Z :=
  ino_a <- reload target_ino ino_a;;
  v <- use ino_a;;
  let first_block := i_block v 0 in
  ok <- kmalloc;;
  if negb ok then ret (- ENOMEM)
  else
    rc & dir_data <- ext2_read_block first_block;;
    dir_data <- use (if rc =? 0 then Some dir_data else None);;
    (if zlen dir_data <? 16 then stuck else ext2_write_block first_block (st 4 12 new_ino_dir dir_data));;;
    ino_a <- reload old_ino ino_a;;
    v <- use ino_a;;
    ext2_write_inode old_ino (set_i_links_count (i_links_count v - 1) v);;;
    add_links new_ino_dir 1;;;
    old_group <- inode_group old_ino;;
    new_group <- inode_group new_ino_dir;;
    modify (add_used_dirs old_group (-1));;;
    modify (add_used_dirs new_group 1);;;
    ext2_write_superblock;;;
    ret 0.

Definition ext2_vfs_rename (olddir : Z) (oldname : list Z) (newdir : Z) (newname : list Z) : M Z :=
  if (olddir =? 0) || (newdir =? 0) then ret (- EINVAL)
  else
    od <- ld_node olddir;;
    nd <- ld_node newdir;;
    let old_ino := ext2_node_ino od in
    let new_ino_dir := ext2_node_ino nd in
    rc & f <- ext2_find_dirent old_ino oldname;;
    match f with
    | None => ret rc
    | Some f =>
      _ & exist <- ext2_find_dirent new_ino_dir newname;;
      ok <- kmalloc;;
      if negb ok then ret (- ENOMEM)
      else
        rc & ino_a <- (match exist with
                       | Some e => rename_replace e new_ino_dir newname
                       | None => ret (0, None)
                       end);;
        if negb (rc =? 0) then ret rc
        else
          del_ret <- dirent_del old_ino oldname;;
          if negb (del_ret =? 0) then ret del_ret
          else
            add_ret <- dirent_add new_ino_dir newname (f_ino f) (f_type f);;
            if negb (add_ret =? 0) then ret add_ret
            else
              rc & v <- ext2_read_inode (f_ino f);;
              (if rc =? 0 then ext2_write_inode (f_ino f) (set_i_ctime 0 v) else ret 0);;;
              if (f_type f =? 2) && negb (old_ino =? new_ino_dir)
              then rename_reparent (f_ino f) old_ino new_ino_dir (if rc =? 0 then Some (set_i_ctime 0 v) else ino_a)
              else ret 0
    end.

(** ** The last reference to a node *)

Definition VFS_NODE_MOUNT_STUB (n : vfs_node) : bool := negb (Z.land (n_flags n) 2 =? 0).
(** Whether the inode is to be reclaimed now, and the orphan table. *)
Definition evict_claim (ino : Z) (flagged : bool) (s : ext2_fs) : bool * ext2_fs :=
  if negb (vfs_active_nodes_has_ino_locked ino s) && (flagged || ext2_is_orphan_locked ino s) then
    let s := if negb (ext2_is_orphan_locked ino s) then ext2_mark_orphan_locked ino s else s in
    let '(claimed, s) := ext2_claim_orphan_reclaim_locked ino s in
    if claimed then (true, s)
    else (negb (ext2_is_orphan_locked ino s), s)
  else (false, s).
Definition ext2_iop_evict_node (node : Z) : M unit :=
  if node =? 0 then ret tt
  else
    n <- ld_node node;;
    s <- get;;
    if (node =? root (mount s)) || VFS_NODE_MOUNT_STUB n then modify (vfs_active_node_unregister_locked node)
    else
      let ino := wrap32 (n_ino n) in
      modify (vfs_active_node_unregister_locked node);;;
      s <- get;;
      let '(should_reclaim, s') := evict_claim ino (orphaned n) s in
      modify (fun _ => s');;;
      (if should_reclaim then ext2_reclaim_orphan_inode_locked ino;;; ret tt else ret tt).

(** ** Mounting *)

Definition node_set_root (n : vfs_node) : vfs_node :=
  mk_node EXT2_ROOT_INO (n_size n) (n_mode n) (n_uid n) (n_gid n) 2 (n_atime n) (n_mtime n) (n_ctime n)
    (n_type n) (n_flags n) (n_fs_data n) (n_parent n) (n_refcount n).
Definition ext2_fs_mount : M Z :=
  rc <- ext2_init;;
  if negb (rc =? 0) then ret (if rc <? 0 then rc else - EIO)
  else
    s <- get;;
    let r := root (mount s) in
    st_node r node_set_root;;;
    rc & root_ino <- ext2_read_inode EXT2_ROOT_INO;;
    (if rc =? 0 then st_node r (ext2_fill_vfs_node EXT2_ROOT_INO root_ino) else ret tt);;;
    ret 0.

(** ** The state between operations *)

(** Decide the test of an error code that is known. *)
Ltac errno :=
  match goal with |- context [- ?x =? 0] => destruct (Z.eqb_spec (- x) 0); [lia|]; cbn [negb] end.

(** The files [L] are in order, and their inodes are marked in use. *)
Definition fsys (s : ext2_fs) (L : Z -> Prop) : Prop :=
  consistent s L /\ forall i, L i -> kbit KInode s (i - 1) = true.
Definition file_kept (i : Z) (s s' : ext2_fs) : Prop :=
  inode s' i = inode s i /\ forall x, 0 <= x -> fbyte s' (inode s' i) x = fbyte s (inode s i) x.
Definition with_ino (L : Z -> Prop) (ino : Z) : Z -> Prop := fun i => L i \/ i = ino.

Lemma file_kept_trans i s1 s2 s3 : file_kept i s1 s2 -> file_kept i s2 s3 -> file_kept i s1 s3.
Proof. intros [E Hx] [E' Hx']. split; [congruence|]. intros x Hxx. by rewrite Hx', Hx. Qed.

Lemma consistent_sub s (L L' : Z -> Prop) : (forall i, L' i -> L i) -> consistent s L -> consistent s L'.
Proof.
  intros Hsub [Ha Hv Hb Hu Hinj]. constructor; [done|eauto..].
Qed.

Lemma ibit_range s L i : consistent s L -> L i -> 0 <= i - 1 < total KInode s.
Proof. intros H Hi. destruct (f_valid _ _ _ H i Hi). unfold total. cbn. lia. Qed.

(** *** A new inode *)

Lemma new_inode_block mode k : 0 <= k <= 12 -> i_block (new_inode mode) k = 0.
Proof.
  intros Hk. assert (inode_bytes (zeros INODE_SIZE)) as Hz by (split; [done|apply bytes_zeros]).
  unfold new_inode, set_i_links_count, set_i_mode. rewrite !i_block_st by (lia || done || by apply inode_bytes_st).
  unfold i_block. apply ld_zeros. lia.
Qed.

Lemma new_inode_fields mode :
  let v := new_inode mode in
  i_mode v = mode mod 65536 /\ i_links_count v = 1 /\ i_size v = 0 /\ i_blocks v = 0 /\ forall (s : ext2_fs) x, 0 < block_size s -> 0 <= x -> fbyte s v x = 0.
Proof.
  intros v. assert (zlen (zeros INODE_SIZE) = INODE_SIZE) as Hz by done. assert (zlen (set_i_mode mode (zeros INODE_SIZE)) = INODE_SIZE) as Hz' by done.
  unfold v, new_inode. split_and!.
  - unfold i_mode, set_i_links_count. rewrite ld_st_apart by (rewrite ?Hz'; lia). unfold set_i_mode. by rewrite ld_st_eq by (rewrite ?Hz; lia).
  - unfold i_links_count, set_i_links_count. by rewrite ld_st_eq by (rewrite ?Hz'; lia).
  - unfold i_size, set_i_links_count. rewrite ld_st_apart by (rewrite ?Hz'; lia). unfold set_i_mode.
    rewrite ld_st_apart by (rewrite ?Hz; lia). by apply ld_zeros.
  - unfold i_blocks, set_i_links_count. rewrite ld_st_apart by (rewrite ?Hz'; lia). unfold set_i_mode.
    rewrite ld_st_apart by (rewrite ?Hz; lia). by apply ld_zeros.
  - intros s x Hs Hx. unfold fbyte. fold (new_inode mode). assert (ptr s (new_inode mode) (x / block_size s) = 0) as ->; [|done].
    assert (0 <= x / block_size s) by (apply Z.div_pos; lia).
    unfold ptr. destruct (Z.ltb_spec (x / block_size s) 12); [apply new_inode_block; lia|].
    rewrite (new_inode_block mode 12) by lia. by destruct (_ <? _).
Qed.

Lemma born_files mode s s1 L ino :
  fsys s L -> valid_ino s ino -> kbit KInode s (ino - 1) = false -> born mode ino s s1 ->
  ~ L ino /\ fsys s1 (with_ino L ino) /\ same s s1 /\ (forall i, L i -> file_kept i s s1) /\
  (forall b, 0 <= b < total KBlock s -> kbit KBlock s1 b = kbit KBlock s b).
Proof.
  intros [H Hbits] Hv Hfree (Hmv & Hnew & Hold). pose proof (files_ready _ _ _ H) as Hr. pose proof (f_alloc _ _ _ H) as Ha.
  assert (~ L ino) as Hn by (intros Hi; rewrite (Hbits ino Hi) in Hfree; done).
  assert (same s s1) as Hs by apply Hmv. pose proof (al_layout s Ha) as Hl.
  destruct (ino_bounds s ino Hl Hv) as (_ & _ & Hmk & _).
  assert (forall i k, L i -> is_slot s k -> slot s (inode s i) k <> 0 -> blk s1 (slot s (inode s i) k) = blk s (slot s (inode s i) k)) as Hblk.
  { intros i k Hi Hk Hnz. pose proof (f_usable _ _ _ H i k Hi Hk Hnz) as Hu.
    apply (keeps_blk _ _ _ (moved_keeps _ _ _ _ _ _ Hmv)); [by apply usable_not_book|]. intros E.
    destruct Hu as (_ & _ & _ & _ & Hq). by apply (Hq _ Hmk). }
  assert (forall i, L i -> inode s1 i = inode s i) as Hin.
  { intros i Hi. apply Hold; [by apply (f_valid _ _ _ H)|]. by intros ->. }
  assert (forall i k, L i -> is_slot s k -> slot s1 (inode s1 i) k = slot s (inode s i) k) as Hsl.
  { intros i k Hi Hk. rewrite Hin by done. apply slot_same; [done|]. intros Hnz. by apply (Hblk i (-1) Hi (slot_m1 s Hr)). }
  assert (forall k, slot s1 (inode s1 ino) k = 0 \/ ~ is_slot s k) as Hsn.
  { intros k. destruct (decide (-1 <= k)) as [Hk|]; [left|right; unfold is_slot; lia]. rewrite Hnew. unfold slot, ptr.
    destruct (Z.eqb_spec k (-1)); [by apply new_inode_block|]. rewrite (new_inode_block mode 12) by lia.
    destruct (Z.ltb_spec k 12); [apply new_inode_block; lia|by destruct (_ <? _)]. }
  assert (forall k i, 0 <= i < total k s -> kbit k s1 i = if bool_decide (k = KInode /\ i = ino - 1) then true else kbit k s i) as Hbit.
  { intros k i Hi. by apply (moved_bits _ _ _ _ _ _ Hmv). }
  split_and!; [done| |done| |].
  - split.
    + constructor; [apply Hmv|..].
      * intros i [Hi| ->]; rewrite (valid_same s s1) by done; [by apply (f_valid _ _ _ H)|done].
      * intros i [Hi| ->]; [rewrite Hin by done; by apply (f_inode _ _ _ H)|]. rewrite Hnew. apply zlen_new_inode.
      * intros i k Hor Hk. rewrite (is_slot_same s s1 k Hs) in Hk. destruct Hor as [Hi| ->]; [|by destruct (Hsn k)].
        rewrite Hsl by done. intros Hnz. pose proof (f_usable _ _ _ H i k Hi Hk Hnz) as Hu.
        apply (usable_keeps (eq (ino_block s ino)) s); [done|apply Hmv| |done]. destruct Hu as (? & ? & _).
        rewrite Hbit by lia. by rewrite bool_decide_eq_false_2 by naive_solver.
      * intros i k i' k' Hor Hor' Hk Hk'. rewrite (is_slot_same s s1) in Hk, Hk' by done.
        destruct Hor as [Hi| ->]; [|by destruct (Hsn k)]. destruct Hor' as [Hi'| ->].
        { rewrite !Hsl by done. by apply (f_inj _ _ _ H). }
        intros Hnz E. destruct (Hsn k') as [E'|]; [congruence|done].
    + intros i Hor. assert (0 <= i - 1 < total KInode s) as Hir.
      { destruct Hor as [Hi| ->]; [by apply (ibit_range s L)|]. destruct Hv. unfold total. cbn. lia. }
      rewrite Hbit by done. case_bool_decide as E; [done|]. destruct Hor as [Hi| ->]; [by apply Hbits|]. by destruct E.
  - intros i Hi. split; [by apply Hin|]. intros x Hx. rewrite Hin by done.
    apply (files_fbyte_keep L s s1 (inode s)); [done..|]. intros k Hk Hnz. by apply Hblk.
  - intros b Hb. rewrite Hbit by done. by rewrite bool_decide_eq_false_2 by naive_solver.
Qed.

(** *** Nodes *)

Lemma fsys_mount s m L : fsys s L -> fsys (set_mount m s) L.
Proof. intros [H Hb]. split; [|done]. by apply files_mount. Qed.

Lemma directory_mount s L m i e : consistent s L -> directory s i e -> directory (set_mount m s) i e.
Proof. intros H. apply directory_kept; try done. by apply (files_ready _ _ _ H). Qed.

Lemma register_mount node s : exists l,
  vfs_active_node_register node s = set_mount (mk_mount (nodes (mount s)) l (root (mount s))) s /\ (node = root (mount s) \/ node ∈ l).
Proof.
  unfold vfs_active_node_register. destruct (Z.eqb_spec node (root (mount s))) as [E|E]; cbn [orb].
  { exists (active_nodes (mount s)). split; [by destruct s as [? ? ? ? ? [] ?]|by left]. }
  destruct (existsb (Z.eqb node) (active_nodes (mount s))) eqn:Ex.
  - apply existsb_exists in Ex as (a & Ha & ->%Z.eqb_eq). exists (active_nodes (mount s)).
    split; [by destruct s as [? ? ? ? ? [] ?]|right]. by apply list_elem_of_In.
  - eexists. split; [done|right]. by left.
Qed.

(** Taking a reference on the directory, and publishing a node. *)
Lemma publish_ok dir node n (r : Z) s :
  exists m', (vfs_node_get dir;;; add_node node n;;; modify (vfs_active_node_register node);;; ret r) s = Some (r, set_mount m' s) /\
    nodes m' !! node = Some n /\ root m' = root (mount s) /\ (node = root m' \/ node ∈ active_nodes m') /\
    (forall d, node <> dir -> nodes (mount s) !! dir = Some d -> nodes m' !! dir = Some (node_get_ref d)).
Proof.
  unfold vfs_node_get, st_node, add_node. run_get. run_get. run_get.
  set (s2 := on_nodes _ _). destruct (register_mount node s2) as (l & -> & Hor).
  eexists. split; [done|]. cbn. rewrite lookup_insert_eq. split_and!; [done..|].
  intros d Hne E. by rewrite lookup_insert_ne, lookup_alter_eq, E.
Qed.

(** *** Creating a file *)

Lemma fsys_step L dir s s' : fsys s L -> dstep L dir s s' -> fsys s' L.
Proof.
  intros [H Hb] Hst. split; [apply Hst|]. intros i Hi. rewrite (ds_ibits _ _ _ _ Hst); [by apply Hb|by apply (ibit_range s L)].
Qed.

(** A name was added for a new inode. *)
Record created (L : Z -> Prop) (dir : Z) (m : gmap (list Z) (Z * Z)) (name : list Z) (ft ino : Z) (s s' : ext2_fs) : Prop := {
  cr_new : ~ L ino;
  cr_sys : fsys s' (with_ino L ino);
  cr_dir : directory s' dir (<[name := (ino, ft)]> m);
  cr_others : forall i, L i -> i <> dir -> file_kept i s s';
  cr_geo : geo s' = geo s;
}.
(** No file and no name has changed. *)
Record unchanged (L : Z -> Prop) (dir : Z) (m : gmap (list Z) (Z * Z)) (s s' : ext2_fs) : Prop := {
  un_sys : fsys s' L;
  un_dir : directory s' dir m;
  un_others : forall i, L i -> i <> dir -> file_kept i s s';
  un_geo : geo s' = geo s;
}.

Lemma unchanged_refl L dir m s : fsys s L -> directory s dir m -> unchanged L dir m s s.
Proof. by constructor. Qed.

Lemma free_new_inode L ino s :
  fsys s (with_ino L ino) -> ~ L ino ->
  exists s', free_inode ino s = Some (tt, s') /\ fsys s' L /\ same s s' /\ (forall i, L i -> file_kept i s s').
Proof.
  intros [H Hb] Hn. assert (with_ino L ino ino) as Hi by by right.
  destruct (free_inode_spec s ino (f_alloc _ _ _ H) (f_valid _ _ _ H ino Hi) (Hb ino Hi)) as (s' & E & Hm).
  assert (same s s') as Hs by apply Hm.
  destruct (files_ibit s s' (inode s) _ _ _ H Hm) as (Hf & Hin & Hx & _).
  assert (forall i, L i -> inode s' i = inode s i) as Hin' by (intros i Hl; apply Hin, (f_valid _ _ _ H); by left).
  exists s'. split_and!; [done| |done|].
  - split.
    + apply (consistent_sub s' (with_ino L ino)); [by left|].
      apply (files_ext (with_ino L ino) s' (inode s)); [|done]. intros i Hl. by apply Hin, (f_valid _ _ _ H).
    + intros i Hl. rewrite (moved_bits _ _ _ _ _ _ Hm) by (apply (ibit_range s (with_ino L ino)); [done|by left]).
      rewrite bool_decide_eq_false_2; [apply Hb; by left|]. intros [_ E']. apply Hn. by replace ino with i by lia.
  - intros i Hl. split; [by apply Hin'|]. intros x Hxx. rewrite Hin' by done. apply Hx; [by left|done].
Qed.

Lemma create_spec s L dir d name node m :
  fsys s L -> dir <> 0 -> nodes (mount s) !! dir = Some d -> orphaned d = false -> node <> 0 ->
  let dino := ext2_node_ino d in
  L dino -> directory s dino m -> m !! name = None -> bytes name -> zlen name < 256 ->
  exists r s', ext2_vfs_create dir name node s = Some (r, s') /\
    ((exists ino, r = node /\ created L dino m name 1 ino s s' /\ inode s' ino = new_inode (Z.lor EXT2_S_IFREG 420) /\
        nodes (mount s') !! node = Some (mk_node ino 0 (Z.lor EXT2_S_IFREG 420) 0 0 1 0 0 0 VFS_FILE 0 ino dir 1) /\
        (node <> dir -> nodes (mount s') !! dir = Some (node_get_ref d))) \/
     (r = 0 /\ unchanged L dino m s s' /\ (all_used KInode s \/ all_used KBlock s \/ i_block (inode s dino) 11 <> 0))).
Proof.
  intros Hsys Hd0 Hd Horph Hn0 dino Hdi Hdir Hno Hnb Hnl. destruct Hsys as [H Hb]. pose proof (files_ready _ _ _ H) as Hr.
  assert (fsys s L) as Hsys by done.
  unfold ext2_vfs_create. destruct (Z.eqb_spec dir 0); [done|]. run (ld_node_ok s dir d Hd). rewrite Horph.
  destruct (Z.eqb_spec node 0); [done|]. cbn [orb]. run (kmalloc_ok s Hr). cbn [negb]. fold dino.
  destruct (find_dirent_spec s L dino m name H Hdi Hdir) as (rf & Ef & Hf). rewrite Hno in Hf. subst rf. run Ef. errno.
  destruct (alloc_inode_spec (Z.lor EXT2_S_IFREG 420) s (f_alloc _ _ _ H)) as [[Ea Hfull]|(ino & s1 & Ea & Hv & (_ & Hfree & _) & Hborn)].
  { run Ea. cbn. exists 0, s. split; [done|]. right. split_and!; [done|by apply unchanged_refl|by left]. }
  run Ea. destruct (Z.eqb_spec ino 0); [destruct Hv; lia|].
  destruct (born_files _ s s1 L ino Hsys Hv Hfree Hborn) as (Hnew & Hsys1 & Hs1 & Hk1 & Hbb1).
  assert (directory s1 dino m) as Hdir1 by (apply (directory_kept s); [done|apply Hs1|apply Hk1..|]; done).
  assert (valid_ino s ino) as [Hi1 Hi2] by done. destruct (lay_ipg s (al_layout s (f_alloc _ _ _ H))) as (_ & _ & Htot).
  destruct (dirent_add_spec name ino 1 ltac:(lia) ltac:(lia) Hnl Hnb s1 (with_ino L ino) dino m (proj1 Hsys1) ltac:(by left) Hdir1 Hno)
    as (r & s2 & E2 & Hst & Hor).
  pose proof (fsys_step _ _ _ _ Hsys1 Hst) as Hsys2. run E2.
  assert (dino <> ino) as Hdn by (intros E; by rewrite E in Hdi).
  assert (forall i, L i -> i <> dino -> file_kept i s s2) as Hk2.
  { intros i Hi Hne. apply (file_kept_trans i s s1); [by apply Hk1|]. apply (ds_others _ _ _ _ Hst); [by left|done]. }
  assert (geo s2 = geo s) as Hg2 by by rewrite (same_geo _ _ (ds_same _ _ _ _ Hst)), (same_geo _ _ Hs1).
  destruct Hor as [[-> Hdir2]|(-> & Hdir2 & Hfull)].
  - cbn [Z.eqb negb]. destruct (publish_ok dir node (mk_node ino 0 (Z.lor EXT2_S_IFREG 420) 0 0 1 0 0 0 VFS_FILE 0 ino dir 1) node s2) as (m' & -> & Hm' & _ & _ & Hmd).
    eexists node, _. split; [done|]. left. exists ino. split_and!; [done| | |done|].
    + constructor; [done|by apply fsys_mount|by apply (directory_mount _ _ _ _ _ (proj1 Hsys2))|exact Hk2|exact Hg2].
    + change (inode s2 ino = new_inode (Z.lor EXT2_S_IFREG 420)). rewrite (ds_inodes _ _ _ _ Hst); [apply Hborn|by rewrite (valid_same s s1)|done].
    + intros Hne. apply Hmd; [done|]. by rewrite (same_mount _ _ (ds_same _ _ _ _ Hst)), (same_mount _ _ Hs1).
  - errno. destruct (free_new_inode L ino s2 Hsys2 Hnew) as (s3 & E3 & Hsys3 & Hs3 & Hk3). run E3. exists 0, s3. split; [done|]. right.
    split_and!; [done| |right].
    + constructor; [done| | |by rewrite (same_geo _ _ Hs3)].
      * apply (directory_kept s2); [apply (files_ready _ _ _ (proj1 Hsys2))|apply Hs3|by apply Hk3..|done].
      * intros i Hi Hne. apply (file_kept_trans i s s2); [by apply Hk2|by apply Hk3].
    + destruct Hfull as [Hfull|Hfull]; [left|right].
      * intros b Hbr. rewrite <- Hbb1 by done. apply Hfull. by rewrite (total_same _ s s1 Hs1).
      * by rewrite (proj1 (Hk1 dino Hdi)) in Hfull.
Qed.

(** *** Lookup *)

Definition targets_ok (s : ext2_fs) (m : gmap (list Z) (Z * Z)) : Prop := forall nm i t, m !! nm = Some (i, t) -> valid_ino s i.

Lemma lookup_spec s L dir d name child m :
  consistent s L -> dir <> 0 -> nodes (mount s) !! dir = Some d -> n_type d = VFS_DIR -> child <> 0 ->
  L (ext2_node_ino d) -> directory s (ext2_node_ino d) m -> targets_ok s m ->
  match m !! name with
  | None => ext2_iop_lookup dir name child s = Some ((- ENOENT, 0), s)
  | Some (i, t) => exists m', ext2_iop_lookup dir name child s = Some ((0, child), set_mount m' s) /\
      nodes m' !! child = Some (ext2_fill_vfs_node i (inode s i) (blank_node (node_type t (inode s i)) i dir))
  end.
Proof.
  intros H Hd0 Hd Hty Hc Hi Hdir Hval. pose proof (files_ready _ _ _ H) as Hr. unfold ext2_iop_lookup.
  destruct (Z.eqb_spec dir 0); [done|]. rewrite (run_bind _ _ _ _ _ (ld_node_ok s dir d Hd)). cbn beta iota. rewrite Hty. cbn [Z.eqb Pos.eqb negb].
  destruct (Z.eqb_spec child 0); [done|]. rewrite (run_bind _ _ _ _ _ (kmalloc_ok s Hr)). cbn [negb].
  destruct (find_dirent_spec s L _ m name H Hi Hdir) as (r & Ef & Hf). rewrite (run_bind _ _ _ _ _ Ef).
  destruct (m !! name) as [[i t]|] eqn:Em; [|subst r; reflexivity]. destruct Hf as (f & -> & Hfi & Hft). cbn beta iota. rewrite Hfi, Hft.
  run (read_inode_ok s i (al_layout s (f_alloc _ _ _ H)) (Hval _ _ _ Em)). cbn [Z.eqb negb].
  destruct (publish_ok dir child (ext2_fill_vfs_node i (inode s i) (blank_node (node_type t (inode s i)) i dir)) 0 s) as (m' & E & Hm' & _).
  exists m'. split; [|done]. revert E. unfold vfs_node_get, st_node, add_node. run_get. run_get. run_get. intros [= E]. run_get. run_get. run_get.
  unfold ret. by rewrite E.
Qed.

(** The node a lookup returns stands for the inode of the entry. *)
Lemma looked_up_ino i v n : 0 < i < U32 -> n_fs_data n = i -> ext2_node_ino (ext2_fill_vfs_node i v n) = i.
Proof.
  intros Hi E. unfold ext2_node_ino. cbn. rewrite E. destruct (Z.eqb_spec i 0); [lia|]. unfold wrap32. apply Z.mod_small. lia.
Qed.

(** *** Creating, writing and finding a file again *)

Lemma node_ino_kept n sz mt : ext2_node_ino (node_set_mtime mt (node_set_size sz n)) = ext2_node_ino n.
Proof. done. Qed.

Lemma node_ino_of ino sz mode links ty dir : 0 < ino < U32 -> ext2_node_ino (mk_node ino sz mode 0 0 links 0 0 0 ty 0 ino dir 1) = ino.
Proof. intros Hi. unfold ext2_node_ino. cbn. destruct (Z.eqb_spec ino 0); [lia|]. apply Z.mod_small. lia. Qed.

Lemma valid_range s ino : layout s -> valid_ino s ino -> 0 < ino < U32.
Proof. intros H [H1 H2]. destruct (lay_ipg s H) as (_ & _ & ?). lia. Qed.

Lemma content_buffer s v buffer :
  (forall x, 0 <= x -> fbyte s v x = if (0 <=? x) && (x <? 0 + zlen buffer) then byte buffer (x - 0) else 0) ->
  content s v 0 (zlen buffer) = buffer.
Proof.
  intros Hx. pose proof (zlen_nonneg buffer). apply byte_ext; rewrite zlen_content by done; [done|].
  intros i Hi. rewrite byte_content, Hx by lia. rewrite Z.sub_0_r. bools; try lia. done.
Qed.

Lemma create_write_read_spec s L dir d name node child m buffer s1 s2 :
  fsys s L -> dir <> 0 -> nodes (mount s) !! dir = Some d -> orphaned d = false -> n_type d = VFS_DIR ->
  node <> 0 -> node <> dir -> child <> 0 ->
  let dino := ext2_node_ino d in
  L dino -> directory s dino m -> targets_ok s m -> m !! name = None -> bytes name -> zlen name < 256 ->
  bytes buffer -> buffer <> [] -> zlen buffer < U32 ->
  ext2_vfs_create dir name node s = Some (node, s1) -> ext2_vfs_write node 0 buffer s1 = Some (zlen buffer, s2) ->
  exists s3, ext2_iop_lookup dir name child s2 = Some ((0, child), s3) /\
    ext2_vfs_read child 0 (zlen buffer) s3 = Some ((zlen buffer, buffer), s3).
Proof.
  intros Hsys Hd0 Hd Horph Hty Hn0 Hnd Hc0 dino Hdi Hdir Hval Hno Hnb Hnl Hb Hne Hlen Ec Ew.
  destruct (create_spec s L dir d name node m Hsys Hd0 Hd Horph Hn0 Hdi Hdir Hno Hnb Hnl) as (r & s1' & E1 & Hor).
  rewrite Ec in E1. injection E1 as <- <-. destruct Hor as [(ino & _ & [Hnew Hsys1 Hdir1 _ Hg1] & Hin1 & Hnode & Hdn)|[? _]]; [|done].
  specialize (Hdn Hnd). fold dino in Hdir1. assert (with_ino L ino ino) as Hii by by right.
  pose proof (valid_range s1 ino (al_layout _ (f_alloc _ _ _ (proj1 Hsys1))) (f_valid _ _ _ (proj1 Hsys1) ino Hii)) as Hir.
  destruct (new_inode_fields (Z.lor EXT2_S_IFREG 420)) as (_ & _ & Hsz0 & _ & Hbz). rewrite <- Hin1 in Hsz0, Hbz.
  destruct (vfs_write_spec s1 (with_ino L ino) node _ 0 buffer (proj1 Hsys1) Hn0 Hnode) as (r & s2' & E2 & Hc2 & Hg2 & Hnk & _ & Hor).
  { by rewrite node_ino_of. } { rewrite node_ino_of by done. by rewrite Hin1. } { done. } { done. } { lia. } { lia. }
  rewrite node_ino_of in Hor by done. rewrite Ew in E2. injection E2 as <- <-. pose proof (zlen_nonneg buffer).
  destruct Hor as [[? _]|(_ & Hcap & Hsz2 & Hby2 & Hoth2)]; [lia|].
  pose proof (files_ready _ _ _ (proj1 Hsys1)) as Hr1. destruct (bs_pos s1 Hr1) as (Hbs & _ & HP).
  assert (dino <> ino) as Hdno by (intros E; by rewrite E in Hdi).
  assert (directory s2 dino (<[name := (ino, 1)]> m)) as Hdir2.
  { destruct (Hoth2 dino ltac:(by left) Hdno) as [Hi2 Hx2]. by apply (directory_kept s1). }
  destruct (nk_nodes _ _ Hnk dir _ Hdn) as (sz & mt & Hdn2).
  assert (valid_ino s2 ino) as Hv2 by (by apply (f_valid _ _ _ Hc2)).
  pose proof (lookup_spec s2 (with_ino L ino) dir _ name child _ Hc2 Hd0 Hdn2 Hty Hc0 ltac:(by left) Hdir2) as Hl.
  rewrite lookup_insert_eq in Hl. destruct Hl as (m' & El & Hm').
  { intros nm i t. destruct (decide (name = nm)) as [->|Hn']; [rewrite lookup_insert_eq; by intros [= <- _]|].
    rewrite lookup_insert_ne by done. intros E%Hval. unfold valid_ino. by rewrite Hg2, Hg1. }
  exists (set_mount m' s2). split; [done|].
  pose proof (vfs_read_spec (set_mount m' s2) (with_ino L ino) child _ 0 (zlen buffer) (files_mount _ _ _ _ Hc2) Hc0 Hm') as Hread.
  rewrite looked_up_ino in Hread by done. rewrite Hread; [|done..|destruct buffer; [done|unfold zlen in *; cbn; lia]].
  change (inode (set_mount m' s2) ino) with (inode s2 ino). rewrite Hsz2, Hsz0, Z.max_r by lia.
  assert (0 < zlen buffer) as Hpos by (destruct buffer; [done|unfold zlen; cbn; lia]).
  destruct (Z.ltb_spec 0 (0 + zlen buffer)); [|lia]. cbn zeta. rewrite Z.sub_0_r, Z.min_id.
  rewrite sint32_small; [|unfold nslots in Hcap; nia]. do 3 f_equal.
  apply content_buffer. intros x Hx. change (fbyte (set_mount m' s2) (inode s2 ino) x) with (fbyte s2 (inode s2 ino) x).
  rewrite Hby2 by done. destruct (_ && _); [done|]. apply Hbz; [lia|done].
Qed.

(** *** Removing a file *)

Definition without (L : Z -> Prop) (ino : Z) : Z -> Prop := fun i => L i /\ i <> ino.

(** The link count of an inode is changed on disk. *)
Lemma write_links_ok s L ino c :
  fsys s L -> L ino ->
  exists s', ext2_write_inode ino (set_i_links_count c (inode s ino)) s = Some (0, s') /\ fsys s' L /\ same s s' /\
    (forall i, valid_ino s i -> inode s' i = if i =? ino then set_i_links_count c (inode s ino) else inode s i) /\
    (forall i x, L i -> 0 <= x -> fbyte s' (inode s' i) x = fbyte s (inode s i) x) /\
    (forall i k, L i -> is_slot s k -> slot s' (inode s' i) k = slot s (inode s i) k) /\
    (forall k i, 0 <= i < total k s -> kbit k s' i = kbit k s i).
Proof.
  intros [H Hb] Hi. pose proof (f_inode _ _ _ H ino Hi) as Hv. pose proof (files_iupd_self s L ino H) as Hf.
  set (w := set_i_links_count c (inode s ino)).
  assert (inode_bytes w) as Hw by by apply inode_bytes_st.
  assert (forall k, 0 <= k <= 12 -> i_block w k = i_block (inode s ino) k) as Hwk by (intros; apply i_block_st; [done|lia..]).
  destruct (rewrite_inode_ok s (inode s) L ino (inode s ino) w Hf Hi Hw Hwk) as (s' & E & Hf' & Hs & Hin & Hx & Hp & Hk).
  assert (forall i, L i -> inode s' i = iupd (inode s) ino w i) as Hin' by (intros i Hl; by rewrite Hin by by apply (f_valid _ _ _ H)).
  assert (forall i, iupd (inode s) ino (inode s ino) i = inode s i) as Hself by (intros i; unfold iupd; by destruct (Z.eqb_spec i ino) as [->|]).
  exists s'. split_and!; [done| |done|done| | |done].
  - split; [by apply (files_ext L s' (iupd (inode s) ino w)); [|done]|]. intros i Hl. rewrite Hk; [by apply Hb|by apply (ibit_range s L)].
  - intros i x Hl Hxx. by rewrite Hin', Hx, Hself by done.
  - intros i k Hl [Hk1 _]. rewrite Hin' by done. unfold slot. destruct (Z.eqb_spec k (-1)); [|by rewrite Hp, Hself by (done || lia)].
    unfold iupd. destruct (Z.eqb_spec i ino) as [->|]; [apply Hwk; lia|done].
Qed.

Lemma links_fields c v : inode_bytes v -> 0 <= c < 65536 ->
  i_links_count (set_i_links_count c v) = c /\ i_size (set_i_links_count c v) = i_size v /\ i_mode (set_i_links_count c v) = i_mode v.
Proof.
  intros [Hl _] Hc. unfold i_links_count, i_size, i_mode, set_i_links_count.
  rewrite ld_st_eq, !ld_st_apart by (rewrite ?Hl; lia). split_and!; [|done..]. by apply Z.mod_small.
Qed.

(** *** The registry *)

Lemma node_orphaned_twice n : node_set_orphaned (node_set_orphaned n) = node_set_orphaned n.
Proof. destruct n. unfold node_set_orphaned. cbn. by rewrite <- Z.lor_assoc, Z.lor_diag. Qed.

(** The nodes of inode [ino] are marked, the others are as they were. *)
Record marked (ino : Z) (m m' : vfs_mount) : Prop := {
  mk_root : root m' = root m;
  mk_active : active_nodes m' = active_nodes m;
  mk_nodes : forall a, nodes m' !! a = nodes m !! a \/ nodes m' !! a = node_set_orphaned <$> nodes m !! a;
}.

Lemma marked_has ino m m' (s s' : ext2_fs) a : mount s = m -> mount s' = m' -> marked ino m m' -> has_ino s' ino a = has_ino s ino a.
Proof.
  intros <- <- [Hr _ Hn]. unfold has_ino. destruct (Hn a) as [->| ->]; destruct (nodes (mount s) !! a) as [n|]; cbn; try done;
    unfold vfs_node_stable_ino; by rewrite Hr.
Qed.

Lemma mark_node_spec ino s a :
  exists m', mark_node ino s a = set_mount m' s /\ marked ino (mount s) m' /\
    (has_ino s ino a = true -> nodes m' !! a = node_set_orphaned <$> nodes (mount s) !! a).
Proof.
  unfold mark_node. destruct (has_ino s ino a) eqn:E.
  - eexists. split; [done|]. split; [constructor; [done..|]|].
    + intros b. cbn. destruct (decide (a = b)) as [->|]; [right; by rewrite lookup_alter_eq|left; by rewrite lookup_alter_ne].
    + intros _. cbn. by rewrite lookup_alter_eq.
  - exists (mount s). split; [by destruct s|]. split; [|done]. constructor; [done..|by left].
Qed.

Lemma marked_trans ino m1 m2 m3 : marked ino m1 m2 -> marked ino m2 m3 -> marked ino m1 m3.
Proof.
  intros [Hr Ha Hn] [Hr' Ha' Hn']. constructor; [congruence..|]. intros a.
  destruct (Hn' a) as [->| ->]; [apply Hn|]. right. destruct (Hn a) as [->| ->]; [done|].
  destruct (nodes m1 !! a); cbn; [by rewrite node_orphaned_twice|done].
Qed.

Lemma mark_all_spec ino l s :
  exists m', fold_left (mark_node ino) l s = set_mount m' s /\ marked ino (mount s) m' /\
    (forall a, a ∈ l -> has_ino s ino a = true -> nodes m' !! a = node_set_orphaned <$> nodes (mount s) !! a).
Proof.
  revert s; induction l as [|b l IH]; intros s; cbn [fold_left].
  { exists (mount s). split; [by destruct s|]. split; [constructor; [done..|by left]|]. intros a Ha. by apply not_elem_of_nil in Ha. }
  destruct (mark_node_spec ino s b) as (m1 & E1 & Hm1 & Hb1). rewrite E1.
  destruct (IH (set_mount m1 s)) as (m' & E & Hm' & Ha). exists m'. split; [done|]. split; [by apply (marked_trans ino _ m1)|].
  assert (forall a, nodes m1 !! a = node_set_orphaned <$> nodes (mount s) !! a ->
    nodes m' !! a = node_set_orphaned <$> nodes (mount s) !! a) as Hstay.
  { intros a Ea. destruct (mk_nodes _ _ _ Hm' a) as [-> | ->]; cbn [mount set_mount]; rewrite Ea; [done|].
    destruct (nodes (mount s) !! a); cbn; [by rewrite node_orphaned_twice|done]. }
  intros a Hin Hh. apply elem_of_cons in Hin as [->|Hin]; [by apply Hstay, Hb1|].
  rewrite Ha; [|done|by rewrite (marked_has ino (mount s) m1 s)]. cbn [mount set_mount].
  destruct (mk_nodes _ _ _ Hm1 a) as [->| ->]; [done|]. destruct (nodes (mount s) !! a); cbn; [by rewrite node_orphaned_twice|done].
Qed.

Lemma mark_orphaned_spec ino s : ino <> 0 ->
  exists m', vfs_active_nodes_mark_orphaned_locked ino s = set_mount m' s /\ marked ino (mount s) m' /\
    (forall a, a ∈ active_nodes (mount s) -> has_ino s ino a = true -> nodes m' !! a = node_set_orphaned <$> nodes (mount s) !! a) /\
    vfs_active_nodes_has_ino_locked ino (set_mount m' s) = vfs_active_nodes_has_ino_locked ino s.
Proof.
  intros Hi. unfold vfs_active_nodes_mark_orphaned_locked. destruct (Z.eqb_spec ino 0); [done|].
  destruct (mark_all_spec ino (active_nodes (mount s)) s) as (m' & E & Hm & Ha). exists m'. split_and!; [done..|].
  unfold vfs_active_nodes_has_ino_locked. cbn [mount set_mount]. rewrite (mk_active _ _ _ Hm). f_equal.
  induction (active_nodes (mount s)) as [|b l IH] in |- *; [done|]. cbn [existsb]. by rewrite IH, (marked_has ino (mount s) m' s).
Qed.

(** A slot of the table that is pending comes before any other slot with its
    number. *)
Definition pending_first (ino : Z) (s : ext2_fs) : Prop :=
  ext2_is_orphan_locked ino s = true -> List.find (fun '(i, _) => i =? ino) (orphans s) = Some (ino, 1).

Lemma existsb_cons_false {A} (f : A -> bool) x l : existsb f (x :: l) = false -> f x = false /\ existsb f l = false.
Proof. cbn. by apply orb_false_elim. Qed.

Lemma find_marked ino (o : list (Z * Z)) :
  existsb (fun '(i, st) => (i =? ino) && negb (st =? 0)) o = false ->
  let o' := upd_first (fun '(_, st) => st =? 0) (fun _ => (ino, 1)) o in
  List.find (fun '(i, _) => i =? ino) o' = Some (ino, 1) \/ (o' = o /\ List.find (fun '(i, _) => i =? ino) o = None).
Proof.
  induction o as [|[i st] o IH]; [by right|]. intros [Hx Hl]%existsb_cons_false. cbn [upd_first]. destruct (Z.eqb_spec st 0) as [->|Hst].
  - left. cbn. by rewrite Z.eqb_refl.
  - cbn [negb] in Hx. rewrite andb_true_r in Hx. cbn [List.find]. rewrite Hx. destruct (IH Hl) as [?|[-> ?]]; auto.
Qed.


Lemma pending_mark ino s : pending_first ino s -> pending_first ino (ext2_mark_orphan_locked ino s).
Proof.
  unfold ext2_mark_orphan_locked. destruct (Z.eqb_spec ino 0); [done|]. destruct (existsb _ (orphans s)) eqn:Ex; [done|].
  intros _. unfold pending_first. cbn [orphans set_orphans]. destruct (find_marked ino _ Ex) as [->|[-> Hno]]; [done|].
  intros Ho. exfalso. unfold ext2_is_orphan_locked in Ho. apply andb_true_iff in Ho as [_ Ho]. cbn in Ho.
  apply existsb_exists in Ho as ([i st] & Hin & [E1%Z.eqb_eq _]%andb_true_iff). subst i.
  pose proof (find_none _ _ Hno _ Hin) as E. cbn in E. by rewrite Z.eqb_refl in E.
Qed.

(** The last node of a file without links is always the one to reclaim it. *)
Lemma evict_claim_true ino s :
  ino <> 0 -> pending_first ino s -> vfs_active_nodes_has_ino_locked ino s = false ->
  exists o, evict_claim ino true s = (true, set_orphans o s).
Proof.
  intros Hi Hp Hno. unfold evict_claim. rewrite Hno. cbn [negb andb orb].
  assert (forall s1 o1, s1 = set_orphans o1 s -> pending_first ino s1 ->
    exists o, (let '(claimed, s2) := ext2_claim_orphan_reclaim_locked ino s1 in
      if claimed then (true, s2) else (negb (ext2_is_orphan_locked ino s2), s2)) = (true, set_orphans o s)) as Hgo.
  { intros s1 o1 -> Hp1. unfold ext2_claim_orphan_reclaim_locked. destruct (Z.eqb_spec ino 0); [done|].
    unfold pending_first in Hp1. destruct (ext2_is_orphan_locked ino (set_orphans o1 s)) eqn:Ho.
    - rewrite (Hp1 eq_refl). cbn [Z.eqb Pos.eqb]. by eexists.
    - destruct (List.find _ _) as [[i st]|] eqn:Ef; [|rewrite Ho; by eexists]. destruct (Z.eqb_spec st 1) as [->|]; [by eexists|].
      rewrite Ho. by eexists. }
  destruct (ext2_is_orphan_locked ino s) eqn:Ho; cbn [negb].
  - apply (Hgo s (orphans s)); [by destruct s|done].
  - pose proof (pending_mark ino s Hp) as Hp1. unfold ext2_mark_orphan_locked in *. destruct (Z.eqb_spec ino 0); [done|].
    destruct (existsb _ (orphans s)); [apply (Hgo s (orphans s)); [by destruct s|done]|]. by eapply Hgo.
Qed.

(** *** Reclaiming and dropping an inode *)

(** Inode [ino] and its blocks are free again; the other files are as they
    were. *)
Record reclaimed (L : Z -> Prop) (ino : Z) (s s' : ext2_fs) : Prop := {
  re_sys : fsys s' (without L ino);
  re_inode : kbit KInode s' (ino - 1) = false;
  re_blocks : forall k, is_slot s k -> slot s (inode s ino) k <> 0 -> kbit KBlock s' (slot s (inode s ino) k) = false;
  re_others : forall i, L i -> i <> ino -> file_kept i s s';
  re_geo : geo s' = geo s;
}.

Lemma reclaim_ok s L ino :
  fsys s L -> L ino -> is_symlink (inode s ino) = false ->
  exists s', ext2_reclaim_orphan_inode_locked ino s = Some (0, s') /\ reclaimed L ino s s' /\ mount s' = mount s.
Proof.
  intros [H Hb] Hi Hsym. destruct (reclaim_spec s L ino H Hi Hsym (Hb ino Hi)) as (s' & E & Hc & Hoth & Hf & _ & Hbl & Hk & Hg & Hm).
  exists s'. split_and!; [done| |done]. constructor; [|done|done|exact Hoth|done]. split; [done|].
  intros i [Hii Hne]. rewrite Hk; [by apply Hb|by apply (ibit_range s L)|lia].
Qed.

Lemma set_mount_id m s : mount s = m -> set_mount m s = s.
Proof. intros <-. by destruct s. Qed.

Lemma drop_unused s L ino :
  fsys s L -> L ino -> is_symlink (inode s ino) = false -> vfs_active_nodes_has_ino_locked ino s = false ->
  exists s', drop_inode ino s = Some (tt, s') /\ reclaimed L ino s s'.
Proof.
  intros Hs Hi Hsym Hno. unfold drop_inode. run_get. run_get.
  assert (ino <> 0) as H0 by (destruct (f_valid _ _ _ (proj1 Hs) ino Hi); lia).
  destruct (mark_orphaned_spec ino s H0) as (m' & -> & _ & _ & ->). rewrite Hno.
  destruct (reclaim_ok (set_mount m' s) L ino (fsys_mount _ _ _ Hs) Hi Hsym) as (s' & E & [] & _). run E.
  exists s'. split; [done|]. by constructor.
Qed.

Lemma drop_open s ino :
  ino <> 0 -> vfs_active_nodes_has_ino_locked ino s = true ->
  exists m', drop_inode ino s = Some (tt, ext2_mark_orphan_locked ino (set_mount m' s)) /\ marked ino (mount s) m' /\
    (forall a, a ∈ active_nodes (mount s) -> has_ino s ino a = true -> nodes m' !! a = node_set_orphaned <$> nodes (mount s) !! a).
Proof.
  intros H0 Hyes. unfold drop_inode. run_get. run_get. destruct (mark_orphaned_spec ino s H0) as (m' & -> & Hm & Ha & ->).
  rewrite Hyes. by exists m'.
Qed.

Lemma mark_orphan_eq ino s : exists o, ext2_mark_orphan_locked ino s = set_orphans o s.
Proof.
  unfold ext2_mark_orphan_locked. destruct (ino =? 0); [exists (orphans s); by destruct s|].
  destruct (existsb _ _); [exists (orphans s); by destruct s|by eexists].
Qed.

(** *** Unlink *)

(** The file lost a link and is otherwise as it was. *)
Record one_link_less (L : Z -> Prop) (ino : Z) (s s' : ext2_fs) : Prop := {
  ol_sys : fsys s' L;
  ol_links : i_links_count (inode s' ino) = i_links_count (inode s ino) - 1;
  ol_size : i_size (inode s' ino) = i_size (inode s ino);
  ol_mode : i_mode (inode s' ino) = i_mode (inode s ino);
  ol_bytes : forall x, 0 <= x -> fbyte s' (inode s' ino) x = fbyte s (inode s ino) x;
  ol_slots : forall k, is_slot s k -> slot s' (inode s' ino) k = slot s (inode s ino) k;
}.
Definition kept_but (L : Z -> Prop) (dir ino : Z) (s s' : ext2_fs) : Prop :=
  forall i, L i -> i <> dir -> i <> ino -> file_kept i s s'.

Lemma file_directory i m s s' : ready s -> geo s' = geo s -> file_kept i s s' -> directory s i m -> directory s' i m.
Proof. intros Hr Hg [Hi Hx]. by apply directory_kept. Qed.

(** Deleting the name and the link, before the inode is dropped. *)
Lemma unlink_links_ok s L dir name m ino t :
  fsys s L -> L dir -> directory s dir m -> m !! name = Some (ino, t) -> L ino -> ino <> dir -> 1 <= i_links_count (inode s ino) ->
  exists s1 s2, dirent_del dir name s = Some (0, s1) /\
    ext2_read_inode ino s1 = Some ((0, inode s ino), s1) /\
    ext2_write_inode ino (set_i_links_count (i_links_count (inode s ino) - 1) (inode s ino)) s1 = Some (0, s2) /\
    directory s2 dir (delete name m) /\ one_link_less L ino s s2 /\ kept_but L dir ino s s2 /\ same s s2.
Proof.
  intros Hsys Hdi Hdir Hm Hi Hne Hl. pose proof (files_ready _ _ _ (proj1 Hsys)) as Hr. pose proof (f_inode _ _ _ (proj1 Hsys) ino Hi) as Hv.
  destruct (dirent_del_spec s L dir m name (proj1 Hsys) Hdi Hdir) as (s1 & E1 & Hst & Hdir1 & Hslk). rewrite Hm in E1.
  pose proof (fsys_step _ _ _ _ Hsys Hst) as Hsys1. pose proof (ds_same _ _ _ _ Hst) as Hs1.
  pose proof (f_valid _ _ _ (proj1 Hsys1) ino Hi) as Hv1.
  destruct (ds_others _ _ _ _ Hst ino Hi Hne) as [Ei Hx1].
  destruct (write_links_ok s1 L ino (i_links_count (inode s ino) - 1) Hsys1 Hi) as (s2 & E2 & Hsys2 & Hs2 & Hin2 & Hx2 & Hsl2 & _).
  rewrite Ei in E2, Hin2. exists s1, s2.
  assert (i_links_count (inode s ino) < 65536) as Hl2 by apply (ld_range 2 26 _ (proj2 Hv)).
  destruct (links_fields (i_links_count (inode s ino) - 1) (inode s ino) Hv ltac:(lia)) as (F1 & F2 & F3).
  pose proof (Hin2 ino Hv1) as Eino. rewrite Z.eqb_refl in Eino.
  assert (forall i, L i -> i <> ino -> file_kept i s1 s2) as Hk2.
  { intros i Hii Hni. split; [|intros x Hx; by apply Hx2]. rewrite Hin2 by by apply (f_valid _ _ _ (proj1 Hsys1)). by destruct (Z.eqb_spec i ino). }
  split_and!; [done| |done| | | |by etrans].
  - rewrite (read_inode_ok s1 ino (al_layout _ (f_alloc _ _ _ (proj1 Hsys1))) Hv1). by rewrite Ei.
  - apply (file_directory dir _ s1); [apply (files_ready _ _ _ (proj1 Hsys1))|apply Hs2|by apply Hk2|done].
  - constructor; [done|by rewrite Eino..| |].
    + intros x Hx. rewrite Hx2 by done. by apply Hx1.
    + intros k Hk. rewrite Hsl2 by (done || by apply (is_slot_same s s1)). by apply Hslk.
  - intros i Hii Hni Hnj. apply (file_kept_trans i s s1); [by apply (ds_others _ _ _ _ Hst)|by apply Hk2].
Qed.

(** The inode and the blocks it had in [s] are free in [s']. *)
Record gone (L : Z -> Prop) (ino : Z) (s s' : ext2_fs) : Prop := {
  go_sys : fsys s' (without L ino);
  go_inode : kbit KInode s' (ino - 1) = false;
  go_blocks : forall k, is_slot s k -> slot s (inode s ino) k <> 0 -> kbit KBlock s' (slot s (inode s ino) k) = false;
}.
(** The file stays, for the nodes that are still open on it. *)
Record left_open (L : Z -> Prop) (ino : Z) (s s' : ext2_fs) : Prop := {
  lo_file : one_link_less L ino s s';
  lo_nodes : marked ino (mount s) (mount s');
  lo_flag : forall a, a ∈ active_nodes (mount s) -> has_ino s ino a = true ->
    nodes (mount s') !! a = node_set_orphaned <$> nodes (mount s) !! a;
  lo_pending : pending_first ino s -> pending_first ino s';
}.

Lemma one_link_less_moved L ino s s' m o :
  one_link_less L ino s s' -> one_link_less L ino s (set_orphans o (set_mount m s')).
Proof.
  intros [[Hc Hb] ? ? ? ? ?]. constructor; try done. split; [|done]. by apply files_orphans, files_mount.
Qed.

Lemma reclaimed_gone L ino s s2 s' :
  same s s2 -> one_link_less L ino s s2 -> reclaimed L ino s2 s' -> gone L ino s s'.
Proof.
  intros Hs [] []. constructor; [done..|]. intros k Hk Hn. rewrite <- ol_slots0 in * by done. apply re_blocks0; [|done].
  by apply (is_slot_same s s2).
Qed.

Lemma vfs_unlink_spec s L dir d name m ino t :
  fsys s L -> dir <> 0 -> nodes (mount s) !! dir = Some d ->
  let dino := ext2_node_ino d in let links := i_links_count (inode s ino) in
  L dino -> directory s dino m -> m !! name = Some (ino, t) -> L ino -> ino <> dino -> is_symlink (inode s ino) = false -> 1 <= links ->
  exists s', ext2_vfs_unlink dir name s = Some (0, s') /\ directory s' dino (delete name m) /\ kept_but L dino ino s s' /\ geo s' = geo s /\
    (if links =? 1 then
       if vfs_active_nodes_has_ino_locked ino s then left_open L ino s s' else gone L ino s s'
     else one_link_less L ino s s').
Proof.
  intros Hsys Hd0 Hd dino links Hdi Hdir Hm Hi Hne Hsym Hl. unfold ext2_vfs_unlink. destruct (Z.eqb_spec dir 0); [done|].
  run (ld_node_ok s dir d Hd). fold dino. destruct (find_dirent_spec s L dino m name (proj1 Hsys) Hdi Hdir) as (r & Ef & Hf).
  rewrite Hm in Hf. destruct Hf as (f & -> & Hfi & _). run Ef. rewrite Hfi.
  destruct (unlink_links_ok s L dino name m ino t Hsys Hdi Hdir Hm Hi Hne Hl) as (s1 & s2 & E1 & E2 & E3 & Hdir2 & Hol & Hk2 & Hs2).
  fold links in E3. run E1. run E2. cbn [Z.eqb negb]. fold links. run E3.
  destruct (links_fields (links - 1) (inode s ino) (f_inode _ _ _ (proj1 Hsys) ino Hi)) as (Fl & _ & _).
  { assert (links < 65536) by apply (ld_range 2 26 _ (proj2 (f_inode _ _ _ (proj1 Hsys) ino Hi))). lia. }
  rewrite Fl. pose proof (ol_sys _ _ _ _ Hol) as Hsys2. pose proof (files_ready _ _ _ (proj1 Hsys2)) as Hr2.
  assert (is_symlink (inode s2 ino) = false) as Hsym2 by (unfold is_symlink; by rewrite (ol_mode _ _ _ _ Hol)).
  assert (ino <> 0) as Hi0 by (destruct (f_valid _ _ _ (proj1 Hsys) ino Hi); lia).
  pose proof (same_mount _ _ Hs2) as Hm2.
  assert (vfs_active_nodes_has_ino_locked ino s2 = vfs_active_nodes_has_ino_locked ino s) as Hact.
  { unfold vfs_active_nodes_has_ino_locked, has_ino. by rewrite Hm2. }
  assert (forall a, has_ino s2 ino a = has_ino s ino a) as Hhas by (intros; unfold has_ino; by rewrite Hm2).
  destruct (Z.eqb_spec (links - 1) 0), (Z.eqb_spec links 1); try lia; cycle 1.
  { run_get. exists s2. split_and!; [done..|apply Hs2|done]. }
  destruct (vfs_active_nodes_has_ino_locked ino s) eqn:Eo.
  - destruct (drop_open s2 ino Hi0 Hact) as (m' & Ed & Hmk & Ha). rewrite Hm2 in Hmk, Ha. run Ed.
    destruct (mark_orphan_eq ino (set_mount m' s2)) as (o & Eo'). rewrite Eo'. eexists. split; [done|].
    split_and!; [apply (file_directory dino _ s2); done|exact Hk2|apply Hs2|]. constructor; [by apply one_link_less_moved|done| |].
    + intros a Hin Hh. apply Ha; [done|by rewrite Hhas].
    + intros Hp. rewrite <- Eo'. apply pending_mark. unfold pending_first, ext2_is_orphan_locked in *. cbn.
      by rewrite (same_orphans _ _ Hs2).
  - destruct (drop_unused s2 L ino Hsys2 Hi Hsym2 Hact) as (s' & Ed & Hre). run Ed. exists s'. split; [done|].
    split_and!; [| | |by apply (reclaimed_gone L ino s s2)].
    + apply (file_directory dino _ s2); [done|apply Hre|by apply (re_others _ _ _ _ Hre)|done].
    + intros i Hii Hni Hnj. apply (file_kept_trans i s s2); [by apply Hk2|by apply (re_others _ _ _ _ Hre)].
    + by rewrite (re_geo _ _ _ _ Hre), (same_geo _ _ Hs2).
Qed.

(** *** The last node of a file *)

Lemma remove_first_app a l1 l2 : a ∉ l1 -> remove_first a (l1 ++ a :: l2) = l1 ++ l2.
Proof.
  induction l1 as [|x l1 IH]; intros Hn; cbn; [by rewrite Z.eqb_refl|]. apply not_elem_of_cons in Hn as [Hx Hn].
  destruct (Z.eqb_spec x a); [congruence|]. by rewrite IH.
Qed.

(** The node goes; when it was the last one of a file without links, the file
    goes too. *)
Lemma evict_spec s L node n ino :
  fsys s L -> node <> 0 -> nodes (mount s) !! node = Some n -> node <> root (mount s) -> VFS_NODE_MOUNT_STUB n = false ->
  wrap32 (n_ino n) = ino -> L ino -> is_symlink (inode s ino) = false -> orphaned n = true -> pending_first ino s ->
  let s1 := vfs_active_node_unregister_locked node s in
  exists s', ext2_iop_evict_node node s = Some (tt, s') /\
    (if vfs_active_nodes_has_ino_locked ino s1 then s' = s1 else reclaimed L ino s s' /\ mount s' = mount s1).
Proof.
  intros Hsys Hn0 Hn Hroot Hstub Hino Hi Hsym Horph Hp s1. unfold ext2_iop_evict_node. destruct (Z.eqb_spec node 0); [done|].
  run (ld_node_ok s node n Hn). run_get. destruct (Z.eqb_spec node (root (mount s))); [done|]. rewrite Hstub. cbn [orb].
  run_get. run_get. fold s1. rewrite Horph, Hino. assert (ino <> 0) as Hi0 by (destruct (f_valid _ _ _ (proj1 Hsys) ino Hi); lia).
  destruct (vfs_active_nodes_has_ino_locked ino s1) eqn:Eo.
  { unfold evict_claim. rewrite Eo. cbn [negb andb]. run_get. by exists s1. }
  destruct (evict_claim_true ino s1 Hi0 Hp Eo) as (o & ->). run_get.
  assert (fsys (set_orphans o s1) L) as Hs1 by (split; [apply files_orphans, files_mount, Hsys|apply Hsys]).
  destruct (reclaim_ok (set_orphans o s1) L ino Hs1 Hi Hsym) as (s' & E & [] & Hm'). run E. exists s'. split; [done|].
  split; [by constructor|done].
Qed.

(** *** Unlinking a file that is open *)

Lemma content_ext s s' v v' off n :
  0 <= off -> (forall x, 0 <= x -> fbyte s' v' x = fbyte s v x) -> content s' v' off n = content s v off n.
Proof. intros Ho Hx. apply list_fmap_ext. intros i x E%lookup_seqZ. apply Hx. lia. Qed.

Lemma stub_orphaned n : VFS_NODE_MOUNT_STUB (node_set_orphaned n) = VFS_NODE_MOUNT_STUB n /\ orphaned (node_set_orphaned n) = true.
Proof.
  unfold VFS_NODE_MOUNT_STUB, orphaned, node_set_orphaned. cbn [n_flags]. rewrite !Z.land_lor_distr_l. split.
  - change (Z.land VFS_NODE_ORPHANED 2) with 0. by rewrite Z.lor_0_r.
  - change (Z.land VFS_NODE_ORPHANED VFS_NODE_ORPHANED) with 4. apply negb_true_iff, Z.eqb_neq. intros E.
    apply Z.lor_eq_0_iff in E as [_ E]. done.
Qed.

Lemma existsb_app_has s ino l1 a l2 : has_ino s ino a = true -> existsb (has_ino s ino) (l1 ++ a :: l2) = true.
Proof. intros H. rewrite existsb_app. cbn. by rewrite H, orb_true_r. Qed.

(** The last link of an open file is removed: the file can be read through its
    node as before, until the node goes and the file with it. *)
Lemma unlink_open_spec s L dir d name m ino t node n l1 l2 :
  fsys s L -> dir <> 0 -> nodes (mount s) !! dir = Some d ->
  let dino := ext2_node_ino d in
  L dino -> directory s dino m -> m !! name = Some (ino, t) -> L ino -> ino <> dino -> is_symlink (inode s ino) = false ->
  i_links_count (inode s ino) = 1 ->
  node <> 0 -> nodes (mount s) !! node = Some n -> n_ino n = ino -> n_fs_data n = ino -> node <> root (mount s) -> VFS_NODE_MOUNT_STUB n = false ->
  active_nodes (mount s) = l1 ++ node :: l2 -> node ∉ l1 -> existsb (has_ino s ino) (l1 ++ l2) = false -> pending_first ino s ->
  exists s1 s2, ext2_vfs_unlink dir name s = Some (0, s1) /\ directory s1 dino (delete name m) /\
    (forall offset size, 0 <= offset -> 0 < size -> fst <$> ext2_vfs_read node offset size s1 = fst <$> ext2_vfs_read node offset size s) /\
    ext2_iop_evict_node node s1 = Some (tt, s2) /\ gone L ino s s2 /\ kept_but L dino ino s s2 /\ directory s2 dino (delete name m).
Proof.
  intros Hsys Hd0 Hd dino Hdi Hdir Hm Hi Hne Hsym Hl Hn0 Hn Hino Hdata Hroot Hstub Hact Hnl Hother Hp.
  pose proof (valid_range s ino (al_layout _ (f_alloc _ _ _ (proj1 Hsys))) (f_valid _ _ _ (proj1 Hsys) ino Hi)) as Hir.
  assert (ext2_node_ino n = ino) as Eino.
  { unfold ext2_node_ino. rewrite Hdata. destruct (Z.eqb_spec ino 0); [lia|]. apply Z.mod_small. lia. }
  assert (has_ino s ino node = true) as Hhas.
  { unfold has_ino. rewrite Hn. unfold vfs_node_stable_ino. rewrite Hino. destruct (Z.eqb_spec ino 0); [lia|]. apply Z.eqb_refl. }
  destruct (vfs_unlink_spec s L dir d name m ino t Hsys Hd0 Hd Hdi Hdir Hm Hi Hne Hsym ltac:(lia)) as (s1 & E1 & Hdir1 & Hk1 & Hg1 & Hcase).
  rewrite Hl in Hcase. cbn [Z.eqb Pos.eqb] in Hcase.
  assert (vfs_active_nodes_has_ino_locked ino s = true) as Hopen.
  { unfold vfs_active_nodes_has_ino_locked. rewrite Hact, existsb_app_has by done. destruct (Z.eqb_spec ino 0); [lia|done]. }
  rewrite Hopen in Hcase. destruct Hcase as [Hol Hmk Hflag Hpend]. pose proof (ol_sys _ _ _ _ Hol) as Hsys1.
  assert (nodes (mount s1) !! node = Some (node_set_orphaned n)) as Hn1.
  { rewrite Hflag, Hn; [done| |done]. rewrite Hact. set_solver. }
  assert (is_symlink (inode s1 ino) = false) as Hsym1 by (unfold is_symlink; by rewrite (ol_mode _ _ _ _ Hol)).
  destruct (stub_orphaned n) as [Est Eor].
  destruct (evict_spec s1 L node _ ino Hsys1 Hn0 Hn1) as (s2 & E2 & Hev); try done.
  { by rewrite (mk_root _ _ _ Hmk). } { by rewrite Est. } { cbn [n_ino node_set_orphaned]. rewrite Hino. apply Z.mod_small. lia. }
  { by apply Hpend. }
  assert (vfs_active_nodes_has_ino_locked ino (vfs_active_node_unregister_locked node s1) = false) as Hlast.
  { unfold vfs_active_nodes_has_ino_locked. cbn [active_nodes mount set_mount set_active vfs_active_node_unregister_locked].
    rewrite (mk_active _ _ _ Hmk), Hact, remove_first_app by done. apply andb_false_iff. right. rewrite <- Hother.
    induction (l1 ++ l2) as [|a l IH] in |- *; [done|]. cbn [existsb]. rewrite IH. f_equal.
    change (has_ino s1 ino a = has_ino s ino a). by apply (marked_has ino (mount s) (mount s1)). }
  rewrite Hlast in Hev. destruct Hev as [Hre Hm2]. exists s1, s2. split_and!; [done|done| |done| | |].
  - intros offset size Ho Hsz.
    pose proof (vfs_read_spec s L node n offset size (proj1 Hsys) Hn0 Hn) as Hr0.
    pose proof (vfs_read_spec s1 L node _ offset size (proj1 Hsys1) Hn0 Hn1) as Hr1.
    change (ext2_node_ino (node_set_orphaned n)) with (ext2_node_ino n) in Hr1. rewrite Eino in Hr0, Hr1.
    rewrite Hr0, Hr1 by done. cbn [fmap option_fmap option_map fst]. rewrite (ol_size _ _ _ _ Hol).
    destruct (offset <? _); [|done]. cbn zeta. do 2 f_equal. apply content_ext; [done|]. apply Hol.
  - destruct Hre, Hol. constructor; [done..|]. intros k Hk Hnz. rewrite <- ol_slots0 in * by done. apply re_blocks0; [|done].
    unfold is_slot, nslots, ptrs_per_block in *. by rewrite Hg1.
  - intros i Hii Hni Hnj. apply (file_kept_trans i s s1); [by apply Hk1|by apply (re_others _ _ _ _ Hre)].
  - apply (file_directory dino _ s1); [apply (files_ready _ _ _ (proj1 Hsys1))|apply Hre|by apply (re_others _ _ _ _ Hre)|done].
Qed.

(** ** What the name operations promise *)

(** C24: Creating a file in a directory of a consistent volume, when no [kmalloc]
    and no transfer fails.  When the directory has been removed, when the
    [calloc] of the node failed, or when the name exists, the result is NULL and
    nothing changes.  Otherwise it is the new node, with the name in the
    directory pointing to a fresh inode of a regular file with one link, or NULL
    with no file and no name changed, because no inode or no block is free or
    the directory is full; no other file changes. *)
Theorem ext2_create_correct s L dir d name node m :
  fsys (calm s) L -> no_failure s -> dir <> 0 -> nodes (mount s) !! dir = Some d ->
  let dino := ext2_node_ino d in
  L dino -> directory s dino m -> bytes name -> zlen name < 256 ->
  if orphaned d || (node =? 0) || bool_decide (is_Some (m !! name)) then ext2_vfs_create dir name node s = Some (0, s)
  else exists r s', ext2_vfs_create dir name node s = Some (r, s') /\
    ((exists ino, r = node /\ created L dino m name 1 ino s s' /\ inode s' ino = new_inode (Z.lor EXT2_S_IFREG 420) /\
        nodes (mount s') !! node = Some (mk_node ino 0 (Z.lor EXT2_S_IFREG 420) 0 0 1 0 0 0 VFS_FILE 0 ino dir 1) /\
        (node <> dir -> nodes (mount s') !! dir = Some (node_get_ref d))) \/
     (r = 0 /\ unchanged L dino m s s' /\ (all_used KInode s \/ all_used KBlock s \/ i_block (inode s dino) 11 <> 0))).
Proof.
  intros H Hf Hd0 Hd dino Hdi Hdir Hb Hl. rewrite (calm_id s Hf) in H.
  destruct (orphaned d || (node =? 0)) eqn:Ho; cbn [orb].
  { unfold ext2_vfs_create. rewrite (proj2 (Z.eqb_neq _ _) Hd0). run (ld_node_ok s dir d Hd). by rewrite Ho. }
  pose proof Ho as [Ho1 Hn]%orb_false_iff. apply Z.eqb_neq in Hn. case_bool_decide as Hm.
  - destruct Hm as [[i t] Hm]. unfold ext2_vfs_create. rewrite (proj2 (Z.eqb_neq _ _) Hd0). run (ld_node_ok s dir d Hd). rewrite Ho.
    run (kmalloc_ok s (files_ready _ _ _ (proj1 H))). cbn [negb]. fold dino.
    destruct (find_dirent_spec s L dino m name (proj1 H) Hdi Hdir) as (rf & Ef & Hr). rewrite Hm in Hr. destruct Hr as (f & -> & _). by run Ef.
  - apply (create_spec s L dir d name node m); try done. by apply eq_None_not_Some.
Qed.

(** C19: When no [kmalloc] and no transfer fails, what is written to a newly
    created file is what a lookup of its name and a read of the node it returns
    give back. *)
Theorem ext2_create_write_lookup_read s L dir d name node child m buffer s1 s2 :
  fsys s L -> dir <> 0 -> nodes (mount s) !! dir = Some d -> orphaned d = false -> n_type d = VFS_DIR ->
  node <> 0 -> node <> dir -> child <> 0 ->
  let dino := ext2_node_ino d in
  L dino -> directory s dino m -> targets_ok s m -> m !! name = None -> bytes name -> zlen name < 256 ->
  bytes buffer -> buffer <> [] -> zlen buffer < U32 ->
  ext2_vfs_create dir name node s = Some (node, s1) -> ext2_vfs_write node 0 buffer s1 = Some (zlen buffer, s2) ->
  exists s3, ext2_iop_lookup dir name child s2 = Some ((0, child), s3) /\
    ext2_vfs_read child 0 (zlen buffer) s3 = Some ((zlen buffer, buffer), s3).
Proof. exact (create_write_read_spec s L dir d name node child m buffer s1 s2). Qed.

(** C23: When no [kmalloc] and no transfer fails, unlinking a name, of a file
    that is not a symbolic link, deletes it from the directory and takes one
    link from its file.  The last link of a file that is not open frees its
    inode and all its blocks; a file that is open is kept with its bytes and its
    nodes are marked; no other file changes. *)
Theorem ext2_unlink_correct s L dir d name m ino t :
  fsys s L -> dir <> 0 -> nodes (mount s) !! dir = Some d ->
  let dino := ext2_node_ino d in let links := i_links_count (inode s ino) in
  L dino -> directory s dino m -> m !! name = Some (ino, t) -> L ino -> ino <> dino -> is_symlink (inode s ino) = false -> 1 <= links ->
  exists s', ext2_vfs_unlink dir name s = Some (0, s') /\ directory s' dino (delete name m) /\ kept_but L dino ino s s' /\ geo s' = geo s /\
    (if links =? 1 then
       if vfs_active_nodes_has_ino_locked ino s then left_open L ino s s' else gone L ino s s'
     else one_link_less L ino s s').
Proof. exact (vfs_unlink_spec s L dir d name m ino t). Qed.

(** C21: When no [kmalloc] and no transfer fails, a file with one link that is
    unlinked while it is open can be read through its node with the same results
    as before, and when that node, the last one, is evicted, its inode and all
    its blocks become free while the other files stay as they are. *)
Theorem ext2_unlink_open_correct s L dir d name m ino t node n l1 l2 :
  fsys s L -> dir <> 0 -> nodes (mount s) !! dir = Some d ->
  let dino := ext2_node_ino d in
  L dino -> directory s dino m -> m !! name = Some (ino, t) -> L ino -> ino <> dino -> is_symlink (inode s ino) = false ->
  i_links_count (inode s ino) = 1 ->
  node <> 0 -> nodes (mount s) !! node = Some n -> n_ino n = ino -> n_fs_data n = ino -> node <> root (mount s) -> VFS_NODE_MOUNT_STUB n = false ->
  active_nodes (mount s) = l1 ++ node :: l2 -> node ∉ l1 -> existsb (has_ino s ino) (l1 ++ l2) = false -> pending_first ino s ->
  exists s1 s2, ext2_vfs_unlink dir name s = Some (0, s1) /\ directory s1 dino (delete name m) /\
    (forall offset size, 0 <= offset -> 0 < size -> fst <$> ext2_vfs_read node offset size s1 = fst <$> ext2_vfs_read node offset size s) /\
    ext2_iop_evict_node node s1 = Some (tt, s2) /\ gone L ino s s2 /\ kept_but L dino ino s s2 /\ directory s2 dino (delete name m).
Proof. exact (unlink_open_spec s L dir d name m ino t node n l1 l2). Qed.

End Ext2Name.
