(* ===== verification/Ext2Check.v ===== *)
(** A consistency checker for ext2 volumes: computable tests that establish
    the invariants of Ext2Alloc, Ext2File, Ext2Dir and Ext2Name for a concrete
    state, and the proofs that they do. *)

From stdpp Require Import base tactics numbers option gmap list.
From Stdlib Require Import ZArith Lia.
From S2P Require Import Prelude Bytes Ext2 Ext2Alloc Ext2File Ext2Mount Ext2Dir Ext2Name.

Module Ext2Check.
Export Ext2Name.

(** ** Tests on ranges and lists *)

Definition every (lo n : Z) (f : Z -> bool) : bool := forallb f (seqZ lo n).

Lemma every_spec lo n f : every lo n f = true -> forall i, lo <= i < lo + n -> f i = true.
Proof.
  intros H i Hi. unfold every in H. rewrite forallb_forall in H. apply H. apply list_elem_of_In, elem_of_seqZ. lia.
Qed.

Lemma NoDup_fmap_inj {A B} (f : A -> B) (l : list A) x y : NoDup (f <$> l) -> x ∈ l -> y ∈ l -> f x = f y -> x = y.
Proof.
  intros Hnd [i Hi]%list_elem_of_lookup [j Hj]%list_elem_of_lookup E.
  assert (i = j) as ->; [|congruence]. apply (NoDup_lookup (f <$> l) i j (f x)); [done|..].
  - by rewrite list_lookup_fmap, Hi.
  - by rewrite list_lookup_fmap, Hj, E.
Qed.

Definition is_bytes (b : list Z) : bool := forallb (fun x => (0 <=? x) && (x <? 256)) b.

Lemma is_bytes_spec b : is_bytes b = true -> bytes b.
Proof.
  intros H. unfold is_bytes in H. rewrite forallb_forall in H. apply Forall_forall. intros x Hx%list_elem_of_In%H. unfold is_byte. lia.
Qed.

(** ** Metadata *)

Definition in_devb (s : ext2_fs) (b : Z) : bool := (0 <=? b) && ((b + 1) * sectors_per_block s <=? sector_count (dev s)).
Lemma in_devb_spec s b : in_devb s b = true -> in_dev s b.
Proof. unfold in_devb, in_dev. lia. Qed.

Definition itable_blocks (s : ext2_fs) : Z := (inodes_per_group s - 1) / inodes_per_blk s + 1.
Definition metas (s : ext2_fs) : list meta :=
  MSb :: (MDesc <$> seqZ 0 (bgdesc_table_blocks s)) ++
  (g ← seqZ 0 (num_block_groups s); MBitmap g :: MIBitmap g :: (MITable g <$> seqZ 0 (itable_blocks s))).

Lemma metas_spec s m : meta_ok s m -> m ∈ metas s.
Proof.
  intros Hm. unfold metas. destruct m as [|i|g|g|g k]; cbn in Hm; [by left|right..]; apply elem_of_app.
  - left. apply list_elem_of_fmap. exists i. split; [done|]. apply elem_of_seqZ. lia.
  - right. apply list_elem_of_bind. exists g. split; [left|apply elem_of_seqZ; lia].
  - right. apply list_elem_of_bind. exists g. split; [right; left|apply elem_of_seqZ; lia].
  - right. apply list_elem_of_bind. exists g. split; [right; right|apply elem_of_seqZ; lia].
    apply list_elem_of_fmap. exists k. split; [done|]. apply elem_of_seqZ. unfold itable_blocks. lia.
Qed.

Definition check_meta (s : ext2_fs) (m : meta) : bool :=
  let b := meta_at s m in in_devb s b && (b <? U32) && (b <? total KBlock s) && kbit KBlock s b.

Definition check_layout (s : ext2_fs) : bool :=
  (0 <? num_block_groups s) && (32 * num_block_groups s <=? zlen (bgdesc_table s)) &&
  (0 <? blocks_per_group s) && (blocks_per_group s <=? 8 * block_size s) && (blocks_per_group s mod 8 =? 0) &&
  (num_block_groups s * blocks_per_group s <? U32) &&
  (0 <? inodes_per_group s) && (inodes_per_group s <=? 8 * block_size s) && (inodes_per_group s mod 8 =? 0) &&
  (num_block_groups s * inodes_per_group s <? U32) &&
  (INODE_SIZE <=? inode_size s) && (inode_size s <=? block_size s) &&
  forallb (check_meta s) (metas s) && bool_decide (NoDup (meta_at s <$> metas s)).

Definition check_cached (s : ext2_fs) : bool :=
  (zlen (sb_raw s) =? SB_SIZE) && is_bytes (sb_raw s) &&
  (zlen (bgdesc_table s) =? bgdesc_table_blocks s * block_size s) && is_bytes (bgdesc_table s) &&
  (bgdesc_block s =? sb_block s + 1) && (0 <=? bgdesc_table_blocks s) && (bgdesc_block s + bgdesc_table_blocks s <=? U32) &&
  every 0 (bgdesc_table_blocks s) (fun i => in_devb s (bgdesc_block s + i)).

Lemma check_cached_spec s : ready s -> check_cached s = true -> cached s.
Proof.
  intros Hr H. unfold check_cached in H. rewrite !andb_true_iff in H. destruct H as [[[[[[[H1 H2] H3] H4] H5] H6] H7] H8].
  constructor; [done|split; [lia|by apply is_bytes_spec]|split; [lia|by apply is_bytes_spec]|lia|lia|].
  intros i Hi. apply in_devb_spec. by apply (every_spec _ _ _ H8).
Qed.

Lemma check_meta_spec s m : check_layout s = true -> meta_ok s m -> check_meta s m = true.
Proof.
  intros H Hm%metas_spec. unfold check_layout in H. rewrite !andb_true_iff in H. destruct H as [[_ H] _].
  rewrite forallb_forall in H. by apply H, list_elem_of_In.
Qed.

Lemma check_layout_spec s : cached s -> check_layout s = true -> layout s.
Proof.
  intros Hc H. pose proof (fun m => check_meta_spec s m H) as Hm. unfold check_layout in H. rewrite !andb_true_iff in H.
  destruct H as [[H _] Hnd]. apply bool_decide_eq_true in Hnd. constructor; [done|lia|lia|lia|lia|..].
  - intros m Hok%Hm. unfold check_meta in Hok. rewrite !andb_true_iff in Hok. destruct Hok as [[[Hd Hlt] _] _].
    split; [by apply in_devb_spec|lia].
  - intros m m' Hok%metas_spec Hok'%metas_spec E. by apply (NoDup_fmap_inj (meta_at s) (metas s)).
Qed.

(** ** The allocator's invariant *)

Definition check_counted (k : kind) (s : ext2_fs) : bool :=
  every 0 (num_block_groups s) (fun g =>
    ld 2 (32 * g + bg_off k) (bgdesc_table s) =? zcount (kclear k s) (g * per k s) (Z.to_nat (per k s))) &&
  (ld 4 (sb_off k) (sb_raw s) =? zcount (kclear k s) 0 (Z.to_nat (total k s))).
Definition check_synced (s : ext2_fs) : bool :=
  bool_decide (slice 0 SB_SIZE (sb_disk s) = sb_raw s) &&
  every 0 (bgdesc_table_blocks s) (fun i =>
    bool_decide (blk s (bgdesc_block s + i) = slice (i * block_size s) (block_size s) (bgdesc_table s))).
#[export] Instance geometry_eq_dec : EqDecision geometry.
Proof. solve_decision. Defined.
Definition check_mounted (s : ext2_fs) : bool :=
  let sb := sb_raw s in
  bool_decide (geo s = geometry_of (block_size s) sb) && (block_size s =? wrap32 (Z.shiftl 1024 (s_log_block_size sb))) &&
  (s_log_block_size sb <? 32) && (s_magic sb =? EXT2_MAGIC) && (Z.land (s_feature_incompat sb) 64 =? 0) && negb (s_blocks_per_group sb =? 0).
Definition check_alloc (s : ext2_fs) : bool :=
  check_cached s && check_layout s && check_synced s && kbit KBlock s 0 &&
  every 0 (total KBlock s) (fun b => kbit KBlock s b || in_devb s b) &&
  check_counted KBlock s && check_counted KInode s && check_mounted s.

Lemma check_alloc_spec s : ready s -> check_alloc s = true -> alloc_inv s.
Proof.
  intros Hr H. unfold check_alloc in H. rewrite !andb_true_iff in H. destruct H as [[[[[[[Hc Hl] Hs] Hz] Hd] Hkb] Hki] Hm].
  apply check_cached_spec in Hc; [|done]. pose proof (check_layout_spec s Hc Hl) as Hlay. constructor; [done|..].
  - unfold check_synced in Hs. apply andb_true_iff in Hs as [H1%bool_decide_eq_true H2]. split; [done|].
    intros i Hi. pose proof (every_spec _ _ _ H2 i Hi) as E. by apply bool_decide_eq_true in E.
  - intros m Hok. pose proof (check_meta_spec s m Hl Hok) as Hck. unfold check_meta in Hck. rewrite !andb_true_iff in Hck. destruct Hck as [[_ Hlt] Hbit]. split; [lia|done].
  - done.
  - intros b Hb Hbit. apply in_devb_spec. pose proof (every_spec _ _ _ Hd b Hb) as E. cbn in E. by rewrite Hbit in E.
  - intros k. assert (check_counted k s = true) as [H1 H2]%andb_true_iff by (by destruct k). split; [|lia].
    intros g Hg. pose proof (every_spec _ _ _ H1 g Hg) as E. cbn in E. lia.
  - unfold check_mounted in Hm. rewrite !andb_true_iff in Hm. destruct Hm as [[[[[H1%bool_decide_eq_true H2] H3] H4] H5] H6].
    unfold mounted. split_and!; [done|lia..].
Qed.

(** ** Files *)

Definition check_usable (s : ext2_fs) (b : Z) : bool :=
  (0 <? b) && (b <? total KBlock s) && kbit KBlock s b && in_devb s b && bool_decide (b ∉ meta_at s <$> metas s).

Lemma check_usable_spec s b : check_usable s b = true -> usable s b.
Proof.
  unfold check_usable. rewrite !andb_true_iff. intros [[[[H1 H2] H3] H4%in_devb_spec] H5%bool_decide_eq_true].
  unfold usable, releasable. split_and!; [lia..|done|lia|done|]. intros m Hm%metas_spec E. apply H5. apply list_elem_of_fmap. by exists m.
Qed.

(** The pointers of the files that are not 0: (inode, position, block). *)
Definition slots_of (s : ext2_fs) (ino : Z) : list (Z * Z * Z) :=
  let v := inode s ino in
  filter (fun '(_, _, b) => b ≠ 0) ((fun k => (ino, k, slot s v k)) <$> seqZ (-1) (nslots s + 1)).
Definition check_files (s : ext2_fs) (L : list Z) : bool :=
  let all := L ≫= slots_of s in
  forallb (fun ino => (1 <=? ino) && (ino <=? num_block_groups s * inodes_per_group s) && (zlen (inode s ino) =? INODE_SIZE) &&
    is_bytes (inode s ino) && kbit KInode s (ino - 1)) L &&
  forallb (fun '(_, _, b) => check_usable s b) all && bool_decide (NoDup (snd <$> all)).

Lemma slots_of_spec s L ino k : ino ∈ L -> is_slot s k -> slot s (inode s ino) k <> 0 ->
  (ino, k, slot s (inode s ino) k) ∈ L ≫= slots_of s.
Proof.
  intros Hi Hk Hn. apply list_elem_of_bind. exists ino. split; [|done]. unfold slots_of. apply list_elem_of_filter. split; [done|].
  apply list_elem_of_fmap. exists k. split; [done|]. apply elem_of_seqZ. unfold is_slot in Hk. lia.
Qed.

Lemma check_files_spec s L : alloc_inv s -> check_files s L = true -> fsys s (fun i => i ∈ L).
Proof.
  intros Ha H. unfold check_files in H. rewrite !andb_true_iff in H. destruct H as [[H1 H2] Hnd%bool_decide_eq_true].
  rewrite !forallb_forall in H1, H2.
  assert (forall i, i ∈ L -> valid_ino s i /\ inode_bytes (inode s i) /\ kbit KInode s (i - 1) = true) as Hi.
  { intros i Hi%list_elem_of_In%H1. rewrite !andb_true_iff in Hi. destruct Hi as [[[[? ?] ?] ?%is_bytes_spec] ?].
    unfold valid_ino, inode_bytes. split_and!; [lia..|done|done]. }
  split; [|intros i Hin; by apply Hi]. constructor; [done|by intros; apply Hi..| |].
  - intros ino k Hin Hk Hn. apply check_usable_spec.
    by apply (H2 (ino, k, slot s (inode s ino) k)), list_elem_of_In, slots_of_spec.
  - intros ino k ino' k' Hin Hin' Hk Hk' Hn E. pose proof (slots_of_spec s L ino k Hin Hk Hn) as P1.
    pose proof (slots_of_spec s L ino' k' Hin' Hk' ltac:(by rewrite <- E)) as P2.
    assert ((ino, k, slot s (inode s ino) k) = (ino', k', slot s (inode s ino') k')) as [= -> -> _]; [|done].
    by apply (NoDup_fmap_inj snd (L ≫= slots_of s)).
Qed.

(** ** Directories *)

(** The entries of a block from [lo] on, when they fill it. *)
Fixpoint parse_block (fuel : nat) (b : list Z) (lo hi : Z) : option (list dent) :=
  match fuel with
  | O => None
  | S fuel =>
    if lo =? hi then Some []
    else
      let e := dent_at b lo in
      if (8 + d_nlen e <=? d_rec e) && (0 <=? d_nlen e) && (d_rec e mod 4 =? 0) && (lo + d_rec e <=? hi)
      then es ← parse_block fuel b (lo + d_rec e) hi; Some (e :: es) else None
  end.
Lemma parse_block_spec fuel b lo hi es : parse_block fuel b lo hi = Some es -> seg b lo es hi.
Proof.
  revert lo es; induction fuel as [|fuel IH]; intros lo es; cbn [parse_block]; [done|].
  destruct (Z.eqb_spec lo hi) as [->|]; [by intros [= <-]|]. destruct (_ && _) eqn:E; [|done]. rewrite !andb_true_iff in E.
  destruct (parse_block fuel b _ hi) as [es'|] eqn:Ep; [|done]. intros [= <-]. cbn. unfold fits.
  split_and!; [done|lia..|by apply IH].
Qed.

Fixpoint parse_dir (fuel : nat) (s : ext2_fs) (v : list Z) (k : Z) : option (list (list dent)) :=
  match fuel with
  | O => None
  | S fuel =>
    if k <=? 12 then
      if every k (13 - k) (fun j => i_block v j =? 0) then Some []
      else if (k <? 12) && negb (i_block v k =? 0) then
        es ← parse_block (Z.to_nat (block_size s)) (dblock s v k) 0 (block_size s);
        D ← parse_dir fuel s v (k + 1); Some (es :: D)
      else None
    else None
  end.
Lemma parse_dir_spec fuel s v k D : parse_dir fuel s v k = Some D -> drep s v D k.
Proof.
  revert k D; induction fuel as [|fuel IH]; intros k D; cbn [parse_dir]; [done|].
  destruct (Z.leb_spec k 12); [|done]. destruct (every k (13 - k) _) eqn:E.
  { intros [= <-]. cbn. split; [done|]. intros j Hj. pose proof (every_spec _ _ _ E j ltac:(lia)) as E'. cbn in E'. lia. }
  destruct (Z.ltb_spec k 12); [|done]. destruct (Z.eqb_spec (i_block v k) 0); [done|]. cbn [andb negb].
  destruct (parse_block _ _ 0 _) as [es|] eqn:Ep; [|done]. destruct (parse_dir fuel s v (k + 1)) as [D'|] eqn:Ed; [|done].
  intros [= <-]. cbn. split_and!; [done|done|by eapply parse_block_spec|by apply IH].
Qed.

Definition check_directory (s : ext2_fs) (ino : Z) : option (gmap (list Z) (Z * Z)) :=
  let v := inode s ino in
  D ← parse_dir 14 s v 0;
  if bool_decide (NoDup (entries D).*1) && negb (Z.land (i_mode v) EXT2_S_IFDIR =? 0) then Some (list_to_map (entries D)) else None.
Lemma check_directory_spec s ino m : check_directory s ino = Some m -> directory s ino m.
Proof.
  unfold check_directory. destruct (parse_dir 14 s (inode s ino) 0) as [D|] eqn:E; [|done]. cbn [mbind option_bind].
  destruct (_ && _) eqn:Eb; [|done]. intros [= <-]. apply andb_true_iff in Eb as [Hnd%bool_decide_eq_true Hm].
  exists D. split_and!; [by eapply parse_dir_spec|done|done|lia].
Qed.

Definition check_targets (s : ext2_fs) (m : gmap (list Z) (Z * Z)) : bool :=
  forallb (fun '(_, (i, _)) => (1 <=? i) && (i <=? num_block_groups s * inodes_per_group s)) (map_to_list m).
Lemma check_targets_spec s m : check_targets s m = true -> targets_ok s m.
Proof.
  intros H nm i t E%elem_of_map_to_list. unfold check_targets in H. rewrite forallb_forall in H.
  apply list_elem_of_In in E. apply H in E. unfold valid_ino. lia.
Qed.

End Ext2Check.
