(* ===== verification/Ext2Demo.v ===== *)
(** A small ext2 volume: 16 blocks of 1 KiB in one group, a root directory
    with one file that has a direct and an indirect block.  It satisfies the
    invariants of the ext2 development; the theorems are applied to it here,
    and the runs at the end show behaviours of the driver worth knowing. *)

From stdpp Require Import base tactics numbers option gmap list.
From Stdlib Require Import ZArith Lia.
From S2P Require Import Prelude Bytes Ext2 Ext2Alloc Ext2File Ext2Mount Ext2Dir Ext2Name Ext2Check.

Module Ext2Demo.
Import Ext2Check.

(** ** The volume *)

Definition demo_super : list Z :=
  st 4 4 16 (st 4 12 6 (st 4 16 5 (st 4 20 1 (st 4 24 0 (st 4 32 16 (st 4 40 8 (st 2 56 EXT2_MAGIC (st 2 88 128 (zeros SB_SIZE))))))))).
Definition demo_table : list Z :=
  st 4 0 3 (st 4 4 4 (st 4 8 5 (st 2 12 6 (st 2 14 5 (st 2 16 1 (zeros 1024)))))).
(** Inode 2 is the root directory, in block 6; inode 3 is a file of 12293 bytes
    with block 7 first and block 9 last, which the indirect block 8 points to. *)
Definition demo_root : list Z :=
  set_i_mode (EXT2_S_IFDIR + 493) (set_i_size 1024 (set_i_links_count 2 (set_i_blocks 2 (set_i_block 0 6 (zeros INODE_SIZE))))).
Definition demo_file : list Z :=
  set_i_mode (EXT2_S_IFREG + 420) (set_i_size 12293 (set_i_links_count 1 (set_i_blocks 6
    (set_i_block 0 7 (set_i_block 12 8 (zeros INODE_SIZE)))))).
Definition demo_inodes : list Z := splice 128 demo_root (splice 256 demo_file (zeros 1024)).
Definition demo_entries : list Z :=
  default [] (b ← put_dirent 0 2 12 2 [46] (zeros 1024); b ← put_dirent 12 2 12 2 [46; 46] b; put_dirent 24 3 1000 1 [97] b).
Definition demo_block (b : Z) : list Z :=
  if b =? 1 then demo_super ++ zeros 820
  else if b =? 2 then demo_table
  else if b =? 3 then splice 0 [255; 3] (zeros 1024)
  else if b =? 4 then splice 0 [7] (zeros 1024)
  else if b =? 5 then demo_inodes
  else if b =? 6 then demo_entries
  else if b =? 7 then splice 0 [1; 2; 3] (zeros 1024)
  else if b =? 8 then st 4 0 9 (zeros 1024)
  else if b =? 9 then splice 0 [9; 8; 7; 6; 5] (zeros 1024)
  else zeros 1024.
(** The 32 sectors; there is nothing past them. *)
Definition demo_disk : list (list Z) := Eval vm_compute in
  b ← seqZ 0 16; [slice 0 512 (demo_block b); slice 512 512 (demo_block b)].
Definition demo_sectors (x : Z) : list Z := default (zeros 512) (demo_disk !! Z.to_nat x).

(** The root is node 100; node 101 is open on the file. *)
Definition root_node : vfs_node := mk_node 2 0 16877 0 0 2 0 0 0 VFS_DIR 0 0 0 1.
Definition file_node : vfs_node := mk_node 3 12293 33188 0 0 1 0 0 0 VFS_FILE 0 3 100 1.
Definition demo_mount : vfs_mount := mk_mount (list_to_map [(100, root_node); (101, file_node)]) [101] 100.
Definition demo : ext2_fs :=
  mk_fs (geometry_of 1024 demo_super) demo_table demo_super (replicate 64 (0, 0))
    (mk_dev true 32 true 0 demo_sectors) demo_mount (fun _ => 0).

Definition sector_okb (b : list Z) : bool := (zlen b =? 512) && is_bytes b.
Lemma demo_sectors_ok x : sector_ok (demo_sectors x).
Proof.
  unfold demo_sectors. destruct (demo_disk !! Z.to_nat x) as [b|] eqn:E; [|split; [done|apply bytes_zeros]].
  assert (forallb sector_okb demo_disk = true) as H by (vm_compute; reflexivity).
  rewrite forallb_forall in H. apply list_elem_of_lookup_2, list_elem_of_In, H in E.
  apply andb_true_iff in E as [E1%Z.eqb_eq E2%is_bytes_spec]. by split.
Qed.

Lemma demo_ready : ready demo.
Proof. constructor; try done; [apply demo_sectors_ok|by left]. Qed.

Lemma demo_alloc_inv : alloc_inv demo.
Proof. apply check_alloc_spec; [apply demo_ready|]. vm_compute. reflexivity. Qed.

Definition demo_files (i : Z) : Prop := i ∈ [2; 3].
Lemma demo_fsys : fsys demo demo_files.
Proof. apply check_files_spec; [apply demo_alloc_inv|]. vm_compute. reflexivity. Qed.

Definition demo_names : gmap (list Z) (Z * Z) := list_to_map [([46], (2, 2)); ([46; 46], (2, 2)); ([97], (3, 1))].
Lemma demo_directory : directory demo 2 demo_names.
Proof. apply check_directory_spec. vm_compute. reflexivity. Qed.
Lemma demo_targets : targets_ok demo demo_names.
Proof. apply check_targets_spec. vm_compute. reflexivity. Qed.

Lemma demo_consistent : consistent demo demo_files.
Proof. apply demo_fsys. Qed.
Lemma demo_has (i : Z) : bool_decide (i ∈ [2; 3]) = true -> demo_files i.
Proof. apply bool_decide_eq_true. Qed.

(** The result of a run, without the state it ends in. *)
Definition result {A} (m : M A) : option A := fst <$> m demo.
Lemma result_is {A} (m : M A) x y s' : m demo = Some (y, s') -> result m = Some x -> y = x.
Proof. unfold result. intros ->. by intros [= ->]. Qed.

(** ** The theorems on this volume *)

(** Nothing fails on the volume. *)
Lemma demo_calm : calm demo = demo.
Proof. by apply calm_id. Qed.

Lemma ext2_alloc_block_correct_witness : exists s', alloc_block demo = Some (10, s') /\ moved (eq 10) KBlock 10 true demo s'.
Proof.
  assert (result alloc_block = Some 10) as Hr by (vm_compute; reflexivity).
  assert (alloc_inv (calm demo)) as Hi by (rewrite demo_calm; exact demo_alloc_inv).
  destruct (proj1 (ext2_alloc_block_correct demo Hi) eq_refl) as [[E _]|(b & s' & E & _ & _ & Hm & _)].
  - exfalso. pose proof (result_is _ _ _ _ E Hr). lia.
  - pose proof (result_is _ _ _ _ E Hr) as ->. exact (ex_intro _ s' (conj E Hm)).
Defined.

Lemma ext2_alloc_inode_correct_witness : exists s', alloc_inode 33188 demo = Some (4, s') /\ born 33188 4 demo s'.
Proof.
  assert (result (alloc_inode 33188) = Some 4) as Hr by (vm_compute; reflexivity).
  destruct (ext2_alloc_inode_correct 33188 demo demo_alloc_inv) as [[E _]|(b & s' & E & _ & _ & Hm)].
  - exfalso. pose proof (result_is _ _ _ _ E Hr). lia.
  - pose proof (result_is _ _ _ _ E Hr) as ->. exact (ex_intro _ s' (conj E Hm)).
Defined.

(** Reading across the end of the file returns what is left of it. *)
Lemma ext2_read_correct_witness : ext2_vfs_read 101 12288 100 demo = Some ((5, [9; 8; 7; 6; 5]), demo).
Proof.
  rewrite (ext2_read_correct demo demo_files 101 file_node 12288 100
    demo_consistent ltac:(done) eq_refl (demo_has 3 eq_refl) ltac:(lia) ltac:(lia)).
  vm_compute. reflexivity.
Defined.

Lemma ext2_write_correct_witness : exists s', ext2_vfs_write 101 1022 [65; 66; 67] demo = Some (3, s') /\ consistent s' demo_files /\
  fbyte s' (inode s' 3) 1023 = 66 /\ fbyte s' (inode s' 3) 1 = 2.
Proof.
  assert (result (ext2_vfs_write 101 1022 [65; 66; 67]) = Some 3) as Hr by (vm_compute; reflexivity).
  assert (consistent (calm demo) demo_files) as Hd by (rewrite demo_calm; exact demo_consistent).
  pose proof (ext2_write_correct demo demo_files 101 file_node 1022 [65; 66; 67]
    Hd eq_refl ltac:(done) eq_refl (demo_has 3 eq_refl) ltac:(by apply is_bytes_spec) ltac:(done)
    ltac:(lia) ltac:(done)) as Hw. cbv zeta in Hw.
  replace (EXTENTS_FL _) with false in Hw by (vm_compute; reflexivity). destruct Hw as (r & s' & E & Hc & Hor).
  pose proof (result_is _ _ _ _ E Hr) as ->. destruct Hor as [[? _]|(_ & _ & _ & Hx & _)]; [lia|].
  change (ext2_node_ino file_node) with 3 in Hx. exists s'. split_and!; [exact E|exact Hc| |]; rewrite Hx by lia; vm_compute; reflexivity.
Defined.

(** Cutting the file after its first block frees the block at its end. *)
Lemma ext2_truncate_correct_witness : exists s', ext2_vfs_truncate 101 1000 demo = Some (0, s') /\ i_size (inode s' 3) = 1000 /\
  fbyte s' (inode s' 3) 12288 = 0 /\ kbit KBlock s' 9 = false.
Proof.
  assert (result (ext2_vfs_truncate 101 1000) = Some 0) as Hr by (vm_compute; reflexivity).
  assert (consistent (calm demo) demo_files) as Hd by (rewrite demo_calm; exact demo_consistent).
  pose proof (ext2_truncate_correct demo demo_files 101 file_node 1000
    Hd eq_refl ltac:(done) eq_refl (demo_has 3 eq_refl) ltac:(lia) ltac:(vm_compute; discriminate) ltac:(vm_compute; discriminate)) as Ht.
  cbv zeta in Ht. change (negb (n_type file_node =? VFS_FILE)) with false in Ht.
  replace (EXTENTS_FL _) with false in Ht by (vm_compute; reflexivity). destruct Ht as (r & s' & E & Hc & _ & Hor).
  pose proof (result_is _ _ _ _ E Hr) as ->. destruct Hor as [[? _]|(_ & Hsz & Hx & Hfree)]; [lia|].
  change (ext2_node_ino file_node) with 3 in Hsz, Hx, Hfree. exists s'. split_and!; [exact E|exact Hsz| |].
  - rewrite Hx by lia. vm_compute. reflexivity.
  - apply (Hfree 12); vm_compute; done.
Defined.

Lemma ext2_remount_correct_witness : exists s', ext2_init (mk_fs (mk_geo 0 0 0 0 0 0 0 0) [] [] [] (dev demo) demo_mount (fun _ => 0)) = Some (0, s') /\
  consistent s' demo_files /\ geo s' = geo demo.
Proof.
  destruct (ext2_remount_correct demo (mk_fs (mk_geo 0 0 0 0 0 0 0 0) [] [] [] (dev demo) demo_mount (fun _ => 0)) demo_files
    demo_consistent eq_refl eq_refl) as (s' & E & Hc & Hg & _).
  exact (ex_intro _ s' (conj E (conj Hc Hg))).
Defined.

Lemma ext2_readdir_correct_witness : exists l, l ≡ₚ map_to_list demo_names /\
  forall index, 0 <= index -> ext2_vfs_readdir 100 index demo = Some ((0, shown demo <$> l !!z index), demo).
Proof.
  apply (ext2_readdir_correct demo demo_files 100 root_node demo_names
    demo_consistent ltac:(done) eq_refl eq_refl (demo_has 2 eq_refl) demo_directory demo_targets).
Defined.

Lemma ext2_dirent_refines_witness : exists s', dirent_del 2 [97] demo = Some (0, s') /\ directory s' 2 (delete [97] demo_names).
Proof.
  assert (consistent (calm demo) demo_files /\ directory (calm demo) 2 demo_names) as [Hc Hn]
    by (rewrite demo_calm; split; [exact demo_consistent|exact demo_directory]).
  destruct (proj2 (ext2_dirent_refines demo demo_files 2 demo_names [97] Hc (demo_has 2 eq_refl) Hn) eq_refl)
    as (_ & (s' & E & _ & Hd) & _).
  exact (ex_intro _ s' (conj E Hd)).
Defined.

Lemma ext2_create_correct_witness : exists s' ino, ext2_vfs_create 100 [98] 102 demo = Some (102, s') /\
  directory s' 2 (<[[98] := (ino, 1)]> demo_names).
Proof.
  assert (result (ext2_vfs_create 100 [98] 102) = Some 102) as Hr by (vm_compute; reflexivity).
  assert (fsys (calm demo) demo_files) as Hs by (rewrite demo_calm; exact demo_fsys).
  pose proof (ext2_create_correct demo demo_files 100 root_node [98] 102 demo_names
    Hs eq_refl ltac:(done) eq_refl (demo_has 2 eq_refl) demo_directory ltac:(by apply is_bytes_spec) ltac:(done)) as Hw.
  replace (orphaned root_node || (102 =? 0) || bool_decide (is_Some (demo_names !! [98]))) with false in Hw by (vm_compute; reflexivity).
  destruct Hw as (r & s' & E & Hor).
  pose proof (result_is _ _ _ _ E Hr) as ->. destruct Hor as [(ino & _ & Hc & _)|[? _]]; [|lia].
  exists s', ino. split; [exact E|apply Hc].
Defined.

(** Run two operations one after the other. *)
Definition state_after {A} (m : M A) (s : ext2_fs) : ext2_fs := match m s with Some (_, s') => s' | None => s end.

Lemma state_after_ok {A} (m : M A) s x : fst <$> m s = Some x -> m s = Some (x, state_after m s).
Proof. unfold state_after. destruct (m s) as [[y s']|]; [|done]. by intros [= ->]. Qed.

Lemma ext2_create_write_lookup_read_witness :
  let s1 := state_after (ext2_vfs_create 100 [98] 102) demo in
  let s2 := state_after (ext2_vfs_write 102 0 [10; 20; 30]) s1 in
  exists s3, ext2_iop_lookup 100 [98] 103 s2 = Some ((0, 103), s3) /\ ext2_vfs_read 103 0 3 s3 = Some ((3, [10; 20; 30]), s3).
Proof.
  intros s1 s2.
  apply (ext2_create_write_lookup_read demo demo_files 100 root_node [98] 102 103 demo_names [10; 20; 30]
    s1 s2 demo_fsys ltac:(done) eq_refl eq_refl eq_refl ltac:(done) ltac:(done) ltac:(done) (demo_has 2 eq_refl) demo_directory demo_targets
    ltac:(vm_compute; reflexivity) ltac:(by apply is_bytes_spec) ltac:(done) ltac:(by apply is_bytes_spec) ltac:(done) ltac:(done)).
  - refine (state_after_ok (ext2_vfs_create 100 [98] 102) demo 102 _). vm_compute. reflexivity.
  - refine (state_after_ok (ext2_vfs_write 102 0 [10; 20; 30]) s1 (zlen [10; 20; 30]) _). vm_compute. reflexivity.
Defined.

(** The file is open (node 101), so its last name goes and the file stays. *)
Lemma ext2_unlink_correct_witness : exists s', ext2_vfs_unlink 100 [97] demo = Some (0, s') /\
  directory s' 2 (delete [97] demo_names) /\ left_open demo_files 3 demo s'.
Proof.
  destruct (ext2_unlink_correct demo demo_files 100 root_node [97] demo_names 3 1
    demo_fsys ltac:(done) eq_refl (demo_has 2 eq_refl) demo_directory ltac:(vm_compute; reflexivity) (demo_has 3 eq_refl) ltac:(done)
    ltac:(vm_compute; reflexivity) ltac:(vm_compute; discriminate)) as (s' & E & Hd & _ & _ & Hor).
  exact (ex_intro _ s' (conj E (conj Hd Hor))).
Defined.

Lemma ext2_unlink_open_correct_witness : exists s1 s2, ext2_vfs_unlink 100 [97] demo = Some (0, s1) /\
  ext2_iop_evict_node 101 s1 = Some (tt, s2) /\ gone demo_files 3 demo s2.
Proof.
  destruct (ext2_unlink_open_correct demo demo_files 100 root_node [97] demo_names 3 1
    101 file_node [] []
    demo_fsys ltac:(done) eq_refl (demo_has 2 eq_refl) demo_directory ltac:(vm_compute; reflexivity) (demo_has 3 eq_refl) ltac:(done)
    ltac:(vm_compute; reflexivity) ltac:(vm_compute; reflexivity) ltac:(done) eq_refl eq_refl eq_refl ltac:(done) eq_refl eq_refl
    ltac:(apply not_elem_of_nil) eq_refl ltac:(done)) as (s1 & s2 & E1 & _ & _ & E2 & Hg & _).
  exact (ex_intro _ s1 (ex_intro _ s2 (conj E1 (conj E2 Hg)))).
Defined.

(** ** Behaviours worth knowing *)

(** Renaming a file to its own name removes it: the target of the rename is
    unlinked first, and the source is then no longer there. *)
Example rename_to_itself_removes :
  let s1 := state_after (ext2_vfs_rename 100 [97] 100 [97]) demo in
  result (ext2_vfs_rename 100 [97] 100 [97]) = Some (- ENOENT) /\ fst <$> ext2_find_dirent 2 [97] s1 = Some (- ENOENT, None).
Proof. vm_compute. done. Qed.

(** A directory can be moved into itself: it is then in no other directory. *)
Example rename_into_itself_detaches :
  let s1 := state_after (ext2_vfs_mkdir 100 [100] 102) demo in
  let s2 := state_after (ext2_vfs_rename 100 [100] 102 [101]) s1 in
  fst <$> ext2_vfs_rename 100 [100] 102 [101] s1 = Some 0 /\
  fst <$> ext2_find_dirent 2 [100] s2 = Some (- ENOENT, None) /\
  exists blk off, fst <$> ext2_find_dirent 4 [101] s2 = Some (0, Some (mk_found 4 2 blk off)).
Proof. vm_compute. eauto. Qed.

(** Replacing an empty directory leaves the parent's link count too high: the
    root has two subdirectories, then one, and counts four links. *)
Example rename_over_directory_keeps_link :
  let s1 := state_after (ext2_vfs_mkdir 100 [100] 102) demo in
  let s2 := state_after (ext2_vfs_mkdir 100 [101] 103) s1 in
  let s3 := state_after (ext2_vfs_rename 100 [100] 100 [101]) s2 in
  fst <$> ext2_vfs_rename 100 [100] 100 [101] s2 = Some 0 /\ i_links_count (inode s3 2) = 4 /\
  fst <$> ext2_find_dirent 2 [100] s3 = Some (- ENOENT, None).
Proof. vm_compute. done. Qed.

(** The logical block of a write is cut to 32 bits: a write at 4 TiB lands at
    the beginning of the file. *)
Example write_past_4tib_wraps :
  let s1 := state_after (ext2_vfs_write 101 4398046511104 [77]) demo in
  result (ext2_vfs_write 101 4398046511104 [77]) = Some 1 /\ fbyte s1 (inode s1 3) 0 = 77.
Proof. vm_compute. done. Qed.

(** A truncation to 4 TiB succeeds and leaves an empty file. *)
Example truncate_to_4tib_empties :
  let s1 := state_after (ext2_vfs_truncate 101 4398046511104) demo in
  result (ext2_vfs_truncate 101 4398046511104) = Some 0 /\ i_size (inode s1 3) = 0.
Proof. vm_compute. done. Qed.

(** The block count of a size close to 4 GiB wraps around to 0: a truncation to
    2^42 - 1 bytes leaves such a size, and then cutting the file to nothing frees
    no block. *)
Example truncate_near_4gib_leaks :
  let s1 := state_after (ext2_vfs_truncate 101 4398046511103) demo in
  let s2 := state_after (ext2_vfs_truncate 101 0) s1 in
  i_size (inode s1 3) = UINT32_MAX /\ fst <$> ext2_vfs_truncate 101 0 s1 = Some 0 /\
  i_size (inode s2 3) = 0 /\ i_block (inode s2 3) 0 = 7 /\ kbit KBlock s2 7 = true.
Proof. vm_compute. done. Qed.

(** Bytes cut off inside a block come back when the file grows again. *)
Example truncate_exposes_old_bytes :
  let s1 := state_after (ext2_vfs_truncate 101 1) demo in
  let s2 := state_after (ext2_vfs_truncate 101 3) s1 in
  fst <$> ext2_vfs_read 101 0 3 s2 = Some (3, [1; 2; 3]).
Proof. vm_compute. done. Qed.

(** The same state when the allocation or driver call number [k] from now on fails. *)
Definition outcome_fails (k : nat) (s : ext2_fs) : ext2_fs := set_outcomes (fun i => if bool_decide (i = k) then 1 else 0) s.

(** When the memory for the search is not there, [ext2_vfs_create] takes the name
    for absent and enters it a second time. *)
Example create_duplicates_name :
  let s := outcome_fails 3 demo in
  let s1 := state_after (ext2_vfs_create 100 [97] 102) s in
  fst <$> ext2_vfs_create 100 [97] 102 s = Some 102 /\
  fst <$> ext2_vfs_readdir 100 2 s1 = Some (0, Some (mk_vdirent [97] 12293 VFS_FILE 3)) /\
  fst <$> ext2_vfs_readdir 100 3 s1 = Some (0, Some (mk_vdirent [97] 0 VFS_FILE 4)).
Proof. vm_compute. done. Qed.

(** A data block that cannot be read makes the name look absent. *)
Example find_read_error_is_absence :
  fst <$> ext2_find_dirent 2 [97] (outcome_fails 3 demo) = Some (- ENOENT, None).
Proof. vm_compute. done. Qed.

(** When the indirect block cannot be read, its part of the file reads as
    zeros and the read succeeds. *)
Example read_error_is_hole :
  fst <$> ext2_vfs_read 101 12288 5 (outcome_fails 4 demo) = Some (5, [0; 0; 0; 0; 0]).
Proof. vm_compute. done. Qed.

End Ext2Demo.
