(* ===== verification/Conc.v ===== *)
(** Threads that interleave on shared memory: the machine, counting threads by
    the point they are at, and fair infinite runs.  The lock files instantiate
    it with one step per atomic access. *)

From stdpp Require Import base tactics numbers option relations list.
From Stdlib Require Import ZArith Lia.
From S2P Require Import Prelude.

Module Conc.

(** ** Sums over threads *)

Fixpoint wsum {P : Type} (w : P -> Z) (ps : list P) : Z := match ps with [] => 0 | p :: ps => w p + wsum w ps end.
Definition b2z (b : bool) : Z := if b then 1 else 0.
(** The number of threads at a point that satisfies [f]. *)
Definition tally {P : Type} (f : P -> bool) : list P -> Z := wsum (fun p => b2z (f p)).

Section sums.
Context {P : Type}.
Implicit Types (w : P -> Z) (f : P -> bool) (ps : list P) (p q : P).

Lemma b2z_range b : 0 <= b2z b <= 1.
Proof. destruct b; cbn; lia. Qed.

Lemma wsum_nonneg w ps : (forall p, 0 <= w p) -> 0 <= wsum w ps.
Proof. intros H. induction ps as [|p ps IH]; cbn; [lia|]. pose proof (H p). lia. Qed.

Lemma wsum_insert w ps i p q : ps !! i = Some p -> wsum w (<[i := q]> ps) = wsum w ps - w p + w q.
Proof.
  revert i; induction ps as [|x ps IH]; intros [|i] E; cbn in E; simplify_eq; [cbn; lia|].
  change (<[S i := q]> (x :: ps)) with (x :: <[i := q]> ps). cbn [wsum]. rewrite (IH i E). lia.
Qed.

Lemma wsum_le w ps i p : (forall x, 0 <= w x) -> ps !! i = Some p -> w p <= wsum w ps.
Proof.
  intros Hw. revert i; induction ps as [|x ps IH]; intros [|i]; cbn; intros E; simplify_eq.
  - pose proof (wsum_nonneg w ps Hw). lia.
  - pose proof (IH i E). pose proof (Hw x). lia.
Qed.

Lemma wsum_pos w ps : 0 < wsum w ps -> exists i p, ps !! i = Some p /\ 0 < w p.
Proof.
  induction ps as [|x ps IH]; cbn; [lia|]. intros H. destruct (decide (0 < w x)) as [Hx|Hx]; [by exists 0%nat, x|].
  destruct IH as (i & p & E & Hp); [lia|]. by exists (S i), p.
Qed.

Lemma tally_nonneg f ps : 0 <= tally f ps.
Proof. apply wsum_nonneg. intros p. apply b2z_range. Qed.

Lemma tally_le f ps : tally f ps <= Z.of_nat (length ps).
Proof. unfold tally. induction ps as [|p ps IH]; cbn; [lia|]. pose proof (b2z_range (f p)). lia. Qed.

Lemma tally_insert f ps i p q : ps !! i = Some p -> tally f (<[i := q]> ps) = tally f ps - b2z (f p) + b2z (f q).
Proof. apply (wsum_insert (fun p => b2z (f p))). Qed.

Lemma tally_in f ps i p : ps !! i = Some p -> f p = true -> 1 <= tally f ps.
Proof.
  intros E Hf. pose proof (wsum_le (fun p => b2z (f p)) ps i p (fun x => proj1 (b2z_range (f x))) E) as H. cbn in H.
  rewrite Hf in H. exact H.
Qed.

Lemma tally_pos f ps : 0 < tally f ps -> exists i p, ps !! i = Some p /\ f p = true.
Proof. intros (i & p & E & Hp)%wsum_pos. exists i, p. split; [done|]. by destruct (f p). Qed.

Lemma tally_replicate f n p : f p = false -> tally f (replicate n p) = 0.
Proof. intros Hf. unfold tally. induction n as [|n IH]; [done|]. cbn. rewrite Hf, IH. done. Qed.

(** Two threads at such points are two in the count. *)
Lemma tally_two f ps i j p q :
  i <> j -> ps !! i = Some p -> ps !! j = Some q -> f p = true -> f q = true -> 2 <= tally f ps.
Proof.
  revert i j; induction ps as [|x ps IH]; intros [|i] [|j] Hne E1 E2 H1 H2; try done; unfold tally in *; cbn [wsum].
  - injection E1 as ->. pose proof (tally_in f ps j q E2 H2) as Ht. unfold tally in Ht. rewrite H1. cbn. lia.
  - injection E2 as ->. pose proof (tally_in f ps i p E1 H1) as Ht. unfold tally in Ht. rewrite H2. cbn. lia.
  - pose proof (IH i j ltac:(lia) E1 E2 H1 H2). pose proof (b2z_range (f x)). lia.
Qed.

Lemma tally_sub f g ps : (forall p, f p = true -> g p = true) -> tally f ps <= tally g ps.
Proof.
  intros H. unfold tally. induction ps as [|p ps IH]; cbn; [lia|]. pose proof (H p). destruct (f p), (g p); cbn; naive_solver lia.
Qed.

Lemma tally_fmap {Q : Type} (g : Q -> P) f (qs : list Q) : tally f (g <$> qs) = tally (fun x : Q => f (g x)) qs.
Proof. unfold tally. induction qs as [|q qs IH]; cbn; [done|]. by rewrite IH. Qed.

Lemma wsum_replicate w n p : w p = 0 -> wsum w (replicate n p) = 0.
Proof. intros Hw. induction n as [|n IH]; [done|]. cbn. lia. Qed.

End sums.
#[global] Opaque wsum tally.

(** ** The machine *)

Section machine.
(** A thread at a point has the given possible next steps: the memory and the
    point after it. *)
Context {mem pc : Type} (tstep : nat -> mem -> pc -> list (mem * pc)).

Record cfg := mk_cfg { shared : mem; points : list pc }.

Inductive step (i : nat) (c : cfg) : cfg -> Prop :=
  | step_intro p m' p' : points c !! i = Some p -> (m', p') ∈ tstep i (shared c) p ->
      step i c (mk_cfg m' (<[i := p']> (points c))).

Definition steps (c c' : cfg) : Prop := exists i, step i c c'.
Definition reach : cfg -> cfg -> Prop := rtc steps.

Lemma step_length i c c' : step i c c' -> length (points c') = length (points c).
Proof. intros []. cbn. apply length_insert. Qed.

(** What holds at first and is kept by every step of every thread holds in
    every reachable configuration. *)
Lemma reach_inv (I : cfg -> Prop) c c' :
  I c -> (forall i p m' p' c, I c -> points c !! i = Some p -> (m', p') ∈ tstep i (shared c) p -> I (mk_cfg m' (<[i := p']> (points c)))) ->
  reach c c' -> I c'.
Proof.
  intros H0 Hs Hr. revert H0. induction Hr as [c|c1 c2 c3 [i [p m' p' E Hin]] _ IH]; intros H0; [done|].
  apply IH. by apply (Hs i p).
Qed.

(** ** Running a given schedule *)

(** The thread and which of its possible steps it takes. *)
Definition take_step (c : cfg) (x : nat * nat) : option cfg :=
  p ← points c !! x.1;
  r ← tstep x.1 (shared c) p !! x.2;
  Some (mk_cfg r.1 (<[x.1 := r.2]> (points c))).
Fixpoint play (l : list (nat * nat)) (c : cfg) : option cfg :=
  match l with
  | [] => Some c
  | x :: l => c' ← take_step c x; play l c'
  end.

Lemma play_reach l c c' : play l c = Some c' -> reach c c'.
Proof.
  revert c; induction l as [|[i k] l IH]; intros c; cbn; [intros [= ->]; apply rtc_refl|].
  unfold take_step. cbn. destruct (points c !! i) as [p|] eqn:Ep; [|done]. cbn.
  destruct (tstep i (shared c) p !! k) as [[m' p']|] eqn:Ek; [|done]. cbn. intros E.
  eapply rtc_l; [|by apply IH]. exists i. apply (step_intro i c p m' p'); [done|]. by eapply list_elem_of_lookup_2.
Qed.

(** ** Infinite runs *)

Record run := mk_run { at_time : nat -> cfg; who : nat -> nat; run_step : forall n, step (who n) (at_time n) (at_time (S n)) }.

(** Every thread takes its turn again and again. *)
Definition fair (r : run) : Prop := forall i n, (i < length (points (at_time r 0)))%nat -> exists m, (n <= m)%nat /\ who r m = i.

Lemma run_length r n : length (points (at_time r n)) = length (points (at_time r 0)).
Proof. induction n as [|n IH]; [done|]. by rewrite (step_length _ _ _ (run_step r n)). Qed.

Lemma run_reach r n : reach (at_time r 0) (at_time r n).
Proof. induction n as [|n IH]; [apply rtc_refl|]. eapply rtc_r; [done|]. eexists. apply run_step. Qed.

(** A thread that is not at its turn stays where it is. *)
Lemma run_stays r n i : who r n <> i -> points (at_time r (S n)) !! i = points (at_time r n) !! i.
Proof. intros Hne. destruct (run_step r n). cbn. by rewrite list_lookup_insert_ne. Qed.

Lemma run_moves r n p :
  points (at_time r n) !! who r n = Some p ->
  exists m' p', (m', p') ∈ tstep (who r n) (shared (at_time r n)) p /\ at_time r (S n) = mk_cfg m' (<[who r n := p']> (points (at_time r n))).
Proof. intros E. destruct (run_step r n) as [q m' p' E' Hin]. rewrite E in E'. injection E' as <-. by exists m', p'. Qed.

(** The first event of a kind among the next [k] steps, if there is one. *)
Lemma first_event (ev : nat -> Prop) `{forall n, Decision (ev n)} n k :
  (exists m, (n <= m < n + k)%nat /\ ev m /\ forall j, (n <= j < m)%nat -> ~ ev j) \/ (forall m, (n <= m < n + k)%nat -> ~ ev m).
Proof.
  induction k as [|k IH]; [right; lia|]. destruct IH as [(m & ? & ? & ?)|Hno]; [left; exists m; split_and!; done || lia|].
  destruct (decide (ev (n + k)%nat)) as [He|He].
  - left. exists (n + k)%nat. split_and!; [lia..|done|]. intros j Hj. apply Hno. lia.
  - right. intros m Hm. destruct (decide (m = n + k)%nat) as [->|]; [done|]. apply Hno. lia.
Qed.

(** Up to the first event a property that every other step keeps is kept. *)
Lemma until_event r (ev : nat -> Prop) (K : cfg -> Prop) n k :
  K (at_time r n) -> (forall m, ~ ev m -> K (at_time r m) -> K (at_time r (S m))) ->
  (forall m, (n <= m < n + k)%nat -> ~ ev m) -> forall m, (n <= m <= n + k)%nat -> K (at_time r m).
Proof.
  intros Hn Hk Hno m [H1 H2]. revert H2. induction H1 as [|m H1 IH]; intros H2; [done|]. apply Hk; [apply Hno; lia|apply IH; lia].
Qed.

(** Either an event comes first, or the thread gets its turn with the property
    still there. *)
Lemma next_turn r (ev : nat -> Prop) `{forall n, Decision (ev n)} (K : cfg -> Prop) i n :
  fair r -> (i < length (points (at_time r 0)))%nat ->
  K (at_time r n) -> (forall m, ~ ev m -> K (at_time r m) -> K (at_time r (S m))) ->
  (exists m, (n <= m)%nat /\ ev m) \/ (exists m, (n <= m)%nat /\ who r m = i /\ K (at_time r m)).
Proof.
  intros Hf Hi HK Hs. destruct (Hf i n Hi) as (m & Hm & Hw).
  destruct (first_event ev n (m - n)) as [(j & Hj & He & _)|Hno]; [left; exists j; split; [lia|done]|].
  right. exists m. split_and!; [done..|]. apply (until_event r ev K n (m - n)); [done|done|done|lia].
Qed.

(** The thread gets its turn with a property that the other threads keep, or
    an event comes first. *)
Lemma own_turn r (ev : nat -> Prop) `{forall n, Decision (ev n)} (K : cfg -> Prop) i n :
  fair r -> (i < length (points (at_time r 0)))%nat ->
  K (at_time r n) -> (forall m, ~ ev m -> who r m <> i -> K (at_time r m) -> K (at_time r (S m))) ->
  (exists m, (n <= m)%nat /\ ev m) \/ (exists m, (n <= m)%nat /\ who r m = i /\ K (at_time r m)).
Proof.
  intros Hf Hi HK Hs. destruct (Hf i n Hi) as (k & Hk & Hw).
  destruct (first_event (fun m => ev m \/ who r m = i) n (S (k - n))) as [(m & Hm & He & Hfirst)|Hno].
  - assert (K (at_time r m)) as HKm.
    { apply (until_event r (fun m => ev m \/ who r m = i) K n (m - n)); [done| | |lia].
      - intros j Hj. apply Hs; tauto.
      - intros j Hj. apply Hfirst. lia. }
    destruct He as [He|He]; [left; exists m; split; [lia|done]|right; exists m; split_and!; [lia|done..]].
  - destruct (Hno k); [lia|by right].
Qed.

(** An event comes when, as long as it does not, some quantity never grows
    and shrinks again and again. *)
Lemma measure_progress r (ev : nat -> Prop) `{forall n, Decision (ev n)} (I : cfg -> Prop) (mu : cfg -> Z) n :
  (forall m, I (at_time r m) -> 0 <= mu (at_time r m)) ->
  (forall m, ~ ev m -> I (at_time r m) -> I (at_time r (S m)) /\ mu (at_time r (S m)) <= mu (at_time r m)) ->
  (forall m, I (at_time r m) -> exists k, (m <= k)%nat /\ (ev k \/ mu (at_time r (S k)) < mu (at_time r k))) ->
  I (at_time r n) -> exists m, (n <= m)%nat /\ ev m.
Proof.
  intros H0 Hs Hd HI. remember (mu (at_time r n)) as z eqn:Ez. assert (0 <= z) as Hz by (subst; by apply H0).
  revert n Ez HI. pattern z. apply Zlt_0_ind; [|done]. clear z Hz. intros z IH _ n Ez HI. destruct (Hd n HI) as (k & Hk & Hev).
  destruct (first_event (fun m => ev m \/ mu (at_time r (S m)) < mu (at_time r m)) n (S (k - n))) as [(m & Hm & He & Hfirst)|Hno].
  2: { destruct (Hno k); [lia|done]. }
  destruct (decide (ev m)) as [|Hne]; [exists m; split; [lia|done]|]. destruct He as [|Hlt]; [done|].
  assert (I (at_time r m) /\ mu (at_time r m) <= z) as [HIm Hzm].
  { apply (until_event r (fun m => ev m \/ mu (at_time r (S m)) < mu (at_time r m)) (fun c => I c /\ mu c <= z) n (m - n));
      [split; [done|lia]| |intros j Hj; apply Hfirst; lia|lia].
    intros j Hj [H1 H2]. destruct (Hs j) as [H3 H4]; [tauto|done|]. split; [done|lia]. }
  destruct (Hs m Hne HIm) as [HS _]. destruct (IH (mu (at_time r (S m)))) with (n := S m) as (j & Hj & Hev'); [|done..|].
  - split; [by apply H0|lia].
  - exists j. split; [lia|done].
Qed.

(** The step changes the shared memory. *)
Definition change r (n : nat) : Prop := shared (at_time r (S n)) <> shared (at_time r n).

Lemma turn_or_change `{EqDecision mem} r i n p :
  fair r -> points (at_time r n) !! i = Some p ->
  (exists m, (n <= m)%nat /\ change r m) \/
  (exists m, (n <= m)%nat /\ who r m = i /\ shared (at_time r m) = shared (at_time r n) /\ points (at_time r m) !! i = Some p).
Proof.
  intros Hf Hp. apply (own_turn r (change r) (fun c => shared c = shared (at_time r n) /\ points c !! i = Some p)); [done| |done|].
  - rewrite <-(run_length r n). by eapply lookup_lt_Some.
  - intros m Hno Hne [<- Hm]. unfold change in Hno. split; [by destruct (decide (shared (at_time r (S m)) = shared (at_time r m)))|].
    by rewrite run_stays.
Qed.

(** Nobody stays for ever at the points that satisfy [held]. *)
Definition holds_end (held : pc -> bool) (r : run) : Prop :=
  forall n i, held <$> points (at_time r n) !! i = Some true -> exists m, (n <= m)%nat /\ held <$> points (at_time r m) !! i <> Some true.

(** The step at which a thread leaves such a point. *)
Lemma leaves r held i n :
  holds_end held r -> held <$> points (at_time r n) !! i = Some true ->
  exists m p, (n <= m)%nat /\ who r m = i /\ points (at_time r m) !! i = Some p /\ held p = true /\
    held <$> points (at_time r (S m)) !! i <> Some true.
Proof.
  intros He Hn. destruct (He n i Hn) as (k & Hk & Hout).
  assert (n <> k) as Hnk by by intros ->.
  destruct (first_event (fun m => held <$> points (at_time r (S m)) !! i <> Some true) n (k - n)) as [(m & Hm & Hev & Hfirst)|Hno].
  - assert (held <$> points (at_time r m) !! i = Some true) as Hm'.
    { destruct (decide (m = n)) as [->|Hne]; [done|]. destruct m as [|m]; [lia|].
      destruct (decide (held <$> points (at_time r (S m)) !! i = Some true)) as [|Hx]; [done|]. by destruct (Hfirst m); [lia|]. }
    destruct (points (at_time r m) !! i) as [p|] eqn:Ep; [|done]. exists m, p. split_and!; [lia| |done|by injection Hm'|done].
    destruct (decide (who r m = i)) as [|Hw]; [done|]. rewrite (run_stays r m i Hw), Ep in Hev. done.
  - destruct (Hno (k - 1)%nat); [lia|]. replace (S (k - 1)) with k by lia. done.
Qed.

(** ** Periodic runs *)

Lemma play_snoc l x c : play (l ++ [x]) c = (c' ← play l c; take_step c' x).
Proof. revert c; induction l as [|y l IH]; intros c; cbn; [by destruct (take_step c x)|]. destruct (take_step c y); cbn; [apply IH|done]. Qed.

Lemma play_prefix l l' c c' : play (l ++ l') c = Some c' -> is_Some (play l c).
Proof. revert c; induction l as [|y l IH]; intros c; cbn; [by eexists|]. destruct (take_step c y); cbn; [apply IH|done]. Qed.

Lemma take_step_step c x c' : take_step c x = Some c' -> step x.1 c c'.
Proof.
  unfold take_step. destruct (points c !! x.1) as [p|] eqn:Ep; [|done]. cbn.
  destruct (tstep x.1 (shared c) p !! x.2) as [[m' p']|] eqn:Ek; [|done]. cbn. intros [= <-].
  apply (step_intro _ c p m' p'); [done|]. by eapply list_elem_of_lookup_2.
Qed.

Definition loop_at (l : list (nat * nat)) (c : cfg) (n : nat) : cfg := default c (play (take (n mod length l) l) c).
Definition loop_who (l : list (nat * nat)) (n : nat) : nat := default 0%nat (fst <$> l !! (n mod length l)%nat).

Lemma loop_step l c n : l <> [] -> play l c = Some c -> step (loop_who l n) (loop_at l c n) (loop_at l c (S n)).
Proof.
  intros Hl Hp. assert (length l <> 0)%nat as Hlen by by destruct l. unfold loop_who, loop_at.
  pose proof (Nat.mod_upper_bound n (length l) Hlen) as Hk. pose proof (Nat.Div0.add_mod n 1 (length l)) as Hm.
  rewrite Nat.add_1_r in Hm. set (k := (n mod length l)%nat) in *.
  destruct (lookup_lt_is_Some_2 l k Hk) as [x Ex]. rewrite Ex. cbn.
  destruct (play_prefix (take (S k) l) (drop (S k) l) c c) as [c2 E2]; [by rewrite take_drop|].
  pose proof E2 as E1. rewrite (take_S_r l k x Ex), play_snoc in E1.
  destruct (play (take k l) c) as [c1|]; [|done]. cbn in E1 |- *.
  assert (default c (play (take (S n mod length l) l) c) = c2) as ->; [|by apply take_step_step].
  destruct (decide (S k = length l)) as [E|E].
  - rewrite E, take_ge, Hp in E2 by lia. injection E2 as <-. enough (S n mod length l = 0)%nat as -> by done.
    rewrite Hm. destruct (decide (length l = 1)%nat) as [->|]; [by rewrite Nat.mod_1_r|]. rewrite (Nat.mod_small 1) by lia.
    rewrite Nat.add_1_r, E. apply Nat.Div0.mod_same.
  - rewrite Hm, (Nat.mod_small 1), Nat.add_1_r, Nat.mod_small by lia. by rewrite E2.
Qed.

(** The run that repeats a schedule which comes back to where it began. *)
Definition loop_run l c (Hl : l <> []) (Hp : play l c = Some c) : run := mk_run (loop_at l c) (loop_who l) (fun n => loop_step l c n Hl Hp).

Lemma loop_again (l : list (nat * nat)) n k : (k < length l)%nat -> exists m, (n <= m)%nat /\ (m mod length l = k)%nat.
Proof.
  intros Hk. exists (k + n * length l)%nat. split; [nia|]. by rewrite Nat.Div0.mod_add, Nat.mod_small.
Qed.

Lemma loop_fair l c Hl Hp : (forall i, (i < length (points c))%nat -> i ∈ l.*1) -> fair (loop_run l c Hl Hp).
Proof.
  intros H i n Hi. cbn [loop_run at_time] in Hi. unfold loop_at in Hi. rewrite Nat.Div0.mod_0_l in Hi. cbn in Hi.
  destruct (list_elem_of_lookup_1 _ _ (H i Hi)) as [k Ek]. rewrite list_lookup_fmap in Ek.
  destruct (l !! k) as [x|] eqn:Ex; [|done]. injection Ek as Ek.
  destruct (loop_again l n k) as (m & Hm & E); [by eapply lookup_lt_Some|]. exists m. split; [done|]. cbn. unfold loop_who.
  by rewrite E, Ex.
Qed.

Lemma loop_holds_end l c Hl Hp held : (forall i, held <$> points c !! i <> Some true) -> holds_end held (loop_run l c Hl Hp).
Proof.
  intros H n i _. destruct (loop_again l n 0) as (m & Hm & E); [destruct l; [done|cbn; lia]|]. exists m. split; [done|].
  cbn. unfold loop_at. rewrite E. cbn. apply H.
Qed.

End machine.

#[global] Arguments cfg : clear implicits.
#[global] Arguments mk_cfg {mem pc} _ _.
#[global] Arguments shared {mem pc} _.
#[global] Arguments points {mem pc} _.
#[global] Arguments at_time {mem pc tstep} _ _.
#[global] Arguments who {mem pc tstep} _ _.
#[global] Arguments change {mem pc tstep} _ _.
#[global] Arguments holds_end {mem pc tstep} _ _.

(** The possible next steps, one case each. *)
Ltac step_cases H :=
  repeat (apply elem_of_cons in H as [[= -> ->]|H]); try (by apply not_elem_of_nil in H).

(** All the threads at one point. *)
Definition start {mem pc : Type} (m : mem) (p : pc) (n : nat) : cfg mem pc := mk_cfg m (replicate n p).

End Conc.
