(* ===== verification/SpinLock.v ===== *)
(** The spin locks (src/kernel/include/arch/x86_64/spinlock.h and
    src/kernel/include/arch/aarch64/spinlock.h), one step per atomic
    instruction: mutual exclusion, progress under a fair schedule, and what
    [spin_trylock] does on x86_64. *)

From stdpp Require Import base tactics numbers option relations list.
From Stdlib Require Import ZArith Lia.
From S2P Require Import Prelude Conc.

Module SpinLock.
Import Conc.

(** ** x86_64 *)

(** A thread outside, at the [lock decq], at the [cmpq] of the waiting loop,
    inside the lock, or at the [xchgq] of [spin_trylock]. *)
Inductive spin_pc := SIdle | SDec | SSpin | SHeld | STry.
#[export] Instance spin_pc_eq_dec : EqDecision spin_pc.
Proof. solve_decision. Defined.

Definition spin_init : Z := 1.

(** [lock decq] and [jns]: the new word, and whether the lock was taken. *)
Definition spin_dec (lock : Z) : Z * bool := let v := wrap64 (lock - 1) in (v, 0 <=? sint64 v).
(** [cmpq $0] and [jle]. *)
Definition spin_wait (lock : Z) : bool := sint64 lock <=? 0.
Definition spin_unlock : Z := 1.
(** [xchgq]: the new word and the value returned, which callers test. *)
Definition spin_trylock (lock : Z) : Z * Z := (0, lock).

(** A client takes the lock, stays in it as long as it likes, and leaves;
    [try] says whether clients also call [spin_trylock]. *)
Definition spin_tstep (try : bool) (_ : nat) (lock : Z) (p : spin_pc) : list (Z * spin_pc) :=
  match p with
  | SIdle => (lock, SIdle) :: (lock, SDec) :: (if try then [(lock, STry)] else [])
  | SDec => let '(v, ok) := spin_dec lock in [(v, if ok then SHeld else SSpin)]
  | SSpin => [(lock, if spin_wait lock then SSpin else SDec)]
  | SHeld => [(lock, SHeld); (spin_unlock, SIdle)]
  | STry => let '(v, old) := spin_trylock lock in [(v, if old =? 0 then SIdle else SHeld)]
  end.

Definition s_held (p : spin_pc) : bool := match p with SHeld => true | _ => false end.
Definition s_spin (p : spin_pc) : bool := match p with SSpin => true | _ => false end.
Definition s_try (p : spin_pc) : bool := match p with STry => true | _ => false end.
Definition s_trying (p : spin_pc) : bool := match p with SDec | SSpin => true | _ => false end.

(** The word is 1 when nobody is inside; otherwise it has been decremented at
    most once by each thread that waits. *)
Definition spin_inv (c : cfg Z spin_pc) : Prop :=
  let h := tally s_held (points c) in let w := tally s_spin (points c) in
  Z.of_nat (length (points c)) < 9223372036854775808 /\ 0 <= shared c < U64 /\ tally s_try (points c) = 0 /\
  ((h = 0 /\ shared c = 1) \/ (h = 1 /\ - w <= sint64 (shared c) <= 0)).

Lemma sint64_dec v : 0 <= v < U64 -> -9223372036854775808 < sint64 v -> sint64 (wrap64 (v - 1)) = sint64 v - 1 /\ 0 <= wrap64 (v - 1) < U64.
Proof. unfold sint64, wrap64. intros Hv Hs. split; [|apply Z.mod_pos_bound; lia]. dlia. Qed.

Lemma spin_inv_step i p m' p' c :
  spin_inv c -> points c !! i = Some p -> (m', p') ∈ spin_tstep false i (shared c) p -> spin_inv (mk_cfg m' (<[i := p']> (points c))).
Proof.
  intros (Hn & Hv & Ht & Hor) Hp Hin. unfold spin_inv. cbn [points shared]. rewrite length_insert, !(tally_insert _ _ _ _ p' Hp).
  pose proof (tally_le s_spin (points c)) as Hw. pose proof (tally_nonneg s_held (points c)) as Hh. pose proof (tally_nonneg s_spin (points c)) as Hw0.
  assert (p <> STry) as Hnt.
  { intros ->. pose proof (tally_in s_try _ _ _ Hp eq_refl). lia. }
  pose proof (tally_in s_held _ _ _ Hp) as Hin1. pose proof (tally_in s_spin _ _ _ Hp) as Hin2.
  destruct p; cbn in Hin, Hin1, Hin2; try done.
  - step_cases Hin; cbn; split_and!; lia.
  - destruct (sint64_dec (shared c) Hv) as [Hd Hr]; [destruct Hor as [[_ ->]|[_ ?]]; [done|lia]|].
    destruct (Z.leb_spec 0 (sint64 (wrap64 (shared c - 1)))) as [Hge|Hlt]; step_cases Hin; cbn; split_and!; try lia.
    + destruct Hor as [[Hz E]|[Hz E]]; [|lia]. right. rewrite Hd, E. change (sint64 1) with 1. lia.
    + destruct Hor as [[Hz E]|[Hz E]]; [by rewrite E in Hlt|]. right. lia.
  - destruct (spin_wait (shared c)) eqn:Ew; step_cases Hin; cbn; split_and!; try lia.
    unfold spin_wait in Ew. apply Z.leb_gt in Ew. destruct Hor as [[Hz E]|[Hz E]]; [left; lia|lia].
  - specialize (Hin1 eq_refl). unfold spin_unlock in Hin. step_cases Hin; cbn; split_and!; lia.
Qed.

Lemma spin_inv_reach n c : Z.of_nat n < 9223372036854775808 -> reach (spin_tstep false) (start spin_init SIdle n) c -> spin_inv c.
Proof.
  intros Hn. apply reach_inv; [|intros; by eapply spin_inv_step]. unfold spin_inv, start. cbn [points shared].
  rewrite length_replicate, !tally_replicate by done. split_and!; [done|done|done|done|]. by left.
Qed.

(** *** Progress *)

Abbreviation acquisition r n := (tally s_held (points (at_time r n)) < tally s_held (points (at_time r (S n)))) (only parsing).

Section progress.
Context (r : run (spin_tstep false)) (i j : nat).
Hypothesis inv : forall n, spin_inv (at_time r n).

(** The lock is free and stays so until somebody takes it. *)
Lemma free_until n : ~ acquisition r n -> tally s_held (points (at_time r n)) = 0 -> tally s_held (points (at_time r (S n))) = 0.
Proof. intros Hno E. pose proof (tally_nonneg s_held (points (at_time r (S n)))). lia. Qed.

(** A thread that tries keeps trying until it is in. *)
Lemma trying_until n :
  ~ acquisition r n -> s_trying <$> points (at_time r n) !! i = Some true -> s_trying <$> points (at_time r (S n)) !! i = Some true.
Proof.
  intros Hno Ht. destruct (decide (who r n = i)) as [<-|Hne]; [|by rewrite run_stays].
  destruct (points (at_time r n) !! who r n) as [p|] eqn:Ep; [|done].
  destruct (run_moves _ _ _ _ Ep) as (m' & p' & Hin & E). rewrite E in Hno |- *. cbn [points] in *.
  rewrite (tally_insert _ _ _ _ _ Ep) in Hno. rewrite list_lookup_insert_eq by by eapply lookup_lt_Some.
  destruct p; try done; cbn in Hin.
  - destruct (0 <=? _); step_cases Hin; [cbn in Hno; lia|done].
  - destruct (spin_wait _); by step_cases Hin.
Qed.

(** The holder is still inside, or the lock is free, until somebody takes it. *)
Lemma holder_until n :
  ~ acquisition r n -> tally s_held (points (at_time r n)) = 0 \/ points (at_time r n) !! j = Some SHeld ->
  tally s_held (points (at_time r (S n))) = 0 \/ points (at_time r (S n)) !! j = Some SHeld.
Proof.
  intros Hno [H|H]; [left; by apply free_until|]. destruct (decide (who r n = j)) as [<-|Hne]; [|right; by rewrite run_stays].
  destruct (run_moves _ _ _ _ H) as (m' & p' & Hin & E). rewrite E. cbn [points]. rewrite (tally_insert _ _ _ _ _ H).
  pose proof (tally_in s_held _ _ _ H eq_refl) as H1. destruct (inv n) as (_ & _ & _ & Hor).
  cbn in Hin. step_cases Hin; [right|left; cbn; lia]. apply list_lookup_insert_eq. by eapply lookup_lt_Some.
Qed.

Hypothesis Hfair : fair (spin_tstep false) r.

(** With the lock free, a thread at its [lock decq] gets somebody in. *)
Lemma dec_acquires n :
  who r n = i -> tally s_held (points (at_time r n)) = 0 -> points (at_time r n) !! i = Some SDec -> acquisition r n.
Proof.
  intros Hw Hz Hp. rewrite <-Hw in Hp. destruct (run_moves _ _ _ _ Hp) as (m' & p' & Hin & E). rewrite E. cbn [points].
  rewrite (tally_insert _ _ _ _ _ Hp). destruct (inv n) as (_ & _ & _ & [[_ Ev]|[E1 _]]); [|lia].
  rewrite Ev in Hin. vm_compute in Hin. step_cases Hin. cbn. lia.
Qed.

Lemma dec_progress n :
  (i < length (points (at_time r 0)))%nat ->
  tally s_held (points (at_time r n)) = 0 -> points (at_time r n) !! i = Some SDec -> exists m, (n <= m)%nat /\ acquisition r m.
Proof.
  intros Hl Hz Hi.
  destruct (next_turn _ r (fun m => acquisition r m) (fun c => tally s_held (points c) = 0 /\ points c !! i = Some SDec) i n)
    as [He|(m & Hm & Hw & H1 & H2)]; [done..| |done|exists m; split; [done|]; by apply dec_acquires].
  intros m Hno [H1 H2]. split; [by apply free_until|]. destruct (decide (who r m = i)) as [E|]; [by destruct Hno; apply dec_acquires|].
  by rewrite run_stays.
Qed.

Lemma free_progress n :
  (i < length (points (at_time r 0)))%nat -> tally s_held (points (at_time r n)) = 0 ->
  s_trying <$> points (at_time r n) !! i = Some true -> exists m, (n <= m)%nat /\ acquisition r m.
Proof.
  intros Hl Hz Hi.
  destruct (next_turn _ r (fun m => acquisition r m) (fun c => tally s_held (points c) = 0 /\ s_trying <$> points c !! i = Some true) i n)
    as [He|(m & Hm & Hw & HK & Ht)]; [done..| |done|].
  { intros m Hno [H1 H2]. split; [by apply free_until|by apply trying_until]. }
  destruct (points (at_time r m) !! i) as [p|] eqn:Ep; [|done]. destruct p; try done; [exists m; split; [done|]; by apply dec_acquires|].
  destruct (decide (acquisition r m)) as [Ha|Hno]; [by exists m|].
  destruct (dec_progress (S m)) as (k & Hk & Ha); [done|by apply free_until| |exists k; split; [lia|done]].
  rewrite <-Hw in Ep |- *. destruct (run_moves _ _ _ _ Ep) as (m' & p' & Hin & E). rewrite E. cbn [points].
  rewrite list_lookup_insert_eq by by eapply lookup_lt_Some. destruct (inv m) as (_ & _ & _ & [[_ Ev]|[E1 _]]); [|lia].
  rewrite Ev in Hin. vm_compute in Hin. by step_cases Hin.
Qed.

End progress.

(** C17: two threads are never both inside the x86_64 spin lock, whatever the
    schedule of the threads that call [spin_lock] and [spin_unlock]. *)
Theorem spin_lock_exclusion n c i j :
  Z.of_nat n < 9223372036854775808 -> reach (spin_tstep false) (start spin_init SIdle n) c ->
  points c !! i = Some SHeld -> points c !! j = Some SHeld -> i = j.
Proof.
  intros Hn Hr Hi Hj. destruct (spin_inv_reach n c Hn Hr) as (_ & _ & _ & Hor).
  destruct (decide (i = j)) as [|Hne]; [done|]. pose proof (tally_two s_held _ _ _ _ _ Hne Hi Hj eq_refl eq_refl). lia.
Qed.

(** C16: while a thread tries to take the x86_64 spin lock somebody gets in:
    under a fair schedule in which nobody holds the lock for ever, a thread
    that waits at time [n] is followed by an acquisition. *)
Theorem spin_lock_progress (r : run (spin_tstep false)) k i n :
  Z.of_nat k < 9223372036854775808 -> at_time r 0 = start spin_init SIdle k -> fair (spin_tstep false) r -> holds_end s_held r ->
  s_trying <$> points (at_time r n) !! i = Some true -> exists m, (n <= m)%nat /\ acquisition r m.
Proof.
  intros Hk H0 Hf He Ht.
  assert (forall m, spin_inv (at_time r m)) as inv by (intros m; apply (spin_inv_reach k _ Hk); rewrite <-H0; apply run_reach).
  assert (i < length (points (at_time r 0)))%nat as Hl.
  { rewrite <-(run_length _ r n). destruct (points (at_time r n) !! i) eqn:E; [by eapply lookup_lt_Some|done]. }
  pose proof (inv n) as (_ & _ & _ & [[Hz _]|[Hone _]]); [by eapply free_progress|].
  destruct (tally_pos s_held (points (at_time r n))) as (j & p & Ep & Hp); [lia|].
  assert (p = SHeld) as -> by by destruct p. destruct (He n j) as (m & Hm & Hout); [by rewrite Ep|].
  destruct (first_event (fun m => acquisition r m) n (m - n)) as [(a & Ha & Hacq & _)|Hno]; [exists a; split; [lia|done]|].
  assert ((tally s_held (points (at_time r m)) = 0 \/ points (at_time r m) !! j = Some SHeld) /\ s_trying <$> points (at_time r m) !! i = Some true)
    as [[Hz|Hin] Ht'].
  { apply (until_event _ r (fun m => acquisition r m) (fun c => (tally s_held (points c) = 0 \/ points c !! j = Some SHeld) /\
      s_trying <$> points c !! i = Some true) n (m - n)); [by split; [right|]| |done|lia].
    intros a Hna [H1 H2]. split; [by apply holder_until|by apply trying_until]. }
  - destruct (free_progress r i inv Hf m Hl Hz Ht') as (a & Ha & Hacq). exists a. split; [lia|done].
  - by rewrite Hin in Hout.
Qed.

(** Two threads that contend: the second waits, and both come out. *)
Definition contend : list (nat * nat) := [(0,1); (0,0); (1,1); (1,0); (1,0); (0,1); (1,0); (1,0); (1,1)]%nat.

Lemma contend_loops : play (spin_tstep false) contend (start spin_init SIdle 2) = Some (start spin_init SIdle 2).
Proof. vm_compute. reflexivity. Qed.

Definition contend_run : run (spin_tstep false) := loop_run _ contend (start spin_init SIdle 2) ltac:(discriminate) contend_loops.

Lemma spin_lock_exclusion_witness :
  exists c, play (spin_tstep false) (take 4 contend) (start spin_init SIdle 2) = Some c /\ points c !! 0%nat = Some SHeld /\
    (points c !! 1%nat = Some SHeld -> 0%nat = 1%nat).
Proof.
  eexists. split; [vm_compute; reflexivity|]. split; [reflexivity|].
  apply (spin_lock_exclusion 2 _ 0 1); [done| |reflexivity]. apply (play_reach _ (take 4 contend)). vm_compute. reflexivity.
Defined.

Lemma spin_lock_progress_witness : exists m, (4 <= m)%nat /\ acquisition contend_run m.
Proof.
  apply (spin_lock_progress contend_run 2 1 4); [done|reflexivity| | |reflexivity].
  - apply loop_fair. intros i Hi. cbn in Hi. destruct i as [|[|i]]; [..|lia]; apply (bool_decide_unpack _); vm_compute; exact I.
  - apply loop_holds_end. intros [|[|i]]; done.
Defined.

(** With waiters the word is negative, so [spin_trylock] reports success on a
    lock that is held: thread 0 is inside, thread 1 waits, thread 2 tries. *)
Example spin_trylock_two_holders :
  points <$> play (spin_tstep true) [(0,1); (0,0); (1,1); (1,0); (2,2); (2,0)]%nat (start spin_init SIdle 3) = Some [SHeld; SSpin; SHeld].
Proof. vm_compute. reflexivity. Qed.

(** ** aarch64 *)

(** Outside, at the compare-and-swap, inside, or at the exchange of
    [spin_trylock]. *)
Inductive aspin_pc := AIdle | ACas | AHeld | ATry.

(** [arch_atomic_cas (&lock->lock, 1, 0)] *)
Definition aspin_cas (lock : Z) : Z * bool := if lock =? 1 then (0, true) else (lock, false).

Definition aspin_tstep (_ : nat) (lock : Z) (p : aspin_pc) : list (Z * aspin_pc) :=
  match p with
  | AIdle => [(lock, AIdle); (lock, ACas); (lock, ATry)]
  | ACas => let '(v, ok) := aspin_cas lock in [(v, if ok then AHeld else ACas)]
  | AHeld => [(lock, AHeld); (spin_unlock, AIdle)]
  | ATry => let '(v, old) := spin_trylock lock in [(v, if old =? 0 then AIdle else AHeld)]
  end.

Definition a_held (p : aspin_pc) : bool := match p with AHeld => true | _ => false end.

(** The word is 1 exactly when nobody is inside, and 0 otherwise. *)
Definition aspin_inv (c : cfg Z aspin_pc) : Prop :=
  let h := tally a_held (points c) in shared c = 1 - h /\ h <= 1.

Lemma aspin_inv_reach n c : reach aspin_tstep (start spin_init AIdle n) c -> aspin_inv c.
Proof.
  apply reach_inv; [unfold aspin_inv, start; cbn [points shared]; by rewrite tally_replicate|]. clear c.
  intros i p m' p' c [Hv Hh] Hp Hin. unfold aspin_inv. cbn [points shared]. rewrite !(tally_insert _ _ _ _ p' Hp).
  pose proof (tally_nonneg a_held (points c)) as H0. pose proof (tally_in a_held _ _ _ Hp) as H1.
  destruct p; cbn in Hin, H1; [step_cases Hin; cbn; lia| | |].
  - unfold aspin_cas in Hin. destruct (Z.eqb_spec (shared c) 1); step_cases Hin; cbn; lia.
  - specialize (H1 eq_refl). unfold spin_unlock in Hin. step_cases Hin; cbn; lia.
  - destruct (Z.eqb_spec (shared c) 0); step_cases Hin; cbn; lia.
Qed.

(** On aarch64 two threads are never both inside the lock, [spin_trylock]
    included: its compare-and-swap never makes the word negative. *)
Theorem aarch64_spin_exclusion n c i j :
  reach aspin_tstep (start spin_init AIdle n) c -> points c !! i = Some AHeld -> points c !! j = Some AHeld -> i = j.
Proof.
  intros Hr Hi Hj. destruct (aspin_inv_reach n c Hr) as [_ Hle].
  destruct (decide (i = j)) as [|Hne]; [done|]. pose proof (tally_two a_held _ _ _ _ _ Hne Hi Hj eq_refl eq_refl). lia.
Qed.

End SpinLock.
