(* ===== verification/Rwlock.v ===== *)
(** The reader/writer lock (src/kernel/sync/rwlock.c), one step per atomic
    access to its 64-bit word: what the word counts, that a writer is alone,
    that a registered writer is followed by a writer getting in, and that a
    nested read lock can wait for ever. *)

From stdpp Require Import base tactics numbers option relations list.
From Stdlib Require Import ZArith Lia.
From S2P Require Import Prelude Conc.

Module Rwlock.
Import Conc.

(** ** The word *)

Abbreviation RWLOCK_WRITER := 9223372036854775808 (only parsing).
Abbreviation RWLOCK_WAITER_ONE := 4294967296 (only parsing).
Abbreviation RWLOCK_READERS := (RWLOCK_WAITER_ONE - 1) (only parsing).
Abbreviation RWLOCK_WAITERS := (RWLOCK_WRITER - RWLOCK_WAITER_ONE) (only parsing).

Definition rwlock_init : Z := 0.

(** [arch_atomic_cas]: the new word and whether it was stored. *)
Definition cas (word old new : Z) : Z * bool := if word =? old then (new, true) else (word, false).

(** The test of [rwlock_try_read_lock] and the one of [rwlock_write_lock]. *)
Definition read_blocked (state : Z) : bool := negb (Z.land state (Z.lor RWLOCK_WRITER RWLOCK_WAITERS) =? 0).
Definition write_open (state : Z) : bool := Z.land state (Z.lor RWLOCK_WRITER RWLOCK_READERS) =? 0.

(** What each compare-and-swap or subtraction stores. *)
Definition read_locked (state : Z) : Z := state +u 1.
Definition read_unlocked (state : Z) : Z := state -u 1.
Definition registered (state : Z) : Z := state +u RWLOCK_WAITER_ONE.
Definition write_locked (state : Z) : Z := Z.lor (state -u RWLOCK_WAITER_ONE) RWLOCK_WRITER.
Definition write_unlocked (state : Z) : Z := state &~ RWLOCK_WRITER.

#[global] Arguments read_blocked : simpl never.
#[global] Arguments write_open : simpl never.

(** ** The threads *)

(** Where a thread is.  [At d] is outside the lock's functions with [d] read
    locks held; [RRead d b] and [RCas d b s] are the two accesses of
    [rwlock_try_read_lock], [b] when [rwlock_read_lock] called it; [TryW] is
    [rwlock_try_write_lock]; [WReg1], [WReg2 s] the registration loop and
    [WAcq1], [WAcq2 s] the second loop of [rwlock_write_lock]; [WUn1],
    [WUn2 s] the loop of [rwlock_write_unlock]. *)
Inductive rw_pc :=
  | At (d : Z) | RRead (d : Z) (b : bool) | RCas (d : Z) (b : bool) (s : Z)
  | TryW | WReg1 | WReg2 (s : Z) | WAcq1 | WAcq2 (s : Z) | WHeld | WUn1 | WUn2 (s : Z).

(** [while (!rwlock_try_read_lock(lock))], or the failed try. *)
Definition read_failed (d : Z) (b : bool) : rw_pc := if b then RRead d b else At d.

(** Clients hold at most [depth] nested read locks. *)
Definition rw_tstep (depth : Z) (_ : nat) (w : Z) (p : rw_pc) : list (Z * rw_pc) :=
  match p with
  | At d =>
      (w, At d) :: (if d <? depth then [(w, RRead d true); (w, RRead d false)] else []) ++
      (if d =? 0 then [(w, WReg1); (w, TryW)] else [(read_unlocked w, At (d - 1))])
  | RRead d b => [(w, if read_blocked w then read_failed d b else RCas d b w)]
  | RCas d b s => let '(w', ok) := cas w s (read_locked s) in [(w', if ok then At (d + 1) else read_failed d b)]
  | TryW => let '(w', ok) := cas w 0 RWLOCK_WRITER in [(w', if ok then WHeld else At 0)]
  | WReg1 => [(w, WReg2 w)]
  | WReg2 s => let '(w', ok) := cas w s (registered s) in [(w', if ok then WAcq1 else WReg1)]
  | WAcq1 => [(w, if write_open w then WAcq2 w else WAcq1)]
  | WAcq2 s => let '(w', ok) := cas w s (write_locked s) in [(w', if ok then WHeld else WAcq1)]
  | WHeld => [(w, WHeld); (w, WUn1)]
  | WUn1 => [(w, WUn2 w)]
  | WUn2 s => let '(w', ok) := cas w s (write_unlocked s) in [(w', if ok then At 0 else WUn1)]
  end.

(** The read locks a thread holds, whether it is registered, and whether it
    is the writer. *)
Definition reads (p : rw_pc) : Z := match p with At d | RRead d _ | RCas d _ _ => d | _ => 0 end.
Definition waits (p : rw_pc) : bool := match p with WAcq1 | WAcq2 _ => true | _ => false end.
Definition writes (p : rw_pc) : bool := match p with WHeld | WUn1 | WUn2 _ => true | _ => false end.

(** What a thread has seen of the word it is about to replace. *)
Definition pc_ok (depth : Z) (p : rw_pc) : Prop :=
  match p with
  | At d => 0 <= d <= depth
  | RRead d _ => 0 <= d < depth
  | RCas d _ s => 0 <= d < depth /\ read_blocked s = false
  | WAcq2 s => write_open s = true
  | _ => True
  end.

Definition enc (r q x : Z) : Z := r + q * RWLOCK_WAITER_ONE + x * RWLOCK_WRITER.

(** The word counts the read locks, the registered writers and the writer,
    and the writer is alone. *)
Definition rw_inv (depth : Z) (c : cfg Z rw_pc) : Prop :=
  let n := Z.of_nat (length (points c)) in
  let r := wsum reads (points c) in let q := tally waits (points c) in let x := tally writes (points c) in
  n < 2147483648 /\ n * depth < U32 /\ 0 <= depth /\ Forall (pc_ok depth) (points c) /\
  shared c = enc r q x /\ 0 <= r <= n * depth /\ x <= 1 /\ (x = 1 -> r = 0).

Ltac elia := unfold enc in *; lia.

(** ** The masks *)

Lemma lor_top x : 0 <= x < RWLOCK_WRITER -> Z.lor x RWLOCK_WRITER = x + RWLOCK_WRITER.
Proof.
  intros Hx. assert (Z.land x RWLOCK_WRITER = 0) as E.
  { replace RWLOCK_WRITER with (not64 (2 ^ 63 - 1)) by reflexivity. rewrite land_not_mask, Z.mod_small; lia. }
  pose proof (Z.add_nocarry_lxor x RWLOCK_WRITER E) as A. rewrite A. symmetry. by apply Z.lxor_lor.
Qed.

Section masks.
Context (r q x : Z).
Hypotheses (Hr : 0 <= r < U32) (Hq : 0 <= q < 2147483648) (Hx : 0 <= x <= 1).

Lemma read_blocked_enc : read_blocked (enc r q x) = false <-> q = 0 /\ x = 0.
Proof.
  unfold read_blocked, enc. replace (Z.lor _ _) with (not64 (2 ^ 32 - 1)) by reflexivity.
  rewrite land_not_mask by lia. rewrite negb_false_iff, Z.eqb_eq. split; intros; dlia.
Qed.

Lemma write_open_enc : write_open (enc r q x) = true <-> r = 0 /\ x = 0.
Proof.
  unfold write_open, enc. rewrite Z.land_lor_distr_r, Z.eqb_eq, Z.lor_eq_0_iff.
  replace RWLOCK_WRITER with (not64 (2 ^ 63 - 1)) at 2 by reflexivity. rewrite land_not_mask by lia.
  change RWLOCK_READERS with (2 ^ 32 - 1). rewrite land_mask by lia. split; intros; dlia.
Qed.

Lemma write_unlocked_enc : write_unlocked (enc r q x) = enc r q 0.
Proof. unfold write_unlocked, enc. change (not64 RWLOCK_WRITER) with (2 ^ 63 - 1). rewrite land_mask by lia. dlia. Qed.

End masks.

Lemma write_locked_enc q : 1 <= q < 2147483648 -> write_locked (enc 0 q 0) = enc 0 (q - 1) 1.
Proof. intros Hq. unfold write_locked, enc. rewrite wrap64_small, lor_top; lia. Qed.

(** ** The invariant *)

Lemma reads_nonneg depth p : 0 <= depth -> pc_ok depth p -> 0 <= reads p <= depth.
Proof. destruct p; cbn; lia. Qed.

Lemma reads_bound depth ps : 0 <= depth -> Forall (pc_ok depth) ps -> wsum reads ps <= Z.of_nat (length ps) * depth.
Proof.
  intros Hd. induction 1 as [|p ps Hp _ IH]; [done|]. pose proof (reads_nonneg depth p Hd Hp).
  change (wsum reads (p :: ps)) with (reads p + wsum reads ps). cbn [length]. lia.
Qed.

(** What the invariant asks of a step: the thread's new point is in order,
    and the word and the counts move together. *)
Lemma rw_inv_intro depth c i p w' p' :
  rw_inv depth c -> points c !! i = Some p -> pc_ok depth p' ->
  (let r := wsum reads (points c) - reads p + reads p' in let q := tally waits (points c) - b2z (waits p) + b2z (waits p') in
   let x := tally writes (points c) - b2z (writes p) + b2z (writes p') in
   w' = enc r q x /\ 0 <= r /\ x <= 1 /\ (x = 1 -> r = 0)) ->
  rw_inv depth (mk_cfg w' (<[i := p']> (points c))).
Proof.
  intros (Hn & Hd & H0 & Hok & _) Hp Hp' (Hw & Hr & Hx & Hxr). unfold rw_inv. cbn [points shared].
  assert (Forall (pc_ok depth) (<[i := p']> (points c))) as Hok' by by apply Forall_insert.
  rewrite length_insert, (wsum_insert _ _ _ _ p' Hp), !(tally_insert _ _ _ _ p' Hp).
  pose proof (reads_bound depth _ H0 Hok') as Hb. rewrite length_insert, (wsum_insert _ _ _ _ p' Hp) in Hb.
  split_and!; try done.
Qed.

(** The ranges of the three fields. *)
Lemma rw_ranges depth c :
  rw_inv depth c ->
  0 <= wsum reads (points c) < U32 /\ 0 <= tally waits (points c) < 2147483648 /\ 0 <= tally writes (points c) <= 1.
Proof.
  intros (Hn & Hd & H0 & _ & _ & Hr & Hx & _). pose proof (tally_nonneg writes (points c)).
  pose proof (tally_nonneg waits (points c)). pose proof (tally_le waits (points c)). lia.
Qed.

Lemma reads_le ps depth i p : 0 <= depth -> Forall (pc_ok depth) ps -> ps !! i = Some p -> reads p <= wsum reads ps.
Proof.
  intros H0 Hok Hp. revert i Hp. induction Hok as [|y ps Hy Hok IH]; intros [|i] Hp; try done;
    change (wsum reads (y :: ps)) with (reads y + wsum reads ps); pose proof (reads_nonneg _ _ H0 Hy).
  - injection Hp as ->. assert (0 <= wsum reads ps); [|lia].
    clear IH. induction Hok as [|z ps Hz _ IH]; [done|]. change (wsum reads (z :: ps)) with (reads z + wsum reads ps).
    pose proof (reads_nonneg _ _ H0 Hz). lia.
  - pose proof (IH i Hp). lia.
Qed.

Lemma rw_inv_step depth i p w' p' c :
  rw_inv depth c -> points c !! i = Some p -> (w', p') ∈ rw_tstep depth i (shared c) p -> rw_inv depth (mk_cfg w' (<[i := p']> (points c))).
Proof.
  intros Hinv Hp Hin. pose proof (rw_ranges _ _ Hinv) as (Rr & Rq & Rx).
  pose proof Hinv as (Hn & Hd & H0 & Hok & Hw & Hr & Hx & Hxr).
  pose proof (Forall_lookup_1 _ _ _ _ Hok Hp) as Hpc. pose proof (reads_le _ _ _ _ H0 Hok Hp) as Hle.
  pose proof (tally_in waits _ _ _ Hp) as Hq1. pose proof (tally_in writes _ _ _ Hp) as Hx1.
  destruct p; cbn in Hin, Hpc, Hle, Hq1, Hx1.
  - destruct (Z.ltb_spec d depth) as [Ed|Ed], (Z.eqb_spec d 0) as [E0|E0]; cbn in Hin; unfold read_unlocked in Hin; step_cases Hin;
      apply (rw_inv_intro depth c i (At d)); try done; cbn; rewrite ?Hw; unfold enc in *; unwrap; lia.
  - destruct (read_blocked (shared c)) eqn:Eb; [destruct b|]; cbn in Hin; step_cases Hin;
      (eapply rw_inv_intro; [done|exact Hp|..]); cbn; try (split; [done|exact Eb]); elia.
  - unfold cas, read_locked in Hin. destruct (Z.eqb_spec (shared c) s) as [<-|]; [|destruct b]; cbn in Hin; step_cases Hin;
      (eapply rw_inv_intro; [done|exact Hp|..]); cbn; try elia.
    destruct Hpc as [_ Hb]. rewrite Hw in Hb |- *. apply read_blocked_enc in Hb as [-> ->]; [|lia..]. unfold enc. unwrap. lia.
  - unfold cas in Hin. destruct (Z.eqb_spec (shared c) 0) as [E|]; step_cases Hin;
      (eapply rw_inv_intro; [done|exact Hp|..]); cbn; elia.
  - step_cases Hin. eapply rw_inv_intro; [done|exact Hp|done|cbn; elia].
  - pose proof (tally_le waits (<[i := WAcq1]> (points c))) as Hmax. rewrite length_insert, (tally_insert _ _ _ _ _ Hp) in Hmax. cbn in Hmax.
    unfold cas, registered in Hin. destruct (Z.eqb_spec (shared c) s) as [<-|]; step_cases Hin;
      (eapply rw_inv_intro; [done|exact Hp|done|]); cbn; rewrite ?Hw; unfold enc in *; unwrap; lia.
  - destruct (write_open (shared c)) eqn:Eo; step_cases Hin; (eapply rw_inv_intro; [done|exact Hp|done|cbn; elia]).
  - specialize (Hq1 eq_refl). unfold cas in Hin. destruct (Z.eqb_spec (shared c) s) as [<-|]; step_cases Hin;
      (eapply rw_inv_intro; [done|exact Hp|done|]); cbn; [|elia].
    rewrite Hw in Hpc |- *. apply write_open_enc in Hpc as [-> ->]; [|lia..].
    rewrite write_locked_enc by lia. split_and!; [f_equal|..]; lia.
  - step_cases Hin; (eapply rw_inv_intro; [done|exact Hp|done|cbn; elia]).
  - step_cases Hin; (eapply rw_inv_intro; [done|exact Hp|done|cbn; elia]).
  - specialize (Hx1 eq_refl). unfold cas in Hin. destruct (Z.eqb_spec (shared c) s) as [<-|]; step_cases Hin;
      (eapply rw_inv_intro; [done|exact Hp|cbn; lia|]); cbn; [|elia].
    rewrite Hw, write_unlocked_enc by lia. split_and!; [f_equal|..]; lia.
Qed.

Lemma rw_inv_reach depth n c :
  0 <= depth -> Z.of_nat n < 2147483648 -> Z.of_nat n * depth < U32 ->
  reach (rw_tstep depth) (start rwlock_init (At 0) n) c -> rw_inv depth c.
Proof.
  intros H0 Hn Hd. apply reach_inv; [|intros; by eapply rw_inv_step]. unfold rw_inv, start. cbn [points shared].
  rewrite length_replicate, wsum_replicate, !tally_replicate by done. split_and!; try done; [|lia]. apply Forall_replicate. cbn. lia.
Qed.

(** ** Progress of the writers *)

Abbreviation write_acquired r n := (tally writes (points (at_time r n)) < tally writes (points (at_time r (S n)))) (only parsing).

Definition in_read (p : rw_pc) : bool := match p with At d => negb (d =? 0) | _ => false end.
Definition in_write (p : rw_pc) : bool := match p with WHeld => true | _ => false end.

Section progress.
Context (r : run (rw_tstep 1)).
Hypothesis inv : forall n, rw_inv 1 (at_time r n).
Hypothesis Hfair : fair (rw_tstep 1) r.
Hypothesis Hreads : holds_end in_read r.
Hypothesis Hwrites : holds_end in_write r.

Abbreviation changes n := (exists m, (n <= m)%nat /\ change r m).

(** A thread at [p] whose next step leads only to [p'] without touching the
    word gets there with the word as it is, or the word changes. *)
Lemma goes i n p p' :
  points (at_time r n) !! i = Some p ->
  rw_tstep 1 i (shared (at_time r n)) p = [(shared (at_time r n), p')] ->
  changes n \/ exists m, (n <= m)%nat /\ shared (at_time r m) = shared (at_time r n) /\ points (at_time r m) !! i = Some p'.
Proof.
  intros Hp Hs. destruct (turn_or_change _ r i n p Hfair Hp) as [|(m & Hm & <- & Hw & Hpm)]; [by left|].
  destruct (run_moves _ r m p Hpm) as (w' & q & Hin & E). rewrite Hw, Hs in Hin. step_cases Hin.
  right. exists (S m). rewrite E. cbn [points shared]. split_and!; [lia|done|]. apply list_lookup_insert_eq. by eapply lookup_lt_Some.
Qed.

(** A thread at [p] whose next step changes the word takes it, or another
    thread changes the word first. *)
Lemma changing i n p w' p' :
  points (at_time r n) !! i = Some p -> rw_tstep 1 i (shared (at_time r n)) p = [(w', p')] -> w' <> shared (at_time r n) -> changes n.
Proof.
  intros Hp Hs Hw'. destruct (turn_or_change _ r i n p Hfair Hp) as [|(m & Hm & <- & Hw & Hpm)]; [done|].
  destruct (run_moves _ r m p Hpm) as (w2 & q & Hin & E). rewrite Hw, Hs in Hin. step_cases Hin.
  exists m. split; [done|]. unfold change. rewrite E. cbn. by rewrite Hw.
Qed.

Lemma changes_later n m : (n <= m)%nat -> changes m -> changes n.
Proof. intros Hnm (k & Hk & Hc). exists k. split; [lia|done]. Qed.

(** A writer that is leaving leaves. *)
Lemma unlock_changes i n p : points (at_time r n) !! i = Some p -> p = WUn1 \/ (exists s, p = WUn2 s) -> changes n.
Proof.
  assert (forall n, points (at_time r n) !! i = Some (WUn2 (shared (at_time r n))) -> changes n) as H2.
  { clear n. intros n Hp. eapply changing; [exact Hp|cbn; unfold cas; by rewrite Z.eqb_refl|].
    pose proof (rw_ranges _ _ (inv n)) as (Rr & Rq & Rx). destruct (inv n) as (_ & _ & _ & _ & -> & _).
    pose proof (tally_in writes _ _ _ Hp eq_refl). rewrite write_unlocked_enc by lia. elia. }
  assert (forall n, points (at_time r n) !! i = Some WUn1 -> changes n) as H1.
  { clear n. intros n Hp. destruct (goes i n WUn1 (WUn2 (shared (at_time r n))) Hp) as [|(m & Hm & Hw & Hpm)]; [done..|].
    apply (changes_later n m Hm), H2. by rewrite Hw. }
  intros Hp [->|[s ->]]; [by apply H1|]. destruct (decide (shared (at_time r n) = s)) as [<-|Hne]; [by apply H2|].
  destruct (goes i n (WUn2 s) WUn1 Hp) as [|(m & Hm & _ & Hpm)]; [|done|by apply (changes_later n m Hm), H1].
  cbn. unfold cas. by rewrite (proj2 (Z.eqb_neq _ _) Hne).
Qed.

Lemma writer_changes i n p : points (at_time r n) !! i = Some p -> writes p = true -> changes n.
Proof.
  intros Hp Hx. destruct p; try done; [|eapply unlock_changes; [done|by eauto]..].
  destruct (leaves _ r in_write i n Hwrites) as (m & p & Hm & <- & Hpm & Hin & Hout); [by rewrite Hp|].
  destruct p; try done. destruct (run_moves _ r m _ Hpm) as (w' & q & Hs & E). rewrite E in Hout. cbn [points] in Hout.
  rewrite list_lookup_insert_eq in Hout by by eapply lookup_lt_Some. cbn in Hs. step_cases Hs; [done|].
  apply (changes_later n (S m)); [lia|]. eapply (unlock_changes (who r m)); [|by left]. rewrite E. cbn.
  apply list_lookup_insert_eq. by eapply lookup_lt_Some.
Qed.

Lemma reader_changes i n p : points (at_time r n) !! i = Some p -> reads p <> 0 -> changes n.
Proof.
  intros Hp Hr. destruct (inv n) as (_ & _ & _ & Hok & _). pose proof (Forall_lookup_1 _ _ _ _ Hok Hp) as Hpc.
  assert (p = At 1) as -> by (destruct p; cbn in Hpc, Hr; try lia; f_equal; lia).
  destruct (leaves _ r in_read i n Hreads) as (m & p & Hm & <- & Hpm & Hin & Hout); [by rewrite Hp|].
  destruct (inv m) as (_ & _ & _ & Hokm & _). pose proof (Forall_lookup_1 _ _ _ _ Hokm Hpm) as Hpcm.
  destruct p; try done. assert (d = 1) as -> by (cbn in Hin, Hpcm; destruct (Z.eqb_spec d 0); [done|lia]).
  destruct (run_moves _ r m _ Hpm) as (w' & q & Hs & E). exists m. split; [done|]. unfold change. rewrite E in Hout |- *.
  cbn [points shared] in *. rewrite list_lookup_insert_eq in Hout by by eapply lookup_lt_Some.
  cbn in Hs. step_cases Hs; [done|]. unfold read_unlocked. pose proof (wrap64_range (shared (at_time r m))). unfold wrap64. dlia.
Qed.

(** A registered writer of an open lock acquires it. *)
Lemma open_changes i n p :
  points (at_time r n) !! i = Some p -> waits p = true -> write_open (shared (at_time r n)) = true -> changes n.
Proof.
  assert (forall n, points (at_time r n) !! i = Some (WAcq2 (shared (at_time r n))) -> write_open (shared (at_time r n)) = true -> changes n) as H2.
  { clear n. intros n Hp Ho. eapply changing; [exact Hp|cbn; unfold cas; by rewrite Z.eqb_refl|].
    pose proof (rw_ranges _ _ (inv n)) as (Rr & Rq & Rx). destruct (inv n) as (_ & _ & _ & _ & E & _). rewrite E in Ho |- *.
    pose proof (tally_in waits _ _ _ Hp eq_refl). apply write_open_enc in Ho as [-> ->]; [|lia..].
    rewrite write_locked_enc by lia. elia. }
  assert (forall n, points (at_time r n) !! i = Some WAcq1 -> write_open (shared (at_time r n)) = true -> changes n) as H1.
  { clear n. intros n Hp Ho. destruct (goes i n WAcq1 (WAcq2 (shared (at_time r n))) Hp) as [|(m & Hm & Hw & Hpm)]; [|done|].
    - cbn. by rewrite Ho.
    - apply (changes_later n m Hm), H2; by rewrite Hw. }
  intros Hp Hq Ho. destruct p; try done; [by apply H1|]. destruct (decide (shared (at_time r n) = s)) as [<-|Hne]; [by apply H2|].
  destruct (goes i n (WAcq2 s) WAcq1 Hp) as [|(m & Hm & Hw & Hpm)]; [|done|apply (changes_later n m Hm), H1; [done|by rewrite Hw]].
  cbn. unfold cas. by rewrite (proj2 (Z.eqb_neq _ _) Hne).
Qed.

(** While a writer is registered the word changes again. *)
Lemma waiting_changes i n : waits <$> points (at_time r n) !! i = Some true -> changes n.
Proof.
  intros Hi. destruct (points (at_time r n) !! i) as [p|] eqn:Hp; [|done]. injection Hi as Hi.
  pose proof (rw_ranges _ _ (inv n)) as (Rr & Rq & Rx). pose proof (inv n) as (_ & _ & _ & _ & Ew & _).
  destruct (decide (tally writes (points (at_time r n)) = 0)) as [Ex|Ex].
  2: { destruct (tally_pos writes (points (at_time r n))) as (j & q & Eq & Hq); [lia|]. by eapply writer_changes. }
  destruct (decide (wsum reads (points (at_time r n)) = 0)) as [Er|Er].
  2: { destruct (wsum_pos reads (points (at_time r n))) as (j & q & Eq & Hq); [lia|]. eapply reader_changes; [done|lia]. }
  eapply open_changes; [done..|]. rewrite Ew. apply write_open_enc; lia.
Qed.

(** What is still ahead of the registered writers: threads that may register,
    read locks to give back, the writer inside. *)
Definition ahead (c : cfg Z rw_pc) : Z :=
  Z.of_nat (length (points c)) - tally waits (points c) + wsum reads (points c) + tally writes (points c).

Lemma ahead_nonneg n : 0 <= ahead (at_time r n).
Proof. unfold ahead. pose proof (rw_ranges _ _ (inv n)). pose proof (tally_le waits (points (at_time r n))). lia. Qed.

(** A step of a thread while a writer is registered, other than a writer's
    acquisition, keeps it registered, and brings it nearer when it changes
    the word. *)
Lemma ahead_step i n :
  waits <$> points (at_time r n) !! i = Some true -> ~ write_acquired r n ->
  waits <$> points (at_time r (S n)) !! i = Some true /\ ahead (at_time r (S n)) <= ahead (at_time r n) /\
    (change r n -> ahead (at_time r (S n)) < ahead (at_time r n)).
Proof.
  intros Hi Hno. pose proof (rw_ranges _ _ (inv n)) as (Rr & Rq & Rx). pose proof (inv n) as (_ & _ & _ & Hok & Hw & _).
  assert (1 <= tally waits (points (at_time r n))) as Hq.
  { destruct (points (at_time r n) !! i) eqn:E; [|done]. eapply tally_in; [done|by injection Hi]. }
  destruct (points (at_time r n) !! who r n) as [p|] eqn:Hp; [|by destruct (run_step _ r n); congruence].
  pose proof (Forall_lookup_1 _ _ _ _ Hok Hp) as Hpc. pose proof (tally_in writes _ _ _ Hp) as Hx1.
  destruct (run_moves _ r n p Hp) as (w' & p' & Hin & E). unfold change, ahead. rewrite E in Hno |- *. cbn [points shared] in *.
  rewrite length_insert, (wsum_insert _ _ _ _ _ Hp), !(tally_insert _ _ _ _ _ Hp).
  rewrite (tally_insert _ _ _ _ _ Hp) in Hno.
  enough ((waits p = true -> waits p' = true) /\
    reads p' + b2z (writes p') - b2z (waits p') <= reads p + b2z (writes p) - b2z (waits p) /\ (w' <> shared (at_time r n) ->
    reads p' + b2z (writes p') - b2z (waits p') < reads p + b2z (writes p) - b2z (waits p))) as (H1 & H2 & H3).
  { split; [|split; [lia|intros Hc; specialize (H3 Hc); lia]]. destruct (decide (who r n = i)) as [<-|Hne]; [|by rewrite list_lookup_insert_ne].
    rewrite list_lookup_insert_eq by by eapply lookup_lt_Some. rewrite Hp in Hi. cbn in Hi |- *. f_equal. apply H1. by injection Hi. }
  clear E Hi. rewrite Hw in *. destruct p; cbn in Hin, Hpc, Hno, Hx1.
  all: try unfold cas in Hin.
  - destruct (d <? 1), (d =? 0); cbn in Hin; step_cases Hin; cbn; split_and!; done || lia.
  - destruct (read_blocked _), b; step_cases Hin; cbn; split_and!; done || lia.
  - destruct (Z.eqb_spec (enc (wsum reads (points (at_time r n))) (tally waits (points (at_time r n))) (tally writes (points (at_time r n)))) s)
      as [<-|]; [|destruct b; step_cases Hin; cbn; split_and!; done || lia].
    destruct Hpc as [_ Hb%read_blocked_enc]; lia.
  - destruct (Z.eqb_spec (enc (wsum reads (points (at_time r n))) (tally waits (points (at_time r n))) (tally writes (points (at_time r n)))) 0);
      [elia|step_cases Hin; cbn; split_and!; done || lia].
  - step_cases Hin; cbn; split_and!; done || lia.
  - destruct (_ =? _); step_cases Hin; cbn; split_and!; done || lia.
  - destruct (write_open _); step_cases Hin; cbn; split_and!; done || lia.
  - destruct (_ =? _); step_cases Hin; cbn in Hno |- *; split_and!; done || lia.
  - step_cases Hin; cbn; split_and!; done || lia.
  - step_cases Hin; cbn; split_and!; done || lia.
  - destruct (_ =? _); step_cases Hin; cbn in Hno |- *; split_and!; done || lia.
Qed.

Lemma writer_progress i n : waits <$> points (at_time r n) !! i = Some true -> exists m, (n <= m)%nat /\ write_acquired r m.
Proof.
  intros Hi. apply (measure_progress _ r (fun m => write_acquired r m) (fun c => waits <$> points c !! i = Some true) ahead n); [| | |done].
  - intros m _. apply ahead_nonneg.
  - intros m Hno Hm. destruct (ahead_step i m Hm Hno) as (H1 & H2 & _). done.
  - intros m Hm. destruct (waiting_changes i m Hm) as (k & Hk & Hc).
    destruct (first_event (fun m => write_acquired r m) m (k - m)) as [(j & Hj & Ha & _)|Hno]; [exists j; split; [lia|by left]|].
    exists k. split; [done|]. destruct (decide (write_acquired r k)) as [|Hk']; [by left|]. right. apply (ahead_step i k); [|done..].
    apply (until_event _ r (fun m => write_acquired r m) (fun c => waits <$> points c !! i = Some true) m (k - m)); [done| |done|lia].
    intros j Hj H1. by apply ahead_step.
Qed.

End progress.

(** C13: the word of the reader/writer lock counts the read locks held, the
    writers registered and the writer inside, in every interleaving of threads
    that read-lock (nested up to [depth]), try, write-lock and unlock; and
    while a thread is the writer no other thread is and nobody holds a read
    lock. *)
Theorem rwlock_exclusion depth n c :
  0 <= depth -> Z.of_nat n < 2147483648 -> Z.of_nat n * depth < U32 -> reach (rw_tstep depth) (start rwlock_init (At 0) n) c ->
  shared c = wsum reads (points c) + tally waits (points c) * RWLOCK_WAITER_ONE + tally writes (points c) * RWLOCK_WRITER /\
  forall i p, points c !! i = Some p -> writes p = true -> forall j q, points c !! j = Some q -> reads q = 0 /\ (writes q = true -> j = i).
Proof.
  intros H0 Hn Hd Hr. destruct (rw_inv_reach depth n c H0 Hn Hd Hr) as (_ & _ & _ & Hok & Hw & Hrr & Hx & Hxr).
  split; [done|]. intros i p Hp Hpw j q Hq. pose proof (tally_in writes _ _ _ Hp Hpw). split.
  - pose proof (reads_le _ _ _ _ H0 Hok Hq). pose proof (reads_nonneg _ _ H0 (Forall_lookup_1 _ _ _ _ Hok Hq)). lia.
  - intros Hqw. destruct (decide (j = i)) as [|Hne]; [done|]. pose proof (tally_two writes _ _ _ _ _ Hne Hq Hp Hqw Hpw). lia.
Qed.

(** C10: a registered writer is not shut out by readers or by threads that keep
    calling the lock: under a fair schedule in which read and write sections
    end and read locks do not nest, a thread waiting in [rwlock_write_lock] is
    followed by a writer's acquisition. *)
Theorem rwlock_writer_progress (r : run (rw_tstep 1)) k i n :
  Z.of_nat k < 2147483648 -> at_time r 0 = start rwlock_init (At 0) k -> fair (rw_tstep 1) r -> holds_end in_read r -> holds_end in_write r ->
  waits <$> points (at_time r n) !! i = Some true -> exists m, (n <= m)%nat /\ write_acquired r m.
Proof.
  intros Hk H0 Hf Hr Hw. apply writer_progress; [|done..].
  intros m. apply (rw_inv_reach 1 k); [lia..|]. rewrite <-H0. apply run_reach.
Qed.

(** Thread 0 holds a read lock and asks for a second one; thread 1 registers
    in between.  Each waits for the other, whatever the schedule, although the
    header allows nested read locks. *)
Theorem rwlock_nested_read_deadlock :
  exists c, reach (rw_tstep 2) (start rwlock_init (At 0) 2) c /\ c = mk_cfg 4294967297 [RRead 1 true; WAcq1] /\
    forall c', reach (rw_tstep 2) c c' -> c' = c.
Proof.
  eexists. split; [|split; [reflexivity|]].
  - apply (play_reach _ [(0,1); (0,0); (0,0); (1,3); (1,0); (1,0); (0,1)]%nat). vm_compute. reflexivity.
  - intros c'. apply (reach_inv _ (fun c => c = mk_cfg 4294967297 [RRead 1 true; WAcq1])); [done|]. intros [|[|i]] p m' p' c -> Hp Hin; [..|done]; injection Hp as <-;
      vm_compute in Hin; by step_cases Hin.
Qed.

(** A reader and a writer that contend. *)
Definition contend_rw : list (nat * nat) :=
  [(0,1); (0,0); (0,0); (1,3); (1,0); (1,0); (1,0); (0,1); (1,0); (1,0); (1,1); (1,0); (1,0)]%nat.

Lemma contend_rw_loops : play (rw_tstep 1) contend_rw (start rwlock_init (At 0) 2) = Some (start rwlock_init (At 0) 2).
Proof. vm_compute. reflexivity. Qed.

Definition contend_rw_run : run (rw_tstep 1) := loop_run _ contend_rw (start rwlock_init (At 0) 2) ltac:(discriminate) contend_rw_loops.

Lemma rwlock_exclusion_witness : exists c,
  play (rw_tstep 1) (take 10 contend_rw) (start rwlock_init (At 0) 2) = Some c /\ points c = [At 0; WHeld] /\ shared c = RWLOCK_WRITER /\
  forall q, points c !! 0%nat = Some q -> reads q = 0.
Proof.
  eexists. split; [vm_compute; reflexivity|]. split; [reflexivity|]. split; [reflexivity|]. intros q Hq.
  refine (proj1 (proj2 (rwlock_exclusion 1 2 _ _ _ _ _) 1%nat WHeld _ _ 0%nat q Hq)); [done..| |reflexivity|reflexivity].
  apply (play_reach _ (take 10 contend_rw)). vm_compute. reflexivity.
Defined.

Lemma rwlock_writer_progress_witness : exists m, (6 <= m)%nat /\ write_acquired contend_rw_run m.
Proof.
  apply (rwlock_writer_progress contend_rw_run 2 1 6); [done|reflexivity|..|reflexivity].
  - apply loop_fair. intros i Hi. cbn in Hi. destruct i as [|[|i]]; [..|lia]; apply (bool_decide_unpack _); vm_compute; exact I.
  - apply loop_holds_end. intros [|[|i]]; done.
  - apply loop_holds_end. intros [|[|i]]; done.
Defined.

End Rwlock.
