(* ===== verification/Seqlock.v ===== *)
(** The sequence lock (src/kernel/sync/seqlock.c) on top of the x86_64 spin
    lock: a reader whose retry check passes has copied the data as they stand,
    although it took no lock and copied them one cell at a time. *)

From stdpp Require Import base tactics numbers option relations list.
From Stdlib Require Import ZArith Lia.
From S2P Require Import Prelude Conc SpinLock.

Module Seqlock.
Import Conc SpinLock.

(** [seqlock_t] and the cells it protects; [budget] is how many more write
    sections the threads will begin. *)
Record seqlock_t := mk_seqlock { sequence : Z; writer_lock : Z; cells : list Z; budget : Z }.

Definition seqlock_init (d : list Z) (b : Z) : seqlock_t := mk_seqlock 0 spin_init d b.

(** Outside; in [spin_lock] of [seqlock_write_lock]; at its [fetch_add]; in
    the write section; at the [spin_unlock] of [seqlock_write_unlock]; at the
    load of [seqlock_read_begin]; copying, [l] copied since the sequence was
    [s]; with a copy accepted. *)
Inductive seq_pc := QIdle | QLock (p : spin_pc) | QInc | QWrite | QUnlock | QBegin | QCopy (s : Z) (l : list Z) | QDone (l : list Z).

(** [seqlock_read_retry] *)
Definition seqlock_read_retry (m : seqlock_t) (start : Z) : bool := negb (sequence m =? start).

Definition bump (m : seqlock_t) : seqlock_t := mk_seqlock (sequence m +u 1) (writer_lock m) (cells m) (budget m).
Definition with_lock (w : Z) (m : seqlock_t) : seqlock_t := mk_seqlock (sequence m) w (cells m) (budget m).
Definition store (k : nat) (v : Z) (m : seqlock_t) : seqlock_t := mk_seqlock (sequence m) (writer_lock m) (<[k := v]> (cells m)) (budget m).
Definition begin_write (m : seqlock_t) : seqlock_t := mk_seqlock (sequence m) (writer_lock m) (cells m) (budget m - 1).

Section machine.
(** The cells and values a write section may store. *)
Context (stores : list (nat * Z)).

Definition seq_tstep (_ : nat) (m : seqlock_t) (p : seq_pc) : list (seqlock_t * seq_pc) :=
  match p with
  | QIdle => (m, QIdle) :: (m, QBegin) :: (if 0 <? budget m then [(begin_write m, QLock SDec)] else [])
  | QLock SSpin => [(m, QLock (if spin_wait (writer_lock m) then SSpin else SDec))]
  | QLock _ => let '(w, ok) := spin_dec (writer_lock m) in [(with_lock w m, if ok then QInc else QLock SSpin)]
  | QInc => [(bump m, QWrite)]
  | QWrite => (bump m, QUnlock) :: map (fun kv => (store kv.1 kv.2 m, QWrite)) stores
  | QUnlock => [(with_lock spin_unlock m, QIdle)]
  | QBegin => [(m, if Z.odd (sequence m) then QBegin else QCopy (sequence m) [])]
  | QCopy s l =>
      match cells m !! length l with
      | Some v => [(m, QCopy s (l ++ [v]))]
      | None => [(m, if seqlock_read_retry m s then QBegin else QDone l)]
      end
  | QDone l => [(m, QIdle)]
  end.

(** What a thread is for the spin lock. *)
Definition as_spin (p : seq_pc) : spin_pc :=
  match p with QLock SSpin => SSpin | QLock _ => SDec | QInc | QWrite | QUnlock => SHeld | _ => SIdle end.
Definition spin_view (c : cfg seqlock_t seq_pc) : cfg Z spin_pc := mk_cfg (writer_lock (shared c)) (as_spin <$> points c).

(** A step of the sequence lock is a step of the spin lock, so what holds of
    the spin lock holds here. *)
Lemma spin_view_step i p m' p' c :
  points c !! i = Some p -> (m', p') ∈ seq_tstep i (shared c) p ->
  (writer_lock m', as_spin p') ∈ spin_tstep false i (writer_lock (shared c)) (as_spin p).
Proof.
  intros Hp Hin. destruct p; cbn in Hin.
  - destruct (0 <? budget (shared c)); step_cases Hin; cbn; set_solver.
  - destruct p; cbn; try destruct (0 <=? _); try destruct (spin_wait _); step_cases Hin; cbn; set_solver.
  - step_cases Hin. cbn. set_solver.
  - apply elem_of_cons in Hin as [[= -> ->]|Hin]; [cbn; set_solver|].
    apply list_elem_of_In, in_map_iff in Hin as (kv & [= <- <-] & _). cbn. set_solver.
  - step_cases Hin. cbn. set_solver.
  - destruct (Z.odd _); step_cases Hin; cbn; set_solver.
  - destruct (cells (shared c) !! length l); [|destruct (seqlock_read_retry _ _)]; step_cases Hin; cbn; set_solver.
  - step_cases Hin. cbn. set_solver.
Qed.

Definition in_section (p : seq_pc) : bool := match p with QWrite => true | _ => false end.
(** How often the thread will still bump the sequence in its present call. *)
Definition bumps (p : seq_pc) : Z := match p with QLock _ | QInc => 2 | QWrite => 1 | _ => 0 end.

Definition copy_ok (m : seqlock_t) (p : seq_pc) : Prop :=
  match p with QCopy s l => Z.odd s = false /\ s <= sequence m /\ (s = sequence m -> l `prefix_of` cells m) | _ => True end.

Definition seq_inv (n : nat) (b : Z) (c : cfg seqlock_t seq_pc) : Prop :=
  reach (spin_tstep false) (start spin_init SIdle n) (spin_view c) /\
  0 <= sequence (shared c) /\ 0 <= budget (shared c) /\
  sequence (shared c) + 2 * budget (shared c) + wsum bumps (points c) <= 2 * b /\
  Z.odd (sequence (shared c)) = bool_decide (0 < tally in_section (points c)) /\
  Forall (copy_ok (shared c)) (points c).

Lemma prefix_next (l k : list Z) v : k !! length l = Some v -> l `prefix_of` k -> l ++ [v] `prefix_of` k.
Proof.
  intros Ev [z ->]. rewrite lookup_app_r, Nat.sub_diag in Ev by done. destruct z as [|x z]; [done|]. injection Ev as ->.
  exists z. by rewrite <-app_assoc.
Qed.

Lemma copy_ok_mono m m' p :
  sequence m <= sequence m' -> (sequence m' = sequence m -> cells m' = cells m \/ Z.odd (sequence m) = true) -> copy_ok m p -> copy_ok m' p.
Proof.
  intros Hle Hc. destruct p; try done. cbn. intros (Ho & Hs & Hl). split_and!; [done|lia|].
  intros E. destruct Hc as [->|Hodd]; [lia|apply Hl; lia|]. replace (sequence m) with s in Hodd by lia. congruence.
Qed.

(** What a step owes the invariant besides the spin lock's part. *)
Lemma seq_inv_intro n b c i p m' p' :
  seq_inv n b c -> points c !! i = Some p -> (m', p') ∈ seq_tstep i (shared c) p ->
  sequence (shared c) <= sequence m' -> (sequence m' = sequence (shared c) -> cells m' = cells (shared c) \/ Z.odd (sequence (shared c)) = true) ->
  0 <= budget m' -> sequence m' + 2 * budget m' + bumps p' <= sequence (shared c) + 2 * budget (shared c) + bumps p ->
  Z.odd (sequence m') = bool_decide (0 < tally in_section (points c) - b2z (in_section p) + b2z (in_section p')) -> copy_ok m' p' ->
  seq_inv n b (mk_cfg m' (<[i := p']> (points c))).
Proof.
  intros (Hr & H0 & Hb & Hsum & Hodd & Hok) Hp Hin Hle Hc Hb' Hs' Ho' Hp'. unfold seq_inv. cbn [points shared].
  rewrite (wsum_insert _ _ _ _ _ Hp), (tally_insert _ _ _ _ _ Hp). split_and!; [|lia|lia|lia|done|].
  - eapply rtc_r; [exact Hr|]. exists i. unfold spin_view. cbn [points shared]. rewrite list_fmap_insert.
    apply (step_intro _ i (spin_view c) (as_spin p)); [cbn; by rewrite list_lookup_fmap, Hp|]. by apply (spin_view_step i p m' p' c).
  - apply Forall_insert; [|done]. eapply Forall_impl; [exact Hok|]. intros q. by apply copy_ok_mono.
Qed.

(** A thread that holds the spin lock is the only one in a write section. *)
Lemma section_alone n b c i p :
  Z.of_nat n < 9223372036854775808 -> seq_inv n b c -> points c !! i = Some p -> as_spin p = SHeld ->
  tally in_section (points c) = b2z (in_section p).
Proof.
  intros Hn (Hr & _) Hp Hh. destruct (spin_inv_reach n _ Hn Hr) as (_ & _ & _ & Hor). cbn [spin_view points] in Hor.
  rewrite tally_fmap in Hor. pose proof (tally_nonneg in_section (points c)) as H0.
  pose proof (tally_in in_section _ _ _ Hp) as H1. destruct (decide (tally in_section (points c) = 0)) as [E|E].
  { destruct (in_section p); [specialize (H1 eq_refl); lia|done]. }
  destruct (tally_pos in_section (points c)) as (j & q & Hq & Hs); [lia|].
  assert (tally in_section (points c) <= tally (fun q => s_held (as_spin q)) (points c)) as Hsub.
  { apply tally_sub. by intros []. }
  destruct (decide (i = j)) as [<-|Hne].
  { rewrite Hp in Hq. injection Hq as ->. rewrite Hs in *. cbn. lia. }
  pose proof (tally_two (fun q => s_held (as_spin q)) (points c) i j p q Hne Hp Hq) as H2. cbn in H2. rewrite Hh in H2.
  destruct q; try done. specialize (H2 eq_refl eq_refl). lia.
Qed.

(** A step that leaves the sequence and the cells alone. *)
Ltac quiet Hgo Hsame := apply Hgo; try done; try (cbn; lia); try (rewrite Hsame; done); try (cbn; by left).

Lemma seq_inv_step n b i p m' p' c :
  Z.of_nat n < 9223372036854775808 -> b < 9223372036854775808 ->
  seq_inv n b c -> points c !! i = Some p -> (m', p') ∈ seq_tstep i (shared c) p -> seq_inv n b (mk_cfg m' (<[i := p']> (points c))).
Proof.
  intros Hn Hb Hinv Hp Hin. pose proof (section_alone n b c i p Hn Hinv Hp) as Halone.
  pose proof (seq_inv_intro n b c i p m' p' Hinv Hp Hin) as Hgo. pose proof Hinv as (_ & H0 & Hb0 & Hsum & Hodd & Hok).
  pose proof (wsum_le bumps (points c) i p ltac:(intros []; cbn; lia) Hp) as Hw.
  pose proof (Forall_lookup_1 _ _ _ _ Hok Hp) as Hpc.
  assert (forall q, in_section p = in_section q -> bool_decide (0 < tally in_section (points c) - b2z (in_section p) + b2z (in_section q)) =
    Z.odd (sequence (shared c))) as Hsame by (intros q <-; rewrite Hodd; apply bool_decide_ext; lia).
  destruct p; cbn in Hin, Hw, Hpc.
  - destruct (Z.ltb_spec 0 (budget (shared c))); step_cases Hin; quiet Hgo Hsame.
  - destruct p; cbn in Hin; try destruct (0 <=? _); try destruct (spin_wait _); step_cases Hin; quiet Hgo Hsame.
  - step_cases Hin. rewrite Halone in Hodd by done. cbn in Hodd. apply Hgo; cbn; unwrap; try done; try lia.
    rewrite Halone by done. cbn. by rewrite Z.odd_add, Hodd.
  - rewrite Halone in Hodd by done. cbn in Hodd. apply elem_of_cons in Hin as [[= -> ->]|Hin].
    + apply Hgo; cbn; unwrap; try done; try lia. rewrite Halone by done. cbn. by rewrite Z.odd_add, Hodd.
    + apply list_elem_of_In, in_map_iff in Hin as (kv & [= <- <-] & _). apply Hgo; cbn; try done; try lia; [by right|].
      rewrite Halone by done. by rewrite Hodd.
  - step_cases Hin. quiet Hgo Hsame.
  - destruct (Z.odd _) eqn:Eo; step_cases Hin; quiet Hgo Hsame.
    cbn. split_and!; [done|lia|]. intros _. apply prefix_nil.
  - destruct (cells (shared c) !! length l) as [v|] eqn:Ev; [|destruct (seqlock_read_retry _ _)]; step_cases Hin; quiet Hgo Hsame.
    destruct Hpc as (Ho & Hs & Hl). cbn. split_and!; [done|done|]. intros E. by apply prefix_next, Hl.
  - step_cases Hin. quiet Hgo Hsame.
Qed.

Lemma seq_inv_reach n b d c :
  Z.of_nat n < 9223372036854775808 -> 0 <= b < 9223372036854775808 -> reach seq_tstep (start (seqlock_init d b) QIdle n) c -> seq_inv n b c.
Proof.
  intros Hn Hb. apply reach_inv; [|intros; eapply seq_inv_step; [done|lia|done..]].
  unfold seq_inv, start, spin_view. cbn [points shared sequence seqlock_init budget writer_lock].
  rewrite fmap_replicate, wsum_replicate, tally_replicate by done. split_and!; [apply rtc_refl|lia..|done|by apply Forall_replicate].
Qed.

(** C12: a reader of the sequence lock that is told not to retry has copied the
    data exactly as they stand at that moment, and no writer is inside: the
    copy, made one cell at a time and without the lock, mixes no two versions.
    Fewer than 2^63 write sections keep the 64-bit sequence from coming round. *)
Theorem seqlock_read_consistent n b d c c' i s l l' :
  Z.of_nat n < 9223372036854775808 -> 0 <= b < 9223372036854775808 -> reach seq_tstep (start (seqlock_init d b) QIdle n) c ->
  step seq_tstep i c c' -> points c !! i = Some (QCopy s l) -> points c' !! i = Some (QDone l') ->
  l' = cells (shared c) /\ forall j, points c !! j <> Some QWrite.
Proof.
  intros Hn Hb Hr Hs Hi Hi'. destruct (seq_inv_reach n b d c Hn Hb Hr) as (_ & _ & _ & _ & Hodd & Hok).
  destruct (Forall_lookup_1 _ _ _ _ Hok Hi) as (Ho & Hle & Hl). destruct Hs as [p m' p' Hp Hin]. rewrite Hi in Hp. injection Hp as <-.
  cbn [points] in Hi'. rewrite list_lookup_insert_eq in Hi' by by eapply lookup_lt_Some. injection Hi' as ->. cbn in Hin.
  destruct (cells (shared c) !! length l) as [v|] eqn:Ev; [by step_cases Hin|].
  unfold seqlock_read_retry in Hin. destruct (Z.eqb_spec (sequence (shared c)) s) as [E|]; [|by step_cases Hin]. cbn in Hin.
  apply list_elem_of_singleton in Hin. injection Hin as _ ->. split.
  - destruct (Hl (eq_sym E)) as [z Ez]. rewrite Ez in Ev |- *. apply lookup_ge_None in Ev. rewrite length_app in Ev.
    destruct z; [by rewrite app_nil_r|cbn in Ev; lia].
  - intros j Hj. pose proof (tally_in in_section _ _ _ Hj eq_refl). rewrite E, Ho in Hodd.
    symmetry in Hodd. apply bool_decide_eq_false in Hodd. lia.
Qed.

End machine.

(** A reader that a writer overtakes copies again. *)
Definition overtaken : list (nat * nat) :=
  [(0,1); (0,0); (0,0); (1,2); (1,0); (1,0); (1,1); (1,2); (1,0); (1,0); (0,0); (0,0); (0,0); (0,0); (0,0)]%nat.

Lemma seqlock_read_consistent_witness : exists c c' s l,
  play (seq_tstep [(0%nat, 7); (1%nat, 8)]) overtaken (start (seqlock_init [1; 2] 1) QIdle 2) = Some c /\
  step (seq_tstep [(0%nat, 7); (1%nat, 8)]) 0 c c' /\ points c !! 0%nat = Some (QCopy s l) /\ l = cells (shared c).
Proof.
  do 4 eexists. split; [vm_compute; reflexivity|].
  assert (step (seq_tstep [(0%nat, 7); (1%nat, 8)]) 0 (mk_cfg (mk_seqlock 2 1 [7; 8] 0) [QCopy 2 [7; 8]; QIdle])
    (mk_cfg (mk_seqlock 2 1 [7; 8] 0) [QDone [7; 8]; QIdle])) as Hs by (eapply (take_step_step _ _ (0%nat, 0%nat)); reflexivity).
  split; [exact Hs|]. split; [reflexivity|].
  refine (proj1 (seqlock_read_consistent [(0%nat, 7); (1%nat, 8)] 2 1 [1; 2] _ _ 0 2 [7; 8] [7; 8] _ _ _ Hs _ _)); [done|done| |reflexivity|reflexivity].
  apply (play_reach _ overtaken). vm_compute. reflexivity.
Defined.

End Seqlock.
