(* ===== verification/Mutex.v ===== *)
(** Wait queues, the sleeping mutex and completions (src/kernel/sync/wait.c,
    mutex.c and completion.c).  A critical section of the queue's spin lock is
    one step.  The mutex has one owner, a free mutex with sleepers always has a
    thread on its way to it, and a thread in [mutex_lock] is followed by an
    acquisition; a completion that comes between the check and the sleep of
    [wait_for_completion] is missed. *)

From stdpp Require Import base tactics numbers option relations list.
From Stdlib Require Import ZArith Lia.
From S2P Require Import Prelude Conc.

Module Mutex.
Import Conc.

(** ** Wait queues *)

(** The tasks queued, oldest first, and whether each task's state is
    [TASK_RUNNING] ([true]) or [TASK_INTERRUPTIBLE]. *)
Record wait_queue := mk_wq { head : list nat; running : list bool }.

Definition wait_queue_init (n : nat) : wait_queue := mk_wq [] (replicate n true).

(** The wake-up of a task: [task_wake]. *)
Definition wake (t : nat) (r : list bool) : list bool := <[t := true]> r.

(** [wait_queue_arm] is [wait_queue_lock_and_enqueue]. *)
Definition wait_queue_arm (me : nat) (q : wait_queue) : wait_queue := mk_wq (head q ++ [me]) (<[me := false]> (running q)).
Definition wait_queue_disarm (me : nat) (q : wait_queue) : wait_queue :=
  mk_wq (if bool_decide (me ∈ head q) then filter (fun t => t <> me) (head q) else head q) (wake me (running q)).
Definition wait_queue_wake_one (q : wait_queue) : wait_queue :=
  match head q with [] => q | t :: l => mk_wq l (wake t (running q)) end.
Definition wait_queue_wake_all (q : wait_queue) : wait_queue := mk_wq [] (foldl (fun r t => wake t r) (running q) (head q)).

Lemma filter_absent (i : nat) (l : list nat) : i ∉ l -> filter (fun t => t <> i) l = l.
Proof. induction l as [|x l IH]; [done|]. intros [Hx Hl]%not_elem_of_cons. rewrite filter_cons_True by done. by rewrite IH. Qed.

(** Who may be on a queue: every task there is at a point where it has armed
    and not disarmed, and every such task whose state is still
    [TASK_INTERRUPTIBLE] is there. *)
Section queue.
Context {pc : Type} (queueing : pc -> bool).
Implicit Types (q : wait_queue) (ps : list pc) (p : pc).

Definition queue_ok q ps : Prop :=
  NoDup (head q) /\
  (forall i, i ∈ head q -> exists p, ps !! i = Some p /\ queueing p = true) /\
  (forall i p, ps !! i = Some p -> queueing p = true -> running q !! i = Some false -> i ∈ head q).

Lemma queue_ok_start n p : queueing p = false -> queue_ok (wait_queue_init n) (replicate n p).
Proof.
  intros Hp. split_and!; [constructor|intros i Hi; by apply not_elem_of_nil in Hi|]. intros i q [<- _]%lookup_replicate Hq. congruence.
Qed.

Lemma queue_ok_frame q ps i p p' : ps !! i = Some p -> queueing p' = queueing p -> queue_ok q ps -> queue_ok q (<[i := p']> ps).
Proof.
  intros Hp E (Hd & Hin & Hs). split_and!; [done|..].
  - intros j Hj. destruct (Hin j Hj) as (r & Hr & Hqr). destruct (decide (j = i)) as [->|].
    + exists p'. rewrite list_lookup_insert_eq by by eapply lookup_lt_Some. split; [done|]. congruence.
    + exists r. by rewrite list_lookup_insert_ne.
  - intros j r Hr Hqr. destruct (decide (j = i)) as [->|].
    + rewrite list_lookup_insert_eq in Hr by by eapply lookup_lt_Some. injection Hr as <-. apply (Hs i p); congruence.
    + rewrite list_lookup_insert_ne in Hr by done. by apply (Hs j r).
Qed.

Lemma queue_ok_arm q ps i p p' :
  ps !! i = Some p -> queueing p = false -> queueing p' = true -> queue_ok q ps -> queue_ok (wait_queue_arm i q) (<[i := p']> ps).
Proof.
  intros Hp E E' (Hd & Hin & Hs). assert (i ∉ head q) as Hi by (intros Hi; destruct (Hin i Hi) as (r & Hr & Hqr); congruence).
  unfold wait_queue_arm. split_and!; cbn [head running].
  - apply NoDup_app. split_and!; [done|intros x Hx ->%list_elem_of_singleton; done|apply NoDup_singleton].
  - intros j [Hj| ->%list_elem_of_singleton]%elem_of_app.
    + destruct (Hin j Hj) as (r & Hr & Hqr). exists r. by rewrite list_lookup_insert_ne by (intros ->; congruence).
    + exists p'. by rewrite list_lookup_insert_eq by by eapply lookup_lt_Some.
  - intros j r Hr Hqr Hrun. apply elem_of_app. destruct (decide (j = i)) as [->|]; [right; set_solver|left].
    rewrite list_lookup_insert_ne in Hr by done. rewrite list_lookup_insert_ne in Hrun by done. by apply (Hs j r).
Qed.

Lemma queue_ok_wake q ps i : queue_ok q ps -> queue_ok (mk_wq (head q) (wake i (running q))) ps.
Proof.
  intros (Hd & Hin & Hs). split_and!; [done..|]. cbn [head running]. intros j p Hp Hq Hr. apply (Hs j p); [done..|]. unfold wake in Hr.
  apply list_lookup_insert_Some in Hr as [(_ & Hf & _)|[_ Hr]]; [congruence|done].
Qed.

Lemma queue_ok_disarm q ps i p p' :
  ps !! i = Some p -> queueing p' = false -> queue_ok q ps -> queue_ok (wait_queue_disarm i q) (<[i := p']> ps).
Proof.
  intros Hp E' (Hd & Hin & Hs). unfold wait_queue_disarm.
  assert ((if bool_decide (i ∈ head q) then filter (fun t => t <> i) (head q) else head q) = filter (fun t => t <> i) (head q)) as ->.
  { case_bool_decide as Hi; [done|]. symmetry. by apply filter_absent. }
  split_and!; cbn [head running]; [by apply NoDup_filter|..].
  - intros j [Hne Hj]%list_elem_of_filter. destruct (Hin j Hj) as (r & Hr & Hqr). exists r. by rewrite list_lookup_insert_ne.
  - intros j r Hr Hqr Hrun. destruct (decide (j = i)) as [->|].
    { rewrite list_lookup_insert_eq in Hr by by eapply lookup_lt_Some. congruence. }
    unfold wake in Hrun. rewrite list_lookup_insert_ne in Hr by done. rewrite list_lookup_insert_ne in Hrun by done. apply list_elem_of_filter. split; [done|]. by apply (Hs j r).
Qed.

Lemma queue_ok_wake_one q ps : queue_ok q ps -> queue_ok (wait_queue_wake_one q) ps.
Proof.
  intros (Hd & Hin & Hs). unfold wait_queue_wake_one. destruct (head q) as [|t l] eqn:Eh; [split_and!; by rewrite ?Eh|].
  apply NoDup_cons in Hd as [Ht Hd]. split_and!; cbn [head running]; [done|intros j Hj; apply Hin; by right|].
  intros j p Hp Hq Hr. unfold wake in Hr. apply list_lookup_insert_Some in Hr as [(_ & Hf & _)|[Hne Hr]]; [congruence|].
  specialize (Hs j p Hp Hq Hr). apply elem_of_cons in Hs as [->|]; done.
Qed.

End queue.

(** ** The mutex *)

(** [mutex_t] *)
Record mutex := mk_mutex { owner : Z; wq : wait_queue }.

Definition mutex_init (n : nat) : mutex := mk_mutex 0 (wait_queue_init n).

(** [current->pid] of thread [i]; 0 is no process. *)
Definition pid (i : nat) : Z := Z.of_nat i + 1.

(** [arch_atomic_cas (&m->owner, 0, current->pid)] *)
Definition cas_owner (i : nat) (m : mutex) : mutex * bool := if owner m =? 0 then (mk_mutex (pid i) (wq m), true) else (m, false).
#[global] Arguments cas_owner : simpl never.
Definition with_wq (f : wait_queue -> wait_queue) (m : mutex) : mutex := mk_mutex (owner m) (f (wq m)).

(** Outside; at the two compare-and-swaps of [mutex_acquire k], the arming
    between them, the [schedule], and the disarming ([acquired] or not); at the
    [wait_queue_wake_one] of a cancelled acquisition; inside; at the
    [wait_queue_wake_one] of [mutex_unlock]; at [mutex_trylock].  [k] is the
    flag [interruptible]. *)
Inductive mx_pc :=
  | MIdle | MCas1 (k : bool) | MArm (k : bool) | MCas2 (k : bool) | MSched (k : bool) | MDis (k acquired : bool) | MCancel
  | MHeld | MWake | MTry.

(** A signal may be pending whenever [current->signal] is read, and a task
    may be woken from [schedule] by others than the queue. *)
Definition mx_tstep (i : nat) (m : mutex) (p : mx_pc) : list (mutex * mx_pc) :=
  match p with
  | MIdle => [(m, MIdle); (m, MCas1 false); (m, MCas1 true); (m, MTry)]
  | MCas1 k => let '(m', ok) := cas_owner i m in [(m', if ok then MHeld else MArm k)]
  | MArm k => [(with_wq (wait_queue_arm i) m, MCas2 k)]
  | MCas2 k =>
      let '(m', ok) := cas_owner i m in
      if ok then [(m', MDis k true)] else (m', MSched k) :: (if k then [(m', MDis k false)] else [])
  | MSched k =>
      let go := (with_wq (fun q => mk_wq (head q) (wake i (running q))) m, MDis k false) in
      if default true (running (wq m) !! i) then [go] else [(m, MSched k); go]
  | MDis k ok =>
      let m' := with_wq (wait_queue_disarm i) m in
      if ok then [(m', MHeld)] else (m', MCas1 k) :: (if k then [(m', MCancel)] else [])
  | MCancel => [(with_wq wait_queue_wake_one m, MIdle)]
  | MHeld => [(m, MHeld); (mk_mutex 0 (wq m), MWake)]
  | MWake => [(with_wq wait_queue_wake_one m, MIdle)]
  | MTry => let '(m', ok) := cas_owner i m in [(m', if ok then MHeld else MIdle)]
  end.

(** *** The invariant *)

(** It has the mutex. *)
Definition holds (p : mx_pc) : bool := match p with MHeld | MDis _ true => true | _ => false end.
(** It may be on the queue. *)
Definition queueing (p : mx_pc) : bool := match p with MCas2 _ | MSched _ | MDis _ _ => true | _ => false end.
(** It will compare-and-swap again or wake another before it sleeps. *)
Definition active (m : mutex) (i : nat) (p : mx_pc) : bool :=
  match p with
  | MCas1 _ | MArm _ | MCas2 _ | MDis _ false | MCancel | MWake => true
  | MSched _ => default true (running (wq m) !! i)
  | _ => false
  end.
Definition asleep (m : mutex) (i : nat) (p : mx_pc) : bool :=
  match p with MSched _ => negb (default true (running (wq m) !! i)) | _ => false end.

(** The owner is the pid of the one thread that has the mutex. *)
Definition owner_ok (o : Z) (ps : list mx_pc) : Prop :=
  (forall i p, ps !! i = Some p -> holds p = bool_decide (o = pid i)) /\ (o = 0 \/ exists i, (i < length ps)%nat /\ o = pid i).

(** A free mutex somebody sleeps for has a thread on its way to it. *)
Definition baton (m : mutex) (ps : list mx_pc) : Prop :=
  owner m = 0 -> forall i p, ps !! i = Some p -> asleep m i p = true -> exists j q, ps !! j = Some q /\ active m j q = true.

Definition mx_inv (c : cfg mutex mx_pc) : Prop :=
  owner_ok (owner (shared c)) (points c) /\ queue_ok queueing (wq (shared c)) (points c) /\ baton (shared c) (points c).

Lemma pid_inj i j : pid i = pid j -> i = j.
Proof. unfold pid. lia. Qed.

(** The owner after a step: unchanged, taken while free, or given up. *)
Lemma owner_ok_step o o' ps i p p' :
  ps !! i = Some p -> owner_ok o ps -> (o' = o /\ holds p' = holds p) \/ (o = 0 /\ o' = pid i /\ holds p' = true) \/ (holds p = true /\ o' = 0 /\ holds p' = false) ->
  owner_ok o' (<[i := p']> ps).
Proof.
  intros Hp [Hh Ho] Hcase. pose proof (Hh i p Hp) as Hi. pose proof (lookup_lt_Some _ _ _ Hp) as Hl. split.
  - intros j q Hq. apply list_lookup_insert_Some in Hq as [(<- & -> & _)|[Hne Hq]].
    + destruct Hcase as [[-> ->]|[(-> & -> & ->)|(E & -> & ->)]]; [done|by rewrite bool_decide_true|].
      rewrite bool_decide_false; [done|unfold pid; lia].
    + rewrite (Hh j q Hq). destruct Hcase as [[-> _]|[(-> & -> & _)|(E & -> & _)]]; apply bool_decide_ext; [done|unfold pid; lia|].
      rewrite E in Hi. symmetry in Hi. apply bool_decide_eq_true in Hi. unfold pid in *. lia.
  - rewrite length_insert. destruct Hcase as [[-> _]|[(_ & -> & _)|(_ & -> & _)]]; [done|right; by exists i|by left].
Qed.

Lemma wake_running t r : default true (wake t r !! t) = true.
Proof. unfold wake. destruct (decide (t < length r)%nat) as [H|H]; [by rewrite list_lookup_insert_eq|]. rewrite lookup_ge_None_2; [done|]. rewrite length_insert. lia. Qed.

Lemma default_true_false (x : option bool) : negb (default true x) = true -> x = Some false.
Proof. by destruct x as [[]|]. Qed.

Lemma cas_owner_cases i m :
  (owner m = 0 /\ cas_owner i m = (mk_mutex (pid i) (wq m), true)) \/ (owner m <> 0 /\ cas_owner i m = (m, false)).
Proof. unfold cas_owner. destruct (Z.eqb_spec (owner m) 0); [by left|by right]. Qed.

(** A point at which the thread is on its way to the mutex keeps the baton. *)
Lemma baton_active m ps i p p' : ps !! i = Some p -> active m i p' = true -> baton m (<[i := p']> ps).
Proof. intros Hp Ha _ j q _ _. exists i, p'. by rewrite list_lookup_insert_eq by by eapply lookup_lt_Some. Qed.

Lemma baton_owned m ps : owner m <> 0 -> baton m ps.
Proof. intros Ho Ho'. done. Qed.

(** Waking the oldest sleeper hands the baton on. *)
Lemma baton_wake_one m ps i p p' :
  ps !! i = Some p -> queueing p = false -> queueing p' = false ->
  owner_ok (owner m) ps -> queue_ok queueing (wq m) ps -> baton (with_wq wait_queue_wake_one m) (<[i := p']> ps).
Proof.
  intros Hp Hq Hq' [Hh _] (Hd & Hin & Hs) Ho j r Hr Hsl. cbn in Ho.
  assert (j <> i) as Hji.
  { intros ->. rewrite list_lookup_insert_eq in Hr by by eapply lookup_lt_Some. injection Hr as <-. by destruct p'. }
  rewrite list_lookup_insert_ne in Hr by done. unfold asleep in Hsl. cbn [with_wq wq] in Hsl. unfold wait_queue_wake_one in Hsl.
  unfold with_wq, wait_queue_wake_one. destruct (head (wq m)) as [|t l] eqn:Eh.
  { destruct r; try done. apply default_true_false in Hsl. specialize (Hs j _ Hr eq_refl Hsl). by apply not_elem_of_nil in Hs. }
  destruct (Hin t) as (q & Hqt & Hqq); [by left|]. exists t, q. rewrite list_lookup_insert_ne by congruence. split; [done|].
  destruct q as [| | | |k|k []| | | |]; try done; [apply wake_running|]. specialize (Hh t _ Hqt). cbn in Hh.
  symmetry in Hh. apply bool_decide_eq_true in Hh. unfold pid in Hh. lia.
Qed.

(** So does a thread that is neither asleep nor on its way. *)
Lemma baton_frame m ps i p p' :
  ps !! i = Some p -> active m i p = false -> asleep m i p' = false -> baton m ps -> baton m (<[i := p']> ps).
Proof.
  intros Hp Ha Hs Hb Ho j q Hq Hsl.
  assert (j <> i) as Hji.
  { intros ->. rewrite list_lookup_insert_eq in Hq by by eapply lookup_lt_Some. congruence. }
  rewrite list_lookup_insert_ne in Hq by done. destruct (Hb Ho j q Hq Hsl) as (k & r & Hr & Hra). exists k, r.
  by rewrite list_lookup_insert_ne by congruence.
Qed.

Lemma baton_taken i q ps : baton (mk_mutex (pid i) q) ps.
Proof. apply baton_owned. cbn. unfold pid. lia. Qed.

Lemma mx_inv_step i p m' p' c :
  mx_inv c -> points c !! i = Some p -> (m', p') ∈ mx_tstep i (shared c) p -> mx_inv (mk_cfg m' (<[i := p']> (points c))).
Proof.
  intros (Ho & Hq & Hb) Hp Hin. unfold mx_inv. cbn [points shared]. pose proof (owner_ok_step (owner (shared c)) (owner m') _ _ _ p' Hp Ho) as HO.
  pose proof (queue_ok_frame queueing (wq (shared c)) _ _ _ p' Hp) as HQ.
  destruct p; cbn in Hin.
  - step_cases Hin; split_and!; try (apply HO; by left); try (by apply HQ); by eapply baton_frame.
  - destruct (cas_owner_cases i (shared c)) as [[E Ec]|[E Ec]]; rewrite Ec in Hin; step_cases Hin; split_and!; try (by apply HQ);
      [apply HO; by auto|apply baton_taken|apply HO; by left|by eapply baton_active].
  - step_cases Hin. split_and!; [apply HO; by left|by eapply queue_ok_arm|by eapply baton_active].
  - destruct (cas_owner_cases i (shared c)) as [[E Ec]|[E Ec]]; rewrite Ec in Hin; [|destruct k]; step_cases Hin; split_and!; try (by apply HQ);
      try (apply HO; by auto); try apply baton_taken; by apply baton_owned.
  - destruct (default true _) in Hin; step_cases Hin; try (rewrite list_insert_id by done; done);
      (split_and!; [apply HO; by left|by apply queue_ok_wake, HQ|by eapply baton_active]).
  - destruct acquired; [|destruct k]; step_cases Hin;
      (split_and!; [apply HO; by left|by eapply queue_ok_disarm|try by eapply baton_active]).
    apply baton_owned. destruct Ho as [Hh _]. specialize (Hh i _ Hp). symmetry in Hh. apply bool_decide_eq_true in Hh.
    cbn. rewrite Hh. unfold pid. lia.
  - step_cases Hin. split_and!; [apply HO; by left|apply queue_ok_wake_one; by apply HQ|by eapply baton_wake_one].
  - step_cases Hin; [rewrite list_insert_id by done; done|]. split_and!; [apply HO; by auto|by apply HQ|by eapply baton_active].
  - step_cases Hin. split_and!; [apply HO; by left|apply queue_ok_wake_one; by apply HQ|by eapply baton_wake_one].
  - destruct (cas_owner_cases i (shared c)) as [[E Ec]|[E Ec]]; rewrite Ec in Hin; step_cases Hin; split_and!; try (by apply HQ);
      [apply HO; by auto|apply baton_taken|apply HO; by left|by apply baton_owned].
Qed.

Lemma mx_inv_reach n c : reach mx_tstep (start (mutex_init n) MIdle n) c -> mx_inv c.
Proof.
  apply reach_inv; [|intros; by eapply mx_inv_step]. split_and!.
  - split; [|by left]. intros i p [-> _]%lookup_replicate. cbn. rewrite bool_decide_false; [done|]. unfold pid. lia.
  - by apply queue_ok_start.
  - intros _ i p [-> _]%lookup_replicate. done.
Qed.

(** *** Progress *)

Abbreviation mx_acquired r n := (tally holds (points (at_time r n)) < tally holds (points (at_time r (S n)))) (only parsing).

(** In [mutex_lock] without the mutex. *)
Definition m_trying (p : mx_pc) : bool :=
  match p with MCas1 false | MArm false | MCas2 false | MSched false | MDis false false => true | _ => false end.
Definition m_in (p : mx_pc) : bool := match p with MHeld => true | _ => false end.

(** How many steps a thread can take while the mutex stays free. *)
Definition rank (p : mx_pc) : Z :=
  match p with MSched _ => 5 | MDis _ _ => 4 | MCancel | MWake => 3 | MIdle | MArm _ => 2 | _ => 1 end.

Lemma wake_keeps t j r : default true (r !! j) = true -> default true (wake t r !! j) = true.
Proof.
  intros H. destruct (decide (t = j)) as [->|Hne]; [apply wake_running|]. unfold wake. by rewrite list_lookup_insert_ne.
Qed.

(** Nobody else puts a running task to sleep. *)
Lemma others_awake i j m p m' p' :
  (m', p') ∈ mx_tstep i m p -> i <> j -> default true (running (wq m) !! j) = true -> default true (running (wq m') !! j) = true.
Proof.
  assert (forall q, default true (running q !! j) = true -> default true (running (wait_queue_wake_one q) !! j) = true) as Hone.
  { intros q. unfold wait_queue_wake_one. destruct (head q); [done|]. apply wake_keeps. }
  assert (wq (fst (cas_owner i m)) = wq m) as Hc by (unfold cas_owner; by destruct (owner m =? 0)).
  intros Hin Hne Hj. destruct p; cbn in Hin.
  - by step_cases Hin.
  - destruct (cas_owner i m) as [m2 ok]. cbn in Hc. step_cases Hin. by rewrite Hc.
  - step_cases Hin. cbn [with_wq wq wait_queue_arm running]. by rewrite list_lookup_insert_ne.
  - destruct (cas_owner i m) as [m2 ok]. cbn in Hc. destruct ok, k; step_cases Hin; by rewrite Hc.
  - destruct (default true (running (wq m) !! i)); step_cases Hin; cbn; try done; by apply wake_keeps.
  - destruct acquired, k; step_cases Hin; cbn; by apply wake_keeps.
  - step_cases Hin. by apply Hone.
  - by step_cases Hin.
  - step_cases Hin. by apply Hone.
  - destruct (cas_owner i m) as [m2 ok]. cbn in Hc. step_cases Hin. by rewrite Hc.
Qed.

Section progress.
Context (r : run mx_tstep) (i h : nat).
Hypothesis inv : forall n, mx_inv (at_time r n).
Hypothesis Hfair : fair mx_tstep r.

Lemma m_trying_until n :
  ~ mx_acquired r n -> m_trying <$> points (at_time r n) !! i = Some true -> m_trying <$> points (at_time r (S n)) !! i = Some true.
Proof.
  intros Hno Ht. destruct (decide (who r n = i)) as [Hw|Hne]; [|by rewrite run_stays].
  destruct (points (at_time r n) !! i) as [p|] eqn:Ep; [|done]. rewrite <-Hw in Ep.
  destruct (run_moves _ _ _ _ Ep) as (m' & p' & Hin & E). rewrite E in Hno |- *. cbn [points] in *.
  rewrite (tally_insert _ _ _ _ _ Ep) in Hno. rewrite <-Hw, list_lookup_insert_eq by by eapply lookup_lt_Some.
  destruct p as [|[]|[]|[]|[]|[] []| | | |]; try done; cbn in Hin, Hno;
    try destruct (cas_owner _ _) as [? []]; try destruct (default true _) in Hin; step_cases Hin; try done; cbn in Hno; lia.
Qed.

(** While the mutex is free and nobody takes it, each step of a thread that
    is on its way uses up some of its steps. *)
Lemma free_step n :
  owner (shared (at_time r n)) = 0 -> ~ mx_acquired r n ->
  owner (shared (at_time r (S n))) = 0 /\ wsum rank (points (at_time r (S n))) <= wsum rank (points (at_time r n)) /\
  (forall p, points (at_time r n) !! who r n = Some p -> active (shared (at_time r n)) (who r n) p = true ->
    wsum rank (points (at_time r (S n))) < wsum rank (points (at_time r n))).
Proof.
  intros Ho Hno. destruct (points (at_time r n) !! who r n) as [p|] eqn:Ep; [|by destruct (run_step _ r n); congruence].
  destruct (inv n) as ((Hh & _) & _). specialize (Hh _ _ Ep). rewrite bool_decide_false in Hh by (rewrite Ho; unfold pid; lia).
  destruct (run_moves _ _ _ _ Ep) as (m' & p' & Hin & E). rewrite E in Hno |- *. cbn [points shared] in *.
  rewrite (tally_insert _ _ _ _ _ Ep) in Hno. rewrite (wsum_insert _ _ _ _ _ Ep).
  enough (owner m' = 0 /\ rank p' <= rank p /\ (active (shared (at_time r n)) (who r n) p = true -> rank p' < rank p)) as (H1 & H2 & H3).
  { split_and!; [done|lia|]. intros q [= <-] Ha. specialize (H3 Ha). lia. }
  destruct (cas_owner_cases (who r n) (shared (at_time r n))) as [[_ Ec]|[? _]]; [|done].
  destruct p; cbn in Hin, Hh, Hno |- *; rewrite ?Ec in Hin; try (step_cases Hin; cbn in Hno; lia).
  - step_cases Hin; cbn; split_and!; done || lia.
  - step_cases Hin; cbn; split_and!; done || lia.
  - destruct (default true _) eqn:Ed in Hin |- *; step_cases Hin; cbn; split_and!; done || lia.
  - destruct acquired; [done|]. destruct k; step_cases Hin; cbn; split_and!; done || lia.
  - step_cases Hin; cbn; split_and!; done || lia.
  - step_cases Hin; cbn; split_and!; done || lia.
Qed.

Lemma mx_free_progress n :
  owner (shared (at_time r n)) = 0 -> m_trying <$> points (at_time r n) !! i = Some true -> exists m, (n <= m)%nat /\ mx_acquired r m.
Proof.
  intros Ho Ht. apply (measure_progress _ r (fun m => mx_acquired r m)
    (fun c => owner (shared c) = 0 /\ m_trying <$> points c !! i = Some true) (fun c => wsum rank (points c)) n); [| | |done].
  - intros m _. apply wsum_nonneg. intros []; cbn; lia.
  - intros m Hno [H1 H2]. destruct (free_step m H1 Hno) as (H3 & H4 & _). split; [|done]. split; [done|by apply m_trying_until].
  - intros m [H1 H2]. assert (exists j q, points (at_time r m) !! j = Some q /\ active (shared (at_time r m)) j q = true) as (j & q & Hq & Ha).
    { destruct (points (at_time r m) !! i) as [p|] eqn:Ep; [|done]. destruct (active (shared (at_time r m)) i p) eqn:Ea; [by exists i, p|].
      destruct (inv m) as (_ & _ & Hb). apply (Hb H1 i p Ep). destruct p as [|[]|[]|[]|[]|[] []| | | |]; try done. cbn in Ea |- *. by rewrite Ea. }
    destruct (own_turn _ r (fun m => mx_acquired r m \/ wsum rank (points (at_time r (S m))) < wsum rank (points (at_time r m)))
      (fun c => owner (shared c) = 0 /\ exists q, points c !! j = Some q /\ active (shared c) j q = true) j m) as [(k & Hk & Hev)|(k & Hk & Hw & Ho' & q' & Hq' & Ha')].
    + done.
    + rewrite <-(run_length _ r m). by eapply lookup_lt_Some.
    + split; [done|]. by exists q.
    + intros k Hno Hne [Hk (p & Hp & Hpa)]. destruct (free_step k Hk) as (Hk' & _); [tauto|]. split; [done|]. exists p.
      rewrite run_stays by done. split; [done|]. destruct (run_step _ r k) as [x m' p' Hx Hin]. cbn [shared].
      destruct p; try done. by eapply others_awake.
    + by exists k.
    + exists k. split; [done|]. destruct (decide (mx_acquired r k)) as [|Hno]; [by left|right]. rewrite <-Hw in Hq', Ha'. by eapply free_step.
Qed.

(** The holder is inside, or the mutex is free, until somebody takes it. *)
Lemma m_holder_until n :
  ~ mx_acquired r n -> owner (shared (at_time r n)) = 0 \/ points (at_time r n) !! h = Some MHeld ->
  owner (shared (at_time r (S n))) = 0 \/ points (at_time r (S n)) !! h = Some MHeld.
Proof.
  intros Hno [H|H]; [left; by apply free_step|]. destruct (decide (who r n = h)) as [Hw|Hne]; [|right; by rewrite run_stays].
  rewrite <-Hw in H |- *. destruct (run_moves _ _ _ _ H) as (m' & p' & Hin & E). rewrite E. cbn [points shared].
  cbn in Hin. step_cases Hin; [right|by left]. apply list_lookup_insert_eq. by eapply lookup_lt_Some.
Qed.

Hypothesis Hends : holds_end m_in r.

Lemma held_progress n :
  points (at_time r n) !! h = Some MHeld -> m_trying <$> points (at_time r n) !! i = Some true -> exists m, (n <= m)%nat /\ mx_acquired r m.
Proof.
  intros Hh Ht. destruct (Hends n h) as (m & Hm & Hout); [by rewrite Hh|].
  destruct (first_event (fun m => mx_acquired r m) n (m - n)) as [(a & Ha & Hacq & _)|Hno]; [exists a; split; [lia|done]|].
  destruct (until_event _ r (fun m => mx_acquired r m) (fun c => (owner (shared c) = 0 \/ points c !! h = Some MHeld) /\
    m_trying <$> points c !! i = Some true) n (m - n)) with (m := m) as [[Hz|Hin] Ht']; [split; [by right|done]| |done|lia|..].
  - intros a Hna [H1 H2]. split; [by apply m_holder_until|by apply m_trying_until].
  - destruct (mx_free_progress m Hz Ht') as (a & Ha & Hacq). exists a. split; [lia|done].
  - by rewrite Hin in Hout.
Qed.

Lemma taking_progress n k :
  points (at_time r n) !! h = Some (MDis k true) -> m_trying <$> points (at_time r n) !! i = Some true -> exists m, (n <= m)%nat /\ mx_acquired r m.
Proof.
  intros Hh Ht. destruct (own_turn _ r (fun m => mx_acquired r m)
    (fun c => points c !! h = Some (MDis k true) /\ m_trying <$> points c !! i = Some true) h n) as [|(m & Hm & Hw & H1 & H2)]; [done|..|done|].
  - rewrite <-(run_length _ r n). by eapply lookup_lt_Some.
  - done.
  - intros m Hno Hne [H1 H2]. split; [by rewrite run_stays|by apply m_trying_until].
  - destruct (decide (mx_acquired r m)) as [|Hno]; [by exists m|].
    destruct (held_progress (S m)) as (a & Ha & Hacq); [|by apply m_trying_until|exists a; split; [lia|done]].
    rewrite <-Hw in H1 |- *. destruct (run_moves _ _ _ _ H1) as (m' & p' & Hin & E). rewrite E. cbn in Hin |- *. step_cases Hin.
    apply list_lookup_insert_eq. by eapply lookup_lt_Some.
Qed.

End progress.

(** C14: the kernel mutex has at most one holder in every interleaving of
    [mutex_lock], [mutex_lock_interruptible], [mutex_trylock] and
    [mutex_unlock], and loses no wake-up: when it is free and a task sleeps on
    its queue, another thread is on its way to it, or about to wake one. *)
Theorem mutex_exclusion n c :
  reach mx_tstep (start (mutex_init n) MIdle n) c ->
  (forall i j p q, points c !! i = Some p -> points c !! j = Some q -> holds p = true -> holds q = true -> i = j) /\
  (owner (shared c) = 0 -> forall i p, points c !! i = Some p -> asleep (shared c) i p = true ->
    exists j q, points c !! j = Some q /\ active (shared c) j q = true).
Proof.
  intros Hr. destruct (mx_inv_reach n c Hr) as ((Hh & _) & _ & Hb). split; [|exact Hb].
  intros i j p q Hp Hq Hhp Hhq. pose proof (Hh i p Hp) as E1. pose proof (Hh j q Hq) as E2. rewrite Hhp in E1. rewrite Hhq in E2.
  symmetry in E1, E2. apply bool_decide_eq_true in E1. apply bool_decide_eq_true in E2. apply pid_inj. congruence.
Qed.

(** C9: a task in [mutex_lock] is followed by an acquisition of the mutex:
    under a fair schedule in which critical sections end, whatever signals
    arrive and however many interruptible waiters give up after they consumed
    the wake-up of an unlock. *)
Theorem mutex_lock_progress (r : run mx_tstep) k i n :
  at_time r 0 = start (mutex_init k) MIdle k -> fair mx_tstep r -> holds_end m_in r ->
  m_trying <$> points (at_time r n) !! i = Some true -> exists m, (n <= m)%nat /\ mx_acquired r m.
Proof.
  intros H0 Hf He Ht.
  assert (forall m, mx_inv (at_time r m)) as inv by (intros m; apply (mx_inv_reach k); rewrite <-H0; apply run_reach).
  destruct (inv n) as ((Hh & [Ho|(h & Hl & Ho)]) & _); [by eapply mx_free_progress|].
  destruct (lookup_lt_is_Some_2 _ _ Hl) as [p Hp]. specialize (Hh h p Hp). rewrite bool_decide_true in Hh by done.
  destruct p as [| | | | |k' []| | | |]; try done; [by eapply taking_progress|by eapply held_progress].
Qed.

(** Two tasks that contend: the second sleeps until the first unlocks. *)
Definition contend_mx : list (nat * nat) :=
  [(0,1); (0,0); (1,1); (1,0); (1,0); (1,0); (0,1); (0,0); (1,0); (1,0); (1,0); (1,1); (1,0)]%nat.

Lemma contend_mx_loops : play mx_tstep contend_mx (start (mutex_init 2) MIdle 2) = Some (start (mutex_init 2) MIdle 2).
Proof. vm_compute. reflexivity. Qed.

Definition contend_mx_run : run mx_tstep := loop_run _ contend_mx (start (mutex_init 2) MIdle 2) ltac:(discriminate) contend_mx_loops.

Lemma mutex_exclusion_witness : exists c,
  play mx_tstep (take 7 contend_mx) (start (mutex_init 2) MIdle 2) = Some c /\ owner (shared c) = 0 /\ points c = [MWake; MSched false] /\
  asleep (shared c) 1 (MSched false) = true /\ exists j q, points c !! j = Some q /\ active (shared c) j q = true.
Proof.
  eexists. split; [vm_compute; reflexivity|]. do 3 (split; [reflexivity|]).
  refine (proj2 (mutex_exclusion 2 _ _) _ 1%nat (MSched false) _ _); [|reflexivity..]. apply (play_reach _ (take 7 contend_mx)). vm_compute. reflexivity.
Defined.

Lemma mutex_lock_progress_witness : exists m, (6 <= m)%nat /\ mx_acquired contend_mx_run m.
Proof.
  apply (mutex_lock_progress contend_mx_run 2 1 6); [reflexivity|..|reflexivity].
  - apply loop_fair. intros i Hi. cbn in Hi. destruct i as [|[|i]]; [..|lia]; apply (bool_decide_unpack _); vm_compute; exact I.
  - apply loop_holds_end. intros [|[|i]]; done.
Defined.

(** ** Completions *)

(** [completion_t] *)
Record completion := mk_completion { done_count : Z; cwq : wait_queue }.

(** [wait_for_completion]: at the test of [c->done], the enqueueing and the
    [schedule] of [wait_queue_sleep], its disarming, and the load and the store
    of [c->done--]; then [complete]: the atomic increment and the wake-up. *)
Inductive cp_pc := CTest | CArm | CSched | CDis | CLoad | CStore (v : Z) | CGot | CAdd | CWake | CEnd.

Definition cp_tstep (i : nat) (c : completion) (p : cp_pc) : list (completion * cp_pc) :=
  match p with
  | CTest => [(c, if done_count c =? 0 then CArm else CLoad)]
  | CArm => [(mk_completion (done_count c) (wait_queue_arm i (cwq c)), CSched)]
  | CSched => [(c, if default true (running (cwq c) !! i) then CDis else CSched)]
  | CDis => [(mk_completion (done_count c) (wait_queue_disarm i (cwq c)), CTest)]
  | CLoad => [(c, CStore (sint32 (done_count c - 1)))]
  | CStore v => [(mk_completion v (cwq c), CGot)]
  | CAdd => [(mk_completion (sint32 (done_count c + 1)) (cwq c), CWake)]
  | CWake => [(mk_completion (done_count c) (wait_queue_wake_one (cwq c)), CEnd)]
  | CGot | CEnd => []
  end.

(** The completion comes between the test and the enqueueing: it is counted,
    it wakes nobody, and the waiter sleeps for ever. *)
Theorem completion_lost_wakeup :
  let c0 := mk_cfg (mk_completion 0 (wait_queue_init 2)) [CTest; CAdd] in
  let c1 := mk_cfg (mk_completion 1 (mk_wq [0%nat] [false; true])) [CSched; CEnd] in
  reach cp_tstep c0 c1 /\ forall c, reach cp_tstep c1 c -> c = c1.
Proof.
  intros c0 c1. split; [apply (play_reach _ [(0,0); (1,0); (1,0); (0,0)]%nat); vm_compute; reflexivity|].
  intros c. apply (reach_inv _ (fun c => c = c1)); [done|]. intros [|[|i]] p m' p' ? -> Hp Hin; [..|done]; injection Hp as <-; vm_compute in Hin;
    by step_cases Hin.
Qed.

(** [c->done--] is a load and a store: a completion between them is lost. *)
Theorem completion_lost_count :
  let c0 := mk_cfg (mk_completion 1 (wait_queue_init 2)) [CTest; CAdd] in
  (fun c => (done_count (shared c), points c)) <$> play cp_tstep [(0,0); (0,0); (1,0); (1,0); (0,0)]%nat c0 = Some (0, [CGot; CEnd]).
Proof. vm_compute. reflexivity. Qed.

End Mutex.
