(* ===== verification/Futex.v ===== *)
(** Futexes and the pthread mutex on them (src/kernel/sync/futex.c and
    src/libc/pthread/mutex.c): the user-space 0/1/2 protocol interleaved with
    the kernel's bucket.  A mutex has one holder, however many share its
    bucket.  With a bucket to itself no wake-up is lost, and a thread in
    [pthread_mutex_lock] is followed by an acquisition; two mutexes of one page
    share a bucket, and a wake-up for one goes to a waiter of the other. *)

From stdpp Require Import base tactics numbers option relations list.
From Stdlib Require Import ZArith Lia.
From S2P Require Import Prelude Conc Mutex.

Module Futex.
Import Conc Mutex.

(** ** The kernel side *)

Abbreviation FUTEX_BUCKETS := 64 (only parsing).

(** The index of the bucket: the page, not the address within it. *)
Definition futex_hash (pgd uaddr : Z) : Z := Z.land (Z.lxor pgd (Z.shiftr uaddr 12)) (FUTEX_BUCKETS - 1).

(** The words user space synchronises on, and one bucket with its lock. *)
Record fmem := mk_fmem { words : list Z; locked : bool; bucket : wait_queue }.

Definition word (m : fmem) (a : nat) : Z := default 0 (words m !! a).
Definition set_word (a : nat) (v : Z) (m : fmem) : fmem := mk_fmem (<[a := v]> (words m)) (locked m) (bucket m).
Definition with_locked (b : bool) (m : fmem) : fmem := mk_fmem (words m) b (bucket m).
Definition with_bucket (f : wait_queue -> wait_queue) (m : fmem) : fmem := mk_fmem (words m) (locked m) (f (bucket m)).

(** The loop of [do_futex_wake]: the bucket and how many were woken. *)
Fixpoint wake_up_to (val : nat) (q : wait_queue) : wait_queue * Z :=
  match val, head q with
  | S val, _ :: _ => let '(q', k) := wake_up_to val (wait_queue_wake_one q) in (q', k + 1)
  | _, _ => (q, 0)
  end.
Definition do_futex_wake (val : Z) (q : wait_queue) : wait_queue * Z := wake_up_to (Z.to_nat val) q.

(** ** The threads *)

(** On the mutex at address [a]: at the compare-and-swap and at the exchange
    of [pthread_mutex_lock]; in [do_futex_wait] taking the bucket's lock,
    reading the word, enqueueing and unlocking, in [schedule], cleaning up;
    inside; at the store and at the [FUTEX_WAKE] of [pthread_mutex_unlock]; at
    [pthread_mutex_trylock]. *)
Inductive pt_pc :=
  | PIdle | PCas (a : nat) | PXchg (a : nat) | PLock (a : nat) | PRead (a : nat) | PEnq (a : nat) | PSched (a : nat) | PClean (a : nat)
  | PHeld (a : nat) | PUn (a : nat) | PWake (a : nat) | PTry (a : nat).

(** [atomic_cas32]: the old value tells whether it stored. *)
Definition atomic_cas32 (a : nat) (old new : Z) (m : fmem) : fmem * bool :=
  if word m a =? old then (set_word a new m, true) else (m, false).

(** The steps of [do_futex_wait] on an address that passes its checks and
    with [val] 2: taking the bucket's lock, comparing the word, enqueueing, the
    [schedule], and the clean-up, which takes the lock only while the node is
    still linked.  A signal may end the sleep.  Whatever it returns,
    [pthread_mutex_lock] exchanges again. *)
Definition do_futex_wait_step (i : nat) (m : fmem) (p : pt_pc) : list (fmem * pt_pc) :=
  match p with
  | PLock a => [if locked m then (m, PLock a) else (with_locked true m, PRead a)]
  | PRead a => [if word m a =? 2 then (m, PEnq a) else (with_locked false m, PXchg a)]
  | PEnq a => [(with_locked false (with_bucket (wait_queue_arm i) m), PSched a)]
  | PSched a => if default true (running (bucket m) !! i) then [(m, PClean a)] else [(m, PSched a); (m, PClean a)]
  | PClean a =>
      [if bool_decide (i ∈ head (bucket m)) && locked m then (m, PClean a) else (with_bucket (wait_queue_disarm i) m, PXchg a)]
  | _ => []
  end.

Definition pt_tstep (i : nat) (m : fmem) (p : pt_pc) : list (fmem * pt_pc) :=
  match p with
  | PIdle => (m, PIdle) :: map (fun a => (m, PCas a)) (seq 0 (length (words m))) ++ map (fun a => (m, PTry a)) (seq 0 (length (words m)))
  | PCas a => let '(m', ok) := atomic_cas32 a 0 1 m in [(m', if ok then PHeld a else PXchg a)]
  | PXchg a => [(set_word a 2 m, if word m a =? 0 then PHeld a else PLock a)]
  | PLock _ | PRead _ | PEnq _ | PSched _ | PClean _ => do_futex_wait_step i m p
  | PHeld a => let '(m', ok) := atomic_cas32 a 1 0 m in [(m, PHeld a); (m', if ok then PIdle else PUn a)]
  | PUn a => [(set_word a 0 m, PWake a)]
  | PWake a => [if locked m then (m, PWake a) else (with_bucket (fun q => fst (do_futex_wake 1 q)) m, PIdle)]
  | PTry a => let '(m', ok) := atomic_cas32 a 0 1 m in [(m', if ok then PHeld a else PIdle)]
  end.

Definition pthread_mutex_init (mutexes n : nat) : fmem := mk_fmem (replicate mutexes 0) false (wait_queue_init n).

(** ** One mutex in the bucket *)

Definition only (p : pt_pc) : bool :=
  match p with
  | PIdle => true
  | PCas a | PXchg a | PLock a | PRead a | PEnq a | PSched a | PClean a | PHeld a | PUn a | PWake a | PTry a => (a =? 0)%nat
  end.

Definition p_holds (p : pt_pc) : bool := match p with PHeld _ | PUn _ => true | _ => false end.
Definition p_locks (p : pt_pc) : bool := match p with PRead _ | PEnq _ => true | _ => false end.
Definition p_queueing (p : pt_pc) : bool := match p with PSched _ | PClean _ => true | _ => false end.
(** It sleeps, or is about to although the word may have changed. *)
Definition p_asleep (m : fmem) (i : nat) (p : pt_pc) : bool :=
  match p with PEnq _ => true | PSched _ => negb (default true (running (bucket m) !! i)) | _ => false end.
(** It will mark the word as contended or wake a waiter. *)
Definition p_active (m : fmem) (i : nat) (p : pt_pc) : bool :=
  match p with PXchg _ | PClean _ | PWake _ => true | PSched _ => default true (running (bucket m) !! i) | _ => false end.

Definition pt_baton (m : fmem) (ps : list pt_pc) : Prop :=
  forall i p, ps !! i = Some p -> p_asleep m i p = true -> word m 0 = 2 \/ exists j q, ps !! j = Some q /\ p_active m j q = true.

Definition pt_inv (c : cfg fmem pt_pc) : Prop :=
  length (words (shared c)) = 1%nat /\ Forall (fun p => only p = true) (points c) /\
  tally p_holds (points c) = b2z (negb (word (shared c) 0 =? 0)) /\ tally p_locks (points c) = b2z (locked (shared c)) /\
  queue_ok p_queueing (bucket (shared c)) (points c) /\ pt_baton (shared c) (points c).

Lemma futex_wake_1 q : fst (do_futex_wake 1 q) = wait_queue_wake_one q.
Proof. by destruct q as [[|t l] r]. Qed.

Section words.
Context (m : fmem).
Hypothesis Hlen : length (words m) = 1%nat.

Lemma word_set v : word (set_word 0 v m) 0 = v.
Proof. unfold word, set_word. cbn [words]. rewrite list_lookup_insert_eq by lia. done. Qed.

Lemma cas32_cases old new :
  (word m 0 = old /\ atomic_cas32 0 old new m = (set_word 0 new m, true)) \/ (word m 0 <> old /\ atomic_cas32 0 old new m = (m, false)).
Proof. unfold atomic_cas32. destruct (Z.eqb_spec (word m 0) old); [by left|by right]. Qed.

End words.
#[global] Arguments atomic_cas32 : simpl never.
#[global] Arguments word : simpl never.

(** The cases in which the baton needs no argument: the word is contended, or
    the thread that stepped is on its way. *)
Lemma pt_baton_word m ps : word m 0 = 2 -> pt_baton m ps.
Proof. intros Hw i p _ _. by left. Qed.

Lemma pt_baton_active m ps i p p' : ps !! i = Some p -> p_active m i p' = true -> pt_baton m (<[i := p']> ps).
Proof. intros Hp Ha j q _ _. right. exists i, p'. by rewrite list_lookup_insert_eq by by eapply lookup_lt_Some. Qed.

(** The thread that stepped was not on its way and does not sleep now, and
    the rest is as it was. *)
Lemma pt_baton_frame m m' ps i p p' :
  ps !! i = Some p -> p_active m i p = false -> p_asleep m' i p' = false -> (word m 0 = 2 -> word m' 0 = 2) -> bucket m' = bucket m ->
  pt_baton m ps -> pt_baton m' (<[i := p']> ps).
Proof.
  intros Hp Ha Hs Hw Eb Hb j q Hq Hsl.
  assert (j <> i) as Hji.
  { intros ->. rewrite list_lookup_insert_eq in Hq by by eapply lookup_lt_Some. congruence. }
  rewrite list_lookup_insert_ne in Hq by done. destruct (Hb j q Hq) as [E|(k & r & Hr & Hra)].
  - unfold p_asleep in *. by rewrite Eb in Hsl.
  - left. by apply Hw.
  - right. exists k, r. rewrite list_lookup_insert_ne by congruence. split; [done|]. unfold p_active in *. by rewrite Eb.
Qed.

(** The thread that slept, or was about to, still is. *)
Lemma pt_baton_sleep m ps i p m' p' :
  ps !! i = Some p -> p_asleep m i p = true -> words m' = words m ->
  (forall j q, j <> i -> ps !! j = Some q -> p_active m j q = true -> p_active m' j q = true) -> p_active m i p = false ->
  pt_baton m ps -> pt_baton m' (<[i := p']> ps).
Proof.
  intros Hp Hs Ew Hact Ha Hb j q _ _. destruct (Hb i p Hp Hs) as [E|(k & r & Hr & Hra)].
  - left. unfold word in *. by rewrite Ew.
  - right. exists k, r. assert (k <> i) by congruence. rewrite list_lookup_insert_ne by done. split; [done|]. by apply Hact.
Qed.

Lemma pt_baton_wake m ps i p :
  ps !! i = Some p -> p_queueing p = false -> p_locks p = false -> tally p_locks ps = 0 -> queue_ok p_queueing (bucket m) ps ->
  pt_baton (with_bucket (fun q => fst (do_futex_wake 1 q)) m) (<[i := PIdle]> ps).
Proof.
  intros Hp Hq Hl Hlk (_ & Hin & Hs) j r Hr Hsl. right.
  assert (j <> i) as Hji.
  { intros ->. rewrite list_lookup_insert_eq in Hr by by eapply lookup_lt_Some. by injection Hr as <-. }
  rewrite list_lookup_insert_ne in Hr by done.
  destruct r as [| | | | |a|a| | | | |]; try done; [pose proof (tally_in p_locks _ _ _ Hr eq_refl); lia|].
  unfold p_asleep in Hsl. cbn [with_bucket bucket] in Hsl. unfold with_bucket. rewrite futex_wake_1 in Hsl |- *. unfold wait_queue_wake_one in *.
  destruct (head (bucket m)) as [|t l] eqn:Eh.
  { apply default_true_false in Hsl. specialize (Hs j _ Hr eq_refl Hsl). by apply not_elem_of_nil in Hs. }
  destruct (Hin t) as (q & Hqt & Hqq); [by left|]. exists t, q. rewrite list_lookup_insert_ne by congruence. split; [done|].
  destruct q; try done. apply wake_running.
Qed.

(** What a step owes the invariant besides the queue and the baton. *)
Lemma pt_inv_intro c i p m' p' :
  pt_inv c -> points c !! i = Some p -> length (words m') = 1%nat -> only p' = true ->
  b2z (negb (word m' 0 =? 0)) = b2z (negb (word (shared c) 0 =? 0)) - b2z (p_holds p) + b2z (p_holds p') ->
  b2z (locked m') = b2z (locked (shared c)) - b2z (p_locks p) + b2z (p_locks p') ->
  queue_ok p_queueing (bucket m') (<[i := p']> (points c)) -> pt_baton m' (<[i := p']> (points c)) ->
  pt_inv (mk_cfg m' (<[i := p']> (points c))).
Proof.
  intros (Hl & Ho & Hh & Hk & _) Hp Hl' Ho' Hh' Hk' Hq Hb. unfold pt_inv. cbn [points shared]. rewrite !(tally_insert _ _ _ _ _ Hp).
  split_and!; [done|by apply Forall_insert|lia|lia|done|done].
Qed.

(** The obligations of [pt_inv_intro] that are computations. *)
Ltac pt_step Hp :=
  eapply pt_inv_intro; [done|exact Hp|..];
  repeat match goal with
  | |- context [word (with_locked ?b ?m) ?a] => change (word (with_locked b m) a) with (word m a)
  | |- context [word (with_bucket ?f ?m) ?a] => change (word (with_bucket f m) a) with (word m a)
  | |- context [word (set_word 0 ?v ?m) 0] => rewrite (word_set m) by done
  end; cbn [set_word with_locked with_bucket words locked bucket only p_holds p_locks b2z];
  rewrite ?length_insert; try done; try lia.

Lemma pt_inv_step i p m' p' c :
  pt_inv c -> points c !! i = Some p -> (m', p') ∈ pt_tstep i (shared c) p -> pt_inv (mk_cfg m' (<[i := p']> (points c))).
Proof.
  intros Hinv Hp Hin. pose proof Hinv as (Hl & Ho & Hh & Hk & Hq & Hb).
  pose proof (Forall_lookup_1 _ _ _ _ Ho Hp) as Honly. pose proof (tally_in p_holds _ _ _ Hp) as Hh1.
  assert (forall q, p_queueing q = p_queueing p -> queue_ok p_queueing (bucket (shared c)) (<[i := q]> (points c))) as HQ
    by (intros; by eapply queue_ok_frame).
  pose proof (tally_in p_locks _ _ _ Hp) as Hk1.
  destruct p as [|a|a|a|a|a|a|a|a|a|a|a]; cbn in Honly, Hh1, Hk1; try (apply Nat.eqb_eq in Honly as ->); cbn [pt_tstep do_futex_wait_step] in Hin.
  - rewrite Hl in Hin. cbn in Hin. step_cases Hin; pt_step Hp; try (by apply HQ); by eapply pt_baton_frame.
  - destruct (cas32_cases (shared c) 0 1) as [[E Ec]|[E Ec]]; rewrite Ec in Hin; step_cases Hin; pt_step Hp; try (by apply HQ).
    + by rewrite E.
    + eapply (pt_baton_frame (shared c)); try done. by rewrite E.
    + by eapply pt_baton_active.
  - destruct (Z.eqb_spec (word (shared c) 0) 0) as [E|E]; step_cases Hin; pt_step Hp; try (by apply HQ).
    all: try (by apply pt_baton_word, word_set). by rewrite E.
    rewrite (proj2 (Z.eqb_neq _ _) E). done.
  - destruct (locked (shared c)) eqn:Ek; step_cases Hin; [rewrite list_insert_id by done; by destruct c|].
    pt_step Hp; [by rewrite Ek|by apply HQ|by eapply pt_baton_frame].
  - specialize (Hk1 eq_refl). destruct (Z.eqb_spec (word (shared c) 0) 2) as [E|E]; step_cases Hin; pt_step Hp; try (by apply HQ).
    + by apply pt_baton_word.
    + destruct (locked (shared c)); cbn in *; lia.
    + by eapply pt_baton_active.
  - specialize (Hk1 eq_refl). step_cases Hin. pt_step Hp.
    + destruct (locked (shared c)); cbn in *; lia.
    + by eapply queue_ok_arm.
    + eapply (pt_baton_sleep (shared c)); try done. intros j q Hne _. unfold p_active. cbn [with_bucket with_locked bucket wait_queue_arm running].
      by rewrite list_lookup_insert_ne.
  - destruct (default true _) eqn:Er in Hin; step_cases Hin; try (rewrite list_insert_id by done; by destruct c);
      (pt_step Hp; [by apply HQ|by eapply pt_baton_active]).
  - destruct (bool_decide _ && _) eqn:E in Hin; step_cases Hin; [rewrite list_insert_id by done; by destruct c|].
    pt_step Hp; [by eapply queue_ok_disarm|by eapply pt_baton_active].
  - specialize (Hh1 eq_refl). destruct (cas32_cases (shared c) 1 0) as [[E Ec]|[E Ec]]; rewrite Ec in Hin; step_cases Hin;
      try (rewrite list_insert_id by done; by destruct c); pt_step Hp; try (by apply HQ).
    + by rewrite E.
    + eapply (pt_baton_frame (shared c)); try done. by rewrite E.
    + by eapply pt_baton_frame.
  - specialize (Hh1 eq_refl). step_cases Hin. pt_step Hp; [|by apply HQ|by eapply pt_baton_active].
    destruct (word (shared c) 0 =? 0); cbn in *; lia.
  - destruct (locked (shared c)) eqn:Ek; step_cases Hin; [rewrite list_insert_id by done; by destruct c|].
    pt_step Hp; [rewrite futex_wake_1; apply queue_ok_wake_one; by apply HQ|by eapply pt_baton_wake].
  - destruct (cas32_cases (shared c) 0 1) as [[E Ec]|[E Ec]]; rewrite Ec in Hin; step_cases Hin; pt_step Hp; try (by apply HQ).
    + by rewrite E.
    + eapply (pt_baton_frame (shared c)); try done. by rewrite E.
    + by eapply pt_baton_frame.
Qed.

Lemma pt_inv_reach n c : reach pt_tstep (start (pthread_mutex_init 1 n) PIdle n) c -> pt_inv c.
Proof.
  apply reach_inv; [|intros; by eapply pt_inv_step]. unfold pt_inv, start. cbn [points shared].
  rewrite !tally_replicate by done. split_and!; [done|by apply Forall_replicate|done|done|by apply queue_ok_start|].
  intros i p [-> _]%lookup_replicate. done.
Qed.

(** *** Any number of mutexes in the bucket *)

Definition on_word (k : nat) (p : pt_pc) : Prop :=
  match p with
  | PIdle => True
  | PCas a | PXchg a | PLock a | PRead a | PEnq a | PSched a | PClean a | PHeld a | PUn a | PWake a | PTry a => (a < k)%nat
  end.
(** It has the mutex at [a]. *)
Definition p_holds_at (a : nat) (p : pt_pc) : bool := match p with PHeld b | PUn b => (b =? a)%nat | _ => false end.

(** A mutex has one holder when its word is not 0, and none otherwise. *)
Definition held_once (c : cfg fmem pt_pc) : Prop :=
  Forall (on_word (length (words (shared c)))) (points c) /\
  forall a, tally (p_holds_at a) (points c) = b2z (negb (word (shared c) a =? 0)).

Lemma word_set_at m a b v : (a < length (words m))%nat -> word (set_word a v m) b = if (b =? a)%nat then v else word m b.
Proof.
  intros Ha. unfold word, set_word. cbn [words]. destruct (Nat.eqb_spec b a) as [->|]; [by rewrite list_lookup_insert_eq|by rewrite list_lookup_insert_ne].
Qed.

Lemma held_once_same c i p m' p' :
  held_once c -> points c !! i = Some p -> words m' = words (shared c) -> on_word (length (words (shared c))) p' ->
  (forall a, p_holds_at a p' = p_holds_at a p) -> held_once (mk_cfg m' (<[i := p']> (points c))).
Proof.
  intros [Ho Hh] Hp Ew Ho' Ha. unfold held_once. cbn [points shared]. rewrite Ew. split; [by apply Forall_insert|].
  intros a. rewrite (tally_insert _ _ _ _ _ Hp), Ha, Hh. unfold word. rewrite Ew. lia.
Qed.

(** A step that stores [v] in the word at [a]. *)
Lemma held_once_store c i p a v p' :
  held_once c -> points c !! i = Some p -> (a < length (words (shared c)))%nat -> on_word (length (words (shared c))) p' ->
  (forall b, b <> a -> p_holds_at b p' = p_holds_at b p) ->
  b2z (negb (v =? 0)) = b2z (negb (word (shared c) a =? 0)) - b2z (p_holds_at a p) + b2z (p_holds_at a p') ->
  held_once (mk_cfg (set_word a v (shared c)) (<[i := p']> (points c))).
Proof.
  intros [Ho Hh] Hp Ha Ho' Hb Hv. unfold held_once. cbn [points shared]. split; [cbn [set_word words]; rewrite length_insert; by apply Forall_insert|].
  intros b. rewrite (tally_insert _ _ _ _ _ Hp), Hh, word_set_at by done. destruct (Nat.eqb_spec b a) as [->|Hne]; [lia|rewrite Hb by done; lia].
Qed.

Lemma held_once_step i p m' p' c :
  held_once c -> points c !! i = Some p -> (m', p') ∈ pt_tstep i (shared c) p -> held_once (mk_cfg m' (<[i := p']> (points c))).
Proof.
  intros Hc Hp Hin. pose proof Hc as [Ho Hh]. pose proof (Forall_lookup_1 _ _ _ _ Ho Hp) as Hon.
  assert (forall a, p_holds_at a p = true -> word (shared c) a <> 0) as Hw.
  { intros a Ha E. specialize (Hh a). rewrite E in Hh. pose proof (tally_in _ _ _ _ Hp Ha). cbn in Hh. lia. }
  assert (forall q, on_word (length (words (shared c))) q -> (forall a, p_holds_at a q = p_holds_at a p) ->
    held_once (mk_cfg (shared c) (<[i := q]> (points c)))) as Hsame by (intros; by eapply held_once_same).
  destruct p as [|a|a|a|a|a|a|a|a|a|a|a]; cbn in Hon; cbn [pt_tstep do_futex_wait_step] in Hin; unfold atomic_cas32 in Hin.
  - rewrite elem_of_cons, elem_of_app, !list_elem_of_In, !in_map_iff in Hin.
    destruct Hin as [[= -> ->]|[(a & [= <- <-] & Ha%in_seq)|(a & [= <- <-] & Ha%in_seq)]]; apply Hsame; try done; cbn; lia.
  - destruct (Z.eqb_spec (word (shared c) a) 0) as [E|E]; step_cases Hin; [|by apply Hsame].
    eapply held_once_store; try done; [intros b Hb; cbn; by destruct (Nat.eqb_spec a b)|]. cbn. by rewrite E, Nat.eqb_refl.
  - destruct (Z.eqb_spec (word (shared c) a) 0) as [E|E]; step_cases Hin; (eapply held_once_store; try done);
      try (intros b Hb; cbn; by destruct (Nat.eqb_spec a b)); cbn; [by rewrite E, Nat.eqb_refl|by rewrite (proj2 (Z.eqb_neq _ _) E)].
  - destruct (locked (shared c)); step_cases Hin; [by apply Hsame|by eapply held_once_same].
  - destruct (_ =? 2); step_cases Hin; [by apply Hsame|by eapply held_once_same].
  - step_cases Hin. by eapply held_once_same.
  - destruct (default true _) in Hin; step_cases Hin; by apply Hsame.
  - destruct (bool_decide _ && _) in Hin; step_cases Hin; [by apply Hsame|by eapply held_once_same].
  - specialize (Hw a (Nat.eqb_refl a)). destruct (Z.eqb_spec (word (shared c) a) 1) as [E|E]; step_cases Hin; try (by apply Hsame).
    eapply held_once_store; try done; [intros b Hb; cbn; by destruct (Nat.eqb_spec a b)|]. cbn. by rewrite E, Nat.eqb_refl.
  - specialize (Hw a (Nat.eqb_refl a)). step_cases Hin. eapply held_once_store; try done; [intros b Hb; cbn; by destruct (Nat.eqb_spec a b)|].
    cbn. by rewrite (proj2 (Z.eqb_neq _ _) Hw), Nat.eqb_refl.
  - destruct (locked (shared c)); step_cases Hin; [by apply Hsame|by eapply held_once_same].
  - destruct (Z.eqb_spec (word (shared c) a) 0) as [E|E]; step_cases Hin; [|by apply Hsame].
    eapply held_once_store; try done; [intros b Hb; cbn; by destruct (Nat.eqb_spec a b)|]. cbn. by rewrite E, Nat.eqb_refl.
Qed.

Lemma held_once_reach k n c : reach pt_tstep (start (pthread_mutex_init k n) PIdle n) c -> held_once c.
Proof.
  apply reach_inv; [|intros; by eapply held_once_step]. unfold held_once, start. cbn [points shared].
  split; [by apply Forall_replicate|]. intros a. rewrite tally_replicate by done. unfold word. cbn [pthread_mutex_init words].
  destruct (replicate k 0 !! a) as [v|] eqn:E; [apply lookup_replicate in E as [-> _]|]; done.
Qed.

(** *** Progress *)

Abbreviation pt_acquired r n := (tally p_holds (points (at_time r n)) < tally p_holds (points (at_time r (S n)))) (only parsing).

(** In [pthread_mutex_lock] without the mutex. *)
Definition p_trying (p : pt_pc) : bool :=
  match p with PCas _ | PXchg _ | PLock _ | PRead _ | PEnq _ | PSched _ | PClean _ => true | _ => false end.
Definition p_in (p : pt_pc) : bool := match p with PHeld _ => true | _ => false end.

Definition p_rank (p : pt_pc) : Z :=
  match p with PLock _ => 7 | PRead _ => 6 | PEnq _ => 5 | PSched _ => 4 | PClean _ | PWake _ => 3 | PIdle => 2 | _ => 1 end.

(** Its next step is not to stay where it is. *)
Definition p_moves (m : fmem) (i : nat) (p : pt_pc) : bool :=
  match p with
  | PIdle => false
  | PLock _ | PClean _ | PWake _ => negb (locked m)
  | PSched _ => default true (running (bucket m) !! i)
  | _ => true
  end.

Section progress.
Context (r : run pt_tstep) (i h : nat).
Hypothesis inv : forall n, pt_inv (at_time r n).
Hypothesis Hfair : fair pt_tstep r.

Lemma p_trying_until n :
  ~ pt_acquired r n -> p_trying <$> points (at_time r n) !! i = Some true -> p_trying <$> points (at_time r (S n)) !! i = Some true.
Proof.
  intros Hno Ht. destruct (decide (who r n = i)) as [Hw|Hne]; [|by rewrite run_stays].
  destruct (points (at_time r n) !! i) as [p|] eqn:Ep; [|done]. rewrite <-Hw in Ep.
  destruct (run_moves _ _ _ _ Ep) as (m' & p' & Hin & E). rewrite E in Hno |- *. cbn [points] in *.
  rewrite (tally_insert _ _ _ _ _ Ep) in Hno. rewrite <-Hw, list_lookup_insert_eq by by eapply lookup_lt_Some.
  destruct p; try done; cbn in Hin, Hno.
  - destruct (atomic_cas32 _ _ _ _) as [? []]; step_cases Hin; [cbn in Hno; lia|done].
  - destruct (word _ _ =? 0); step_cases Hin; [cbn in Hno; lia|done].
  - destruct (locked _); by step_cases Hin.
  - destruct (word _ _ =? 2); by step_cases Hin.
  - by step_cases Hin.
  - destruct (default true _) in Hin; by step_cases Hin.
  - destruct (bool_decide _ && _) in Hin; by step_cases Hin.
Qed.

(** While the mutex is free and nobody takes it, a step either stays where it
    is or uses up some of the steps the thread has. *)
Lemma pt_free_step n :
  word (shared (at_time r n)) 0 = 0 -> ~ pt_acquired r n ->
  word (shared (at_time r (S n))) 0 = 0 /\
  (wsum p_rank (points (at_time r (S n))) < wsum p_rank (points (at_time r n)) \/ at_time r (S n) = at_time r n) /\
  (forall p, points (at_time r n) !! who r n = Some p -> p_moves (shared (at_time r n)) (who r n) p = true ->
    wsum p_rank (points (at_time r (S n))) < wsum p_rank (points (at_time r n))).
Proof.
  intros Hw Hno. destruct (points (at_time r n) !! who r n) as [p|] eqn:Ep; [|by destruct (run_step _ r n); congruence].
  destruct (inv n) as (Hl & Ho & Hh & _ & _). pose proof (Forall_lookup_1 _ _ _ _ Ho Ep) as Honly. rewrite Hw in Hh. cbn in Hh.
  pose proof (tally_in p_holds _ _ _ Ep) as Hh1.
  destruct (run_moves _ _ _ _ Ep) as (m' & p' & Hin & E). rewrite E in Hno |- *. cbn [points shared] in *.
  rewrite (tally_insert _ _ _ _ _ Ep) in Hno. rewrite (wsum_insert _ _ _ _ _ Ep).
  enough (word m' 0 = 0 /\ (p_rank p' < p_rank p \/ (m' = shared (at_time r n) /\ p' = p)) /\
    (p_moves (shared (at_time r n)) (who r n) p = true -> p_rank p' < p_rank p)) as (H1 & H2 & H3).
  { split_and!; [done| |intros q [= <-] Ha; specialize (H3 Ha); lia]. destruct H2 as [H2|[-> ->]]; [left; lia|right].
    rewrite list_insert_id by done. by destruct (at_time r n). }
  destruct (cas32_cases (shared (at_time r n)) 0 1) as [[_ Ec]|[? _]]; [|done].
  destruct p; cbn in Honly, Hh1, Hno; try (apply Nat.eqb_eq in Honly as ->); cbn [pt_tstep do_futex_wait_step] in Hin; try (by specialize (Hh1 eq_refl); lia).
  - rewrite Hl in Hin. cbn in Hin. step_cases Hin; cbn; split_and!; try done; try (left; lia); by right.
  - rewrite Ec in Hin. step_cases Hin. cbn in Hno. lia.
  - rewrite Hw in Hin. cbn in Hin. step_cases Hin. cbn in Hno. lia.
  - cbn [p_moves]. destruct (locked _); step_cases Hin; cbn; split_and!; try done; try (left; lia); by right.
  - rewrite Hw in Hin. cbn in Hin. step_cases Hin. cbn. split_and!; try done; left; lia.
  - step_cases Hin. cbn. split_and!; try done; left; lia.
  - cbn [p_moves]. destruct (default true _); step_cases Hin; cbn; split_and!; try done; try (left; lia); by right.
  - cbn [p_moves]. destruct (bool_decide _), (locked _); cbn in Hin; step_cases Hin; cbn; split_and!; try done; try (left; lia); by right.
  - cbn [p_moves]. destruct (locked _); step_cases Hin; cbn; split_and!; try done; try (left; lia); by right.
  - rewrite Ec in Hin. step_cases Hin. cbn in Hno. lia.
Qed.

(** A free mutex somebody wants has a thread that can move. *)
Lemma pt_mover n :
  word (shared (at_time r n)) 0 = 0 -> p_trying <$> points (at_time r n) !! i = Some true ->
  exists j q, points (at_time r n) !! j = Some q /\ p_moves (shared (at_time r n)) j q = true.
Proof.
  intros Hw Ht. destruct (inv n) as (_ & _ & _ & Hk & _ & Hb).
  destruct (locked (shared (at_time r n))) eqn:El.
  { destruct (tally_pos p_locks (points (at_time r n))) as (j & q & Hq & Hl); [cbn in Hk; lia|]. exists j, q. split; [done|]. by destruct q. }
  destruct (points (at_time r n) !! i) as [p|] eqn:Ep; [|done].
  destruct (p_moves (shared (at_time r n)) i p) eqn:Em; [by exists i, p|].
  destruct (Hb i p Ep) as [|(j & q & Hq & Ha)]; [|lia|].
  - destruct p; cbn in Em, Ht |- *; try done; rewrite ?El in Em; try done. by rewrite Em.
  - exists j, q. split; [done|]. destruct q; cbn in Ha |- *; rewrite ?El; done.
Qed.

Lemma pt_free_progress n :
  word (shared (at_time r n)) 0 = 0 -> p_trying <$> points (at_time r n) !! i = Some true -> exists m, (n <= m)%nat /\ pt_acquired r m.
Proof.
  intros Hw Ht. apply (measure_progress _ r (fun m => pt_acquired r m)
    (fun c => word (shared c) 0 = 0 /\ p_trying <$> points c !! i = Some true) (fun c => wsum p_rank (points c)) n); [| | |done].
  - intros m _. apply wsum_nonneg. intros []; cbn; lia.
  - intros m Hno [H1 H2]. destruct (pt_free_step m H1 Hno) as (H3 & [H4|H4] & _); (split; [split; [done|by apply p_trying_until]|]); [lia|by rewrite H4].
  - intros m [H1 H2]. destruct (pt_mover m H1 H2) as (j & q & Hq & Ha).
    destruct (own_turn _ r (fun m => pt_acquired r m \/ wsum p_rank (points (at_time r (S m))) < wsum p_rank (points (at_time r m)))
      (fun c => c = at_time r m) j m) as [(k & Hk & Hev)|(k & Hk & Hw' & E)].
    + done.
    + rewrite <-(run_length _ r m). by eapply lookup_lt_Some.
    + done.
    + intros k Hno _ E. destruct (pt_free_step k) as (_ & [|H4] & _); [by rewrite E|tauto|tauto|]. congruence.
    + by exists k.
    + exists k. split; [done|]. destruct (decide (pt_acquired r k)) as [|Hno]; [by left|right].
      apply (proj2 (proj2 (pt_free_step k ltac:(by rewrite E) Hno)) q); rewrite ?Hw', E; done.
Qed.

Hypothesis Hends : holds_end p_in r.

(** A holder at the store of its unlock. *)
Lemma pt_store_progress n a :
  points (at_time r n) !! h = Some (PUn a) -> p_trying <$> points (at_time r n) !! i = Some true -> exists m, (n <= m)%nat /\ pt_acquired r m.
Proof.
  intros Hh Ht. destruct (own_turn _ r (fun m => pt_acquired r m)
    (fun c => points c !! h = Some (PUn a) /\ p_trying <$> points c !! i = Some true) h n) as [|(m & Hm & Hw & H1 & H2)]; [done|..|done|].
  - rewrite <-(run_length _ r n). by eapply lookup_lt_Some.
  - done.
  - intros m Hno Hne [H1 H2]. split; [by rewrite run_stays|by apply p_trying_until].
  - destruct (decide (pt_acquired r m)) as [|Hno]; [by exists m|].
    destruct (pt_free_progress (S m)) as (k & Hk & Hacq); [|by apply p_trying_until|exists k; split; [lia|done]].
    destruct (inv m) as (Hl & Ho & _). pose proof (Forall_lookup_1 _ _ _ _ Ho H1) as Honly. cbn in Honly. apply Nat.eqb_eq in Honly as ->.
    rewrite <-Hw in H1. destruct (run_moves _ _ _ _ H1) as (m' & p' & Hin & E). rewrite E. cbn [pt_tstep do_futex_wait_step shared] in Hin |- *.
    step_cases Hin. by apply word_set.
Qed.

Lemma pt_held_progress n a :
  points (at_time r n) !! h = Some (PHeld a) -> p_trying <$> points (at_time r n) !! i = Some true -> exists m, (n <= m)%nat /\ pt_acquired r m.
Proof.
  intros Hh Ht. destruct (leaves _ r p_in h n Hends) as (m & p & Hm & Hw & Hp & Hpi & Hout); [by rewrite Hh|].
  destruct (first_event (fun m => pt_acquired r m) n (S m - n)) as [(k & Hk & Hacq & _)|Hno]; [exists k; split; [lia|done]|].
  assert (p_trying <$> points (at_time r (S m)) !! i = Some true) as Ht'.
  { apply (until_event _ r (fun m => pt_acquired r m) (fun c => p_trying <$> points c !! i = Some true) n (S m - n)); [done| |done|lia].
    intros k Hk. by apply p_trying_until. }
  enough (exists k, (S m <= k)%nat /\ pt_acquired r k) as (k & Hk & Hacq) by (exists k; split; [lia|done]).
  destruct p; try done. destruct (inv m) as (Hl & Ho & _). pose proof (Forall_lookup_1 _ _ _ _ Ho Hp) as Honly. cbn in Honly.
  apply Nat.eqb_eq in Honly as ->. rewrite <-Hw in Hp, Hout. destruct (run_moves _ _ _ _ Hp) as (m' & p' & Hin & E).
  assert (points (at_time r (S m)) !! who r m = Some p') as Hp' by (rewrite E; cbn; apply list_lookup_insert_eq; by eapply lookup_lt_Some).
  cbn [pt_tstep do_futex_wait_step] in Hin. rewrite Hp' in Hout. destruct (cas32_cases (shared (at_time r m)) 1 0) as [[Ew Ec]|[Ew Ec]]; rewrite Ec in Hin; step_cases Hin; try done.
  - apply pt_free_progress; [|done]. rewrite E. by apply word_set.
  - rewrite Hw in Hp'. by eapply pt_store_progress.
Qed.

End progress.

(** C15: however many pthread mutexes share a futex bucket, each has at most one
    holder in every interleaving of [pthread_mutex_lock],
    [pthread_mutex_trylock] and [pthread_mutex_unlock] with the kernel's futex
    calls.  When a mutex has the bucket to itself, no wake-up is lost: while a
    thread sleeps and the word is not marked as contended, another thread is
    about to mark it or to wake a waiter. *)
Theorem pthread_mutex_exclusion k n c :
  reach pt_tstep (start (pthread_mutex_init k n) PIdle n) c ->
  (forall i j p q a, points c !! i = Some p -> points c !! j = Some q -> p_holds_at a p = true -> p_holds_at a q = true -> i = j) /\
  (k = 1%nat -> forall i p, points c !! i = Some p -> p_asleep (shared c) i p = true ->
    word (shared c) 0 = 2 \/ exists j q, points c !! j = Some q /\ p_active (shared c) j q = true).
Proof.
  intros Hr. split.
  - intros i j p q a Hp Hq Hhp Hhq. destruct (decide (i = j)) as [|Hne]; [done|]. destruct (held_once_reach k n c Hr) as [_ Hh].
    pose proof (tally_two (p_holds_at a) _ _ _ _ _ Hne Hp Hq Hhp Hhq) as Ht. rewrite Hh in Ht.
    pose proof (b2z_range (negb (word (shared c) a =? 0))). lia.
  - intros ->. by destruct (pt_inv_reach n c Hr) as (_ & _ & _ & _ & _ & Hb).
Qed.

(** C11: a thread in [pthread_mutex_lock] is followed by an acquisition of the
    mutex, when no other futex shares its bucket: under a fair schedule in
    which critical sections end, whatever signals interrupt [FUTEX_WAIT]. *)
Theorem pthread_mutex_lock_progress (r : run pt_tstep) k i n :
  at_time r 0 = start (pthread_mutex_init 1 k) PIdle k -> fair pt_tstep r -> holds_end p_in r ->
  p_trying <$> points (at_time r n) !! i = Some true -> exists m, (n <= m)%nat /\ pt_acquired r m.
Proof.
  intros H0 Hf He Ht.
  assert (forall m, pt_inv (at_time r m)) as inv by (intros m; apply (pt_inv_reach k); rewrite <-H0; apply run_reach).
  destruct (inv n) as (_ & _ & Hh & _). destruct (Z.eqb_spec (word (shared (at_time r n)) 0) 0) as [Ew|Ew]; [by eapply pt_free_progress|].
  destruct (tally_pos p_holds (points (at_time r n))) as (h & p & Hp & Hph); [cbn in Hh; lia|].
  destruct p; try done; [by eapply pt_held_progress|by eapply pt_store_progress].
Qed.

(** Two threads that contend: the second sleeps until the first unlocks. *)
Definition contend_pt : list (nat * nat) :=
  [(0,1); (0,0); (1,1); (1,0); (1,0); (1,0); (1,0); (1,0); (0,1); (0,0); (0,0); (1,0); (1,0); (1,0); (1,1); (1,0); (1,0)]%nat.

Lemma contend_pt_loops : play pt_tstep contend_pt (start (pthread_mutex_init 1 2) PIdle 2) = Some (start (pthread_mutex_init 1 2) PIdle 2).
Proof. vm_compute. reflexivity. Qed.

Definition contend_pt_run : run pt_tstep := loop_run _ contend_pt (start (pthread_mutex_init 1 2) PIdle 2) ltac:(discriminate) contend_pt_loops.

Lemma pthread_mutex_exclusion_witness : exists c,
  play pt_tstep (take 10 contend_pt) (start (pthread_mutex_init 1 2) PIdle 2) = Some c /\ points c = [PWake 0; PSched 0] /\
  p_asleep (shared c) 1 (PSched 0) = true /\ (word (shared c) 0 = 2 \/ exists j q, points c !! j = Some q /\ p_active (shared c) j q = true).
Proof.
  eexists. split; [vm_compute; reflexivity|]. do 2 (split; [reflexivity|]).
  refine (proj2 (pthread_mutex_exclusion 1 2 _ _) eq_refl 1%nat (PSched 0) _ _); [|reflexivity..].
  apply (play_reach _ (take 10 contend_pt)). vm_compute. reflexivity.
Defined.

Lemma pthread_mutex_lock_progress_witness : exists m, (8 <= m)%nat /\ pt_acquired contend_pt_run m.
Proof.
  apply (pthread_mutex_lock_progress contend_pt_run 2 1 8); [reflexivity|..|reflexivity].
  - apply loop_fair. intros i Hi. cbn in Hi. destruct i as [|[|i]]; [..|lia]; apply (bool_decide_unpack _); vm_compute; exact I.
  - apply loop_holds_end. intros [|[|i]]; done.
Defined.

(** [do_futex_wake] wakes the oldest [val] waiters, or all of them, and
    returns how many. *)
Theorem do_futex_wake_correct val q :
  let k := Nat.min (Z.to_nat val) (length (head q)) in
  do_futex_wake val q = (mk_wq (drop k (head q)) (foldl (fun r t => wake t r) (running q) (take k (head q))), Z.of_nat k).
Proof.
  unfold do_futex_wake. generalize (Z.to_nat val) as v. intros v. cbv zeta. revert q.
  induction v as [|v IH]; intros [[|t l] r]; [done..|]. cbn [wake_up_to head wait_queue_wake_one running]. rewrite IH.
  cbn [head running length]. rewrite <-Nat.succ_min_distr. cbn [drop take foldl]. f_equal. lia.
Qed.

(** Two mutexes of a page are in one bucket. *)
Lemma futex_hash_page pgd u v : 0 <= u -> 0 <= v -> u / 4096 = v / 4096 -> futex_hash pgd u = futex_hash pgd v.
Proof. intros Hu Hv E. unfold futex_hash. rewrite !Z.shiftr_div_pow2 by lia. change (2 ^ 12) with 4096. by rewrite E. Qed.

(** Threads 0 and 1 hold the mutexes 0 and 1; 2 and 3 sleep for them.  Thread
    1 unlocks: the wake-up goes to thread 2, which finds mutex 0 still held and
    sleeps again.  Mutex 1 is free, thread 3 sleeps for it, and nobody is on
    the way. *)
Example futex_wake_wrong_waiter :
  (fun c => (words (shared c), head (bucket (shared c)), points c)) <$>
  play pt_tstep
    [(0,1); (0,0); (1,2); (1,0); (2,1); (2,0); (2,0); (2,0); (2,0); (2,0); (3,2); (3,0); (3,0); (3,0); (3,0); (3,0);
     (1,1); (1,0); (1,0); (2,0); (2,0); (2,0); (2,0); (2,0); (2,0)]%nat
    (start (pthread_mutex_init 2 4) PIdle 4) =
  Some ([2; 0], [3%nat; 2%nat], [PHeld 0; PIdle; PSched 0; PSched 1]).
Proof. vm_compute. reflexivity. Qed.

End Futex.
