(* ===== verification/Strtol.v ===== *)
(** Number parsing of the C library (src/libc/stdlib/strtol.c): [strtol],
    [strtoul], [atoi] and [atol] on strings, against the value of the numeral.
    Numerals without a minus sign are converted exactly, with saturation at the
    limit of the type; every negative numeral is reported as out of range. *)

From stdpp Require Import base tactics numbers option list.
From Stdlib Require Import ZArith Lia.
From S2P Require Import Prelude.

Module Strtol.

(** A C string without its terminator; a pointer into it is a suffix. *)
Abbreviation str := (list Z) (only parsing).

Definition LONG_MAX : Z := 9223372036854775807.
Definition ULONG_MAX : Z := UINT64_MAX.

(** [*s] *)
Definition chr (s : str) : Z := default 0 (head s).

Definition isspace (c : Z) : bool := (c =? 32) || (c =? 9) || (c =? 10) || (c =? 11) || (c =? 12) || (c =? 13).

(** [while (isspace( *s)) s++;] *)
Fixpoint skip_space (s : str) : str :=
  match s with c :: s' => if isspace c then skip_space s' else s | [] => [] end.

(** The sign, and the rest. *)
Definition sign (s : str) : bool * str :=
  match s with
  | 45 :: s' => (true, s')
  | 43 :: s' => (false, s')
  | _ => (false, s)
  end.

(** The base to use, and the rest. *)
Definition detect (base : Z) (s : str) : Z * str :=
  if ((base =? 0) || (base =? 16)) && (chr s =? 48) && ((chr (tail s) =? 120) || (chr (tail s) =? 88)) then (16, tail (tail s))
  else if (base =? 0) && (chr s =? 48) then (8, s)
  else if base =? 0 then (10, s)
  else (base, s).

(** The value of a digit or letter, [None] at the [break]. *)
Definition digit_of (c : Z) : option Z :=
  if (48 <=? c) && (c <=? 57) then Some (c - 48)
  else if (97 <=? c) && (c <=? 122) then Some (c - 97 + 10)
  else if (65 <=? c) && (c <=? 90) then Some (c - 65 + 10)
  else None.

(** What the call returns: the value, where [*endptr] points (a suffix), and
    the value of [errno] if it is set. *)
Record parsed := mk_parsed { result : Z; endptr : str; errno : option Z }.

(** The digit loop of [strtol]: [any], the accumulator, where it stopped, and
    [errno]. *)
Fixpoint strtol_loop (neg : bool) (base cutoff cutlim : Z) (any : bool) (acc : Z) (s : str) : bool * Z * str * option Z :=
  match s with
  | [] => (any, acc, s, None)
  | c :: s' =>
      match digit_of c with
      | None => (any, acc, s, None)
      | Some digit =>
          if base <=? digit then (any, acc, s, None)
          else if neg then
            if (acc <? cutoff) || ((acc =? cutoff) && (cutlim <? digit)) then (true, - LONG_MAX - 1, s, Some ERANGE)
            else strtol_loop neg base cutoff cutlim true (sint64 (acc * base - digit)) s'
          else
            if (cutoff <? acc) || ((acc =? cutoff) && (cutlim <? digit)) then (true, LONG_MAX, s, Some ERANGE)
            else strtol_loop neg base cutoff cutlim true (sint64 (acc * base + digit)) s'
      end
  end.

Definition strtol (nptr : str) (base : Z) : parsed :=
  let '(neg, s) := sign (skip_space nptr) in
  let '(base, s) := detect base s in
  let limit := if neg then - LONG_MAX - 1 else LONG_MAX in
  let cutlim := Z.rem limit base in
  let cutoff := Z.quot limit base in
  let cutoff := if neg then - cutoff else cutoff in
  let '(any, acc, s, err) := strtol_loop neg base cutoff cutlim false 0 s in
  if any then mk_parsed acc s err else mk_parsed 0 nptr (Some EINVAL).

Fixpoint strtoul_loop (base cutoff cutlim : Z) (any : bool) (acc : Z) (s : str) : bool * Z * str * option Z :=
  match s with
  | [] => (any, acc, s, None)
  | c :: s' =>
      match digit_of c with
      | None => (any, acc, s, None)
      | Some digit =>
          if base <=? digit then (any, acc, s, None)
          else if (cutoff <? acc) || ((acc =? cutoff) && (cutlim <? digit)) then (true, ULONG_MAX, s, Some ERANGE)
          else strtoul_loop base cutoff cutlim true (acc *u base +u digit) s'
      end
  end.

Definition strtoul (nptr : str) (base : Z) : parsed :=
  let '(_, s) := sign (skip_space nptr) in
  let '(base, s) := detect base s in
  let '(any, acc, s, err) := strtoul_loop base (ULONG_MAX / base) (ULONG_MAX mod base) false 0 s in
  if any then mk_parsed acc s err else mk_parsed 0 nptr (Some EINVAL).

Definition atol (nptr : str) : Z := result (strtol nptr 10).
Definition atoi (nptr : str) : Z := sint32 (result (strtol nptr 10)).

(** ** The numeral *)

(** The digits in the base that the string begins with, and what follows. *)
Fixpoint digits (base : Z) (s : str) : list Z * str :=
  match s with
  | [] => ([], [])
  | c :: s' =>
      match digit_of c with
      | Some d => if base <=? d then ([], s) else let '(ds, r) := digits base s' in (d :: ds, r)
      | None => ([], s)
      end
  end.

(** Their value, most significant first. *)
Definition value (base : Z) (ds : list Z) : Z := foldl (fun acc d => acc * base + d) 0 ds.

Lemma digit_of_nonneg c d : digit_of c = Some d -> 0 <= d.
Proof. unfold digit_of. intros E. bools; simplify_eq; lia. Qed.

Lemma value_mono base ds acc : 1 <= base -> 0 <= acc -> Forall (fun d => 0 <= d) ds -> acc <= foldl (fun acc d => acc * base + d) acc ds.
Proof.
  intros Hb. revert acc. induction ds as [|d ds IH]; intros acc Ha Hd; [done|]. apply Forall_cons in Hd as [Hd Hds]. cbn.
  specialize (IH (acc * base + d) ltac:(nia) Hds). nia.
Qed.

Lemma digits_nonneg base s : Forall (fun d => 0 <= d) (digits base s).1.
Proof.
  induction s as [|c s IH]; cbn; [constructor|]. destruct (digit_of c) as [d|] eqn:E; [|constructor].
  destruct (base <=? d); [constructor|]. destruct (digits base s). cbn in *. constructor; [by eapply digit_of_nonneg|done].
Qed.

(** One more digit fits exactly when the test of the loop says so. *)
Lemma cutoff_test max base acc d :
  1 <= base -> 0 <= max -> 0 <= d < base -> 0 <= acc ->
  (max / base <? acc) || ((acc =? max / base) && (max mod base <? d)) = negb (acc * base + d <=? max).
Proof.
  intros Hb Hm Hd Ha. pose proof (Z.div_mod max base ltac:(lia)) as E. pose proof (Z.mod_pos_bound max base ltac:(lia)).
  destruct (Z.ltb_spec (max / base) acc) as [H1|H1]; cbn.
  - destruct (Z.leb_spec (acc * base + d) max); [nia|done].
  - destruct (Z.eqb_spec acc (max / base)) as [->|H2]; cbn.
    + destruct (Z.ltb_spec (max mod base) d), (Z.leb_spec (max / base * base + d) max); try done; lia.
    + destruct (Z.leb_spec (acc * base + d) max); [done|nia].
Qed.

Lemma strtol_loop_spec base any acc s ds r :
  1 <= base -> 0 <= acc <= LONG_MAX -> digits base s = (ds, r) ->
  let v := foldl (fun acc d => acc * base + d) acc ds in
  (v <= LONG_MAX -> strtol_loop false base (LONG_MAX / base) (LONG_MAX mod base) any acc s = (any || negb (bool_decide (ds = [])), v, r, None)) /\
  (LONG_MAX < v -> exists s', strtol_loop false base (LONG_MAX / base) (LONG_MAX mod base) any acc s = (true, LONG_MAX, s', Some ERANGE)).
Proof.
  intros Hb. revert any acc ds. induction s as [|c s IH]; intros any acc ds Ha E; cbn in E |- *.
  { injection E as <- <-. cbn. rewrite orb_false_r. split; [done|lia]. }
  destruct (digit_of c) as [d|] eqn:Ed; [|injection E as <- <-; cbn; rewrite orb_false_r; split; [done|lia]].
  destruct (Z.leb_spec base d) as [Hd|Hd]; [injection E as <- <-; cbn; rewrite orb_false_r; split; [done|lia]|].
  destruct (digits base s) as [ds' r'] eqn:Es. injection E as <- <-. cbn [foldl]. pose proof (digit_of_nonneg _ _ Ed) as Hd0.
  rewrite cutoff_test by (unfold LONG_MAX; lia). pose proof (digits_nonneg base s) as Hnn. rewrite Es in Hnn. cbn in Hnn.
  pose proof (value_mono base ds' (acc * base + d) Hb ltac:(nia) Hnn) as Hmono.
  destruct (Z.leb_spec (acc * base + d) LONG_MAX) as [Hf|Hf]; cbn [negb].
  - assert (sint64 (acc * base + d) = acc * base + d) as -> by (unfold sint64, LONG_MAX in *; rewrite Z.mod_small; nia).
    destruct (IH true (acc * base + d) ds' ltac:(nia) eq_refl) as [H1 H2]. split; [|exact H2].
    intros Hv. rewrite (H1 Hv). cbn. by rewrite orb_true_r.
  - split; [lia|]. intros _. by eexists.
Qed.

Lemma strtoul_loop_spec base any acc s ds r :
  1 <= base -> 0 <= acc <= ULONG_MAX -> digits base s = (ds, r) ->
  let v := foldl (fun acc d => acc * base + d) acc ds in
  (v <= ULONG_MAX -> strtoul_loop base (ULONG_MAX / base) (ULONG_MAX mod base) any acc s = (any || negb (bool_decide (ds = [])), v, r, None)) /\
  (ULONG_MAX < v -> exists s', strtoul_loop base (ULONG_MAX / base) (ULONG_MAX mod base) any acc s = (true, ULONG_MAX, s', Some ERANGE)).
Proof.
  intros Hb. revert any acc ds. induction s as [|c s IH]; intros any acc ds Ha E; cbn in E |- *.
  { injection E as <- <-. cbn. rewrite orb_false_r. split; [done|lia]. }
  destruct (digit_of c) as [d|] eqn:Ed; [|injection E as <- <-; cbn; rewrite orb_false_r; split; [done|lia]].
  destruct (Z.leb_spec base d) as [Hd|Hd]; [injection E as <- <-; cbn; rewrite orb_false_r; split; [done|lia]|].
  destruct (digits base s) as [ds' r'] eqn:Es. injection E as <- <-. cbn [foldl]. pose proof (digit_of_nonneg _ _ Ed) as Hd0.
  rewrite cutoff_test by (unfold ULONG_MAX; lia). pose proof (digits_nonneg base s) as Hnn. rewrite Es in Hnn. cbn in Hnn.
  pose proof (value_mono base ds' (acc * base + d) Hb ltac:(nia) Hnn) as Hmono.
  destruct (Z.leb_spec (acc * base + d) ULONG_MAX) as [Hf|Hf]; cbn [negb].
  - assert (acc *u base +u d = acc * base + d) as -> by (unfold ULONG_MAX in *; rewrite (wrap64_small (acc * base)), wrap64_small; nia).
    destruct (IH true (acc * base + d) ds' ltac:(nia) eq_refl) as [H1 H2]. split; [|exact H2].
    intros Hv. rewrite (H1 Hv). cbn. by rewrite orb_true_r.
  - split; [lia|]. intros _. by eexists.
Qed.

Lemma detect_base base s : base = 0 \/ 2 <= base <= 36 -> 2 <= (detect base s).1 <= 36.
Proof. intros Hb. unfold detect. repeat case_match; cbn; bools; lia. Qed.

(** The value of a numeral without a minus sign, saturated at the limit of
    [long]; where it ends; and the error codes. *)
Theorem strtol_correct nptr base s b s1 ds r :
  base = 0 \/ 2 <= base <= 36 -> sign (skip_space nptr) = (false, s) -> detect base s = (b, s1) -> digits b s1 = (ds, r) ->
  (ds = [] -> strtol nptr base = mk_parsed 0 nptr (Some EINVAL)) /\
  (ds <> [] -> value b ds <= LONG_MAX -> strtol nptr base = mk_parsed (value b ds) r None) /\
  (LONG_MAX < value b ds -> exists e, strtol nptr base = mk_parsed LONG_MAX e (Some ERANGE)).
Proof.
  intros Hb Es Ed Eds. pose proof (detect_base base s Hb) as Hb'. rewrite Ed in Hb'. cbn in Hb'. unfold strtol. rewrite Es, Ed.
  rewrite Z.quot_div_nonneg, Z.rem_mod_nonneg by (unfold LONG_MAX; lia).
  destruct (strtol_loop_spec b false 0 s1 ds r ltac:(lia) ltac:(unfold LONG_MAX; lia) Eds) as [H1 H2]. split_and!.
  - intros ->. cbn in H1. by rewrite H1 by (unfold LONG_MAX; lia).
  - intros Hne Hv. rewrite (H1 Hv). by rewrite bool_decide_false.
  - intros Hv. destruct (H2 Hv) as [e ->]. by eexists.
Qed.

(** The same for [unsigned long]; the sign is skipped whichever it is. *)
Theorem strtoul_correct nptr base neg s b s1 ds r :
  base = 0 \/ 2 <= base <= 36 -> sign (skip_space nptr) = (neg, s) -> detect base s = (b, s1) -> digits b s1 = (ds, r) ->
  (ds = [] -> strtoul nptr base = mk_parsed 0 nptr (Some EINVAL)) /\
  (ds <> [] -> value b ds <= ULONG_MAX -> strtoul nptr base = mk_parsed (value b ds) r None) /\
  (ULONG_MAX < value b ds -> exists e, strtoul nptr base = mk_parsed ULONG_MAX e (Some ERANGE)).
Proof.
  intros Hb Es Ed Eds. pose proof (detect_base base s Hb) as Hb'. rewrite Ed in Hb'. cbn in Hb'. unfold strtoul. rewrite Es, Ed.
  destruct (strtoul_loop_spec b false 0 s1 ds r ltac:(lia) ltac:(unfold ULONG_MAX; lia) Eds) as [H1 H2]. split_and!.
  - intros ->. cbn in H1. by rewrite H1 by (unfold ULONG_MAX; lia).
  - intros Hne Hv. rewrite (H1 Hv). by rewrite bool_decide_false.
  - intros Hv. destruct (H2 Hv) as [e ->]. by eexists.
Qed.

(** The limit of negative numbers has the wrong sign: the test succeeds at the
    first digit, and every negative numeral is out of range. *)
Theorem strtol_negative_out_of_range nptr base s b s1 ds r :
  base = 0 \/ 2 <= base <= 36 -> sign (skip_space nptr) = (true, s) -> detect base s = (b, s1) -> digits b s1 = (ds, r) -> ds <> [] ->
  strtol nptr base = mk_parsed (- LONG_MAX - 1) s1 (Some ERANGE).
Proof.
  intros Hb Es Ed Eds Hne. pose proof (detect_base base s Hb) as Hb'. rewrite Ed in Hb'. cbn in Hb'. unfold strtol. rewrite Es, Ed.
  destruct s1 as [|c s1]; [by injection Eds as <- <-|]. cbn in Eds |- *. destruct (digit_of c) as [d|]; [|by injection Eds as <- <-].
  destruct (Z.leb_spec b d); [by injection Eds as <- <-|]. rewrite (proj2 (Z.ltb_lt _ _)); [done|].
  replace (- LONG_MAX - 1) with (- (LONG_MAX + 1)) by lia. rewrite Z.quot_opp_l, Z.quot_div_nonneg by (unfold LONG_MAX; lia).
  rewrite Z.opp_involutive. apply Z.div_str_pos. unfold LONG_MAX. lia.
Qed.

Example atoi_minus_five : strtol [45; 53] 10 = mk_parsed (- LONG_MAX - 1) [53] (Some ERANGE) /\ atoi [45; 53] = 0.
Proof. split; vm_compute; reflexivity. Qed.

End Strtol.
