(* ===== verification/Printf.v ===== *)
(** Formatted output of the C library (src/libc/stdio/vsprintf.c, in the build
    for the kernel, which has no floating point): [vformatter] and the functions
    on top of it.  The output is never written past the buffer, is cut and
    terminated when it does not fit, and its length is returned; what is printed
    as a number parses back to it. *)

From stdpp Require Import base tactics numbers option list.
From Stdlib Require Import ZArith Lia.
From S2P Require Import Prelude Strtol.

Module Printf.
Import Strtol.

Abbreviation SIZE_MAX := UINT64_MAX (only parsing).
Abbreviation ZEROPAD := 1 (only parsing).
Abbreviation SIGN := 2 (only parsing).
Abbreviation PLUS := 4 (only parsing).
Abbreviation SPACE := 8 (only parsing).
Abbreviation LEFT := 16 (only parsing).
Abbreviation SPECIAL := 32 (only parsing).
Abbreviation SMALL := 64 (only parsing).

Definition flag (flags m : Z) : bool := negb (Z.land flags m =? 0).

(** ** Output *)

(** [vf_state_t]; [dst] is the memory from [st->dst] on that may be accessed,
    which need not be [cap] bytes, and [stores] are the writes of [%n], an
    address, the number of bytes and the value. *)
Record vf_state := mk_vf { dst : list Z; cap : Z; pos : Z; total : Z; stores : list (Z * Z * Z) }.

(** A store to byte [i]; [None] is a store outside the memory. *)
Definition store (i ch : Z) (d : list Z) : option (list Z) :=
  if (0 <=? i) && (i <? zlen d) then Some (<[Z.to_nat i := ch]> d) else None.

Definition vf_out (st : vf_state) (ch : Z) : option vf_state :=
  if total st =? SIZE_MAX then Some st
  else if (0 <? cap st) && (pos st <? cap st -u 1) then
    d ← store (pos st) ch (dst st);
    Some (mk_vf d (cap st) (pos st + 1) (total st + 1) (stores st))
  else Some (mk_vf (dst st) (cap st) (pos st) (total st + 1) (stores st)).

(** What a conversion does: a call of [vf_out], or the store of [%n]. *)
Inductive item := Out (ch : Z) | Store (ip width : Z).

Definition vf_item (perform_assign : bool) (i : item) (st : vf_state) : option vf_state :=
  match i with
  | Out ch => vf_out st ch
  | Store ip width =>
      Some (if perform_assign then mk_vf (dst st) (cap st) (pos st) (total st) (stores st ++ [(ip, width, total st mod 2 ^ (8 * width))]) else st)
  end.
Fixpoint vf_items (perform_assign : bool) (items : list item) (st : vf_state) : option vf_state :=
  match items with
  | [] => Some st
  | i :: items => st ← vf_item perform_assign i st; vf_items perform_assign items st
  end.

(** ** Conversions *)

(** [while (n-- > 0) vf_out(st, ch);] and [n] after it. *)
Definition pad (n ch : Z) : list Z := replicate (Z.to_nat n) ch.
Definition after_pad (n : Z) : Z := if 0 <? n then -1 else n - 1.

(** "0123456789A..." and "0123456789a..." *)
Definition digit_char (small : bool) (d : Z) : Z := if d <? 10 then 48 + d else (if small then 97 else 65) + (d - 10).

(** The digits of [num], least significant first, into [tmp]. *)
Fixpoint digit_loop (fuel : nat) (base num : Z) : list Z :=
  match fuel with
  | O => []
  | S fuel => if num =? 0 then [] else num mod base :: digit_loop fuel base (num / base)
  end.
Definition tmp_digits (base num : Z) : list Z := if num =? 0 then [0] else digit_loop 64 base num.

(** The calls of [vf_out] in [vf_number]; no sign is 0. *)
Definition vf_number (sign num base size precision type : Z) : list Z :=
  let small := flag type SMALL in
  let zeropad := flag type ZEROPAD && negb (flag type LEFT) in
  let left := flag type LEFT in
  let special := flag type SPECIAL in
  if (base <? 2) || (36 <? base) then [] else
  let c := if zeropad then 48 else 32 in
  let size := if sign =? 0 then size else size - 1 in
  let size := if special then (if base =? 16 then size - 2 else if base =? 8 then size - 1 else size) else size in
  let tmp := tmp_digits base num in
  let i := zlen tmp in
  let precision := Z.max precision i in
  let size := size - precision in
  let pad1 := if zeropad || left then [] else pad size 32 in
  let size := if zeropad || left then size else after_pad size in
  let pad2 := if left then [] else pad size c in
  let size := if left then size else after_pad size in
  pad1 ++ (if sign =? 0 then [] else [sign]) ++
  (if special then (if base =? 8 then [48] else if base =? 16 then [48; digit_char small 33] else []) else []) ++
  pad2 ++ pad (precision - i) 48 ++ reverse (digit_char small <$> tmp) ++ pad size 32.

(** The calls of [vf_out] in [vf_string]. *)
Definition vf_string (s : list Z) (field_width precision flags : Z) : list Z :=
  let len := if precision <? 0 then zlen s else Z.min (zlen s) precision in
  let pad1 := if flag flags LEFT then [] else pad (field_width - len) 32 in
  let field_width := if flag flags LEFT then field_width else (if len <? field_width then len - 1 else field_width - 1) in
  pad1 ++ take (Z.to_nat len) s ++ pad (field_width - len) 32.

(** The arguments, as 64-bit words. *)
Abbreviation va_list := (list Z) (only parsing).
Definition va_arg (ap : va_list) : option (Z * va_list) := match ap with w :: ap => Some (w, ap) | [] => None end.

(** An argument read at the width the qualifier asks for. *)
Definition is_long (is_ll : bool) (qualifier : Z) : bool := is_ll || (qualifier =? 76) || (qualifier =? 90) || (qualifier =? 108).
Definition vf_int (is_ll : bool) (qualifier field_width precision flags fmt_char : Z) (ap : va_list) : option (list Z * va_list) :=
  '(w, ap) ← va_arg ap;
  if (fmt_char =? 100) || (fmt_char =? 105) || (fmt_char =? 117) then
    if flag flags SIGN then
      let sval := if is_long is_ll qualifier then sint64 w else sint32 w in
      if sval <? 0 then Some (vf_number 45 (0 -u wrap64 sval) 10 field_width precision flags, ap)
      else Some (vf_number (if flag flags PLUS then 43 else if flag flags SPACE then 32 else 0) (wrap64 sval) 10 field_width precision flags, ap)
    else Some (vf_number 0 (if is_long is_ll qualifier then wrap64 w else wrap32 w) 10 field_width precision flags, ap)
  else
    Some (vf_number 0 (if is_long is_ll qualifier then wrap64 w else wrap32 w) (if fmt_char =? 111 then 8 else 16) field_width precision flags, ap).

(** ** The format string *)

Fixpoint parse_flags (flags : Z) (fmt : list Z) : Z * list Z :=
  match fmt with
  | c :: fmt' =>
      if c =? 45 then parse_flags (Z.lor flags LEFT) fmt'
      else if c =? 43 then parse_flags (Z.lor flags PLUS) fmt'
      else if c =? 32 then parse_flags (Z.lor flags SPACE) fmt'
      else if c =? 35 then parse_flags (Z.lor flags SPECIAL) fmt'
      else if c =? 48 then parse_flags (Z.lor flags ZEROPAD) fmt'
      else (flags, fmt)
  | [] => (flags, [])
  end.

Definition is_digit (c : Z) : bool := (48 <=? c) && (c <=? 57).
Fixpoint skip_atoi (i : Z) (s : list Z) : Z * list Z :=
  match s with
  | c :: s' => if is_digit c then skip_atoi (sint32 (i * 10 + c - 48)) s' else (i, s)
  | [] => (i, [])
  end.

Definition parse_width (flags : Z) (fmt : list Z) (ap : va_list) : option (Z * Z * list Z * va_list) :=
  if is_digit (chr fmt) then let '(w, fmt) := skip_atoi 0 fmt in Some (w, flags, fmt, ap)
  else if chr fmt =? 42 then
    '(w, ap) ← va_arg ap;
    let w := sint32 w in
    Some (if w <? 0 then (sint32 (- w), Z.lor flags LEFT, tail fmt, ap) else (w, flags, tail fmt, ap))
  else Some (-1, flags, fmt, ap).

Definition parse_precision (fmt : list Z) (ap : va_list) : option (Z * list Z * va_list) :=
  if chr fmt =? 46 then
    let fmt := tail fmt in
    '(p, fmt, ap) ←
      (if is_digit (chr fmt) then let '(p, fmt) := skip_atoi 0 fmt in Some (p, fmt, ap)
       else if chr fmt =? 42 then '(p, ap) ← va_arg ap; Some (sint32 p, tail fmt, ap)
       else Some (-1, fmt, ap));
    Some (if p <? 0 then -1 else p, fmt, ap)
  else Some (-1, fmt, ap).

(** The qualifier, -1 for none, and whether it was [ll]. *)
Definition parse_qualifier (fmt : list Z) : Z * bool * list Z :=
  let c := chr fmt in
  if (c =? 104) || (c =? 108) || (c =? 76) || (c =? 90) then
    let fmt := tail fmt in
    if (c =? 108) && (chr fmt =? 108) then (c, true, tail fmt) else (c, false, fmt)
  else (-1, false, fmt).

Section strings.
(** The string at an address. *)
Context (string_at : Z -> list Z).

Definition outs (r : option (list Z * list Z)) : option (list item * list Z) := match r with Some (l, ap) => Some (map Out l, ap) | None => None end.

(** The [switch] on the conversion character [c], which is 0 at the end of
    the format. *)
Definition convert (c qualifier : Z) (is_ll : bool) (field_width precision flags : Z) (ap : va_list) : option (list item * va_list) :=
  if c =? 99 then
    '(w, ap) ← va_arg ap;
    let pad1 := if flag flags LEFT then [] else pad (field_width - 1) 32 in
    let field_width := if flag flags LEFT then field_width else (if 1 <? field_width then 0 else field_width - 1) in
    Some (map Out (pad1 ++ [wrap8 w] ++ pad (field_width - 1) 32), ap)
  else if c =? 115 then
    '(w, ap) ← va_arg ap; Some (map Out (vf_string (if w =? 0 then [] else string_at w) field_width precision flags), ap)
  else if c =? 111 then outs (vf_int is_ll qualifier field_width precision (Z.land flags (Z.lnot SMALL)) 111 ap)
  else if c =? 112 then
    '(w, ap) ← va_arg ap;
    Some (map Out (if field_width =? -1 then vf_number 0 (wrap64 w) 16 16 precision (Z.lor flags ZEROPAD)
                   else vf_number 0 (wrap64 w) 16 field_width precision flags), ap)
  else if c =? 120 then outs (vf_int is_ll qualifier field_width precision (Z.lor flags SMALL) 120 ap)
  else if c =? 88 then outs (vf_int is_ll qualifier field_width precision flags 120 ap)
  else if (c =? 100) || (c =? 105) then outs (vf_int is_ll qualifier field_width precision (Z.lor flags SIGN) 100 ap)
  else if c =? 117 then outs (vf_int is_ll qualifier field_width precision flags 100 ap)
  else if c =? 110 then '(ip, ap) ← va_arg ap; Some ([Store ip (if is_long is_ll qualifier then 8 else 4)], ap)
  else if (c =? 97) || (c =? 65) then Some ([Out 37] ++ (if qualifier =? 76 then [Out 76] else []) ++ [Out c], ap)
  else if c =? 37 then Some ([Out 37], ap)
  else Some (Out 37 :: (if c =? 0 then [] else [Out c]), ap).

(** The loop over the format: every round uses up a character. *)
Fixpoint format_loop (fuel : nat) (fmt : list Z) (ap : va_list) : option (list item) :=
  match fuel, fmt with
  | _, [] => Some []
  | O, _ => None
  | S fuel, c :: fmt =>
      if negb (c =? 37) then l ← format_loop fuel fmt ap; Some (Out c :: l)
      else
        let '(flags, fmt) := parse_flags 0 fmt in
        '(field_width, flags, fmt, ap) ← parse_width flags fmt ap;
        '(precision, fmt, ap) ← parse_precision fmt ap;
        let '(qualifier, is_ll, fmt) := parse_qualifier fmt in
        '(l, ap) ← convert (chr fmt) qualifier is_ll field_width precision flags ap;
        l' ← format_loop fuel (tail fmt) ap;
        Some (l ++ l')
  end.
Definition format_items (fmt : list Z) (ap : va_list) : option (list item) := format_loop (length fmt) fmt ap.

(** The buffer afterwards, the value returned and the stores of [%n]. *)
Definition vformatter (d : list Z) (n : Z) (fmt : list Z) (ap : va_list) (perform_assign : bool) : option (list Z * Z * list (Z * Z * Z)) :=
  items ← format_items fmt ap;
  st ← vf_items perform_assign items (mk_vf d n 0 0 []);
  d ← (if 0 <? n then store (pos st) 0 (dst st) else Some (dst st));
  Some (d, total st, stores st).

Definition to_int (r : Z) : Z := if (r =? SIZE_MAX) || (2147483647 <? r) then -1 else r.
Definition vsnprintf (b : list Z) (s : Z) (fmt : list Z) (ap : va_list) : option (list Z * Z) :=
  '(b, r, _) ← vformatter b s fmt ap true; Some (b, to_int r).
Definition snprintf (buf : list Z) (size : Z) (fmt : list Z) (ap : va_list) : option (list Z * Z) :=
  '(buf, r, _) ← vformatter buf size fmt ap true;
  buf ← (if (0 <? size) && (size <=? r) then store (size -u 1) 0 buf else Some buf);
  Some (buf, to_int r).
Definition vsprintf (buf : list Z) (fmt : list Z) (ap : va_list) : option (list Z * Z) :=
  '(buf, r, _) ← vformatter buf 4096 fmt ap true; Some (buf, to_int r).

(** ** Every format is read to its end *)

Lemma parse_flags_length flags fmt : (length (parse_flags flags fmt).2 <= length fmt)%nat.
Proof.
  revert flags. induction fmt as [|c fmt IH]; intros flags; [done|]. cbn.
  repeat case_match; cbn; try lia; match goal with |- context [parse_flags ?f fmt] => specialize (IH f); lia end.
Qed.

Lemma skip_atoi_length i s : (length (skip_atoi i s).2 <= length s)%nat.
Proof.
  revert i. induction s as [|c s IH]; intros i; [done|]. cbn. case_match; [|done].
  match goal with |- context [skip_atoi ?f s] => specialize (IH f); lia end.
Qed.

Lemma tail_length {A} (l : list A) : (length (tail l) <= length l)%nat.
Proof. destruct l; cbn; lia. Qed.

(** A parsing step with arguments to spare succeeds, takes at most one of
    them, and does not lengthen the format. *)
Lemma parse_width_total flags fmt ap :
  ap <> [] -> exists w f fmt' ap', parse_width flags fmt ap = Some (w, f, fmt', ap') /\ (length fmt' <= length fmt)%nat /\ (length ap <= S (length ap'))%nat.
Proof.
  intros Hap. unfold parse_width. destruct (is_digit (chr fmt)).
  { pose proof (skip_atoi_length 0 fmt) as H. destruct (skip_atoi 0 fmt) as [w fmt']. cbn in H. do 4 eexists. split; [done|lia]. }
  destruct (chr fmt =? 42); [|do 4 eexists; split; [done|lia]]. destruct ap as [|w ap]; [done|]. cbn. pose proof (tail_length fmt).
  destruct (sint32 w <? 0); do 4 eexists; (split; [done|lia]).
Qed.

Lemma parse_precision_total fmt ap :
  ap <> [] -> exists p fmt' ap', parse_precision fmt ap = Some (p, fmt', ap') /\ (length fmt' <= length fmt)%nat /\ (length ap <= S (length ap'))%nat.
Proof.
  intros Hap. unfold parse_precision. pose proof (tail_length fmt) as Ht. destruct (chr fmt =? 46); [|do 3 eexists; split; [done|lia]].
  destruct (is_digit (chr (tail fmt))).
  { pose proof (skip_atoi_length 0 (tail fmt)) as H. destruct (skip_atoi 0 (tail fmt)) as [w fmt']. cbn in H |- *. do 3 eexists. split; [done|lia]. }
  destruct (chr (tail fmt) =? 42); [|cbn; do 3 eexists; split; [done|lia]]. destruct ap as [|w ap]; [done|]. cbn.
  pose proof (tail_length (tail fmt)). do 3 eexists. split; [done|lia].
Qed.

Lemma parse_qualifier_length fmt : (length (parse_qualifier fmt).2 <= length fmt)%nat.
Proof. unfold parse_qualifier. pose proof (tail_length fmt). pose proof (tail_length (tail fmt)). repeat case_match; cbn; lia. Qed.

Lemma vf_int_total is_ll q w p f c ap : ap <> [] -> exists l, vf_int is_ll q w p f c ap = Some (l, tail ap).
Proof. intros Hap. destruct ap as [|x ap]; [done|]. unfold vf_int. cbn. repeat case_match; by eexists. Qed.

Lemma convert_total c q is_ll w p f ap :
  ap <> [] -> exists l ap', convert c q is_ll w p f ap = Some (l, ap') /\ (length ap <= S (length ap'))%nat.
Proof.
  intros Hap. destruct ap as [|x ap]; [done|]. unfold convert.
  pose proof (fun f c => vf_int_total is_ll q w p f c (x :: ap) Hap) as Hi.
  repeat match goal with
  | |- context [outs (vf_int is_ll q w p ?f ?c (x :: ap))] => destruct (Hi f c) as [? ->]; cbn [outs tail]
  | |- context [if ?b then _ else _] => destruct b
  end; cbn; do 2 eexists; (split; [reflexivity|cbn; lia]).
Qed.

(** With three arguments for each character there are enough of them, and the
    loop reaches the end of the format. *)
Lemma format_loop_total fuel fmt ap :
  (length fmt <= fuel)%nat -> (3 * length fmt <= length ap)%nat -> is_Some (format_loop fuel fmt ap).
Proof.
  revert fmt ap. induction fuel as [|fuel IH]; intros [|c fmt] ap Hf Ha; cbn in Hf, Ha |- *; try lia; try by eexists.
  destruct (negb (c =? 37)); [destruct (IH fmt ap) as [l ->]; [lia..|by eexists]|].
  pose proof (parse_flags_length 0 fmt) as H0. destruct (parse_flags 0 fmt) as [flags fmt0]. cbn in H0.
  destruct (parse_width_total flags fmt0 ap) as (w & f & fmt1 & ap1 & -> & H1 & A1); [by destruct ap; cbn in Ha; try lia|]. cbn.
  destruct (parse_precision_total fmt1 ap1) as (p & fmt2 & ap2 & -> & H2 & A2); [by destruct ap1; cbn in A1; try lia|]. cbn.
  pose proof (parse_qualifier_length fmt2) as H3. destruct (parse_qualifier fmt2) as [[q is_ll] fmt3]. cbn in H3.
  destruct (convert_total (chr fmt3) q is_ll w p f ap2) as (l & ap3 & -> & A3); [by destruct ap2; cbn in A1, A2; try lia|]. cbn.
  pose proof (tail_length fmt3). destruct (IH (tail fmt3) ap3) as [l' ->]; [lia..|]. by eexists.
Qed.

(** ** What is written *)

(** The characters among the items. *)
Definition text (items : list item) : list Z := omap (fun i => match i with Out ch => Some ch | Store _ _ => None end) items.

Lemma text_app l k : text (l ++ k) = text l ++ text k.
Proof. apply omap_app. Qed.

Lemma text_out l : text (map Out l) = l.
Proof. induction l as [|x l IH]; [done|]. change (text (map Out (x :: l))) with (x :: text (map Out l)). by rewrite IH. Qed.

(** With room for [n] bytes, [n] not 0, the memory begins with as much of a
    text as leaves room for the terminator. *)
Definition room (n : Z) (txt : list Z) : nat := Nat.min (Z.to_nat (n - 1)) (length txt).
Definition filled (d : list Z) (n : Z) (txt : list Z) : list Z := take (room n txt) txt ++ drop (room n txt) d.

Lemma store_filled d n txt ch :
  0 < n <= zlen d -> Z.of_nat (length txt) < n - 1 -> store (Z.of_nat (length txt)) ch (filled d n txt) = Some (filled d n (txt ++ [ch])).
Proof.
  intros Hn Ht. unfold filled, room. rewrite length_app. cbn [length]. rewrite !Nat.min_r by lia. rewrite !take_ge by (rewrite ?length_app; cbn; lia).
  unfold store, zlen in *. rewrite length_app, length_drop. bools; try lia. f_equal. rewrite Nat2Z.id.
  destruct (lookup_lt_is_Some_2 d (length txt)) as [x Ex]; [lia|]. rewrite (drop_S _ _ _ Ex), insert_app_r_alt, Nat.sub_diag by lia. cbn.
  rewrite <-app_assoc, Nat.add_1_r. done.
Qed.

Lemma filled_full d n txt ch : 0 <= n -> n - 1 <= Z.of_nat (length txt) -> filled d n (txt ++ [ch]) = filled d n txt /\ room n (txt ++ [ch]) = room n txt.
Proof.
  intros Hn Ht. unfold filled, room. rewrite length_app. cbn [length]. rewrite !Nat.min_l by lia. by rewrite take_app_le by lia.
Qed.

(** Items from a state in which the text [txt] is out. *)
Lemma vf_items_spec assign d n items : forall txt s,
  0 <= n <= zlen d -> n < U64 ->
  exists s', vf_items assign items (mk_vf (filled d n txt) n (Z.of_nat (room n txt)) (Z.min (Z.of_nat (length txt)) SIZE_MAX) s) =
    Some (mk_vf (filled d n (txt ++ text items)) n (Z.of_nat (room n (txt ++ text items))) (Z.min (Z.of_nat (length (txt ++ text items))) SIZE_MAX) s').
Proof.
  induction items as [|i items IH]; intros txt s Hn Hu; cbn [vf_items]; [rewrite app_nil_r; by eexists|].
  destruct i as [ch|ip w]; cbn [vf_item mbind option_bind].
  2: { change (text (Store ip w :: items)) with (text items). destruct assign; cbn [dst cap pos total stores]; by apply IH. }
  change (text (Out ch :: items)) with (ch :: text items). rewrite cons_middle, app_assoc.
  assert (vf_out (mk_vf (filled d n txt) n (Z.of_nat (room n txt)) (Z.min (Z.of_nat (length txt)) SIZE_MAX) s) ch =
    Some (mk_vf (filled d n (txt ++ [ch])) n (Z.of_nat (room n (txt ++ [ch]))) (Z.min (Z.of_nat (length (txt ++ [ch]))) SIZE_MAX) s)) as ->; [|by apply IH].
  assert (Z.of_nat (length (txt ++ [ch])) = Z.of_nat (length txt) + 1) as El by (rewrite length_app; cbn; lia).
  unfold vf_out. cbn [dst cap pos total stores]. destruct (Z.eqb_spec (Z.min (Z.of_nat (length txt)) SIZE_MAX) SIZE_MAX) as [Hs|Hs].
  { destruct (filled_full d n txt ch) as [-> ->]; [lia|lia|]. do 2 f_equal. lia. }
  replace (Z.min (Z.of_nat (length (txt ++ [ch]))) SIZE_MAX) with (Z.min (Z.of_nat (length txt)) SIZE_MAX + 1) by lia.
  destruct (Z.ltb_spec 0 n) as [H0|H0]; cbn [andb]; [|destruct (filled_full d n txt ch) as [-> ->]; [lia|lia|done]].
  rewrite (wrap64_small (n - 1)) by lia. destruct (Z.ltb_spec (Z.of_nat (room n txt)) (n - 1)) as [H1|H1].
  - assert (room n txt = length txt) as Er by (unfold room in *; lia).
    assert (Z.of_nat (room n (txt ++ [ch])) = Z.of_nat (length txt) + 1) as -> by (unfold room in *; rewrite length_app in *; cbn; lia).
    rewrite Er, store_filled by (unfold room in *; lia). done.
  - destruct (filled_full d n txt ch) as [-> ->]; [lia|unfold room in *; lia|done].
Qed.

Lemma vformatter_spec d n fmt ap assign items :
  0 <= n <= zlen d -> n < U64 -> format_items fmt ap = Some items ->
  let k := room n (text items) in
  exists s, vformatter d n fmt ap assign =
    Some (if 0 <? n then take k (text items) ++ 0 :: drop (S k) d else d, Z.min (Z.of_nat (length (text items))) SIZE_MAX, s).
Proof.
  intros Hn Hu Hi k. unfold vformatter. rewrite Hi. cbn [mbind option_bind].
  assert (mk_vf d n 0 0 [] = mk_vf (filled d n []) n (Z.of_nat (room n [])) (Z.min (Z.of_nat (length (@nil Z))) SIZE_MAX) []) as ->
    by (unfold filled, room; cbn [length]; by rewrite Nat.min_0_r).
  destruct (vf_items_spec assign d n items [] [] Hn Hu) as [s ->]. cbn [mbind option_bind dst pos total stores app]. fold k.
  destruct (Z.ltb_spec 0 n) as [H0|H0]; cbn [mbind option_bind].
  - unfold store, filled. fold k. assert (k < length d)%nat as Hk by (unfold k, room, zlen in *; lia).
    assert (length (take k (text items)) = k) as Lk by (rewrite length_take; unfold k, room; lia).
    unfold zlen. rewrite length_app, Lk, length_drop. destruct (Z.leb_spec 0 (Z.of_nat k)), (Z.ltb_spec (Z.of_nat k) (Z.of_nat (k + (length d - k)))); try lia.
    cbn [andb mbind option_bind]. eexists. do 3 f_equal. rewrite Nat2Z.id. destruct (lookup_lt_is_Some_2 d k Hk) as [x Ex].
    rewrite (drop_S _ _ _ Ex), insert_app_r_alt, Lk, Nat.sub_diag by lia. done.
  - eexists. do 3 f_equal. unfold filled. fold k. assert (k = 0)%nat as -> by (unfold k, room; lia). done.
Qed.

End strings.

Lemma vsnprintf_spec string_at b n fmt ap items :
  format_items string_at fmt ap = Some items -> 0 <= n <= zlen b -> n < U64 ->
  let len := Z.of_nat (length (text items)) in
  let k := room n (text items) in
  vsnprintf string_at b n fmt ap =
    Some (if 0 <? n then take k (text items) ++ 0 :: drop (S k) b else b, if len <=? 2147483647 then len else -1).
Proof.
  intros Hi Hn Hu len k. unfold vsnprintf. destruct (vformatter_spec string_at b n fmt ap true items Hn Hu Hi) as [s ->].
  cbn [mbind option_bind]. do 2 f_equal. unfold to_int. fold len. destruct (Z.eqb_spec (Z.min len SIZE_MAX) SIZE_MAX), (Z.leb_spec len 2147483647); cbn [orb]; try lia.
  - rewrite (proj2 (Z.ltb_ge _ _)) by lia. lia.
  - by rewrite (proj2 (Z.ltb_lt _ _)) by lia.
Qed.



(** Three arguments for each character of the format are enough, whatever it
    says. *)
Theorem format_total string_at fmt ap : (3 * length fmt <= length ap)%nat -> is_Some (format_items string_at fmt ap).
Proof. intros H. by apply format_loop_total. Qed.

(** ** Numbers that come back *)

Lemma digit_of_char small d : 0 <= d < 36 -> digit_of (digit_char small d) = Some d.
Proof. intros Hd. unfold digit_of, digit_char. destruct small; bools; try lia; f_equal; lia. Qed.

Lemma digit_loop_spec base fuel num :
  2 <= base -> 0 <= num < base ^ Z.of_nat fuel ->
  Forall (fun d => 0 <= d < base) (digit_loop fuel base num) /\ value base (reverse (digit_loop fuel base num)) = num /\
  (length (digit_loop fuel base num) <= fuel)%nat.
Proof.
  intros Hb. revert num. induction fuel as [|fuel IH]; intros num Hn; [cbn in *; split_and!; [constructor|lia|lia]|].
  cbn [digit_loop]. destruct (Z.eqb_spec num 0) as [->|]; [cbn; split_and!; [constructor|done|lia]|].
  rewrite Nat2Z.inj_succ, Z.pow_succ_r in Hn by lia. pose proof (Z.mod_pos_bound num base ltac:(lia)).
  pose proof (Z.div_mod num base ltac:(lia)) as E.
  destruct (IH (num / base)) as (H1 & H2 & H3); [split; [apply Z.div_pos; lia|apply Z.div_lt_upper_bound; lia]|].
  split_and!; [constructor; [lia|done]| |cbn; lia]. rewrite reverse_cons. unfold value in *. rewrite foldl_app, H2. cbn. lia.
Qed.

Lemma tmp_digits_spec base num :
  2 <= base <= 36 -> 0 <= num < U64 ->
  Forall (fun d => 0 <= d < base) (tmp_digits base num) /\ value base (reverse (tmp_digits base num)) = num /\
  (1 <= length (tmp_digits base num) <= 64)%nat.
Proof.
  intros Hb Hn. unfold tmp_digits. destruct (Z.eqb_spec num 0) as [->|Hne]; [split_and!; [repeat constructor; lia|cbn..]; done || lia|].
  destruct (digit_loop_spec base 64 num) as (H1 & H2 & H3); [lia| |].
  { split; [lia|]. apply Z.lt_le_trans with (2 ^ 64); [lia|]. apply Z.pow_le_mono_l. lia. }
  split_and!; [done|done| |done]. cbn [digit_loop]. rewrite (proj2 (Z.eqb_neq _ _) Hne). cbn. lia.
Qed.

(** The numeral [vf_number] prints without padding. *)
Definition numeral (small : bool) (base num : Z) : list Z := reverse (digit_char small <$> tmp_digits base num).

Lemma numeral_digits small base num :
  2 <= base <= 36 -> 0 <= num < U64 -> digits base (numeral small base num) = (reverse (tmp_digits base num), []).
Proof.
  intros Hb Hn. destruct (tmp_digits_spec base num Hb Hn) as (Hd & _ & _). unfold numeral. rewrite <-fmap_reverse.
  apply Forall_reverse in Hd. induction Hd as [|d l Hd _ IH]; [done|]. cbn. rewrite digit_of_char by lia.
  destruct (Z.leb_spec base d); [lia|]. cbn in IH. by rewrite IH.
Qed.

(** Every character of a numeral is a digit of its base. *)
Lemma numeral_chars small base num :
  2 <= base <= 36 -> 0 <= num < U64 ->
  Forall (fun c => exists d, 0 <= d < base /\ c = digit_char small d) (numeral small base num) /\ numeral small base num <> [].
Proof.
  intros Hb Hn. destruct (tmp_digits_spec base num Hb Hn) as (Hd & _ & Hl). split.
  - unfold numeral. apply Forall_reverse, Forall_fmap. eapply Forall_impl; [exact Hd|]. intros d Hd'. by exists d.
  - intros E. apply (f_equal length) in E. unfold numeral in E. rewrite length_reverse, length_fmap in E. cbn in E. lia.
Qed.

(** Tests of flags that are known. *)
Ltac eval_flags :=
  repeat match goal with |- context [flag ?a ?b] => let v := eval vm_compute in (flag a b) in change (flag a b) with v end.

Lemma vf_number_plain num base type :
  (base = 8 \/ base = 10 \/ base = 16) -> 0 <= num < U64 -> type = 0 \/ type = SMALL \/ type = SPECIAL \/ type = Z.lor SPECIAL SMALL ->
  vf_number 0 num base (-1) (-1) type =
    (if flag type SPECIAL then (if base =? 8 then [48] else if base =? 16 then [48; if flag type SMALL then 120 else 88] else []) else []) ++
    numeral (flag type SMALL) base num.
Proof.
  intros Hb Hn Ht. assert (2 <= base <= 36) as Hb' by lia. destruct (tmp_digits_spec base num Hb' Hn) as (_ & _ & Hl).
  unfold vf_number. assert (1 <= zlen (tmp_digits base num)) as Hz by (unfold zlen; lia).
  assert (forall n ch, n <= 0 -> pad n ch = []) as Hpad by (intros n ch H; unfold pad; by replace (Z.to_nat n) with 0%nat by lia).
  unfold after_pad. rewrite Z.max_r, Z.sub_diag by lia. rewrite (Hpad 0) by lia.
  destruct Hb as [->|[->| ->]], Ht as [->|[->|[->| ->]]]; eval_flags; cbn -[zlen numeral pad tmp_digits Z.sub]; unfold numeral;
    repeat match goal with |- context [0 <? ?n] => destruct (Z.ltb_spec 0 n); [lia|] end; rewrite !Hpad by lia; cbn -[tmp_digits]; by rewrite ?app_nil_r.
Qed.

(** *** Reading them back *)

Lemma digit_char_range small d : 0 <= d < 36 -> 48 <= digit_char small d <= 122 /\ (d < 16 -> digit_char small d <> 120 /\ digit_char small d <> 88).
Proof. intros Hd. unfold digit_char. destruct (Z.ltb_spec d 10), small; lia. Qed.

(** A string that begins with a digit has no space or sign to skip. *)
Lemma skip_none c s : 48 <= c -> sign (skip_space (c :: s)) = (false, c :: s).
Proof.
  intros Hc. cbn. unfold isspace. bools; try lia. unfold sign. repeat case_match; done || lia.
Qed.

(** The digits of a base up to 16 do not look like a prefix. *)
Lemma detect_plain small base num :
  base = 8 \/ base = 10 \/ base = 16 -> 0 <= num < U64 ->
  sign (skip_space (numeral small base num)) = (false, numeral small base num) /\
  detect base (numeral small base num) = (base, numeral small base num) /\
  (chr (numeral small base num) =? 120) || (chr (numeral small base num) =? 88) = false.
Proof.
  intros Hb Hn. destruct (numeral_chars small base num) as [Hc Hne]; [lia|done|]. destruct (numeral small base num) as [|c s]; [done|].
  apply Forall_cons in Hc as [(d & Hd & ->) Hs]. pose proof (digit_char_range small d ltac:(lia)) as [Hr Hx].
  assert ((chr s =? 120) || (chr s =? 88) = false) as E2.
  { destruct s as [|c s]; [done|]. apply Forall_cons in Hs as [(d' & Hd' & ->) _]. pose proof (digit_char_range small d' ltac:(lia)) as [_ Hx'].
    specialize (Hx' ltac:(lia)). unfold chr. cbn -[digit_char]. destruct (Z.eqb_spec (digit_char small d') 120), (Z.eqb_spec (digit_char small d') 88); lia || done. }
  specialize (Hx ltac:(lia)). split_and!; [apply skip_none; lia| |].
  - unfold detect. cbn [tail]. rewrite E2, andb_false_r. by destruct Hb as [->|[->| ->]].
  - unfold chr. cbn -[digit_char]. destruct (Z.eqb_spec (digit_char small d) 120), (Z.eqb_spec (digit_char small d) 88); lia || done.
Qed.

Lemma numeral_value small base num :
  base = 8 \/ base = 10 \/ base = 16 -> 0 <= num < U64 ->
  reverse (tmp_digits base num) <> [] /\ value base (reverse (tmp_digits base num)) = num /\ value base (0 :: reverse (tmp_digits base num)) = num /\
  (length (numeral small base num) <= 64)%nat.
Proof.
  intros Hb Hn. destruct (tmp_digits_spec base num ltac:(lia) Hn) as (_ & Hv & Hl). split_and!; [|done|exact Hv|].
  - intros E. apply (f_equal length) in E. rewrite length_reverse in E. cbn in E. lia.
  - unfold numeral. rewrite length_reverse, length_fmap. lia.
Qed.

Lemma strtoul_numeral small base num :
  base = 8 \/ base = 10 \/ base = 16 -> 0 <= num < U64 -> strtoul (numeral small base num) base = mk_parsed num [] None.
Proof.
  intros Hb Hn. destruct (detect_plain small base num Hb Hn) as (E1 & E2 & _). destruct (numeral_value small base num Hb Hn) as (Hne & Hv & _).
  rewrite <-Hv at 2. apply (strtoul_correct _ base _ _ base _ _ [] ltac:(lia) E1 E2 (numeral_digits small base num ltac:(lia) Hn)); [done|].
  rewrite Hv. unfold ULONG_MAX. lia.
Qed.

Lemma strtoul_prefixed (small : bool) (num : Z) : 0 <= num < U64 ->
  strtoul (48 :: (if small then 120 else 88) :: numeral small 16 num) 0 = mk_parsed num [] None /\
  strtoul (48 :: numeral small 8 num) 0 = mk_parsed num [] None.
Proof.
  intros Hn. split.
  - destruct (numeral_value small 16 num ltac:(lia) Hn) as (Hne & Hv & _). rewrite <-Hv at 2.
    eapply (strtoul_correct _ 0); [by left|by apply skip_none| |apply numeral_digits; lia|done|rewrite Hv; unfold ULONG_MAX; lia]. by destruct small.
  - destruct (numeral_value small 8 num ltac:(lia) Hn) as (Hne & _ & Hv & _). destruct (detect_plain small 8 num ltac:(lia) Hn) as (_ & _ & Ex).
    rewrite <-Hv at 2. eapply (strtoul_correct _ 0); [by left|by apply skip_none| | |done|rewrite Hv; unfold ULONG_MAX; lia].
    + unfold detect. cbn [tail]. by rewrite Ex.
    + cbn. by rewrite numeral_digits by lia.
Qed.

(** The formats, with the base they are read back in: %lu, %lx, %lX, %lo, %#lx,
    %#lX and %#lo. *)
Definition number_formats : list (list Z * Z) :=
  [([37; 108; 117], 10); ([37; 108; 120], 16); ([37; 108; 88], 16); ([37; 108; 111], 8);
   ([37; 35; 108; 120], 0); ([37; 35; 108; 88], 0); ([37; 35; 108; 111], 0)].

#[local] Opaque numeral strtoul vf_number.

Lemma number_text string_at (num : Z) (fmt : list Z) (base : Z) :
  0 <= num < U64 -> (fmt, base) ∈ number_formats ->
  exists txt, format_items string_at fmt [num] = Some (map Out txt) /\ strtoul txt base = mk_parsed num [] None /\ (length txt <= 66)%nat.
Proof.
  intros Hn Hin. assert (wrap64 num = num) as Hw by by apply wrap64_small.
  assert (forall s b, b = 8 \/ b = 10 \/ b = 16 -> (length (numeral s b num) <= 64)%nat) as Hlen by (intros; by apply numeral_value).
  assert (forall s b, b = 8 \/ b = 10 \/ b = 16 -> strtoul (numeral s b num) b = mk_parsed num [] None) as Hs by (intros; by apply strtoul_numeral).
  pose proof (fun s => strtoul_prefixed s num Hn) as Hpre.
  unfold number_formats in Hin. repeat (apply elem_of_cons in Hin as [[= -> ->]|Hin]); [..|by apply not_elem_of_nil in Hin];
    (eexists; split; [unfold format_items; cbn -[vf_number wrap64]; eval_flags; cbn -[vf_number wrap64]; rewrite Hw, vf_number_plain, app_nil_r by (first [lia | cbn; auto 6]); reflexivity|]);
    eval_flags; cbn [app length Z.eqb Pos.eqb]; split;
    try (apply Hs; lia); try (apply (Hpre true)); try (apply (Hpre false));
    match goal with |- context [numeral ?s ?b num] => specialize (Hlen s b ltac:(lia)); lia end.
Qed.

(** C35: an unsigned number printed with %lu, %lx, %lX, %lo, or with the prefix
    of %#lx, %#lX, %#lo, is read back by [strtoul] in the matching base, or in
    base 0 when it has a prefix: the same number, the whole string, no error.
    A buffer of 67 bytes holds every such number. *)
Theorem printf_strtoul_roundtrip string_at (num : Z) (fmt : list Z) (base : Z) (b : list Z) :
  0 <= num < U64 -> (fmt, base) ∈ number_formats -> length b = 67%nat ->
  exists txt, vsnprintf string_at b 67 fmt [num] = Some (txt ++ 0 :: drop (S (length txt)) b, Z.of_nat (length txt)) /\
    strtoul txt base = mk_parsed num [] None.
Proof.
  intros Hn Hin Hb. destruct (number_text string_at num fmt base Hn Hin) as (txt & Hi & Hs & Hl). exists txt. split; [|done].
  rewrite (vsnprintf_spec string_at b 67 fmt [num] (map Out txt) Hi) by (unfold zlen; lia). rewrite text_out. change (0 <? 67) with true.
  cbn [negb]. assert (room 67 txt = length txt) as -> by (unfold room; lia). rewrite take_ge by lia. by rewrite (proj2 (Z.leb_le _ _)) by lia.
Qed.

Lemma printf_strtoul_roundtrip_witness :
  exists txt, vsnprintf (fun _ => []) (replicate 67 9) 67 [37; 35; 108; 120] [48879] = Some (txt ++ 0 :: drop (S (length txt)) (replicate 67 9), Z.of_nat (length txt)) /\
    strtoul txt 0 = mk_parsed 48879 [] None.
Proof.
  apply (printf_strtoul_roundtrip (fun _ => []) 48879 [37; 35; 108; 120] 0 (replicate 67 9)); [done| |reflexivity].
  apply (bool_decide_unpack _). vm_compute. exact I.
Defined.

End Printf.
