(* ===== verification/Qsort.v ===== *)
(** The quicksort of the C library (src/libc/stdlib/qsort.c) on the bytes of an
    array: it sorts the elements, and changes nothing outside the array. *)

From stdpp Require Import base tactics numbers option sorting list.
From Stdlib Require Import ZArith Lia.
From S2P Require Import Prelude Bytes.

Module Qsort.
Import Bytes.

(** ** The code *)

(** [swap]: in chunks of 64 bytes, at offsets of the memory. *)
Fixpoint swap_loop (fuel : nat) (a b size : Z) (m : list Z) : list Z :=
  match fuel with
  | O => m
  | S fuel =>
      if size <=? 0 then m
      else
        let chunk := if 64 <? size then 64 else size in
        let tmp := slice a chunk m in
        let m := splice a (slice b chunk m) m in
        let m := splice b tmp m in
        swap_loop fuel (a + chunk) (b + chunk) (size - chunk) m
  end.
Definition swap (a b size : Z) (m : list Z) : list Z := swap_loop (Z.to_nat size) a b size m.

Section code.
Context (size : Z) (compar : list Z -> list Z -> Z).

(** The [for] loop: [i] is the offset of the next element to fill. *)
Fixpoint partition_loop (count : nat) (arr pivot j i : Z) (m : list Z) : Z * list Z :=
  match count with
  | O => (i, m)
  | S count =>
      let elem := arr + j * size in
      if compar (slice elem size m) (slice pivot size m) <? 0 then
        let m := if i =? elem then m else swap i elem size m in
        partition_loop count arr pivot (j + 1) (i + size) m
      else partition_loop count arr pivot (j + 1) i m
  end.

Fixpoint qsort_rec (fuel : nat) (arr nmemb : Z) (m : list Z) : list Z :=
  match fuel with
  | O => m
  | S fuel =>
      if nmemb <? 2 then m
      else
        let pivot := arr + (nmemb - 1) * size in
        let '(i, m) := partition_loop (Z.to_nat (nmemb - 1)) arr pivot 0 arr m in
        let m := swap i pivot size m in
        let left_count := (i - arr) / size in
        let m := if 1 <? left_count then qsort_rec fuel arr left_count m else m in
        let right_count := nmemb - left_count - 1 in
        if 1 <? right_count then qsort_rec fuel (i + size) right_count m else m
  end.
(** Each call sorts fewer elements than the one before. *)
Definition qsort (base nmemb : Z) (m : list Z) : list Z := qsort_rec (Z.to_nat nmemb) base nmemb m.

End code.

(** ** Swapping *)

(** What exchanging [size] bytes at [a] and [b] does to each byte. *)
Definition swapped (a b size : Z) (m m' : list Z) : Prop :=
  zlen m' = zlen m /\
  (forall x, a <= x < a + size -> m' !!z x = m !!z (x - a + b)) /\
  (forall x, b <= x < b + size -> m' !!z x = m !!z (x - b + a)) /\
  (forall x, ~ (a <= x < a + size) -> ~ (b <= x < b + size) -> m' !!z x = m !!z x).

Definition apart (a b size : Z) (m : list Z) : Prop :=
  0 <= a /\ 0 <= b /\ 0 <= size /\ a + size <= zlen m /\ b + size <= zlen m /\ (a = b \/ a + size <= b \/ b + size <= a).

Lemma swap_chunk a b n m : apart a b n m -> swapped a b n m (splice b (slice a n m) (splice a (slice b n m) m)).
Proof.
  intros (Ha & Hb & Hn & Hal & Hbl & Hd). pose proof (zlen_slice a n m Ha Hn Hal) as L1. pose proof (zlen_slice b n m Hb Hn Hbl) as L2.
  assert (zlen (splice a (slice b n m) m) = zlen m) as L3 by (apply zlen_splice; lia).
  split_and!; [rewrite zlen_splice; lia|..]; intros x; rewrite zlookup_splice, zlookup_splice by lia; rewrite L1, L2, !zlookup_slice by done;
    intros; bools; try lia; f_equal; lia.
Qed.

Lemma swap_loop_spec fuel a b size m : (Z.to_nat size <= fuel)%nat -> apart a b size m -> swapped a b size m (swap_loop fuel a b size m).
Proof.
  revert a b size m. induction fuel as [|fuel IH]; intros a b size m Hf Hap; cbn [swap_loop].
  { destruct Hap as (? & ? & ? & _). split_and!; [done|intros; lia..|done]. }
  destruct (Z.leb_spec size 0); [destruct Hap as (? & ? & ? & _); split_and!; [done|intros; lia..|done]|].
  set (chunk := if 64 <? size then 64 else size). assert (0 < chunk <= size) as Hc by (unfold chunk; destruct (Z.ltb_spec 64 size); lia).
  destruct (swap_chunk a b chunk m) as (L1 & A1 & B1 & C1); [unfold apart in *; lia|]. set (m1 := splice b _ _) in *.
  destruct (IH (a + chunk) (b + chunk) (size - chunk) m1) as (L2 & A2 & B2 & C2); [lia|unfold apart in *; lia|].
  destruct Hap as (Ha & Hb & _ & Hal & Hbl & Hd). split_and!; [lia|..].
  - intros x Hx. destruct (decide (x < a + chunk)); [rewrite C2, A1 by lia; done|]. rewrite A2 by lia.
    replace (x - (a + chunk) + (b + chunk)) with (x - a + b) by lia. destruct (decide (a = b)) as [->|]; [rewrite C1 by lia; done|]. by rewrite C1 by lia.
  - intros x Hx. destruct (decide (x < b + chunk)); [rewrite C2, B1 by lia; done|]. rewrite B2 by lia.
    replace (x - (b + chunk) + (a + chunk)) with (x - b + a) by lia. by rewrite C1 by lia.
  - intros x H1 H2. by rewrite C2, C1 by lia.
Qed.

Lemma swap_spec a b size m : apart a b size m -> swapped a b size m (swap a b size m).
Proof. apply swap_loop_spec. done. Qed.

(** ** The array as a list of elements *)

Section sort.
Context (size : Z) (compar : list Z -> list Z -> Z).
Hypothesis Hsize : 0 < size.

Definition elem (arr : Z) (m : list Z) (k : nat) : list Z := slice (arr + Z.of_nat k * size) size m.
Definition elems (arr : Z) (n : nat) (m : list Z) : list (list Z) := elem arr m <$> seq 0 n.

(** Only bytes of the array have changed. *)
Definition within (arr len : Z) (m m' : list Z) : Prop :=
  zlen m' = zlen m /\ forall x, ~ (arr <= x < arr + len) -> m' !!z x = m !!z x.

Lemma within_refl arr len m : within arr len m m.
Proof. done. Qed.

Lemma within_trans arr len m1 m2 m3 : within arr len m1 m2 -> within arr len m2 m3 -> within arr len m1 m3.
Proof. intros [L1 E1] [L2 E2]. split; [congruence|]. intros x Hx. by rewrite E2, E1. Qed.

Lemma within_sub arr len arr' len' m m' : within arr' len' m m' -> arr <= arr' -> arr' + len' <= arr + len -> within arr len m m'.
Proof. intros [L E] H1 H2. split; [done|]. intros x Hx. apply E. lia. Qed.

Lemma elems_lookup arr n m k : (k < n)%nat -> elems arr n m !! k = Some (elem arr m k).
Proof. intros Hk. unfold elems. rewrite list_lookup_fmap, lookup_seq_lt by done. done. Qed.

Lemma elems_lookup_Some arr n m k x : elems arr n m !! k = Some x -> (k < n)%nat /\ x = elem arr m k.
Proof. intros E. pose proof (lookup_lt_Some _ _ _ E) as Hl. unfold elems in Hl. rewrite length_fmap, length_seq in Hl. rewrite elems_lookup in E by done. by injection E as <-. Qed.

Lemma elems_length arr n m : length (elems arr n m) = n.
Proof. unfold elems. by rewrite length_fmap, length_seq. Qed.

(** Where element [k] lies, and that two elements do not overlap. *)
Lemma elem_offset k n : (k < n)%nat -> 0 <= Z.of_nat k * size /\ Z.of_nat k * size + size <= Z.of_nat n * size.
Proof. intros Hk. nia. Qed.

Lemma elem_apart i j : i <> j -> Z.of_nat i * size + size <= Z.of_nat j * size \/ Z.of_nat j * size + size <= Z.of_nat i * size.
Proof. intros Hne. nia. Qed.

(** The elements of an array that is left alone stay. *)
Lemma elems_within arr n m m' arr' len :
  0 <= arr -> within arr' len m m' -> arr + Z.of_nat n * size <= arr' \/ arr' + len <= arr -> elems arr n m' = elems arr n m.
Proof.
  intros Ha [L E] Hd. apply list_eq. intros k. destruct (decide (k < n)%nat) as [Hk|Hk].
  2: { rewrite !lookup_ge_None_2 by (rewrite elems_length; lia). done. }
  rewrite !elems_lookup by done. f_equal. unfold elem. pose proof (elem_offset k n Hk) as Ho. apply zlookup_ext. intros x.
  rewrite !zlookup_slice by lia. bools; try done. apply E. lia.
Qed.

Lemma elems_app arr n k m : elems arr (n + k) m = elems arr n m ++ elems (arr + Z.of_nat n * size) k m.
Proof.
  unfold elems. rewrite seq_app, fmap_app. f_equal. apply list_eq. intros i. rewrite !list_lookup_fmap.
  destruct (decide (i < k)%nat) as [Hi|Hi]; [|rewrite !lookup_ge_None_2 by (rewrite length_seq; lia); done].
  rewrite !lookup_seq_lt by done. cbn. f_equal. unfold elem. f_equal. lia.
Qed.

(** An element after an exchange that moved the bytes at [a] to it. *)
Lemma elem_swapped a b m m' o o' :
  swapped a b size m m' -> 0 <= o -> 0 <= o' ->
  (o = a /\ o' = b) \/ (o = b /\ o' = a) \/ (o' = o /\ (o + size <= a \/ a + size <= o) /\ (o + size <= b \/ b + size <= o)) ->
  a = b \/ a + size <= b \/ b + size <= a -> slice o size m' = slice o' size m.
Proof.
  intros (L & A & B & C) Ho Ho' Hc Hd. apply zlookup_ext. intros x. rewrite !zlookup_slice by lia. bools; try done.
  destruct Hc as [[-> ->]|[[-> ->]|(-> & Ha & Hb)]]; [rewrite A by lia; f_equal; lia|rewrite B by lia; f_equal; lia|by rewrite C by lia].
Qed.

Lemma swap_elems arr n i j m :
  0 <= arr -> arr + Z.of_nat n * size <= zlen m -> (i < n)%nat -> (j < n)%nat ->
  let m' := swap (arr + Z.of_nat i * size) (arr + Z.of_nat j * size) size m in
  within arr (Z.of_nat n * size) m m' /\ elems arr n m' = <[j := elem arr m i]> (<[i := elem arr m j]> (elems arr n m)).
Proof.
  intros Ha Hm Hi Hj m'. pose proof (elem_offset i n Hi) as Oi. pose proof (elem_offset j n Hj) as Oj.
  assert (arr + Z.of_nat i * size = arr + Z.of_nat j * size \/ arr + Z.of_nat i * size + size <= arr + Z.of_nat j * size \/
    arr + Z.of_nat j * size + size <= arr + Z.of_nat i * size) as Hd.
  { destruct (decide (i = j)) as [->|Hne]; [by left|]. pose proof (elem_apart i j Hne). lia. }
  assert (swapped (arr + Z.of_nat i * size) (arr + Z.of_nat j * size) size m m') as HS by (apply swap_spec; unfold apart; lia).
  split.
  { destruct HS as (L & _ & _ & E). split; [done|]. intros x Hx. apply E; lia. }
  apply list_eq. intros k. destruct (decide (k < n)%nat) as [Hk|Hk].
  2: { rewrite !lookup_ge_None_2 by (rewrite ?length_insert, elems_length; lia). done. }
  pose proof (elem_offset k n Hk) as Ok. rewrite elems_lookup by done. destruct (decide (k = j)) as [->|Hkj]; [|destruct (decide (k = i)) as [->|Hki]].
  - rewrite list_lookup_insert_eq by (rewrite length_insert, elems_length; done). f_equal. eapply elem_swapped; [exact HS|lia..].
  - rewrite list_lookup_insert_ne, list_lookup_insert_eq by (rewrite ?elems_length; done). f_equal. eapply elem_swapped; [exact HS|lia..].
  - pose proof (elem_apart k j Hkj). pose proof (elem_apart k i Hki). rewrite !list_lookup_insert_ne, elems_lookup by done. f_equal.
    eapply elem_swapped; [exact HS|lia..].
Qed.

(** ** Partitioning *)

(** Before element [j]: the first [i] elements are smaller than the pivot, the
    others up to [j] are not. *)
Definition split_at (n : nat) (arr : Z) (m0 : list Z) (p : list Z) (i j : nat) (m : list Z) : Prop :=
  within arr (Z.of_nat n * size) m0 m /\ elems arr n m ≡ₚ elems arr n m0 /\ elem arr m (n - 1) = p /\ (i <= j)%nat /\
  (forall k, (k < i)%nat -> compar (elem arr m k) p < 0) /\ (forall k, (i <= k < j)%nat -> 0 <= compar (elem arr m k) p).

(** Exchanging two elements, one by one. *)
Lemma swap_elem arr n i j m :
  0 <= arr -> arr + Z.of_nat n * size <= zlen m -> (i < n)%nat -> (j < n)%nat ->
  let m' := swap (arr + Z.of_nat i * size) (arr + Z.of_nat j * size) size m in
  within arr (Z.of_nat n * size) m m' /\ elems arr n m' ≡ₚ elems arr n m /\
  elem arr m' i = elem arr m j /\ elem arr m' j = elem arr m i /\
  (forall k, (k < n)%nat -> k <> i -> k <> j -> elem arr m' k = elem arr m k).
Proof.
  intros Ha Hm Hi Hj m'. destruct (swap_elems arr n i j m Ha Hm Hi Hj) as [HW HE]. fold m' in HW, HE.
  assert (forall k, (k < n)%nat -> Some (elem arr m' k) = <[j := elem arr m i]> (<[i := elem arr m j]> (elems arr n m)) !! k) as HL
    by (intros k Hk; by rewrite <-HE, elems_lookup).
  split_and!; [done|rewrite HE; apply Permutation_insert_swap; by apply elems_lookup|..].
  - specialize (HL i Hi). destruct (decide (i = j)) as [->|]; [rewrite list_lookup_insert_eq in HL by (rewrite length_insert, elems_length; done); by injection HL|].
    rewrite list_lookup_insert_ne, list_lookup_insert_eq in HL by (rewrite ?elems_length; done). by injection HL.
  - specialize (HL j Hj). rewrite list_lookup_insert_eq in HL by (rewrite length_insert, elems_length; done). by injection HL.
  - intros k Hk H1 H2. specialize (HL k Hk). rewrite !list_lookup_insert_ne, elems_lookup in HL by done. by injection HL.
Qed.

Lemma within_zlen arr len m m' : within arr len m m' -> zlen m' = zlen m.
Proof. by intros [L _]. Qed.

Lemma partition_spec n arr m0 p count i j m :
  0 <= arr -> arr + Z.of_nat n * size <= zlen m0 -> (count + j = n - 1)%nat -> (1 <= n)%nat -> split_at n arr m0 p i j m ->
  exists i' m', partition_loop size compar count arr (arr + (Z.of_nat n - 1) * size) (Z.of_nat j) (arr + Z.of_nat i * size) m =
    (arr + Z.of_nat i' * size, m') /\ split_at n arr m0 p i' (n - 1) m'.
Proof.
  intros Ha Hm0. revert i j m. induction count as [|count IH]; intros i j m Hc Hn Hs.
  { exists i, m. split; [done|]. by replace (n - 1)%nat with j by lia. }
  pose proof Hs as (HW & HP & Hp & Hij & Hlo & Hhi). pose proof (within_zlen _ _ _ _ HW) as HL. cbn [partition_loop].
  change (slice (arr + Z.of_nat j * size) size m) with (elem arr m j).
  assert (slice (arr + (Z.of_nat n - 1) * size) size m = p) as -> by (rewrite <-Hp; unfold elem; do 2 f_equal; lia).
  assert (Z.of_nat j + 1 = Z.of_nat (S j)) as Ej by lia. assert (arr + Z.of_nat i * size + size = arr + Z.of_nat (S i) * size) as Ei by lia.
  rewrite Ej, ?Ei. destruct (Z.ltb_spec (compar (elem arr m j) p) 0) as [Hlt|Hge].
  2: { apply (IH i (S j) m); [lia|done|]. split_and!; try done; [lia|]. intros k Hk. destruct (decide (k = j)) as [->|]; [done|]. apply Hhi. lia. }
  destruct (swap_elem arr n i j m Ha ltac:(lia) ltac:(lia) ltac:(lia)) as (SW & SP & Si & Sj & So).
  apply (IH (S i) (S j)); [lia|done|]. destruct (Z.eqb_spec (arr + Z.of_nat i * size) (arr + Z.of_nat j * size)) as [E|E].
  - assert (i = j) as <- by nia. split_and!; try done; [intros k Hk; destruct (decide (k = i)) as [->|]; [done|]; apply Hlo; lia|intros k Hk; lia].
  - assert (i <> j) as Hne by congruence. split_and!; [by eapply within_trans|by rewrite SP|rewrite So by lia; done|lia|..].
    + intros k Hk. destruct (decide (k = i)) as [->|]; [by rewrite Si|]. rewrite So by lia. apply Hlo. lia.
    + intros k Hk. destruct (decide (k = j)) as [->|]; [rewrite Sj; apply Hhi; lia|]. rewrite So by lia. apply Hhi. lia.
Qed.

(** ** Sorting *)

(** The comparison function is a total preorder. *)
Hypothesis compar_total : forall x y, 0 <= compar x y -> compar y x <= 0.
Hypothesis compar_trans : forall x y z, compar x y <= 0 -> compar y z <= 0 -> compar x z <= 0.

Definition sort_ok (arr : Z) (n : nat) (m m' : list Z) : Prop :=
  within arr (Z.of_nat n * size) m m' /\ elems arr n m' ≡ₚ elems arr n m /\ StronglySorted (fun x y => compar x y <= 0) (elems arr n m').

Lemma sort_ok_short arr n m : (n <= 1)%nat -> sort_ok arr n m m.
Proof. intros Hn. split_and!; [done|done|]. destruct n as [|[|n]]; [constructor|repeat constructor|lia]. Qed.

(** Two sorted parts with an element between them. *)
Lemma sorted_around (L R L' R' : list (list Z)) p :
  L' ≡ₚ L -> R' ≡ₚ R -> (forall x, x ∈ L -> compar x p < 0) -> (forall y, y ∈ R -> 0 <= compar y p) ->
  StronglySorted (fun x y => compar x y <= 0) L' -> StronglySorted (fun x y => compar x y <= 0) R' ->
  StronglySorted (fun x y => compar x y <= 0) (L' ++ p :: R').
Proof.
  intros HL HR Hlo Hhi SL SR. assert (forall y, y ∈ R' -> compar p y <= 0) as Hp by (intros y Hy; apply compar_total, Hhi; by rewrite <-HR).
  apply StronglySorted_app. split_and!; [|done|].
  - intros x y Hx Hy. rewrite HL in Hx. apply elem_of_cons in Hy as [->|Hy]; [specialize (Hlo x Hx); lia|].
    apply (compar_trans x p y); [specialize (Hlo x Hx); lia|by apply Hp].
  - constructor; [done|]. apply Forall_forall. apply Hp.
Qed.

Lemma elems_around arr n i m :
  (i < n)%nat -> elems arr n m = elems arr i m ++ elem arr m i :: elems (arr + Z.of_nat (S i) * size) (n - S i) m.
Proof.
  intros Hi. replace n with (i + S (n - S i))%nat at 1 by lia. rewrite elems_app. f_equal.
  replace (S (n - S i)) with (1 + (n - S i))%nat by lia. rewrite elems_app. cbn [elems seq fmap list_fmap app]. f_equal.
  - unfold elem. f_equal. lia.
  - f_equal. lia.
Qed.

Lemma elem_within arr k m m' arr' len :
  0 <= arr -> within arr' len m m' -> arr + Z.of_nat k * size + size <= arr' \/ arr' + len <= arr + Z.of_nat k * size -> elem arr m' k = elem arr m k.
Proof.
  intros Ha [L E] Hd. unfold elem. apply zlookup_ext. intros x. rewrite !zlookup_slice by nia. bools; try done. apply E. lia.
Qed.

(** Sorting the two sides of a partitioned array sorts it. *)
Lemma sort_ok_join arr n i m0 m1 m2 m3 p :
  0 <= arr -> (i < n)%nat -> within arr (Z.of_nat n * size) m0 m1 -> elems arr n m1 ≡ₚ elems arr n m0 -> elem arr m1 i = p ->
  (forall k, (k < i)%nat -> compar (elem arr m1 k) p < 0) -> (forall k, (i < k < n)%nat -> 0 <= compar (elem arr m1 k) p) ->
  sort_ok arr i m1 m2 -> sort_ok (arr + Z.of_nat (S i) * size) (n - S i) m2 m3 -> sort_ok arr n m0 m3.
Proof.
  intros Ha Hi HW HP Hp Hlo Hhi (W2 & P2 & S2) (W3 & P3 & S3).
  assert (elems arr i m3 = elems arr i m2) as EL by (eapply elems_within; [done|exact W3|left; nia]).
  assert (elems (arr + Z.of_nat (S i) * size) (n - S i) m2 = elems (arr + Z.of_nat (S i) * size) (n - S i) m1) as ER
    by (eapply elems_within; [nia|exact W2|right; nia]).
  assert (elem arr m3 i = p) as Ep.
  { rewrite <-Hp. etrans; [eapply elem_within; [done|exact W3|left; nia]|]. eapply elem_within; [done|exact W2|right; lia]. }
  assert (within arr (Z.of_nat n * size) m1 m3) as W13.
  { eapply within_trans; [eapply within_sub; [exact W2|lia|nia]|eapply within_sub; [exact W3|nia|nia]]. }
  split_and!; [by eapply within_trans| |].
  - rewrite <-HP, !(elems_around arr n i) by done. rewrite Ep, Hp, EL, P3, ER, P2. done.
  - rewrite (elems_around arr n i), Ep, EL by done. rewrite ER in P3. eapply sorted_around; [exact P2|exact P3| | |done|done].
    + intros x (k & Hk)%list_elem_of_lookup. apply elems_lookup_Some in Hk as [Hk ->]. by apply Hlo.
    + intros x (k & Hk)%list_elem_of_lookup. apply elems_lookup_Some in Hk as [Hk ->].
      replace (elem (arr + Z.of_nat (S i) * size) m1 k) with (elem arr m1 (S i + k)) by (unfold elem; f_equal; lia). apply Hhi. lia.
Qed.

Lemma qsort_rec_spec fuel arr n m :
  (n <= fuel)%nat -> 0 <= arr -> arr + Z.of_nat n * size <= zlen m -> sort_ok arr n m (qsort_rec size compar fuel arr (Z.of_nat n) m).
Proof.
  revert arr n m. induction fuel as [|fuel IH]; intros arr n m Hf Ha Hm; cbn [qsort_rec]; [apply sort_ok_short; lia|].
  destruct (Z.ltb_spec (Z.of_nat n) 2); [apply sort_ok_short; lia|].
  destruct (partition_spec n arr m (elem arr m (n - 1)) (Z.to_nat (Z.of_nat n - 1)) 0 0 m) as (i & m1 & E & HS); [done|done|lia|lia| |].
  { split_and!; try done; intros; lia. }
  replace (arr + Z.of_nat 0 * size) with arr in E by lia. change (Z.of_nat 0) with 0 in E. rewrite E. clear E.
  destruct HS as (HW & HP & Hp & Hi & Hlo & Hhi). pose proof (within_zlen _ _ _ _ HW) as HL.
  destruct (swap_elem arr n i (n - 1) m1 Ha ltac:(lia) ltac:(lia) ltac:(lia)) as (SW & SP & Si & Sj & So).
  replace (arr + (Z.of_nat n - 1) * size) with (arr + Z.of_nat (n - 1) * size) by (f_equal; lia).
  set (m2 := swap _ _ _ m1) in *. pose proof (within_zlen _ _ _ _ SW) as HL2.
  replace ((arr + Z.of_nat i * size - arr) / size) with (Z.of_nat i) by (replace (arr + Z.of_nat i * size - arr) with (Z.of_nat i * size) by lia; by rewrite Z.div_mul by lia).
  replace (Z.of_nat n - Z.of_nat i - 1) with (Z.of_nat (n - S i)) by lia. replace (arr + Z.of_nat i * size + size) with (arr + Z.of_nat (S i) * size) by lia.
  assert (sort_ok arr i m2 (if 1 <? Z.of_nat i then qsort_rec size compar fuel arr (Z.of_nat i) m2 else m2)) as H2.
  { destruct (Z.ltb_spec 1 (Z.of_nat i)); [apply IH; [lia|done|nia]|apply sort_ok_short; lia]. }
  set (m3 := if 1 <? Z.of_nat i then _ else m2) in *. assert (zlen m3 = zlen m2) as HL3 by (destruct H2 as [H2 _]; by eapply within_zlen).
  eapply (sort_ok_join arr n i m m2 m3 _ (elem arr m2 i)); [done|lia|by eapply within_trans|by rewrite SP|done| | |exact H2|].
  - intros k Hk. rewrite So by lia. rewrite Si, Hp. by apply Hlo.
  - intros k Hk. rewrite Si, Hp. destruct (decide (k = n - 1)%nat) as [->|]; [rewrite Sj; destruct (decide (i = n - 1)%nat) as [->|]; [lia|]; apply Hhi; lia|].
    rewrite So by lia. apply Hhi. lia.
  - destruct (Z.ltb_spec 1 (Z.of_nat (n - S i))); [apply IH; [lia|nia|nia]|apply sort_ok_short; lia].
Qed.

End sort.

(** C33: [qsort] sorts: for elements of any positive size and a comparison that
    is a total preorder, the elements end up in ascending order, they are the
    ones that were there, and no byte outside the array changes. *)
Theorem qsort_correct size compar base n m :
  0 < size -> (forall x y, 0 <= compar x y -> compar y x <= 0) -> (forall x y z, compar x y <= 0 -> compar y z <= 0 -> compar x z <= 0) ->
  0 <= base -> base + Z.of_nat n * size <= zlen m ->
  let m' := qsort size compar base (Z.of_nat n) m in
  StronglySorted (fun x y => compar x y <= 0) (elems size base n m') /\ elems size base n m' ≡ₚ elems size base n m /\
  zlen m' = zlen m /\ forall x, ~ (base <= x < base + Z.of_nat n * size) -> m' !!z x = m !!z x.
Proof.
  intros Hs H1 H2 Hb Hm m'. destruct (qsort_rec_spec size compar Hs H1 H2 (Z.to_nat (Z.of_nat n)) base n m) as ([HL HW] & HP & HS); [lia|done|done|].
  done.
Qed.

Lemma qsort_correct_witness :
  let m' := qsort 2 (fun x y => of_le x - of_le y) 1 3 [9; 5; 0; 3; 1; 4; 0; 9] in
  m' = [9; 4; 0; 5; 0; 3; 1; 9] /\ StronglySorted (fun x y => of_le x - of_le y <= 0) (elems 2 1 3 m').
Proof.
  split; [vm_compute; reflexivity|].
  apply (qsort_correct 2 (fun x y => of_le x - of_le y) 1 3 [9; 5; 0; 3; 1; 4; 0; 9]); [lia|intros; lia|intros; lia|lia|vm_compute; discriminate].
Defined.

End Qsort.
