(* ===== verification/Fnmatch.v ===== *)
(** File-name patterns (src/libc/string/fnmatch.c) against the usual meaning of
    [*], [?], [[...]] and [\ ]: an accepted name matches its pattern, and for
    patterns without a star the answer is exact.  A star matches no empty text
    unless it is last, and the search for a later match does not advance, so
    that it can run for ever. *)

From stdpp Require Import base tactics numbers option sets list.
From Stdlib Require Import ZArith Lia.
From S2P Require Import Prelude Strtol.

Module Fnmatch.
Import Strtol.

Definition FNM_NOMATCH : Z := 1.
Definition FNM_NOESCAPE : Z := 4.

(** ** The code *)

(** [while ( *p == '*') p++;] *)
Fixpoint skip_stars (p : list Z) : list Z := match p with c :: p' => if c =? 42 then skip_stars p' else p | [] => [] end.

(** The loop over a character class, from behind the negation: whether [c] is
    in it, and the pattern behind it. *)
Fixpoint class_loop (c : Z) (matched : bool) (p : list Z) : bool * list Z :=
  match p with
  | [] => (matched, [])
  | a :: p1 =>
      if a =? 93 then (matched, p1)
      else
        match p1 with
        | d :: e :: p3 =>
            if (d =? 45) && negb (e =? 93) then class_loop c (matched || ((a <=? c) && (c <=? e))) p3 else class_loop c (matched || (c =? a)) p1
        | _ => class_loop c (matched || (c =? a)) p1
        end
  end.
Definition class (c : Z) (p : list Z) : bool * list Z :=
  let negate := (chr p =? 33) || (chr p =? 94) in
  let '(matched, p) := class_loop c false (if negate then tail p else p) in
  (xorb negate matched, p).

Section flags.
Context (flags : Z).

(** One character [c] of the name against a pattern that does not begin with
    a star: the pattern behind it if they match. *)
Definition match_one (c : Z) (p : list Z) : option (list Z) :=
  if chr p =? 63 then Some (tail p)
  else if (chr p =? 91) && negb (chr (tail p) =? 0) then
    let '(matched, p) := class c (tail p) in if matched then Some p else None
  else if (chr p =? 92) && (Z.land flags FNM_NOESCAPE =? 0) then
    if chr (tail p) =? c then Some (tail (tail p)) else None
  else if chr p =? c then Some (tail p) else None.

(** [retry] is [p_retry] and [s_retry]. *)
Fixpoint fnmatch_loop (fuel : nat) (p s : list Z) (retry : option (list Z * list Z)) : option Z :=
  match s with
  | [] => Some (match skip_stars p with [] => 0 | _ => FNM_NOMATCH end)
  | c :: s' =>
      match fuel with
      | O => None
      | S fuel =>
          if chr p =? 42 then
            match skip_stars p with
            | [] => Some 0
            | p' => fnmatch_loop fuel p' s' (Some (p', s'))
            end
          else
            match match_one c p with
            | Some p' => fnmatch_loop fuel p' s' retry
            | None => match retry with Some (p', s') => fnmatch_loop fuel p' s' retry | None => Some FNM_NOMATCH end
            end
      end
  end.

(** ** What a pattern means *)

Inductive glob : list Z -> list Z -> Prop :=
  | glob_nil : glob [] []
  | glob_star_none p s : glob p s -> glob (42 :: p) s
  | glob_star_more p c s : glob (42 :: p) s -> glob (42 :: p) (c :: s)
  | glob_one p p' c s : chr p <> 42 -> match_one c p = Some p' -> glob p' s -> glob p (c :: s).

Lemma glob_stars p s : glob (skip_stars p) s -> glob p s.
Proof.
  induction p as [|a p IH]; [done|]. cbn. destruct (Z.eqb_spec a 42) as [->|]; [|done]. intros H. by apply glob_star_none, IH.
Qed.

Lemma glob_star_any p s : glob p [] -> glob (42 :: p) s.
Proof. intros H. induction s as [|c s IH]; [by apply glob_star_none|by apply glob_star_more]. Qed.

Lemma skip_stars_star p : chr p = 42 -> exists p1, p = 42 :: p1 /\ skip_stars p = skip_stars p1.
Proof. destruct p as [|a p]; [done|]. intros E. cbn in E. subst a. by exists p. Qed.

Lemma fnmatch_loop_sound fuel p s retry :
  fnmatch_loop fuel p s retry = Some 0 -> glob p s \/ exists p' s', retry = Some (p', s') /\ glob p' s'.
Proof.
  revert p s retry. induction fuel as [|fuel IH]; intros p [|c s] retry; cbn [fnmatch_loop]; try done.
  1,2: destruct (skip_stars p) eqn:E; [|done]; intros _; left; apply glob_stars; rewrite E; constructor.
  destruct (Z.eqb_spec (chr p) 42) as [Ep|Ep].
  - destruct (skip_stars_star p Ep) as (p1 & -> & E1). rewrite E1. destruct (skip_stars p1) as [|a p2] eqn:E2.
    { intros _. left. apply glob_star_any, glob_stars. rewrite E2. constructor. }
    intros H. left. destruct (IH _ _ _ H) as [Hg|(p' & s' & [= <- <-] & Hg)]; apply glob_star_more, glob_star_none, glob_stars; by rewrite E2.
  - destruct (match_one c p) as [p'|] eqn:Em.
    + intros H. destruct (IH _ _ _ H) as [Hg|Hg]; [left; by eapply glob_one|by right].
    + destruct retry as [[p' s']|]; [|done]. intros H. destruct (IH _ _ _ H) as [Hg|Hg]; [right; by exists p', s'|by right].
Qed.

(** *** Without stars *)

Lemma class_loop_sub c matched p : (class_loop c matched p).2 ⊆ p.
Proof.
  assert (forall n p matched, (length p <= n)%nat -> (class_loop c matched p).2 ⊆ p) as H; [|by eapply H].
  clear. induction n as [|n IH]; intros [|a p1] matched Hn; cbn in Hn |- *; try done; try lia.
  destruct (a =? 93); [cbn; set_solver|]. destruct p1 as [|d [|e p3]]; [by destruct matched; set_solver| |].
  - pose proof (IH [d] (matched || (c =? a)) ltac:(cbn in *; lia)). set_solver.
  - destruct (_ && _); [pose proof (IH p3 (matched || ((a <=? c) && (c <=? e))) ltac:(cbn in *; lia))|
      pose proof (IH (d :: e :: p3) (matched || (c =? a)) ltac:(cbn in *; lia))]; set_solver.
Qed.

Lemma tail_sub (p : list Z) : tail p ⊆ p.
Proof. destruct p; set_solver. Qed.

Lemma match_one_sub c p p' : match_one c p = Some p' -> p' ⊆ p.
Proof.
  unfold match_one, class. pose proof (tail_sub p). pose proof (tail_sub (tail p)). pose proof (tail_sub (tail (tail p))).
  destruct (chr p =? 63); [intros [= <-]; done|]. destruct (_ && _).
  { set (q := if _ : bool then _ else _). pose proof (class_loop_sub c false q) as Hc. destruct (class_loop c false q) as [mt p2]. cbn in Hc.
    assert (q ⊆ tail p) by (unfold q; destruct (_ || _); set_solver). destruct (xorb _ _); [|done]. intros [= <-]. set_solver. }
  destruct (_ && _); destruct (_ =? c); intros [= <-]; set_solver.
Qed.

Lemma chr_in p x : chr p = x -> x <> 0 -> x ∈ p.
Proof. destruct p as [|a p]; cbn; [done|]. intros -> _. by left. Qed.

(** A pattern without a star is decided in one pass. *)
Lemma fnmatch_exact_loop p s fuel :
  42 ∉ p -> (length s <= fuel)%nat -> exists r, fnmatch_loop fuel p s None = Some r /\ (r = 0 <-> glob p s).
Proof.
  revert p s. induction fuel as [|fuel IH]; intros p [|c s] Hp Hf; cbn [length] in Hf; try lia.
  1,2: cbn; assert (skip_stars p = p) as -> by (destruct p as [|a p]; [done|]; cbn; destruct (Z.eqb_spec a 42) as [->|]; [set_solver|done]);
    destruct p as [|a p]; eexists; (split; [reflexivity|]); (split; [intros; constructor|done]) || (split; [done|]); inversion 1; subst; set_solver.
  cbn [fnmatch_loop]. destruct (Z.eqb_spec (chr p) 42) as [E|E]; [by apply chr_in in E|].
  destruct (match_one c p) as [p'|] eqn:Em.
  - destruct (IH p' s) as (r & Er & Hr); [intros Hin; apply Hp; by eapply match_one_sub|lia|]. exists r. split; [done|]. rewrite Hr. split.
    + intros Hg. by eapply glob_one.
    + inversion 1; subst; [done|done|]. congruence.
  - exists FNM_NOMATCH. split; [done|]. split; [done|]. inversion 1; subst; [done|done|]. congruence.
Qed.

End flags.

(** [fnmatch] with so many rounds; [None] when it is still running. *)
Definition fnmatch (fuel : nat) (pattern string : list Z) (flags : Z) : option Z := fnmatch_loop flags fuel pattern string None.

(** An accepted name matches the pattern. *)
Theorem fnmatch_sound fuel pattern string flags : fnmatch fuel pattern string flags = Some 0 -> glob flags pattern string.
Proof. intros H. destruct (fnmatch_loop_sound flags fuel pattern string None H) as [|(? & ? & [=] & _)]. done. Qed.

(** A pattern without a star is decided, in as many rounds as the name is
    long. *)
Theorem fnmatch_exact pattern string flags :
  42 ∉ pattern -> exists r, fnmatch (length string) pattern string flags = Some r /\ (r = 0 <-> glob flags pattern string).
Proof. intros H. by apply fnmatch_exact_loop. Qed.

(** [*b] against [aac]: the comparison at the second character fails and goes
    back to the second character. *)
Theorem fnmatch_runs_for_ever fuel : fnmatch fuel [42; 98] [97; 97; 99] 0 = None.
Proof.
  unfold fnmatch. destruct fuel as [|fuel]; [done|]. cbn. induction fuel as [|fuel IH]; [done|]. cbn. exact IH.
Qed.

(** [a*b] does not match [ab]: a star takes a character. *)
Example fnmatch_star_takes_one : fnmatch 10 [97; 42; 98] [97; 98] 0 = Some FNM_NOMATCH /\ glob 0 [97; 42; 98] [97; 98].
Proof.
  split; [vm_compute; reflexivity|]. eapply glob_one; [done|reflexivity|]. apply glob_star_none. eapply glob_one; [done|reflexivity|]. constructor.
Qed.

End Fnmatch.
