(* ===== verification/Timer.v ===== *)
(** Kernel timers (src/kernel/time/timer.c).  The ring behind
    [timer_list_head] is the sequence of its timers, on which the list
    operations act as CList.v shows.  In every sequence of additions, removals,
    ticks and runs of [do_timer] a timer is on the list exactly while it is
    marked active and fires only after it has expired; but [add_timer] does not
    keep the list in order, so that an expired timer can wait behind one that
    has not. *)

From stdpp Require Import base tactics numbers option gmap relations list.
From Stdlib Require Import ZArith Lia.
From S2P Require Import Prelude.

Module Timer.

(** [timer_t] without its links and its callback. *)
Record timer := mk_timer { expire_jiffies : Z; active : bool; running : bool }.

(** The timers by address, [jiffies], the list, and the timers whose callback
    was called, with the time of the call, latest first. *)
Record tstate := mk_tstate { timers : gmap Z timer; jiffies : Z; queue : list Z; fired : list (Z * Z) }.

Definition timer_init : tstate := mk_tstate ∅ 0 [] [].

Definition expire (s : tstate) (t : Z) : Z := from_option expire_jiffies 0 (timers s !! t).
Definition is_active (s : tstate) (t : Z) : bool := from_option active false (timers s !! t).
Definition set_timer (t : Z) (x : timer) (s : tstate) : tstate := mk_tstate (<[t := x]> (timers s)) (jiffies s) (queue s) (fired s).
Definition set_queue (q : list Z) (s : tstate) : tstate := mk_tstate (timers s) (jiffies s) q (fired s).

(** [init_timer]: the expiry is relative to now; [running] is kept. *)
Definition init_timer (t expire_in : Z) (s : tstate) : tstate :=
  set_timer t (mk_timer (jiffies s +u expire_in) false (from_option running false (timers s !! t))) s.

(** [create_timer], with the address [calloc] returned. *)
Definition create_timer (t expire_in : Z) (s : tstate) : option Z * tstate :=
  if t =? 0 then (None, s) else (Some t, init_timer t expire_in (set_timer t (mk_timer 0 false false) s)).

(** The walk of [add_timer]: the timers before the first one that does not
    expire earlier, that one, and the rest. *)
Fixpoint walk_to (s : tstate) (e : Z) (q : list Z) : list Z * list Z :=
  match q with
  | [] => ([], [])
  | x :: q' => if expire s x <? e then let '(a, b) := walk_to s e q' in (x :: a, b) else ([], q)
  end.

(** [list_add_to_behind(&tmp->list, &timer->list)]: behind that timer, or
    behind the head when the walk came round to it. *)
Definition add_timer (t : Z) (s : tstate) : tstate :=
  let q' :=
    match queue s with
    | [] => [t]
    | q => match walk_to s (expire s t) q with
           | (a, tmp :: b) => a ++ tmp :: t :: b
           | (a, []) => t :: a
           end
    end in
  match timers s !! t with
  | Some x => set_queue q' (set_timer t (mk_timer (expire_jiffies x) true (running x)) s)
  | None => s
  end.

Definition del_timer (t : Z) (s : tstate) : tstate :=
  match timers s !! t with
  | Some x => if active x then set_queue (filter (fun u => u <> t) (queue s)) (set_timer t (mk_timer (expire_jiffies x) false (running x)) s) else s
  | None => s
  end.

(** The rest of [destroy_timer] once [del_timer] is done: [None] while the
    callback runs, in which case the loop tries again; then the timer is
    freed. *)
Definition destroy_free (t : Z) (s : tstate) : option tstate :=
  match timers s !! t with
  | Some x => if running x then None else Some (mk_tstate (delete t (timers s)) (jiffies s) (queue s) (fired s))
  | None => Some s
  end.

(** One round of [do_timer] up to the callback: the first timer of the list if
    it has expired. *)
Definition fire_first (s : tstate) : option tstate :=
  match queue s with
  | t :: q =>
      if expire s t <=? jiffies s then
        Some (mk_tstate (<[t := mk_timer (expire s t) false true]> (timers s)) (jiffies s) q ((t, jiffies s) :: fired s))
      else None
  | [] => None
  end.

(** The end of the callback. *)
Definition callback_done (t : Z) (s : tstate) : tstate :=
  match timers s !! t with Some x => set_timer t (mk_timer (expire_jiffies x) (active x) false) s | None => s end.

(** [do_timer] when the callbacks touch no timer; every round shortens the
    list. *)
Fixpoint do_timer (fuel : nat) (s : tstate) : tstate :=
  match fuel, queue s with
  | S fuel, t :: _ => match fire_first s with Some s' => do_timer fuel (callback_done t s') | None => s end
  | _, _ => s
  end.

Definition timer_has_expired (now : Z) (s : tstate) : bool := match queue s with t :: _ => expire s t <=? now | [] => false end.

(** ** Interleavings *)

(** Callbacks run without the lock, so other calls come in between.  A timer
    is initialised and added only while it is not active, and nobody adds it
    once it is being destroyed. *)
Inductive tick_step (s : tstate) : tstate -> Prop :=
  | step_init t e : is_active s t = false -> 0 <= e -> tick_step s (init_timer t e s)
  | step_add t : is_active s t = false -> is_Some (timers s !! t) -> tick_step s (add_timer t s)
  | step_del t : tick_step s (del_timer t s)
  | step_tick : jiffies s + 1 < U64 -> tick_step s (mk_tstate (timers s) (jiffies s + 1) (queue s) (fired s))
  | step_fire s' : fire_first s = Some s' -> tick_step s s'
  | step_callback t : tick_step s (callback_done t s)
  | step_create t e : timers s !! t = None -> 0 <= e -> tick_step s (create_timer t e s).2
  | step_destroy t s' : is_active s t = false -> destroy_free t s = Some s' -> tick_step s s'.

Definition timers_ok (s : tstate) : Prop := NoDup (queue s) /\ forall t, t ∈ queue s <-> is_active s t = true.

Lemma active_insert s t x u q :
  from_option active false (<[t := x]> (timers s) !! u) = (if decide (u = t) then active x else is_active s u) /\
  is_active (set_queue q (set_timer t x s)) u = (if decide (u = t) then active x else is_active s u).
Proof.
  unfold is_active, set_queue, set_timer. cbn. destruct (decide (u = t)) as [->|]; [by rewrite lookup_insert_eq|by rewrite lookup_insert_ne].
Qed.

Lemma walk_to_app s e q : (walk_to s e q).1 ++ (walk_to s e q).2 = q.
Proof. induction q as [|x q IH]; [done|]. cbn. destruct (_ <? e); [|done]. destruct (walk_to s e q). cbn in *. by rewrite IH. Qed.

(** The timer joins the others, wherever it is put. *)
Lemma add_timer_queue t s x : timers s !! t = Some x ->
  queue (add_timer t s) ≡ₚ t :: queue s /\ forall u, is_active (add_timer t s) u = if decide (u = t) then true else is_active s u.
Proof.
  intros Ht. unfold add_timer. rewrite Ht. split; [|intros u; by rewrite (proj2 (active_insert s t _ u _))]. cbn [set_queue queue].
  destruct (queue s) as [|y q] eqn:Eq; [done|]. rewrite <-Eq. pose proof (walk_to_app s (expire s t) (queue s)) as E.
  destruct (walk_to s (expire s t) (queue s)) as [a [|z b]]; cbn [fst snd] in E; rewrite <-E; [by rewrite app_nil_r|].
  by rewrite (Permutation_swap t z b), <-(Permutation_middle a (z :: b) t).
Qed.

(** Initialising a timer that is not active, or freeing it, changes nothing
    for the list. *)
Lemma active_init t e s u : is_active s t = false -> is_active (init_timer t e s) u = is_active s u.
Proof.
  intros Hi. unfold is_active, init_timer, set_timer in *. cbn.
  destruct (decide (u = t)) as [->|]; [by rewrite lookup_insert_eq|by rewrite lookup_insert_ne].
Qed.
Lemma active_create t e s u : is_active s t = false -> is_active (create_timer t e s).2 u = is_active s u.
Proof.
  intros Hi. unfold create_timer. destruct (t =? 0); [done|]. unfold is_active, init_timer, set_timer in *. cbn.
  destruct (decide (u = t)) as [->|]; [by rewrite lookup_insert_eq|by rewrite !lookup_insert_ne].
Qed.
Lemma destroy_free_spec t s s' :
  is_active s t = false -> destroy_free t s = Some s' ->
  queue s' = queue s /\ fired s' = fired s /\ forall u, is_active s' u = is_active s u.
Proof.
  intros Hi. unfold destroy_free. destruct (timers s !! t) as [x|]; [destruct (running x); [done|]|]; intros [= <-]; [|done].
  split_and!; [done|done|]. intros u. unfold is_active in *. cbn.
  destruct (decide (u = t)) as [->|]; [by rewrite lookup_delete_eq|by rewrite lookup_delete_ne].
Qed.
Lemma create_timer_rest t e s : queue (create_timer t e s).2 = queue s /\ fired (create_timer t e s).2 = fired s.
Proof. unfold create_timer. by destruct (t =? 0). Qed.

Lemma tick_step_ok s s' : tick_step s s' -> timers_ok s -> timers_ok s'.
Proof.
  intros Hs [Hd Ha]. destruct Hs as [t e Hi He|t Hi [x Ht]|t|Hj|s' Hf|t|t e Hi He|t s' Hi Hf].
  - split; [done|]. intros u. by rewrite active_init, <-Ha.
  - destruct (add_timer_queue t s x Ht) as [Hq Hact]. split.
    + rewrite Hq. apply NoDup_cons. split; [|done]. rewrite Ha, Hi. done.
    + intros u. rewrite Hq, Hact, elem_of_cons, Ha. destruct (decide (u = t)) as [->|]; naive_solver.
  - unfold del_timer. destruct (timers s !! t) as [x|] eqn:Ht; [|done]. destruct (active x) eqn:Ex; [|done]. split; cbn; [by apply NoDup_filter|].
    intros u. rewrite (proj2 (active_insert s t _ u _)). cbn. rewrite list_elem_of_filter, Ha. destruct (decide (u = t)); naive_solver.
  - done.
  - unfold fire_first in Hf. destruct (queue s) as [|t q] eqn:Eq; [done|]. destruct (_ <=? _); [|done]. injection Hf as <-.
    apply NoDup_cons in Hd as [Hn Hd]. split; [done|]. intros u. unfold is_active at 1. cbn. rewrite (proj1 (active_insert s t _ u [])). cbn.
    specialize (Ha u). rewrite elem_of_cons in Ha. destruct (decide (u = t)) as [->|]; naive_solver.
  - unfold callback_done. destruct (timers s !! t) as [x|] eqn:Ht; [|done]. split; [done|]. intros u. rewrite Ha. unfold is_active, set_timer. cbn.
    destruct (decide (u = t)) as [->|]; [by rewrite lookup_insert_eq, Ht|by rewrite lookup_insert_ne].
  - unfold timers_ok. rewrite (proj1 (create_timer_rest t e s)). split; [done|]. intros u. rewrite active_create; [done|]. unfold is_active. by rewrite Hi.
  - destruct (destroy_free_spec t s s' Hi Hf) as (Eq & _ & Eu). unfold timers_ok. rewrite Eq. split; [done|]. intros u. by rewrite Eu.
Qed.

(** In every interleaving a timer is on the list exactly once while it is
    active and not at all otherwise, and the one that fires has expired. *)
Theorem timers_sound s s' : rtc tick_step timer_init s -> tick_step s s' ->
  timers_ok s /\ forall t now, fired s' = (t, now) :: fired s -> now = jiffies s /\ expire s t <= now /\ t ∈ queue s /\ is_active s' t = false.
Proof.
  intros Hr Hs. assert (timers_ok s) as Hok.
  { clear Hs. assert (timers_ok timer_init) as H0 by (split; [constructor|intros t; cbn; split; [intros H; by apply not_elem_of_nil in H|done]]).
    revert H0. induction Hr as [s|s1 s2 s3 H12 _ IH]; [done|]. intros H0. apply IH. by eapply tick_step_ok. }
  split; [done|]. intros t now Hf.
  assert (forall (l : list (Z * Z)) y, l <> y :: l) as Hne by (intros l y E; apply (f_equal length) in E; cbn in E; lia).
  destruct Hs as [u e Hi He|u Hi [x Ht]|u|Hj|s' Hff|u|u e Hi He|u s' Hi Hff]; cbn in Hf.
  - by apply Hne in Hf.
  - unfold add_timer in Hf. rewrite Ht in Hf. cbn in Hf. by apply Hne in Hf.
  - unfold del_timer in Hf. destruct (timers s !! u) as [x|]; [destruct (active x)|]; by apply Hne in Hf.
  - by apply Hne in Hf.
  - unfold fire_first in Hff. destruct (queue s) as [|y q] eqn:Eq; [done|]. destruct (Z.leb_spec (expire s y) (jiffies s)); [|done].
    injection Hff as <-. cbn in Hf. injection Hf as <- <-. split_and!; [done|done|set_solver|]. unfold is_active. cbn. by rewrite lookup_insert_eq.
  - unfold callback_done in Hf. destruct (timers s !! u) as [x|]; by apply Hne in Hf.
  - rewrite (proj2 (create_timer_rest u e s)) in Hf. by apply Hne in Hf.
  - destruct (destroy_free_spec u s s' Hi Hff) as (_ & Ef & _). rewrite Ef in Hf. by apply Hne in Hf.
Qed.

(** A timer that expires at 100 and one that expires at 200, added in that
    order: at 150 the first is late, and [do_timer] does nothing. *)
Example expired_timer_waits :
  let s := add_timer 2 (add_timer 1 (init_timer 2 200 (init_timer 1 100 timer_init))) in
  let s150 := mk_tstate (timers s) 150 (queue s) (fired s) in
  queue s = [2; 1] /\ expire s150 1 = 100 /\ fired (do_timer 10 s150) = [] /\ timer_has_expired 150 s150 = false.
Proof. vm_compute. done. Qed.

End Timer.
