(* ===== verification/Pipe.v ===== *)
(** Pipes (src/kernel/fs/file.c): the ring buffer, and readers and writers that
    interleave its critical sections.  What the readers have committed is at all
    times a prefix of what the writers have put in, the rest is in the ring, and
    a read that faults loses nothing.  The paths that sleep and those that wake
    take the two locks in opposite orders, and can wait for each other for
    ever; so can a reader that waits for its turn. *)

From stdpp Require Import base tactics numbers option relations list.
From Stdlib Require Import ZArith Lia.
From S2P Require Import Prelude Bytes Conc Mutex.

Module Pipe.
Import Bytes Conc.

Abbreviation PIPE_SIZE := 512 (only parsing).

(** ** The ring *)

(** [pipe_t]; [put] and [taken] are the bytes written and the bytes read so
    far. *)
Record pipe := mk_pipe { buf : list Z; head : Z; tail : Z; readers : Z; writers : Z; read_busy : bool; put : list Z; taken : list Z }.

(** [kmalloc] does not clear the buffer. *)
Definition pipe_alloc (garbage : list Z) : pipe := mk_pipe garbage 0 0 1 1 false [] [].

Definition pipe_empty (p : pipe) : bool := head p =? tail p.
Definition pipe_full (p : pipe) : bool := (head p + 1) mod PIPE_SIZE =? tail p.
Definition pipe_avail (p : pipe) : Z := (head p - tail p + PIPE_SIZE) mod PIPE_SIZE.

(** [p->buf[p->head] = c; p->head = (p->head + 1) % PIPE_SIZE;] *)
Definition put_byte (c : Z) (p : pipe) : pipe :=
  mk_pipe (splice (head p) [c] (buf p)) ((head p + 1) mod PIPE_SIZE) (tail p) (readers p) (writers p) (read_busy p) (put p ++ [c]) (taken p).

(** The loop of [pipe_write_internal] that drains the staged bytes into the
    ring: the pipe and the bytes that did not fit. *)
Fixpoint drain (staged : list Z) (p : pipe) : pipe * list Z :=
  match staged with
  | c :: rest => if pipe_full p then (p, staged) else drain rest (put_byte c p)
  | [] => (p, [])
  end.

(** The peek of [pipe_read_internal]: up to [size] bytes, in one piece or in
    two. *)
Definition peek (size : Z) (p : pipe) : list Z :=
  let avail := if size <? pipe_avail p then size else pipe_avail p in
  if tail p + avail <=? PIPE_SIZE then slice (tail p) avail (buf p)
  else let first := PIPE_SIZE - tail p in slice (tail p) first (buf p) ++ slice 0 (avail - first) (buf p).

(** The commit: [tail] moves over the bytes that were copied. *)
Definition commit (l : list Z) (p : pipe) : pipe :=
  mk_pipe (buf p) (head p) ((tail p + zlen l) mod PIPE_SIZE) (readers p) (writers p) (read_busy p) (put p) (taken p ++ l).

Definition set_busy (b : bool) (p : pipe) : pipe := mk_pipe (buf p) (head p) (tail p) (readers p) (writers p) b (put p) (taken p).

(** The bytes in the ring, oldest first. *)
Definition content (p : pipe) : list Z := (fun k : nat => byte (buf p) ((tail p + Z.of_nat k) mod PIPE_SIZE)) <$> seq 0 (Z.to_nat (pipe_avail p)).

Definition ring_ok (p : pipe) : Prop := zlen (buf p) = PIPE_SIZE /\ 0 <= head p < PIPE_SIZE /\ 0 <= tail p < PIPE_SIZE.

Lemma content_length p : ring_ok p -> Z.of_nat (length (content p)) = pipe_avail p /\ 0 <= pipe_avail p < PIPE_SIZE.
Proof. intros _. unfold content, pipe_avail. rewrite length_fmap, length_seq. dlia. Qed.

Lemma pipe_full_spec p : ring_ok p -> pipe_full p = (Z.of_nat (length (content p)) =? PIPE_SIZE - 1).
Proof.
  intros Hr. destruct (content_length p Hr) as [-> _]. destruct Hr as (_ & Hh & Ht). unfold pipe_full, pipe_avail.
  destruct (Z.eqb_spec ((head p + 1) mod PIPE_SIZE) (tail p)), (Z.eqb_spec ((head p - tail p + PIPE_SIZE) mod PIPE_SIZE) (PIPE_SIZE - 1)); try done; dlia.
Qed.

Lemma content_lookup p k : (k < length (content p))%nat -> content p !! k = Some (byte (buf p) ((tail p + Z.of_nat k) mod PIPE_SIZE)).
Proof.
  intros Hk. unfold content in *. rewrite length_fmap, length_seq in Hk. by rewrite list_lookup_fmap, lookup_seq_lt.
Qed.

Lemma put_byte_spec c p :
  ring_ok p -> pipe_full p = false -> ring_ok (put_byte c p) /\ content (put_byte c p) = content p ++ [c] /\ put (put_byte c p) = put p ++ [c].
Proof.
  intros Hr Hf. destruct (content_length p Hr) as [Hl Ha]. rewrite (pipe_full_spec p Hr) in Hf. apply Z.eqb_neq in Hf.
  pose proof Hr as (Hb & Hh & Ht). assert (ring_ok (put_byte c p)) as Hr'.
  { unfold ring_ok. cbn. rewrite zlen_splice by (unfold zlen in *; cbn; lia). split_and!; try done; dlia. }
  assert (pipe_avail (put_byte c p) = pipe_avail p + 1) as Ea by (unfold pipe_avail in *; cbn; dlia).
  destruct (content_length _ Hr') as [Hl' _]. split_and!; [done| |done]. apply list_eq. intros k.
  destruct (decide (k < length (content (put_byte c p)))%nat) as [Hk|Hk].
  2: { rewrite !lookup_ge_None_2; [done|rewrite length_app; cbn; lia|lia]. }
  rewrite content_lookup by done. cbn [put_byte buf tail]. rewrite byte_splice by (unfold zlen in *; cbn; lia). change (zlen [c]) with 1.
  destruct (decide (k = length (content p))) as [->|Hne].
  - rewrite lookup_app_r, Nat.sub_diag by lia. cbn. assert ((tail p + Z.of_nat (length (content p))) mod PIPE_SIZE = head p) as -> by (rewrite Hl; unfold pipe_avail; dlia).
    bools; try lia. rewrite Z.sub_diag. done.
  - rewrite lookup_app_l, content_lookup by lia. f_equal.
    assert (Z.of_nat k < pipe_avail p) as Hka by lia.
    assert ((tail p + Z.of_nat k) mod PIPE_SIZE <> head p) as Hn by (clear - Hka Hh Ht; unfold pipe_avail in Hka; dlia). bools; try lia; done.
Qed.

Lemma drain_spec staged p :
  ring_ok p -> let '(p', rest) := drain staged p in exists done,
  staged = done ++ rest /\ ring_ok p' /\ content p' = content p ++ done /\ put p' = put p ++ done /\ tail p' = tail p /\
  taken p' = taken p /\ read_busy p' = read_busy p /\ (rest <> [] -> pipe_full p' = true).
Proof.
  revert p. induction staged as [|c staged IH]; intros p Hr; cbn [drain].
  { exists []. rewrite !app_nil_r. done. }
  destruct (pipe_full p) eqn:Ef; [exists []; by rewrite !app_nil_r|].
  destruct (put_byte_spec c p Hr Ef) as (Hr' & Hc & Hp). specialize (IH (put_byte c p) Hr'). destruct (drain staged (put_byte c p)) as [p' rest].
  destruct IH as (d & -> & H1 & H2 & H3 & H4 & H5 & H6 & H7). exists (c :: d). rewrite H2, H3, Hc, Hp, <-!app_assoc. done.
Qed.

Lemma byte_app l l' k : byte (l ++ l') k = if k <? zlen l then byte l k else byte l' (k - zlen l).
Proof.
  unfold byte, zlookup, zlen. destruct (Z.ltb_spec k (Z.of_nat (length l))), (Z.leb_spec 0 k); try done; try lia.
  - by rewrite lookup_app_l by lia.
  - rewrite lookup_app_r by lia. destruct (Z.leb_spec 0 (k - Z.of_nat (length l))); [|lia]. do 2 f_equal. lia.
Qed.

(** The peek sees the front of the ring. *)
Lemma peek_spec size p : ring_ok p -> 0 <= size -> peek size p = take (Z.to_nat size) (content p).
Proof.
  intros Hr Hs. destruct (content_length p Hr) as [Hl Ha]. pose proof Hr as (Hb & Hh & Ht).
  set (avail := if size <? pipe_avail p then size else pipe_avail p).
  assert (0 <= avail <= pipe_avail p /\ avail <= size /\ (avail = size \/ avail = pipe_avail p)) as Hav by (unfold avail; destruct (Z.ltb_spec size (pipe_avail p)); lia).
  assert (take (Z.to_nat size) (content p) = take (Z.to_nat avail) (content p)) as ->.
  { destruct Hav as (_ & Hle & [E|E]); rewrite E in Hle |- *; [done|]. rewrite !take_ge by lia. done. }
  assert (forall x, x = take (Z.to_nat avail) (content p) <-> zlen x = avail /\ forall k, 0 <= k < avail -> byte x k = byte (buf p) ((tail p + k) mod PIPE_SIZE)) as Hx.
  { intros x. assert (zlen (take (Z.to_nat avail) (content p)) = avail) as Lt by (unfold zlen; rewrite length_take; lia).
    assert (forall k, 0 <= k < avail -> byte (take (Z.to_nat avail) (content p)) k = byte (buf p) ((tail p + k) mod PIPE_SIZE)) as Bt.
    { intros k Hk. unfold byte at 1, zlookup. destruct (Z.leb_spec 0 k); [|lia]. rewrite lookup_take_lt, content_lookup by lia. cbn. do 3 f_equal. lia. }
    split; [by intros ->|]. intros [L B]. apply byte_ext; [lia|]. intros k Hk. rewrite L in Hk. by rewrite B, Bt by lia. }
  apply Hx. unfold peek. fold avail. destruct (Z.leb_spec (tail p + avail) PIPE_SIZE) as [Hc|Hc].
  - split; [apply zlen_slice; lia|]. intros k Hk. rewrite byte_slice by lia. f_equal. dlia.
  - assert (zlen (slice (tail p) (PIPE_SIZE - tail p) (buf p)) = PIPE_SIZE - tail p) as L1 by (apply zlen_slice; lia).
    assert (zlen (slice 0 (avail - (PIPE_SIZE - tail p)) (buf p)) = avail - (PIPE_SIZE - tail p)) as L2 by (apply zlen_slice; lia).
    split; [unfold zlen in *; rewrite length_app; lia|]. intros k Hk. rewrite byte_app. rewrite L1. destruct (Z.ltb_spec k (PIPE_SIZE - tail p)); rewrite byte_slice by lia; f_equal; dlia.
Qed.

Lemma pipe_commit_spec l p :
  ring_ok p -> l `prefix_of` content p -> ring_ok (commit l p) /\ content p = l ++ content (commit l p).
Proof.
  intros Hr Hpre. destruct (content_length p Hr) as [Hl Ha]. pose proof Hr as (Hb & Hh & Ht). pose proof (prefix_length _ _ Hpre) as Hlen.
  assert (ring_ok (commit l p)) as Hr' by (unfold ring_ok; cbn; split_and!; try done; dlia). split; [done|].
  destruct (content_length _ Hr') as [Hl' _].
  assert (pipe_avail (commit l p) = pipe_avail p - zlen l) as Ea.
  { assert (0 <= zlen l <= pipe_avail p) as Hz by (unfold zlen; lia). clear - Hz Hh Ht. unfold pipe_avail in *. cbn. dlia. }
  apply list_eq. intros k. destruct (decide (k < length l)%nat) as [Hk|Hk].
  { rewrite lookup_app_l by done. destruct Hpre as [z ->]. by rewrite lookup_app_l. }
  rewrite lookup_app_r by lia. destruct (decide (k < length (content p))%nat) as [Hk2|Hk2].
  - rewrite !content_lookup by (unfold zlen in *; lia). f_equal. cbn [commit buf tail]. f_equal. unfold zlen. rewrite Zplus_mod_idemp_l. f_equal. lia.
  - rewrite !lookup_ge_None_2; [done|unfold zlen in *; lia|lia].
Qed.

(** ** Readers and writers *)

(** Where a task is in [pipe_write_internal], with the bytes it has still to
    write, or in [pipe_read_internal]: waiting for its turn, waiting for data,
    at the peek, copying to the user, at the commit, at the release. *)
Inductive pp_pc :=
  | PIdle | PWrite (rest : list Z) | PReserve (size : Z) | PWait (size : Z) | PPeek (size : Z) | PCopy (l : list Z) | PCommit (l : list Z) | PRelease.

(** One round of [pipe_write_internal]: the bytes that fit of the first 512 go
    into the ring, unless the copy from the user faults or a signal ends the
    call first; the call ends when nothing is left, or when nothing fitted and
    there is no reader. *)
Definition pipe_write_round (rest : list Z) (p : pipe) : list (pipe * pp_pc) :=
  let '(p', unput) := drain (take 512 rest) p in
  let rest' := unput ++ drop 512 rest in
  [(p, PIdle);
   if bool_decide (rest' = []) then (p', PIdle)
   else if bool_decide (unput = take 512 rest) then (if readers p =? 0 then (p', PIdle) else (p', PWrite rest'))
   else (p', PWrite rest')].

Section machine.
(** The writes and the sizes of the reads the tasks may ask for. *)
Context (msgs : list (list Z)) (sizes : list Z).

(** [file_free] of an end: the reading one and the writing one. *)
Definition close_readers (p : pipe) : pipe := mk_pipe (buf p) (head p) (tail p) (readers p - 1) (writers p) (read_busy p) (put p) (taken p).
Definition close_writers (p : pipe) : pipe := mk_pipe (buf p) (head p) (tail p) (readers p) (writers p - 1) (read_busy p) (put p) (taken p).

(** A critical section of [p->lock] or of [read_busy_lock] is one step; a task
    that sleeps tries again.  An end is closed once.  A read may end early by a
    signal, by a failed allocation, or by a fault of the copy, whose callback
    releases the reservation. *)
Definition pp_tstep (_ : nat) (p : pipe) (q : pp_pc) : list (pipe * pp_pc) :=
  match q with
  | PIdle =>
      (p, PIdle) :: (if 0 <? readers p then close_readers p else p, PIdle) :: (if 0 <? writers p then close_writers p else p, PIdle) ::
      map (fun m => (p, PWrite m)) msgs ++ map (fun s => (p, PReserve (Z.abs s))) sizes
  | PWrite rest => pipe_write_round rest p
  | PReserve size => [if read_busy p then (p, PReserve size) else (set_busy true p, PWait size)]
  | PWait size =>
      [(p, PRelease); if pipe_empty p then (if writers p =? 0 then (p, PRelease) else (p, PWait size)) else (p, PPeek size)]
  | PPeek size => [(p, PRelease); (p, PCopy (peek size p))]
  | PCopy l => [(set_busy false p, PIdle); (p, PCommit l)]
  | PCommit l => [(commit l p, PRelease)]
  | PRelease => [(set_busy false p, PIdle)]
  end.

Definition reserved (q : pp_pc) : bool := match q with PWait _ | PPeek _ | PCopy _ | PCommit _ | PRelease => true | _ => false end.

Definition pp_ok (p : pipe) (q : pp_pc) : Prop :=
  match q with
  | PReserve size | PWait size | PPeek size => 0 <= size
  | PCopy l | PCommit l => l `prefix_of` content p
  | _ => True
  end.

(** What was written is what was read and what is in the ring; one reader at a
    time is past the reservation; and what it copied is still at the front. *)
Definition pp_inv (c : cfg pipe pp_pc) : Prop :=
  let p := shared c in
  ring_ok p /\ put p = taken p ++ content p /\ tally reserved (points c) = b2z (read_busy p) /\ Forall (pp_ok p) (points c).

(** A step of a task that leaves the front of the ring to the other readers. *)
Lemma pp_inv_intro c i q p' q' :
  pp_inv c -> points c !! i = Some q -> ring_ok p' -> put p' = taken p' ++ content p' ->
  b2z (read_busy p') = b2z (read_busy (shared c)) - b2z (reserved q) + b2z (reserved q') ->
  (content (shared c) `prefix_of` content p' \/ reserved q = true) -> pp_ok p' q' ->
  pp_inv (mk_cfg p' (<[i := q']> (points c))).
Proof.
  intros (Hr & Hf & Ht & Hok) Hq Hr' Hf' Hb Hpre Hq'. unfold pp_inv. cbn [points shared]. rewrite (tally_insert _ _ _ _ _ Hq).
  split_and!; [done|done|lia|]. apply Forall_lookup. intros j x Hx. apply list_lookup_insert_Some in Hx as [(<- & -> & _)|[Hne Hx]]; [done|].
  pose proof (Forall_lookup_1 _ _ _ _ Hok Hx) as Hox. assert (forall l, x = PCopy l \/ x = PCommit l -> content (shared c) `prefix_of` content p') as Hcp.
  { intros l Hxl. destruct Hpre as [|Hres]; [done|]. exfalso. assert (reserved x = true) as Hrx by by destruct Hxl as [->| ->].
    pose proof (tally_two reserved _ _ _ _ _ Hne Hq Hx Hres Hrx). pose proof (b2z_range (read_busy (shared c))). lia. }
  destruct x; try done; cbn in Hox |- *; (etrans; [exact Hox|]); eauto.
Qed.

Lemma pp_inv_step i q p' q' c :
  pp_inv c -> points c !! i = Some q -> (p', q') ∈ pp_tstep i (shared c) q -> pp_inv (mk_cfg p' (<[i := q']> (points c))).
Proof.
  intros Hinv Hq Hin. pose proof Hinv as (Hr & Hf & Ht & Hok). pose proof (Forall_lookup_1 _ _ _ _ Hok Hq) as Hoq.
  pose proof (tally_in reserved _ _ _ Hq) as Hres.
  assert (forall q2, reserved q2 = reserved q -> pp_ok (shared c) q2 -> pp_inv (mk_cfg (shared c) (<[i := q2]> (points c)))) as Hsame.
  { intros q2 E Hq2. eapply pp_inv_intro; [done|exact Hq|done|done|rewrite E; lia|by left|done]. }
  destruct q; cbn [pp_tstep] in Hin; cbn in Hoq, Hres.
  - rewrite !elem_of_cons, elem_of_app, !list_elem_of_In, !in_map_iff in Hin.
    destruct Hin as [[= -> ->]|[[= -> ->]|[[= -> ->]|[(m & [= <- <-] & _)|(s & [= <- <-] & _)]]]]; try (apply Hsame; cbn; done || lia);
      destruct (0 <? _); try (apply Hsame; done); (eapply pp_inv_intro; [done|exact Hq|done|done|cbn; lia|by left|done]).
  - unfold pipe_write_round in Hin. pose proof (drain_spec (take 512 rest) (shared c) Hr) as Hd. destruct (drain (take 512 rest) (shared c)) as [p2 unput].
    destruct Hd as (d & Hd & Hr2 & Hc & Hp & _ & Htk & Hbz & _).
    assert (forall q2, reserved q2 = false -> pp_ok p2 q2 -> pp_inv (mk_cfg p2 (<[i := q2]> (points c)))) as Hgo.
    { intros q2 E Hq2. eapply pp_inv_intro; [done|exact Hq|done| |rewrite E, Hbz; cbn; lia|left; rewrite Hc; by apply prefix_app_r|done].
      rewrite Hp, Htk, Hc, Hf. by rewrite app_assoc. }
    apply elem_of_cons in Hin as [[= -> ->]|Hin]; [by apply Hsame|].
    destruct (bool_decide _); [|destruct (bool_decide _); [destruct (_ =? _)|]]; step_cases Hin; by apply Hgo.
  - destruct (read_busy (shared c)) eqn:Eb; step_cases Hin; [by apply Hsame|].
    eapply pp_inv_intro; [done|exact Hq|done|done|cbn; by rewrite Eb|by left|done].
  - apply elem_of_cons in Hin as [[= -> ->]|Hin]; [by apply Hsame|].
    destruct (pipe_empty _); [destruct (_ =? 0)|]; step_cases Hin; by apply Hsame.
  - step_cases Hin; [by apply Hsame|]. apply Hsame; [done|]. cbn. rewrite peek_spec by done. exists (drop (Z.to_nat size) (content (shared c))). by rewrite take_drop.
  - specialize (Hres eq_refl). assert (read_busy (shared c) = true) as Eb by (destruct (read_busy (shared c)); [done|cbn in Ht; lia]).
    step_cases Hin; [|by apply Hsame]. eapply pp_inv_intro; [done|exact Hq|done|done|cbn; by rewrite Eb|by left|done].
  - step_cases Hin. destruct (pipe_commit_spec l (shared c) Hr Hoq) as [Hr2 Hc]. eapply pp_inv_intro; [done|exact Hq|done| |cbn; lia|by right|done].
    cbn. rewrite Hf, Hc at 1. by rewrite app_assoc.
  - specialize (Hres eq_refl). assert (read_busy (shared c) = true) as Eb by (destruct (read_busy (shared c)); [done|cbn in Ht; lia]).
    step_cases Hin. eapply pp_inv_intro; [done|exact Hq|done|done|cbn; by rewrite Eb|by left|done].
Qed.

Lemma pp_inv_reach garbage n c : zlen garbage = PIPE_SIZE -> reach pp_tstep (start (pipe_alloc garbage) PIdle n) c -> pp_inv c.
Proof.
  intros Hg. apply reach_inv; [|intros; by eapply pp_inv_step]. unfold pp_inv, start. cbn [points shared].
  rewrite tally_replicate by done. split_and!; [done|done|done|by apply Forall_replicate].
Qed.

(** C18: a pipe is a queue: in every interleaving of readers and writers, with
    faults, signals and short reads, the bytes the readers have committed
    followed by the bytes in the ring are the bytes the writers have put in, in
    order; the ring holds at most 511 of them; and only one reader at a time is
    between its reservation and its release. *)
Theorem pipe_fifo garbage n c :
  zlen garbage = PIPE_SIZE -> reach pp_tstep (start (pipe_alloc garbage) PIdle n) c ->
  put (shared c) = taken (shared c) ++ content (shared c) /\ (length (content (shared c)) <= 511)%nat /\
  forall i j p q, points c !! i = Some p -> points c !! j = Some q -> reserved p = true -> reserved q = true -> i = j.
Proof.
  intros Hg Hr. destruct (pp_inv_reach garbage n c Hg Hr) as (Hring & Hf & Ht & _). split_and!; [done|destruct (content_length _ Hring); lia|].
  intros i j p q Hp Hq Hrp Hrq. destruct (decide (i = j)) as [|Hne]; [done|].
  pose proof (tally_two reserved _ _ _ _ _ Hne Hp Hq Hrp Hrq). pose proof (b2z_range (read_busy (shared c))). lia.
Qed.

End machine.

Lemma pipe_fifo_witness : exists c,
  play (pp_tstep [[10; 20; 30]] [2]) [(0,3); (0,1); (1,4); (1,0); (1,1); (1,1); (1,1); (1,0)]%nat (start (pipe_alloc (zeros 512)) PIdle 2) = Some c /\
  taken (shared c) = [10; 20] /\ content (shared c) = [30] /\ put (shared c) = taken (shared c) ++ content (shared c).
Proof.
  eexists. split; [vm_compute; reflexivity|]. split; [reflexivity|]. split; [vm_compute; reflexivity|].
  refine (proj1 (pipe_fifo [[10; 20; 30]] [2] (zeros 512) 2 _ _ _)); [vm_compute; reflexivity|].
  apply (play_reach _ [(0,3); (0,1); (1,4); (1,0); (1,1); (1,1); (1,1); (1,0)]%nat). vm_compute. reflexivity.
Defined.

(** ** The locks *)

(** [p->lock] and the lock of [read_wait].  A reader that registers takes the
    second and then, for its check, the first; a writer wakes readers, and so
    takes the second, while it holds the first. *)
Inductive lk_pc := LRegister | LCheck | LDrain | LWake | LDone.

Definition lk_tstep (_ : nat) (m : bool * bool) (q : lk_pc) : list ((bool * bool) * lk_pc) :=
  let '(plock, wqlock) := m in
  match q with
  | LRegister => [if wqlock then (m, q) else ((plock, true), LCheck)]
  | LCheck => [if plock then (m, q) else ((false, false), LDone)]
  | LDrain => [if plock then (m, q) else ((true, wqlock), LWake)]
  | LWake => [if wqlock then (m, q) else ((false, false), LDone)]
  | LDone => []
  end.

(** Each has one lock and waits for the other. *)
Theorem pipe_lock_order_deadlock :
  let c := mk_cfg (true, true) [LCheck; LWake] in
  reach lk_tstep (mk_cfg (false, false) [LRegister; LDrain]) c /\ forall c', reach lk_tstep c c' -> c' = c.
Proof.
  intros c. split; [apply (play_reach _ [(0,0); (1,0)]%nat); reflexivity|].
  intros c'. apply (reach_inv _ (fun c' => c' = c)); [done|]. intros [|[|i]] p m' p' ? -> Hp Hin; [..|done]; injection Hp as <-; vm_compute in Hin;
    by step_cases Hin.
Qed.

(** [pipe_read_reserve] tests [read_busy], then sleeps; [pipe_read_release]
    clears it, then wakes. *)
Inductive rv_pc := VTest | VSleep | VSched | VHave | VClear | VWake | VEnd.

Definition rv_tstep (i : nat) (m : bool * Mutex.wait_queue) (q : rv_pc) : list ((bool * Mutex.wait_queue) * rv_pc) :=
  let '(busy, wq) := m in
  match q with
  | VTest => [if busy then (m, VSleep) else ((true, wq), VHave)]
  | VSleep => [((busy, Mutex.wait_queue_arm i wq), VSched)]
  | VSched => [if default true (Mutex.running wq !! i) then ((busy, Mutex.wait_queue_disarm i wq), VTest) else (m, VSched)]
  | VClear => [((false, wq), VWake)]
  | VWake => [((busy, Mutex.wait_queue_wake_all wq), VEnd)]
  | VHave | VEnd => []
  end.

(** The release comes between the test and the sleep: the reader sleeps for
    ever although nobody has the reservation. *)
Theorem pipe_reserve_lost_wakeup :
  let c := mk_cfg (false, Mutex.mk_wq [0%nat] [false; true]) [VSched; VEnd] in
  reach rv_tstep (mk_cfg (true, Mutex.wait_queue_init 2) [VTest; VClear]) c /\ forall c', reach rv_tstep c c' -> c' = c.
Proof.
  intros c. split; [apply (play_reach _ [(0,0); (1,0); (1,0); (0,0)]%nat); vm_compute; reflexivity|].
  intros c'. apply (reach_inv _ (fun c' => c' = c)); [done|]. intros [|[|i]] p m' p' ? -> Hp Hin; [..|done]; injection Hp as <-; vm_compute in Hin;
    by step_cases Hin.
Qed.

End Pipe.
