(* ===== verification/Canon.v ===== *)
(** The canonical line discipline of the terminals (src/kernel/tty/canon.c):
    input moves from a ring into a line buffer, from which whole lines are
    read.  No byte is lost, duplicated or reordered on the way, and a read
    never crosses the end of a line; but a line longer than the buffer is never
    delivered, and nothing after it either. *)

From stdpp Require Import base tactics numbers option list.
From Stdlib Require Import ZArith Lia.
From S2P Require Import Prelude Bytes.

Module Canon.
Import Bytes.

Abbreviation CANON_BUF_SIZE := 256 (only parsing).
Abbreviation NL := 10 (only parsing).

Section ring.
(** The ring; the line buffer is the list of its [len] bytes. *)
Context (ring : list Z) (head ring_size : Z).

(** Each round adds a byte to the line buffer. *)
Fixpoint accumulate_loop (fuel : nat) (cb : list Z) (tail : Z) : list Z * Z :=
  match fuel with
  | O => (cb, tail)
  | S fuel =>
      if negb (head =? tail) && (zlen cb <? CANON_BUF_SIZE) then
        let c := byte ring tail in
        let tail := (tail + 1) mod ring_size in
        let cb := cb ++ [c] in
        if c =? NL then (cb, tail) else accumulate_loop fuel cb tail
      else (cb, tail)
  end.
Definition canon_accumulate (cb : list Z) (tail : Z) : list Z * Z := accumulate_loop (Z.to_nat (CANON_BUF_SIZE - zlen cb)) cb tail.

(** The bytes in the ring, oldest first. *)
Definition waiting (tail : Z) : list Z :=
  (fun k : nat => byte ring ((tail + Z.of_nat k) mod ring_size)) <$> seq 0 (Z.to_nat (if tail <=? head then head - tail else head - tail + ring_size)).

Lemma next_tail tail : 0 <= tail < ring_size -> (tail + 1) mod ring_size = if tail + 1 =? ring_size then 0 else tail + 1.
Proof.
  intros Ht. destruct (Z.eqb_spec (tail + 1) ring_size) as [->|]; [apply Z_mod_same_full|apply Z.mod_small; lia].
Qed.

Lemma waiting_cons tail :
  0 <= tail < ring_size -> 0 <= head < ring_size -> head <> tail -> waiting tail = byte ring tail :: waiting ((tail + 1) mod ring_size).
Proof.
  intros Ht Hh Hne. pose proof (next_tail tail Ht) as Hn. set (t1 := (tail + 1) mod ring_size) in *. unfold waiting.
  assert (Z.to_nat (if tail <=? head then head - tail else head - tail + ring_size) =
          S (Z.to_nat (if t1 <=? head then head - t1 else head - t1 + ring_size))) as ->.
  { rewrite Hn. destruct (Z.eqb_spec (tail + 1) ring_size); bools; lia. }
  rewrite <-cons_seq, fmap_cons. f_equal; [f_equal; rewrite Z.add_0_r; by apply Z.mod_small|].
  rewrite <-fmap_S_seq, <-list_fmap_compose. apply list_fmap_ext. intros _ k _. cbn. f_equal. unfold t1. rewrite Zplus_mod_idemp_l. f_equal. lia.
Qed.

Lemma accumulate_loop_spec fuel : forall cb tail,
  0 <= tail < ring_size -> 0 <= head < ring_size -> (Z.to_nat (CANON_BUF_SIZE - zlen cb) <= fuel)%nat ->
  let '(cb', tail') := accumulate_loop fuel cb tail in
  cb' ++ waiting tail' = cb ++ waiting tail /\ 0 <= tail' < ring_size /\ zlen cb' <= Z.max (zlen cb) CANON_BUF_SIZE /\
  (tail' = head \/ CANON_BUF_SIZE <= zlen cb' \/ last cb' = Some NL) /\
  exists l, cb' = cb ++ l /\ forall k x, l !! k = Some x -> x = NL -> S k = length l.
Proof.
  induction fuel as [|fuel IH]; intros cb tail Ht Hh Hf; cbn [accumulate_loop].
  { split_and!; try done; try lia. exists []. rewrite app_nil_r. done. }
  destruct (Z.eqb_spec head tail) as [E|Hne]; cbn [negb andb].
  { split_and!; try done; try lia. exists []. rewrite app_nil_r. done. }
  destruct (Z.ltb_spec (zlen cb) CANON_BUF_SIZE).
  2: { split_and!; try done; try lia. exists []. rewrite app_nil_r. done. }
  assert (zlen (cb ++ [byte ring tail]) = zlen cb + 1) as Hl by (unfold zlen; rewrite length_app; cbn; lia).
  assert (0 <= (tail + 1) mod ring_size < ring_size) as Ht' by (apply Z.mod_pos_bound; lia). rewrite (waiting_cons tail) by done.
  destruct (Z.eqb_spec (byte ring tail) NL) as [E|Hnl].
  { split_and!; try lia; [by rewrite <-app_assoc|right; right; by rewrite last_snoc, E|]. exists [byte ring tail]. split; [done|]. by intros [|k] x. }
  specialize (IH (cb ++ [byte ring tail]) ((tail + 1) mod ring_size) Ht' Hh ltac:(lia)). destruct (accumulate_loop _ _ _) as [cb' tail'].
  destruct IH as (H1 & H2 & H3 & H4 & l & -> & Hk). split; [by rewrite H1, <-app_assoc|]. split; [done|]. split; [lia|]. split; [done|].
  exists (byte ring tail :: l). split; [by rewrite <-app_assoc|]. intros [|k] x Hx Hxn; cbn in Hx; [congruence|]. cbn. by rewrite (Hk k x).
Qed.

(** Moving input to the line buffer keeps every byte in its place in the
    stream; it stops at the end of the input, of the buffer, or of a line. *)
Theorem canon_accumulate_correct cb tail :
  0 <= tail < ring_size -> 0 <= head < ring_size -> zlen cb <= CANON_BUF_SIZE ->
  let '(cb', tail') := canon_accumulate cb tail in
  cb' ++ waiting tail' = cb ++ waiting tail /\ 0 <= tail' < ring_size /\ zlen cb' <= CANON_BUF_SIZE /\
  (tail' = head \/ zlen cb' = CANON_BUF_SIZE \/ last cb' = Some NL).
Proof.
  intros Ht Hh Hc. pose proof (accumulate_loop_spec (Z.to_nat (CANON_BUF_SIZE - zlen cb)) cb tail Ht Hh ltac:(lia)) as H. unfold canon_accumulate.
  destruct (accumulate_loop _ _ _) as [cb' tail']. destruct H as (H1 & H2 & H3 & H4 & _). split_and!; try done; try lia. destruct H4 as [?|[?|?]]; auto with lia.
Qed.

End ring.

(** The loop that looks for the first end of line. *)
Fixpoint first_nl (cb : list Z) : Z :=
  match cb with c :: cb' => if c =? NL then 0 else first_nl cb' + 1 | [] => 0 end.

(** What is copied to the caller, and the line buffer afterwards. *)
Definition canon_read (cb : list Z) (size : Z) : list Z * list Z :=
  let i := first_nl cb in
  if i =? zlen cb then ([], cb) else
  let copy := if i + 1 <? size then i + 1 else size in
  (take (Z.to_nat copy) cb, drop (Z.to_nat copy) cb).

Lemma first_nl_spec cb :
  (first_nl cb = zlen cb /\ (NL ∉ cb)) \/ exists l r, cb = l ++ NL :: r /\ (NL ∉ l) /\ first_nl cb = zlen l.
Proof.
  induction cb as [|c cb IH]; cbn [first_nl]; [left; split; [done|apply not_elem_of_nil]|]. destruct (Z.eqb_spec c NL) as [->|Hc].
  { right. exists [], cb. split_and!; [done|apply not_elem_of_nil|done]. }
  destruct IH as [[E Hn]|(l & r & -> & Hn & E)].
  - left. rewrite E. split; [unfold zlen; cbn; lia|]. by apply not_elem_of_cons.
  - right. exists (c :: l), r. rewrite E. split_and!; [done|by apply not_elem_of_cons|unfold zlen; cbn; lia].
Qed.

(** A read takes from the front of the first complete line, all of it if the
    caller has room; without a complete line it takes nothing. *)
Theorem canon_read_correct cb size :
  0 <= size ->
  ((NL ∉ cb) /\ canon_read cb size = ([], cb)) \/
  exists line rest, cb = (line ++ [NL]) ++ rest /\ (NL ∉ line) /\
    canon_read cb size = (take (Z.to_nat size) (line ++ [NL]), drop (Z.to_nat size) (line ++ [NL]) ++ rest).
Proof.
  intros Hs. unfold canon_read. destruct (first_nl_spec cb) as [[E Hn]|(l & r & -> & Hn & E)]; [left; by rewrite E, Z.eqb_refl|].
  right. exists l, r. rewrite <-app_assoc. split_and!; [done|done|]. rewrite E, (proj2 (Z.eqb_neq _ _)) by (unfold zlen; rewrite length_app; cbn; lia).
  change (NL :: r) with ([NL] ++ r). rewrite app_assoc.
  assert (length (l ++ [NL]) = Z.to_nat (zlen l + 1)) as Hl by (unfold zlen; rewrite length_app; cbn; lia).
  destruct (Z.ltb_spec (zlen l + 1) size).
  - rewrite take_app_length', drop_app_length' by done. rewrite take_ge, drop_ge by lia. done.
  - rewrite take_app_le, drop_app_le by lia. done.
Qed.

(** A full line buffer without an end of line stays as it is for ever: input is
    not taken from the ring and reads return nothing. *)
Theorem canon_stuck ring head ring_size cb tail size :
  zlen cb = CANON_BUF_SIZE -> (NL ∉ cb) -> canon_accumulate ring head ring_size cb tail = (cb, tail) /\ canon_read cb size = ([], cb).
Proof.
  intros Hl Hn. split; [unfold canon_accumulate; by rewrite Hl|]. unfold canon_read.
  destruct (first_nl_spec cb) as [[-> _]|(l & r & -> & _)]; [by rewrite Z.eqb_refl|]. destruct Hn. apply elem_of_app. right. left.
Qed.

End Canon.
